(* ===== verification/_CoqProject ===== *)
-Q . S2P
Prelude.v
JsString.v
JsNum.v
JsDate.v
HsTime.v
HsData.v
HsSeries.v
HsAxis.v
HsOrdinal.v
HsText.v
HsExtremes.v
HsScale.v
HsStock.v
HsNavigator.v
HsPoints.v
HsPath.v
HsHover.v
HsMouse.v
HsLegend.v
HsTicks.v
HsChart.v
HsAttribs.v
HsFlags.v
HsWrap.v
HsSlices.v
HsDom.v
HsElement.v
GridHeap.v
GridRows.v
GridLoad.v
GridShow.v
GridPages.v
GridSort.v
GridEdit.v
GridCols.v
GridHead.v
GridDrag.v
GridHtml.v
GridEvents.v
GridRowDrag.v
Json.v
JsonText.v
JsonFacts.v
Component.v
PageText.v
Page.v
Drag.v
Resize.v
Dialog.v
Widgets.v
RegExp.v
Rules.v
ValidRules.v
Validator.v
ValidFacts.v
ValidForm.v
