(* ===== verification/Prelude.v ===== *)
(** * hella: the web front end

    hella schedules jobs; the engine is a Java server, and what its users work
    with are web pages under [hella-engine/webapp].  This library models the
    JavaScript of these pages, everything below [hella-engine/webapp/js] that is
    not minified, and proves what makes its parts correct.  File names below are
    relative to that directory.

    ** The parts of the program

    - the data grid, [ligerUI/js/plugins/ligerGrid.js]: every list page of the
      application is one.  It turns the data of a request into linked records,
      shows them in pages, sorts, filters, selects, edits and moves them;
    - the component library the grid is built on, [ligerUI/js/core/base.js]:
      events, options, the pool of components, the window manager; and its
      widgets: dialogs, dragging, resizing, tool bars, check boxes;
    - the form validation, [validation/]: rules written into the class of a
      field, prompts beside the fields, and the tables of patterns and messages;
    - the page helpers, [LG.js] and [common.js]: requests, loading layers, forms,
      search conditions, permissions, cookies, text;
    - [json2.js], which writes the data that are sent back;
    - the charts of the monitoring pages, [highstock.src.js].

    ** The files of the library

    The language:
    - [Prelude] (this file): exceptions as results ([res]), arrays ([splice],
      [inArray], arrays with holes), objects as insertion-ordered association
      lists ([oget], [oset]), tactics;
    - [JsString]: the string methods the program uses, on characters and on
      16-bit units;
    - [JsNum]: numbers as IEEE 754 doubles, with the order facts the rest needs;
    - [JsDate]: the calendar of the language's specification, in UTC;
    - [RegExp]: regular expressions: their syntax ([parse]), what they match
      ([spans]), a matcher by derivatives and its agreement with that
      ([test_spec]), and the languages of simple patterns.

    Charts ([highstock.src.js]):
    - [HsTime]: [dateFormat], [normalizeTickInterval],
      [normalizeTimeTickInterval], [getTimeTicks].  Proved: the ticks of every
      unit increase strictly and cover the range, the loop returns; the chosen
      unit and count come from the table for every number, [NaN] included; the
      default format;
    - [HsData]: [groupData] and the [approximations], [processData], [getSegments].
      Proved: grouping is a partition of the points by the group positions,
      cropping keeps what is in sight, segments are the points without nulls;
    - [HsSeries]: a series, its parallel arrays and its point objects, as a step
      relation ([step]) over [addPoint], [Point.update], [Point.remove] and
      [generatePoints] from [setData] on.  Proved: the arrays stay parallel in
      every reachable state, the fast loop of [setData] agrees with the slow one;
    - [HsAxis]: linear ticks, [setMaxTicks] and [adjustTickAmount],
      [adjustForMinRange], [Tooltip.getPosition], [RangeSelector.clickButton];
    - [HsOrdinal]: axes without room for times without data:
      [beforeSetTickPositions], [val2lin], [lin2val], their tick positions,
      panning.  Proved: positions are evenly spaced and in order, translating
      there and back gives the time again;
    - [HsText]: numbers, tooltips and colours as texts, [stableSort];
    - [HsExtremes]: [getSeriesExtremes] with its stacks.  Proved: the extremes
      contain what the series draw, the totals are the sums by sign;
    - [HsScale]: translation both ways, plot lines, [setTickPositions],
      [setScale], [setExtremes], [setChartSize].  Proved: an axis draws its range
      inside its length, translating back, and, together with [HsExtremes], that
      a value axis has room for its data and ticks at the multiples of its
      interval;
    - [HsStock]: compared values, gaps, the navigator's ordinal positions;
      [HsNavigator]: the scroller's mouse handlers ([step]) and updates, the
      inputs of the range selector.  Proved: gaps split a segment and lose
      nothing, the range of the navigator stays on the axis;
    - [HsPoints]: stacked values, the pixels of the tooltip, columns, slices and
      their labels; [HsPath]: the paths of lines, steps, splines and areas and
      their animation.  Proved: every pixel has a nearest point, columns stand
      side by side, slices go once round, labels get slots of their own, splines
      make no false extremes, an animated line moves every point straight;
    - [HsHover]: the states of points and series, selection and the tooltip, as
      a step relation ([step]) over the handlers.  Proved: when the mouse leaves
      nothing is hovered, selecting is exclusive unless it accumulates, the
      tooltip arrives;
    - [HsMouse]: dragging, the selection marker, zooming, clicks.  Proved: the
      marker stays on the plot and a selection begins and ends on the axis or at
      most one point after its end;
    - [HsLegend]: the layout and pages of the legend, alignment, the margins of
      the chart.  Proved: items stand apart, the pages show all of the legend,
      the legend lies beside the plot;
    - [HsTicks]: [Tick] and [PlotLineOrBand], [Axis.getOffset] and
      [Axis.render].  Proved: a redrawn axis has a tick for each of its
      positions and no other, justified labels at the ends stay inside the axis
      and off their neighbours;
    - [HsChart]: the axes and series a chart keeps, as a step relation ([step])
      over adding, removing, redrawing, resizing.  Proved: series and axes refer
      to each other in every reachable state, a redraw leaves nothing out of
      date and draws each series once.
    - [HsAttribs]: the attributes of series and points in each of their states,
      markers and data labels.  Proved: every attribute comes from the options of
      the point, of the series or of the state; drawing labels settles them;
    - [HsFlags]: bars, candles and flags.  Proved: the body of a candle lies
      between its wicks, flags stand on their points or on the axis, one above
      the other;
    - [HsWrap]: texts broken into lines ([buildText]).  Proved: wrapping ends and
      keeps every word, in order;
    - [HsSlices]: the elements of columns and of the slices of a pie.  Proved:
      the elements of a slice appear and disappear with it;
    - [HsDom]: the order of elements, as a step relation ([step]) over creating, adding,
      putting in front, emptying and destroying them.  Proved: children of what is only
      added to stand in the order of their zIndex;
    - [HsElement]: the attributes of elements with their special cases, transforms, styles,
      crisp edges, symbols, gradients.  Proved: numbers are read back, crisp edges are
      edges of pixels, where a moved element is drawn.

    The grid ([ligerGrid.js]), whose state is the record [GridHeap.grid]:
    - [GridHeap]: the rows, the arrays of rows and the data sources live in a
      store and are shared by reference, as they are between the grid, its owner
      and the request; what the grid does to the document is a log of events;
    - [GridRows]: [_updateGridData], [_addNewRecord] and the readers of records;
    - [GridLoad]: the specification of [_updateGridData] for data that form a
      forest ([tree], [reps], [entries]) and its refinement theorem;
    - [GridShow]: selection, [_searchData], [_getCurrentPageData], [_buildPager],
      [_showData], [loadData], the callbacks of [loadServerData], [changePage];
    - [GridPages]: the states in which the grid shows a page of its data
      ([Paged]), kept by every action of the pager;
    - [GridSort]: sorters, [_compareData], [changeSort].  Proved: a sort leaves a
      permutation in the order of the column's sorter, and the grid shows its page of it;
    - [GridEdit]: adding, moving, removing, deleting rows, tree rows;
    - [GridCols]: [_initColumns] and what depends on it;
    - [GridHead]: the header as a table, the list of columns with its boxes, the
      sizes of the parts of the grid.  Proved: the header of a tree of columns with
      different ids is a table without gaps, clicks on boxes keep them in step;
    - [GridDrag]: resizing and dragging columns, [changeCol] on the tree of
      columns.  Proved: where a column goes that is dropped on one frozen as itself,
      frozen being a boolean on leaves only;
    - [GridRowDrag]: dragging rows, keys, the mouse handlers, details.  Proved:
      the order of the rows after a drop;
    - [GridHtml]: the text of rows, cells, totals and groups;
    - [GridEvents]: the click handler and the editing of cells.

    The component library and its widgets:
    - [Component]: events, options, the pool and the window manager ([base.js]).
      Proved: the order of handlers, the task bar in every reachable state;
    - [Drag]: [ligerDrag.js] as a state machine of presses, moves, releases and
      animations.  Proved: every drag ends, after presses while the mouse is down
      and failing ones too, where the target goes, what throws;
    - [Resize]: [ligerResizable.js].  Proved: a resize moves the borders its
      handle names and no others; which handle the mouse takes;
    - [Dialog]: [ligerDialog.js].  Proved: in every reachable state a modal
      dialog in sight has the page masked; closing, the largest size, resizing;
    - [Widgets]: check boxes and tool bars ([ligerCheckBox.js],
      [ligerToolBar.js]).

    The form validation ([validation/]):
    - [Rules]: the patterns and messages of the two tables, and the patterns for
      dates, as they are written.  Proved: what [integer], [ipv4], [date] and
      [mobile] accept, in terms of numbers;
    - [ValidRules]: the rule methods on values: sizes, numbers, dates, card
      numbers, equality, patterns.  Proved: the check of card numbers is Luhn's
      and notices every wrong digit; dates print and parse back;
    - [Validator]: the engine: [_validateField] with its loop over rules, prompts
      and their places, the list of invalid fields, whole forms, submission, the
      answers of the server, in a monad of state and exceptions;
    - [ValidFacts]: reasoning about that monad ([safe], [ensures]).  Proved: the
      recursion over groups ends when no rule replaces the field, and a form on
      which it does not; one prompt per field in every reachable state ([vstep]);
    - [ValidForm]: the specification of forms of text fields as a function of
      their values ([field_result]) and the proof that the engine computes it.

    The rest:
    - [Json]: the printer of [json2.js] and the fallback of [base.js];
    - [JsonText]: [parse] of [json2.js] with the replacements that guard its
      [eval], and a reader of the JSON grammar;
    - [JsonFacts]: printing a value and parsing the text gives back what the calls of
      [toJSON] leave of it;
    - [PageText]: [common.js] and the text functions of [LG.js];
    - [Page]: requests, loading layers, forms, search, permissions ([LG.js]).

    ** How components meet

    The grid calls the component library's [trigger] for its events; a handler
    that vetoes is an argument of the operation that asks it ([vetoShow],
    [veto]).  Pages hand the grid a data source by reference ([dref]); the grid's
    [data], [filteredData] and [sortedData] may all be that one source, and
    several theorems of [GridShow] and [GridSort] are about what follows from it.
    Charts take time ticks from [HsTime] as axis ticks and as group positions;
    the extremes of [HsExtremes] go into the scale of [HsScale], whose translation
    places the selection of [HsMouse], and the sizes of [HsLegend] go into its
    margins and from there into [setChartSize].
    Dialogs are windows of [Component] and are resized through [Resize], whose
    [press_one] is also what happens when an element is both dragged and resized.
    The validation engine runs the methods of [ValidRules] over the tables of
    [Rules]; theorems about it hold for any functions of the page that keep the
    condition in question ([safe_functions]), and for any selector engine that
    answers as documented where an id or name is plain ([Validator.Selectors]).

    ** Bounds and fuel

    Loops that are not structural take fuel, and a theorem gives enough of it:
    [getTimeTicks] as many rounds as milliseconds, [getLinearTickPositions] as
    many as intervals, the loading of a forest more than its depth, [trigger] as
    many as handlers, [_validateField] as many nested calls as fields; there
    running out is the host's [RangeError], which one theorem excludes and
    another shows for a form.  Row indices, pages, pixels and x values are
    integers, which JavaScript numbers represent exactly below 2^53; values of
    texts, rules and grouped data are doubles, and the places and scales of charts
    (from [HsOrdinal] on) rational numbers, without the rounding of doubles.

    ** What is not modelled

    The server (Java), minified scripts ([jquery], [highstock.js],
    [highcharts.js], [exporting.js], the date picker), the pages' markup and
    styles.  Of the modelled scripts: the construction of DOM elements and
    drawing; animations are the steps at which they end.  Requests are not sent:
    the answer is an argument of the callbacks.  Of the charts: VML and
    canvas, bounding boxes, HTML elements, labels with a box and buttons, titles, cross
    hairs, exporting.  Functions of the host that the
    code relies on ([localeCompare], [Date.parse], the time zone, the user's
    handlers and renderers, measures of elements) are parameters.  What a selector built from an id with
    special characters finds is left to the selector engine.  Of the
    validation engine: attaching and detaching handlers, [isRTL], moving prompts
    when the window changes.  Everything it looks up is in one form; setting a
    value and reading it back gives that value, as it does for text inputs.

    Not modelled of the grid: the widgets its editors create, and the constant
    markup of its frame. *)

From stdpp Require Export base tactics option list gmap strings pretty.
From Stdlib Require Export ZArith Lia Sorted.
Local Open Scope Z_scope.

Declare Scope hella_scope.
Delimit Scope hella_scope with hella.

Create HintDb hella discriminated.

(** ** Tactics *)

(** Case analysis on every [match] and [if] of the goal and the context,
    clearing the impossible branches. *)
Ltac cases := repeat (case_match; simplify_eq/=).

(** Boolean comparisons on [Z], as propositions. *)
Ltac zbool :=
  repeat match goal with
  | H : (_ <? _) = true |- _ => apply Z.ltb_lt in H
  | H : (_ <? _) = false |- _ => apply Z.ltb_ge in H
  | H : (_ <=? _) = true |- _ => apply Z.leb_le in H
  | H : (_ <=? _) = false |- _ => apply Z.leb_gt in H
  | H : (_ =? _) = true |- _ => apply Z.eqb_eq in H
  | H : (_ =? _) = false |- _ => apply Z.eqb_neq in H
  | H : (_ && _)%bool = true |- _ => apply andb_true_iff in H as [? ?]
  | H : (_ || _)%bool = false |- _ => apply orb_false_iff in H as [? ?]
  | H : negb _ = true |- _ => apply negb_true_iff in H
  | H : negb _ = false |- _ => apply negb_false_iff in H
  end.

(** ** Abrupt completion

    A call that can throw returns a [res]: the value, or the name of the
    exception it throws. *)
Inductive res (A : Type) : Type :=
| Ok (a : A)
| Throw (e : string).
Arguments Ok {A} a.
Arguments Throw {A} e.

#[export] Instance res_ret : MRet res := fun A a => Ok a.
#[export] Instance res_bind : MBind res := fun A B f m =>
  match m with Ok a => f a | Throw e => Throw e end.
#[export] Instance res_fmap : FMap res := fun A B f m =>
  match m with Ok a => Ok (f a) | Throw e => Throw e end.

(** Reading a property of [undefined] or [null]. *)
Definition TypeError : string := "TypeError".

Definition of_option {A} (o : option A) : res A :=
  match o with Some a => Ok a | None => Throw TypeError end.

Lemma res_bind_ok {A B} (m : res A) (f : A -> res B) b :
  m ≫= f = Ok b <-> exists a, m = Ok a /\ f a = Ok b.
Proof. destruct m as [a|e]; cbn; [|naive_solver]. split; [by exists a|]. by intros (a' & [= ->] & H). Qed.

Lemma of_option_ok {A} (o : option A) a : of_option o = Ok a <-> o = Some a.
Proof. destruct o; cbn; naive_solver. Qed.

(** ** Arrays

    A JavaScript array is a [list]; [Array.prototype.splice] takes a start that
    counts from the end when it is negative and is clamped to the length. *)
Definition clamp_start (start : Z) (len : nat) : nat :=
  if start <? 0 then Z.to_nat (Z.max (Z.of_nat len + start) 0)
  else Nat.min (Z.to_nat start) len.

Definition splice {A} (start : Z) (del : nat) (ins : list A) (l : list A) : list A :=
  let k := clamp_start start (length l) in
  take k l ++ ins ++ drop (k + del) l.

(** [$.inArray]: the first index at which the value occurs, or -1. *)
Definition inArray {A} `{EqDecision A} (x : A) (l : list A) : Z :=
  match list_find (eq x) l with
  | Some (i, _) => Z.of_nat i
  | None => -1
  end.

Section arrays.
Context {A : Type}.
Implicit Types l : list A.

Lemma clamp_start_le start len : (clamp_start start len <= len)%nat.
Proof. unfold clamp_start. destruct (start <? 0) eqn:?; zbool; lia. Qed.

Lemma clamp_start_nat (k len : nat) :
  (k <= len)%nat -> clamp_start (Z.of_nat k) len = k.
Proof. intros. unfold clamp_start. destruct (_ <? 0) eqn:?; zbool; lia. Qed.

Lemma splice_insert (k : nat) x l :
  (k <= length l)%nat -> splice (Z.of_nat k) 0 [x] l = take k l ++ x :: drop k l.
Proof. intros. unfold splice. rewrite clamp_start_nat, Nat.add_0_r by done. done. Qed.

Lemma splice_remove (k : nat) l :
  (k < length l)%nat -> splice (Z.of_nat k) 1 [] l = base.delete k l.
Proof.
  intros. unfold splice. rewrite clamp_start_nat by lia.
  rewrite Nat.add_1_r, delete_take_drop. done.
Qed.

Lemma length_splice start del ins l :
  length (splice start del ins l)
  = (length ins + (length l - Nat.min del (length l - clamp_start start (length l))))%nat.
Proof.
  unfold splice. rewrite !length_app, length_take, length_drop.
  pose proof (clamp_start_le start (length l)). lia.
Qed.

Context `{EqDecision A}.

Lemma inArray_ge (x : A) l : -1 <= inArray x l.
Proof. unfold inArray. cases; lia. Qed.

Lemma inArray_none (x : A) l : inArray x l = -1 <-> x ∉ l.
Proof.
  unfold inArray. destruct (list_find _ _) as [[i y]|] eqn:E.
  - apply list_find_Some in E as (Hi & -> & _).
    split; [lia|]. intros []. by eapply list_elem_of_lookup_2.
  - apply list_find_None in E. rewrite Forall_forall in E.
    split; [|done]. intros _ Hin. by eapply E.
Qed.

Lemma inArray_some (x : A) l (i : nat) :
  inArray x l = Z.of_nat i <->
  l !! i = Some x /\ forall j y, l !! j = Some y -> (j < i)%nat -> x <> y.
Proof.
  unfold inArray. destruct (list_find _ _) as [[j y]|] eqn:E.
  - apply list_find_Some in E as (Hj & <- & Hlt). split.
    + intros ?%Nat2Z.inj. subst. split; [done|]. intros; by eapply Hlt.
    + intros [Hi Hmin]. f_equal.
      destruct (lt_eq_lt_dec i j) as [[?|?]|?]; [|done|].
      * exfalso. by eapply (Hlt i x).
      * exfalso. by eapply (Hmin j x).
  - apply list_find_None in E. rewrite Forall_forall in E. split; [lia|].
    intros [Hi _]. exfalso. eapply E; [by eapply list_elem_of_lookup_2|done].
Qed.

Lemma inArray_cases (x : A) l :
  (inArray x l = -1 /\ x ∉ l) \/
  (exists i : nat, inArray x l = Z.of_nat i /\ l !! i = Some x).
Proof.
  destruct (decide (x ∈ l)) as [Hin|Hni].
  - right. pose proof (inArray_ge x l).
    assert (inArray x l <> -1) by (by intros ?%inArray_none).
    exists (Z.to_nat (inArray x l)). split; [lia|].
    eapply (inArray_some x l). lia.
  - left. by rewrite inArray_none.
Qed.

(** Removing the first occurrence, the way the source writes it:
    [i = $.inArray(x, l); if (i != -1) l.splice(i, 1)]. *)
Definition remove_first (x : A) (l : list A) : list A :=
  let i := inArray x l in
  if i =? -1 then l else splice i 1 [] l.

Lemma remove_first_perm (x : A) l : x ∈ l -> l ≡ₚ x :: remove_first x l.
Proof.
  intros Hin. unfold remove_first.
  destruct (inArray_cases x l) as [[_ ?]|(i & Hi & Hl)]; [done|].
  rewrite Hi. destruct (_ =? -1) eqn:?; [zbool; lia|].
  rewrite splice_remove by (by eapply lookup_lt_Some).
  by apply delete_Permutation.
Qed.

Lemma remove_first_notin (x : A) l : x ∉ l -> remove_first x l = l.
Proof. intros H. unfold remove_first. apply inArray_none in H. by rewrite H. Qed.

Lemma remove_first_sublist (x : A) l : remove_first x l `sublist_of` l.
Proof.
  unfold remove_first.
  destruct (inArray_cases x l) as [[-> ?]|(i & -> & Hl)]; [done|].
  destruct (_ =? -1) eqn:?; [zbool; lia|].
  rewrite splice_remove by (by eapply lookup_lt_Some).
  apply sublist_delete.
Qed.

Lemma elem_of_remove_first (x y : A) l :
  NoDup l -> y ∈ remove_first x l <-> y ∈ l /\ y <> x.
Proof.
  intros Hnd. destruct (decide (x ∈ l)) as [Hin|Hni].
  - pose proof (remove_first_perm _ _ Hin) as Hp.
    assert (y ∈ l <-> y ∈ x :: remove_first x l) as -> by (by rewrite <-Hp).
    assert (NoDup (x :: remove_first x l)) as [? ?]%NoDup_cons by (by rewrite <-Hp).
    rewrite elem_of_cons. naive_solver.
  - rewrite remove_first_notin by done. set_solver.
Qed.
End arrays.

(** ** Objects used as dictionaries

    An object's own properties in the order [for (k in o)] visits them:
    insertion order, a property that is assigned again keeping its place. *)
Section objects.
Context {V : Type}.

Fixpoint oget (k : string) (o : list (string * V)) : option V :=
  match o with
  | [] => None
  | (k', v) :: o' => if decide (k = k') then Some v else oget k o'
  end.

Fixpoint oset (k : string) (v : V) (o : list (string * V)) : list (string * V) :=
  match o with
  | [] => [(k, v)]
  | (k', v') :: o' => if decide (k = k') then (k, v) :: o' else (k', v') :: oset k v o'
  end.

Definition odel (k : string) (o : list (string * V)) : list (string * V) :=
  base.filter (fun p => p.1 <> k) o.

Definition okeys (o : list (string * V)) : list string := map fst o.

Lemma oget_oset_eq k v o : oget k (oset k v o) = Some v.
Proof. induction o as [|[k' v'] o IH]; simpl; repeat (case_decide; simpl); done. Qed.

Lemma oget_oset_ne k k' v o : k <> k' -> oget k (oset k' v o) = oget k o.
Proof.
  intros. induction o as [|[k'' v''] o IH]; simpl; repeat (case_decide; simplify_eq/=); done.
Qed.

Lemma oget_odel_eq k o : oget k (odel k o) = None.
Proof.
  unfold odel. induction o as [|[k' v'] o IH]; [done|].
  rewrite filter_cons. case_decide; simpl in *; [|done].
  rewrite decide_False by done. done.
Qed.

Lemma oget_odel_ne k k' o : k <> k' -> oget k (odel k' o) = oget k o.
Proof.
  intros. unfold odel. induction o as [|[k'' v''] o IH]; [done|].
  rewrite filter_cons. simpl. repeat (case_decide; simplify_eq/=); done.
Qed.

Lemma oget_Some_in k v o : oget k o = Some v -> (k, v) ∈ o.
Proof.
  induction o as [|[k' v'] o IH]; simpl; [done|]. case_decide; simplify_eq.
  - intros [= ->]. left.
  - intros. right. auto.
Qed.

Lemma oget_None k o : oget k o = None <-> k ∉ okeys o.
Proof.
  induction o as [|[k' v'] o IH]; simpl; [set_solver|].
  case_decide; simplify_eq; [set_solver|]. rewrite IH. set_solver.
Qed.

Lemma in_okeys k o : k ∈ okeys o <-> is_Some (oget k o).
Proof.
  rewrite <-not_eq_None_Some, oget_None. split; [tauto|].
  intros H. destruct (decide (k ∈ okeys o)); tauto.
Qed.

Lemma okeys_oset k v o :
  okeys (oset k v o) = if decide (k ∈ okeys o) then okeys o else okeys o ++ [k].
Proof.
  induction o as [|[k' v'] o IH]; unfold okeys in *; simpl; [done|].
  destruct (decide (k = k')) as [->|Hne]; simpl.
  - rewrite decide_True by left. done.
  - rewrite IH. destruct (decide (k ∈ map fst o)).
    + rewrite decide_True by (by right). done.
    + rewrite decide_False by (by rewrite elem_of_cons; intros [?|?]). done.
Qed.

Lemma NoDup_okeys_oset k v o : NoDup (okeys o) -> NoDup (okeys (oset k v o)).
Proof.
  intros. rewrite okeys_oset. case_decide; [done|].
  apply NoDup_app. split_and!; [done|set_solver|apply NoDup_singleton].
Qed.

Lemma odel_sub k o : odel k o ⊆ o.
Proof. intros x (_ & ?)%list_elem_of_filter. done. Qed.

Lemma NoDup_okeys_odel k o : NoDup (okeys o) -> NoDup (okeys (odel k o)).
Proof.
  intros H. unfold odel, okeys in *. eapply sublist_NoDup; [exact H|].
  apply (fmap_sublist fst), sublist_filter.
Qed.

Lemma oset_fresh k v o : oget k o = None -> oset k v o = o ++ [(k, v)].
Proof.
  induction o as [|[k' v'] o IH]; simpl; [done|].
  case_decide; [done|]. intros. by rewrite IH.
Qed.
End objects.

#[export] Hint Rewrite @oget_oset_eq @oget_odel_eq : hella.
#[export] Hint Resolve NoDup_okeys_oset NoDup_okeys_odel inArray_ge : hella.

(** [$.extend(a, b)] and the charts' [extend(a, b)]: every property of [b], in
    order, assigned into [a]. *)
Definition extend_obj {V} (a b : list (string * V)) : list (string * V) :=
  fold_left (fun acc p => oset p.1 p.2 acc) b a.

Lemma extend_obj_get {V} (a b : list (string * V)) k :
  NoDup (okeys b) ->
  oget k (extend_obj a b) = match oget k b with Some v => Some v | None => oget k a end.
Proof.
  unfold extend_obj. revert a.
  induction b as [|[k' v'] b IH]; intros a Hnd; simpl; [done|].
  simpl in Hnd. apply NoDup_cons in Hnd as [Hni Hnd]. rewrite IH by done.
  apply oget_None in Hni. destruct (decide (k = k')) as [->|Hne].
  - rewrite Hni. apply oget_oset_eq.
  - by rewrite oget_oset_ne.
Qed.

(** ** Effects

    What a component does to the page (class names, messages, requests) is a
    trace: the calls it makes, oldest first. *)
Definition emit {E S} (ev : E) (s : S * list E) : S * list E := (s.1, s.2 ++ [ev]).

(** Decimal digits of a natural number, and their length. *)
Definition show_nat (n : nat) : string := pretty n.
Definition show_Z (z : Z) : string := pretty z.

(** ** Arrays with holes *)

(** [a[i] = x]: an assignment past the end leaves holes. *)
Definition arr_assign {A} (i : nat) (x : A) (l : list (option A)) : list (option A) :=
  if decide (i < length l)%nat then <[i := Some x]> l
  else l ++ replicate (i - length l) None ++ [Some x].

Lemma arr_assign_eq {A} i (x : A) l : arr_assign i x l !! i = Some (Some x).
Proof.
  unfold arr_assign. case_decide; [by apply list_lookup_insert_eq|].
  rewrite lookup_app_r by lia. rewrite lookup_app_r by (rewrite length_replicate; lia).
  by rewrite length_replicate, Nat.sub_diag.
Qed.

Lemma arr_assign_ne {A} i j (x : A) l :
  i <> j -> mjoin (arr_assign i x l !! j) = mjoin (l !! j).
Proof.
  intros Hne. unfold arr_assign. case_decide; [by rewrite list_lookup_insert_ne|].
  destruct (decide (j < length l)%nat); [by rewrite lookup_app_l|].
  rewrite lookup_app_r by lia. rewrite (lookup_ge_None_2 l j) by lia. cbn.
  destruct (decide (j - length l < i - length l)%nat).
  - rewrite lookup_app_l by (rewrite length_replicate; lia). by rewrite lookup_replicate_2.
  - rewrite lookup_app_r by (rewrite length_replicate; lia).
    rewrite length_replicate. rewrite lookup_ge_None_2; [done|]. cbn. lia.
Qed.

Lemma length_arr_assign {A} i (x : A) l : length (arr_assign i x l) = Nat.max (length l) (S i).
Proof.
  unfold arr_assign. case_decide; [rewrite length_insert; lia|].
  rewrite !length_app, length_replicate. cbn. lia.
Qed.
