(* ===== verification/JsString.v ===== *)
(** * JavaScript strings

    Strings whose characters the program only compares, joins and slices are
    Rocq [string]s; this file models the built-ins used on them:
    [String.prototype.substr], [indexOf], [replace] with a string pattern, and
    [Array.prototype.join]. *)

From S2P Require Import Prelude.
From Stdlib Require Import Ascii.
Local Open Scope string_scope.
Local Open Scope Z_scope.

(** [s.substr(n)] and [s.substr(n, k)], for a start inside the string. *)
Fixpoint str_drop (n : nat) (s : string) : string :=
  match n, s with
  | O, _ => s
  | S n', String _ s' => str_drop n' s'
  | S _, EmptyString => EmptyString
  end.

Fixpoint str_take (n : nat) (s : string) : string :=
  match n, s with
  | O, _ => EmptyString
  | S n', String c s' => String c (str_take n' s')
  | S _, EmptyString => EmptyString
  end.

(** [s.substr(start)] with any start: a negative one counts from the end. *)
Definition substr_from (start : Z) (s : string) : string :=
  if start <? 0 then str_drop (Z.to_nat (Z.max (Z.of_nat (String.length s) + start) 0)) s
  else str_drop (Z.to_nat start) s.

(** [s.indexOf(pat)], [-1] when it does not occur. *)
Definition indexOf (pat s : string) : Z :=
  match String.index 0 pat s with Some i => Z.of_nat i | None => -1 end.

(** The text [replace] puts in: [$$], [$&], [$`] and [$'] in the replacement
    stand for a dollar sign, the match, and the text before and after it. *)
Fixpoint expand_dollar (pat pre post repl : string) : string :=
  match repl with
  | EmptyString => EmptyString
  | String c r =>
      if Ascii.eqb c "$" then
        match r with
        | String "$" r' => "$" ++ expand_dollar pat pre post r'
        | String "&" r' => pat ++ expand_dollar pat pre post r'
        | String "`" r' => pre ++ expand_dollar pat pre post r'
        | String "'" r' => post ++ expand_dollar pat pre post r'
        | _ => String c (expand_dollar pat pre post r)
        end
      else String c (expand_dollar pat pre post r)
  end.

(** [s.replace(pat, repl)] with a string pattern: the first occurrence. *)
Fixpoint replace_go (pre pat repl s : string) : string :=
  if String.prefix pat s then
    let post := str_drop (String.length pat) s in
    expand_dollar pat pre post repl ++ post
  else match s with
       | EmptyString => EmptyString
       | String c s' => String c (replace_go (pre ++ String c EmptyString) pat repl s')
       end.

Definition js_replace (pat repl s : string) : string := replace_go "" pat repl s.

(** [new Array(n).join(sep)]: [n - 1] copies of the separator. *)
Fixpoint str_repeat (n : nat) (s : string) : string :=
  match n with O => "" | S n' => s ++ str_repeat n' s end.

(** [arr.join(sep)] *)
Fixpoint join (sep : string) (l : list string) : string :=
  match l with
  | [] => ""
  | [s] => s
  | s :: l' => s ++ sep ++ join sep l'
  end.

(** ** Characters that do not occur *)

Fixpoint lacks (c : ascii) (s : string) : bool :=
  match s with
  | EmptyString => true
  | String c' s' => negb (Ascii.eqb c c') && lacks c s'
  end.

Lemma str_app_nil_l (s : string) : "" ++ s = s.
Proof. done. Qed.

Lemma str_app_cons c (s t : string) : String c s ++ t = String c (s ++ t).
Proof. done. Qed.

#[local] Hint Rewrite str_app_nil_l str_app_cons : hella.

Ltac str_induction s :=
  induction s as [|?c s IH]; autorewrite with hella; simpl; [|rewrite ?IH].

Lemma lacks_app c s t : lacks c (s ++ t) = lacks c s && lacks c t.
Proof. str_induction s; [done|]. by rewrite andb_assoc. Qed.

Lemma str_app_assoc (s t u : string) : (s ++ t) ++ u = s ++ (t ++ u).
Proof. str_induction s; done. Qed.

Lemma str_app_nil_r (s : string) : s ++ "" = s.
Proof. str_induction s; done. Qed.

Lemma str_length_app (s t : string) :
  String.length (s ++ t) = (String.length s + String.length t)%nat.
Proof. str_induction s; done. Qed.

Lemma str_drop_app s t : str_drop (String.length s) (s ++ t) = t.
Proof. str_induction s; done. Qed.

Lemma prefix_app s t : String.prefix s (s ++ t) = true.
Proof. str_induction s; [by destruct t|]. by destruct (ascii_dec _ _). Qed.

Lemma expand_dollar_plain pat pre post repl :
  lacks "$" repl = true -> expand_dollar pat pre post repl = repl.
Proof.
  induction repl as [|c r IH]; [done|]. cbn [expand_dollar lacks].
  rewrite andb_true_iff, negb_true_iff. intros [Hc Hr].
  rewrite Ascii.eqb_sym, Hc. by rewrite IH.
Qed.

(** A two-character directive [%c] is found past text without a percent sign
    and past other directives. *)
Section directives.
Context (c : ascii) (repl : string) (Hrepl : lacks "$" repl = true).

Lemma replace_go_skip pre s t :
  lacks "%" s = true ->
  replace_go pre (String "%" (String c "")) repl (s ++ t)
  = s ++ replace_go (pre ++ s) (String "%" (String c "")) repl t.
Proof.
  revert pre. induction s as [|c' s IH]; intros pre Hs.
  - by rewrite str_app_nil_l, str_app_nil_r.
  - rewrite !str_app_cons. cbn [lacks] in Hs. apply andb_true_iff in Hs as [Hc Hs].
    apply negb_true_iff, Ascii.eqb_neq in Hc.
    cbn [replace_go String.prefix]. destruct (ascii_dec "%" c'); [done|].
    rewrite IH by done. by rewrite str_app_assoc, !str_app_cons.
Qed.

Lemma replace_go_other pre c' t :
  c <> c' -> c' <> "%"%char ->
  replace_go pre (String "%" (String c "")) repl (String "%" (String c' t))
  = String "%" (String c'
      (replace_go (pre ++ String "%" (String c' "")) (String "%" (String c "")) repl t)).
Proof.
  intros Hne Hp. cbn [replace_go String.prefix].
  destruct (ascii_dec "%" "%"); [|done].
  destruct (ascii_dec c c'); [done|].
  destruct (ascii_dec "%" c'); [congruence|].
  by rewrite str_app_assoc, str_app_cons.
Qed.

Lemma replace_go_hit pre t :
  replace_go pre (String "%" (String c "")) repl (String "%" (String c t)) = repl ++ t.
Proof.
  cbn [replace_go String.prefix]. destruct (ascii_dec "%" "%"); [|done].
  destruct (ascii_dec c c); [|done].
  assert (String.prefix "" t = true) as -> by (by destruct t).
  cbn [String.length str_drop]. by rewrite expand_dollar_plain.
Qed.

Lemma replace_go_none pre s :
  lacks "%" s = true -> replace_go pre (String "%" (String c "")) repl s = s.
Proof.
  intros. rewrite <-(str_app_nil_r s) at 1. rewrite replace_go_skip by done.
  cbn. apply str_app_nil_r.
Qed.
End directives.

(** A format is literal text and directives. *)
Inductive piece := Lit (s : string) | Dir (c : ascii).

Definition render_piece (p : piece) : string :=
  match p with Lit s => s | Dir c => String "%" (String c "") end.

Fixpoint render (ps : list piece) : string :=
  match ps with [] => "" | p :: ps' => render_piece p ++ render ps' end.

Definition wf_piece (p : piece) : bool :=
  match p with Lit s => lacks "%" s | Dir c => negb (Ascii.eqb c "%") end.

(** The pieces after replacing the first directive [%c]. *)
Fixpoint subst_first (c : ascii) (repl : string) (ps : list piece) : list piece :=
  match ps with
  | [] => []
  | Dir c' :: ps' => if Ascii.eqb c c' then Lit repl :: ps' else Dir c' :: subst_first c repl ps'
  | p :: ps' => p :: subst_first c repl ps'
  end.

Definition mentions (c : ascii) (ps : list piece) : bool :=
  existsb (fun p => match p with Dir c' => Ascii.eqb c c' | Lit _ => false end) ps.

Lemma replace_go_pieces pre c repl ps :
  forallb wf_piece ps = true ->
  (mentions c ps = true -> lacks "$" repl = true) ->
  replace_go pre (String "%" (String c "")) repl (render ps) = render (subst_first c repl ps).
Proof.
  revert pre. induction ps as [|[s|c'] ps IH]; intros pre Hwf Hrepl; [done|..].
  - cbn [render render_piece subst_first forallb wf_piece] in *.
    apply andb_true_iff in Hwf as [Hs Hwf].
    rewrite replace_go_skip by done. by rewrite IH.
  - cbn [render render_piece subst_first forallb wf_piece] in *.
    apply andb_true_iff in Hwf as [Hc Hwf]. apply negb_true_iff, Ascii.eqb_neq in Hc.
    rewrite !str_app_cons, str_app_nil_l.
    destruct (Ascii.eqb c c') eqn:E.
    + apply Ascii.eqb_eq in E as <-. rewrite replace_go_hit; [done|].
      apply Hrepl. cbn. by rewrite Ascii.eqb_refl.
    + pose proof E as E'. apply Ascii.eqb_neq in E'. rewrite replace_go_other by done.
      rewrite IH; [done|done|]. intros Hm. apply Hrepl. cbn. by rewrite E.
Qed.

Lemma js_replace_pieces c repl ps :
  forallb wf_piece ps = true ->
  (mentions c ps = true -> lacks "$" repl = true) ->
  js_replace (String "%" (String c "")) repl (render ps) = render (subst_first c repl ps).
Proof. apply replace_go_pieces. Qed.

(** ** Decimal digits *)

Lemma lacks_pretty_N_go c n s :
  (forall d, (d < 10)%N -> Ascii.eqb c (pretty_N_char d) = false) ->
  lacks c s = true -> lacks c (pretty_N_go n s) = true.
Proof.
  intros Hc. revert s. induction (N.lt_wf_0 n) as [n _ IH]; intros s Hs.
  destruct (decide (n = 0%N)) as [->|]; [by rewrite pretty_N_go_0|].
  rewrite pretty_N_go_step by lia. apply IH; [by apply N.div_lt; lia|].
  cbn [lacks]. rewrite Hc by (by apply N.mod_lt). done.
Qed.

Lemma lacks_show_Z c z :
  (forall d, (d < 10)%N -> Ascii.eqb c (pretty_N_char d) = false) ->
  Ascii.eqb c "-" = false -> lacks c (show_Z z) = true.
Proof.
  intros Hc Hm. unfold show_Z, pretty, pretty_Z.
  assert (forall n : N, lacks c (pretty n) = true) as HN.
  { intros n. unfold pretty, pretty_N. case_decide; [|by apply lacks_pretty_N_go].
    pose proof (Hc 0%N eq_refl) as H0. cbn [pretty_N_char] in H0. cbn [lacks]. by rewrite H0. }
  destruct z as [|p|p]; [apply (HN 0%N)|apply (HN (Npos p))|].
  change (lacks c (String "-" (pretty (Npos p))) = true). cbn [lacks]. by rewrite Hm, HN.
Qed.

(** ** [parseInt]

    Leading white space, a sign, then the longest run of decimal digits; no
    digits is [NaN], here [None]. *)
Definition is_space (c : ascii) : bool :=
  let n := nat_of_ascii c in (n =? 32)%nat || ((9 <=? n)%nat && (n <=? 13)%nat).

Definition digit_value (c : ascii) : option Z :=
  let n := nat_of_ascii c in
  if (48 <=? n)%nat && (n <=? 57)%nat then Some (Z.of_nat n - 48) else None.

Fixpoint parse_digits (acc : option Z) (s : string) : option Z :=
  match s with
  | EmptyString => acc
  | String c s' =>
      match digit_value c with
      | Some d => parse_digits (Some (10 * default 0 acc + d)) s'
      | None => acc
      end
  end.

Fixpoint trim_left (s : string) : string :=
  match s with
  | String c s' => if is_space c then trim_left s' else s
  | EmptyString => EmptyString
  end.

Definition parseInt (s : string) : option Z :=
  match trim_left s with
  | String "-" s' => Z.opp <$> parse_digits None s'
  | String "+" s' => parse_digits None s'
  | s' => parse_digits None s'
  end.

(** [s.split(sep)] for a one-character separator. *)
Fixpoint split_on (sep : ascii) (s : string) : list string :=
  match s with
  | EmptyString => [""]
  | String c s' =>
      if Ascii.eqb c sep then "" :: split_on sep s'
      else match split_on sep s' with
           | [] => [String c ""]
           | w :: ws => String c w :: ws
           end
  end.

Lemma split_on_ne sep s : split_on sep s <> [].
Proof. destruct s as [|c s]; cbn; [done|]. destruct (Ascii.eqb c sep); [done|]. by destruct (split_on sep s). Qed.

Lemma split_on_plain sep s t :
  lacks sep s = true -> split_on sep (s ++ String sep t) = s :: split_on sep t.
Proof.
  induction s as [|c s IH]; cbn [lacks].
  - intros _. rewrite str_app_nil_l. cbn [split_on]. by rewrite Ascii.eqb_refl.
  - rewrite andb_true_iff, negb_true_iff, str_app_cons. intros [Hc Hs]. cbn [split_on].
    rewrite Ascii.eqb_sym, Hc, IH by done. done.
Qed.

Lemma split_on_lacks sep s : lacks sep s = true -> split_on sep s = [s].
Proof.
  induction s as [|c s IH]; cbn [lacks]; [done|].
  rewrite andb_true_iff, negb_true_iff. intros [Hc Hs]. cbn [split_on].
  by rewrite Ascii.eqb_sym, Hc, IH.
Qed.

Example parseInt_ex : parseInt " 42px" = Some 42 /\ parseInt "-7" = Some (-7) /\ parseInt "x" = None.
Proof. done. Qed.

(** ** Decimal numerals

    A numeral with an optional fraction and exponent, as its digits and its
    power of ten; [None] when the text does not start with one.  The rest of the
    text comes back as well. *)
Fixpoint take_digits (s : string) : string * string :=
  match s with
  | String c s' =>
      match digit_value c with
      | Some _ => let '(d, r) := take_digits s' in (String c d, r)
      | None => (EmptyString, s)
      end
  | EmptyString => (EmptyString, EmptyString)
  end.

Definition digits_value (s : string) : Z := default 0 (parse_digits None s).

Definition take_exponent (s : string) : Z * string :=
  match s with
  | String c s' =>
      if Ascii.eqb c "e" || Ascii.eqb c "E" then
        let '(sg, r) := match s' with
                        | String "-" r => (-1, r) | String "+" r => (1, r) | r => (1, r) end in
        let '(d, r') := take_digits r in
        if String.eqb d "" then (0, s) else (sg * digits_value d, r')
      else (0, s)
  | EmptyString => (0, s)
  end.

Definition take_numeral (s : string) : option (Z * Z * string) :=
  let '(sg, r) := match s with
                  | String "-" r => (-1, r) | String "+" r => (1, r) | r => (1, r) end in
  let '(ip, r) := take_digits r in
  let '(fp, r) := match r with
                  | String "." r' => let '(f, r'') := take_digits r' in
                                     if String.eqb ip "" && String.eqb f "" then ("", r) else (f, r'')
                  | _ => ("", r) end in
  if String.eqb ip "" && String.eqb fp "" then None
  else let '(ex, r) := take_exponent r in
       Some (sg * digits_value (ip ++ fp), ex - Z.of_nat (String.length fp), r).

(** [s.toLowerCase()] of ASCII text. *)
Fixpoint lower (s : string) : string :=
match s with
| EmptyString => EmptyString
| String c s' =>
    let n := nat_of_ascii c in
    String (if (65 <=? n)%nat && (n <=? 90)%nat then ascii_of_nat (n + 32) else c) (lower s')
end.

(** A string that may be missing, where the code tests it for truth. *)
Definition truthy_str (s : option string) : option string :=
  match s with Some s => if String.eqb s "" then None else Some s | None => None end.
