(* ===== verification/JsNum.v ===== *)
(** * JavaScript numbers

    A number is an IEEE 754 binary64 value, the kernel's [float]; its operators
    are the kernel's, so every computation below rounds the way the program's
    does.  This file adds the conversions to and from integers, the truth value
    of a number, and the order facts the components use. *)

From S2P Require Import Prelude JsString.
From Stdlib Require Export Floats.
Local Open Scope Z_scope.

Abbreviation num := PrimFloat.float.

Declare Scope num_scope.
Delimit Scope num_scope with num.
Infix "<" := PrimFloat.ltb : num_scope.
Infix "<=" := PrimFloat.leb : num_scope.
Infix "===" := PrimFloat.eqb (at level 70) : num_scope.
Infix "+" := PrimFloat.add : num_scope.
Infix "-" := PrimFloat.sub : num_scope.
Infix "*" := PrimFloat.mul : num_scope.
Infix "/" := PrimFloat.div : num_scope.

(** The number nearest to an integer; exact up to 2^53. *)
Definition num_of_Z (z : Z) : num :=
  SF2Prim (SpecFloat.binary_normalize prec emax z 0 false).

(** The integer a number is, when it is one. *)
Definition num_to_Z (x : num) : option Z :=
  match Prim2SF x with
  | S754_zero _ => Some 0
  | S754_finite s m e =>
      let v := if s then Z.neg m else Z.pos m in
      if 0 <=? e then Some (v * 2 ^ e)
      else if v mod 2 ^ (- e) =? 0 then Some (v / 2 ^ (- e)) else None
  | _ => None
  end.

Definition isNaN (x : num) : bool := negb (x === x)%num.

(** The truth value of a number: [0], [-0] and [NaN] are false. *)
Definition num_truthy (x : num) : bool := negb (isNaN x || (x === 0%float)%num).

(** The number nearest to [m * 10^e], correctly rounded: when the quotient is not
    exact, enough of its bits and one sticky bit. *)
Definition num_of_decimal (m e : Z) : num :=
  if 0 <=? e then num_of_Z (m * 10 ^ e)
  else
    let d := 10 ^ (- e) in
    let s := Z.log2 d + 70 in
    let n := Z.abs m * 2 ^ s in
    let q := 2 * (n / d) + (if n mod d =? 0 then 0 else 1) in
    SF2Prim (SpecFloat.binary_normalize prec emax (Z.sgn m * q) (- s - 1) false).

Example num_of_decimal_ex :
  num_of_decimal 1 (-1) = 0x1.999999999999ap-4%float /\ num_of_decimal 25 (-1) = 2.5%float.
Proof. vm_compute. done. Qed.

(** ** The order *)

(** The place of a number on the extended line; [NaN] has none.  Numbers
    compare the way their places do, lexicographically. *)
Definition place (x : num) : option (Z * Z * Z) :=
  match Prim2SF x with
  | S754_nan => None
  | S754_infinity true => Some (-2, 0, 0)
  | S754_finite true m e => Some (-1, - e, Z.neg m)
  | S754_zero _ => Some (0, 0, 0)
  | S754_finite false m e => Some (1, e, Z.pos m)
  | S754_infinity false => Some (2, 0, 0)
  end.

Definition place_lt (a b : Z * Z * Z) : Prop :=
  let '(s, e, m) := a in let '(s', e', m') := b in
  s < s' \/ (s = s' /\ (e < e' \/ (e = e' /\ m < m'))).

Definition place_lt_b (a b : Z * Z * Z) : bool :=
  let '(s, e, m) := a in let '(s', e', m') := b in
  (s <? s') || ((s =? s') && ((e <? e') || ((e =? e') && (m <? m')))).

Lemma place_lt_b_spec a b : place_lt_b a b = true <-> place_lt a b.
Proof.
  destruct a as [[s e] m], b as [[s' e'] m']. cbn [place_lt place_lt_b].
  rewrite !orb_true_iff, !andb_true_iff, !orb_true_iff, !andb_true_iff,
    !Z.ltb_lt, !Z.eqb_eq. done.
Qed.

Lemma ltb_place_b x y :
  (x < y)%num = match place x, place y with Some a, Some b => place_lt_b a b | _, _ => false end.
Proof.
  rewrite FloatAxioms.ltb_spec. unfold SFltb, place.
  destruct (Prim2SF x) as [?|[]| |[] m e], (Prim2SF y) as [?|[]| |[] m' e'];
    cbn [place_lt_b SFcompare]; try done.
  all: change (Pos.compare_cont Eq m m') with (m ?= m')%positive.
  all: destruct (Z.compare_spec e e') as [->|?|?];
    [destruct (Pos.compare_spec m m') as [->|?|?]| |]; cbn [CompOpp].
  all: repeat match goal with
    | |- context [?a <? ?b] => destruct (a <? b) eqn:?
    | |- context [?a =? ?b] => destruct (a =? b) eqn:?
    end; cbn; zbool; try done; lia.
Qed.

Lemma ltb_place x y :
  (x < y)%num = true <->
  exists a b, place x = Some a /\ place y = Some b /\ place_lt a b.
Proof.
  rewrite ltb_place_b. split.
  - destruct (place x) as [a|], (place y) as [b|]; intros H; try discriminate.
    exists a, b. by rewrite <-place_lt_b_spec.
  - intros (a & b & -> & -> & H). by apply place_lt_b_spec.
Qed.

Lemma place_lt_trans a b c : place_lt a b -> place_lt b c -> place_lt a c.
Proof. destruct a as [[? ?] ?], b as [[? ?] ?], c as [[? ?] ?]. unfold place_lt. lia. Qed.

Lemma place_lt_total a b : place_lt a b \/ a = b \/ place_lt b a.
Proof.
  destruct a as [[s e] m], b as [[s' e'] m']. unfold place_lt.
  assert ((s, e, m) = (s', e', m') <-> s = s' /\ e = e' /\ m = m') as -> by naive_solver.
  lia.
Qed.

Lemma place_lt_irrefl a : ~ place_lt a a.
Proof. destruct a as [[? ?] ?]. unfold place_lt. lia. Qed.

Lemma ltb_trans x y z : (x < y)%num = true -> (y < z)%num = true -> (x < z)%num = true.
Proof.
  rewrite !ltb_place. intros (a & b & Hx & Hy & H1) (b' & c & Hy' & Hz & H2).
  simplify_eq. exists a, c. eauto using place_lt_trans.
Qed.

Lemma ltb_irrefl x : (x < x)%num = false.
Proof.
  apply not_true_iff_false. rewrite ltb_place. intros (a & b & ? & ? & ?). simplify_eq.
  by eapply place_lt_irrefl.
Qed.

Lemma isNaN_place x : isNaN x = true <-> place x = None.
Proof.
  unfold isNaN, place. rewrite FloatAxioms.eqb_spec. unfold SFeqb.
  destruct (Prim2SF x) as [?|[]| |[] m e]; cbn; try done.
  all: rewrite Z.compare_refl; change (Pos.compare_cont Eq m m) with (m ?= m)%positive;
    by rewrite Pos.compare_refl.
Qed.

(** Among numbers that are not [NaN], "not less" is transitive. *)
Lemma not_ltb_trans x y z :
  isNaN y = false ->
  (y < x)%num = false -> (z < y)%num = false -> (z < x)%num = false.
Proof.
  intros Hn H1 H2. apply not_true_iff_false. intros H.
  apply not_true_iff_false in Hn, H1, H2. rewrite isNaN_place in Hn.
  rewrite ltb_place in *. destruct H as (c & a & Hz & Hx & Hlt).
  destruct (place y) as [b|] eqn:Hy; [|done].
  destruct (place_lt_total b a) as [?|[->|Hab]].
  - apply H1. by exists b, a.
  - apply H2. by exists c, a.
  - apply H2. exists c, b. eauto using place_lt_trans.
Qed.

(** ** Strings as numbers *)

(** [Infinity] at the start, and what follows it. *)
Definition take_infinity (s : string) : option (num * string) :=
  if String.prefix "Infinity" s then Some (infinity, str_drop 8 s)
  else if String.prefix "+Infinity" s then Some (infinity, str_drop 9 s)
  else if String.prefix "-Infinity" s then Some (neg_infinity, str_drop 9 s)
  else None.

(** [parseFloat(s)]: the longest numeral at the start, after white space. *)
Definition parseFloat (s : string) : num :=
  match take_infinity (trim_left s), take_numeral (trim_left s) with
  | Some (x, _), _ => x
  | None, Some (m, e, _) => num_of_decimal m e
  | None, None => nan
  end.

Fixpoint all_space (s : string) : bool :=
  match s with EmptyString => true | String c s' => is_space c && all_space s' end.

(** [Number(s)] for decimal text; the empty string is zero. *)
Definition Number (s : string) : num :=
  if all_space s then 0%float
  else match take_infinity (trim_left s), take_numeral (trim_left s) with
       | Some (x, r), _ => if all_space r then x else nan
       | None, Some (m, e, r) => if all_space r then num_of_decimal m e else nan
       | None, None => nan
       end.

(** ** Numbers as strings *)

Local Open Scope string_scope.
Local Open Scope Z_scope.

(** The exact value of a finite number, [p / q]. *)
Definition num_ratio (x : num) : Z * Z :=
  match Prim2SF x with
  | S754_finite s m e =>
      let v := if s then Z.neg m else Z.pos m in
      if 0 <=? e then (v * 2 ^ e, 1) else (v, 2 ^ (- e))
  | _ => (0, 1)
  end.

(** [floor (log10 (p / q))] for positive [p] and [q]: counting down from an upper
    bound; doubles have at most 309 integral digits and 324 fractional ones. *)
Fixpoint find_exponent (fuel : nat) (p q e : Z) : Z :=
  match fuel with
  | O => e
  | S fuel' =>
      let enough := if 0 <=? e then q * 10 ^ e <=? p else q <=? p * 10 ^ (- e) in
      if enough then e else find_exponent fuel' p q (e - 1)
  end.
Definition decimal_exponent (p q : Z) : Z :=
  let guess := (Z.log2 p - Z.log2 q + 1) * 30103 / 100000 + 1 in
  find_exponent 8 p q guess.

(** [p / q * 10^k] rounded to an integer, halves up. *)
Definition round_scaled (p q k : Z) : Z :=
  if 0 <=? k then (2 * p * 10 ^ k + q) / (2 * q) else (2 * p + q * 10 ^ (- k)) / (2 * q * 10 ^ (- k)).

(** The fewest digits that read back as the number, and the power of ten of the
    last one. *)
Fixpoint shortest (fuel : nat) (k : Z) (x : num) (p q e : Z) : Z * Z :=
  let n := round_scaled p q (k - 1 - e) in
  match fuel with
  | O => (n, e - k + 1)
  | S fuel' => if (num_of_decimal n (e - k + 1) === x)%num then (n, e - k + 1)
               else shortest fuel' (k + 1) x p q e
  end.

Definition zeros (n : Z) : string := str_repeat (Z.to_nat n) "0".

(** [String(x)] for a positive finite number. *)
Definition positive_string (x : num) : string :=
  let '(p, q) := num_ratio x in
  let '(d, e10) := shortest 16 1 x p q (decimal_exponent p q) in
  let s := show_Z d in
  let k := Z.of_nat (String.length s) in
  let n := e10 + k in
  if (k <=? n) && (n <=? 21) then s ++ zeros (n - k)
  else if (0 <? n) && (n <=? 21) then str_take (Z.to_nat n) s ++ "." ++ str_drop (Z.to_nat n) s
  else if (-6 <? n) && (n <=? 0) then "0." ++ zeros (- n) ++ s
  else
    let ex := (if 0 <=? n - 1 then "+" else "-") ++ show_Z (Z.abs (n - 1)) in
    if k =? 1 then s ++ "e" ++ ex
    else str_take 1 s ++ "." ++ str_drop 1 s ++ "e" ++ ex.

Definition num_string (x : num) : string :=
  if isNaN x then "NaN"
  else if (x === 0%float)%num then "0"
  else if (x === infinity)%num then "Infinity"
  else if (x === neg_infinity)%num then "-Infinity"
  else if (x < 0%float)%num then "-" ++ positive_string (- x)%float
  else positive_string x.

(** [x.toFixed(f)]: the nearest decimal with [f] places, the larger of two. *)
Definition toFixed (f : Z) (x : num) : string :=
  if isNaN x then "NaN"
  else
    let neg := (x < 0%float)%num in
    let y := if neg then (- x)%float else x in
    (if neg then "-" else "") ++
    (if (y < 1e21%float)%num then
       let '(p, q) := num_ratio y in
       let n := round_scaled p q f in
       if f =? 0 then show_Z n
       else
         let s := show_Z n in
         let s := zeros (f + 1 - Z.of_nat (String.length s)) ++ s in
         let k := (String.length s - Z.to_nat f)%nat in
         str_take k s ++ "." ++ str_drop k s
     else num_string y).

Example num_string_ex :
  num_string 0.1%float = "0.1" /\ num_string 123.456%float = "123.456" /\
  num_string (-2.5)%float = "-2.5" /\ num_string 1e21%float = "1e+21" /\
  num_string 1.5e-7%float = "1.5e-7" /\ num_string 100%float = "100" /\
  num_string (1%float / 3%float)%num = "0.3333333333333333" /\
  toFixed 2 1.005%float = "1.00" /\ toFixed 2 2.5%float = "2.50" /\ toFixed 2 0.02%float = "0.02" /\
  num_string 5e-324%float = "5e-324" /\ num_string 1.7976931348623157e308%float = "1.7976931348623157e+308".
Proof. vm_compute. repeat split. Qed.
