(* ===== verification/JsDate.v ===== *)
(** * The [Date] built-in, in UTC

    The date arithmetic the charts rely on: a time value is the number of
    milliseconds since 1970-01-01T00:00:00Z, and the [getUTC...], [setUTC...]
    methods and [Date.UTC] are the functions ECMAScript 5.1 (section 15.9.1)
    defines on it.  Times are integers inside the range the built-in supports. *)

From S2P Require Import Prelude.
Local Open Scope Z_scope.

Definition msPerSecond : Z := 1000.
Definition msPerMinute : Z := 60000.
Definition msPerHour : Z := 3600000.
Definition msPerDay : Z := 86400000.

Definition Day (t : Z) : Z := t / msPerDay.
Definition TimeWithinDay (t : Z) : Z := t mod msPerDay.

Definition DayFromYear (y : Z) : Z :=
  365 * (y - 1970) + (y - 1969) / 4 - (y - 1901) / 100 + (y - 1601) / 400.

Definition DaysInYear (y : Z) : Z := DayFromYear (y + 1) - DayFromYear y.
Definition InLeapYear (y : Z) : bool := DaysInYear y =? 366.

(** The year a day falls in: an estimate from the mean length of the Gregorian
    year, off by at most one. *)
Definition YearFromDay (d : Z) : Z :=
  let y := 1970 + (d * 400) / 146097 in
  if d <? DayFromYear y then y - 1
  else if DayFromYear (y + 1) <=? d then y + 1 else y.

(** Days of a year before each month. *)
Definition DaysBeforeMonth (leap : bool) (m : Z) : Z :=
  let l := if leap then 1 else 0 in
  if m =? 0 then 0 else if m =? 1 then 31
  else if m =? 2 then 59 + l else if m =? 3 then 90 + l
  else if m =? 4 then 120 + l else if m =? 5 then 151 + l
  else if m =? 6 then 181 + l else if m =? 7 then 212 + l
  else if m =? 8 then 243 + l else if m =? 9 then 273 + l
  else if m =? 10 then 304 + l else if m =? 11 then 334 + l
  else 365 + l.

(** The month, 0 to 11, of a day of the year. *)
Definition MonthOfYearDay (leap : bool) (dy : Z) : Z :=
  let before m := dy <? DaysBeforeMonth leap m in
  if before 1 then 0 else if before 2 then 1 else if before 3 then 2
  else if before 4 then 3 else if before 5 then 4 else if before 6 then 5
  else if before 7 then 6 else if before 8 then 7 else if before 9 then 8
  else if before 10 then 9 else if before 11 then 10 else 11.

Definition YearDay (d : Z) : Z := d - DayFromYear (YearFromDay d).

Definition MonthFromDay (d : Z) : Z :=
  MonthOfYearDay (InLeapYear (YearFromDay d)) (YearDay d).

Definition DateFromDay (d : Z) : Z :=
  YearDay d - DaysBeforeMonth (InLeapYear (YearFromDay d)) (MonthFromDay d) + 1.

(** [MakeDay]: the month may be any integer and carries into the year. *)
Definition MakeDay (year month date : Z) : Z :=
  let ym := year + month / 12 in
  DayFromYear ym + DaysBeforeMonth (InLeapYear ym) (month mod 12) + date - 1.

Definition MakeTime (h m s ms : Z) : Z :=
  h * msPerHour + m * msPerMinute + s * msPerSecond + ms.

Definition MakeDate (day time : Z) : Z := day * msPerDay + time.

Definition getUTCFullYear (t : Z) : Z := YearFromDay (Day t).
Definition getUTCMonth (t : Z) : Z := MonthFromDay (Day t).
Definition getUTCDate (t : Z) : Z := DateFromDay (Day t).
Definition getUTCDay (t : Z) : Z := (Day t + 4) mod 7.
Definition getUTCHours (t : Z) : Z := (t / msPerHour) mod 24.
Definition getUTCMinutes (t : Z) : Z := (t / msPerMinute) mod 60.
Definition getUTCSeconds (t : Z) : Z := (t / msPerSecond) mod 60.
Definition getUTCMilliseconds (t : Z) : Z := t mod msPerSecond.

Definition setUTCMilliseconds (ms t : Z) : Z :=
  MakeDate (Day t) (MakeTime (getUTCHours t) (getUTCMinutes t) (getUTCSeconds t) ms).
Definition setUTCSeconds (s t : Z) : Z :=
  MakeDate (Day t) (MakeTime (getUTCHours t) (getUTCMinutes t) s (getUTCMilliseconds t)).
Definition setUTCMinutes (m t : Z) : Z :=
  MakeDate (Day t) (MakeTime (getUTCHours t) m (getUTCSeconds t) (getUTCMilliseconds t)).
Definition setUTCHours (h t : Z) : Z :=
  MakeDate (Day t) (MakeTime h (getUTCMinutes t) (getUTCSeconds t) (getUTCMilliseconds t)).
Definition setUTCDate (d t : Z) : Z :=
  MakeDate (MakeDay (getUTCFullYear t) (getUTCMonth t) d) (TimeWithinDay t).
Definition setUTCMonth (m t : Z) : Z :=
  MakeDate (MakeDay (getUTCFullYear t) m (getUTCDate t)) (TimeWithinDay t).
Definition setUTCFullYear (y t : Z) : Z :=
  MakeDate (MakeDay y (getUTCMonth t) (getUTCDate t)) (TimeWithinDay t).

(** [Date.UTC(year, month)]: the first of the month; the years 0 to 99 stand
    for 1900 to 1999. *)
Definition DateUTC (year month : Z) : Z :=
  let yr := if (0 <=? year) && (year <=? 99) then 1900 + year else year in
  MakeDate (MakeDay yr month 1) 0.

(** ** Facts about the calendar *)

(** The calendar repeats every 400 years. *)
Lemma DayFromYear_period q r : DayFromYear (400 * q + r) = 146097 * q + DayFromYear r.
Proof.
  unfold DayFromYear.
  replace (400 * q + r - 1969) with (r - 1969 + (100 * q) * 4) by lia.
  replace (400 * q + r - 1901) with (r - 1901 + (4 * q) * 100) by lia.
  replace (400 * q + r - 1601) with (r - 1601 + q * 400) by lia.
  rewrite !Z.div_add by lia. lia.
Qed.

Lemma DaysInYear_table :
  forallb (fun r => let n := DaysInYear (Z.of_nat r) in (n =? 365) || (n =? 366)) (seq 0 400)
  = true.
Proof. vm_compute. reflexivity. Qed.

Lemma DaysInYear_cases y : DaysInYear y = 365 \/ DaysInYear y = 366.
Proof.
  assert (DaysInYear y = DaysInYear (y mod 400)) as ->.
  { unfold DaysInYear. rewrite (Z.div_mod y 400) at 1 2 by lia.
    rewrite <-Z.add_assoc, !DayFromYear_period. lia. }
  pose proof (Z.mod_pos_bound y 400 ltac:(lia)).
  pose proof (proj1 (forallb_forall _ _) DaysInYear_table (Z.to_nat (y mod 400))) as H'.
  cbv beta zeta in H'. rewrite Z2Nat.id in H' by lia.
  rewrite orb_true_iff, !Z.eqb_eq in H'. apply H'. apply in_seq. lia.
Qed.

Lemma InLeapYear_days y : DaysInYear y = if InLeapYear y then 366 else 365.
Proof.
  unfold InLeapYear. destruct (DaysInYear_cases y) as [-> | ->]; done.
Qed.

Lemma DayFromYear_step y : DayFromYear y + 365 <= DayFromYear (y + 1) <= DayFromYear y + 366.
Proof. pose proof (DaysInYear_cases y) as H. unfold DaysInYear in H. lia. Qed.

Lemma DayFromYear_mono y y' : y <= y' -> DayFromYear y <= DayFromYear y'.
Proof.
  intros H. replace y' with (y + (y' - y)) by lia.
  assert (0 <= y' - y) as Hn by lia. revert Hn. generalize (y' - y).
  apply natlike_ind; [rewrite Z.add_0_r; lia|].
  intros n Hn' IH. pose proof (DayFromYear_step (y + n)).
  replace (y + Z.succ n) with (y + n + 1) by lia. lia.
Qed.

Lemma DayFromYear_lt y y' : y < y' -> DayFromYear y + 365 <= DayFromYear y'.
Proof.
  intros. pose proof (DayFromYear_step y).
  pose proof (DayFromYear_mono (y + 1) y' ltac:(lia)). lia.
Qed.

(** A year starts within two days of its place in a calendar of mean years. *)
Lemma DayFromYear_mean y :
  146097 * (y - 1970) - 800 <= 400 * DayFromYear y <= 146097 * (y - 1970) + 800.
Proof.
  unfold DayFromYear.
  pose proof (Z.div_mod (y - 1969) 4 ltac:(lia)). pose proof (Z.mod_pos_bound (y - 1969) 4 ltac:(lia)).
  pose proof (Z.div_mod (y - 1901) 100 ltac:(lia)). pose proof (Z.mod_pos_bound (y - 1901) 100 ltac:(lia)).
  pose proof (Z.div_mod (y - 1601) 400 ltac:(lia)). pose proof (Z.mod_pos_bound (y - 1601) 400 ltac:(lia)).
  lia.
Qed.

Lemma YearFromDay_spec d :
  DayFromYear (YearFromDay d) <= d < DayFromYear (YearFromDay d + 1).
Proof.
  unfold YearFromDay. set (y := 1970 + d * 400 / 146097).
  assert (DayFromYear (y - 1) <= d < DayFromYear (y + 2)).
  { pose proof (DayFromYear_mean (y - 1)).
    pose proof (Z.div_mod (d * 400) 146097 ltac:(lia)).
    pose proof (Z.mod_pos_bound (d * 400) 146097 ltac:(lia)).
    pose proof (DayFromYear_mean (y + 2)). subst y. lia. }
  destruct (d <? DayFromYear y) eqn:?; zbool.
  - replace (y - 1 + 1) with y by lia. lia.
  - destruct (DayFromYear (y + 1) <=? d) eqn:?; zbool; [|lia].
    replace (y + 1 + 1) with (y + 2) by lia. lia.
Qed.

Lemma YearFromDay_unique d y :
  DayFromYear y <= d < DayFromYear (y + 1) -> YearFromDay d = y.
Proof.
  intros H. pose proof (YearFromDay_spec d).
  destruct (Z.lt_trichotomy (YearFromDay d) y) as [Hlt | [? | Hlt]]; [|done|].
  - pose proof (DayFromYear_mono (YearFromDay d + 1) y ltac:(lia)). lia.
  - pose proof (DayFromYear_mono (y + 1) (YearFromDay d) ltac:(lia)). lia.
Qed.

Lemma YearDay_bounds d :
  0 <= YearDay d < if InLeapYear (YearFromDay d) then 366 else 365.
Proof.
  rewrite <-InLeapYear_days. unfold YearDay, DaysInYear.
  pose proof (YearFromDay_spec d). lia.
Qed.

(** Case analysis on a month number. *)
Ltac month_cases m :=
  assert (m = 0 \/ m = 1 \/ m = 2 \/ m = 3 \/ m = 4 \/ m = 5 \/ m = 6 \/ m = 7 \/
          m = 8 \/ m = 9 \/ m = 10 \/ m = 11) as Hmonth by lia;
  destruct Hmonth as [->|[->|[->|[->|[->|[->|[->|[->|[->|[->|[->| ->]]]]]]]]]]].

Lemma DaysBeforeMonth_step leap m :
  0 <= m <= 11 ->
  DaysBeforeMonth leap m + 28 <= DaysBeforeMonth leap (m + 1).
Proof. intros. month_cases m; destruct leap; cbv; discriminate. Qed.

Lemma DaysBeforeMonth_12 (leap : bool) : DaysBeforeMonth leap 12 = if leap then 366 else 365.
Proof. by destruct leap. Qed.

Lemma MonthOfYearDay_spec (leap : bool) dy :
  0 <= dy < (if leap then 366 else 365) ->
  0 <= MonthOfYearDay leap dy <= 11 /\
  DaysBeforeMonth leap (MonthOfYearDay leap dy) <= dy
    < DaysBeforeMonth leap (MonthOfYearDay leap dy + 1).
Proof.
  intros. unfold MonthOfYearDay.
  repeat match goal with
  | |- context [?a <? DaysBeforeMonth leap ?m] =>
      destruct (a <? DaysBeforeMonth leap m) eqn:?; zbool
  end; destruct leap; unfold DaysBeforeMonth in *; simpl in *; lia.
Qed.

Lemma MonthOfYearDay_unique leap dy m :
  0 <= m <= 11 ->
  DaysBeforeMonth leap m <= dy < DaysBeforeMonth leap (m + 1) ->
  MonthOfYearDay leap dy = m.
Proof.
  intros Hm H. unfold MonthOfYearDay.
  month_cases m; destruct leap; unfold DaysBeforeMonth in *; simpl in *;
  repeat match goal with
  | |- context [?a <? ?b] => destruct (a <? b) eqn:?; zbool; try lia
  end; done.
Qed.

Lemma MonthFromDay_bounds d : 0 <= MonthFromDay d <= 11.
Proof. apply MonthOfYearDay_spec, YearDay_bounds. Qed.

Lemma DateFromDay_bounds d : 1 <= DateFromDay d <= 31.
Proof.
  pose proof (MonthOfYearDay_spec _ _ (YearDay_bounds d)) as [Hm Hd].
  fold (MonthFromDay d) in *. unfold DateFromDay.
  assert (DaysBeforeMonth (InLeapYear (YearFromDay d)) (MonthFromDay d + 1)
          <= DaysBeforeMonth (InLeapYear (YearFromDay d)) (MonthFromDay d) + 31).
  { revert Hm. generalize (MonthFromDay d). intros m Hm.
    month_cases m; destruct (InLeapYear _); cbv; discriminate. }
  lia.
Qed.

(** A day is the day its year, month and date make. *)
Lemma MakeDay_id d : MakeDay (YearFromDay d) (MonthFromDay d) (DateFromDay d) = d.
Proof.
  unfold MakeDay. pose proof (MonthFromDay_bounds d).
  rewrite Z.div_small, Z.mod_small, Z.add_0_r by lia.
  unfold DateFromDay, YearDay. lia.
Qed.

Lemma MakeDay_date y m d d' : MakeDay y m d = MakeDay y m d' + (d - d').
Proof. unfold MakeDay. lia. Qed.

(** The first of a month given by its number since year zero. *)
Definition MonthStart (n : Z) : Z := MakeDay 0 n 1.

Lemma MonthStart_def y m : MakeDay y m 1 = MonthStart (12 * y + m).
Proof.
  unfold MonthStart, MakeDay.
  replace (12 * y + m) with (m + y * 12) by lia.
  rewrite Z.div_add, Z.mod_add by lia.
  replace (0 + (m / 12 + y)) with (y + m / 12) by lia. done.
Qed.

Lemma succ_div_mod_wrap n :
  n mod 12 = 11 -> (n + 1) / 12 = n / 12 + 1 /\ (n + 1) mod 12 = 0.
Proof.
  intros E. pose proof (Z.div_mod n 12 ltac:(lia)).
  split; symmetry; [apply (Z.div_unique _ _ _ 0)|apply (Z.mod_unique _ _ (n / 12 + 1))]; lia.
Qed.

Lemma succ_div_mod_next n :
  n mod 12 <> 11 -> (n + 1) / 12 = n / 12 /\ (n + 1) mod 12 = n mod 12 + 1.
Proof.
  intros E. pose proof (Z.div_mod n 12 ltac:(lia)). pose proof (Z.mod_pos_bound n 12 ltac:(lia)).
  split; symmetry;
    [apply (Z.div_unique _ _ _ (n mod 12 + 1))|apply (Z.mod_unique _ _ (n / 12))]; lia.
Qed.

Lemma MonthStart_step n : MonthStart n + 28 <= MonthStart (n + 1).
Proof.
  unfold MonthStart, MakeDay. rewrite !Z.add_0_l.
  pose proof (Z.mod_pos_bound n 12 ltac:(lia)).
  destruct (decide (n mod 12 = 11)) as [E|E].
  - destruct (succ_div_mod_wrap n E) as [-> ->].
    rewrite E. pose proof (InLeapYear_days (n / 12)) as Hl. unfold DaysInYear in Hl.
    pose proof (DaysBeforeMonth_step (InLeapYear (n / 12)) 11 ltac:(lia)) as Hs.
    change (11 + 1) with 12 in Hs. rewrite DaysBeforeMonth_12, <-Hl in Hs.
    change (DaysBeforeMonth _ 0) with 0. lia.
  - destruct (succ_div_mod_next n E) as [-> ->].
    pose proof (DaysBeforeMonth_step (InLeapYear (n / 12)) (n mod 12) ltac:(lia)). lia.
Qed.

Lemma MonthStart_lt n n' : n < n' -> MonthStart n + 28 <= MonthStart n'.
Proof.
  intros H. replace n' with (n + 1 + (n' - n - 1)) by lia.
  assert (0 <= n' - n - 1) as Hk by lia. revert Hk. generalize (n' - n - 1).
  apply natlike_ind; [rewrite Z.add_0_r; apply MonthStart_step|].
  intros k Hk IH. pose proof (MonthStart_step (n + 1 + k)).
  replace (n + 1 + Z.succ k) with (n + 1 + k + 1) by lia. lia.
Qed.

Lemma MonthStart_le n n' : n <= n' -> MonthStart n <= MonthStart n'.
Proof.
  intros. destruct (decide (n = n')) as [->|]; [lia|].
  pose proof (MonthStart_lt n n' ltac:(lia)). lia.
Qed.

(** The calendar fields of the first of a month. *)
Lemma MakeDay_fields y m d :
  0 <= m <= 11 ->
  1 <= d <= 28 ->
  YearFromDay (MakeDay y m d) = y /\
  MonthFromDay (MakeDay y m d) = m /\ DateFromDay (MakeDay y m d) = d.
Proof.
  intros Hm Hd.
  pose proof (DaysBeforeMonth_step (InLeapYear y) m Hm) as Hs.
  assert (0 <= DaysBeforeMonth (InLeapYear y) m /\
          DaysBeforeMonth (InLeapYear y) (m + 1) <= DaysInYear y) as [H0 H1].
  { rewrite InLeapYear_days. month_cases m; destruct (InLeapYear y); cbv; split; discriminate. }
  unfold MakeDay. rewrite Z.div_small, Z.mod_small, Z.add_0_r by lia.
  set (day := DayFromYear y + DaysBeforeMonth (InLeapYear y) m + d - 1).
  assert (YearFromDay day = y) as Hy.
  { apply YearFromDay_unique. unfold DaysInYear in *. lia. }
  assert (MonthFromDay day = m) as Hmo.
  { unfold MonthFromDay, YearDay. rewrite Hy. apply MonthOfYearDay_unique; lia. }
  split_and!; [done..|]. unfold DateFromDay. rewrite Hmo, Hy.
  unfold YearDay. rewrite Hy. lia.
Qed.

(** ** Facts about time values *)

Ltac unfold_ms := unfold Day, TimeWithinDay, MakeDate, MakeTime, msPerDay, msPerHour,
  msPerMinute, msPerSecond in *.

Lemma MakeDate_Day t : MakeDate (Day t) (TimeWithinDay t) = t.
Proof. unfold_ms. pose proof (Z.div_mod t 86400000). lia. Qed.

Lemma Day_MakeDate d t : 0 <= t < msPerDay -> Day (MakeDate d t) = d.
Proof. unfold_ms. intros. rewrite Z.div_add_l, Z.div_small by lia. lia. Qed.

Lemma TimeWithinDay_MakeDate d t : 0 <= t < msPerDay -> TimeWithinDay (MakeDate d t) = t.
Proof.
  unfold_ms. intros. rewrite Z.add_comm, Z.mod_add by lia. by apply Z.mod_small.
Qed.

Lemma TimeWithinDay_bounds t : 0 <= TimeWithinDay t < msPerDay.
Proof. unfold_ms. apply Z.mod_pos_bound. lia. Qed.

Lemma MakeDate_lt d t d' t' :
  d < d' -> 0 <= t < msPerDay -> 0 <= t' < msPerDay -> MakeDate d t < MakeDate d' t'.
Proof. unfold_ms. lia. Qed.

(** The clock fields of a time value, in one equation. *)
Lemma time_fields t :
  t = MakeDate (Day t) (MakeTime (getUTCHours t) (getUTCMinutes t) (getUTCSeconds t)
                          (getUTCMilliseconds t)).
Proof.
  unfold getUTCHours, getUTCMinutes, getUTCSeconds, getUTCMilliseconds. unfold_ms.
  change 86400000 with (1000 * 60 * 60 * 24). change 3600000 with (1000 * 60 * 60).
  change 60000 with (1000 * 60). rewrite <-!Z.div_div by lia.
  pose proof (Z.div_mod t 1000 ltac:(lia)).
  pose proof (Z.div_mod (t / 1000) 60 ltac:(lia)).
  pose proof (Z.div_mod (t / 1000 / 60) 60 ltac:(lia)).
  pose proof (Z.div_mod (t / 1000 / 60 / 60) 24 ltac:(lia)). lia.
Qed.

Lemma clock_bounds t :
  0 <= getUTCHours t < 24 /\ 0 <= getUTCMinutes t < 60 /\
  0 <= getUTCSeconds t < 60 /\ 0 <= getUTCMilliseconds t < 1000.
Proof.
  unfold getUTCHours, getUTCMinutes, getUTCSeconds, getUTCMilliseconds. unfold_ms.
  split_and!; apply Z.mod_pos_bound; lia.
Qed.

(** One digit of a number in mixed radix. *)
Lemma radix_digit a b n u r :
  0 < u -> 0 <= r < u -> 0 <= b < n -> (((a * n + b) * u + r) / u) mod n = b.
Proof.
  intros Hu Hr Hb. rewrite Z.div_add_l, (Z.div_small r), Z.add_0_r, Z.add_comm, Z.mod_add by lia.
  by apply Z.mod_small.
Qed.

(** The fields of a time value put together from a day and a clock. *)
Lemma clock_of_make d h m s ms :
  0 <= h < 24 -> 0 <= m < 60 -> 0 <= s < 60 -> 0 <= ms < 1000 ->
  let t := MakeDate d (MakeTime h m s ms) in
  Day t = d /\ getUTCHours t = h /\ getUTCMinutes t = m /\ getUTCSeconds t = s /\
  getUTCMilliseconds t = ms.
Proof.
  intros Hh Hm Hs Hms t.
  assert (Day t = d) as Hd.
  { apply Day_MakeDate. unfold_ms. lia. }
  split_and!; [done| | | | ]; subst t;
    unfold getUTCHours, getUTCMinutes, getUTCSeconds, getUTCMilliseconds; unfold_ms.
  - rewrite <-(radix_digit d h 24 3600000 (m * 60000 + s * 1000 + ms)) at 2 by lia.
    do 2 f_equal. lia.
  - rewrite <-(radix_digit (d * 24 + h) m 60 60000 (s * 1000 + ms)) at 2 by lia.
    do 2 f_equal. lia.
  - rewrite <-(radix_digit ((d * 24 + h) * 60 + m) s 60 1000 ms) at 2 by lia.
    do 2 f_equal. lia.
  - rewrite <-(radix_digit (((d * 24 + h) * 60 + m) * 60 + s) ms 1000 1 0) at 2 by lia.
    rewrite Z.div_1_r. f_equal. lia.
Qed.

(** A setter moves the time value by the change of its field. *)
Lemma setUTCMilliseconds_shift v t :
  setUTCMilliseconds v t = t + (v - getUTCMilliseconds t).
Proof. rewrite (time_fields t) at 2. unfold setUTCMilliseconds. unfold_ms. lia. Qed.

Lemma setUTCSeconds_shift v t :
  setUTCSeconds v t = t + (v - getUTCSeconds t) * msPerSecond.
Proof. rewrite (time_fields t) at 2. unfold setUTCSeconds. unfold_ms. lia. Qed.

Lemma setUTCMinutes_shift v t :
  setUTCMinutes v t = t + (v - getUTCMinutes t) * msPerMinute.
Proof. rewrite (time_fields t) at 2. unfold setUTCMinutes. unfold_ms. lia. Qed.

Lemma setUTCHours_shift v t :
  setUTCHours v t = t + (v - getUTCHours t) * msPerHour.
Proof. rewrite (time_fields t) at 2. unfold setUTCHours. unfold_ms. lia. Qed.

Lemma setUTCDate_shift v t :
  setUTCDate v t = t + (v - getUTCDate t) * msPerDay.
Proof.
  unfold setUTCDate, getUTCFullYear, getUTCMonth, getUTCDate.
  rewrite (MakeDay_date _ _ v (DateFromDay (Day t))), MakeDay_id.
  rewrite <-(MakeDate_Day t) at 4. unfold_ms. lia.
Qed.

(** Clearing the clock leaves midnight of the same day. *)
Lemma clear_clock t :
  setUTCHours 0 (setUTCMinutes 0 (setUTCSeconds 0 (setUTCMilliseconds 0 t)))
  = MakeDate (Day t) 0.
Proof.
  pose proof (clock_bounds t) as (Hh & Hm & Hs & Hms).
  unfold setUTCMilliseconds.
  destruct (clock_of_make (Day t) (getUTCHours t) (getUTCMinutes t) (getUTCSeconds t) 0)
    as (E1 & E2 & E3 & E4 & E5); [lia..|].
  unfold setUTCSeconds at 1. rewrite E1, E2, E3, E5.
  destruct (clock_of_make (Day t) (getUTCHours t) (getUTCMinutes t) 0 0)
    as (F1 & F2 & F3 & F4 & F5); [lia..|].
  unfold setUTCMinutes at 1. rewrite F1, F2, F4, F5.
  destruct (clock_of_make (Day t) (getUTCHours t) 0 0 0)
    as (G1 & G2 & G3 & G4 & G5); [lia..|].
  unfold setUTCHours at 1. rewrite G1, G3, G4, G5. done.
Qed.

(** Midnight of the first of a month. *)
Lemma month_start_fields y m :
  0 <= m <= 11 ->
  let t := MakeDate (MakeDay y m 1) 0 in
  getUTCFullYear t = y /\ getUTCMonth t = m /\ getUTCDate t = 1 /\ TimeWithinDay t = 0.
Proof.
  intros Hm t. unfold getUTCFullYear, getUTCMonth, getUTCDate. subst t.
  rewrite Day_MakeDate, TimeWithinDay_MakeDate by (unfold_ms; lia).
  destruct (MakeDay_fields y m 1) as (-> & -> & ->); [lia..|]. done.
Qed.
