(* ===== verification/HsTime.v ===== *)
(** * Charts: time formatting and time ticks

    [highstock.src.js]: [pad], [dateFormat], [normalizeTickInterval],
    [normalizeTimeTickInterval], [getTimeTicks], with [global.useUTC] at its
    default [true]. *)

From S2P Require Import Prelude JsString JsNum JsDate.
From Stdlib Require Import Ascii.
Local Open Scope string_scope.
Local Open Scope Z_scope.

(** ** Formatting *)

(** [new Array((length || 2) + 1 - String(number).length).join(0) + number]:
    an array of a negative length is a [RangeError]. *)
Definition pad (number : Z) (len : option Z) : res string :=
  let len' := match len with Some 0 | None => 2 | Some n => n end in
  let n := len' + 1 - Z.of_nat (String.length (show_Z number)) in
  if n <? 0 then Throw "RangeError"
  else Ok (str_repeat (Z.to_nat (n - 1)) "0" ++ show_Z number).

Record lang_options := {
  weekdays : list string;
  months : list string;
  shortMonths : list string
}.

Definition default_lang : lang_options := {|
  months := ["January"; "February"; "March"; "April"; "May"; "June"; "July";
             "August"; "September"; "October"; "November"; "December"];
  shortMonths := ["Jan"; "Feb"; "Mar"; "Apr"; "May"; "Jun"; "Jul"; "Aug"; "Sep";
                  "Oct"; "Nov"; "Dec"];
  weekdays := ["Sunday"; "Monday"; "Tuesday"; "Wednesday"; "Thursday"; "Friday"; "Saturday"]
|}.

(** An element put into a string: [undefined] past the end of the array. *)
Definition name_at (l : list string) (i : Z) : string :=
  match l !! Z.to_nat i with Some s => s | None => "undefined" end.

(** The [replacements] of [dateFormat], in the order they are written. *)
Definition replacements (lang : lang_options) (timestamp : Z) : res (list (ascii * string)) :=
  let hours := getUTCHours timestamp in
  let day := getUTCDay timestamp in
  let dayOfMonth := getUTCDate timestamp in
  let month := getUTCMonth timestamp in
  let fullYear := getUTCFullYear timestamp in
  let hours12 := if hours mod 12 =? 0 then 12 else hours mod 12 in
  weekday ← of_option (weekdays lang !! Z.to_nat day);
  d ← pad dayOfMonth None;
  m ← pad (month + 1) None;
  h ← pad hours None;
  i ← pad hours12 None;
  mi ← pad (getUTCMinutes timestamp) None;
  s ← pad (getUTCSeconds timestamp) None;
  l ← pad (Z.rem timestamp 1000) (Some 3);
  Ok [("a"%char, str_take 3 weekday); ("A"%char, name_at (weekdays lang) day);
      ("d"%char, d); ("e"%char, show_Z dayOfMonth);
      ("b"%char, name_at (shortMonths lang) month); ("B"%char, name_at (months lang) month);
      ("m"%char, m);
      ("y"%char, str_take 2 (str_drop 2 (show_Z fullYear))); ("Y"%char, show_Z fullYear);
      ("H"%char, h); ("I"%char, i); ("l"%char, show_Z hours12); ("M"%char, mi);
      ("p"%char, if hours <? 12 then "AM" else "PM");
      ("P"%char, if hours <? 12 then "am" else "pm");
      ("S"%char, s); ("L"%char, l)].

Definition apply_replacement (format : string) (kr : ascii * string) : string :=
  js_replace (String "%" (String kr.1 "")) kr.2 format.

(** [s.toUpperCase()] of one ASCII character. *)
Definition upper (c : ascii) : ascii :=
  let n := nat_of_ascii c in
  if (97 <=? n)%nat && (n <=? 122)%nat then ascii_of_nat (n - 32) else c.

Definition capitalized (s : string) : string :=
  match s with EmptyString => "" | String c s' => String (upper c) s' end.

(** A timestamp that is [undefined], [null] or [NaN] is [None]. *)
Definition dateFormat (lang : lang_options) (format : option string)
    (timestamp : option Z) (capitalize : bool) : res string :=
  match timestamp with
  | None => Ok "Invalid date"
  | Some t =>
      let format := default "%Y-%m-%d %H:%M:%S" format in
      rs ← replacements lang t;
      let format := fold_left apply_replacement rs format in
      Ok (if capitalize then capitalized format else format)
  end.

Example dateFormat_ex :
  dateFormat default_lang (Some "%A, %b %e, %Y %l:%M %p") (Some 1388577600000) false
  = Ok "Wednesday, Jan 1, 2014 12:00 PM".
Proof. vm_compute. reflexivity. Qed.

(** ** Tick intervals *)

(** The loop over the multiples: the first one whose midpoint with the next is
    not below the interval, or the last. *)
Fixpoint pick_multiple (normalized interval : num) (multiples : list num) : num :=
  match multiples with
  | [] => interval
  | m :: rest =>
      let next := match rest with m' :: _ => if num_truthy m' then m' else m | [] => m end in
      if (normalized <= (m + next) / 2%float)%num then m
      else pick_multiple normalized m rest
  end.

Definition default_multiples : list num := [1; 2; 2.5; 5; 10]%float.

Definition normalizeTickInterval (interval : num) (multiples : option (list num))
    (magnitude : option num) (allowDecimals : option bool) : num :=
  let magnitude := default 1%float magnitude in
  let normalized := (interval / magnitude)%num in
  let multiples :=
    match multiples with
    | Some ms => ms
    | None =>
        match allowDecimals with
        | Some false =>
            if (magnitude === 1%float)%num then [1; 2; 5; 10]%float
            else if (magnitude <= 0x1.999999999999ap-4%float)%num then [(1%float / magnitude)%num]
            else default_multiples
        | _ => default_multiples
        end
    end in
  (pick_multiple normalized interval multiples * magnitude)%num.

Inductive unit_name :=
| MILLISECOND | SECOND | MINUTE | HOUR | DAY | WEEK | MONTH | YEAR.

#[export] Instance unit_name_eq_dec : EqDecision unit_name.
Proof. solve_decision. Defined.

Definition timeUnits (u : unit_name) : Z :=
  match u with
  | MILLISECOND => 1
  | SECOND => 1000
  | MINUTE => 60000
  | HOUR => 3600000
  | DAY => 24 * 3600000
  | WEEK => 7 * 24 * 3600000
  | MONTH => 30 * 24 * 3600000
  | YEAR => 31556952000
  end.

Definition default_units : list (unit_name * option (list num)) :=
  [(MILLISECOND, Some [1; 2; 5; 10; 20; 25; 50; 100; 200; 500]%float);
   (SECOND, Some [1; 2; 5; 10; 15; 30]%float);
   (MINUTE, Some [1; 2; 5; 10; 15; 30]%float);
   (HOUR, Some [1; 2; 3; 4; 6; 8; 12]%float);
   (DAY, Some [1; 2]%float);
   (WEEK, Some [1; 2]%float);
   (MONTH, Some [1; 2; 3; 4; 6]%float);
   (YEAR, None)].

(** The loop over the units: the first whose range the interval is closer to
    than to the next unit's, or the last.  A unit before the last whose
    multiples are [null] is a [TypeError]. *)
Fixpoint pick_unit (tickInterval : num) (units : list (unit_name * option (list num)))
    : res (unit_name * option (list num)) :=
  match units with
  | [] => Throw TypeError
  | [unit] => Ok unit
  | (u, multiples) :: (((u', _) :: _) as rest) =>
      match multiples with
      | None => Throw TypeError
      | Some ms =>
          let top := List.last ms nan in
          let lessThan := ((num_of_Z (timeUnits u) * top + num_of_Z (timeUnits u'))
                           / 2%float)%num in
          if (tickInterval <= lessThan)%num then Ok (u, multiples)
          else pick_unit tickInterval rest
      end
  end.

Record tick_interval := { unitRange : Z; count : num; unitName : unit_name }.

Definition normalizeTimeTickInterval (tickInterval : num)
    (unitsOption : option (list (unit_name * option (list num)))) : res tick_interval :=
  '(unit, multiples) ← pick_unit tickInterval (default default_units unitsOption);
  let interval := timeUnits unit in
  let multiples :=
    if (interval =? timeUnits YEAR) &&
       (tickInterval < 5%float * num_of_Z interval)%num
    then Some [1; 2; 5]%float else multiples in
  Ok {| unitRange := interval;
        count := normalizeTickInterval (tickInterval / num_of_Z interval)%num multiples None None;
        unitName := unit |}.

(** ** Tick positions *)

(** The start of the ticks: the minimum with the fields below the interval
    cleared and the field of the interval rounded down to the count, one step
    per unit. *)
Section start_steps.
Context (interval cnt : Z).

Definition floor_second (d : Z) : Z :=
  if timeUnits SECOND <=? interval then
    let d := setUTCMilliseconds 0 d in
    setUTCSeconds (if timeUnits MINUTE <=? interval then 0
                   else cnt * (getUTCSeconds d / cnt)) d
  else d.

Definition floor_minute (d : Z) : Z :=
  if timeUnits MINUTE <=? interval then
    setUTCMinutes (if timeUnits HOUR <=? interval then 0
                   else cnt * (getUTCMinutes d / cnt)) d
  else d.

Definition floor_hour (d : Z) : Z :=
  if timeUnits HOUR <=? interval then
    setUTCHours (if timeUnits DAY <=? interval then 0
                 else cnt * (getUTCHours d / cnt)) d
  else d.

Definition floor_day (d : Z) : Z :=
  if timeUnits DAY <=? interval then
    setUTCDate (if timeUnits MONTH <=? interval then 1
                else cnt * (getUTCDate d / cnt)) d
  else d.

Definition floor_month (d : Z) : Z :=
  if timeUnits MONTH <=? interval then
    setUTCMonth (if timeUnits YEAR <=? interval then 0
                 else cnt * (getUTCMonth d / cnt)) d
  else d.

Definition floor_year (d : Z) : Z :=
  if timeUnits YEAR <=? interval then
    let minYear := getUTCFullYear d in
    setUTCFullYear (minYear - Z.rem minYear cnt) d
  else d.

Definition start_of_week (startOfWeek : option Z) (d : Z) : Z :=
  if interval =? timeUnits WEEK then
    setUTCDate (getUTCDate d - getUTCDay d + default 1 startOfWeek) d
  else d.

Definition ticks_start (min : Z) (startOfWeek : option Z) : Z :=
  start_of_week startOfWeek
    (floor_year (floor_month (floor_day (floor_hour (floor_minute (floor_second min)))))).
End start_steps.

(** The time the loop assigns at its [i]-th round. *)
Definition next_time (interval cnt minYear minMonth i time : Z) : Z :=
  if interval =? timeUnits YEAR then DateUTC (minYear + i * cnt) 0
  else if interval =? timeUnits MONTH then DateUTC minYear (minMonth + i * cnt)
  else time + interval * cnt.

(** Whether the new time is recorded as the first of a day. *)
Definition marks_day (interval time' : Z) : bool :=
  negb (interval =? timeUnits YEAR) && negb (interval =? timeUnits MONTH) &&
  (interval <=? timeUnits HOUR) && (Z.rem time' (timeUnits DAY) =? 0).

(** [while (time < max) { tickPositions.push(time); ... }] and the last push;
    [None] when the fuel runs out. *)
Fixpoint ticks_loop (fuel : nat) (interval cnt minYear minMonth max i time : Z)
    (positions ranks : list Z) : option (list Z * list Z) :=
  if time <? max then
    match fuel with
    | O => None
    | S fuel' =>
        let time' := next_time interval cnt minYear minMonth i time in
        let ranks' := if marks_day interval time' then (ranks ++ [time'])%list else ranks in
        ticks_loop fuel' interval cnt minYear minMonth max (i + 1) time'
          (positions ++ [time])%list ranks'
    end
  else Some ((positions ++ [time])%list, ranks).

Record time_ticks := { tickPositions : list Z; higherRanks : list Z; totalRange : Z }.

Definition getTimeTicks (fuel : nat) (interval cnt min max : Z) (startOfWeek : option Z)
    : option time_ticks :=
  let d := ticks_start interval cnt min startOfWeek in
  '(ps, ranks) ← ticks_loop fuel interval cnt (getUTCFullYear d) (getUTCMonth d) max 1 d [] [];
  Some {| tickPositions := ps; higherRanks := ranks; totalRange := interval * cnt |}.

Example getTimeTicks_ex :
  tickPositions <$> getTimeTicks 10 (timeUnits MONTH) 3 1388577600000 1420113600000 None
  = Some [1388534400000; 1396310400000; 1404172800000; 1412121600000; 1420070400000;
          1427846400000].
Proof. vm_compute. reflexivity. Qed.

(** *** The start *)

Section start.
Context (interval cnt : Z) (Hcnt : 0 < cnt).

Lemma floor_le x : cnt * (x / cnt) <= x.
Proof. by apply Z.mul_div_le. Qed.

Lemma floor_second_le d : floor_second interval cnt d <= d.
Proof.
  unfold floor_second. cases; [| |lia].
  all: rewrite setUTCSeconds_shift.
  all: pose proof (setUTCMilliseconds_shift 0 d); pose proof (clock_bounds d).
  all: pose proof (clock_bounds (setUTCMilliseconds 0 d)).
  all: pose proof (floor_le (getUTCSeconds (setUTCMilliseconds 0 d))).
  all: unfold msPerSecond; lia.
Qed.

Lemma floor_minute_le d : floor_minute interval cnt d <= d.
Proof.
  unfold floor_minute. pose proof (clock_bounds d). pose proof (floor_le (getUTCMinutes d)).
  cases; rewrite ?setUTCMinutes_shift; unfold msPerMinute; lia.
Qed.

Lemma floor_hour_le d : floor_hour interval cnt d <= d.
Proof.
  unfold floor_hour. pose proof (clock_bounds d). pose proof (floor_le (getUTCHours d)).
  cases; rewrite ?setUTCHours_shift; unfold msPerHour; lia.
Qed.

Lemma floor_day_le d : floor_day interval cnt d <= d.
Proof.
  unfold floor_day. pose proof (DateFromDay_bounds (Day d)).
  pose proof (floor_le (getUTCDate d)). fold (getUTCDate d) in *.
  cases; rewrite ?setUTCDate_shift; unfold msPerDay; lia.
Qed.

Lemma floor_steps_le d :
  floor_day interval cnt (floor_hour interval cnt
    (floor_minute interval cnt (floor_second interval cnt d))) <= d.
Proof.
  etrans; [apply floor_day_le|]. etrans; [apply floor_hour_le|].
  etrans; [apply floor_minute_le|]. apply floor_second_le.
Qed.

(** Moving the first of a month to the first of an earlier one. *)
Lemma setUTCMonth_le d v :
  getUTCDate d = 1 -> v <= getUTCMonth d -> setUTCMonth v d <= d.
Proof.
  intros Hd Hv. unfold setUTCMonth. rewrite <-(MakeDate_Day d) at 4.
  rewrite <-(MakeDay_id (Day d)) at 1. fold (getUTCFullYear d) (getUTCMonth d) (getUTCDate d).
  rewrite Hd, !MonthStart_def.
  pose proof (MonthStart_le (12 * getUTCFullYear d + v)
                (12 * getUTCFullYear d + getUTCMonth d)).
  unfold MakeDate, msPerDay. lia.
Qed.

Lemma setUTCFullYear_le d v :
  getUTCDate d = 1 -> v <= getUTCFullYear d -> setUTCFullYear v d <= d.
Proof.
  intros Hd Hv. unfold setUTCFullYear. rewrite <-(MakeDate_Day d) at 4.
  rewrite <-(MakeDay_id (Day d)) at 1. fold (getUTCFullYear d) (getUTCMonth d) (getUTCDate d).
  rewrite Hd, !MonthStart_def.
  pose proof (MonthStart_le (12 * v + getUTCMonth d)
                (12 * getUTCFullYear d + getUTCMonth d)).
  unfold MakeDate, msPerDay. lia.
Qed.
End start.

(** The start for months and years is midnight of the first of a month. *)
Section start_forms.
Context (cnt min : Z) (sow : option Z).
Let y := getUTCFullYear min.
Let m := getUTCMonth min.

Lemma floor_clock u :
  u = DAY \/ u = WEEK \/ u = MONTH \/ u = YEAR ->
  floor_hour (timeUnits u) cnt (floor_minute (timeUnits u) cnt (floor_second (timeUnits u) cnt min))
  = MakeDate (Day min) 0.
Proof. intros [->|[->|[->| ->]]]; apply clear_clock. Qed.

Lemma floor_day_first u :
  u = MONTH \/ u = YEAR ->
  floor_day (timeUnits u) cnt (MakeDate (Day min) 0) = MakeDate (MakeDay y m 1) 0.
Proof.
  assert (setUTCDate 1 (MakeDate (Day min) 0) = MakeDate (MakeDay y m 1) 0).
  { unfold setUTCDate, getUTCFullYear, getUTCMonth.
    rewrite Day_MakeDate, TimeWithinDay_MakeDate by (unfold_ms; lia). done. }
  by intros [->| ->].
Qed.

Lemma ticks_start_month :
  ticks_start (timeUnits MONTH) cnt min sow
  = MakeDate (MakeDay y (cnt * (m / cnt)) 1) 0.
Proof.
  unfold ticks_start. rewrite floor_clock, floor_day_first by auto.
  destruct (month_start_fields y m (MonthFromDay_bounds _)) as (Ey & Em & Ed & Et).
  change (floor_year (timeUnits MONTH)) with (fun (_ d : Z) => d). cbv beta.
  change (start_of_week (timeUnits MONTH) sow) with (fun d : Z => d). cbv beta.
  unfold floor_month. change (timeUnits MONTH <=? timeUnits MONTH) with true.
  change (timeUnits YEAR <=? timeUnits MONTH) with false. cbv iota.
  unfold setUTCMonth. by rewrite Ey, Em, Ed, Et.
Qed.

Lemma ticks_start_year :
  ticks_start (timeUnits YEAR) cnt min sow
  = MakeDate (MakeDay (y - Z.rem y cnt) 0 1) 0.
Proof.
  unfold ticks_start. rewrite floor_clock, floor_day_first by auto.
  destruct (month_start_fields y m (MonthFromDay_bounds _)) as (Ey & Em & Ed & Et).
  change (start_of_week (timeUnits YEAR) sow) with (fun d : Z => d). cbv beta.
  unfold floor_month. change (timeUnits MONTH <=? timeUnits YEAR) with true.
  change (timeUnits YEAR <=? timeUnits YEAR) with true. cbv iota.
  unfold setUTCMonth. rewrite Ey, Ed, Et.
  destruct (month_start_fields y 0 ltac:(lia)) as (Fy & Fm & Fd & Ft).
  unfold floor_year. change (timeUnits YEAR <=? timeUnits YEAR) with true. cbv iota zeta.
  unfold setUTCFullYear. by rewrite Fy, Fm, Fd, Ft.
Qed.
End start_forms.

Lemma rem_bounds y cnt : 0 <= y -> 0 < cnt -> 0 <= Z.rem y cnt <= y.
Proof.
  intros. rewrite Z.rem_mod_nonneg by lia.
  pose proof (Z.mod_pos_bound y cnt). pose proof (Z.mod_le y cnt). lia.
Qed.

(** The ticks of every unit but the week start at or before the minimum. *)
Theorem ticks_start_le u cnt min sow :
  u <> WEEK -> 0 < cnt -> 0 <= getUTCFullYear min ->
  ticks_start (timeUnits u) cnt min sow <= min.
Proof.
  intros Hu Hcnt Hy.
  assert (MakeDate (MakeDay (getUTCFullYear min) (getUTCMonth min) 1) 0 <= min) as Hfirst.
  { rewrite <-(MakeDate_Day min) at 3. rewrite <-(MakeDay_id (Day min)) at 1.
    fold (getUTCFullYear min) (getUTCMonth min). pose proof (DateFromDay_bounds (Day min)).
    rewrite (MakeDay_date _ _ (DateFromDay (Day min)) 1).
    pose proof (TimeWithinDay_bounds min). unfold MakeDate, msPerDay. lia. }
  pose proof (floor_steps_le (timeUnits u) cnt Hcnt min) as Hsteps.
  destruct u; [exact Hsteps..|done| |].
  - rewrite ticks_start_month. etrans; [|apply Hfirst]. rewrite !MonthStart_def.
    pose proof (floor_le cnt Hcnt (getUTCMonth min)).
    pose proof (MonthStart_le (12 * getUTCFullYear min + cnt * (getUTCMonth min / cnt))
                  (12 * getUTCFullYear min + getUTCMonth min)).
    unfold MakeDate, msPerDay. lia.
  - rewrite ticks_start_year. etrans; [|apply Hfirst]. rewrite !MonthStart_def.
    pose proof (rem_bounds _ cnt Hy Hcnt). pose proof (MonthFromDay_bounds (Day min)).
    fold (getUTCMonth min) in *.
    pose proof (MonthStart_le (12 * (getUTCFullYear min - Z.rem (getUTCFullYear min) cnt) + 0)
                  (12 * getUTCFullYear min + getUTCMonth min)).
    unfold MakeDate, msPerDay. lia.
Qed.

(** With the default start of the week, a Sunday minimum starts at the Monday
    that follows it. *)
Lemma ticks_start_week_sunday min :
  getUTCDay min = 0 -> min < ticks_start (timeUnits WEEK) 1 min None.
Proof.
  intros Hsun. unfold ticks_start. rewrite floor_clock by auto.
  change (floor_year (timeUnits WEEK)) with (fun _ d : Z => d).
  change (floor_month (timeUnits WEEK)) with (fun _ d : Z => d). cbv beta.
  unfold floor_day. change (timeUnits DAY <=? timeUnits WEEK) with true.
  change (timeUnits MONTH <=? timeUnits WEEK) with false. cbv iota.
  rewrite Z.div_1_r, Z.mul_1_l, setUTCDate_shift, Z.sub_diag, Z.mul_0_l, Z.add_0_r.
  unfold start_of_week. rewrite Z.eqb_refl, setUTCDate_shift.
  unfold getUTCDay in *. rewrite Day_MakeDate by (unfold_ms; lia). rewrite Hsun. cbn [default].
  pose proof (TimeWithinDay_bounds min). rewrite <-(MakeDate_Day min) at 1.
  unfold MakeDate, msPerDay in *. lia.
Qed.

(** *** The loop *)

(** The [i]-th tick. *)
Definition tick_at (u : unit_name) (cnt start i : Z) : Z :=
  match u with
  | YEAR => DateUTC (getUTCFullYear start + i * cnt) 0
  | MONTH => DateUTC (getUTCFullYear start) (getUTCMonth start + i * cnt)
  | _ => start + i * (timeUnits u * cnt)
  end.

Section loop.
Context (interval cnt y m max : Z) (f : Z -> Z).
Context (Hnext : forall i, 1 <= i -> next_time interval cnt y m i (f (i - 1)) = f i).
Context (Hmono : forall i, 0 <= i -> f i < f (i + 1)).

Lemma ticks_loop_spec fuel i positions ranks :
  1 <= i -> (Z.to_nat (max - f (i - 1)) <= fuel)%nat ->
  exists (n : nat) ranks',
    ticks_loop fuel interval cnt y m max i (f (i - 1)) positions ranks
      = Some ((positions ++ map (fun k => f (i - 1 + Z.of_nat k)) (seq 0 (S n)))%list, ranks') /\
    (forall k, (k < n)%nat -> f (i - 1 + Z.of_nat k) < max) /\
    max <= f (i - 1 + Z.of_nat n).
Proof.
  revert i positions ranks. induction fuel as [|fuel IH]; intros i ps ranks Hi Hfuel.
  - cbn [ticks_loop]. destruct (_ <? max) eqn:E; zbool; [lia|].
    exists 0%nat, ranks. cbn [seq map]. rewrite Z.add_0_r. split_and!; [done|lia|done].
  - cbn [ticks_loop]. destruct (_ <? max) eqn:E; zbool.
    + rewrite Hnext by done. pose proof (Hmono (i - 1) ltac:(lia)) as Hlt.
      replace (i - 1 + 1) with i in Hlt by lia.
      destruct (IH (i + 1) (ps ++ [f (i - 1)])%list
                   (if marks_day interval (f i) then (ranks ++ [f i])%list else ranks))
        as (n & ranks' & Heq & Hbelow & Habove); [lia| |].
      { replace (i + 1 - 1) with i by lia. lia. }
      replace (i + 1 - 1) with i in * by lia.
      exists (S n), ranks'. rewrite Heq. split_and!.
      * do 2 f_equal. rewrite <-app_assoc. f_equal. cbn [app].
        change (seq 0 (S (S n))) with (0%nat :: seq 1 (S n)). rewrite <-seq_shift.
        cbn [map]. f_equal; [f_equal; lia|].
        rewrite map_map. apply map_ext. intros. f_equal. lia.
      * intros [|k] Hk; [by rewrite Z.add_0_r|].
        replace (i - 1 + Z.of_nat (S k)) with (i + Z.of_nat k) by lia. apply Hbelow. lia.
      * replace (i - 1 + Z.of_nat (S n)) with (i + Z.of_nat n) by lia. done.
    + exists 0%nat, ranks. cbn [seq map]. rewrite Z.add_0_r. split_and!; [done|lia|done].
Qed.
End loop.

Lemma DateUTC_month y m :
  100 <= y -> DateUTC y m = MakeDate (MonthStart (12 * y + m)) 0.
Proof.
  intros. unfold DateUTC. rewrite (proj2 (Z.leb_gt y 99)) by lia.
  by rewrite andb_false_r, MonthStart_def.
Qed.

Section tick_at.
Context (u : unit_name) (cnt min : Z) (sow : option Z) (Hcnt : 0 < cnt).
Let start := ticks_start (timeUnits u) cnt min sow.
Context (Hyear : u = MONTH \/ u = YEAR -> 100 <= getUTCFullYear start).

Lemma timeUnits_pos : 0 < timeUnits u.
Proof. by destruct u. Qed.

Lemma tick_at_next i :
  1 <= i ->
  next_time (timeUnits u) cnt (getUTCFullYear start) (getUTCMonth start) i
    (tick_at u cnt start (i - 1)) = tick_at u cnt start i.
Proof. intros. unfold next_time, tick_at. destruct u; simpl; lia. Qed.

Lemma tick_at_mono i : 0 <= i -> tick_at u cnt start i < tick_at u cnt start (i + 1).
Proof.
  intros. pose proof timeUnits_pos. unfold tick_at.
  destruct u; try (simpl in *; lia).
  all: rewrite !DateUTC_month by (first [apply Hyear; by auto|pose proof (Hyear ltac:(auto)); lia]).
  all: apply MakeDate_lt; [|unfold msPerDay; lia..].
  - pose proof (MonthStart_lt (12 * getUTCFullYear start + (getUTCMonth start + i * cnt))
      (12 * getUTCFullYear start + (getUTCMonth start + (i + 1) * cnt))). lia.
  - pose proof (MonthStart_lt (12 * (getUTCFullYear start + i * cnt) + 0)
      (12 * (getUTCFullYear start + (i + 1) * cnt) + 0)). lia.
Qed.

Lemma tick_at_0 : tick_at u cnt start 0 = start.
Proof.
  unfold tick_at. destruct u eqn:Eu; rewrite ?Z.mul_0_l, ?Z.add_0_r; try done.
  all: rewrite DateUTC_month by (apply Hyear; by auto); subst start.
  - rewrite ticks_start_month.
    assert (0 <= cnt * (getUTCMonth min / cnt) <= 11).
    { pose proof (MonthFromDay_bounds (Day min)). fold (getUTCMonth min) in *.
      pose proof (floor_le cnt Hcnt (getUTCMonth min)).
      pose proof (Z.div_pos (getUTCMonth min) cnt). lia. }
    destruct (month_start_fields (getUTCFullYear min) (cnt * (getUTCMonth min / cnt)))
      as (-> & -> & _); [done|]. by rewrite MonthStart_def.
  - rewrite ticks_start_year.
    destruct (month_start_fields (getUTCFullYear min - Z.rem (getUTCFullYear min) cnt) 0)
      as (-> & _); [lia|]. by rewrite MonthStart_def.
Qed.

Lemma tick_at_lt i j : 0 <= i < j -> tick_at u cnt start i < tick_at u cnt start j.
Proof.
  intros [Hi Hij]. replace j with (i + 1 + (j - i - 1)) by lia.
  assert (0 <= j - i - 1) as Hk by lia. revert Hk. generalize (j - i - 1).
  apply natlike_ind; [rewrite Z.add_0_r; by apply tick_at_mono|].
  intros k Hk IH. pose proof (tick_at_mono (i + 1 + k) ltac:(lia)).
  replace (i + 1 + Z.succ k) with (i + 1 + k + 1) by lia. lia.
Qed.
End tick_at.

Lemma StronglySorted_map_seq (f : nat -> Z) n :
  (forall i j, (i < j)%nat -> f i < f j) -> StronglySorted Z.lt (map f (seq 0 n)).
Proof.
  intros Hf. generalize 0%nat. induction n as [|n IH]; intros k; cbn [seq map]; constructor; [done|].
  apply Forall_forall. intros x Hx. apply list_elem_of_fmap in Hx as (j & -> & Hj).
  apply elem_of_seq in Hj. apply Hf. lia.
Qed.

(** The ticks of a unit, given fuel enough. *)
Lemma getTimeTicks_ticks u cnt min max sow fuel :
  let start := ticks_start (timeUnits u) cnt min sow in
  0 < cnt ->
  (u = MONTH \/ u = YEAR -> 100 <= getUTCFullYear start) ->
  (Z.to_nat (max - start) <= fuel)%nat ->
  exists n ts,
    getTimeTicks fuel (timeUnits u) cnt min max sow = Some ts /\
    tickPositions ts = map (fun k => tick_at u cnt start (Z.of_nat k)) (seq 0 (S n)) /\
    tick_at u cnt start 0 = start /\
    StronglySorted Z.lt (tickPositions ts) /\
    (forall k, (k < n)%nat -> tick_at u cnt start (Z.of_nat k) < max) /\
    max <= tick_at u cnt start (Z.of_nat n).
Proof.
  intros start Hcnt Hyear Hfuel.
  pose proof (tick_at_0 u cnt min sow Hcnt Hyear) as H0. fold start in H0.
  destruct (ticks_loop_spec (timeUnits u) cnt (getUTCFullYear start) (getUTCMonth start) max
              (tick_at u cnt start) (tick_at_next u cnt min sow Hyear)
              (tick_at_mono u cnt min sow Hcnt Hyear) fuel 1 [] [])
    as (n & ranks & Heq & Hbelow & Habove); [lia|by rewrite Z.sub_diag, H0|].
  rewrite Z.sub_diag, H0 in Heq. unfold getTimeTicks. fold start. rewrite Heq.
  exists n. eexists. split; [done|]. cbn [tickPositions app].
  split_and!; [done|done| |exact Hbelow|exact Habove].
  apply (StronglySorted_map_seq (fun k => tick_at u cnt start (Z.of_nat k))).
  intros. apply (tick_at_lt u cnt min sow Hcnt Hyear). lia.
Qed.

(** C5: given as much fuel as there are milliseconds to cover, [getTimeTicks]
    returns, and its positions are the ticks [tick_at 0], [tick_at 1], ... of the
    unit: strictly increasing, from the start, all below the maximum but the
    last, which is not. *)
Theorem getTimeTicks_covers u cnt min max sow fuel :
  let start := ticks_start (timeUnits u) cnt min sow in
  0 < cnt ->
  (u = MONTH \/ u = YEAR -> 100 <= getUTCFullYear start) ->
  (Z.to_nat (max - start) <= fuel)%nat ->
  exists n ts,
    getTimeTicks fuel (timeUnits u) cnt min max sow = Some ts /\
    tickPositions ts = map (fun k => tick_at u cnt start (Z.of_nat k)) (seq 0 (S n)) /\
    tick_at u cnt start 0 = start /\
    StronglySorted Z.lt (tickPositions ts) /\
    (forall k, (k < n)%nat -> tick_at u cnt start (Z.of_nat k) < max) /\
    max <= tick_at u cnt start (Z.of_nat n).
Proof. apply getTimeTicks_ticks. Qed.

(** ** Intervals *)

Lemma pick_multiple_in normalized interval ms :
  ms <> [] -> pick_multiple normalized interval ms ∈ ms.
Proof.
  revert interval. induction ms as [|m ms IH]; intros interval Hne; [done|]. cbn [pick_multiple].
  destruct (_ <= _)%num; [left|]. destruct ms as [|m' ms]; [cbn; left|]. right. by apply IH.
Qed.

(** The multiple chosen is the first whose midpoint with the next one is not
    below the normalized interval. *)
Definition midpoint (m : num) (rest : list num) : num :=
  ((m + match rest with m' :: _ => if num_truthy m' then m' else m | [] => m end) / 2%float)%num.

Lemma pick_multiple_cons normalized interval m rest :
  pick_multiple normalized interval (m :: rest)
  = if (normalized <= midpoint m rest)%num then m else pick_multiple normalized m rest.
Proof. done. Qed.

Lemma pick_multiple_spec normalized interval m ms :
  exists before c after,
    m :: ms = (before ++ c :: after)%list /\
    pick_multiple normalized interval (m :: ms) = c /\
    ((normalized <= midpoint c after)%num = true \/ after = []) /\
    (forall b1 b b2, before = (b1 ++ b :: b2)%list ->
       (normalized <= midpoint b (b2 ++ c :: after)%list)%num = false).
Proof.
  revert m interval. induction ms as [|m' ms IH]; intros m i; rewrite pick_multiple_cons.
  - exists [], m, []. split_and!; [done| |by right|by intros [|??] ?? [=]].
    by destruct (_ <= _)%num.
  - destruct (normalized <= midpoint m (m' :: ms))%num eqn:E.
    + exists [], m, (m' :: ms). split_and!; [done|done|by left|by intros [|??] ?? [=]].
    + destruct (IH m' m) as (before & c & after & Heq & Hres & Hhit & Hbefore).
      exists (m :: before), c, after. rewrite Heq in *. split_and!; [done|exact Hres|done|].
      intros [|b0 b1] b b2 Hb; simplify_eq/=; [done|]. by eapply Hbefore.
Qed.

(** For any list of multiples, [normalizeTickInterval] returns the magnitude
    times one of them, all the earlier ones being too small; it returns the last
    only when the others are too small. *)
Theorem normalizeTickInterval_spec interval m ms magnitude allow :
  let normalized := (interval / magnitude)%num in
  exists before c after,
    m :: ms = (before ++ c :: after)%list /\
    normalizeTickInterval interval (Some (m :: ms)) (Some magnitude) allow = (c * magnitude)%num /\
    ((normalized <= midpoint c after)%num = true \/ after = []) /\
    (forall b1 b b2, before = (b1 ++ b :: b2)%list ->
       (normalized <= midpoint b (b2 ++ c :: after)%list)%num = false).
Proof.
  intros normalized.
  destruct (pick_multiple_spec normalized interval m ms)
    as (before & c & after & Heq & Hres & Hrest).
  exists before, c, after. split; [done|]. split; [|done].
  unfold normalizeTickInterval. cbn [default]. by rewrite <-Hres.
Qed.

Definition positive_count (x : num) : bool :=
  match num_to_Z x with Some c => (1 <=? c) && (c <=? 500) | None => false end.

Lemma positive_count_spec x :
  positive_count x = true -> exists c, num_to_Z x = Some c /\ 1 <= c <= 500.
Proof.
  unfold positive_count. destruct (num_to_Z x) as [c|]; [|done]. intros. exists c. zbool. auto.
Qed.

(** With magnitude 1 the multiple itself is returned. *)
Lemma normalizeTickInterval_unit x ms :
  ms <> [] -> Forall (fun m => (m * 1%float)%num = m) ms ->
  normalizeTickInterval x (Some ms) None None ∈ ms.
Proof.
  intros Hne Hall. unfold normalizeTickInterval. cbn [default].
  rewrite Forall_forall in Hall. rewrite Hall; by apply pick_multiple_in.
Qed.

Lemma normalizeTickInterval_count x ms :
  ms <> [] -> forallb (fun m => positive_count (m * 1%float)%num) ms = true ->
  positive_count (normalizeTickInterval x (Some ms) None None) = true.
Proof.
  intros Hne Hall. unfold normalizeTickInterval. cbn [default].
  eapply (proj1 (forallb_forall _ _)) in Hall; [exact Hall|].
  apply list_elem_of_In. by apply pick_multiple_in.
Qed.

(** For every tick interval, even [NaN], the default units give a unit of the
    table with its range, and a count that is a whole number from 1 to 500; years
    in steps of five or more years take it from the decimal multiples. *)
Theorem normalizeTimeTickInterval_count x :
  exists ti, normalizeTimeTickInterval x None = Ok ti /\
    unitRange ti = timeUnits (unitName ti) /\
    if decide (unitName ti = YEAR) then
      if (x < 5%float * num_of_Z (timeUnits YEAR))%num then
        count ti ∈ [1; 2; 5]%float
      else count ti ∈ default_multiples
    else exists c, num_to_Z (count ti) = Some c /\ 1 <= c <= 500.
Proof.
  unfold normalizeTimeTickInterval. cbn [default].
  unfold default_units. cbn [pick_unit].
  repeat match goal with
  | |- context [if (x <= ?b)%num then _ else _] => destruct (x <= b)%num
  end.
  1-7: (eexists; split; [reflexivity|]; split; [reflexivity|]; cbn [count unitName];
    rewrite decide_False by done; apply positive_count_spec, normalizeTickInterval_count;
    [discriminate|vm_compute; reflexivity]).
  eexists; split; [reflexivity|]; split; [reflexivity|]. cbn [count unitName].
  rewrite decide_True by done. change (timeUnits YEAR =? timeUnits YEAR) with true.
  cbn [andb]. destruct (x < _)%num.
  - apply normalizeTickInterval_unit; [done|]. repeat constructor.
  - apply (normalizeTickInterval_unit _ default_multiples); [done|]. repeat constructor.
Qed.

(** ** The default date format *)

Definition pad2 (x : Z) : string := if x <? 10 then "0" ++ show_Z x else show_Z x.

Lemma pad_two_digits x : 0 <= x < 100 -> pad x None = Ok (pad2 x).
Proof.
  intros Hx.
  assert (forallb (fun n => match pad (Z.of_nat n) None with
                            | Ok s => String.eqb s (pad2 (Z.of_nat n)) | Throw _ => false end)
            (seq 0 100) = true) as Htable by (vm_compute; reflexivity).
  eapply forallb_forall with (x := Z.to_nat x) in Htable; [|apply in_seq; lia].
  cbv beta in Htable. rewrite Z2Nat.id in Htable by lia.
  destruct (pad x None); [|done]. by apply String.eqb_eq in Htable as ->.
Qed.

Lemma pad_millis t : exists s, pad (Z.rem t 1000) (Some 3) = Ok s.
Proof.
  assert (forallb (fun n => match pad (Z.of_nat n - 999) (Some 3) with Ok _ => true | _ => false end)
            (seq 0 1999) = true) as Htable by (vm_compute; reflexivity).
  pose proof (Z.rem_bound_abs t 1000 ltac:(lia)).
  eapply forallb_forall with (x := Z.to_nat (Z.rem t 1000 + 999)) in Htable;
    [|apply in_seq; lia].
  cbv beta in Htable. rewrite Z2Nat.id in Htable by lia.
  replace (Z.rem t 1000 + 999 - 999) with (Z.rem t 1000) in Htable by lia.
  destruct (pad (Z.rem t 1000) (Some 3)) as [s|]; [by exists s|done].
Qed.

Lemma show_Z_plain z : lacks "$" (show_Z z) = true /\ lacks "%" (show_Z z) = true.
Proof.
  split; apply lacks_show_Z; try done; intros d Hd;
    (assert (d = 0 \/ d = 1 \/ d = 2 \/ d = 3 \/ d = 4 \/ d = 5 \/ d = 6 \/ d = 7 \/ d = 8 \/ d = 9)%N
      as [->|[->|[->|[->|[->|[->|[->|[->|[->| ->]]]]]]]]] by lia; done).
Qed.

Lemma pad2_plain z : lacks "$" (pad2 z) = true /\ lacks "%" (pad2 z) = true.
Proof. unfold pad2. destruct (z <? 10); [|apply show_Z_plain]. by rewrite !lacks_app; apply show_Z_plain. Qed.

Lemma mentions_subst c c' repl ps :
  mentions c (subst_first c' repl ps) = true -> mentions c ps = true.
Proof.
  unfold mentions. induction ps as [|[s|c''] ps IH]; [done|exact IH|]. cbn [subst_first].
  destruct (Ascii.eqb c' c''); cbn [existsb]; rewrite ?orb_true_iff; naive_solver.
Qed.

Lemma wf_subst c repl ps :
  forallb wf_piece ps = true -> (mentions c ps = true -> lacks "%" repl = true) ->
  forallb wf_piece (subst_first c repl ps) = true.
Proof.
  unfold mentions.
  induction ps as [|[s|c'] ps IH]; [done|..]; cbn [subst_first forallb existsb];
    rewrite ?andb_true_iff; intros [Hp Hwf] Hrepl.
  - split; [done|]. by apply IH.
  - destruct (Ascii.eqb c c') eqn:E; cbn [forallb].
    + cbn [wf_piece]. rewrite Hrepl; [done|]. first [done|by rewrite E].
    + rewrite Hp. apply IH; [done|]. intros Hm. apply Hrepl. by rewrite Hm, orb_true_r.
Qed.

Lemma fold_replacements rs ps :
  forallb wf_piece ps = true ->
  Forall (fun kr => mentions kr.1 ps = true -> lacks "$" kr.2 = true /\ lacks "%" kr.2 = true) rs ->
  fold_left apply_replacement rs (render ps)
  = render (fold_left (fun ps kr => subst_first kr.1 kr.2 ps) rs ps).
Proof.
  revert ps. induction rs as [|[c r] rs IH]; intros ps Hwf Hall; [done|].
  apply Forall_cons in Hall as [Hr Hall]. cbn [fold_left]. unfold apply_replacement at 2.
  cbn [fst snd] in *. rewrite js_replace_pieces by naive_solver. apply IH.
  - apply wf_subst; naive_solver.
  - eapply Forall_impl; [exact Hall|]. intros kr H Hm. by apply H, (mentions_subst _ c r).
Qed.

Definition default_format_pieces : list piece :=
  [Dir "Y"; Lit "-"; Dir "m"; Lit "-"; Dir "d"; Lit " ";
   Dir "H"; Lit ":"; Dir "M"; Lit ":"; Dir "S"]%char%string.

(** Whatever the names of the language, the default format of a timestamp
    is its date and time in ISO order, two digits for all but the year. *)
Theorem dateFormat_default lang t :
  (7 <= length (weekdays lang))%nat ->
  dateFormat lang None (Some t) false
  = Ok (show_Z (getUTCFullYear t) ++ "-" ++ pad2 (getUTCMonth t + 1) ++ "-" ++ pad2 (getUTCDate t)
        ++ " " ++ pad2 (getUTCHours t) ++ ":" ++ pad2 (getUTCMinutes t) ++ ":"
        ++ pad2 (getUTCSeconds t)).
Proof.
  intros Hlen. unfold dateFormat, replacements. cbn [default].
  pose proof (clock_bounds t) as (Hh & Hmi & Hs & _).
  pose proof (MonthFromDay_bounds (Day t)) as Hmo. fold (getUTCMonth t) in Hmo.
  pose proof (DateFromDay_bounds (Day t)) as Hd. fold (getUTCDate t) in Hd.
  destruct (lookup_lt_is_Some_2 (weekdays lang) (Z.to_nat (getUTCDay t))) as [wd Hwd].
  { unfold getUTCDay. pose proof (Z.mod_pos_bound (Day t + 4) 7). lia. }
  destruct (pad_millis t) as [ms Hms]. rewrite Hwd, Hms.
  assert (0 <= (if getUTCHours t mod 12 =? 0 then 12 else getUTCHours t mod 12) < 100).
  { pose proof (Z.mod_pos_bound (getUTCHours t) 12). destruct (_ =? _); lia. }
  rewrite !pad_two_digits by lia. cbn [mbind res_bind of_option].
  change "%Y-%m-%d %H:%M:%S" with (render default_format_pieces).
  rewrite fold_replacements; [|done|].
  - cbn. by rewrite !str_app_nil_r.
  - repeat (apply Forall_cons; split; [cbn [fst snd]; intros; try discriminate;
      first [apply show_Z_plain|apply pad2_plain]|]). apply Forall_nil; done.
Qed.

Lemma dateFormat_default_witness :
  dateFormat default_lang None (Some 0) false
  = Ok (show_Z (getUTCFullYear 0) ++ "-" ++ pad2 (getUTCMonth 0 + 1) ++ "-" ++ pad2 (getUTCDate 0)
        ++ " " ++ pad2 (getUTCHours 0) ++ ":" ++ pad2 (getUTCMinutes 0) ++ ":"
        ++ pad2 (getUTCSeconds 0)).
Proof. apply (dateFormat_default default_lang 0). cbn. lia. Defined.

Lemma ticks_start_le_witness : ticks_start (timeUnits DAY) 2 1388534400000 (Some 1) <= 1388534400000.
Proof. apply ticks_start_le; [done|lia|vm_compute; discriminate]. Defined.

(** Twenty milliseconds, in steps of five. *)
Lemma getTimeTicks_covers_witness :
  exists n ts,
    getTimeTicks 20 (timeUnits MILLISECOND) 5 1388534400000 1388534400020 (Some 1) = Some ts /\
    length (tickPositions ts) = S n.
Proof.
  destruct (getTimeTicks_covers MILLISECOND 5 1388534400000 1388534400020 (Some 1) 20)
    as (n & ts & H & Hp & _).
  - lia.
  - intros [?|?]; discriminate.
  - apply (bool_decide_unpack _). vm_compute. exact I.
  - exists n, ts. split; [exact H|]. by rewrite Hp, length_map, length_seq.
Defined.
