(* ===== verification/HsData.v ===== *)
(** * Charts: the data of a series

    [highstock.src.js]: what is cut from the x and y values of a series
    ([processData]), how its points are split into segments ([getSegments]), and
    how they are grouped ([groupData] with the [approximations]).

    X values are whole numbers (times in milliseconds), exact in a JavaScript
    number below 2^53; y values are JavaScript numbers. *)

From S2P Require Import Prelude JsString JsNum.
Local Open Scope Z_scope.

(** ** Values *)

(** A y value: a number, [null], or anything else, which the code passes over. *)
Inductive yval := YNum (y : num) | YNull | YUndef.

(** An x value that is missing ([undefined]) is neither below nor above any. *)
Definition x_ge (x : option Z) (m : Z) : bool := match x with Some x => m <=? x | None => false end.
Definition x_gt (x : option Z) (m : Z) : bool := match x with Some x => m <? x | None => false end.
Definition x_lt (x : option Z) (m : Z) : bool := match x with Some x => x <? m | None => false end.

(** [arrayMin], [arrayMax]: from the last element to the first. *)
Definition arrayMin (l : list num) : option num :=
  match l with
  | [] => None
  | x :: _ => Some (foldr (fun y m => if (y < m)%num then y else m) x l)
  end.
Definition arrayMax (l : list num) : option num :=
  match l with
  | [] => None
  | x :: _ => Some (foldr (fun y m => if (m < y)%num then y else m) x l)
  end.

(** ** Approximations *)

(** The values of a group, and whether there were nulls among them. *)
Record values := Values { v_nums : list num; v_hasNulls : bool }.
Definition no_values : values := Values [] false.
Definition push_value (v : yval) (vs : values) : values :=
  match v with
  | YNum y => Values (v_nums vs ++ [y]) (v_hasNulls vs)
  | YNull => Values (v_nums vs) true
  | YUndef => vs
  end.

(** What an approximation returns; [undefined] is [None] below. *)
Inductive gval := GNum (y : num) | GNull | GBar (o h l c : yval).

(** [arr.hasNulls ? null : UNDEFINED] *)
Definition hollow (vs : values) : option gval := if v_hasNulls vs then Some GNull else None.

Definition approx_sum (vs : values) : option gval :=
  match v_nums vs with
  | [] => hollow vs
  | l => Some (GNum (foldr (fun y r => (r + y)%num) 0%float l))
  end.
Definition approx_average (vs : values) : option gval :=
  match approx_sum vs with
  | Some (GNum r) => Some (GNum (r / num_of_Z (Z.of_nat (length (v_nums vs))))%num)
  | o => o
  end.
Definition or_hollow (o : option num) (vs : values) : option gval :=
  match o with Some y => Some (GNum y) | None => hollow vs end.
Definition approx_open (vs : values) : option gval := or_hollow (head (v_nums vs)) vs.
Definition approx_high (vs : values) : option gval := or_hollow (arrayMax (v_nums vs)) vs.
Definition approx_low (vs : values) : option gval := or_hollow (arrayMin (v_nums vs)) vs.
Definition approx_close (vs : values) : option gval := or_hollow (last (v_nums vs)) vs.

Definition gval_y (o : option gval) : yval :=
  match o with Some (GNum y) => YNum y | Some GNull => YNull | _ => YUndef end.
Definition is_number (v : yval) : bool := match v with YNum _ => true | _ => false end.

Definition approx_ohlc (o h l c : values) : option gval :=
  let o := gval_y (approx_open o) in
  let h := gval_y (approx_high h) in
  let l := gval_y (approx_low l) in
  let c := gval_y (approx_close c) in
  if is_number o || is_number h || is_number l || is_number c then Some (GBar o h l c) else None.

(** The approximations by name, and a function of the user's. *)
Inductive approximation :=
| ApSum | ApAverage | ApOpen | ApHigh | ApLow | ApClose | ApOhlc
| ApFn (f : values -> values -> values -> values -> option gval).

(** The aggregate arrays [values1] to [values4]. *)
Record quad := Quad { q1 : values; q2 : values; q3 : values; q4 : values }.
Definition no_quad : quad := Quad no_values no_values no_values no_values.

Definition approximationFn (a : approximation) (v : quad) : option gval :=
  match a with
  | ApSum => approx_sum (q1 v)
  | ApAverage => approx_average (q1 v)
  | ApOpen => approx_open (q1 v)
  | ApHigh => approx_high (q1 v)
  | ApLow => approx_low (q1 v)
  | ApClose => approx_close (q1 v)
  | ApOhlc => approx_ohlc (q1 v) (q2 v) (q3 v) (q4 v)
  | ApFn f => f (q1 v) (q2 v) (q3 v) (q4 v)
  end.

(** ** Grouping *)

(** The four values of the point behind an index, for [ohlc]. *)
Record bar := Bar { b_open : yval; b_high : yval; b_low : yval; b_close : yval }.

Section group.
Context (a : approximation).

(** The series' y values, if they matter, and its points. *)
Context (yData : option (list yval)) (bars : nat -> bar).

Definition pointY (i : nat) : yval :=
  match yData with Some ys => default YUndef (ys !! i) | None => YNull end.

(** One raw point goes into the aggregate arrays. *)
Definition push_point (i : nat) (v : quad) : quad :=
  match a with
  | ApOhlc => let b := bars i in
      Quad (push_value (b_open b) (q1 v)) (push_value (b_high b) (q2 v))
           (push_value (b_low b) (q3 v)) (push_value (b_close b) (q4 v))
  | _ => Quad (push_value (pointY i) (q1 v)) (q2 v) (q3 v) (q4 v)
  end.

(** The group positions left, the aggregate arrays, the points grouped so far. *)
Record groups := Groups {
  gr_positions : list Z; gr_values : quad; gr_out : list (option Z * gval) }.

(** The end of a group: its position, and its value unless it is [undefined]. *)
Definition push_group (pointX : option Z) (v : quad) (out : list (option Z * gval))
    : list (option Z * gval) :=
  match approximationFn a v with Some g => out ++ [(pointX, g)] | None => out end.

(** [while (groupPositions[1] !== UNDEFINED && xData[i] >= groupPositions[1])] *)
Fixpoint enter_groups (x : option Z) (ps : list Z) (v : quad) (out : list (option Z * gval))
    : groups :=
  match ps with
  | p :: ((p' :: _) as ps') =>
      if x_ge x p' then enter_groups x ps' no_quad (push_group (Some p) v out)
      else Groups ps v out
  | _ => Groups ps v out
  end.

Fixpoint group_loop (xs : list (option Z)) (i : nat) (s : groups) : groups :=
  match xs with
  | [] => s
  | x :: xs' =>
      let s := enter_groups x (gr_positions s) (gr_values s) (gr_out s) in
      group_loop xs' (S i)
        (Groups (gr_positions s) (push_point i (gr_values s)) (gr_out s))
  end.

(** The last group, at [i === dataLength]. *)
Definition last_group (s : groups) : list (option Z * gval) :=
  push_group (head (gr_positions s)) (gr_values s) (gr_out s).

Definition groupData (xData : list (option Z)) (groupPositions : list Z)
    : list (option Z) * list gval :=
  let out := last_group (group_loop xData 0 (Groups groupPositions no_quad [])) in
  (map fst out, map snd out).

End group.

Example groupData_ex :
  groupData ApSum (Some [YNum 1%float; YNum 2%float; YNull; YNum 4%float]) (fun _ => Bar YNull YNull YNull YNull)
    [Some 5; Some 12; Some 30; Some 31] [0; 10; 20; 30; 40]
  = ([Some 0; Some 10; Some 30], [GNum 1%float; GNum 2%float; GNum 4%float]).
Proof. vm_compute. reflexivity. Qed.

(** ** Every point in its group *)

Section grouped.
Context (a : approximation) (yData : option (list yval)) (bars : nat -> bar).

(** The aggregate arrays of the points with these indices. *)
Definition collect (g : list nat) : quad :=
  fold_left (fun v i => push_point a yData bars i v) g no_quad.

(** The values of groups of indices, at their positions. *)
Definition group_values (ps : list Z) (gs : list (list nat)) : list (option Z * gval) :=
  omap (fun q => (fun y => (Some q.1, y)) <$> approximationFn a (collect q.2)) (zip ps gs).

(** The points from index [i] on lie in their groups' intervals. *)
Definition in_groups (ps : list Z) (gs : list (list nat)) (i : nat) (zs : list Z) : Prop :=
  forall k g j z, gs !! k = Some g -> j ∈ g -> (i <= j)%nat -> zs !! (j - i)%nat = Some z ->
    (forall p, (0 < k)%nat -> ps !! k = Some p -> p <= z) /\
    (forall q, ps !! S k = Some q -> z < q).

Lemma collect_snoc g i : collect (g ++ [i]) = push_point a yData bars i (collect g).
Proof. unfold collect. by rewrite fold_left_app. Qed.

Lemma push_group_values p g out :
  push_group a (Some p) (collect g) out = out ++ group_values [p] [g].
Proof. unfold push_group, group_values. cbn. destruct (approximationFn _ _); cbn; [done|by rewrite app_nil_r]. Qed.

Lemma group_values_cons p g ps gs :
  group_values (p :: ps) (g :: gs) = group_values [p] [g] ++ group_values ps gs.
Proof. unfold group_values. cbn. by destruct (approximationFn _ _). Qed.

Lemma group_loop_groups zs i ps cur out :
  StronglySorted Z.le zs -> ps <> [] -> Forall (fun j => (j < i)%nat) cur ->
  exists g gs, concat (g :: gs) = seq i (length zs) /\ (length (g :: gs) <= length ps)%nat /\
    in_groups ps ((cur ++ g) :: gs) i zs /\
    last_group a (group_loop a yData bars (map Some zs) i (Groups ps (collect cur) out))
    = out ++ group_values ps ((cur ++ g) :: gs).
Proof.
  revert i ps cur out. induction zs as [|z zs IHz]; intros i ps cur out Hs Hps Hcur.
  { destruct ps as [|p ps]; [done|]. exists [], []. cbn [concat app length seq].
    rewrite !app_nil_r. split_and!; [done|cbn; lia| |].
    - intros k g j z _ _ _ Hz. by rewrite lookup_nil in Hz.
    - unfold last_group. cbn. rewrite push_group_values. by destruct ps. }
  apply StronglySorted_inv in Hs as [Hs Hz]. rewrite List.Forall_forall in Hz.
  rewrite List.Forall_forall in Hcur.
  revert cur out Hcur. induction ps as [|p ps IHp]; intros cur out Hcur; [done|].
  cbn [map group_loop gr_positions gr_values gr_out].
  destruct (match ps with p' :: _ => x_ge (Some z) p' | [] => false end) eqn:E.
  - (* a group ends *)
    destruct ps as [|p' ps]; [done|]. cbn [enter_groups]. rewrite E.
    destruct (IHp ltac:(done) [] (push_group a (Some p) (collect cur) out) ltac:(done))
      as (g & gs & Hc & Hl & Hin & Heq).
    rewrite app_nil_l in Hin, Heq. exists [], (g :: gs). rewrite app_nil_r.
    split_and!; [exact Hc|cbn in *; lia| |].
    + intros [|k] g' j z' Hg Hj Hij Hz'.
      * cbn in Hg. simplify_eq. apply list_elem_of_In, Hcur in Hj. lia.
      * cbn in Hg. destruct (Hin k g' j z' Hg Hj Hij Hz') as [H1 H2]. split; [|exact H2].
        intros q _ Hq. cbn in Hq. destruct k as [|k]; [|apply H1; [lia|exact Hq]].
        cbn in Hq. simplify_eq. cbn in E. apply Z.leb_le in E.
        destruct (j - i)%nat as [|n]; cbn in Hz'; [by simplify_eq|].
        apply list_elem_of_lookup_2, list_elem_of_In, Hz in Hz'. lia.
    + rewrite group_values_cons, (app_assoc out), <-push_group_values, <-Heq. done.
  - (* the point goes into the present group *)
    assert (enter_groups a (Some z) (p :: ps) (collect cur) out = Groups (p :: ps) (collect cur) out)
      as ->. { cbn [enter_groups]. destruct ps as [|p' ps]; [done|]. by rewrite E. }
    cbn [gr_positions gr_values gr_out]. rewrite <-collect_snoc.
    destruct (IHz (S i) (p :: ps) (cur ++ [i]) out Hs ltac:(done)) as (g & gs & Hc & Hl & Hin & Heq).
    { apply List.Forall_forall. intros j Hj. apply List.in_app_iff in Hj as [Hj|[<-|[]]]; [|lia].
      apply Hcur in Hj. lia. }
    rewrite <-app_assoc in Hin, Heq. exists (i :: g), gs.
    split_and!; [cbn in *; by rewrite Hc|exact Hl| |exact Heq].
    intros k g' j z' Hg Hj Hij Hz'. destruct (decide (j = i)) as [->|Hne].
    2: { apply (Hin k g' j z' Hg Hj); [lia|].
         replace (j - i)%nat with (S (j - S i)) in Hz' by lia. exact Hz'. }
    rewrite Nat.sub_diag in Hz'. cbn in Hz'. simplify_eq. destruct k as [|k].
    + split; [lia|]. intros q Hq. cbn in Hq. destruct ps as [|p' ps]; [done|]. cbn in Hq.
      simplify_eq. cbn in E. by apply Z.leb_gt in E.
    + cbn in Hg. exfalso. assert (i ∈ concat (g :: gs)) as H.
      { apply list_elem_of_In, in_concat. exists g'. split; [right|]; apply list_elem_of_In; [|done].
        by apply list_elem_of_lookup_2 in Hg. }
      rewrite Hc in H. apply list_elem_of_In, in_seq in H. lia.
Qed.

(** C7: For points in order, grouping puts every point into exactly one group: the
    groups are consecutive runs of points, every point but those of the first
    group is at or after its group's position, and every point is before the next
    position; the grouped data are the approximations of the groups, those that
    are [undefined] left out. *)
Theorem groupData_groups zs ps :
  StronglySorted Z.le zs -> ps <> [] ->
  exists gs, concat gs = seq 0 (length zs) /\ (length gs <= length ps)%nat /\
    (forall k g i z, gs !! k = Some g -> i ∈ g -> zs !! i = Some z ->
       (forall p, (0 < k)%nat -> ps !! k = Some p -> p <= z) /\
       (forall q, ps !! S k = Some q -> z < q)) /\
    groupData a yData bars (map Some zs) ps
    = (map fst (group_values ps gs), map snd (group_values ps gs)).
Proof.
  intros Hs Hps. destruct (group_loop_groups zs 0 ps [] [] Hs Hps ltac:(done))
    as (g & gs & Hc & Hl & Hin & Heq).
  exists (g :: gs). split_and!; [exact Hc|exact Hl| |].
  - intros k g' i z Hg Hi Hz. apply (Hin k g' i z Hg Hi); [lia|]. by rewrite Nat.sub_0_r.
  - unfold groupData. change no_quad with (collect []). by rewrite Heq.
Qed.

End grouped.

Lemma groupData_groups_witness :
  exists gs, concat gs = [0; 1; 2]%nat /\
    groupData ApClose (Some [YNum 1%float; YNum 2%float; YNull]) (fun _ => Bar YNull YNull YNull YNull)
      [Some 5; Some 12; Some 30] [0; 10; 20]
    = (map fst (group_values ApClose (Some [YNum 1%float; YNum 2%float; YNull])
                  (fun _ => Bar YNull YNull YNull YNull) [0; 10; 20] gs),
       map snd (group_values ApClose (Some [YNum 1%float; YNum 2%float; YNull])
                  (fun _ => Bar YNull YNull YNull YNull) [0; 10; 20] gs)).
Proof.
  destruct (groupData_groups ApClose (Some [YNum 1%float; YNum 2%float; YNull])
              (fun _ => Bar YNull YNull YNull YNull) [5; 12; 30] [0; 10; 20])
    as (gs & H & _ & _ & Heq).
  - repeat constructor; lia.
  - discriminate.
  - exists gs. split; [exact H|exact Heq].
Defined.

(** ** Cropping *)

(** What [processData] decides: nothing is in sight, nothing spills out, or a
    slice is taken. *)
Inductive crop := CropAll | CropNone | CropTo (cropStart cropEnd : nat).

(** The index a search loop stops at: the length when nothing is found. *)
Fixpoint first_index (P : option Z -> bool) (xs : list (option Z)) : nat :=
  match xs with
  | [] => O
  | x :: xs' => if P x then O else S (first_index P xs')
  end.

Definition crop_range (min max : Z) (xs : list (option Z)) : crop :=
  let x0 := mjoin (head xs) in
  let xn := mjoin (last xs) in
  if x_lt xn min || x_gt x0 max then CropAll
  else if x_lt x0 min || x_gt xn max then
    let i := first_index (fun x => x_ge x min) xs in
    let j := (i + first_index (fun x => x_gt x max) (drop i xs))%nat in
    CropTo (if decide (i < length xs)%nat then i - 1 else O)%nat
           (if decide (j < length xs)%nat then j + 1 else length xs)%nat
  else CropNone.

(** The closest distance between neighbours, from the last pair to the first. *)
Fixpoint closestPointRange (xs : list (option Z)) : option Z :=
  match xs with
  | x :: ((y :: _) as xs') =>
      let c := closestPointRange xs' in
      match x, y with
      | Some x, Some y =>
          if (0 <? y - x) && match c with None => true | Some c => y - x <? c end
          then Some (y - x) else c
      | _, _ => c
      end
  | _ => None
  end.

Record process_options := ProcessOptions {
  po_isCartesian : bool;
  po_sorted : bool;
  po_forceCrop : bool;
  po_autoRange : bool;           (* options.pointRange === null *)
  po_cropThreshold : Z           (* 0 when there is none *)
}.

Record processed := Processed {
  pr_cropped : bool;
  pr_cropStart : nat;
  pr_x : list (option Z);
  pr_y : list yval;
  pr_closest : option Z;
  pr_pointRange : option Z
}.

(** Whether points out of sight are cut. *)
Definition cropping (o : process_options) (n : nat) : bool :=
  po_isCartesian o && po_sorted o &&
  ((po_cropThreshold o =? 0) || (po_cropThreshold o <? Z.of_nat n) || po_forceCrop o).

(** [processData]: [dirty] is whether the series or one of its axes has changed,
    [min] and [max] are the axis' extremes.  [None] is the [false] it returns. *)
Definition processData (o : process_options) (dirty force : bool) (min max : Z)
    (xs : list (option Z)) (ys : list yval) (pointRange : option Z) : option processed :=
  if po_isCartesian o && negb dirty && negb force then None
  else
    let c := if cropping o (length xs) then crop_range min max xs else CropNone in
    let '(cropped, start, xs', ys') :=
      match c with
      | CropAll => (false, O, [], [])
      | CropNone => (false, O, xs, ys)
      | CropTo s e => (true, s, take (e - s) (drop s xs), take (e - s) (drop s ys))
      end in
    let closest := closestPointRange xs' in
    Some (Processed cropped start xs' ys' closest
            (if po_autoRange o then
               Some match closest with Some c => if c =? 0 then 1 else c | None => 1 end
             else pointRange)).

Example processData_ex :
  pr_x <$> processData (ProcessOptions true true false false 0) true false 10 20
    (map Some [1; 5; 8; 12; 19; 22; 40]) (replicate 7 YNull) None
  = Some (map Some [8; 12; 19; 22]).
Proof. vm_compute. reflexivity. Qed.

Lemma first_index_le P xs : (first_index P xs <= length xs)%nat.
Proof. induction xs; cbn; [lia|]. case_match; lia. Qed.

Lemma first_index_lt P xs i x : (i < first_index P xs)%nat -> xs !! i = Some x -> P x = false.
Proof.
  revert i. induction xs as [|y xs IH]; intros i Hi Hx; cbn in *; [lia|].
  destruct (P y) eqn:E; [lia|]. destruct i; cbn in Hx; [by simplify_eq|].
  apply (IH i); [lia|done].
Qed.

Lemma first_index_at P xs x : xs !! first_index P xs = Some x -> P x = true.
Proof. induction xs as [|y xs IH]; cbn; [done|]. destruct (P y) eqn:E; cbn; [by intros [= <-]|done]. Qed.

Lemma sorted_lookup zs i j x y :
  StronglySorted Z.le zs -> (i <= j)%nat -> zs !! i = Some x -> zs !! j = Some y -> x <= y.
Proof.
  intros Hs. revert i j. induction Hs as [|z zs Hs IH Hz]; intros i j Hij Hx Hy; [done|].
  rewrite List.Forall_forall in Hz.
  destruct i as [|i], j as [|j]; cbn in *; simplify_eq; [lia| |lia|].
  - by apply Hz, list_elem_of_In, (list_elem_of_lookup_2 _ j).
  - apply (IH i j); [lia|done|done].
Qed.

(** The slice a decision takes of [n] points. *)
Definition crop_slice (c : crop) (n : nat) : nat * nat :=
  match c with CropAll => (O, O) | CropNone => (O, n) | CropTo s e => (s, e) end.

(** The points of a slice, and the points in sight. *)
Definition fits (min max : Z) (zs : list Z) (s e : nat) : Prop :=
  (s <= e <= length zs)%nat /\
  (forall i z, zs !! i = Some z -> min <= z <= max -> (s <= i < e)%nat) /\
  (forall i z, zs !! i = Some z -> (s < i < e)%nat -> min <= z) /\
  (forall i z, zs !! i = Some z -> (S i < e)%nat -> z <= max).

Lemma lookup_map_Some {A} (zs : list A) i : map Some zs !! i = Some <$> zs !! i.
Proof. by rewrite list_lookup_fmap. Qed.

Lemma scan_spec (P : Z -> bool) zs i z :
  zs !! i = Some z -> (i < first_index (fun x => match x with Some x => P x | None => false end)
                             (map Some zs))%nat -> P z = false.
Proof. intros Hz Hi. eapply (first_index_lt _ _ i (Some z)) in Hi; [done|]. by rewrite lookup_map_Some, Hz. Qed.

Lemma crop_to_fits min max zs :
  StronglySorted Z.le zs -> min <= max ->
  let xs := map Some zs in
  let i := first_index (fun x => x_ge x min) xs in
  let j := (i + first_index (fun x => x_gt x max) (drop i xs))%nat in
  (i < length zs)%nat ->
  fits min max zs (if decide (i < length xs)%nat then i - 1 else O)%nat
    (if decide (j < length xs)%nat then j + 1 else length xs)%nat.
Proof.
  intros Hs Hmm xs i j Hi.
  assert (length xs = length zs) as Hl by apply length_map. rewrite Hl.
  rewrite decide_True by done.
  destruct (lookup_lt_is_Some_2 zs i Hi) as [zi Hzi].
  assert (min <= zi) as Hzi'.
  { pose proof (first_index_at (fun x => x_ge x min) xs (Some zi)) as H. fold i in H.
    unfold xs in H. rewrite lookup_map_Some, Hzi in H. apply Z.leb_le, H. done. }
  assert (forall k z, zs !! k = Some z -> (k < i)%nat -> z < min) as Hbefore.
  { intros k z Hk Hki. apply (scan_spec (fun x => min <=? x) zs k z Hk) in Hki. lia. }
  assert (i <= j)%nat by lia.
  assert (forall k z, zs !! k = Some z -> (k < j)%nat -> z <= max) as Hin.
  { intros k z Hk Hkj. destruct (decide (k < i)%nat) as [Hlt|Hge].
    { pose proof (Hbefore k z Hk Hlt). lia. }
    pose proof (scan_spec (fun x => max <? x) (drop i zs) (k - i) z) as H'.
    unfold j, xs in Hkj. rewrite skipn_map in Hkj. rewrite lookup_drop in H'.
    replace (i + (k - i))%nat with k in H' by lia.
    specialize (H' Hk). assert ((max <? z) = false); [apply H'; unfold x_gt in Hkj; lia|lia]. }
  assert (forall zj, zs !! j = Some zj -> max < zj) as Hj.
  { intros zj Hzj. pose proof (first_index_at (fun x => x_gt x max) (drop i xs) (Some zj)) as H'.
    rewrite lookup_drop in H'. fold j in H'. unfold xs in H'. rewrite lookup_map_Some, Hzj in H'.
    apply Z.ltb_lt, H'. done. }
  unfold fits. split_and!; [destruct (decide _); lia|destruct (decide _); lia| | |].
  - intros k z Hk Hz. split.
    + destruct (decide (k < i)%nat) as [Hlt|]; [|lia]. pose proof (Hbefore k z Hk Hlt). lia.
    + destruct (decide (j < length zs)%nat) as [Hjl|]; [|by apply lookup_lt_Some in Hk].
      destruct (decide (k < j)%nat); [lia|].
      destruct (lookup_lt_is_Some_2 zs j Hjl) as [zj Hzj]. pose proof (Hj zj Hzj).
      pose proof (sorted_lookup zs j k zj z Hs ltac:(lia) Hzj Hk). lia.
  - intros k z Hk Hlt. pose proof (sorted_lookup zs i k zi z Hs ltac:(lia) Hzi Hk). lia.
  - intros k z Hk Hlt. apply (Hin k z Hk). destruct (decide _); [lia|].
    destruct (decide (k < j)%nat); [done|lia].
Qed.

Lemma crop_range_fits min max zs :
  StronglySorted Z.le zs -> min <= max ->
  let '(s, e) := crop_slice (crop_range min max (map Some zs)) (length zs) in fits min max zs s e.
Proof.
  intros Hs Hmm. unfold crop_range.
  destruct zs as [|z0 zs']; [cbn; split_and!; try lia; intros; by rewrite lookup_nil in *|].
  set (zs := z0 :: zs') in *.
  assert (mjoin (head (map Some zs)) = Some z0) as -> by done.
  destruct (last zs) as [zn|] eqn:Hn; [|by apply last_None in Hn].
  assert (mjoin (last (map Some zs)) = Some zn) as ->.
  { change (map Some zs) with (Some <$> zs). by rewrite fmap_last, Hn. }
  assert (zs !! 0%nat = Some z0) as H0 by done.
  assert (zs !! (length zs - 1)%nat = Some zn) as Hlast by (rewrite last_lookup in Hn; by rewrite <-Hn, Nat.sub_1_r).
  assert (forall i z, zs !! i = Some z -> z0 <= z <= zn) as Hb.
  { intros i z Hz. pose proof (lookup_lt_Some _ _ _ Hz). split.
    - by apply (sorted_lookup zs 0 i); [|lia| |].
    - apply (sorted_lookup zs i (length zs - 1)); [done|lia|done|done]. }
  cbn [x_lt x_gt]. destruct ((zn <? min) || (max <? z0)) eqn:E1; [|destruct ((z0 <? min) || _) eqn:E2].
  - cbn. unfold fits. split_and!; [lia|lia|..]; intros i z Hz; pose proof (Hb i z Hz); apply orb_true_iff in E1;
      rewrite !Z.ltb_lt in E1; lia.
  - cbn [crop_slice]. apply crop_to_fits; [done|done|].
    zbool. apply Nat.nle_gt. intros Hge.
    pose proof (scan_spec (fun x => min <=? x) zs _ zn Hlast) as Hscan.
    assert ((min <=? zn) = false); [|lia]. apply Hscan.
    eapply Nat.lt_le_trans; [|exact Hge]. assert (length zs = S (length zs')) as -> by done. lia.
  - cbn [crop_slice]. zbool. unfold fits. split_and!; [lia|lia|..]; intros i z Hz; pose proof (Hb i z Hz);
      pose proof (lookup_lt_Some _ _ _ Hz); lia.
Qed.

(** Cropping the points of a series to the extremes of its axis keeps every
    point in sight and the points' values with them, and at most one point on
    each side that is out of sight. *)
Theorem processData_crops o dirty force min max zs ys pointRange r :
  StronglySorted Z.le zs -> length ys = length zs -> min <= max ->
  cropping o (length zs) = true ->
  processData o dirty force min max (map Some zs) ys pointRange = Some r ->
  exists s e, fits min max zs s e /\
    pr_x r = take (e - s) (drop s (map Some zs)) /\
    pr_y r = take (e - s) (drop s ys) /\
    (pr_cropped r = true -> pr_cropStart r = s).
Proof.
  intros Hs Hl Hmm Ho. unfold processData. destruct (_ && negb force); [done|].
  rewrite length_map, Ho. pose proof (crop_range_fits min max zs Hs Hmm) as Hfit.
  destruct (crop_range min max (map Some zs)) as [| |s e]; cbn [crop_slice] in Hfit; intros [= <-].
  - by exists O, O.
  - exists O, (length zs). cbn. rewrite !drop_0, !Nat.sub_0_r.
    rewrite take_ge by (rewrite length_map; lia). rewrite take_ge by lia. done.
  - by exists s, e.
Qed.

Lemma processData_crops_witness :
  exists s e, fits 10 20 [1; 5; 8; 12; 19; 22; 40] s e /\
    map Some [8; 12; 19; 22] = take (e - s) (drop s (map Some [1; 5; 8; 12; 19; 22; 40])).
Proof.
  destruct (processData_crops (ProcessOptions true true false false 0) true false 10 20
              [1; 5; 8; 12; 19; 22; 40] (replicate 7 YNull) None _
              ltac:(repeat constructor; lia) eq_refl ltac:(lia) eq_refl eq_refl)
    as (s & e & Hf & Hx & _).
  exists s, e. split; [exact Hf|exact Hx].
Defined.

Lemma closestPointRange_cons x y zs :
  closestPointRange (map Some (x :: y :: zs))
  = let c := closestPointRange (map Some (y :: zs)) in
    if (0 <? y - x) && match c with None => true | Some c => y - x <? c end
    then Some (y - x) else c.
Proof. done. Qed.

(** The closest distance is one between neighbours, and none that is positive is
    smaller. *)
Lemma closestPointRange_spec zs :
  match closestPointRange (map Some zs) with
  | Some c => 0 < c /\ (exists i x y, zs !! i = Some x /\ zs !! S i = Some y /\ y - x = c)
  | None => True
  end /\
  forall i x y, zs !! i = Some x -> zs !! S i = Some y -> x < y ->
    exists c, closestPointRange (map Some zs) = Some c /\ c <= y - x.
Proof.
  induction zs as [|x [|y zs] IH]; [by split|by split; [|intros [|i]]|].
  destruct IH as [IH1 IH2]. rewrite closestPointRange_cons. cbv zeta.
  set (c := closestPointRange (map Some (y :: zs))) in *. clearbody c.
  assert (forall d, c = Some d -> 0 < d /\ exists i x' y',
            (x :: y :: zs) !! i = Some x' /\ (x :: y :: zs) !! S i = Some y' /\ y' - x' = d) as Hc.
  { intros d ->. destruct IH1 as (? & i & x' & y' & ? & ? & ?). split; [done|].
    by exists (S i), x', y'. }
  destruct ((0 <? y - x) && _) eqn:E.
  - split; [split; [apply andb_true_iff in E as [E _]; lia|by exists O, x, y]|].
    intros [|i] x' y' Hx Hy Hlt; cbn in Hx, Hy; simplify_eq; [by eexists|].
    destruct (IH2 i x' y' Hx Hy Hlt) as (d & Hd & Hle). rewrite Hd in E.
    eexists. split; [done|]. apply andb_true_iff in E as [_ E]. lia.
  - split; [destruct c; [by apply Hc|done]|].
    intros [|i] x' y' Hx Hy Hlt; cbn in Hx, Hy; simplify_eq; [|by apply (IH2 i x' y')].
    assert (0 <? y' - x' = true) as Hp by lia. rewrite Hp in E. cbn in E.
    destruct c as [d|]; [|done]. exists d. split; [done|]. lia.
Qed.

(** ** Segments *)

Section segments.
Context {A : Type} (isNull : A -> bool).

(** [points.slice(s, e)] *)
Definition slice (s e : nat) (l : list A) : list A := take (e - s) (drop s l).

(** The loop over the points: [i] is the index, [start] is [lastNull + 1]. *)
Fixpoint segment_loop (points rest : list A) (i start : nat) : list (list A) :=
  match rest with
  | [] => []
  | p :: rest' =>
      if isNull p then
        (if decide (start < i)%nat then [slice start i points] else [])
          ++ segment_loop points rest' (S i) (S i)
      else if decide (i = length points - 1)%nat then
        [slice start (i + 1) points] ++ segment_loop points rest' (S i) start
      else segment_loop points rest' (S i) start
  end.

(** [getSegments]: the points left, and their segments. *)
Definition getSegments (connectNulls : bool) (points : list A) : list A * list (list A) :=
  if connectNulls then
    let points := List.filter (fun p => negb (isNull p)) points in
    (points, if decide (points = []) then [] else [points])
  else (points, segment_loop points points 0 0).

Lemma segment_loop_spec points pre rest start :
  points = pre ++ rest -> (start <= length pre)%nat ->
  Forall (fun p => isNull p = false) (drop start pre) ->
  (rest = [] -> drop start pre = []) ->
  concat (segment_loop points rest (length pre) start)
  = drop start pre ++ List.filter (fun p => negb (isNull p)) rest /\
  Forall (fun s => s <> [] /\ Forall (fun p => isNull p = false) s /\
                   exists i n, s = take n (drop i points))
    (segment_loop points rest (length pre) start).
Proof.
  revert pre start. induction rest as [|p rest IH]; intros pre start -> Hst Hnn Hend; cbn.
  { by rewrite (Hend eq_refl). }
  assert (slice start (length pre) (pre ++ p :: rest) = drop start pre) as Hpre.
  { unfold slice. rewrite drop_app_le by done. rewrite take_app_le by (rewrite length_drop; lia).
    apply take_ge. rewrite length_drop. lia. }
  destruct (isNull p) eqn:Ep; cbn [negb].
  - destruct (IH (pre ++ [p]) (S (length pre))) as [IH1 IH2].
    + by rewrite <-app_assoc.
    + rewrite length_app. cbn. lia.
    + by rewrite drop_ge by (rewrite length_app; cbn; lia).
    + intros _. by rewrite drop_ge by (rewrite length_app; cbn; lia).
    + rewrite length_app, Nat.add_1_r in IH1, IH2. rewrite drop_ge in IH1 by (rewrite length_app; cbn; lia).
      rewrite concat_app. cbn [app] in IH1. rewrite IH1. destruct (decide _) as [Hlt|Hge]; cbn.
      * rewrite app_nil_r, Hpre. split; [done|]. constructor; [|exact IH2].
        split_and!; [|exact Hnn|by exists start, (length pre - start)%nat].
        intros E. apply (f_equal length) in E. rewrite length_drop in E. cbn in E. lia.
      * rewrite drop_ge by lia. done.
  - rewrite length_app. cbn [length]. assert (slice start (length pre + 1) (pre ++ p :: rest) = drop start pre ++ [p]) as Hnow.
    { unfold slice. rewrite drop_app_le by done. rewrite take_app, length_drop, take_ge by (rewrite length_drop; lia).
      replace (length pre + 1 - start - (length pre - start))%nat with 1%nat by lia. done. }
    assert (Forall (fun p => isNull p = false) (drop start pre ++ [p])) as Hnn'.
    { apply Forall_app. split; [done|]. by constructor. }
    destruct (decide _) as [Hlast|Hlast].
    + assert (rest = []) as -> by (destruct rest; [done|cbn in Hlast; lia]). cbn.
      rewrite Hnow, app_nil_r. split; [done|]. constructor; [|constructor].
      split_and!; [by destruct (drop start pre)|done|by exists start, (length pre + 1 - start)%nat].
    + destruct (IH (pre ++ [p]) start) as [IH1 IH2].
      * by rewrite <-app_assoc.
      * rewrite length_app. lia.
      * by rewrite drop_app_le.
      * intros ->. cbn in Hlast. lia.
      * rewrite length_app, Nat.add_1_r in IH1, IH2. rewrite drop_app_le, <-app_assoc in IH1 by done.
        done.
Qed.

(** The segments of a series hold its points that are not null, in order; each
    is a run of neighbouring points, none is empty and none has a null.  With
    [connectNulls] there is one, of all these points. *)
Theorem getSegments_points connectNulls points :
  let '(points', segments) := getSegments connectNulls points in
  concat segments = List.filter (fun p => negb (isNull p)) points /\
  Forall (fun s => s <> [] /\ Forall (fun p => isNull p = false) s /\
                   exists i n, s = take n (drop i points')) segments.
Proof.
  destruct connectNulls; cbn.
  - set (l := List.filter _ points). assert (Forall (fun p => isNull p = false) l) as Hl.
    { apply List.Forall_forall. intros p Hp. apply filter_In in Hp as [_ Hp]. by apply negb_true_iff. }
    destruct (decide (l = [])) as [->|Hne]; cbn; [by split|]. rewrite app_nil_r. split; [done|].
    constructor; [|constructor]. split_and!; [done|done|]. exists O, (length l).
    by rewrite drop_0, take_ge.
  - apply (segment_loop_spec points [] points 0); [done|lia|constructor|done].
Qed.

End segments.

Example getSegments_ex :
  getSegments (fun p => p =? 0) false [1; 2; 0; 0; 3] = ([1; 2; 0; 0; 3], [[1; 2]; [3]]).
Proof. vm_compute. reflexivity. Qed.
