(* ===== verification/HsSeries.v ===== *)
(** * Charts: a series and its points

    [highstock.src.js]: [Point.applyOptions], [autoIncrement], [setData],
    [addPoint], [Point.update], [Point.remove] and [generatePoints].  A series
    keeps parallel arrays (x values, y values, options) and an array of the points
    made from them so far, shared with [series.points]; points are objects in a
    store.  One value per point; redrawing is left out. *)

From S2P Require Import Prelude JsString JsNum HsData.
Local Open Scope Z_scope.

(** ** Data *)

(** An element of [series.options.data]. *)
Inductive datum :=
| DNum (y : num)
| DNull
| DPair (x : Z) (y : yval)                 (* [x, y] *)
| DNamed (name : string) (y : yval)         (* ['name', y] *)
| DObj (x : option Z) (y : option yval).    (* { x: .., y: .. } *)

Record series_options := SeriesOptions {
  so_pointStart : option Z;
  so_pointInterval : option Z;
  so_turboThreshold : Z                     (* 0 when there is none *)
}.

Record point := Point { pt_x : option Z; pt_y : yval }.
Definition new_point : point := Point None YUndef.

(** Points are referred to by identity; a hole in an array is [None]. *)
Abbreviation pref := positive (only parsing).

Record series := Series {
  s_heap : gmap positive point;
  s_xIncrement : option Z;
  s_pointInterval : option Z;
  s_xData : list (option Z);
  s_yData : list yval;
  s_dataOptions : list datum;               (* series.options.data *)
  s_data : list (option pref);
  s_points : list (option pref)
}.

Definition set_arrays xs ys ds (s : series) : series :=
  Series (s_heap s) (s_xIncrement s) (s_pointInterval s) xs ys ds (s_data s) (s_points s).
Definition set_data l (s : series) : series :=
  Series (s_heap s) (s_xIncrement s) (s_pointInterval s) (s_xData s) (s_yData s)
    (s_dataOptions s) l (s_points s).
Definition set_points l (s : series) : series :=
  Series (s_heap s) (s_xIncrement s) (s_pointInterval s) (s_xData s) (s_yData s)
    (s_dataOptions s) (s_data s) l.
Definition set_point r pt (s : series) : series :=
  Series (<[r := pt]> (s_heap s)) (s_xIncrement s) (s_pointInterval s) (s_xData s) (s_yData s)
    (s_dataOptions s) (s_data s) (s_points s).
Definition set_increment x i (s : series) : series :=
  Series (s_heap s) x i (s_xData s) (s_yData s) (s_dataOptions s) (s_data s) (s_points s).

(** [pick(a, b, c)] with a last value that is defined. *)
Definition pick (a b : option Z) (c : Z) : Z :=
  match a with Some x => x | None => default c b end.

Section ops.
Context (o : series_options).

Definition autoIncrement (s : series) : Z * series :=
  let xIncrement := pick (s_xIncrement s) (so_pointStart o) 0 in
  let interval := pick (s_pointInterval s) (so_pointInterval o) 1 in
  (xIncrement, set_increment (Some (xIncrement + interval)) (Some interval) s).

(** What the options say of the point's x and y. *)
Definition datum_x (d : datum) : option Z :=
  match d with DPair x _ => Some x | DObj x _ => x | _ => None end.
Definition datum_y (d : datum) : option yval :=
  match d with
  | DNum y => Some (YNum y) | DNull => Some YNull
  | DPair _ y | DNamed _ y => Some y
  | DObj _ y => y
  end.

(** [applyOptions(options, x)] *)
Definition applyOptions (d : datum) (x : option Z) (pt : point) (s : series) : point * series :=
  let px := match datum_x d with Some x => Some x | None => pt_x pt end in
  let py := default (pt_y pt) (datum_y d) in
  match px with
  | Some _ => (Point px py, s)
  | None =>
      match x with
      | Some x => (Point (Some x) py, s)
      | None => let '(x, s) := autoIncrement s in (Point (Some x) py, s)
      end
  end.

(** *** setData *)

Definition turboThreshold : Z := if so_turboThreshold o =? 0 then 1000 else so_turboThreshold o.

(** The first element that is not [null]. *)
Fixpoint firstPoint (data : list datum) : option datum :=
  match data with
  | [] => None
  | DNull :: data' => firstPoint data'
  | d :: _ => Some d
  end.

(** An element taken as a y value as it is. *)
Definition raw_y (d : datum) : yval :=
  match d with DNum y => YNum y | DNull => YNull | _ => YUndef end.

(** [pt[0]] and [pt[1]]; a name is no number. *)
Definition raw_pair (d : datum) : res (option Z * yval) :=
  match d with
  | DNull => Throw TypeError
  | DPair x y => Ok (Some x, y)
  | DNamed _ y => Ok (None, y)
  | DNum _ | DObj _ _ => Ok (None, YUndef)
  end.

(** [for (i..) { xData[i] = x; yData[i] = data[i]; x += pointInterval; }] *)
Fixpoint turbo_numbers (interval : Z) (data : list datum) (x : Z)
    : list (option Z) * list yval * Z :=
  match data with
  | [] => ([], [], x)
  | d :: data' =>
      let '(xs, ys, x') := turbo_numbers interval data' (x + interval) in
      (Some x :: xs, raw_y d :: ys, x')
  end.

Fixpoint plain_points (data : list datum) (s : series) : list (option Z) * list yval * series :=
  match data with
  | [] => ([], [], s)
  | d :: data' =>
      let '(pt, s) := applyOptions d None new_point s in
      let '(xs, ys, s) := plain_points data' s in
      (pt_x pt :: xs, pt_y pt :: ys, s)
  end.

Definition data_arrays (data : list datum) (s : series)
    : res (list (option Z) * list yval * series) :=
  if turboThreshold <? Z.of_nat (length data) then
    match firstPoint data with
    | Some (DNum _) =>
        let '(xs, ys, x) := turbo_numbers (default 1 (so_pointInterval o)) data
                              (default 0 (so_pointStart o)) in
        Ok (xs, ys, set_increment (Some x) (s_pointInterval s) s)
    | Some (DPair _ _ | DNamed _ _) => ps ← mapM raw_pair data; Ok (map fst ps, map snd ps, s)
    | Some (DObj _ _ | DNull) | None => Ok ([], [], s)
    end
  else Ok (plain_points data s).

Definition setData (data : list datum) (s : series) : res series :=
  '(xs, ys, s) ← data_arrays data (set_increment None (s_pointInterval s) s);
  Ok (set_data [] (set_arrays xs ys data s)).

(** *** Points *)

(** [Point.remove]: out of every array, at the place the point has in [data]. *)
Definition removePoint (r : pref) (s : series) : series :=
  match list_find (fun q => q = Some r) (s_data s) with
  | Some (i, _) =>
      set_data (delete i (s_data s))
        (set_arrays (delete i (s_xData s)) (delete i (s_yData s)) (delete i (s_dataOptions s)) s)
  | None => s
  end.

Definition addPoint (d : datum) (shift : bool) (s : series) : series :=
  let '(pt, s) := applyOptions d None new_point s in
  let s := set_arrays (s_xData s ++ [pt_x pt]) (s_yData s ++ [pt_y pt]) (s_dataOptions s ++ [d]) s in
  if shift then
    match s_data s with
    | Some r :: _ => removePoint r s
    | l => set_data (tail l)
             (set_arrays (tail (s_xData s)) (tail (s_yData s)) (tail (s_dataOptions s)) s)
    end
  else s.

(** [Point.update]: the point, and its place in the arrays. *)
Definition updatePoint (r : pref) (d : datum) (s : series) : series :=
  match s_heap s !! r with
  | None => s
  | Some pt =>
      let '(pt, s) := applyOptions d None pt s in
      let s := set_point r pt s in
      match list_find (fun q => q = Some r) (s_data s) with
      | Some (i, _) =>
          set_arrays (<[i := pt_x pt]> (s_xData s)) (<[i := pt_y pt]> (s_yData s))
            (<[i := d]> (s_dataOptions s)) s
      | None => s
      end
  end.

(** *** generatePoints *)

(** A new point from the options at an index, with its x value. *)
Definition make_point (d : datum) (x : option Z) (s : series) : pref * series :=
  let '(pt, s) := applyOptions d x new_point s in
  let r := fresh (dom (s_heap s)) in
  (r, set_point r pt s).

(** One round of the loop for raw data: [last] is the variable [point]. *)
Definition generate_one (cursor : nat) (x : option Z) (last : option pref) (s : series)
    : option pref * series :=
  match mjoin (s_data s !! cursor) with
  | Some r => (Some r, s)
  | None =>
      match s_dataOptions s !! cursor with
      | Some d =>
          let '(r, s) := make_point d x s in
          (Some r, set_data (arr_assign cursor r (s_data s)) s)
      | None => (last, s)
      end
  end.

Fixpoint generate_loop (xs : list (option Z)) (cursor : nat) (last : option pref) (s : series)
    : list (option pref) * series :=
  match xs with
  | [] => ([], s)
  | x :: xs' =>
      let '(p, s) := generate_one cursor x last s in
      let '(ps, s) := generate_loop xs' (S cursor) p s in
      (p :: ps, s)
  end.

(** A grouped point: [(new pointClass()).init(series, [x].concat(splat(y)))]. *)
Fixpoint generate_grouped (xys : list (option Z * gval)) (s : series)
    : list (option pref) * series :=
  match xys with
  | [] => ([], s)
  | (x, g) :: xys' =>
      let y := match g with GNum y => YNum y | GNull => YNull | GBar o _ _ _ => o end in
      let '(r, s) := make_point (match x with Some x => DPair x y | None => DObj None None end)
                       None s in
      let '(ps, s) := generate_grouped xys' s in
      (Some r :: ps, s)
  end.

(** [generatePoints], on the processed x values and where they start, or on
    grouped data. *)
Definition generatePoints (grouped : option (list (option Z * gval)))
    (processedXData : list (option Z)) (cropStart : nat) (s : series) : series :=
  let '(ps, s) := match grouped with
                  | Some xys => generate_grouped xys s
                  | None => generate_loop processedXData cropStart None s
                  end in
  set_points ps s.

End ops.

(** ** Numbering *)

Section numbering.
Context (o : series_options).

Definition plain (d : datum) : Prop := match d with DNum _ | DNull => True | _ => False end.

Lemma turbo_numbers_spec step data x :
  turbo_numbers step data x
  = (map (fun i => Some (x + Z.of_nat i * step)) (seq 0 (length data)), map raw_y data,
     x + Z.of_nat (length data) * step).
Proof.
  revert x. induction data as [|d data IH]; intros x; cbn [turbo_numbers length seq map].
  { by rewrite Z.mul_0_l, Z.add_0_r. }
  rewrite IH, <-seq_shift, map_map. f_equal; [|lia]. f_equal. f_equal; [f_equal; lia|].
  apply map_ext. intros i. f_equal. lia.
Qed.

(** Points made one by one are numbered like those of the fast loop. *)
Lemma plain_points_turbo data s x :
  Forall plain data ->
  pick (s_xIncrement s) (so_pointStart o) 0 = x ->
  let step := pick (s_pointInterval s) (so_pointInterval o) 1 in
  let '(xs, ys, x') := turbo_numbers step data x in
  exists s', plain_points o data s = (xs, ys, s') /\
    pick (s_xIncrement s') (so_pointStart o) 0 = x'.
Proof.
  revert s x. induction data as [|d data IH]; intros s x Hp Hx; cbn; [by exists s|].
  apply Forall_cons in Hp as [Hd Hp].
  set (step := pick (s_pointInterval s) (so_pointInterval o) 1).
  set (s1 := set_increment (Some (x + step)) (Some step) s).
  assert (applyOptions o d None new_point s = (Point (Some x) (raw_y d), s1)) as ->.
  { unfold applyOptions, autoIncrement. rewrite Hx. destruct d; done. }
  specialize (IH s1 (x + step) Hp eq_refl). cbn in IH.
  destruct (turbo_numbers step data (x + step)) as [[xs ys] x'] eqn:E.
  destruct IH as (s' & -> & Hx'). by exists s'.
Qed.

Definition is_null (d : datum) : bool := match d with DNull => true | _ => false end.

Lemma firstPoint_plain data :
  Forall plain data -> match firstPoint data with
                       | Some (DNum _) => forallb is_null data = false
                       | Some _ => False
                       | None => forallb is_null data = true
                       end.
Proof. induction 1 as [|[] data Hd H IH]; cbn; done. Qed.

(** Numbers and nulls, at least one a number, get the same x and y values in the
    fast loop for long series as one by one: [pointStart], [pointStart +
    pointInterval], and so on; a point added later goes on with the next.  A long
    series of nulls alone loses its points in the fast loop. *)
Theorem setData_turbo data s :
  Forall plain data -> s_pointInterval s = None ->
  let start := default 0 (so_pointStart o) in
  let step := default 1 (so_pointInterval o) in
  exists s', setData o data s = Ok s' /\
    if (turboThreshold o <? Z.of_nat (length data)) && forallb is_null data then
      s_xData s' = [] /\ s_yData s' = []
    else
      s_xData s' = map (fun i => Some (start + Z.of_nat i * step)) (seq 0 (length data)) /\
      s_yData s' = map raw_y data /\
      (autoIncrement o s').1 = start + Z.of_nat (length data) * step.
Proof.
  intros Hp Hi start step. unfold setData, data_arrays.
  set (s0 := set_increment None (s_pointInterval s) s).
  destruct (turboThreshold o <? Z.of_nat (length data)) eqn:Ht.
  - pose proof (firstPoint_plain data Hp) as Hf.
    destruct (firstPoint data) as [d|] eqn:E.
    + destruct d; try done. fold start step. rewrite turbo_numbers_spec.
      cbn [mbind res_bind]. eexists. split; [done|]. by rewrite Hf.
    + cbn [mbind res_bind]. eexists. split; [done|]. by rewrite Hf.
  - pose proof (plain_points_turbo data s0 start Hp eq_refl) as H. cbn zeta in H.
    assert (pick (s_pointInterval s0) (so_pointInterval o) 1 = step) as Hs by (cbn; by rewrite Hi).
    rewrite Hs, turbo_numbers_spec in H. destruct H as (s' & -> & Hx).
    cbn [mbind res_bind]. eexists. by split.
Qed.

End numbering.

Lemma setData_turbo_witness :
  exists s', setData (SeriesOptions (Some 10) (Some 5) 2) [DNum 1%float; DNull; DNum 2%float]
               (Series ∅ None None [] [] [] [] []) = Ok s' /\ s_xData s' = [Some 10; Some 15; Some 20].
Proof.
  destruct (setData_turbo (SeriesOptions (Some 10) (Some 5) 2) [DNum 1%float; DNull; DNum 2%float]
              (Series ∅ None None [] [] [] [] [])) as (s' & H & Hd).
  - repeat constructor.
  - reflexivity.
  - exists s'. split; [exact H|]. by destruct Hd.
Defined.

(** ** The arrays stay parallel *)

(** What is known of one index: its x value, and its y value, from its point when
    there is one, from its options otherwise. *)
Definition index_ok (s : series) (i : nat) (d : datum) : Prop :=
  exists x, s_xData s !! i = Some (Some x) /\
  match mjoin (s_data s !! i) with
  | Some r => exists y, s_heap s !! r = Some (Point (Some x) y) /\ s_yData s !! i = Some y
  | None => s_yData s !! i = Some (default YUndef (datum_y d)) /\
            (forall x', datum_x d = Some x' -> x' = x)
  end.

Record aligned (s : series) : Prop := {
  al_x : length (s_xData s) = length (s_dataOptions s);
  al_y : length (s_yData s) = length (s_dataOptions s);
  al_data : (length (s_data s) <= length (s_dataOptions s))%nat;
  al_ok : forall i d, s_dataOptions s !! i = Some d -> index_ok s i d;
  al_inj : forall i j r, s_data s !! i = Some (Some r) -> s_data s !! j = Some (Some r) -> i = j
}.

(** Everything that can happen to a series after its data are set. *)
Inductive step (o : series_options) : series -> series -> Prop :=
| step_add s d shift : step o s (addPoint o d shift s)
| step_update s r d : step o s (updatePoint o r d s)
| step_remove s r : step o s (removePoint r s)
| step_generate s c n :
    step o s (generatePoints o None (take n (drop c (s_xData s))) c s)
| step_grouped s xys xs c : step o s (generatePoints o (Some xys) xs c s).

Section aligned.
Context (o : series_options).

(** [applyOptions] gives the point an x value, and leaves the arrays alone. *)
Lemma applyOptions_spec d x pt s :
  exists x' a b, applyOptions o d x pt s
                 = (Point (Some x') (default (pt_y pt) (datum_y d)), set_increment a b s) /\
    (forall z, datum_x d = Some z -> x' = z) /\
    (datum_x d = None -> forall z, pt_x pt = Some z -> x' = z) /\
    (datum_x d = None -> pt_x pt = None -> forall z, x = Some z -> x' = z).
Proof.
  assert (set_increment (s_xIncrement s) (s_pointInterval s) s = s) as Hs by by destruct s.
  unfold applyOptions. destruct (datum_x d) as [z|].
  { exists z. do 2 eexists. rewrite Hs. naive_solver. }
  destruct (pt_x pt) as [z|].
  { exists z. do 2 eexists. rewrite Hs. naive_solver. }
  destruct x as [z|].
  { exists z. do 2 eexists. rewrite Hs. naive_solver. }
  unfold autoIncrement. do 3 eexists. naive_solver.
Qed.

Lemma aligned_increment a b s : aligned s -> aligned (set_increment a b s).
Proof. intros []. by split. Qed.

Lemma aligned_points l s : aligned s -> aligned (set_points l s).
Proof. intros []. by split. Qed.

(** A point that is in the store has an index that knows it. *)
Lemma aligned_ref s i r : aligned s -> s_data s !! i = Some (Some r) -> is_Some (s_heap s !! r).
Proof.
  intros Hal Hi. pose proof (lookup_lt_Some _ _ _ Hi). pose proof (al_data s Hal).
  destruct (lookup_lt_is_Some_2 (s_dataOptions s) i) as [d Hd]; [lia|].
  destruct (al_ok s Hal i d Hd) as (x & _ & H'). rewrite Hi in H'. cbn in H'.
  destruct H' as (y & -> & _). by eexists.
Qed.

(** Points that are not in [data] do not matter. *)
Lemma aligned_heap r pt s :
  aligned s -> (forall i, s_data s !! i <> Some (Some r)) -> aligned (set_point r pt s).
Proof.
  intros Hal Hr. destruct Hal as [H1 H2 H3 H4 H5]. split; cbn; try done.
  intros i d Hd. destruct (H4 i d Hd) as (x & Hx & H'). exists x. split; [done|]. cbn.
  destruct (s_data s !! i) as [[q|]|] eqn:E; cbn in *; try done.
  rewrite lookup_insert_ne; [done|]. intros ->. by apply (Hr i).
Qed.

Lemma lookup_delete {A} (l : list A) i j :
  delete i l !! j = if decide (j < i)%nat then l !! j else l !! S j.
Proof. case_decide; [by apply list_lookup_delete_lt|apply list_lookup_delete_ge; lia]. Qed.

Lemma delete_past {A} (l : list A) i : (length l <= i)%nat -> delete i l = l.
Proof.
  revert i. induction l as [|x l IH]; intros [|i] Hi; cbn in *; try done; [lia|].
  change (delete (S i) (x :: l)) with (x :: delete i l). by rewrite IH by lia.
Qed.

(** Taking an index out of every array. *)
Lemma aligned_delete i s :
  aligned s -> (i < length (s_dataOptions s))%nat ->
  aligned (set_data (delete i (s_data s))
     (set_arrays (delete i (s_xData s)) (delete i (s_yData s)) (delete i (s_dataOptions s)) s)).
Proof.
  intros [H1 H2 H3 H4 H5] Hi.
  assert (forall A (l : list A), length l = length (s_dataOptions s) ->
            length (delete i l) = (length (s_dataOptions s) - 1)%nat) as Hlen.
  { intros A l Hl. rewrite length_delete; [by rewrite Hl|]. apply lookup_lt_is_Some_2. lia. }
  split; cbn.
  - by rewrite !Hlen.
  - by rewrite !Hlen.
  - rewrite (Hlen _ (s_dataOptions s)) by done. destruct (decide (i < length (s_data s))%nat) as [Hlt|Hge].
    + rewrite length_delete by (by apply lookup_lt_is_Some_2). lia.
    + rewrite delete_past by lia; lia.
  - intros j d Hd. rewrite lookup_delete in Hd. unfold index_ok. cbn. rewrite !lookup_delete.
    case_decide; exact (H4 _ _ Hd).
  - intros j k r Hj Hk. rewrite lookup_delete in Hj, Hk.
    repeat case_decide; pose proof (H5 _ _ _ Hj Hk); lia.
Qed.

Lemma removePoint_aligned r s : aligned s -> aligned (removePoint r s).
Proof.
  intros Hal. unfold removePoint. destruct (list_find _ _) as [[i q]|] eqn:E; [|done].
  apply list_find_Some in E as (Hi & _). apply lookup_lt_Some in Hi.
  apply aligned_delete; [done|]. pose proof (al_data s Hal). lia.
Qed.

Lemma tail_delete {A} (l : list A) : tail l = delete O l.
Proof. by destruct l. Qed.


Lemma addPoint_aligned d shift s : aligned s -> aligned (addPoint o d shift s).
Proof.
  intros Hal. unfold addPoint.
  destruct (applyOptions_spec d None new_point s) as (x & a & b & -> & Hx & _ & _).
  set (s1 := set_increment a b s).
  assert (aligned s1) as Hal1 by by apply aligned_increment. clearbody s1. clear s Hal.
  set (s2 := set_arrays _ _ _ s1).
  assert (aligned s2) as Hal2.
  { destruct Hal1 as [H1 H2 H3 H4 H5]. split; cbn.
    - rewrite !length_app. cbn. lia.
    - rewrite !length_app. cbn. lia.
    - rewrite length_app. cbn. lia.
    - intros i d' Hd. unfold index_ok. cbn. apply lookup_app_Some in Hd as [Hd|[Hge Hd]].
      + pose proof (lookup_lt_Some _ _ _ Hd). rewrite !lookup_app_l by lia. exact (H4 i d' Hd).
      + apply list_lookup_singleton_Some in Hd as [Hi <-].
        assert (i = length (s_dataOptions s1)) as -> by lia. exists x.
        rewrite <-H1 at 1. rewrite list_lookup_middle by done. split; [done|].
        rewrite lookup_ge_None_2 by lia. cbn. rewrite <-H2, list_lookup_middle by done.
        split; [done|]. intros z Hz. symmetry. by apply Hx.
    - exact H5. }
  destruct shift; [|done]. destruct (s_data s2) as [|[r|] l] eqn:E.
  - destruct (decide (s_dataOptions s2 = [])) as [En|Hne]; [by destruct (s_dataOptions s1)|].
    rewrite <-E, !tail_delete. apply aligned_delete; [done|].
    cbn. rewrite length_app. cbn. lia.
  - by apply removePoint_aligned.
  - rewrite <-E, !tail_delete. apply aligned_delete; [done|]. cbn. rewrite length_app. cbn. lia.
Qed.

Lemma updatePoint_aligned r d s : aligned s -> aligned (updatePoint o r d s).
Proof.
  intros Hal. unfold updatePoint. destruct (s_heap s !! r) as [pt|] eqn:Hr; [|done].
  destruct (applyOptions_spec d None pt s) as (x & a & b & -> & _).
  set (s1 := set_increment a b s). assert (aligned s1) as Hal1 by by apply aligned_increment.
  assert (s_heap s1 !! r = Some pt) as Hr1 by done. clearbody s1. clear s Hal Hr. cbn.
  destruct (list_find _ _) as [[i q]|] eqn:E.
  - apply list_find_Some in E as (Hi & -> & _). destruct Hal1 as [H1 H2 H3 H4 H5].
    pose proof (lookup_lt_Some _ _ _ Hi).
    split; cbn; rewrite ?length_insert; try done.
    intros j d' Hd. unfold index_ok. cbn. destruct (decide (j = i)) as [->|Hne].
    + exists x. rewrite !list_lookup_insert_eq by lia. split; [done|]. rewrite Hi. cbn.
      eexists. by rewrite lookup_insert_eq.
    + rewrite list_lookup_insert_ne in Hd by done. rewrite !list_lookup_insert_ne by done.
      destruct (H4 j d' Hd) as (x' & Hx' & H'). exists x'. split; [done|].
      destruct (s_data s1 !! j) as [[q|]|] eqn:Ej; cbn in *; try done.
      rewrite lookup_insert_ne; [done|]. intros ->. by apply Hne, (H5 _ _ q).
  - apply aligned_heap; [done|]. intros i Hi. apply list_find_None in E.
    rewrite Forall_lookup in E. by apply (E i _ Hi).
Qed.

(** *** Making points *)

Lemma generate_one_spec cursor x last s :
  aligned s -> s_xData s !! cursor = Some x ->
  exists r s', generate_one o cursor x last s = (Some r, s') /\ aligned s' /\
    s_data s' !! cursor = Some (Some r) /\
    s_xData s' = s_xData s /\ s_yData s' = s_yData s /\
    (forall q i, s_data s !! i = Some (Some q) ->
       s_data s' !! i = Some (Some q) /\ s_heap s' !! q = s_heap s !! q).
Proof.
  intros Hal Hx. unfold generate_one.
  destruct (mjoin (s_data s !! cursor)) as [r|] eqn:Er.
  { exists r, s. split_and!; try done. by destruct (s_data s !! cursor) as [[]|]; cbn in Er; simplify_eq. }
  pose proof (lookup_lt_Some _ _ _ Hx) as Hlt. rewrite (al_x s Hal) in Hlt.
  destruct (lookup_lt_is_Some_2 _ _ Hlt) as [d Hd]. rewrite Hd.
  destruct (al_ok s Hal cursor d Hd) as (z & Hz & Hi). rewrite Er in Hi. destruct Hi as [Hy Hdx].
  rewrite Hx in Hz. injection Hz as ->. unfold make_point.
  destruct (applyOptions_spec d (Some z) new_point s) as (x' & a & b & -> & H1 & _ & H2).
  assert (x' = z) as ->.
  { destruct (datum_x d) as [z'|] eqn:E; [rewrite (H1 z' eq_refl); by apply Hdx|by apply H2]. }
  set (s1 := set_increment a b s). set (r := fresh (dom (s_heap s1))).
  assert (s_heap s !! r = None) as Hfr by apply not_elem_of_dom, is_fresh.
  assert (forall i, s_data s !! i <> Some (Some r)) as Hno.
  { intros i Hi. destruct (aligned_ref s i r Hal Hi) as [? Hs]. by rewrite Hfr in Hs. }
  eexists r, _. split; [done|]. cbn. split_and!; try done; [|by rewrite arr_assign_eq|].
  - destruct Hal as [A1 A2 A3 A4 A5]. split; cbn; try done.
    + rewrite length_arr_assign. lia.
    + intros i d' Hd'. unfold index_ok. cbn. destruct (decide (i = cursor)) as [->|Hne].
      * exists z. split; [done|]. rewrite arr_assign_eq. cbn. eexists. by rewrite lookup_insert_eq.
      * rewrite arr_assign_ne by done. destruct (A4 i d' Hd') as (x1 & Hx1 & H'). exists x1.
        split; [done|]. destruct (s_data s !! i) as [[q|]|] eqn:Ei; cbn in *; try done.
        rewrite lookup_insert_ne; [done|]. intros <-. by apply (Hno i).
    + intros i j q Hi Hj. assert (forall k, arr_assign cursor r (s_data s) !! k = Some (Some q) ->
                k <> cursor -> s_data s !! k = Some (Some q)) as Hold.
      { intros k Hk Hne. pose proof (arr_assign_ne cursor k r (s_data s) ltac:(done)) as H.
        rewrite Hk in H. destruct (s_data s !! k) as [[]|]; cbn in H; by simplify_eq. }
      destruct (decide (i = cursor)) as [->|Hni], (decide (j = cursor)) as [->|Hnj]; try done.
      * rewrite arr_assign_eq in Hi. simplify_eq. by destruct (Hno j (Hold j Hj Hnj)).
      * rewrite arr_assign_eq in Hj. simplify_eq. by destruct (Hno i (Hold i Hi Hni)).
      * apply (A5 i j q); auto.
  - intros q i Hq. assert (i <> cursor) as Hne.
    { intros ->. by rewrite Hq in Er. }
    split.
    + pose proof (arr_assign_ne cursor i r (s_data s) ltac:(done)) as H. rewrite Hq in H.
      by destruct (arr_assign cursor r (s_data s) !! i) as [[]|]; cbn in H; simplify_eq.
    + rewrite lookup_insert_ne; [done|]. intros <-. by apply (Hno i).
Qed.

Lemma generate_loop_spec xs c last s :
  aligned s -> (forall i x, xs !! i = Some x -> s_xData s !! (c + i)%nat = Some x) ->
  exists ps s', generate_loop o xs c last s = (ps, s') /\ aligned s' /\
    length ps = length xs /\ s_xData s' = s_xData s /\ s_yData s' = s_yData s /\
    (forall q i, s_data s !! i = Some (Some q) -> s_data s' !! i = Some (Some q)) /\
    (forall i, (i < length xs)%nat -> exists r, ps !! i = Some (Some r) /\
                                               s_data s' !! (c + i)%nat = Some (Some r)).
Proof.
  revert c last s. induction xs as [|x xs IH]; intros c last s Hal Hxs; cbn.
  { eexists _, s. split; [done|]. split_and!; try done. cbn. lia. }
  destruct (generate_one_spec c x last s Hal) as (r & s1 & -> & Hal1 & Hr & Hx1 & Hy1 & Hp1).
  { pose proof (Hxs O x eq_refl) as H. by rewrite Nat.add_0_r in H. }
  destruct (IH (S c) (Some r) s1 Hal1) as (ps & s2 & -> & Hal2 & Hl & Hx2 & Hy2 & Hp2 & Hi2).
  { intros i z Hz. rewrite Hx1, Nat.add_succ_comm. by apply (Hxs (S i)). }
  eexists _, s2. split; [done|]. split_and!; [done|cbn; by rewrite Hl|congruence|congruence| |].
  - intros q i Hq. apply Hp2. by apply (Hp1 q i).
  - intros [|i] Hi.
    + exists r. split; [done|]. rewrite Nat.add_0_r. by apply Hp2.
    + destruct (Hi2 i) as (r' & H1 & H2); [cbn in Hi; lia|]. exists r'. split; [done|].
      by rewrite <-Nat.add_succ_comm.
Qed.

Lemma generate_grouped_aligned xys s :
  aligned s -> aligned (generate_grouped o xys s).2.
Proof.
  revert s. induction xys as [|[x g] xys IH]; intros s Hal; cbn; [done|].
  destruct (make_point _ _ _ s) as [r s1] eqn:E.
  assert (aligned s1) as Hal1.
  { unfold make_point in E. destruct (applyOptions_spec (match x with
      | Some x0 => DPair x0 (match g with GNum y => YNum y | GNull => YNull | GBar o _ _ _ => o end)
      | None => DObj None None end) None new_point s) as (x' & a & b & Heq & _).
    rewrite Heq in E. injection E as <- <-. apply aligned_heap; [by apply aligned_increment|].
    cbn. intros i Hi. destruct (aligned_ref s i _ Hal Hi) as [? Hs].
    assert (s_heap s !! fresh (dom (s_heap s)) = None) as Hn by apply not_elem_of_dom, is_fresh.
    by rewrite Hn in Hs. }
  specialize (IH s1 Hal1). by destruct (generate_grouped o xys s1).
Qed.

(** The part of the x values the loop runs over. *)
Lemma slice_lookup {A} (l : list A) c n i x :
  take n (drop c l) !! i = Some x -> l !! (c + i)%nat = Some x.
Proof. intros H. apply lookup_take_Some in H as [H _]. by rewrite lookup_drop in H. Qed.

Lemma step_aligned s s' : step o s s' -> aligned s -> aligned s'.
Proof.
  intros H Hal. destruct H.
  - by apply addPoint_aligned.
  - by apply updatePoint_aligned.
  - by apply removePoint_aligned.
  - unfold generatePoints.
    destruct (generate_loop_spec (take n (drop c (s_xData s))) c None s Hal) as (ps & s' & -> & H & _).
    { apply slice_lookup. }
    by apply aligned_points.
  - unfold generatePoints. pose proof (generate_grouped_aligned xys s Hal) as H.
    destruct (generate_grouped o xys s) as [ps s']. by apply aligned_points.
Qed.

Lemma plain_points_spec data s :
  let '(xs, ys, s') := plain_points o data s in
  (exists a b, s' = set_increment a b s) /\ length xs = length data /\ length ys = length data /\
  forall i d, data !! i = Some d ->
    exists x, xs !! i = Some (Some x) /\ ys !! i = Some (default YUndef (datum_y d)) /\
              (forall x', datum_x d = Some x' -> x' = x).
Proof.
  revert s. induction data as [|d data IH]; intros s; cbn.
  { split_and!; try done. exists (s_xIncrement s), (s_pointInterval s). by destruct s. }
  destruct (applyOptions_spec d None new_point s) as (x & a & b & -> & Hx & _).
  specialize (IH (set_increment a b s)).
  destruct (plain_points o data (set_increment a b s)) as [[xs ys] s'].
  destruct IH as ((a' & b' & ->) & Hlx & Hly & IH). cbn.
  split_and!; [by eexists _, _|by f_equal|by f_equal|].
  intros [|i] d' Hd; cbn in *; [|by apply IH]. simplify_eq. exists x. split_and!; try done.
  intros x' Hx'. symmetry. by apply Hx.
Qed.

Lemma setData_aligned data s s' :
  Z.of_nat (length data) <= turboThreshold o -> setData o data s = Ok s' -> aligned s'.
Proof.
  intros Hn. unfold setData, data_arrays. rewrite (proj2 (Z.ltb_ge _ _)) by done.
  set (s0 := set_increment None _ s). pose proof (plain_points_spec data s0) as H.
  destruct (plain_points o data s0) as [[xs ys] s1].
  destruct H as ((a & b & ->) & Hx & Hy & H). cbn. intros [= <-]. split; cbn; try done; try lia.
Qed.

(** C6: From the moment its data are set, no more points than the turboThreshold, and
    whatever points are then added (with or without shifting one off the start), updated,
    removed or made, the arrays of a series stay parallel: they have the same length, and
    at every index the x and y values are those of the point there, or of its options as
    long as no point has been made; no point is at two places. *)
Theorem series_stays_aligned data s0 s s' :
  Z.of_nat (length data) <= turboThreshold o -> setData o data s0 = Ok s ->
  rtc (step o) s s' -> aligned s'.
Proof.
  intros Hn Hs Hsteps. apply (setData_aligned data s0 s Hn) in Hs.
  induction Hsteps as [|x y z Hxy Hyz IH]; [done|]. by eapply IH, step_aligned.
Qed.

(** Making the points of a slice of a series, none on grouped data before, gives
    a point for every index of it, with the index' x and y values; points that
    exist are used again. *)
Theorem generatePoints_slice c n s :
  aligned s ->
  let xs := take n (drop c (s_xData s)) in
  let s' := generatePoints o None xs c s in
  length (s_points s') = length xs /\
  forall i, (i < length xs)%nat -> exists r x y,
    s_points s' !! i = Some (Some r) /\ s_heap s' !! r = Some (Point (Some x) y) /\
    s_xData s !! (c + i)%nat = Some (Some x) /\ s_yData s !! (c + i)%nat = Some y /\
    (forall q, s_data s !! (c + i)%nat = Some (Some q) -> q = r).
Proof.
  intros Hal xs. unfold generatePoints.
  destruct (generate_loop_spec xs c None s Hal) as (ps & s' & -> & Hal' & Hl & Hx & Hy & Hp & Hi).
  { apply slice_lookup. }
  split; [done|]. intros i Hlt. destruct (Hi i Hlt) as (r & Hr & Hd).
  destruct (lookup_lt_is_Some_2 (s_dataOptions s') (c + i)) as [d Hdo].
  { apply lookup_lt_Some in Hd. pose proof (al_data s' Hal'). lia. }
  destruct (al_ok s' Hal' _ d Hdo) as (x & Hx' & H'). rewrite Hd in H'. cbn in H'.
  destruct H' as (y & Hh & Hy'). exists r, x, y. rewrite <-Hx, <-Hy. split_and!; try done.
  intros q Hq. apply Hp in Hq. rewrite Hd in Hq. by simplify_eq.
Qed.

End aligned.

(** ** Three numbers *)

Definition demo_series_options : series_options := SeriesOptions (Some 10) (Some 5) 0.
Definition demo_series : series :=
  Series ∅ (Some 25) (Some 5) [Some 10; Some 15; Some 20] [YNum 1%float; YNull; YNum 2%float]
    [DNum 1%float; DNull; DNum 2%float] [] [].

Lemma demo_series_set :
  setData demo_series_options [DNum 1%float; DNull; DNum 2%float] (Series ∅ None None [] [] [] [] [])
  = Ok demo_series.
Proof. reflexivity. Qed.

Lemma series_stays_aligned_witness :
  aligned (removePoint 1 (generatePoints demo_series_options None [Some 10; Some 15; Some 20] 0
             demo_series)).
Proof.
  apply (series_stays_aligned demo_series_options [DNum 1%float; DNull; DNum 2%float]
           (Series ∅ None None [] [] [] [] []) demo_series).
  - vm_compute. discriminate.
  - exact demo_series_set.
  - eapply rtc_l; [exact (step_generate demo_series_options demo_series 0 3)|].
    apply rtc_once, step_remove.
Defined.

Lemma generatePoints_slice_witness :
  length (s_points (generatePoints demo_series_options None [Some 15; Some 20] 1 demo_series)) = 2%nat.
Proof.
  assert (aligned demo_series) as Hal.
  { apply (setData_aligned demo_series_options [DNum 1%float; DNull; DNum 2%float]
             (Series ∅ None None [] [] [] [] [])); [vm_compute; discriminate|exact demo_series_set]. }
  destruct (generatePoints_slice demo_series_options 1 2 demo_series Hal) as [H _]. exact H.
Defined.
