(* ===== verification/HsAxis.v ===== *)
(** * Charts: axes, the tooltip and the range selector

    [highstock.src.js]: [getLinearTickPositions], [setMaxTicks],
    [adjustTickAmount], [adjustForMinRange], [Tooltip.getPosition] and
    [RangeSelector.clickButton].  Ticks, pixels and times are whole numbers, and
    the halves [adjustForMinRange] makes of them rational ones: both are exact in
    JavaScript numbers below 2^52. *)

From Stdlib Require Import QArith Qminmax Lqa.
From S2P Require Import Prelude JsString JsNum JsDate HsTime.
Local Open Scope Z_scope.

(** ** Ticks of a linear axis *)

(** [while (pos <= roundedMax)]; the break on a position that stays the same is
    for intervals too small for the precision, which whole ones are not. *)
Fixpoint linear_loop (fuel : nat) (tickInterval roundedMax pos : Z) (lastPos : option Z)
    (tickPositions : list Z) : option (list Z) :=
  if pos <=? roundedMax then
    match fuel with
    | O => None
    | S fuel' =>
        let tickPositions := tickPositions ++ [pos] in
        let pos := pos + tickInterval in
        if bool_decide (Some pos = lastPos) then Some tickPositions
        else linear_loop fuel' tickInterval roundedMax pos (Some pos) tickPositions
    end
  else Some tickPositions.

(** [mathFloor(min / tickInterval) * tickInterval], and [mathCeil]. *)
Definition rounded_min (tickInterval min : Z) : Z := min / tickInterval * tickInterval.
Definition rounded_max (tickInterval max : Z) : Z := - (- max / tickInterval) * tickInterval.

Definition getLinearTickPositions (fuel : nat) (tickInterval min max : Z) : option (list Z) :=
  linear_loop fuel tickInterval (rounded_max tickInterval max) (rounded_min tickInterval min) None [].

Example getLinearTickPositions_ex :
  getLinearTickPositions 20 5 (-3) 11 = Some [-5; 0; 5; 10; 15].
Proof. reflexivity. Qed.

(** ** The same number of ticks *)

(** What [setMaxTicks] and [adjustTickAmount] read and write of an axis. *)
Record axis := Axis {
  ax_isX : bool;                   (* axis.xOrY *)
  ax_isLinked : bool;
  ax_isDatetimeAxis : bool;
  ax_categories : bool;
  ax_alignTicks : bool;            (* options.alignTicks !== false *)
  ax_tickPositions : list Z;
  ax_tickInterval : Z;
  ax_tickAmount : option nat;
  ax_max : Z;
  ax_transA : num;
  ax_isDirty : bool
}.

(** [chart.maxTicks] *)
Record max_ticks := MaxTicks { mt_x : nat; mt_y : nat }.
Definition mt_get (isX : bool) (m : max_ticks) : nat := if isX then mt_x m else mt_y m.
Definition mt_set (isX : bool) (n : nat) (m : max_ticks) : max_ticks :=
  if isX then MaxTicks n (mt_y m) else MaxTicks (mt_x m) n.

Definition setMaxTicks (a : axis) (maxTicks : option max_ticks) : option max_ticks :=
  let m := default (MaxTicks 0 0) maxTicks in
  if negb (ax_isLinked a) && negb (ax_isDatetimeAxis a)
     && bool_decide (mt_get (ax_isX a) m < length (ax_tickPositions a))%nat && ax_alignTicks a
  then Some (mt_set (ax_isX a) (length (ax_tickPositions a)) m)
  else Some m.

(** [while (tickPositions.length < tickAmount)], [n] times; the last tick of an
    empty list is [undefined], which adds to no number. *)
Fixpoint push_ticks (n : nat) (tickInterval : Z) (tickPositions : list Z) : option (list Z) :=
  match n with
  | O => Some tickPositions
  | S n' => last ← last tickPositions; push_ticks n' tickInterval (tickPositions ++ [last + tickInterval])
  end.

(** Whether an axis takes part. *)
Definition adjusts (a : axis) : bool :=
  negb (ax_isDatetimeAxis a) && negb (ax_categories a) && negb (ax_isLinked a) && ax_alignTicks a.

Definition adjustTickAmount (maxTicks : option max_ticks) (a : axis) : option axis :=
  match maxTicks with
  | Some m =>
      let tickAmount := mt_get (ax_isX a) m in
      if bool_decide (tickAmount <> O) && adjusts a then
        let calculated := length (ax_tickPositions a) in
        let dirty := ax_isDirty a ||
          match ax_tickAmount a with Some old => negb (bool_decide (tickAmount = old)) | None => false end in
        if decide (calculated < tickAmount)%nat then
          ticks ← push_ticks (tickAmount - calculated) (ax_tickInterval a) (ax_tickPositions a);
          Some (Axis (ax_isX a) (ax_isLinked a) (ax_isDatetimeAxis a) (ax_categories a)
                  (ax_alignTicks a) ticks (ax_tickInterval a) (Some tickAmount)
                  (default 0 (last ticks))
                  (ax_transA a * (num_of_Z (Z.of_nat calculated - 1)
                                  / num_of_Z (Z.of_nat tickAmount - 1)))%num dirty)
        else
          Some (Axis (ax_isX a) (ax_isLinked a) (ax_isDatetimeAxis a) (ax_categories a)
                  (ax_alignTicks a) (ax_tickPositions a) (ax_tickInterval a) (Some tickAmount)
                  (ax_max a) (ax_transA a) dirty)
      else Some a
  | None => Some a
  end.

(** ** The smallest range *)

(** [axis.minRange]: not yet known, [null], not a number, or a number. *)
Inductive min_range := MRUndef | MRNull | MRNaN | MR (r : Q).

Definition range_ge (d : Q) (r : min_range) : bool :=
  match r with MRUndef | MRNaN => false | MRNull => Qle_bool 0 d | MR r => Qle_bool r d end.
Definition Qlt_b (x y : Q) : bool := negb (Qle_bool y x).
Definition range_lt (d : Q) (r : min_range) : bool :=
  match r with MRUndef | MRNaN => false | MRNull => Qlt_b d 0 | MR r => Qlt_b d r end.

(** [arrayMin] and [arrayMax] of the two or three bounds. *)
Definition q_min (l : list Q) : Q :=
  match l with [] => 0 | x :: _ => foldr (fun y m => if Qlt_b y m then y else m) x l end.
Definition q_max (l : list Q) : Q :=
  match l with [] => 0 | x :: _ => foldr (fun y m => if Qlt_b m y then y else m) x l end.

(** The x values of a series, and whether it has an [xIncrement] that is true. *)
Definition range_series : Type := bool * list Q.

Record range_axis := RangeAxis {
  ra_isXAxis : bool;
  ra_isLog : bool;
  ra_optMin : option Q;
  ra_optMax : option Q;
  ra_dataMin : Q;
  ra_dataMax : Q;
  ra_minRange : min_range;
  ra_min : Q;
  ra_max : Q;
  ra_series : list range_series
}.

(** [closestDataRange]: [undefined], not a number, or a number. *)
Inductive distance := DUndef | DNaN | D (d : Q).

(** [if (closestDataRange === UNDEFINED || distance < closestDataRange)] *)
Definition closer (d : option Q) (c : distance) : distance :=
  match c, d with
  | DUndef, Some d => D d
  | DUndef, None => DNaN
  | D c, Some d => if Qlt_b d c then D d else D c
  | _, _ => c
  end.

(** The loop over the neighbours of one series, from the last pair. *)
Fixpoint pair_distances (xs : list Q) (i : nat) (c : distance) : distance :=
  match i with
  | O => c
  | S i' =>
      pair_distances xs i'
        (closer (match xs !! i, xs !! i' with Some x, Some y => Some (x - y)%Q | _, _ => None end) c)
  end.

Definition closestDataRange (l : list range_series) : distance :=
  fold_left (fun c (q : range_series) =>
    pair_distances (snd q) (if fst q then 1%nat else (length (snd q) - 1)%nat) c) l DUndef.

(** The automatic minimum range. *)
Definition auto_minRange (a : range_axis) : min_range :=
  match ra_minRange a with
  | MRUndef =>
      if ra_isXAxis a && negb (ra_isLog a) then
        match ra_optMin a, ra_optMax a with
        | None, None =>
            match closestDataRange (ra_series a) with
            | D c => MR (if Qlt_b (ra_dataMax a - ra_dataMin a) (c * 5)
                         then ra_dataMax a - ra_dataMin a else c * 5)%Q
            | _ => MRNaN
            end
        | _, _ => MRNull
        end
      else MRUndef
  | r => r
  end.

(** [arr] or [arr] with the data's bound as a third element. *)
Definition with_bound (space : bool) (b : Q) (l : list Q) : list Q := if space then l ++ [b] else l.

Definition adjusted_range (a : range_axis) (space : bool) (minRange : Q) : Q * Q :=
  let min := ra_min a in
  let max := ra_max a in
  let zoomOffset := ((minRange - max + min) / 2)%Q in
  let min := q_max (with_bound space (ra_dataMin a)
                      [min - zoomOffset; default (min - zoomOffset) (ra_optMin a)])%Q in
  let max := q_min (with_bound space (ra_dataMax a)
                      [min + minRange; default (min + minRange) (ra_optMax a)])%Q in
  if Qlt_b (max - min)%Q minRange then
    (q_max (with_bound space (ra_dataMin a)
              [max - minRange; default (max - minRange) (ra_optMin a)])%Q, max)
  else (min, max).

(** Whether space is available is asked before the automatic range is known. *)
Definition adjustForMinRange (a : range_axis) : min_range * (Q * Q) :=
  let spaceAvailable := range_ge (ra_dataMax a - ra_dataMin a)%Q (ra_minRange a) in
  let r := auto_minRange a in
  (r, if range_lt (ra_max a - ra_min a)%Q r then
        adjusted_range a spaceAvailable (match r with MR r => r | _ => 0%Q end)
      else (ra_min a, ra_max a)).

(** ** The tooltip *)

(** The plot area, the point and the box; [distance] is [pick(options.distance, 12)]. *)
Record tooltip := Tooltip {
  tt_plotLeft : Z; tt_plotTop : Z; tt_plotWidth : Z; tt_plotHeight : Z;
  tt_inverted : bool; tt_distance : Z
}.

Definition getPosition (t : tooltip) (boxWidth boxHeight pointX pointY : Z) : Z * Z :=
  let x := pointX + tt_plotLeft t + (if tt_inverted t then tt_distance t else - boxWidth - tt_distance t) in
  let y := pointY - boxHeight + tt_plotTop t + 15 in
  let x := if x <? 7 then tt_plotLeft t + pointX + tt_distance t else x in
  let '(x, y, alignedRight) :=
    if tt_plotLeft t + tt_plotWidth t <? x + boxWidth then
      (x - ((x + boxWidth) - (tt_plotLeft t + tt_plotWidth t)),
       pointY - boxHeight + tt_plotTop t - tt_distance t, true)
    else (x, y, false) in
  let y :=
    if y <? tt_plotTop t + 5 then
      let y := tt_plotTop t + 5 in
      if alignedRight && (y <=? pointY) && (pointY <=? y + boxHeight) then
        pointY + tt_plotTop t + tt_distance t
      else y
    else y in
  let y :=
    if tt_plotTop t + tt_plotHeight t <? y + boxHeight then
      Z.max (tt_plotTop t) (tt_plotTop t + tt_plotHeight t - boxHeight - tt_distance t)
    else y in
  (x, y).

(** ** The range selector *)

Inductive range_type :=
| RMillisecond | RSecond | RMinute | RHour | RDay | RWeek | RMonth | RYtd | RYear | RAll.

Definition fixedTimes (ty : range_type) : option Z :=
  match ty with
  | RMillisecond => Some 1
  | RSecond => Some 1000
  | RMinute => Some (60 * 1000)
  | RHour => Some (3600 * 1000)
  | RDay => Some (24 * 3600 * 1000)
  | RWeek => Some (7 * 24 * 3600 * 1000)
  | _ => None
  end.

(** The new extremes when a button is clicked on a chart with an axis: [dataMin]
    and [dataMax] are those of the axis and the navigator together, [max] is the
    axis' maximum.  Dates are taken in UTC. *)
Definition button_extremes (ty : range_type) (count dataMin dataMax max : Z) : Z * Z :=
  let newMax := Z.min max dataMax in
  match fixedTimes ty with
  | Some u => (Z.max (newMax - u * count) dataMin, newMax)
  | None =>
      match ty with
      | RMonth => (Z.max (setUTCMonth (getUTCMonth newMax - count) newMax) dataMin, newMax)
      | RYtd =>
          let year := getUTCFullYear dataMax in
          (Z.max dataMin (setUTCFullYear year 0), dataMax)
      | RYear => (Z.max dataMin (setUTCFullYear (getUTCFullYear newMax - count) newMax), newMax)
      | _ => (dataMin, dataMax)
      end
  end.

(** [clickButton]: the selected button and the extremes, or nothing for the button
    that is selected already. *)
Definition clickButton (selected : option nat) (i : nat) (ty : range_type)
    (count baseDataMin baseDataMax : Z) (navDataMin navDataMax : option Z) (max : Z)
    : option (nat * (Z * Z)) :=
  if bool_decide (Some i = selected) then None
  else
    let dataMin := Z.min baseDataMin (default baseDataMin navDataMin) in
    let dataMax := Z.max baseDataMax (default baseDataMax navDataMax) in
    Some (i, button_extremes ty count dataMin dataMax max).

(** ** The ticks cover the axis *)

Lemma linear_loop_spec t m fuel pos lastPos acc :
  0 < t -> lastPos <> Some (pos + t) -> (m < fuel)%nat ->
  linear_loop fuel t (pos + Z.of_nat m * t) pos lastPos acc
  = Some (acc ++ map (fun k => pos + Z.of_nat k * t) (seq 0 (S m))).
Proof.
  intros Ht. revert fuel pos lastPos acc. induction m as [|m IH]; intros [|fuel] pos lp acc Hlp Hf; try lia.
  - cbn [linear_loop]. rewrite (proj2 (Z.leb_le _ _)) by lia.
    rewrite bool_decide_eq_false_2 by congruence.
    destruct fuel; cbn [linear_loop]; rewrite (proj2 (Z.leb_gt _ _)) by lia; cbn [seq map];
      by rewrite Z.mul_0_l, Z.add_0_r.
  - cbn [linear_loop]. rewrite (proj2 (Z.leb_le _ _)) by lia.
    rewrite bool_decide_eq_false_2 by congruence.
    replace (pos + Z.of_nat (S m) * t) with (pos + t + Z.of_nat m * t) by lia.
    rewrite IH; [|intros [=]; lia|lia]. f_equal. rewrite <-app_assoc. f_equal.
    change (seq 0 (S (S m))) with (0%nat :: seq 1 (S m)). cbn [map app]. rewrite Z.mul_0_l, Z.add_0_r. f_equal. rewrite <-seq_shift, map_map.
    apply map_ext. intros k. lia.
Qed.

(** The ticks of a linear axis are multiples of the interval, one after the
    other, from the last one not above the minimum to the first one not below the
    maximum; with fuel for the range the loop returns. *)
Theorem getLinearTickPositions_covers fuel t min max :
  0 < t -> min <= max -> (Z.to_nat ((max - min) / t) + 3 <= fuel)%nat ->
  exists n, let start := min / t * t in
    getLinearTickPositions fuel t min max = Some (map (fun k => start + Z.of_nat k * t) (seq 0 (S n))) /\
    start <= min < start + t /\
    max <= start + Z.of_nat n * t < max + t.
Proof.
  intros Ht Hmm Hf. unfold getLinearTickPositions, rounded_max, rounded_min.
  pose proof (Z.div_mod min t ltac:(lia)). pose proof (Z.mod_pos_bound min t Ht).
  pose proof (Z.div_mod (- max) t ltac:(lia)). pose proof (Z.mod_pos_bound (- max) t Ht).
  pose proof (Z.div_mod (max - min) t ltac:(lia)). pose proof (Z.mod_pos_bound (max - min) t Ht).
  set (a := min / t) in *. set (b := - max / t) in *. set (c := (max - min) / t) in *.
  assert (0 <= - b - a <= c + 2) as Hn by nia.
  exists (Z.to_nat (- b - a)). cbv zeta.
  assert (Z.of_nat (Z.to_nat (- b - a)) = - b - a) as En by lia.
  replace (- b * t) with (a * t + Z.of_nat (Z.to_nat (- b - a)) * t) by (rewrite En; ring).
  rewrite linear_loop_spec; [|done|done|assert (0 <= c) by nia; lia].
  split; [done|]. rewrite En. nia.
Qed.

Lemma getLinearTickPositions_covers_witness :
  exists n, getLinearTickPositions 6 5 (-3) 11 = Some (map (fun k => -5 + Z.of_nat k * 5) (seq 0 (S n))).
Proof.
  destruct (getLinearTickPositions_covers 6 5 (-3) 11) as (n & H & _).
  - lia.
  - lia.
  - vm_compute. lia.
  - exists n. exact H.
Defined.

(** ** Axes that share a direction get the same number of ticks *)

Definition counts (a : axis) : bool :=
  negb (ax_isLinked a) && negb (ax_isDatetimeAxis a) && ax_alignTicks a.

Definition mt_max (isX : bool) (m : option max_ticks) : nat := mt_get isX (default (MaxTicks 0 0) m).

Lemma setMaxTicks_max isX a m :
  mt_max isX (setMaxTicks a m)
  = if counts a && Bool.eqb isX (ax_isX a) then Nat.max (mt_max isX m) (length (ax_tickPositions a))
    else mt_max isX m.
Proof.
  unfold setMaxTicks, mt_max, counts. destruct (default (MaxTicks 0 0) m) as [nx ny].
  destruct (ax_isLinked a), (ax_isDatetimeAxis a), (ax_alignTicks a); cbn; rewrite ?andb_false_r; cbn; try done.
  all: destruct isX, (ax_isX a); cbn; case_bool_decide; cbn; lia.
Qed.

Lemma setMaxTicks_fold isX axes m a :
  a ∈ axes -> counts a = true -> ax_isX a = isX ->
  (length (ax_tickPositions a) <= mt_max isX (fold_left (fun m a => setMaxTicks a m) axes m))%nat.
Proof.
  assert (forall l m', (mt_max isX m' <= mt_max isX (fold_left (fun m a => setMaxTicks a m) l m'))%nat) as Hmono.
  { induction l as [|b l IH]; intros m'; cbn; [done|]. etrans; [|apply IH].
    rewrite setMaxTicks_max. case_match; lia. }
  intros Hin Hc Hx. apply list_elem_of_split in Hin as (l1 & l2 & ->).
  rewrite fold_left_app. cbn. etrans; [|apply Hmono].
  rewrite setMaxTicks_max, Hc, Hx, Bool.eqb_reflx. cbn. lia.
Qed.

Lemma push_ticks_spec n t l x :
  last l = Some x ->
  push_ticks n t l = Some (l ++ map (fun k => x + Z.of_nat k * t) (seq 1 n)).
Proof.
  revert l x. induction n as [|n IH]; intros l x Hl; cbn [push_ticks].
  { by rewrite app_nil_r. }
  rewrite Hl. cbn [mbind option_bind]. rewrite (IH _ (x + t)) by apply last_snoc.
  rewrite <-app_assoc. f_equal. f_equal. cbn [seq map app]. f_equal; [lia|].
  rewrite <-(seq_shift n 1), map_map. apply map_ext. intros k. lia.
Qed.

(** After [setMaxTicks] of every axis, [adjustTickAmount] gives all the axes of a
    direction that take part the same number of ticks, by adding ticks at the
    axis' interval after those it had; the axis then ends at its last tick. *)
Theorem adjustTickAmount_same axes a :
  let m := fold_left (fun m a => setMaxTicks a m) axes None in
  a ∈ axes -> adjusts a = true -> ax_tickPositions a <> [] ->
  exists a' x k, adjustTickAmount m a = Some a' /\
    length (ax_tickPositions a') = mt_max (ax_isX a) m /\
    last (ax_tickPositions a) = Some x /\
    ax_tickPositions a' = ax_tickPositions a ++ map (fun k => x + Z.of_nat k * ax_tickInterval a) (seq 1 k) /\
    (k <> O -> Some (ax_max a') = last (ax_tickPositions a')).
Proof.
  intros m Hin Had Hne.
  assert (counts a = true) as Hc.
  { unfold adjusts in Had. unfold counts. destruct (ax_isLinked a), (ax_isDatetimeAxis a), (ax_alignTicks a);
      rewrite ?andb_false_r in Had; done. }
  pose proof (setMaxTicks_fold (ax_isX a) axes None a Hin Hc eq_refl) as Hle. fold m in Hle. clearbody m.
  destruct (last (ax_tickPositions a)) as [x|] eqn:Hx; [|by apply last_None in Hx].
  assert (0 < length (ax_tickPositions a))%nat by (destruct (ax_tickPositions a); [done|cbn; lia]).
  unfold mt_max in Hle. destruct m as [m'|]; cbn in Hle; [|destruct (ax_isX a); cbn in Hle; lia].
  unfold adjustTickAmount. rewrite bool_decide_eq_true_2 by lia. rewrite Had. cbn [andb].
  case_decide as Hlt.
  - rewrite (push_ticks_spec _ _ _ x) by done. cbn [mbind option_bind].
    eexists _, x, _. split; [done|]. cbn [ax_tickPositions ax_max].
    split_and!; [|done|done|].
    + rewrite length_app, length_map, length_seq. unfold mt_max. cbn. lia.
    + intros _. set (l := _ ++ _). destruct (last l) as [z|] eqn:El; [done|].
      apply last_None in El. subst l. by destruct (ax_tickPositions a).
  - eexists _, x, O. split; [done|]. cbn [ax_tickPositions]. split_and!; [|done|by rewrite app_nil_r|done].
    unfold mt_max. cbn. lia.
Qed.

Definition demo_axis (l : list Z) : axis :=
  Axis false false false false true l 5 None 10 1%float false.

Lemma adjustTickAmount_same_witness :
  exists a', adjustTickAmount (Some (MaxTicks 0 4)) (demo_axis [0; 5]) = Some a' /\
    length (ax_tickPositions a') = 4%nat.
Proof.
  destruct (adjustTickAmount_same [demo_axis [0; 5]; demo_axis [0; 5; 10; 15]] (demo_axis [0; 5]))
    as (a' & x & k & H & Hl & _).
  - by constructor.
  - reflexivity.
  - discriminate.
  - exists a'. split; [exact H|exact Hl].
Defined.

(** ** The smallest range holds *)

Lemma eq_Qeq (x y : Q) : x = y -> (x == y)%Q.
Proof. by intros ->. Qed.

Lemma Qlt_b_spec x y : Qlt_b x y = true <-> (x < y)%Q.
Proof.
  unfold Qlt_b. rewrite negb_true_iff, <-not_true_iff_false, Qle_bool_iff. split.
  - intros H. by apply Qnot_le_lt.
  - intros H H'. by apply (Qlt_not_le x y).
Qed.

Lemma Qlt_b_false x y : Qlt_b x y = false <-> (y <= x)%Q.
Proof. unfold Qlt_b. by rewrite negb_false_iff, Qle_bool_iff. Qed.

Lemma q_max_ge l x : In x l -> (x <= q_max l)%Q.
Proof.
  destruct l as [|y l]; [done|]. unfold q_max. generalize (y :: l). intros l'. generalize y. intros z.
  induction l' as [|w l' IH]; cbn; [done|]. intros [->|Hx].
  - case_match eqn:E; [lra|]. by apply Qlt_b_false in E.
  - apply IH in Hx. case_match eqn:E; [apply Qlt_b_spec in E; lra|done].
Qed.

Lemma q_max_in x l : In (q_max (x :: l)) (x :: l).
Proof.
  unfold q_max. assert (forall l', incl l' (x :: l) ->
    In (foldr (fun y m => if Qlt_b m y then y else m) x l') (x :: l)) as H.
  { induction l' as [|w l' IH]; intros Hi; cbn; [by left|].
    case_match; [apply Hi; by left|]. apply IH. intros z Hz. apply Hi. by right. }
  apply H, incl_refl.
Qed.

Lemma q_min_le l x : In x l -> (q_min l <= x)%Q.
Proof.
  destruct l as [|y l]; [done|]. unfold q_min. generalize (y :: l). intros l'. generalize y. intros z.
  induction l' as [|w l' IH]; cbn; [done|]. intros [->|Hx].
  - case_match eqn:E; [lra|]. by apply Qlt_b_false in E.
  - apply IH in Hx. case_match eqn:E; [apply Qlt_b_spec in E; lra|done].
Qed.

Lemma q_min_in x l : In (q_min (x :: l)) (x :: l).
Proof.
  unfold q_min. assert (forall l', incl l' (x :: l) ->
    In (foldr (fun y m => if Qlt_b y m then y else m) x l') (x :: l)) as H.
  { induction l' as [|w l' IH]; intros Hi; cbn; [by left|].
    case_match; [apply Hi; by left|]. apply IH. intros z Hz. apply Hi. by right. }
  apply H, incl_refl.
Qed.

(** The greatest of a bound given by an option, a value, and the data's bound. *)
Lemma bounded_max space b x o :
  let m := q_max (with_bound space b [x; default x o]) in
  (x <= m)%Q /\ (forall q, o = Some q -> (q <= m)%Q) /\ (space = true -> (b <= m)%Q) /\
  (m = x \/ o = Some m \/ (space = true /\ m = b)).
Proof.
  intros m. unfold m.
  assert (forall z, In z (with_bound space b [x; default x o]) <->
            z = x \/ z = default x o \/ (space = true /\ z = b)) as Hin.
  { intros z. destruct space; cbn; naive_solver. }
  pose proof (q_max_in x (match with_bound space b [x; default x o] with _ :: l => l | [] => [] end)) as Hm.
  replace (x :: _) with (with_bound space b [x; default x o]) in Hm by by destruct space.
  split_and!; [apply q_max_ge, Hin; auto| |intros ->; apply q_max_ge, Hin; auto|].
  - intros q ->. apply q_max_ge, Hin. auto.
  - apply Hin in Hm as [Hm|[Hm|Hm]]; auto. destruct o; [right; left; f_equal; symmetry; exact Hm|auto].
Qed.

Lemma bounded_min space b x o :
  let m := q_min (with_bound space b [x; default x o]) in
  (m <= x)%Q /\ (forall q, o = Some q -> (m <= q)%Q) /\ (space = true -> (m <= b)%Q) /\
  (m = x \/ o = Some m \/ (space = true /\ m = b)).
Proof.
  intros m. unfold m.
  assert (forall z, In z (with_bound space b [x; default x o]) <->
            z = x \/ z = default x o \/ (space = true /\ z = b)) as Hin.
  { intros z. destruct space; cbn; naive_solver. }
  pose proof (q_min_in x (match with_bound space b [x; default x o] with _ :: l => l | [] => [] end)) as Hm.
  replace (x :: _) with (with_bound space b [x; default x o]) in Hm by by destruct space.
  split_and!; [apply q_min_le, Hin; auto| |intros ->; apply q_min_le, Hin; auto|].
  - intros q ->. apply q_min_le, Hin. auto.
  - apply Hin in Hm as [Hm|[Hm|Hm]]; auto. destruct o; [right; left; f_equal; symmetry; exact Hm|auto].
Qed.

(** An axis that shows less than its smallest range is widened: never beyond the
    minimum and maximum its options give, nor, when the data have room for the
    range, beyond the data; never to more than the range, and to exactly the
    range when the options give no bounds. *)
Theorem adjustForMinRange_widens a r :
  ra_minRange a = MR r -> (ra_max a - ra_min a < r)%Q ->
  let '(_, (min, max)) := adjustForMinRange a in
  (max - min <= r)%Q /\
  (forall q, ra_optMin a = Some q -> (q <= min)%Q) /\
  (forall q, ra_optMax a = Some q -> (max <= q)%Q) /\
  ((r <= ra_dataMax a - ra_dataMin a)%Q -> (ra_dataMin a <= min)%Q /\ (max <= ra_dataMax a)%Q) /\
  (ra_optMin a = None -> ra_optMax a = None -> (max - min == r)%Q).
Proof.
  intros Hr Hlt. unfold adjustForMinRange, auto_minRange. rewrite Hr. cbn [range_lt range_ge].
  rewrite (proj2 (Qlt_b_spec _ _) Hlt). unfold adjusted_range.
  set (space := Qle_bool r _).
  assert (space = true <-> (r <= ra_dataMax a - ra_dataMin a)%Q) as Hsp by apply Qle_bool_iff.
  clearbody space.
  set (zo := ((r - ra_max a + ra_min a) / 2)%Q).
  pose proof (bounded_max space (ra_dataMin a) (ra_min a - zo) (ra_optMin a)) as H1.
  set (min1 := q_max _) in *. cbn zeta in H1. destruct H1 as (H1 & H2 & H3 & H4).
  pose proof (bounded_min space (ra_dataMax a) (min1 + r) (ra_optMax a)) as H5.
  set (max1 := q_min _) in *. cbn zeta in H5. destruct H5 as (H5 & H6 & H7 & H8).
  destruct (Qlt_b (max1 - min1) r) eqn:E.
  - apply Qlt_b_spec in E.
    pose proof (bounded_max space (ra_dataMin a) (max1 - r) (ra_optMin a)) as H9.
    set (min2 := q_max _) in *. cbn zeta in H9. destruct H9 as (H9 & H10 & H11 & H12).
    split_and!; [lra|done|done|intros Hs; apply Hsp in Hs; auto|].
    intros Ho1 Ho2. rewrite Ho1, Ho2 in *.
    destruct H12 as [Em|[?|[Hs Em]]]; [apply eq_Qeq in Em; lra|done|].
    destruct H8 as [Hm|[?|[_ Hm]]]; [apply eq_Qeq in Hm; lra|done|].
    apply Hsp in Hs. apply eq_Qeq in Em, Hm. lra.
  - apply Qlt_b_false in E.
    split_and!; [lra|done|done|intros Hs; apply Hsp in Hs; auto|]. intros _ _. lra.
Qed.

Lemma adjustForMinRange_widens_witness :
  let '(_, (min, max)) := adjustForMinRange (RangeAxis true false None None 0 100 (MR 20) 90 100 []) in
  (max - min == 20)%Q /\ (max <= 100)%Q.
Proof.
  pose proof (adjustForMinRange_widens (RangeAxis true false None None 0 100 (MR 20) 90 100 []) 20
                eq_refl ltac:(cbn; lra)) as H.
  destruct (adjustForMinRange _) as [r [min max]]. destruct H as (_ & _ & _ & H1 & H2).
  split; [by apply H2|]. apply H1. cbn. lra.
Defined.

(** The automatic range is not known yet when the space for it is looked at: the
    first time the window may go beyond the data. *)
Example adjustForMinRange_first :
  let '(r, (min, max)) := adjustForMinRange
    (RangeAxis true false None None 0 100 MRUndef 98 100 [(false, [0; 10; 20; 100]%Q)]) in
  r = MR (10 * 5) /\ (max == 124)%Q.
Proof. vm_compute. done. Qed.

(** ** The tooltip stays in sight *)

(** The tooltip's box ends at the right edge of the plot area at the latest and
    starts below its top; if it fits into the plot area it also ends within it,
    and starts at its left edge or, next to the chart's own edge, seven pixels
    from that. *)
Theorem getPosition_inside t boxWidth boxHeight pointX pointY :
  0 <= tt_distance t -> 0 <= boxHeight -> 0 <= pointX -> 0 <= tt_plotTop t ->
  let '(x, y) := getPosition t boxWidth boxHeight pointX pointY in
  x + boxWidth <= tt_plotLeft t + tt_plotWidth t /\
  tt_plotTop t <= y /\
  (boxWidth <= tt_plotWidth t -> Z.min 7 (tt_plotLeft t) <= x) /\
  (boxHeight + tt_distance t <= tt_plotHeight t -> y + boxHeight <= tt_plotTop t + tt_plotHeight t).
Proof.
  intros Hd Hb Hx Ht. unfold getPosition. cbv zeta.
  set (x0 := pointX + tt_plotLeft t + (if tt_inverted t then _ else _)). clearbody x0.
  set (x1 := if x0 <? 7 then _ else _).
  assert (Z.min 7 (tt_plotLeft t) <= x1) as Hx1.
  { unfold x1. destruct (x0 <? 7) eqn:E; lia. }
  clearbody x1.
  destruct (tt_plotLeft t + tt_plotWidth t <? x1 + boxWidth) eqn:E1.
  all: cbn [andb]; repeat match goal with |- context [if ?c then _ else _] => destruct c eqn:? end; zbool; lia.
Qed.

Lemma getPosition_inside_witness :
  (getPosition (Tooltip 50 10 400 300 false 12) 120 40 395 20).1 + 120 <= 450.
Proof.
  pose proof (getPosition_inside (Tooltip 50 10 400 300 false 12) 120 40 395 20
                ltac:(cbn; lia) ltac:(lia) ltac:(lia) ltac:(cbn; lia)) as H.
  destruct (getPosition _ _ _ _ _) as [x y]. destruct H as (H & _). exact H.
Defined.

(** ** The range selector stays in the data *)

(** Going back by months, or years, keeps the day of the month and its time. *)
Lemma earlier_date y m t :
  12 * y + m <= 12 * getUTCFullYear t + getUTCMonth t ->
  MakeDate (MakeDay y m (getUTCDate t)) (TimeWithinDay t) <= t.
Proof.
  intros Hn. transitivity (MakeDate (Day t) (TimeWithinDay t)); [|by rewrite MakeDate_Day].
  unfold MakeDate. apply Z.add_le_mono_r, Z.mul_le_mono_nonneg_r; [done|].
  transitivity (MakeDay (getUTCFullYear t) (getUTCMonth t) (getUTCDate t)); [|unfold getUTCFullYear, getUTCMonth, getUTCDate; by rewrite MakeDay_id].
  rewrite (MakeDay_date y m _ 1), (MakeDay_date _ (getUTCMonth t) (getUTCDate t) 1), !MonthStart_def.
  pose proof (MonthStart_le _ _ Hn). lia.
Qed.

(** The first moment of a year. *)
Lemma year_start t : setUTCFullYear (getUTCFullYear t) 0 <= t.
Proof.
  transitivity (MakeDate (Day t) (TimeWithinDay t)); [|by rewrite MakeDate_Day].
  unfold setUTCFullYear, MakeDate. change (TimeWithinDay 0) with 0. rewrite Z.add_0_r.
  pose proof (TimeWithinDay_bounds t).
  enough (MakeDay (getUTCFullYear t) (getUTCMonth 0) (getUTCDate 0) <= Day t) by (unfold msPerDay in *; lia).
  change (getUTCMonth 0) with 0. change (getUTCDate 0) with 1.
  transitivity (MakeDay (getUTCFullYear t) (getUTCMonth t) (getUTCDate t)); [|unfold getUTCFullYear, getUTCMonth, getUTCDate; by rewrite MakeDay_id].
  rewrite (MakeDay_date _ (getUTCMonth t) (getUTCDate t) 1), !MonthStart_def.
  pose proof (MonthFromDay_bounds (Day t)) as Hm. fold (getUTCMonth t) in Hm.
  pose proof (DateFromDay_bounds (Day t)) as Hd. fold (getUTCDate t) in Hd.
  pose proof (MonthStart_le (12 * getUTCFullYear t + 0) (12 * getUTCFullYear t + getUTCMonth t)). lia.
Qed.

(** Every button of the range selector asks for a range that starts before it
    ends and lies within the data of the axis and the navigator. *)
Theorem clickButton_within selected i ty count bmin bmax nmin nmax max j newMin newMax :
  0 <= count -> bmin <= bmax -> bmin <= max ->
  clickButton selected i ty count bmin bmax nmin nmax max = Some (j, (newMin, newMax)) ->
  Z.min bmin (default bmin nmin) <= newMin <= newMax /\
  newMax <= Z.max bmax (default bmax nmax).
Proof.
  intros Hc Hb Hm. unfold clickButton. case_bool_decide; [done|].
  set (dmin := Z.min bmin _). set (dmax := Z.max bmax _).
  assert (dmin <= bmin) by lia. assert (bmax <= dmax) by lia. clearbody dmin dmax.
  assert (dmin <= Z.min max dmax) by lia. intros [= _ Heq]. revert Heq. unfold button_extremes.
  pose proof (earlier_date (getUTCFullYear (Z.min max dmax)) (getUTCMonth (Z.min max dmax) - count)
                (Z.min max dmax) ltac:(lia)) as Hmonth.
  pose proof (earlier_date (getUTCFullYear (Z.min max dmax) - count) (getUTCMonth (Z.min max dmax))
                (Z.min max dmax) ltac:(lia)) as Hyear.
  pose proof (year_start dmax) as Hstart.
  destruct ty; cbn [fixedTimes]; intros [= <- <-]; try lia.
  all: unfold setUTCMonth, setUTCFullYear in *; lia.
Qed.

(** A month back from the end of March 2014, from the 31st to the 3rd. *)
Lemma clickButton_within_witness :
  exists newMin, clickButton None 0 RMonth 1 0 1396224000000 None None 1396224000000
                 = Some (0%nat, (newMin, 1396224000000)) /\ 0 <= newMin <= 1396224000000.
Proof.
  exists 1393804800000. split; [vm_compute; reflexivity|].
  apply (clickButton_within None 0 RMonth 1 0 1396224000000 None None 1396224000000 0
           1393804800000 1396224000000); [lia|lia|lia|vm_compute; reflexivity].
Defined.
