(* ===== verification/HsOrdinal.v ===== *)
(** * Charts: the ordinal axis

    [highstock.src.js], the extension of the x axis that leaves no room for the
    times without data: [beforeSetTickPositions], [val2lin], [lin2val],
    [getGroupIntervalFactor], [postProcessTickInterval], [getNonLinearTimeTicks]
    and [chart.pan].  Times are whole numbers and what is interpolated between them
    rational ones; a quotient by zero is a value of its own. *)

From Stdlib Require Import QArith Qminmax Qabs Lqa Qround.
From stdpp Require Import sorting.
From S2P Require Import Prelude JsString JsNum JsDate HsTime.
Local Open Scope list_scope.
Local Open Scope Z_scope.

(** ** Positions *)

(** [positions[i]], for an index in the array. *)
Definition at_ (l : list Z) (i : nat) : Z := nth i l 0.

(** [while (i--)] from [i]: a position equal to the next one is taken out. *)
Fixpoint dedupe_from (i : nat) (l : list Z) : list Z :=
  match i with
  | O => l
  | S i' => dedupe_from i'
              (if bool_decide (l !! i' = l !! S i') then splice (Z.of_nat i') 1 [] l else l)
  end.

(** What the axis reads of a series. *)
Record ordinal_series := OrdinalSeries {
  os_visible : bool;                 (* series.visible !== false *)
  os_processedXData : list Z
}.

(** The loop over the series, the [i]-th first; only from the second one on are the
    positions sorted and without duplicates. *)
Fixpoint collect (i : nat) (positions : list Z) (series : list ordinal_series) : list Z :=
  match series with
  | [] => positions
  | s :: rest =>
      collect (S i)
        (if os_visible s then
           let l := (positions ++ os_processedXData s)%list in
           if negb (i =? 0)%nat && negb (length l =? 0)%nat then
             let l := merge_sort Z.le l in dedupe_from (length l - 1) l
           else l
         else positions) rest
  end.

(** [while (i-- && !useOrdinal)]: whether some distance differs from the first. *)
Fixpoint uneven (i : nat) (dist : Z) (l : list Z) : bool :=
  match i with
  | O => false
  | S i' => if at_ l (S i') - at_ l i' =? dist then uneven i' dist l else true
  end.

Definition useOrdinal (l : list Z) : bool :=
  (2 <? length l)%nat && uneven (length l - 1) (at_ l 1 - at_ l 0) l.

(** ** From values to indices

    An index: none, a number, or what a quotient by zero gives. *)
Inductive index := NoIndex | BadIndex | Index (q : Q).

(** The exact match, from the end. *)
Fixpoint exact_match (i : nat) (val : Q) (l : list Z) : index :=
  match i with
  | O => NoIndex
  | S i' => if Qeq_bool (inject_Z (at_ l i')) val then Index (inject_Z (Z.of_nat i'))
            else exact_match i' val l
  end.

(** The place to interpolate at: the last position but one that is smaller, or the
    first. *)
Fixpoint place_of (i : nat) (val : Q) (l : list Z) : option nat :=
  match i with
  | O => None
  | S i' => if negb (Qle_bool val (inject_Z (at_ l i'))) || (i' =? 0)%nat then Some i'
            else place_of i' val l
  end.

Definition gap (l : list Z) (i : nat) : Q := inject_Z (at_ l (S i) - at_ l i).

Definition interpolated (l : list Z) (val : Q) (i : nat) : Q :=
  inject_Z (Z.of_nat i) + (val - inject_Z (at_ l i)) / gap l i.

(** [val2lin(val, true)]: the exact match is looked for, and overwritten whenever
    there are two positions.  An axis has three at least ([useOrdinal]). *)
Definition val2index (l : list Z) (val : Q) : index :=
  match place_of (length l - 1) val l with
  | None => exact_match (length l) val l
  | Some i => if at_ l (S i) =? at_ l i then BadIndex else Index (interpolated l val i)
  end.

(** ** The axis *)

(** [ordinalPositions], and the slope and offset, unless they are not finite. *)
Record ordinal := Ordinal {
  ordinalPositions : list Z;
  ordinalScale : option (Q * Q)
}.

Definition ordinal_scale (l : list Z) (min max : Q) : option (Q * Q) :=
  match val2index l min, val2index l max with
  | Index minIndex, Index maxIndex =>
      if Qeq_bool maxIndex minIndex then None
      else let slope := ((max - min) / (maxIndex - minIndex))%Q in
           Some (slope, min - minIndex * slope)%Q
  | _, _ => None
  end.

(** [beforeSetTickPositions]; [None] clears what the axis had. *)
Definition beforeSetTickPositions (series : list ordinal_series) (min max : Q) : option ordinal :=
  let l := collect 0 [] series in
  if useOrdinal l then Some (Ordinal l (ordinal_scale l min max)) else None.

(** [val2lin(val)]; [None] is not a finite number. *)
Definition val2lin (o : option ordinal) (val : Q) : option Q :=
  match o with
  | None => Some val
  | Some o =>
      '(slope, offset) ← ordinalScale o;
      match val2index (ordinalPositions o) val with
      | Index q => Some (slope * q + offset)%Q
      | NoIndex => Some (slope * 0 + offset)%Q
      | BadIndex => None
      end
  end.

(** The loop of [lin2val] down from [i]: the place whose linear equivalent is not
    above the value. *)
Fixpoint place_back (i : nat) (slope offset val : Q) : option nat :=
  match i with
  | O => None
  | S i' => if Qle_bool (slope * inject_Z (Z.of_nat i') + offset) val then Some i'
            else place_back i' slope offset val
  end.

(** [positions[i] + (distance ? distance * (positions[i + 1] - positions[i]) : 0)]. *)
Definition between (l : list Z) (i : nat) (distance : Q) : Q :=
  inject_Z (at_ l i) + (if Qeq_bool distance 0 then 0 else distance * gap l i).

(** [lin2val(val)]. *)
Definition lin2val (o : option ordinal) (val : Q) : option Q :=
  match o with
  | None => Some val
  | Some o =>
      let l := ordinalPositions o in
      '(slope, offset) ← ordinalScale o;
      match place_back (length l - 1) slope offset val with
      | None => Some val
      | Some i =>
          let left := (slope * inject_Z (Z.of_nat i) + offset)%Q in
          let right := (slope * inject_Z (Z.of_nat i + 1) + offset)%Q in
          if Qeq_bool right left then
            if Qeq_bool val left then Some (inject_Z (at_ l i)) else None
          else Some (between l i ((val - left) / (right - left)))
      end
  end.

(** [lin2val(val, true)], used in panning. *)
Definition index2val (l : list Z) (val : Q) : Q :=
  let last := Z.of_nat (length l) - 1 in
  if negb (Qle_bool 0 val) then inject_Z (at_ l 0)
  else if negb (Qle_bool val (inject_Z last)) then inject_Z (at_ l (Z.to_nat last))
  else let i := Qfloor val in between l (Z.to_nat i) (val - inject_Z i).

Definition demo_positions : list Z := [0; 10; 20; 100; 110].
Definition demo_ordinal : option ordinal :=
  beforeSetTickPositions [OrdinalSeries true demo_positions] 0 110.

Example ordinal_ex :
  (Qred <$> val2lin demo_ordinal 0) = Some 0%Q /\
  (Qred <$> val2lin demo_ordinal 20) = Some (55 # 1)%Q /\
  (Qred <$> val2lin demo_ordinal 60) = Some (275 # 4)%Q /\
  (Qred <$> lin2val demo_ordinal (275 # 4)) = Some (60 # 1)%Q /\
  (Qred (index2val demo_positions (5 # 2))) = (60 # 1)%Q.
Proof. vm_compute. done. Qed.

(** ** Grouping and tick intervals *)

(** [getGroupIntervalFactor]; [None] is not a finite number: the median of the
    distances is read one place too far when there are two points, and a range may
    be empty. *)
Definition distances (xs : list Z) : list Z :=
  match xs with [] => [] | x :: xs' => zip_with (fun a b => b - a) xs xs' end.
Definition getGroupIntervalFactor (xMin xMax : Q) (processedXData : list Z) : option Q :=
  let len := length processedXData in
  median ← merge_sort Z.le (distances processedXData) !! (len / 2)%nat;
  if Qeq_bool (xMax - xMin) 0 then None
  else Some (inject_Z (Z.of_nat len * median) / (xMax - xMin))%Q.

(** [postProcessTickInterval]: a slope that is [undefined], zero or [NaN] changes
    nothing.  The closest distance is positive when there is one. *)
Definition postProcessTickInterval (o : option ordinal) (closestPointRange : Z) (tickInterval : Q) : Q :=
  match o with
  | Some (Ordinal _ (Some (slope, _))) =>
      if Qeq_bool slope 0 then tickInterval
      else (tickInterval / (slope / inject_Z closestPointRange))%Q
  | _ => tickInterval
  end.

(** ** Ticks of an ordinal axis *)

(** The loop of [getNonLinearTimeTicks] over the positions: ticks for every run of
    positions without a large gap.  [start] and [end] are indices, [n] the positions
    still to see; with the ticks go the ranks [getTimeTicks] gave for the last
    run. *)
Section ticks.
Context (fuel : nat) (interval cnt min max : Z) (startOfWeek : option Z).

Fixpoint segment_loop (n : nat) (positions : list Z) (closestDistance : Z) (start end_ : nat)
    (groupPositions ranks : list Z) : option (list Z * list Z) :=
  match n with
  | O => Some (groupPositions, ranks)
  | S n' =>
      let outsideMax := negb (end_ =? 0)%nat && (max <? at_ positions (end_ - 1)) in
      let start := if at_ positions end_ <? min then end_ else start in
      '(groupPositions, ranks, start) ←
        (if (end_ =? length positions - 1)%nat
            || (closestDistance * 5 <? at_ positions (S end_) - at_ positions end_) || outsideMax
         then
           t ← getTimeTicks fuel interval cnt (at_ positions start) (at_ positions end_) startOfWeek;
           Some (groupPositions ++ tickPositions t, higherRanks t, S end_)
         else Some (groupPositions, ranks, start));
      if outsideMax then Some (groupPositions, ranks)
      else segment_loop n' positions closestDistance start (S end_) groupPositions ranks
  end.

(** The ticks on another day than the one before, the last one left out; with one of
    them the first tick ranks higher too. *)
Fixpoint crossed (prev : Z) (l : list Z) : list Z :=
  match l with
  | [] | [_] => []
  | t :: l' =>
      (if getUTCDate t =? getUTCDate prev then [] else [t]) ++ crossed t l'
  end.
Definition higher_ranks (groupPositions : list Z) : list Z :=
  match groupPositions with
  | [] => []
  | t0 :: l => match crossed t0 l with [] => [] | r => t0 :: r end
  end.
End ticks.

(** *** Ticks too close to the next one

    [translate] gives a tick's place; places are doubles. *)
Section squash.
Context (translate : Z -> num) (tickPixelInterval : num) (max : Z).

(** [if (lastTranslated)]. *)
Definition has_last (last : option num) : option num :=
  match last with Some x => if num_truthy x then Some x else None | None => None end.

(** The first loop, from the last tick: the distances to the next tick; a hole where
    there is none. *)
Fixpoint pixel_distances (places : list num) : list (option num) :=
  match places with
  | [] => []
  | x :: rest =>
      (match rest with
       | y :: _ => if num_truthy y then Some (y - x)%num else None
       | [] => None
       end) :: pixel_distances rest
  end.

(** The length of an array with holes at its end. *)
Fixpoint trim_holes (l : list (option num)) : list (option num) :=
  match l with
  | [] => []
  | x :: l' => match x, trim_holes l' with None, [] => [] | _, r => x :: r end
  end.

(** [distances.sort()]: as texts, holes last. *)
Definition text_le (x y : num) : Prop := String.leb (num_string x) (num_string y) = true.
#[local] Instance text_le_dec : forall x y, Decision (text_le x y).
Proof. intros x y. apply bool_eq_dec. Defined.

Inductive median_distance := MedianNull | MedianUndef | Median (x : num).

Definition median_of (l : list (option num)) : median_distance :=
  let l := trim_holes l in
  match merge_sort text_le (omap id l) !! (length l / 2)%nat with
  | Some m => if (m < tickPixelInterval * 0.6%float)%num then MedianNull else Median m
  | None => MedianUndef
  end.

Definition near_median (m : median_distance) (distance : num) : bool :=
  match m with
  | MedianNull => true
  | MedianUndef => false
  | Median x => (distance < x * 0.8%float)%num
  end.

(** The second loop, down from [i]. *)
Fixpoint squash_loop (i : nat) (m : median_distance) (places : list num) (ranks : list Z)
    (lastTranslated : option num) (groupPositions : list Z) : list Z :=
  match i with
  | O => groupPositions
  | S i' =>
      let translated := nth i' places nan in
      let rank k := match groupPositions !! k with Some t => bool_decide (t ∈ ranks) | None => false end in
      match has_last lastTranslated with
      | Some last =>
          let distance := (last - translated)%num in
          if (distance < tickPixelInterval * 0.8%float)%num && near_median m distance then
            if rank i' && negb (rank (S i')) then
              squash_loop i' m places ranks (Some translated)
                (splice (Z.of_nat (S i')) 1 [] groupPositions)
            else squash_loop i' m places ranks lastTranslated
                   (splice (Z.of_nat i') 1 [] groupPositions)
          else squash_loop i' m places ranks (Some translated) groupPositions
      | None => squash_loop i' m places ranks (Some translated) groupPositions
      end
  end.

Definition squash (ranks groupPositions : list Z) : list Z :=
  let places := map translate groupPositions in
  let m := median_of (pixel_distances places) in
  let n := length groupPositions in
  let i := match last groupPositions with Some t => if max <? t then (n - 1)%nat else n | None => n end in
  squash_loop i m places ranks None groupPositions.
End squash.

(** [getNonLinearTimeTicks], with the interval's unit and count, for an axis that has
    a minimum; its positions, when it has any, are three at least.  The result: the
    ticks and those of a higher rank. *)
Definition getNonLinearTimeTicks (fuel : nat) (interval cnt min max : Z)
    (startOfWeek : option Z) (positions : option (list Z)) (closestDistance : Z)
    (findHigherRanks : bool) (translate : Z -> num) (tickPixelInterval : option num)
    : option (list Z * list Z) :=
  match positions with
  | Some positions =>
      '(group, last_ranks) ←
        segment_loop fuel interval cnt min max startOfWeek (length positions) positions
          closestDistance 0 0 [] [];
      let identifies := findHigherRanks && (interval <=? timeUnits HOUR) in
      let found := if identifies then higher_ranks group else [] in
      Some (match tickPixelInterval with
            | Some tpi => if findHigherRanks then squash translate tpi max found group else group
            | None => group
            end, if identifies then found else last_ranks)
  | None =>
      t ← getTimeTicks fuel interval cnt min max startOfWeek;
      Some (tickPositions t, higherRanks t)
  end.

Example getNonLinearTimeTicks_ex :
  getNonLinearTimeTicks 100 3600000 1 0 100000000 None
    (Some [0; 3600000; 7200000; 86400000; 90000000]) 3600000 true (fun t => num_of_Z (t / 36000))
    (Some 20%float)
  = Some ([0; 3600000; 7200000; 86400000; 90000000], [0; 86400000]).
Proof. vm_compute. reflexivity. Qed.

(** ** Panning

    The positions of the axis, if any, and those of all its data; [base] is the pan
    of linear axes. *)
Record pan_state := PanState {
  ps_axis : option (list Z);
  ps_extended : option (list Z)
}.
Inductive pan_result := PanBase | PanStill | PanMoved (newMin newMax : Q) | PanOutside (newMin newMax : Q).

(** [ordinalPositions.push(dataMax)], of the array searched on the right, which may be
    the one searched on the left too. *)
Definition push_max (dataMax : Z) (l : list Z) : list Z :=
  match last l with Some x => if x <? dataMax then l ++ [dataMax] else l | None => l end.

Definition moved_index (l : list Z) (v movedUnits : Q) : option Q :=
  match val2index l v with Index q => Some (index2val l (q + movedUnits)) | _ => None end.

Definition Qlt_bool (x y : Q) : bool := negb (Qle_bool y x).

(** The arrays searched on the left and on the right, to the left when [back]; the
    one on the right gets the data's maximum, where it is kept. *)
Definition pan_arrays (s : pan_state) (ext : list Z) (dataMax : Z) (back : bool)
    : pan_state * (list Z * list Z) :=
  match back, ps_axis s with
  | true, Some l =>
      let r := push_max dataMax l in (PanState (Some r) (Some ext), (ext, r))
  | _, axis =>
      let r := push_max dataMax ext in
      (PanState axis (Some r), (if back then r else default r axis, r))
  end.

(** [chart.pan] on an axis with series, the mouse having moved by [movedUnits]; no
    result when an index is not finite. *)
Definition pan (s : pan_state) (dataMin : Q) (dataMax : Z) (min max movedUnits : Q)
    : pan_state * option pan_result :=
  match ps_extended s with
  | None => (s, Some PanBase)
  | Some ext =>
      if negb (Qlt_bool 1 (Qabs movedUnits)) then (s, Some PanStill)
      else
        let '(s', (searchLeft, searchRight)) := pan_arrays s ext dataMax (Qlt_bool movedUnits 0) in
        (s', newMin ← moved_index searchLeft min movedUnits;
             newMax ← moved_index searchRight max movedUnits;
             Some (if Qlt_bool (Qmin dataMin min) newMin && Qlt_bool newMax (Qmax (inject_Z dataMax) max)
                   then PanMoved newMin newMax else PanOutside newMin newMax))
  end.

(** ** The index of a value *)

Lemma at_lt l i j : StronglySorted Z.lt l -> (i < j < length l)%nat -> at_ l i < at_ l j.
Proof.
  intros H. revert i j. induction H as [|x l Hl IH Hx]; intros i j Hij; cbn [length] in Hij; [lia|].
  destruct j as [|j]; [lia|]. destruct i as [|i]; unfold at_; cbn [nth].
  - rewrite Forall_forall in Hx. apply Hx. apply list_elem_of_In, nth_In. lia.
  - apply IH. lia.
Qed.

Lemma place_of_spec n val l i :
  place_of n val l = Some i ->
  (i < n)%nat /\ (inject_Z (at_ l i) < val \/ i = O)%Q /\
  (forall j, (i < j < n)%nat -> (val <= inject_Z (at_ l j))%Q).
Proof.
  induction n as [|n IH]; [done|]. cbn [place_of].
  destruct (negb (Qle_bool val (inject_Z (at_ l n))) || (n =? 0)%nat) eqn:E.
  - intros [= <-]. split_and!; [lia| |lia]. apply orb_true_iff in E as [E|E].
    + left. apply negb_true_iff, not_true_iff_false in E. rewrite Qle_bool_iff in E.
      by apply Qnot_le_lt in E.
    + right. by apply Nat.eqb_eq in E.
  - intros H. apply IH in H as (Hi & Hp & Hj). split_and!; [lia|done|].
    intros j Hj'. apply orb_false_iff in E as [E _]. apply negb_false_iff, Qle_bool_iff in E.
    destruct (decide (j = n)) as [->|]; [done|]. apply Hj. lia.
Qed.

Lemma place_of_some n val l : (0 < n)%nat -> exists i, place_of n val l = Some i.
Proof.
  intros Hn. induction n as [|n IH]; [lia|]. cbn [place_of]. destruct n as [|n].
  - rewrite orb_true_r. eauto.
  - destruct (negb _ || _); [eauto|]. apply IH. lia.
Qed.

Lemma inject_succ i : (inject_Z (Z.of_nat (S i)) == inject_Z (Z.of_nat i) + 1)%Q.
Proof. rewrite Nat2Z.inj_succ, <-Z.add_1_r, inject_Z_plus. reflexivity. Qed.

Lemma next_at l i : (inject_Z (at_ l (S i)) == inject_Z (at_ l i) + gap l i)%Q.
Proof. unfold gap. unfold Z.sub. rewrite inject_Z_plus, inject_Z_opp. ring. Qed.

Lemma inject_le i j : (i <= j)%nat -> (inject_Z (Z.of_nat i) <= inject_Z (Z.of_nat j))%Q.
Proof. intros. rewrite <-Zle_Qle. lia. Qed.

Section sorted.
Context (l : list Z) (Hl : StronglySorted Z.lt l) (Hlen : (2 <= length l)%nat).

Lemma gap_pos i : (S i < length l)%nat -> (0 < gap l i)%Q.
Proof.
  intros Hi. unfold gap. change 0%Q with (inject_Z 0). rewrite <-Zlt_Qlt.
  pose proof (at_lt l i (S i) Hl). lia.
Qed.

(** The fraction of the way from a position to the next one. *)
Lemma fraction i v : (S i < length l)%nat ->
  (gap l i * ((v - inject_Z (at_ l i)) / gap l i) == v - inject_Z (at_ l i))%Q.
Proof. intros Hi. apply Qmult_div_r. pose proof (gap_pos i Hi). lra. Qed.

(** The index of a value that is sure to have one. *)
Definition index_of (v : Q) : Q :=
  match place_of (length l - 1) v l with Some i => interpolated l v i | None => 0 end.

Lemma val2index_of v : val2index l v = Index (index_of v).
Proof.
  unfold val2index, index_of. destruct (place_of_some (length l - 1) v l) as [i Hi]; [lia|].
  rewrite Hi. apply place_of_spec in Hi as [Hi _].
  pose proof (at_lt l i (S i) Hl ltac:(lia)).
  by replace (at_ l (S i) =? at_ l i) with false by (symmetry; apply Z.eqb_neq; lia).
Qed.

(** Where the index lies, and how it gives the value back. *)
Lemma index_of_spec v : exists i x,
  (S i < length l)%nat /\ (index_of v == inject_Z (Z.of_nat i) + x)%Q /\
  (v == inject_Z (at_ l i) + x * gap l i)%Q /\
  (0 < x \/ i = O)%Q /\ (x <= 1 \/ S (S i) = length l)%Q.
Proof.
  unfold index_of. destruct (place_of_some (length l - 1) v l) as [i Hi]; [lia|].
  rewrite Hi. destruct (place_of_spec _ _ _ _ Hi) as (Hn & Hp & Hj).
  exists i, ((v - inject_Z (at_ l i)) / gap l i)%Q.
  assert (S i < length l)%nat as Hi' by lia.
  pose proof (fraction i v Hi') as F. pose proof (gap_pos i Hi') as G. split_and!.
  - lia.
  - reflexivity.
  - rewrite Qmult_comm, F. ring.
  - destruct Hp as [Hp| ->]; [left|by right].
    apply Qlt_shift_div_l; [done|]. lra.
  - destruct (decide (S (S i) = length l)) as [?|Hne]; [by right|left].
    apply Qle_shift_div_r; [done|]. pose proof (Hj (S i) ltac:(lia)) as Hle.
    rewrite next_at in Hle. lra.
Qed.

Lemma at_le i j : (i <= j < length l)%nat -> (inject_Z (at_ l i) <= inject_Z (at_ l j))%Q.
Proof.
  intros Hij. rewrite <-Zle_Qle. destruct (decide (i = j)) as [->|]; [lia|].
  apply Z.lt_le_incl, at_lt; [done|lia].
Qed.

(** Greater values have greater indices. *)
Lemma index_of_mono v w : (v < w)%Q -> (index_of v < index_of w)%Q.
Proof.
  intros Hvw.
  destruct (index_of_spec v) as (i & x & Hi & Ei & Ev & Hx0 & Hx1).
  destruct (index_of_spec w) as (j & y & Hj & Ej & Ew & Hy0 & Hy1).
  rewrite Ei, Ej. pose proof (gap_pos i Hi) as Gi. pose proof (gap_pos j Hj) as Gj.
  destruct (decide (i = j)) as [->|Hne].
  - assert (x < y)%Q; [|lra]. apply (Qmult_lt_r _ _ (gap l j)); [done|]. lra.
  - destruct (decide (i < j)%nat) as [Hlt|Hge].
    + destruct Hx1 as [Hx1|?]; [|lia]. destruct Hy0 as [Hy0|?]; [|lia].
      pose proof (inject_le (S i) j ltac:(lia)) as H. rewrite inject_succ in H. lra.
    + exfalso. destruct Hx0 as [Hx0|?]; [|lia]. destruct Hy1 as [Hy1|?]; [|lia].
      pose proof (at_le (S j) i ltac:(lia)) as H. rewrite next_at in H.
      assert (0 < x * gap l i)%Q by (by apply Qmult_lt_0_compat).
      assert (y * gap l j <= 1 * gap l j)%Q by (apply Qmult_le_compat_r; lra). lra.
Qed.

Lemma index_at k : (k < length l)%nat ->
  (index_of (inject_Z (at_ l k)) == inject_Z (Z.of_nat k))%Q.
Proof.
  intros Hk. destruct (index_of_spec (inject_Z (at_ l k))) as (i & x & Hi & Ei & Ev & Hx0 & Hx1).
  rewrite Ei. pose proof (gap_pos i Hi) as G.
  assert (k = i \/ k = S i) as [->| ->].
  - destruct (decide (k <= i)%nat) as [Hki|Hki].
    + left. destruct Hx0 as [Hx0|?]; [|lia]. exfalso. pose proof (at_le k i ltac:(lia)).
      assert (0 < x * gap l i)%Q by (by apply Qmult_lt_0_compat). lra.
    + right. destruct Hx1 as [Hx1|?]; [|lia]. destruct (decide (k = S i)) as [|Hne]; [done|].
      exfalso. assert (inject_Z (at_ l (S i)) < inject_Z (at_ l k))%Q as H.
      { rewrite <-Zlt_Qlt. apply at_lt; [done|lia]. }
      rewrite next_at in H. assert (x * gap l i <= 1 * gap l i)%Q by (apply Qmult_le_compat_r; lra).
      lra.
  - assert (x == 0)%Q as ->; [|ring]. apply (Qmult_inj_r _ _ (gap l i)); lra.
  - rewrite inject_succ. assert (x == 1)%Q as ->; [|ring]. rewrite next_at in Ev.
    apply (Qmult_inj_r _ _ (gap l i)); lra.
Qed.

End sorted.

(** ** The positions *)

Lemma dedupe_step i (l : list Z) : (S i < length l)%nat -> l !! i = l !! S i ->
  splice (Z.of_nat i) 1 [] l = take i l ++ drop (S i) l /\
  (length (take i l ++ drop (S i) l) = length l - 1)%nat.
Proof.
  intros Hi _. rewrite splice_remove, delete_take_drop by lia. split; [done|].
  rewrite length_app, length_take, length_drop. lia.
Qed.

Lemma sorted_drop_take i (l : list Z) :
  (i < length l)%nat -> StronglySorted Z.le l -> StronglySorted Z.le (take i l ++ drop (S i) l).
Proof.
  intros Hi H. destruct (lookup_lt_is_Some_2 l i Hi) as [y Hy].
  rewrite <-(take_drop i l), (drop_S l y i Hy) in H.
  rewrite StronglySorted_app in H |- *. destruct H as (H1 & H2 & H3). inversion H3; subst.
  split_and!; [|done|done]. intros x1 x2 ??. apply H1; [done|]. by apply list_elem_of_further.
Qed.

(** Taking out duplicates leaves the elements, in strict order. *)
Lemma dedupe_spec i (l : list Z) :
  (i < length l)%nat -> StronglySorted Z.le l -> StronglySorted Z.lt (drop i l) ->
  StronglySorted Z.lt (dedupe_from i l) /\ (forall x, x ∈ dedupe_from i l <-> x ∈ l).
Proof.
  revert l. induction i as [|i IH]; intros l Hi Hle Hlt; [by rewrite drop_0 in Hlt|].
  cbn [dedupe_from]. destruct (lookup_lt_is_Some_2 l i) as [a Ha]; [lia|].
  destruct (lookup_lt_is_Some_2 l (S i)) as [b Hb]; [lia|].
  assert (drop i l = a :: drop (S i) l) as Ea by (by apply drop_S).
  assert (drop (S i) l = b :: drop (S (S i)) l) as Eb by (by apply drop_S).
  case_bool_decide as E.
  - destruct (dedupe_step i l Hi E) as [-> Hn].
    assert (drop i (take i l ++ drop (S i) l) = drop (S i) l) as Ed.
    { rewrite drop_app_ge by (rewrite length_take; lia). rewrite length_take.
      by replace (i - i `min` length l)%nat with 0%nat by lia. }
    destruct (IH (take i l ++ drop (S i) l)) as [H1 H2];
      [lia|apply sorted_drop_take; [lia|done]|by rewrite Ed|].
    split; [done|]. intros x. rewrite H2.
    rewrite <-(take_drop i l) at 3. rewrite Ea, !elem_of_app, elem_of_cons.
    rewrite Ha, Hb in E. injection E as ->. rewrite Eb, elem_of_cons. naive_solver.
  - apply IH; [lia|done|]. rewrite Ea. constructor; [done|].
    rewrite <-(take_drop i l), Ea in Hle. apply StronglySorted_app in Hle as (_ & _ & Hle).
    inversion Hle as [|? ? Hr Hall]; subst. rewrite Eb in *.
    inversion Hlt as [|? ? Hr' Hall']; subst. inversion Hall as [|? ? Hab _]; subst.
    assert (a < b) as Hlt' by (rewrite Ha, Hb in E; assert (a <> b) by congruence; lia).
    constructor; [done|]. eapply Forall_impl; [done|]. cbn. intros; lia.
Qed.

Definition shown (series : list ordinal_series) (x : Z) : Prop :=
  exists s, s ∈ series /\ os_visible s = true /\ x ∈ os_processedXData s.

Definition sorted_series (series : list ordinal_series) : Prop :=
  Forall (fun s => StronglySorted Z.lt (os_processedXData s)) series.

Lemma collect_spec series : forall i l,
  sorted_series series -> StronglySorted Z.lt l -> (i = O -> l = []) ->
  StronglySorted Z.lt (collect i l series) /\
  (forall x, x ∈ collect i l series <-> x ∈ l \/ shown series x).
Proof.
  induction series as [|s rest IH]; intros i l Hs Hl Hi; cbn [collect].
  { split; [done|]. intros x. split; [by left|]. intros [?|(s & Hs' & _)]; [done|].
    by apply not_elem_of_nil in Hs'. }
  inversion Hs as [|? ? Hx Hrest]; subst.
  set (l' := if os_visible s then _ else l).
  assert (StronglySorted Z.lt l' /\
    forall x, x ∈ l' <-> x ∈ l \/ (os_visible s = true /\ x ∈ os_processedXData s)) as [H1 H2].
  { subst l'. destruct (os_visible s); [|naive_solver]. cbn zeta.
    destruct (negb (i =? 0)%nat && _) eqn:E.
    - apply andb_true_iff in E as [_ E]. apply negb_true_iff, Nat.eqb_neq in E.
      set (m := merge_sort Z.le (l ++ os_processedXData s)).
      assert (m ≡ₚ l ++ os_processedXData s) as Hm by apply merge_sort_Permutation.
      destruct (dedupe_spec (length m - 1) m) as [Hd1 Hd2].
      + apply Permutation_length in Hm. lia.
      + subst m. apply StronglySorted_merge_sort; [intros ???; lia|intros ??; lia].
      + assert (length (drop (length m - 1) m) <= 1)%nat as Hone by (rewrite length_drop; lia).
        destruct (drop (length m - 1) m) as [|y [|z r]]; cbn in Hone; [constructor| |lia].
        by repeat constructor.
      + split; [done|]. intros x. rewrite Hd2, Hm, elem_of_app. naive_solver.
    - destruct i as [|i].
      + rewrite Hi by done. cbn. split; [done|]. intros x. rewrite elem_of_nil. naive_solver.
      + cbn in E. apply negb_false_iff, Nat.eqb_eq in E. apply length_zero_iff_nil in E.
        rewrite E. split; [constructor|]. apply app_eq_nil in E as [-> ->].
        intros x. rewrite !elem_of_nil. naive_solver. }
  destruct (IH (S i) l' Hrest H1 ltac:(done)) as [H3 H4]. split; [done|].
  intros x. rewrite H4, H2. unfold shown. split.
  - intros [[?|[??]]|(s' & ? & ?)]; [by left|right; exists s; by rewrite elem_of_cons; auto|].
    right. exists s'. by rewrite elem_of_cons; auto.
  - intros [?|(s' & [->|?]%elem_of_cons & ? & ?)]; [auto|auto|]. right. by exists s'.
Qed.

(** ** To linear values and back *)

Lemma place_back_spec n slope offset val i :
  place_back n slope offset val = Some i ->
  (i < n)%nat /\ (slope * inject_Z (Z.of_nat i) + offset <= val)%Q /\
  (forall j, (i < j < n)%nat -> (val < slope * inject_Z (Z.of_nat j) + offset)%Q).
Proof.
  induction n as [|n IH]; [done|]. cbn [place_back].
  destruct (Qle_bool _ val) eqn:E.
  - intros [= <-]. apply Qle_bool_iff in E. split_and!; [lia|done|lia].
  - intros H. apply IH in H as (Hi & Hp & Hj). split_and!; [lia|done|].
    intros j Hj'. destruct (decide (j = n)) as [->|]; [|apply Hj; lia].
    apply Qnot_le_lt. rewrite <-Qle_bool_iff. congruence.
Qed.

Lemma place_back_some n slope offset val : (0 < n)%nat -> (slope * inject_Z 0 + offset <= val)%Q ->
  exists i, place_back n slope offset val = Some i.
Proof.
  intros Hn Hv. induction n as [|n IH]; [lia|]. cbn [place_back].
  destruct (Qle_bool _ val) eqn:E; [eauto|]. destruct n as [|n]; [|apply IH; lia].
  exfalso. apply not_true_iff_false in E. by rewrite Qle_bool_iff in E.
Qed.

Lemma between_eq l i d : (between l i d == inject_Z (at_ l i) + d * gap l i)%Q.
Proof.
  unfold between. destruct (Qeq_bool d 0) eqn:E; [|reflexivity].
  apply Qeq_bool_iff in E. rewrite E. ring.
Qed.

Section axis.
Context (l : list Z) (Hl : StronglySorted Z.lt l) (Hlen : (2 <= length l)%nat).

(** The slope is positive and the ends of the axis stay where they are. *)
Lemma scale_ends min max : (min < max)%Q ->
  exists slope offset, ordinal_scale l min max = Some (slope, offset) /\ (0 < slope)%Q /\
    (slope * index_of l min + offset == min)%Q /\ (slope * index_of l max + offset == max)%Q.
Proof.
  intros Hm. pose proof (index_of_mono l Hl Hlen min max Hm) as Hi.
  unfold ordinal_scale. rewrite !val2index_of by done.
  destruct (Qeq_bool (index_of l max) (index_of l min)) eqn:E.
  { apply Qeq_bool_iff in E. rewrite E in Hi. by apply Qlt_irrefl in Hi. }
  eexists _, _. split; [done|].
  set (d := (index_of l max - index_of l min)%Q).
  assert (0 < d)%Q as Hd by (subst d; lra).
  assert (d * ((max - min) / d) == max - min)%Q as Hs by (apply Qmult_div_r; lra).
  split_and!.
  - apply Qlt_shift_div_l; [done|]. lra.
  - ring.
  - assert (index_of l max == index_of l min + d)%Q as -> by (subst d; ring).
    transitivity (min + d * ((max - min) / d))%Q; [ring|]. rewrite Hs. ring.
Qed.

Lemma val2lin_eq slope offset v :
  val2lin (Some (Ordinal l (Some (slope, offset)))) v = Some (slope * index_of l v + offset)%Q.
Proof. unfold val2lin. cbn. by rewrite val2index_of. Qed.

(** From a value that is not before the first position and back. *)
Lemma lin2val_back slope offset v :
  (0 < slope)%Q -> (inject_Z (at_ l 0) <= v)%Q ->
  exists w, lin2val (Some (Ordinal l (Some (slope, offset)))) (slope * index_of l v + offset) = Some w
    /\ (w == v)%Q.
Proof.
  intros Hs Hv. destruct (index_of_spec l Hl Hlen v) as (i & x & Hi & Ei & Ev & Hx0 & Hx1).
  pose proof (gap_pos l Hl Hlen i Hi) as G.
  assert (0 <= x)%Q as Hx.
  { destruct Hx0 as [?| ->]; [lra|]. apply (Qmult_le_r _ _ (gap l 0)); [done|]. lra. }
  set (idx := index_of l v) in *.
  assert (0 <= idx)%Q as Hidx by (pose proof (inject_le 0 i ltac:(lia)) as H; change (inject_Z (Z.of_nat 0)) with 0%Q in H; lra).
  unfold lin2val. cbn [ordinalPositions ordinalScale mbind option_bind].
  destruct (place_back_some (length l - 1) slope offset (slope * idx + offset)) as [k Hk];
    [lia| |].
  { change (inject_Z 0) with 0%Q.
    assert (slope * 0 <= slope * idx)%Q by (apply Qmult_le_l; done). lra. }
  rewrite Hk. apply place_back_spec in Hk as (Hkn & Hle & Hlt).
  assert (inject_Z (Z.of_nat k) <= idx)%Q as Hk1.
  { apply (Qmult_le_l _ _ slope); [done|]. lra. }
  assert (inject_Z (Z.of_nat k + 1) == inject_Z (Z.of_nat k) + 1)%Q as Hk' by (rewrite inject_Z_plus; reflexivity).
  destruct (Qeq_bool (slope * inject_Z (Z.of_nat k + 1) + offset) _) eqn:E.
  { exfalso. apply Qeq_bool_iff in E. rewrite Hk' in E. lra. }
  eexists. split; [done|]. rewrite between_eq.
  assert ((slope * idx + offset - (slope * inject_Z (Z.of_nat k) + offset))
    / (slope * inject_Z (Z.of_nat k + 1) + offset - (slope * inject_Z (Z.of_nat k) + offset))
    == idx - inject_Z (Z.of_nat k))%Q as ->.
  { rewrite Hk'. field. lra. }
  assert (k = i \/ (k = S i /\ x == 1)%Q) as [->|[-> E1]].
  { destruct (decide (k = i)) as [|Hne]; [by left|right].
    destruct (decide (k < i)%nat) as [Hki|Hki].
    - exfalso. pose proof (Hlt i ltac:(lia)) as H.
      assert (idx < inject_Z (Z.of_nat i))%Q; [|lra]. apply (Qmult_lt_l _ _ slope); [done|]. lra.
    - destruct Hx1 as [Hx1|?]; [|lia]. pose proof (inject_le (S i) k ltac:(lia)) as H.
      rewrite inject_succ in H. assert (x == 1)%Q as E1 by lra. split; [|done].
      destruct (decide (k = S i)) as [|Hne']; [done|]. exfalso.
      pose proof (inject_le (S (S i)) k ltac:(lia)) as H2. rewrite !inject_succ in H2. lra. }
  - rewrite Ei, Ev. ring.
  - rewrite Ei, inject_succ, next_at, E1, Ev, E1. ring.
Qed.

End axis.

(** ** The ordinal axis *)

Lemma beforeSetTickPositions_spec series min max o :
  sorted_series series -> (min < max)%Q -> beforeSetTickPositions series min max = Some o ->
  let l := ordinalPositions o in
  StronglySorted Z.lt l /\ (3 <= length l)%nat /\ (forall x, x ∈ l <-> shown series x) /\
  exists slope offset, o = Ordinal l (Some (slope, offset)) /\ (0 < slope)%Q /\
    (slope * index_of l min + offset == min)%Q /\ (slope * index_of l max + offset == max)%Q.
Proof.
  intros Hs Hm. unfold beforeSetTickPositions. destruct (useOrdinal (collect 0 [] series)) eqn:E; [|done].
  intros [= <-]. cbn zeta. cbn [ordinalPositions].
  destruct (collect_spec series 0 [] Hs (SSorted_nil _) (fun _ => eq_refl)) as [Hl Hin].
  unfold useOrdinal in E. apply andb_true_iff in E as [E _]. apply Nat.ltb_lt in E.
  split_and!; [done|lia| |].
  - intros x. rewrite Hin, elem_of_nil. naive_solver.
  - destruct (scale_ends _ Hl ltac:(lia) min max Hm) as (slope & offset & -> & ?). eauto 10.
Qed.

(** An ordinal axis has as positions the times at which some series shown has a
    point, in order and once each.  The linear values it gives them are evenly
    spaced, the ends of the axis stay where they are, and later times get greater
    values. *)
Theorem val2lin_spaces series min max o :
  sorted_series series -> (min < max)%Q -> beforeSetTickPositions series min max = Some o ->
  let l := ordinalPositions o in
  StronglySorted Z.lt l /\ (forall x, x ∈ l <-> shown series x) /\
  exists f slope offset, (forall v, val2lin (Some o) v = Some (f v)) /\ (0 < slope)%Q /\
    (forall k, (k < length l)%nat ->
      f (inject_Z (at_ l k)) == slope * inject_Z (Z.of_nat k) + offset)%Q /\
    (f min == min)%Q /\ (f max == max)%Q /\
    (forall v w, v < w -> f v < f w)%Q.
Proof.
  intros Hs Hm Ho.
  destruct (beforeSetTickPositions_spec series min max o Hs Hm Ho)
    as (Hl & Hlen & Hin & slope & offset & Eo & Hp & Hmin & Hmax).
  set (l := ordinalPositions o) in *. cbn zeta. split; [done|]. split; [done|].
  exists (fun v => slope * index_of l v + offset)%Q, slope, offset.
  split_and!; [|done| |done|done|].
  - intros v. rewrite Eo. apply val2lin_eq; [done|lia].
  - intros k Hk. rewrite index_at by (done || lia). reflexivity.
  - intros v w Hvw. pose proof (index_of_mono l Hl ltac:(lia) v w Hvw) as H.
    apply Qplus_lt_l. by apply Qmult_lt_l.
Qed.

(** C13: On an ordinal axis a time that is not before the first point comes back when
    its linear value is translated back. *)
Theorem lin2val_val2lin series min max o v :
  sorted_series series -> (min < max)%Q -> beforeSetTickPositions series min max = Some o ->
  (inject_Z (at_ (ordinalPositions o) 0) <= v)%Q ->
  exists x w, val2lin (Some o) v = Some x /\ lin2val (Some o) x = Some w /\ (w == v)%Q.
Proof.
  intros Hs Hm Ho Hv.
  destruct (beforeSetTickPositions_spec series min max o Hs Hm Ho)
    as (Hl & Hlen & Hin & slope & offset & Eo & Hp & _).
  set (l := ordinalPositions o) in *.
  destruct (lin2val_back l Hl ltac:(lia) slope offset v Hp Hv) as (w & Hw & E).
  exists (slope * index_of l v + offset)%Q, w. rewrite Eo. split; [|done].
  apply val2lin_eq; [done|lia].
Qed.

Definition demo_series : list ordinal_series :=
  [OrdinalSeries true [0; 10; 100]; OrdinalSeries false [5]; OrdinalSeries true [10; 20; 110]].

Lemma demo_sorted : sorted_series demo_series.
Proof. repeat constructor. Qed.

Lemma val2lin_spaces_witness :
  exists o, beforeSetTickPositions demo_series 0 110 = Some o /\
    StronglySorted Z.lt (ordinalPositions o).
Proof.
  eexists. split; [reflexivity|].
  exact (proj1 (val2lin_spaces demo_series 0 110 _ demo_sorted ltac:(reflexivity) eq_refl)).
Defined.

Lemma lin2val_val2lin_witness :
  exists o x w, beforeSetTickPositions demo_series 0 110 = Some o /\
    val2lin (Some o) 60 = Some x /\ lin2val (Some o) x = Some w /\ (w == 60)%Q.
Proof.
  eexists.
  destruct (lin2val_val2lin demo_series 0 110 _ 60 demo_sorted ltac:(reflexivity) eq_refl)
    as (x & w & H); [vm_compute; discriminate|].
  exists x, w. split; [reflexivity|]. exact H.
Defined.

(** ** Panning *)

Section pan.
Context (l : list Z) (Hl : StronglySorted Z.lt l) (Hlen : (2 <= length l)%nat).

(** An index within the positions comes back. *)
Lemma index_of_index2val q : (0 <= q)%Q -> (q <= inject_Z (Z.of_nat (length l - 1)))%Q ->
  (index_of l (index2val l q) == q)%Q.
Proof.
  intros H0 H1. unfold index2val.
  assert (Qle_bool 0 q = true) as -> by by apply Qle_bool_iff.
  replace (Z.of_nat (length l) - 1) with (Z.of_nat (length l - 1)) by lia.
  assert (Qle_bool q (inject_Z (Z.of_nat (length l - 1))) = true) as -> by by apply Qle_bool_iff.
  cbn [negb]. pose proof (Qfloor_le q) as F1. pose proof (Qlt_floor q) as F2.
  assert (0 <= Qfloor q) as F0 by (change 0 with (Qfloor 0); by apply Qfloor_resp_le).
  set (i := Z.to_nat (Qfloor q)). assert (Qfloor q = Z.of_nat i) as Ei by (subst i; lia).
  rewrite Ei in *. rewrite inject_Z_plus in F2. change (inject_Z 1) with 1%Q in F2.
  set (d := (q - inject_Z (Z.of_nat i))%Q).
  assert (i <= length l - 1)%nat as Hi.
  { assert (Z.of_nat i <= Z.of_nat (length l - 1)); [|lia].
    rewrite Zle_Qle. lra. }
  assert (0 <= d /\ d < 1)%Q as [Hd0 Hd1] by (subst d; lra).
  assert (q == inject_Z (Z.of_nat i) + d)%Q as Eq by (subst d; ring).
  set (v := between l i d). pose proof (between_eq l i d : (v == _)%Q) as Ev.
  destruct (index_of_spec l Hl Hlen v) as (j & x & Hj & Ex & Ejx & Hx0 & Hx1).
  rewrite Ex, Eq. rewrite Ev in Ejx. pose proof (gap_pos l Hl Hlen j Hj) as Gj.
  assert ((d == 0)%Q \/ (S i < length l)%nat) as Hlast.
  { destruct (decide (S i < length l)%nat) as [|Hn]; [by right|left].
    replace (length l - 1)%nat with i in H1 by lia. subst d. lra. }
  assert (0 <= d * gap l i)%Q as Hdg.
  { destruct Hlast as [->|Hs]; [lra|]. pose proof (gap_pos l Hl Hlen i Hs).
    apply Qmult_le_0_compat; lra. }
  destruct (decide (j = i)) as [->|Hne].
  - assert (x == d)%Q as ->; [|reflexivity]. apply (Qmult_inj_r _ _ (gap l i)); lra.
  - destruct (decide (j < i)%nat) as [Hlt|Hge].
    + pose proof (at_le l Hl Hlen (S j) i ltac:(lia)) as Hle. rewrite next_at in Hle.
      assert (1 * gap l j <= x * gap l j)%Q as Hx by lra. apply Qmult_le_r in Hx; [|done].
      destruct Hx1 as [Hx1|Hx1].
      * assert (x == 1)%Q as E1 by lra. rewrite E1 in Ejx.
        assert (i = S j) as ->.
        { destruct (decide (i = S j)) as [|Hn]; [done|]. exfalso.
          pose proof (at_lt l (S j) i Hl ltac:(lia)) as H. rewrite Zlt_Qlt in H. rewrite next_at in H.
          lra. }
        rewrite inject_succ, E1. assert (d == 0)%Q as ->; [|ring].
        destruct Hlast as [?|Hs]; [done|]. pose proof (gap_pos l Hl Hlen (S j) Hs) as G.
        rewrite next_at in Ejx. apply (Qmult_inj_r _ _ (gap l (S j))); lra.
      * assert (i = S j) as -> by lia. destruct Hlast as [Ed|?]; [|lia].
        rewrite inject_succ, Ed. rewrite next_at, Ed in Ejx.
        assert (x == 1)%Q as ->; [|ring]. apply (Qmult_inj_r _ _ (gap l j)); lra.
    + exfalso. destruct Hx0 as [Hx0|?]; [|lia]. destruct Hlast as [Ed|Hs].
      * pose proof (at_le l Hl Hlen i j ltac:(lia)).
        assert (0 < x * gap l j)%Q by (by apply Qmult_lt_0_compat). rewrite Ed in Ejx. lra.
      * pose proof (at_le l Hl Hlen (S i) j ltac:(lia)) as H. rewrite next_at in H.
        pose proof (gap_pos l Hl Hlen i Hs) as G.
        assert (d * gap l i < 1 * gap l i)%Q by (by apply Qmult_lt_r).
        assert (0 < x * gap l j)%Q by (by apply Qmult_lt_0_compat). lra.
Qed.

End pan.

Lemma push_max_sorted dataMax l : StronglySorted Z.lt l -> StronglySorted Z.lt (push_max dataMax l).
Proof.
  intros H. unfold push_max. destruct (last l) as [x|] eqn:E; [|done].
  destruct (x <? dataMax) eqn:Ex; [|done]. zbool.
  apply last_Some in E as [l' ->]. apply StronglySorted_app.
  split_and!; [|done|by repeat constructor].
  intros y z Hy [->|?%not_elem_of_nil]%elem_of_cons; [|done].
  apply elem_of_app in Hy as [Hy|[->|?%not_elem_of_nil]%elem_of_cons]; [|done|done].
  apply StronglySorted_app in H as (H & _). specialize (H y x Hy ltac:(by apply elem_of_cons; left)). lia.
Qed.

Lemma push_max_length dataMax l : (length l <= length (push_max dataMax l))%nat.
Proof.
  unfold push_max. destruct (last l); [|done]. destruct (_ <? _); [|done]. rewrite length_app. cbn. lia.
Qed.

(** An array of positions that can be searched. *)
Definition searchable (l : list Z) : Prop := StronglySorted Z.lt l /\ (2 <= length l)%nat.

Lemma push_max_searchable dataMax l : searchable l -> searchable (push_max dataMax l).
Proof.
  intros [H1 H2]. split; [by apply push_max_sorted|]. pose proof (push_max_length dataMax l). lia.
Qed.

Lemma pan_arrays_searchable s ext dataMax back :
  searchable ext -> (forall l, ps_axis s = Some l -> searchable l) ->
  let '(_, (L, R)) := pan_arrays s ext dataMax back in searchable L /\ searchable R.
Proof.
  intros He Ha. pose proof (push_max_searchable dataMax ext He).
  unfold pan_arrays. destruct back, (ps_axis s) as [l|]; cbn; auto using push_max_searchable.
Qed.

Lemma moved_index_spec l v u w : searchable l -> moved_index l v u = Some w ->
  (0 <= index_of l v + u)%Q -> (index_of l v + u <= inject_Z (Z.of_nat (length l - 1)))%Q ->
  (index_of l w == index_of l v + u)%Q.
Proof.
  intros [Hl Hn]. unfold moved_index. rewrite val2index_of by done. intros [= <-] ??.
  by apply index_of_index2val.
Qed.

(** Panning happens only for more than one position, moves both ends of the window by
    the same number of positions where there are that many, and stays within the
    data. *)
Theorem pan_moves s ext dataMin dataMax min max moved s' a b :
  ps_extended s = Some ext -> searchable ext -> (forall l, ps_axis s = Some l -> searchable l) ->
  pan s dataMin dataMax min max moved = (s', Some (PanMoved a b)) ->
  let '(s1, (L, R)) := pan_arrays s ext dataMax (Qlt_bool moved 0) in
  s' = s1 /\ (1 < Qabs moved)%Q /\ (Qmin dataMin min < a)%Q /\ (b < Qmax (inject_Z dataMax) max)%Q /\
  ((0 <= index_of L min + moved)%Q -> (index_of L min + moved <= inject_Z (Z.of_nat (length L - 1)))%Q ->
   (index_of L a == index_of L min + moved)%Q) /\
  ((0 <= index_of R max + moved)%Q -> (index_of R max + moved <= inject_Z (Z.of_nat (length R - 1)))%Q ->
   (index_of R b == index_of R max + moved)%Q).
Proof.
  intros He Hs Ha. unfold pan. rewrite He.
  pose proof (pan_arrays_searchable s ext dataMax (Qlt_bool moved 0) Hs Ha) as Hsr.
  destruct (pan_arrays _ _ _ _) as [s1 [L R]]. destruct Hsr as [HL HR].
  destruct (Qlt_bool 1 (Qabs moved)) eqn:E1; [|done]. cbn [negb].
  assert (forall x y, Qlt_bool x y = true -> (x < y)%Q) as Hlt.
  { intros x y H. unfold Qlt_bool in H. apply negb_true_iff, not_true_iff_false in H.
    rewrite Qle_bool_iff in H. by apply Qnot_le_lt. }
  destruct (moved_index L min moved) as [a'|] eqn:Ea; [|done]. cbn.
  destruct (moved_index R max moved) as [b'|] eqn:Eb; [|done]. cbn.
  destruct (_ && _) eqn:E2; [|done]. intros [= <- <- <-]. apply andb_true_iff in E2 as [E2 E3].
  split_and!; eauto using moved_index_spec.
Qed.

Lemma demo_searchable : searchable demo_positions.
Proof. split; [repeat constructor|cbn; lia]. Qed.

Lemma pan_moves_witness :
  exists s' a b,
    pan (PanState (Some [10; 20; 100]) (Some demo_positions)) (-5) 200 15 60 (11 # 10)
      = (s', Some (PanMoved a b)) /\
    (1 < Qabs (11 # 10))%Q /\ (Qmin (-5) 15 < a)%Q /\ (b < Qmax (inject_Z 200) 60)%Q.
Proof.
  eexists _, _, _. split; [reflexivity|].
  assert (forall l, Some [10; 20; 100] = Some l -> searchable l) as Ha.
  { intros l [= <-]. split; [repeat constructor|cbn; lia]. }
  destruct (pan_moves (PanState (Some [10; 20; 100]) (Some demo_positions)) demo_positions (-5) 200
    15 60 (11 # 10) _ _ _ eq_refl demo_searchable Ha eq_refl) as (_ & H1 & H2 & H3 & _).
  split; [exact H1|split; [exact H2|exact H3]].
Defined.

(** ** Ticks *)

Lemma splice_sublist (i : nat) (l : list Z) : splice (Z.of_nat i) 1 [] l `sublist_of` l.
Proof.
  destruct (decide (i < length l)%nat).
  - rewrite splice_remove by done. apply sublist_delete.
  - unfold splice. cbn [app]. rewrite (drop_ge l), app_nil_r; [apply sublist_take|].
    unfold clamp_start. destruct (Z.of_nat i <? 0) eqn:?; zbool; lia.
Qed.

Lemma squash_loop_sublist tpi i m places ranks lt g :
  squash_loop tpi i m places ranks lt g `sublist_of` g.
Proof.
  revert lt g. induction i as [|i IH]; intros lt g; [done|]. cbn [squash_loop].
  destruct (has_last lt) as [x|]; [|apply IH].
  destruct (_ && near_median m _); [|apply IH].
  destruct (_ && _); (etrans; [apply IH|apply splice_sublist]).
Qed.

Lemma squash_sublist translate tpi max ranks g :
  squash translate tpi max ranks g `sublist_of` g.
Proof. apply squash_loop_sublist. Qed.

(** The ticks of the runs of positions. *)
Section segments.
Context (u : unit_name) (cnt min max : Z) (sow : option Z) (fuel : nat) (l : list Z) (closest : Z).
Context (Hcnt : 0 < cnt).
Context (Hyear : forall s, s ∈ l -> u = MONTH \/ u = YEAR ->
           100 <= getUTCFullYear (ticks_start (timeUnits u) cnt s sow)).
Context (Hfuel : forall s e, s ∈ l -> e ∈ l ->
           (Z.to_nat (e - ticks_start (timeUnits u) cnt s sow) <= fuel)%nat).

Lemma at_elem i : (i < length l)%nat -> at_ l i ∈ l.
Proof. intros Hi. apply list_elem_of_In, nth_In. done. Qed.

Lemma segment_loop_returns n : forall start end_ g ranks,
  (start <= end_)%nat -> (end_ + n = length l)%nat ->
  exists g' ranks', segment_loop fuel (timeUnits u) cnt min max sow n l closest start end_ g ranks
    = Some (g ++ g', ranks').
Proof.
  induction n as [|n IH]; intros start end_ g ranks Hs Hn; cbn [segment_loop].
  { exists [], ranks. by rewrite app_nil_r. }
  set (outside := negb (end_ =? 0)%nat && _).
  set (start' := if at_ l end_ <? min then end_ else start).
  assert (start' <= end_)%nat as Hs' by (unfold start'; destruct (at_ l end_ <? min); [done|exact Hs]).
  destruct ((end_ =? length l - 1)%nat || _ || outside).
  - destruct (getTimeTicks_ticks u cnt (at_ l start') (at_ l end_) sow fuel Hcnt) as (k & ts & -> & _).
    + apply Hyear, at_elem. lia.
    + apply Hfuel; apply at_elem; lia.
    + cbn [mbind option_bind]. destruct outside; [by eexists _, _|].
      destruct (IH (S end_) (S end_) (g ++ tickPositions ts) (higherRanks ts)) as (g' & r' & ->);
        [lia|lia|]. exists (tickPositions ts ++ g'), r'. by rewrite app_assoc.
  - cbn [mbind option_bind]. destruct outside; [exists [], ranks; by rewrite app_nil_r|].
    apply IH; lia.
Qed.
End segments.

(** [getNonLinearTimeTicks] returns, given fuel for the milliseconds from the start
    of any tick to any position; what it takes out of the ticks of the runs of
    positions, because they are too close, leaves the others in their order. *)
Theorem getNonLinearTimeTicks_returns u cnt min max sow fuel l closest find translate tpi :
  0 < cnt ->
  (forall s, s ∈ l -> u = MONTH \/ u = YEAR ->
     100 <= getUTCFullYear (ticks_start (timeUnits u) cnt s sow)) ->
  (forall s e, s ∈ l -> e ∈ l ->
     (Z.to_nat (e - ticks_start (timeUnits u) cnt s sow) <= fuel)%nat) ->
  exists group last ticks ranks,
    segment_loop fuel (timeUnits u) cnt min max sow (length l) l closest 0 0 [] [] = Some (group, last) /\
    getNonLinearTimeTicks fuel (timeUnits u) cnt min max sow (Some l) closest find translate tpi
      = Some (ticks, ranks) /\
    ticks `sublist_of` group.
Proof.
  intros Hcnt Hy Hf.
  destruct (segment_loop_returns u cnt min max sow fuel l closest Hcnt Hy Hf (length l) 0 0 [] [])
    as (group & last & E); [lia|lia|]. cbn [app] in E.
  exists group, last. unfold getNonLinearTimeTicks. rewrite E. cbn [mbind option_bind].
  eexists _, _. split_and!; [done|done|].
  destruct tpi; [|done]. destruct find; [apply squash_sublist|done].
Qed.
