(* ===== verification/HsText.v ===== *)
(** * Charts: numbers, labels and colours as texts

    [highstock.src.js]: [getDecimals], [numberFormat], the default labels of an
    axis, [tooltipFormatter] with the change of a compared series, the [Color]
    object, the counters that deal out colours, and [stableSort]. *)

From Stdlib Require Import Ascii.
From stdpp Require Import sorting.
From S2P Require Import Prelude JsString JsNum JsDate HsTime.
Local Open Scope string_scope.
Local Open Scope Z_scope.

(** ** Numbers *)

(** [getDecimals]: the length of what follows the point in the number's text. *)
Definition getDecimals (number : num) : Z :=
  let s := if num_truthy number then num_string number else "0" in
  match split_on "." s with
  | _ :: d :: _ => Z.of_nat (String.length d)
  | _ => 0
  end.

(** [replace(/(\d{3})(?=\d)/g, "$1" + t)], for a [t] without dollar signs. *)
Definition digit (c : ascii) : bool := bool_decide (is_Some (digit_value c)).
Fixpoint group_threes (t s : string) : string :=
  match s with
  | String a ((String b (String c ((String d _) as rest))) as tail) =>
      if digit a && digit b && digit c && digit d
      then String a (String b (String c (t ++ group_threes t rest)))
      else String a (group_threes t tail)
  | _ => s
  end.

(** The digits before the point with their separators. *)
Definition thousands (t i : string) : string :=
  let j := if (3 <? String.length i)%nat then (String.length i mod 3)%nat else O in
  (if (j =? 0)%nat then "" else str_take j i ++ t) ++ group_threes t (str_drop j i).

(** [String(pInt(s))]. *)
Definition pInt_string (s : string) : string :=
  match parseInt s with Some z => num_string (num_of_Z z) | None => "NaN" end.

(** [numberFormat(number, decimals, decPoint, thousandsSep)] with the defaults of
    [lang]; [None] is a missing argument.  [decimals] is at most 100, the most the
    language's [toFixed] allows. *)
Definition numberFormat (decimalPoint defaultSep : string) (number : num) (decimals : option Z)
    (decPoint thousandsSep : option string) : string :=
  let c := match decimals with
           | None => 2
           | Some d => if d =? -1 then getDecimals number else Z.abs d
           end in
  let d := default decimalPoint decPoint in
  let t := default defaultSep thousandsSep in
  let s := if (number < 0%float)%num then "-" else "" in
  let n := toFixed c (PrimFloat.abs (if num_truthy number then number else 0%float)) in
  let i := pInt_string n in
  s ++ thousands t i ++
  (if c =? 0 then ""
   else d ++ str_drop 2 (toFixed c (PrimFloat.abs (Number n - Number i)%num))).

Example numberFormat_ex :
  numberFormat "." "," 1234567.891%float None None None = "1,234,567.89" /\
  numberFormat "." "," (-1234.5)%float (Some (-1)) None (Some " ") = "-1 234.5" /\
  numberFormat "." "," 999%float (Some 0) None None = "999" /\
  numberFormat "." "," 0.5%float (Some 3) (Some ",") None = "0,500".
Proof. vm_compute. done. Qed.

(** ** Labels *)

(** [x % m === 0] for a positive whole number [m]. *)
Definition divides (m : Z) (x : num) : bool :=
  match Prim2SF x with
  | S754_zero _ => true
  | S754_finite _ _ _ => let '(p, q) := num_ratio x in p mod (q * m) =? 0
  | _ => false
  end.

(** What the label of a tick is made of. *)
Record label_context := LabelContext {
  lb_value : num;
  lb_category : option string;                 (* the value of an axis with categories *)
  lb_dateTimeLabelFormat : option string;
  lb_tickInterval : num
}.

(** [defaultLabelFormatter]; [format_date] is [dateFormat]. *)
Definition defaultLabelFormatter (decimalPoint sep : string) (format_date : string -> num -> string)
    (l : label_context) : string :=
  let value := lb_value l in
  match lb_category l, truthy_str (lb_dateTimeLabelFormat l) with
  | Some c, _ => c
  | None, Some f => format_date f value
  | None, None =>
      if divides 1000000 (lb_tickInterval l) then num_string (value / 1000000%float)%num ++ "M"
      else if divides 1000 (lb_tickInterval l) then num_string (value / 1000%float)%num ++ "k"
      else if (1000%float <= value)%num then numberFormat decimalPoint sep value (Some 0) None None
      else numberFormat decimalPoint sep value (Some (-1)) None None
  end.

(** ** Tooltips *)

(** A variable of a format, [{series.name}] or [{point.name}]. *)
Record variable := TheVariable { v_point : bool; v_prop : string }.
Definition variable_text (v : variable) : string :=
  "{" ++ (if v_point v then "point" else "series") ++ "." ++ v_prop v ++ "}".

Definition is_alpha (c : ascii) : bool :=
  let n := nat_of_ascii c in
  ((65 <=? n) && (n <=? 90))%nat || ((97 <=? n) && (n <=? 122))%nat.
Fixpoint take_alpha (s : string) : string * string :=
  match s with
  | String c s' => if is_alpha c then let '(w, r) := take_alpha s' in (String c w, r) else ("", s)
  | EmptyString => ("", "")
  end.

(** A variable at the start of a text. *)
Definition variable_at (s : string) : option variable :=
  let name (point : bool) (r : string) :=
    let '(w, r) := take_alpha r in
    match w, r with
    | String _ _, String "}" _ => Some (TheVariable point w)
    | _, _ => None
    end in
  if String.prefix "{series." s then name false (str_drop 8 s)
  else if String.prefix "{point." s then name true (str_drop 7 s) else None.

(** [pointFormat.match(/\{(series|point)\.[a-zA-Z]+\}/g)]. *)
Fixpoint variables (s : string) : list variable :=
  match s with
  | EmptyString => []
  | String _ s' => match variable_at s with Some v => v :: variables s' | None => variables s' end
  end.

(** The options of the tooltip by name: texts and numbers of decimals. *)
Record tooltip_options := TooltipOptions {
  to_text : string -> option string;      (* valuePrefix, percentageSuffix, ... *)
  to_decimals : string -> option Z        (* valueDecimals, ... *)
}.

(** The options' older names. *)
Definition with_y_names (o : tooltip_options) : tooltip_options :=
  let either (a b : option string) := match truthy_str a with Some s => Some s | None => b end in
  TooltipOptions
    (fun k => if String.eqb k "valuePrefix" then either (to_text o k) (to_text o "yPrefix")
              else if String.eqb k "valueSuffix" then either (to_text o k) (to_text o "ySuffix")
              else to_text o k)
    (fun k => if String.eqb k "valueDecimals" then
                match to_decimals o k with
                | Some d => if d =? 0 then to_decimals o "yDecimals" else Some d
                | None => to_decimals o "yDecimals"
                end
              else to_decimals o k).

(** [cfg]: the numbers of a point, and the name of their options. *)
Definition number_option (prop : string) : option string :=
  if existsb (String.eqb prop) ["y"; "open"; "high"; "low"; "close"] then Some "value"
  else if existsb (String.eqb prop) ["percentage"; "total"] then Some prop else None.

Section tooltip.
Context (decimalPoint sep : string).
(** The properties of the point and the series: numbers of the point, and texts. *)
Context (point_number : string -> num) (text_of : variable -> string).

Definition replacement (o : tooltip_options) (v : variable) : string :=
  match (if v_point v then number_option (v_prop v) else None) with
  | Some key =>
      default "" (to_text o (key ++ "Prefix"))
      ++ numberFormat decimalPoint sep (point_number (v_prop v))
           (Some (default (-1) (to_decimals o (key ++ "Decimals")))) None None
      ++ default "" (to_text o (key ++ "Suffix"))
  | None => text_of v
  end.

(** [tooltipFormatter]: a variable that is the whole format is left as it is. *)
Definition tooltipFormatter (o : tooltip_options) (pointFormat : string) : string :=
  let o := with_y_names o in
  fold_left (fun format v =>
    let key := variable_text v in
    if String.eqb key format then format else js_replace key (replacement o v) format)
    (variables pointFormat) pointFormat.

(** The extension for compared series: the change first. *)
Definition change_formatter (o : tooltip_options) (change : num) (pointFormat : string) : string :=
  tooltipFormatter o
    (js_replace "{point.change}"
      ((if (0%float < change)%num then "+" else "")
       ++ numberFormat decimalPoint sep change
            (Some (match to_decimals o "changeDecimals" with
                   | Some d => if d =? 0 then 2 else d
                   | None => 2 end)) None None)
      pointFormat).
End tooltip.

Definition no_options : tooltip_options := TooltipOptions (fun _ => None) (fun _ => None).

Example tooltipFormatter_ex :
  tooltipFormatter "." "," (fun _ => 1234.5%float) (fun _ => "Jobs") no_options
    "<b>{series.name}</b>: {point.y}" = "<b>Jobs</b>: 1,234.5" /\
  tooltipFormatter "." "," (fun _ => 1234.5%float) (fun _ => "Jobs") no_options
    "{point.y}" = "{point.y}".
Proof. vm_compute. done. Qed.

(** ** Colours *)

(** A colour: the text it was made from, and its components when the text was
    understood; [None] for a component that is not a number. *)
Record color := TheColor {
  c_input : string;
  c_rgba : option (list (option Z) * num)
}.

Fixpoint skip_spaces (s : string) : string :=
  match s with String c s' => if is_space c then skip_spaces s' else s | EmptyString => "" end.

(** [\s*,\s*] and [\s*\)]. *)
Definition mark (c : ascii) (s : string) : option string :=
  match skip_spaces s with
  | String d r => if Ascii.eqb d c then Some (skip_spaces r) else None
  | EmptyString => None
  end.

(** [[0-9]{1,3}]: what follows is never a digit. *)
Definition take_component (s : string) : option (Z * string) :=
  let '(d, r) := take_digits s in
  if (1 <=? String.length d)%nat && (String.length d <=? 3)%nat then Some (digits_value d, r) else None.

(** [[0-9]?(?:\.[0-9]+)?], which may be empty; what follows is space or the bracket. *)
Definition take_alpha_value (s : string) : option (string * string) :=
  let '(d, r) := take_digits s in
  if (String.length d <=? 1)%nat then
    match r with
    | String "." r' =>
        let '(f, r'') := take_digits r' in
        if String.eqb f "" then None else Some (d ++ "." ++ f, r'')
    | _ => Some (d, r)
    end
  else None.

(** The pattern of [rgba(...)] at the start of a text. *)
Definition rgba_at (s : string) : option (list (option Z) * num) :=
  if String.prefix "rgba(" s then
    '(r, s) ← take_component (skip_spaces (str_drop 5 s)); s ← mark "," s;
    '(g, s) ← take_component s; s ← mark "," s;
    '(b, s) ← take_component s; s ← mark "," s;
    '(a, s) ← take_alpha_value s; _ ← mark ")" s;
    Some ([Some r; Some g; Some b], parseFloat a)
  else None.

Definition hex_value (c : ascii) : option Z :=
  let n := nat_of_ascii c in
  if (48 <=? n)%nat && (n <=? 57)%nat then Some (Z.of_nat n - 48)
  else if (65 <=? n)%nat && (n <=? 70)%nat then Some (Z.of_nat n - 55)
  else if (97 <=? n)%nat && (n <=? 102)%nat then Some (Z.of_nat n - 87) else None.
Definition hex_pair (a b : ascii) : option Z :=
  x ← hex_value a; y ← hex_value b; Some (16 * x + y).

(** The pattern of [#rrggbb] at the start of a text. *)
Definition hex_at (s : string) : option (list (option Z) * num) :=
  match s with
  | String "#" (String a (String b (String c (String d (String e (String f _)))))) =>
      r ← hex_pair a b; g ← hex_pair c d; b ← hex_pair e f;
      Some ([Some r; Some g; Some b], 1%float)
  | _ => None
  end.

(** [exec]: the first place where a pattern matches. *)
Fixpoint first_match {A} (at_start : string -> option A) (s : string) : option A :=
  match at_start s with
  | Some a => Some a
  | None => match s with String _ s' => first_match at_start s' | EmptyString => None end
  end.

Definition Color (input : string) : color :=
  TheColor input
    match first_match rgba_at input with
    | Some c => Some c
    | None => first_match hex_at input
    end.

Definition component_text (c : option Z) : string :=
  match c with Some z => show_Z z | None => "NaN" end.

(** [get(format)]: a text, or with ['a'] the opacity. *)
Inductive format := FRgb | FA | FDefault.
Inductive color_text := CText (s : string) | CNum (x : num).

Definition get (fm : format) (c : color) : color_text :=
  match c_rgba c with
  | Some ((Some r :: _) as l, a) =>
      match fm with
      | FRgb => CText ("rgb(" ++ join "," (map component_text l) ++ ")")
      | FA => CNum a
      | FDefault => CText ("rgba(" ++ join "," (map component_text l ++ [num_string a])%list ++ ")")
      end
  | _ => CText (c_input c)
  end.

(** [brighten(alpha)] of a number: a part of 255, cut off as [parseInt] does, on every
    component, which then stays from 0 to 255. *)
Definition brighten_component (alpha : num) (c : option Z) : option Z :=
  v ← c; d ← parseInt (num_string (alpha * 255%float)%num);
  Some (Z.min (Z.max (v + d) 0) 255).
Definition brighten (alpha : num) (c : color) : color :=
  if (alpha === 0%float)%num then c
  else TheColor (c_input c)
         ((fun p => (map (brighten_component alpha) p.1, p.2)) <$> c_rgba c).

(** [setOpacity(alpha)]; a colour that was not understood stays its text. *)
Definition setOpacity (alpha : num) (c : color) : color :=
  TheColor (c_input c) ((fun p => (p.1, alpha)) <$> c_rgba c).

Example Color_ex :
  get FDefault (brighten 0.5%float (Color "#4572A7")) = CText "rgba(196,241,255,1)" /\
  get FRgb (Color "  rgba(255, 0,16 , .75)") = CText "rgb(255,0,16)" /\
  get FA (Color "  rgba(255, 0,16 , .75)") = CNum 0.75%float /\
  get FDefault (setOpacity 0.5%float (Color "red")) = CText "red".
Proof. vm_compute. done. Qed.

(** ** Colours in turn *)

(** [ChartCounters] *)
Record counters := Counters { cn_color : nat; cn_symbol : nat }.
Definition wrapColor (length : nat) (c : counters) : counters :=
  if (length <=? cn_color c)%nat then Counters 0 (cn_symbol c) else c.
Definition wrapSymbol (length : nat) (c : counters) : counters :=
  if (length <=? cn_symbol c)%nat then Counters (cn_color c) 0 else c.

(** [getColor]: the series' own colour, the next of the chart's, or gray. *)
Definition getColor (color : option string) (colorByPoint : bool) (colors : list string)
    (c : counters) : string * counters :=
  let '(s, c) :=
    match truthy_str color with
    | Some s => (s, c)
    | None =>
        if colorByPoint then ("gray", c)
        else (default "gray" (truthy_str (colors !! cn_color c)),
              Counters (S (cn_color c)) (cn_symbol c))
    end in
  (s, wrapColor (length colors) c).

(** [getSymbol]: the marker's symbol or the next; images have no radius. *)
Definition getSymbol (symbol : option string) (radius : num) (symbols : list string) (c : counters)
    : option string * num * counters :=
  let '(s, c) :=
    match truthy_str symbol with
    | Some s => (Some s, c)
    | None => (symbols !! cn_symbol c, Counters (cn_color c) (S (cn_symbol c)))
    end in
  (s, if String.prefix "url" (default "undefined" s) then 0%float else radius,
   wrapSymbol (length symbols) c).

(** ** Sorting

    [stableSort]: the items with their places, the comparison that asks for the
    places last, and the items again.  How the host sorts is a parameter. *)
Section stable.
Context {A : Type} (sort : (A * nat -> A * nat -> Z) -> list (A * nat) -> list (A * nat)).
Context (sortFunction : A -> A -> Z).

Definition with_places (arr : list A) : list (A * nat) := zip arr (seq 0 (length arr)).

Definition by_place (a b : A * nat) : Z :=
  let sortValue := sortFunction a.1 b.1 in
  if sortValue =? 0 then Z.of_nat a.2 - Z.of_nat b.2 else sortValue.

Definition stableSort (arr : list A) : list A := map fst (sort by_place (with_places arr)).
End stable.

(** ** Separators *)

Fixpoint all_digits (s : string) : bool :=
  match s with EmptyString => true | String c s' => digit c && all_digits s' end.

Lemma join_cons t s l : l <> [] -> join t (s :: l) = s ++ t ++ join t l.
Proof. by destruct l. Qed.

Lemma threes_pieces t k : forall s, String.length s = (3 * S k)%nat -> all_digits s = true ->
  exists ps, ps <> [] /\ Forall (fun p => String.length p = 3%nat) ps /\
    join "" ps = s /\ group_threes t s = join t ps.
Proof.
  induction k as [|k IH]; intros s Hn Hd.
  - destruct s as [|a [|b [|c [|d s]]]]; cbn in Hn; try lia.
    exists [String a (String b (String c ""))]. split_and!; [done|by repeat constructor|done|done].
  - destruct s as [|a [|b [|c s]]]; cbn [String.length] in Hn; try lia.
    cbn [all_digits] in Hd. repeat (apply andb_true_iff in Hd as [? Hd]).
    destruct (IH s ltac:(lia) Hd) as (ps & Hne & Hps & Hj & Hg).
    exists (String a (String b (String c "")) :: ps).
    rewrite !join_cons by done. split_and!; [done|by constructor|by rewrite Hj|].
    destruct s as [|d s]; [cbn in Hn; lia|]. rewrite <-Hg.
    cbn [all_digits] in Hd. apply andb_true_iff in Hd as [Hd' _].
    cbn [group_threes]. by repeat match goal with H : digit _ = true |- _ => rewrite H; clear H end.
Qed.

Lemma all_digits_drop n s : all_digits s = true -> all_digits (str_drop n s) = true.
Proof.
  revert s. induction n as [|n IH]; intros [|c s]; cbn; try done.
  rewrite andb_true_iff. intros [_ ?]. by apply IH.
Qed.

Lemma str_take_drop n s : str_take n s ++ str_drop n s = s.
Proof.
  revert s. induction n as [|n IH]; intros [|c s]; try done. cbn [str_take str_drop].
  by rewrite str_app_cons, IH.
Qed.

Lemma str_length_take n s : (n <= String.length s)%nat -> String.length (str_take n s) = n.
Proof.
  revert s. induction n as [|n IH]; intros [|c s] H; cbn in *; try done; [lia|]. by rewrite IH by lia.
Qed.

Lemma str_length_drop n s : String.length (str_drop n s) = (String.length s - n)%nat.
Proof. revert s. induction n as [|n IH]; intros [|c s]; cbn; [done|done|done|apply IH]. Qed.

(** The groups of digits: one to three, and then three each. *)
Definition grouped (ps : list string) : Prop :=
  exists p ps', ps = p :: ps' /\ (1 <= String.length p <= 3)%nat /\
    Forall (fun p => String.length p = 3%nat) ps'.

Lemma thousands_groups t i : i <> "" -> all_digits i = true ->
  exists ps, grouped ps /\ join "" ps = i /\ thousands t i = join t ps.
Proof.
  intros Hi Hd. unfold thousands. destruct (3 <? String.length i)%nat eqn:E.
  - apply Nat.ltb_lt in E.
    pose proof (Nat.div_mod (String.length i) 3 ltac:(lia)) as Hdiv.
    pose proof (Nat.mod_upper_bound (String.length i) 3 ltac:(lia)).
    set (j := (String.length i mod 3)%nat) in *. set (q := (String.length i / 3)%nat) in *.
    destruct (threes_pieces t (q - 1) (str_drop j i)) as (ps & Hne & Hps & Hj & Hg);
      [rewrite str_length_drop; lia|by apply all_digits_drop|].
    destruct (j =? 0)%nat eqn:Ej.
    + apply Nat.eqb_eq in Ej. rewrite Ej in *. exists ps. split_and!; [|done|by rewrite Hg].
      destruct ps as [|p ps]; [done|]. inversion Hps; subst. exists p, ps. split_and!; (done || lia).
    + apply Nat.eqb_neq in Ej. exists (str_take j i :: ps). rewrite !join_cons by done. split_and!.
      * exists (str_take j i), ps. rewrite str_length_take by lia. split_and!; (done || lia).
      * rewrite Hj. apply str_take_drop.
      * rewrite str_app_assoc. by rewrite Hg.
  - apply Nat.ltb_ge in E. exists [i]. split_and!; [|done|].
    + exists i, []. split_and!; [done| |done|constructor]. destruct i; [done|cbn; lia].
    + cbn [Nat.eqb str_drop]. rewrite str_app_nil_l.
      destruct i as [|a [|b [|c [|d i]]]]; try done. cbn in E. lia.
Qed.

(** A formatted number is a sign, the digits before the point in groups of three
    from the right with the separator between them, and the point with as many digits
    as were asked for; without decimals it is the sign and the groups alone. *)
Theorem numberFormat_groups point sep x decimals :
  let c := match decimals with
           | None => 2 | Some d => if d =? -1 then getDecimals x else Z.abs d end in
  let i := pInt_string (toFixed c (PrimFloat.abs (if num_truthy x then x else 0%float))) in
  i <> "" -> all_digits i = true ->
  exists ps, grouped ps /\ join "" ps = i /\
    numberFormat point sep x decimals None None =
      (if (x < 0%float)%num then "-" else "") ++ join sep ps ++
      (if c =? 0 then "" else
         point ++ str_drop 2 (toFixed c (PrimFloat.abs
           (Number (toFixed c (PrimFloat.abs (if num_truthy x then x else 0%float))) - Number i)%num))).
Proof.
  cbn zeta. intros Hi Hd. destruct (thousands_groups sep _ Hi Hd) as (ps & Hg & Hj & Ht).
  exists ps. split_and!; [done|done|]. unfold numberFormat. cbn [default]. by rewrite Ht.
Qed.

Lemma numberFormat_groups_witness :
  exists ps, grouped ps /\ join "" ps = "1234567" /\
    numberFormat "." "," 1234567.25%float (Some 1) None None = join "," ps ++ ".3".
Proof.
  destruct (numberFormat_groups "." "," 1234567.25%float (Some 1)) as (ps & H1 & H2 & H3);
    [vm_compute; discriminate|vm_compute; reflexivity|].
  exists ps. split; [exact H1|]. split; [rewrite H2; vm_compute; reflexivity|].
  exact H3.
Defined.

(** ** Colours: the theorems *)

Lemma take_digits_all s c rest : all_digits s = true -> digit c = false ->
  take_digits (s ++ String c rest) = (s, String c rest).
Proof.
  intros Hs Hc. induction s as [|a s IH].
  - rewrite str_app_nil_l. cbn. unfold digit in Hc. destruct (digit_value c); [|done].
    by rewrite bool_decide_true in Hc by eauto.
  - cbn [all_digits] in Hs. apply andb_true_iff in Hs as [Ha Hs]. rewrite str_app_cons.
    cbn [take_digits]. unfold digit in Ha. apply bool_decide_eq_true in Ha as [z ->].
    by rewrite IH.
Qed.

Lemma digit_not_space c : digit c = true -> is_space c = false.
Proof.
  unfold digit, digit_value, is_space. intros H. apply bool_decide_eq_true in H as [z H].
  destruct (_ && _)%bool eqn:E; [|done]. apply andb_true_iff in E as [E1 E2].
  apply Nat.leb_le in E1, E2. apply orb_false_iff. split.
  - apply Nat.eqb_neq. lia.
  - apply andb_false_iff. right. apply Nat.leb_gt. lia.
Qed.

Lemma skip_spaces_digits s t : s <> "" -> all_digits s = true -> skip_spaces (s ++ t) = s ++ t.
Proof.
  intros Hne Hs. destruct s as [|a s]; [done|]. cbn in Hs. apply andb_true_iff in Hs as [Ha _].
  rewrite str_app_cons. cbn. by rewrite digit_not_space.
Qed.

(** The texts of the components. *)
Definition component_ok (z : Z) : bool :=
  let s := show_Z z in
  all_digits s && negb (String.eqb s "") && (String.length s <=? 3)%nat && (digits_value s =? z).

Lemma components_ok z : 0 <= z <= 255 -> component_ok z = true.
Proof.
  intros Hz. assert (forallb component_ok (map Z.of_nat (seq 0 256)) = true) as H
    by (vm_compute; reflexivity).
  rewrite forallb_forall in H. apply H, in_map_iff. exists (Z.to_nat z). split; [lia|].
  apply in_seq. lia.
Qed.

Lemma take_component_show z c rest : 0 <= z <= 255 -> digit c = false ->
  take_component (show_Z z ++ String c rest) = Some (z, String c rest) /\
  skip_spaces (show_Z z ++ String c rest) = show_Z z ++ String c rest.
Proof.
  intros Hz Hc. pose proof (components_ok z Hz) as H. unfold component_ok in H.
  repeat (apply andb_true_iff in H as [H ?]). zbool. rewrite String.eqb_neq in *.
  split; [|by apply skip_spaces_digits].
  unfold take_component. rewrite take_digits_all by done.
  destruct (1 <=? String.length (show_Z z))%nat eqn:E.
  - cbn [andb]. match goal with H : (_ <=? 3)%nat = true |- _ => rewrite H end. by f_equal; f_equal.
  - exfalso. apply Nat.leb_gt in E. destruct (show_Z z); [done|cbn in E; lia].
Qed.

Lemma mark_here c s : is_space c = false -> mark c (String c s) = Some (skip_spaces s).
Proof. intros H. unfold mark. cbn [skip_spaces]. rewrite H. by rewrite Ascii.eqb_refl. Qed.

(** An opacity whose text is read back by the pattern: up to nine, without exponent. *)
Definition opacity_reads (a : num) : Prop :=
  take_alpha_value (num_string a ++ ")") = Some (num_string a, ")") /\
  skip_spaces (num_string a ++ ")") = num_string a ++ ")" /\ parseFloat (num_string a) = a.

(** The text of a colour, printed with its opacity, is read as the same
    components and opacity. *)
Theorem color_prints_and_parses input r g b a :
  0 <= r <= 255 -> 0 <= g <= 255 -> 0 <= b <= 255 -> opacity_reads a ->
  exists s, get FDefault (TheColor input (Some ([Some r; Some g; Some b], a))) = CText s /\
    c_rgba (Color s) = Some ([Some r; Some g; Some b], a).
Proof.
  intros Hr Hg Hb (Ha & Hsk & Hp). eexists. split; [reflexivity|].
  cbn [map component_text join app].
  unfold Color. cbn [c_rgba].
  set (s := ("rgba(" ++ _)%string).
  assert (rgba_at s = Some ([Some r; Some g; Some b], a)) as E.
  { subst s. unfold rgba_at. rewrite prefix_app.
    change (str_drop 5 ("rgba(" ++ ?x)) with x. rewrite !str_app_assoc, !str_app_cons, !str_app_nil_l.
    destruct (take_component_show r "," (show_Z g ++ String "," (show_Z b ++ String "," (num_string a ++ ")"))) Hr eq_refl) as [H1 H2].
    rewrite H2, H1. cbn [mbind option_bind]. rewrite mark_here by done. cbn [mbind option_bind].
    destruct (take_component_show g "," (show_Z b ++ String "," (num_string a ++ ")")) Hg eq_refl) as [H3 H4].
    rewrite H4, H3. cbn [mbind option_bind]. rewrite mark_here by done. cbn [mbind option_bind].
    destruct (take_component_show b "," (num_string a ++ ")") Hb eq_refl) as [H5 H6].
    rewrite H6, H5. cbn [mbind option_bind]. rewrite mark_here by done. cbn [mbind option_bind].
    rewrite Hsk, Ha. cbn [mbind option_bind]. rewrite mark_here by done. cbn. by rewrite Hp. }
  destruct s as [|c s]; [done|]. cbn [first_match]. by rewrite E.
Qed.

Lemma color_prints_and_parses_witness :
  exists s, get FDefault (TheColor "" (Some ([Some 69; Some 114; Some 167], 0.75%float))) = CText s /\
    c_rgba (Color s) = Some ([Some 69; Some 114; Some 167], 0.75%float).
Proof.
  apply (color_prints_and_parses "" 69 114 167 0.75%float); [lia|lia|lia|].
  unfold opacity_reads. split; [|split]; vm_compute; reflexivity.
Defined.

(** Brightening keeps the components of a colour from 0 to 255, whatever they were. *)
Theorem brighten_bounds alpha c l a z :
  (alpha === 0%float)%num = false -> c_rgba (brighten alpha c) = Some (l, a) -> Some z ∈ l ->
  0 <= z <= 255.
Proof.
  intros Ha. unfold brighten. rewrite Ha. cbn [c_rgba]. destruct (c_rgba c) as [[l0 a0]|]; [|done].
  cbn. intros [= <- <-] (x & Hx & _)%list_elem_of_fmap. unfold brighten_component in Hx.
  destruct x as [x|]; [|done]. cbn in Hx. destruct (parseInt _) as [d|]; [|done]. cbn in Hx.
  injection Hx as ->. lia.
Qed.

(** ** Colours in turn: the theorem *)

(** [n] series without colours of their own, after one another. *)
Fixpoint deal (n : nat) (colors : list string) (c : counters) : list string :=
  match n with
  | O => []
  | S n' => let '(s, c) := getColor None false colors c in s :: deal n' colors c
  end.

(** The colours of the chart are dealt out in turn, over and over. *)
Theorem deal_cycles n colors :
  colors <> [] -> Forall (fun s => s <> "") colors ->
  deal n colors (Counters 0 0) = map (fun i => nth (i mod length colors) colors "") (seq 0 n).
Proof.
  intros Hne Hc. assert (0 < length colors)%nat as Hl by (destruct colors; [done|cbn; lia]).
  assert (forall k, (k < length colors)%nat -> forall m i, (i mod length colors = k)%nat ->
    deal m colors (Counters k 0) = map (fun i => nth (i mod length colors) colors "") (seq i m)) as H.
  2:{ apply H; [lia|]. by apply Nat.mod_0_l; lia. }
  intros k Hk m. revert k Hk. induction m as [|m IH]; intros k Hk i Hi; [done|].
  cbn [deal getColor truthy_str seq map cn_color cn_symbol].
  destruct (lookup_lt_is_Some_2 colors k Hk) as [s Hs]. rewrite Hs.
  assert (s <> "") as Hs' by (rewrite Forall_forall in Hc; by eapply Hc, list_elem_of_lookup_2).
  unfold truthy_str. apply String.eqb_neq in Hs'. rewrite Hs'. cbn [default].
  f_equal.
  - rewrite Hi. symmetry. by apply nth_lookup_Some.
  - unfold wrapColor. cbn [cn_color cn_symbol].
    destruct (length colors <=? S k)%nat eqn:E.
    + apply Nat.leb_le in E. apply IH; [lia|]. 
      rewrite <-Nat.add_1_r, Nat.Div0.add_mod, Hi.
      replace k with (length colors - 1)%nat by lia.
      destruct (decide (length colors = 1)%nat) as [->|]; [done|].
      rewrite (Nat.mod_small 1) by lia.
      replace (length colors - 1 + 1)%nat with (length colors) by lia. apply Nat.Div0.mod_same.
    + apply Nat.leb_gt in E. apply IH; [lia|].
      rewrite <-Nat.add_1_r, Nat.Div0.add_mod, Hi, (Nat.mod_small 1) by lia.
      rewrite Nat.mod_small; lia.
Qed.

(** ** Tooltips: the theorem *)

(** A format that is one variable and nothing else is not filled in. *)
Theorem tooltipFormatter_alone point sep number text o v :
  v_prop v <> "" -> take_alpha (v_prop v ++ "}") = (v_prop v, "}") ->
  tooltipFormatter point sep number text o (variable_text v) = variable_text v.
Proof.
  intros Hne Hp. unfold tooltipFormatter. generalize (with_y_names o) as o'. intros o'.
  assert (variables (variable_text v) = [v]) as ->; [|cbn; by rewrite String.eqb_refl].
  assert (forall w, take_alpha (w ++ "}") = (w, "}") -> variables (w ++ "}") = []) as Hrest.
  { induction w as [|c w IH]; [done|]. rewrite str_app_cons. cbn [take_alpha].
    destruct (is_alpha c) eqn:Ec; [|done]. destruct (take_alpha (w ++ "}")) as [w' r] eqn:E.
    intros [= -> ->]. cbn [variables].
    assert (variable_at (String c (w ++ "}")) = None) as ->; [|by apply IH].
    unfold variable_at. cbn [String.prefix].
    destruct (ascii_dec "{" c) as [<-|]; [by vm_compute in Ec|done]. }
  assert (forall w, v_prop v = w -> exists c w', w = String c w') as Hc
    by (intros [|c w'] E; [by rewrite E in Hne|eauto]).
  destruct v as [[] prop]; cbn [v_prop] in *; unfold variable_text; cbn [v_point v_prop].
  all: destruct (Hc prop eq_refl) as (c & w & ->).
  all: rewrite !str_app_cons, !str_app_nil_l in *; cbn -[take_alpha].
  all: rewrite Hp; cbn -[variables]; f_equal.
  all: change (variables (String c (w ++ "}")))
         with (variables (String c w ++ "}")) || idtac.
  all: try (rewrite <-(Hrest (String c w) Hp); rewrite str_app_cons; reflexivity).
Qed.

(** ** Sorting: the theorem *)

(** A comparison that orders its items. *)
Record consistent {A} (cmp : A -> A -> Z) : Prop := {
  cmp_sym : forall a b, Z.sgn (cmp a b) = - Z.sgn (cmp b a);
  cmp_trans : forall a b c, cmp a b <= 0 -> cmp b c <= 0 -> cmp a c <= 0
}.

(** What the language promises of [sort]: the items, in an order that the comparison
    does not object to. *)
Definition sorts {A} (sort : (A -> A -> Z) -> list A -> list A) : Prop :=
  forall cmp l, consistent cmp ->
    sort cmp l ≡ₚ l /\ StronglySorted (fun a b => cmp a b <= 0) (sort cmp l).

Section stable_sort.
Context {A : Type} (sort : (A * nat -> A * nat -> Z) -> list (A * nat) -> list (A * nat)).
Context (Hsort : sorts sort) (cmp : A -> A -> Z) (Hcmp : consistent cmp).

Lemma cmp_zero_trans a b c : cmp a b = 0 -> cmp a c = 0 -> cmp b c = 0.
Proof.
  intros H1 H2. pose proof (cmp_sym _ Hcmp a b). pose proof (cmp_sym _ Hcmp a c).
  pose proof (cmp_sym _ Hcmp b c). pose proof (cmp_trans _ Hcmp b a c).
  pose proof (cmp_trans _ Hcmp c a b). lia.
Qed.

Lemma by_place_consistent : consistent (by_place cmp).
Proof.
  split.
  - intros [a i] [b j]. unfold by_place. cbn. pose proof (cmp_sym _ Hcmp a b).
    destruct (cmp a b =? 0) eqn:?, (cmp b a =? 0) eqn:?; zbool; lia.
  - intros [a i] [b j] [c k]. unfold by_place. cbn.
    pose proof (cmp_trans _ Hcmp a b c). pose proof (cmp_trans _ Hcmp c a b).
    pose proof (cmp_trans _ Hcmp b c a).
    pose proof (cmp_sym _ Hcmp a b). pose proof (cmp_sym _ Hcmp b c). pose proof (cmp_sym _ Hcmp a c).
    destruct (cmp a b =? 0) eqn:?, (cmp b c =? 0) eqn:?, (cmp a c =? 0) eqn:?; zbool; lia.
Qed.

Lemma with_places_lookup (arr : list A) p : p ∈ with_places arr -> arr !! p.2 = Some p.1.
Proof.
  intros (i & H)%list_elem_of_lookup. unfold with_places in H.
  apply lookup_zip_with_Some in H as (x & k & -> & Hx & Hk).
  apply lookup_seq in Hk as [-> _]. by cbn.
Qed.

Lemma with_places_sorted (arr : list A) : StronglySorted (fun p q => (p.2 < q.2)%nat) (with_places arr).
Proof.
  unfold with_places. generalize 0%nat. induction arr as [|a arr IH]; intros i; cbn; [constructor|].
  constructor; [apply IH|]. apply Forall_forall. intros p (j & H)%list_elem_of_lookup.
  apply lookup_zip_with_Some in H as (x & k & -> & _ & Hk). apply lookup_seq in Hk as [-> _]. cbn. lia.
Qed.

Lemma StronglySorted_filter {B} (R : B -> B -> Prop) (P : B -> bool) l :
  StronglySorted R l -> StronglySorted R (List.filter P l).
Proof.
  induction 1 as [|x l Hl IH Hx]; cbn; [constructor|]. destruct (P x); [|done].
  constructor; [done|]. rewrite Forall_forall in *. intros y Hy. apply Hx.
  apply list_elem_of_In, filter_In in Hy as [Hy _]. by apply list_elem_of_In.
Qed.

Lemma StronglySorted_map {B C} (R : B -> B -> Prop) (S : C -> C -> Prop) (f : B -> C) l :
  (forall x y, x ∈ l -> y ∈ l -> R x y -> S (f x) (f y)) -> StronglySorted R l ->
  StronglySorted S (map f l).
Proof.
  intros Hf H. induction H as [|x l Hl IH Hx]; cbn; constructor.
  - apply IH. intros; apply Hf; by auto using list_elem_of_further.
  - apply Forall_forall. intros c (y & -> & Hy)%list_elem_of_fmap. rewrite Forall_forall in Hx.
    apply Hf; [by left|by right|by apply Hx].
Qed.

(** Lists of pairs with the same places are the same when each place has its item. *)
Lemma same_places (arr : list A) ps qs :
  (forall p, p ∈ ps -> arr !! p.2 = Some p.1) -> (forall p, p ∈ qs -> arr !! p.2 = Some p.1) ->
  map snd ps = map snd qs -> ps = qs.
Proof.
  revert qs. induction ps as [|[a i] ps IH]; intros [|[b j] qs] Hp Hq; cbn; try done.
  intros [= -> E]. f_equal.
  - pose proof (Hp (a, j) ltac:(by left)) as H1. pose proof (Hq (b, j) ltac:(by left)) as H2.
    cbn in *. congruence.
  - apply IH; [|by intros; apply Hq; right|done]. intros; apply Hp; by right.
Qed.

Lemma stableSort_places arr :
  sort (by_place cmp) (with_places arr) ≡ₚ with_places arr /\
  StronglySorted (fun p q => cmp p.1 q.1 < 0 \/ (cmp p.1 q.1 = 0 /\ (p.2 <= q.2)%nat))
    (sort (by_place cmp) (with_places arr)).
Proof.
  destruct (Hsort (by_place cmp) (with_places arr) by_place_consistent) as [Hp Hs].
  split; [done|]. rewrite <-(map_id (sort _ _)). eapply (StronglySorted_map _ _ id); [|exact Hs].
  intros [a i] [b j] _ _. unfold by_place, id. cbn. destruct (cmp a b =? 0) eqn:E; zbool; lia.
Qed.

(** The items equal to one, in the order they had. *)
Lemma stableSort_filter arr x :
  List.filter (fun y => cmp x y =? 0) (stableSort sort cmp arr)
  = List.filter (fun y => cmp x y =? 0) arr.
Proof.
  destruct (stableSort_places arr) as [Hp Hs]. unfold stableSort.
  set (ps := sort _ _) in *. set (P := fun p : A * nat => cmp x p.1 =? 0).
  assert (forall l : list (A * nat), List.filter (fun y => cmp x y =? 0) (map fst l)
    = map fst (List.filter P l)) as Hf.
  { induction l as [|p l IH]; cbn; [done|]. subst P. cbn. destruct (cmp x p.1 =? 0); cbn; by rewrite IH. }
  rewrite Hf. assert (map fst (with_places arr) = arr) as E.
  { unfold with_places. apply fst_zip. by rewrite length_seq. }
  rewrite <-E at 1. rewrite Hf. f_equal.
  assert (forall p, p ∈ List.filter P ps -> p ∈ with_places arr /\ P p = true) as Hin.
  { intros p Hp'. apply list_elem_of_In, filter_In in Hp' as [Hp' ?]. split; [|done].
    rewrite <-Hp. by apply list_elem_of_In. }
  apply (same_places arr).
  - intros p [Hp' _]%Hin. by apply with_places_lookup.
  - intros p Hp'. apply list_elem_of_In, filter_In in Hp' as [Hp' _].
    by apply with_places_lookup, list_elem_of_In.
  - apply (StronglySorted_unique le).
    + eapply (StronglySorted_map (fun p q => P p = true -> P q = true -> (p.2 <= q.2)%nat)).
      * intros p q Hp' Hq' H. apply H; [by apply Hin|by apply Hin].
      * apply StronglySorted_filter. rewrite <-(map_id ps).
        eapply (StronglySorted_map _ _ id); [|exact Hs]. unfold id, P. intros p q _ _ [H|[_ H]] Ha Hb; [|done].
        zbool. pose proof (cmp_zero_trans x p.1 q.1 Ha Hb). lia.
    + eapply StronglySorted_map; [|apply StronglySorted_filter, with_places_sorted]. cbn. intros; lia.
    + apply Permutation_map. revert Hp. clear. generalize (with_places arr). intros qs Hp.
      induction Hp as [|p ps' qs' _ IH|p q ps'|ps1 ps2 ps3 _ IH1 _ IH2]; cbn; [done| | |by etrans].
      * destruct (P p); [by constructor|done].
      * destruct (P p), (P q); [by constructor|done..].
Qed.

End stable_sort.

(** However the host sorts, [stableSort] returns the items in the order of the
    comparison, and those that compare equal in the order they had. *)
Theorem stableSort_stable {A} sort (cmp : A -> A -> Z) arr :
  sorts sort -> consistent cmp ->
  stableSort sort cmp arr ≡ₚ arr /\
  StronglySorted (fun a b => cmp a b <= 0) (stableSort sort cmp arr) /\
  forall x, List.filter (fun y => cmp x y =? 0) (stableSort sort cmp arr)
            = List.filter (fun y => cmp x y =? 0) arr.
Proof.
  intros Hs Hc. destruct (stableSort_places sort Hs cmp Hc arr) as [Hp Ho]. split_and!.
  - unfold stableSort. rewrite Hp. unfold with_places. rewrite fst_zip by (by rewrite length_seq). done.
  - unfold stableSort. eapply StronglySorted_map; [|exact Ho]. cbn. intros; lia.
  - intros x. by apply stableSort_filter.
Qed.

(** A sort that keeps the promise. *)
Definition not_after {A} (cmp : A -> A -> Z) (a b : A) : Prop := cmp a b <= 0.

#[export] Instance not_after_dec {A} (cmp : A -> A -> Z) : RelDecision (not_after cmp).
Proof. intros a b. apply Z_le_dec. Defined.

Lemma merge_sort_sorts {A} : @sorts A (fun cmp => merge_sort (not_after cmp)).
Proof.
  intros cmp l [Ha Ht]. split; [apply merge_sort_Permutation|].
  assert (Transitive (not_after cmp)) by (intros a b c; apply Ht).
  assert (Total (not_after cmp)) by (intros a b; unfold not_after; specialize (Ha a b); lia).
  apply (StronglySorted_merge_sort (not_after cmp)).
Qed.

Definition by_merging (cmp : (Z * string) * nat -> (Z * string) * nat -> Z) :=
  merge_sort (not_after cmp).

Definition by_number (p q : Z * string) : Z := fst p - fst q.

Lemma stableSort_stable_witness :
  stableSort by_merging by_number
      [(2, "a"%string); (1, "b"%string); (2, "c"%string); (1, "d"%string)]
    = [(1, "b"%string); (1, "d"%string); (2, "a"%string); (2, "c"%string)] /\
  forall x arr, List.filter (fun y => by_number x y =? 0) (stableSort by_merging by_number arr)
                = List.filter (fun y => by_number x y =? 0) arr.
Proof.
  split; [vm_compute; reflexivity|]. intros x arr.
  apply (stableSort_stable by_merging by_number); [apply merge_sort_sorts|].
  split; unfold by_number; intros; lia.
Defined.
