(* ===== verification/HsExtremes.v ===== *)
(** * Charts: the extremes of the data and the stacks

    [highstock.src.js]: [Axis.getSeriesExtremes], [StackItem.setTotal] and the
    alignment of a [StackItem].  The x values are whole numbers, the y values
    rational ones, without rounding.  [None] in a list of values is a [null] or
    [undefined] value, and [None] as an extreme is [null]. *)

From stdpp Require Import gmap strings.
From Stdlib Require Import QArith Qminmax Lqa.
From S2P Require Import Prelude JsString HsAxis.
Local Open Scope list_scope.
Local Open Scope Z_scope.

(** ** Series *)

(** [options.threshold]: missing, [null] or a number. *)
Inductive threshold := ThUndefined | ThNull | Th (q : Q).

(** How the values of a series become those that count: as they are, added up in the
    stack of a key, or through the hook of compared series. *)
Inductive mode := Plain | Stacked (percent : bool) (stackKey : string) | Compared (modifyValue : Q -> Q).

(** The processed y values: numbers, or arrays like those of ranges, which are
    neither stacked nor compared and never empty. *)
Inductive y_data :=
| Numbers (m : mode) (ys : list (option Q))
| Arrays (ys : list (option (list (option Q)))).

Record y_series := YSeries {
  ys_visible : bool;
  ys_threshold : threshold;
  ys_xData : list Z;                       (* series.xData *)
  ys_processedXData : list Z;
  ys_processedYData : y_data;
  ys_cropped : bool;
  ys_min : option Q;                       (* series.xAxis.getExtremes() *)
  ys_max : option Q
}.

(** [series.type + pick(stackOption, '')]; the type is part of the key. *)
Definition stackKey (type : string) (stack : option string) : string := (type ++ default "" stack)%string.

(** A stack at an x value: whether it is the one of negative values, its key, the x
    value; the text [negKey] differs from every [stackKey], which starts with a type. *)
Definition place : Type := bool * string * Z.

(** What the axis keeps. *)
Record extremes := Extremes {
  ex_dataMin : option Q;
  ex_dataMax : option Q;
  ex_ignoreMinPadding : bool;
  ex_ignoreMaxPadding : bool;
  ex_usePercentage : bool;
  ex_stacks : gmap place Q                 (* axis.stacks: the totals *)
}.

(** ** One series *)

(** Validating the threshold of a logarithmic axis. *)
Definition valid_threshold (isLog : bool) (t : threshold) : threshold :=
  match t with
  | Th q => if isLog && Qle_bool q 0 then ThNull else t
  | _ => t
  end.

(** [y < threshold] *)
Definition below (y : Q) (t : threshold) : bool :=
  match t with ThUndefined => false | ThNull => Qlt_b y 0 | Th q => Qlt_b y q end.

(** [(xData[i + 1] || x) >= xExtremes.min && (xData[i - 1] || x) <= xExtremes.max] *)
Definition or_x (o : option Z) (x : Z) : Z :=
  match o with Some z => if z =? 0 then x else z | None => x end.
Definition in_sight (s : y_series) (i : nat) (x : Z) : bool :=
  ys_cropped s ||
  (match ys_min s with
   | Some m => Qle_bool m (inject_Z (or_x (ys_processedXData s !! S i) x)) | None => false end
   && match ys_max s with
      | Some m => Qle_bool (inject_Z (or_x (match i with O => None | S i' => ys_processedXData s !! i' end) x)) m
      | None => false end).

(** The state of the loop over the values: the stacks of this call ([posStack] and
    [negStack]), those of the axis, and [activeYData]. *)
Record reading := Reading {
  rd_sums : gmap place Q;
  rd_stacks : gmap place Q;
  rd_active : list Q
}.

(** [pointStack[x] = defined(pointStack[x]) ? pointStack[x] + y : y] *)
Definition stacked (sums : gmap place Q) (k : place) (y : Q) : Q :=
  match sums !! k with Some s => (s + y)%Q | None => y end.

Definition read_number (s : y_series) (t : threshold) (m : mode) (i : nat) (x : Z) (y : Q) (r : reading)
    : reading :=
  let '(y, r) :=
    match m with
    | Plain => (y, r)
    | Compared f => (f y, r)
    | Stacked _ key =>
        let k := (below y t, key, x) in
        let y := stacked (rd_sums r) k y in
        (y, Reading (<[k := y]> (rd_sums r)) (<[k := y]> (rd_stacks r)) (rd_active r))
    end in
  if in_sight s i x then Reading (rd_sums r) (rd_stacks r) (rd_active r ++ [y]) else r.

Fixpoint read_numbers (s : y_series) (t : threshold) (m : mode) (i : nat) (xs : list Z)
    (ys : list (option Q)) (r : reading) : reading :=
  match xs, ys with
  | x :: xs', y :: ys' =>
      read_numbers s t m (S i) xs' ys'
        (match y with Some y => read_number s t m i x y r | None => r end)
  | _, _ => r
  end.

(** [while (j--)]: the values of an array that are not [null], from the last. *)
Definition from_last (ys : list (option Q)) : list Q := omap id (rev ys).

Fixpoint read_arrays (s : y_series) (i : nat) (xs : list Z) (ys : list (option (list (option Q))))
    (active : list Q) : list Q :=
  match xs, ys with
  | x :: xs', y :: ys' =>
      read_arrays s (S i) xs' ys'
        (match y with
         | Some l => if in_sight s i x then active ++ from_last l else active
         | None => active
         end)
  | _, _ => active
  end.

Definition read_values (s : y_series) (t : threshold) (r : reading) : reading :=
  match ys_processedYData s with
  | Numbers m ys => read_numbers s t m 0 (ys_processedXData s) ys r
  | Arrays ys =>
      Reading (rd_sums r) (rd_stacks r) (read_arrays s 0 (ys_processedXData s) ys (rd_active r))
  end.

(** [mathMin(pick(old, l[0]), arrayMin(l))] for a list with a first value. *)
Definition merge_min (old : option Q) (l : list Q) : option Q :=
  match l with [] => old | x :: _ => Some (Qmin (default x old) (q_min l)) end.
Definition merge_max (old : option Q) (l : list Q) : option Q :=
  match l with [] => old | x :: _ => Some (Qmax (default x old) (q_max l)) end.

(** [null] counts as zero where it is compared with a number. *)
Definition or_zero (o : option Q) : Q := default 0%Q o.

(** Adjusting to the threshold. *)
Definition to_threshold (t : threshold) (e : extremes) : extremes :=
  match t with
  | Th q =>
      if Qle_bool q (or_zero (ex_dataMin e)) then
        Extremes (Some q) (ex_dataMax e) true (ex_ignoreMaxPadding e) (ex_usePercentage e) (ex_stacks e)
      else if Qlt_b (or_zero (ex_dataMax e)) q then
        Extremes (ex_dataMin e) (Some q) (ex_ignoreMinPadding e) true (ex_usePercentage e) (ex_stacks e)
      else e
  | _ => e
  end.

Definition is_percent (s : y_series) : bool :=
  match ys_processedYData s with Numbers (Stacked p _) _ => p | _ => false end.

(** ** The loop over the series *)

(** [axis.isXAxis] *)
Definition x_series (e : extremes) (s : y_series) : extremes :=
  let xs := inject_Z <$> ys_xData s in
  Extremes (merge_min (ex_dataMin e) xs) (merge_max (ex_dataMax e) xs) (ex_ignoreMinPadding e)
    (ex_ignoreMaxPadding e) (ex_usePercentage e) (ex_stacks e).

(** A series of a y axis; with the stacks of this call. *)
Definition y_series_step (isLog : bool) (p : gmap place Q * extremes) (s : y_series)
    : gmap place Q * extremes :=
  let '(sums, e) := p in
  let t := valid_threshold isLog (ys_threshold s) in
  let percent := is_percent s in
  let dataMin := if percent then Some 0%Q else ex_dataMin e in
  let dataMax := if percent then Some (inject_Z 99) else ex_dataMax e in
  let r := read_values s t (Reading sums (ex_stacks e) []) in
  (rd_sums r,
   to_threshold t
     (Extremes (if percent then dataMin else merge_min dataMin (rd_active r))
        (if percent then dataMax else merge_max dataMax (rd_active r))
        (ex_ignoreMinPadding e) (ex_ignoreMaxPadding e) percent (rd_stacks r))).

Definition shown_series (ignoreHiddenSeries : bool) (l : list y_series) : list y_series :=
  List.filter (fun s => ys_visible s || negb ignoreHiddenSeries) l.

Definition getSeriesExtremes (isXAxis isLog ignoreHiddenSeries : bool) (l : list y_series)
    (e : extremes) : extremes :=
  let e := Extremes None None (ex_ignoreMinPadding e) (ex_ignoreMaxPadding e)
             (ex_usePercentage e) (ex_stacks e) in
  let l := shown_series ignoreHiddenSeries l in
  if isXAxis then fold_left x_series l e
  else snd (fold_left (y_series_step isLog) l (∅, e)).

(** ** The label of a stack *)

(** What the label options say of the alignment; the chart inverted or not and the
    stack of negative values or not decide the rest. *)
Record align_options := AlignOptions {
  al_align : string; al_verticalAlign : string; al_y : Z; al_x : Z
}.
Definition stack_align (inverted isNegative : bool) (align verticalAlign : option string)
    (y x : option Z) : align_options :=
  AlignOptions
    (default (if inverted then if isNegative then "left" else "right" else "center")%string
       (truthy_str align))
    (default (if inverted then "middle" else if isNegative then "bottom" else "top")%string
       (truthy_str verticalAlign))
    (default (if inverted then 4 else if isNegative then 14 else -6) y)
    (default (if inverted then if isNegative then -6 else 6 else 0) x).

Definition textAlign (inverted isNegative : bool) (option_ : option string) : string :=
  default (if inverted then if isNegative then "left" else "right" else "center")%string
    (truthy_str option_).

(** Two columns stacked, one value negative. *)
Example getSeriesExtremes_ex :
  let s ys := YSeries true (Th 0) [] [1; 2; 3] (Numbers (Stacked false "column") ys) true None None in
  let e := getSeriesExtremes false false true
             [s [Some 1%Q; Some (-3)%Q; None]; s [Some 2%Q; Some (-4)%Q; Some 2%Q]]
             (Extremes None None false false false ∅) in
  ((Qred <$> ex_dataMin e), (Qred <$> ex_dataMax e), Qred <$> (ex_stacks e !! (true, "column"%string, 2)))
  = (Some (-7)%Q, Some 3%Q, Some (-7)%Q).
Proof. vm_compute. reflexivity. Qed.

(** ** What the extremes are of

    The specification lists the values in the order of the series: a value with the
    stack it adds to, if any, and whether it is in sight. *)
Record entry := Entry { en_place : option place; en_value : Q; en_seen : bool }.

(** The sum of the values of a stack. *)
Fixpoint total (k : place) (es : list entry) : Q :=
  match es with
  | [] => 0
  | e :: es' => if decide (en_place e = Some k) then (en_value e + total k es')%Q else total k es'
  end.

(** What counts for an entry: its value, or the height its stack has reached with it. *)
Definition counted (es : list entry) (n : nat) (e : entry) : Q :=
  match en_place e with None => en_value e | Some k => total k (take (S n) es) end.

Definition number_entry (s : y_series) (t : threshold) (m : mode) (i : nat) (x : Z) (y : Q) : entry :=
  match m with
  | Plain => Entry None y (in_sight s i x)
  | Compared f => Entry None (f y) (in_sight s i x)
  | Stacked _ key => Entry (Some (below y t, key, x)) y (in_sight s i x)
  end.

Fixpoint number_entries (s : y_series) (t : threshold) (m : mode) (i : nat) (xs : list Z)
    (ys : list (option Q)) : list entry :=
  match xs, ys with
  | x :: xs', y :: ys' =>
      match y with Some y => [number_entry s t m i x y] | None => [] end
      ++ number_entries s t m (S i) xs' ys'
  | _, _ => []
  end.

Fixpoint array_entries (s : y_series) (i : nat) (xs : list Z) (ys : list (option (list (option Q))))
    : list entry :=
  match xs, ys with
  | x :: xs', y :: ys' =>
      match y with
      | Some l => (fun y => Entry None y (in_sight s i x)) <$> from_last l
      | None => []
      end ++ array_entries s (S i) xs' ys'
  | _, _ => []
  end.

Definition series_entries (isLog : bool) (s : y_series) : list entry :=
  match ys_processedYData s with
  | Numbers m ys => number_entries s (valid_threshold isLog (ys_threshold s)) m 0 (ys_processedXData s) ys
  | Arrays ys => array_entries s 0 (ys_processedXData s) ys
  end.

Definition entries (isLog : bool) (l : list y_series) : list entry :=
  l ≫= series_entries isLog.

(** *** Sums of stacks *)

Lemma total_app k es es' : (total k (es ++ es') == total k es + total k es')%Q.
Proof. induction es as [|e es IH]; cbn; [ring|]. case_decide; rewrite IH; ring. Qed.

Definition sums_ok (sums : gmap place Q) (es : list entry) : Prop :=
  forall k, match sums !! k with
            | Some q => (q == total k es)%Q
            | None => (total k es == 0)%Q /\ ~ exists e, In e es /\ en_place e = Some k
            end.

Lemma sums_ok_plain sums es e : en_place e = None -> sums_ok sums es -> sums_ok sums (es ++ [e]).
Proof.
  intros He H k. specialize (H k). pose proof (total_app k es [e]) as Ht. cbn in Ht.
  rewrite decide_False in Ht by (rewrite He; done).
  destruct (sums !! k); [rewrite Ht, H; ring|]. destruct H as [H0 Hn]. split; [rewrite Ht, H0; ring|].
  intros (e' & [?|[->|[]]]%in_app_or & Hp); [apply Hn; eauto|congruence].
Qed.

Lemma sums_ok_stacked sums es k v b : sums_ok sums es ->
  sums_ok (<[k := stacked sums k v]> sums) (es ++ [Entry (Some k) v b]) /\
  (stacked sums k v == total k (es ++ [Entry (Some k) v b]))%Q.
Proof.
  intros H. assert (stacked sums k v == total k (es ++ [Entry (Some k) v b]))%Q as Hv.
  { unfold stacked. pose proof (H k) as Hk. rewrite total_app. cbn. rewrite decide_True by done.
    destruct (sums !! k) as [q|]; [rewrite Hk; ring|]. destruct Hk as [-> _]. ring. }
  split; [|done]. intros j. destruct (decide (j = k)) as [->|Hj].
  - by rewrite lookup_insert_eq.
  - rewrite lookup_insert_ne by done. specialize (H j). pose proof (total_app j es [Entry (Some k) v b]) as Ht.
    cbn in Ht. rewrite decide_False in Ht by congruence.
    destruct (sums !! j); [rewrite Ht, H; ring|]. destruct H as [H0 Hn]. split; [rewrite Ht, H0; ring|].
    intros (e' & [?|[<-|[]]]%in_app_or & Hp); [apply Hn; eauto|cbn in Hp; congruence].
Qed.

(** *** Reading a series *)

(** What reading adds to the active values: one for each new entry in sight, and
    nothing else. *)
Definition active_ok (n0 : nat) (es : list entry) (active : list Q) : Prop :=
  (forall n e, (n0 <= n)%nat -> es !! n = Some e -> en_seen e = true ->
     exists v, In v active /\ (v == counted es n e)%Q) /\
  (forall v, In v active -> exists n e, es !! n = Some e /\ en_seen e = true /\ (v == counted es n e)%Q).

Lemma counted_app es es' n e : (n < length es)%nat -> counted (es ++ es') n e = counted es n e.
Proof. intros H. unfold counted. destruct (en_place e); [|done]. rewrite take_app_le by lia. done. Qed.

Lemma active_ok_snoc n0 es e active v :
  active_ok n0 es active -> (v == counted (es ++ [e]) (length es) e)%Q ->
  active_ok n0 (es ++ [e]) (if en_seen e then active ++ [v] else active).
Proof.
  intros [H1 H2] Hv. split.
  - intros n e' Hn He Hs. destruct (decide (n < length es)%nat) as [Hl|Hl].
    + rewrite lookup_app_l in He by done. rewrite counted_app by done.
      destruct (H1 n e' Hn He Hs) as (v' & Hin & Hv'). exists v'. split; [|done].
      destruct (en_seen e); [apply in_or_app; by left|done].
    + rewrite lookup_app_r in He by lia. apply list_lookup_singleton_Some in He as [Hz ->].
      assert (n = length es) as -> by lia. rewrite Hs. exists v. split; [apply in_or_app; right; by left|done].
  - assert (forall v', In v' active -> exists n e', (es ++ [e]) !! n = Some e' /\ en_seen e' = true
      /\ (v' == counted (es ++ [e]) n e')%Q) as Hold.
    { intros v' (n & e' & He & Hs & Hd)%H2. pose proof (lookup_lt_Some _ _ _ He). exists n, e'.
      rewrite lookup_app_l, counted_app by done. done. }
    destruct (en_seen e) eqn:Hs; [|done].
    intros v' [?|[<-|[]]]%in_app_or; [by apply Hold|]. exists (length es), e.
    by rewrite lookup_app_r, Nat.sub_diag.
Qed.

Definition reading_ok (n0 : nat) (es : list entry) (r : reading) : Prop :=
  sums_ok (rd_sums r) es /\ rd_stacks r = rd_sums r /\ active_ok n0 es (rd_active r).

Lemma take_snoc_all {A} (l : list A) x : take (S (length l)) (l ++ [x]) = l ++ [x].
Proof. apply take_ge. rewrite length_app. cbn. lia. Qed.

Lemma read_number_ok n0 es s t m i x y r :
  reading_ok n0 es r -> reading_ok n0 (es ++ [number_entry s t m i x y]) (read_number s t m i x y r).
Proof.
  intros (Hs & Hk & Ha). unfold read_number, number_entry, reading_ok. destruct m as [|p key|f].
  - destruct (active_ok_snoc n0 es (Entry None y (in_sight s i x)) _ y Ha) as [? ?]; [done|].
    cbn in *. destruct (in_sight s i x); cbn; (split_and!; [by apply sums_ok_plain|done|done]).
  - set (k := (below y t, key, x)).
    destruct (sums_ok_stacked _ es k y (in_sight s i x) Hs) as [Hs' Hv].
    destruct (active_ok_snoc n0 es (Entry (Some k) y (in_sight s i x)) _ (stacked (rd_sums r) k y) Ha)
      as [? ?]; [unfold counted; cbn [en_place]; by rewrite take_snoc_all|].
    cbn in *. rewrite Hk. destruct (in_sight s i x); cbn; by split_and!.
  - destruct (active_ok_snoc n0 es (Entry None (f y) (in_sight s i x)) _ (f y) Ha) as [? ?]; [done|].
    cbn in *. destruct (in_sight s i x); cbn; (split_and!; [by apply sums_ok_plain|done|done]).
Qed.

Lemma read_numbers_ok n0 s t m xs : forall ys i es r, reading_ok n0 es r ->
  reading_ok n0 (es ++ number_entries s t m i xs ys) (read_numbers s t m i xs ys r).
Proof.
  induction xs as [|x xs IH]; intros [|y ys] i es r H; cbn; try by rewrite app_nil_r.
  destruct y as [y|]; [|by apply IH]. rewrite app_assoc. by apply IH, read_number_ok.
Qed.

Lemma seen_array_ok n0 (b : bool) l : forall es r, reading_ok n0 es r ->
  reading_ok n0 (es ++ ((fun y => Entry None y b) <$> l))
    (Reading (rd_sums r) (rd_stacks r) (if b then rd_active r ++ l else rd_active r)).
Proof.
  induction l as [|y l IH]; intros es r H; cbn.
  - rewrite !app_nil_r. destruct r, b; exact H.
  - change (Entry None y b :: ((fun y => Entry None y b) <$> l))
      with ([Entry None y b] ++ ((fun y => Entry None y b) <$> l)).
    rewrite app_assoc.
    pose proof (IH (es ++ [Entry None y b])
      (Reading (rd_sums r) (rd_stacks r) (if b then rd_active r ++ [y] else rd_active r))) as IH'.
    cbn in IH'. destruct b; [rewrite <-(app_assoc (rd_active r) [y] l) in IH'|]; apply IH'; destruct H as (Hs & Hk & Ha);
      (split_and!; cbn; [by apply sums_ok_plain|done|]).
    + apply (active_ok_snoc n0 es (Entry None y true) _ y Ha). done.
    + apply (active_ok_snoc n0 es (Entry None y false) _ y Ha). done.
Qed.

Lemma read_arrays_ok n0 s xs : forall ys i es r, reading_ok n0 es r ->
  reading_ok n0 (es ++ array_entries s i xs ys)
    (Reading (rd_sums r) (rd_stacks r) (read_arrays s i xs ys (rd_active r))).
Proof.
  induction xs as [|x xs IH]; intros [|y ys] i es r H; cbn.
  1-3: by rewrite app_nil_r; destruct r.
  destruct y as [l|]; [|by apply (IH ys (S i) es r)]. rewrite app_assoc.
  pose proof (seen_array_ok n0 (in_sight s i x) (from_last l) es r H) as H'.
  destruct (in_sight s i x); by apply (IH ys (S i) _ _ H').
Qed.

Lemma read_values_ok isLog s es r : reading_ok (length es) es r ->
  reading_ok (length es) (es ++ series_entries isLog s)
    (read_values s (valid_threshold isLog (ys_threshold s)) r).
Proof.
  intros H. unfold read_values, series_entries. destruct (ys_processedYData s).
  - by apply read_numbers_ok.
  - by apply read_arrays_ok.
Qed.

(** *** All the series *)

(** An extreme is some counted value in sight, or a threshold. *)
Definition source_of (isLog : bool) (l : list y_series) (es : list entry) (q : Q) : Prop :=
  (exists n e, es !! n = Some e /\ en_seen e = true /\ (q == counted es n e)%Q) \/
  (exists s q', In s l /\ valid_threshold isLog (ys_threshold s) = Th q' /\ (q == q')%Q).

Definition within (e : extremes) (v : Q) : Prop :=
  exists a b, ex_dataMin e = Some a /\ ex_dataMax e = Some b /\ (a <= v /\ v <= b)%Q.

Record extremes_ok (isLog : bool) (l : list y_series) (es : list entry) (p : gmap place Q * extremes)
    : Prop := {
  ok_sums : sums_ok (fst p) es;
  ok_stacks : ex_stacks (snd p) = fst p;
  ok_within : forall n e, es !! n = Some e -> en_seen e = true -> within (snd p) (counted es n e);
  ok_min : forall q, ex_dataMin (snd p) = Some q -> source_of isLog l es q;
  ok_max : forall q, ex_dataMax (snd p) = Some q -> source_of isLog l es q
}.

Lemma merge_bounds old_min old_max l v :
  (In v l \/ exists a b, old_min = Some a /\ old_max = Some b /\ (a <= v /\ v <= b)%Q) ->
  exists a b, merge_min old_min l = Some a /\ merge_max old_max l = Some b /\ (a <= v /\ v <= b)%Q.
Proof.
  intros H. destruct l as [|x l].
  - destruct H as [[]|H]. cbn. exact H.
  - unfold merge_min, merge_max. eexists _, _. split_and!; [done..| |].
    + destruct H as [H|(a & b & -> & _ & Ha & _)].
      * eapply Qle_trans; [apply Q.le_min_r|]. by apply q_min_le.
      * eapply Qle_trans; [apply Q.le_min_l|done].
    + destruct H as [H|(a & b & _ & -> & _ & Hb)].
      * eapply Qle_trans; [|apply Q.le_max_r]. by apply q_max_ge.
      * eapply Qle_trans; [|apply Q.le_max_l]. done.
Qed.

Lemma merge_min_source old l q : merge_min old l = Some q ->
  (exists q', (q == q')%Q /\ (In q' l \/ old = Some q')).
Proof.
  destruct l as [|x l]; cbn [merge_min]; [intros ->; exists q; split; [reflexivity|by right]|].
  intros [= <-]. destruct (Q.min_dec (default x old) (q_min (x :: l))) as [H|H];
    (eexists; split; [exact H|]).
  - destruct old; [by right|left; by left].
  - left. apply q_min_in.
Qed.

Lemma merge_max_source old l q : merge_max old l = Some q ->
  (exists q', (q == q')%Q /\ (In q' l \/ old = Some q')).
Proof.
  destruct l as [|x l]; cbn [merge_max]; [intros ->; exists q; split; [reflexivity|by right]|].
  intros [= <-]. destruct (Q.max_dec (default x old) (q_max (x :: l))) as [H|H];
    (eexists; split; [exact H|]).
  - destruct old; [by right|left; by left].
  - left. apply q_max_in.
Qed.

Lemma source_of_more isLog l l' es es' q q' : (q == q')%Q -> source_of isLog l es q' ->
  source_of isLog (l ++ l') (es ++ es') q.
Proof.
  intros Hq [(n & e & H1 & H2 & H3)|(s & q2 & H1 & H2 & H3)]; [left|right].
  - pose proof (lookup_lt_Some _ _ _ H1). exists n, e.
    rewrite lookup_app_l, counted_app by done. split_and!; [done..|]. by rewrite Hq.
  - exists s, q2. split_and!; [apply in_or_app; by left|done|by rewrite Hq].
Qed.

Lemma to_threshold_within t e v : within e v -> within (to_threshold t e) v.
Proof.
  destruct e as [dm dM i j p st]. intros (a & b & Ha & Hb & H1 & H2). cbn in Ha, Hb. subst dm dM.
  destruct t as [| |q]; [by exists a, b..|]. unfold to_threshold. cbn.
  destruct (Qle_bool q a) eqn:E1; [|destruct (Qlt_b b q) eqn:E2].
  - apply Qle_bool_iff in E1. exists q, b. split_and!; [done..| |done]. lra.
  - apply Qlt_b_spec in E2. exists a, q. split_and!; [done..|]. lra.
  - by exists a, b.
Qed.

Lemma y_series_step_ok isLog l es p s : is_percent s = false ->
  extremes_ok isLog l es p ->
  extremes_ok isLog (l ++ [s]) (es ++ series_entries isLog s) (y_series_step isLog p s).
Proof.
  intros Hp [Hs Hk Hw Hm HM]. destruct p as [sums e]. cbn in *. rewrite Hp.
  set (t := valid_threshold isLog (ys_threshold s)).
  destruct (read_values_ok isLog s es (Reading sums (ex_stacks e) [])) as (Hs' & Hk' & Ha1 & Ha2).
  { split_and!; [done|done|]. split; [|by intros ? []]. cbn. intros n e' Hn He.
    apply lookup_lt_Some in He. lia. }
  fold t in Hs', Hk', Ha1, Ha2.
  set (r := read_values s t _) in *. set (es' := es ++ series_entries isLog s) in *.
  assert (forall q, merge_min (ex_dataMin e) (rd_active r) = Some q -> source_of isLog (l ++ [s]) es' q) as Hmin.
  { intros q (q' & Hq & [Hin|Ho])%merge_min_source.
    - left. destruct (Ha2 q' Hin) as (n & e' & H1 & H2 & H3). exists n, e'. by rewrite Hq.
    - by eapply source_of_more, Hm. }
  assert (forall q, merge_max (ex_dataMax e) (rd_active r) = Some q -> source_of isLog (l ++ [s]) es' q) as Hmax.
  { intros q (q' & Hq & [Hin|Ho])%merge_max_source.
    - left. destruct (Ha2 q' Hin) as (n & e' & H1 & H2 & H3). exists n, e'. by rewrite Hq.
    - by eapply source_of_more, HM. }
  assert (forall q, t = Th q -> source_of isLog (l ++ [s]) es' q) as Ht.
  { intros q Hq. right. exists s, q. split_and!; [apply in_or_app; right; by left|done|reflexivity]. }
  set (e1 := Extremes _ _ _ _ _ _).
  split; cbn [fst snd].
  - exact Hs'.
  - unfold to_threshold. destruct t; try done. repeat case_match; done.
  - intros n e' He Hseen. apply to_threshold_within.
    assert (forall v, In v (rd_active r) \/ within e v -> within e1 v) as Hin.
    { intros v H. apply merge_bounds. destruct H as [?|(a & b & ? & ? & ?)]; [by left|right; eauto]. }
    destruct (decide (n < length es)%nat) as [Hl|Hl].
    + unfold es' in He. rewrite lookup_app_l in He by done. apply Hin. right.
      unfold es'. rewrite counted_app by done. by apply Hw.
    + destruct (Ha1 n e' ltac:(lia) He Hseen) as (v & Hv & Hd).
      destruct (Hin v (or_introl Hv)) as (a & b & H1 & H2 & H3). exists a, b. by rewrite <-Hd.
  - unfold to_threshold. destruct t as [| |q0]; [exact Hmin..|]. repeat case_match; cbn; [|exact Hmin..].
    intros q [= <-]. by apply Ht.
  - unfold to_threshold. destruct t as [| |q0]; [exact Hmax..|]. repeat case_match; cbn; [exact Hmax| |exact Hmax].
    intros q [= <-]. by apply Ht.
Qed.

Lemma getSeriesExtremes_ok isLog ignoreHidden l e0 :
  ex_stacks e0 = ∅ -> forallb (fun s => negb (is_percent s)) (shown_series ignoreHidden l) = true ->
  let shown := shown_series ignoreHidden l in
  let e := getSeriesExtremes false isLog ignoreHidden l e0 in
  extremes_ok isLog shown (entries isLog shown) (ex_stacks e, e).
Proof.
  intros He0 Hp shown. unfold getSeriesExtremes. fold shown in Hp |- *. cbn zeta.
  assert (forall done rest p, forallb (fun s => negb (is_percent s)) rest = true ->
    extremes_ok isLog done (entries isLog done) p ->
    extremes_ok isLog (done ++ rest) (entries isLog (done ++ rest))
      (fold_left (y_series_step isLog) rest p)) as Hfold.
  { intros done rest. revert done. induction rest as [|s rest IH]; intros done p Hr H; cbn in *.
    - by rewrite app_nil_r.
    - apply andb_true_iff in Hr as [Hs%negb_true_iff Hr].
      pose proof (IH (done ++ [s]) (y_series_step isLog p s) Hr) as IH'.
      rewrite <-app_assoc in IH'. apply IH'.
      replace (entries isLog (done ++ [s])) with (entries isLog done ++ series_entries isLog s).
      + by apply y_series_step_ok.
      + unfold entries. rewrite bind_app. cbn. by rewrite app_nil_r. }
  destruct (Hfold [] shown (∅, Extremes None None (ex_ignoreMinPadding e0) (ex_ignoreMaxPadding e0)
    (ex_usePercentage e0) (ex_stacks e0)) Hp) as [Hs Hk Hw Hm HM].
  { split; cbn; try done. intros k. rewrite lookup_empty. split; [reflexivity|]. by intros (? & [] & _). }
  cbn [app] in *. split; cbn [fst snd]; [by rewrite Hk|done|done|done|done].
Qed.

(** C11: The extremes of a value axis at the first reading of its series, when its stacks are
    empty, without percent stacks: the values of the shown series that are in sight lie
    between them, a stacked value counting as the height its stack has reached with it;
    each extreme is one of these or the threshold of a series; and the totals of the stacks
    are the sums of the values of their sign at their x. *)
Theorem getSeriesExtremes_contain isLog ignoreHidden l e0 e :
  ex_stacks e0 = ∅ -> forallb (fun s => negb (is_percent s)) (shown_series ignoreHidden l) = true ->
  getSeriesExtremes false isLog ignoreHidden l e0 = e ->
  let shown := shown_series ignoreHidden l in
  let es := entries isLog shown in
  (forall n x, es !! n = Some x -> en_seen x = true -> within e (counted es n x)) /\
  (forall q, ex_dataMin e = Some q \/ ex_dataMax e = Some q -> source_of isLog shown es q) /\
  (forall k, match ex_stacks e !! k with
             | Some q => (q == total k es)%Q
             | None => ~ exists x, In x es /\ en_place x = Some k
             end).
Proof.
  intros He0 Hp <- shown es.
  destruct (getSeriesExtremes_ok isLog ignoreHidden l e0 He0 Hp) as [Hs _ Hw Hm HM]. split_and!.
  - exact Hw.
  - intros q [?|?]; [by apply Hm|by apply HM].
  - intros k. specialize (Hs k). cbn [fst] in Hs. destruct (_ !! k); [done|]. by destruct Hs.
Qed.

Lemma getSeriesExtremes_contain_witness :
  let s ys := YSeries true (Th 0) [] [1; 2] (Numbers (Stacked false "column") ys) true None None in
  let l := [s [Some 1%Q; Some (-3)%Q]; s [Some 2%Q; Some (-4)%Q]] in
  let e := getSeriesExtremes false false true l (Extremes None None false false false ∅) in
  within e (counted (entries false (shown_series true l)) 3 (Entry (Some (true, "column"%string, 2)) (-4) true)).
Proof.
  cbv zeta. eapply (getSeriesExtremes_contain false true _ (Extremes None None false false false ∅));
    vm_compute; reflexivity.
Defined.
