(* ===== verification/HsScale.v ===== *)
(** * Charts: the scale of an axis

    [highstock.src.js]: [Axis.setAxisSize], [setAxisTranslation], [translate],
    [getPlotLinePath], [getPlotBandPath], [getLinearTickPositions] on fractions,
    [getLogTickPositions], [getMinorTickPositions], [setTickPositions], [setScale],
    [setExtremes], [getExtremes] and [getThreshold], with [correctFloat],
    [normalizeTickInterval] and the renderer's [crispLine].

    Numbers are rational, without rounding except where the code rounds; [None] is
    no number: [undefined], [null] or [NaN].  Logarithms and powers of ten are
    parameters. *)

From stdpp Require Import gmap strings.
From Stdlib Require Import QArith Qround Qminmax Qabs Lqa.
From S2P Require Import Prelude JsString JsNum HsAxis HsOrdinal HsExtremes.
Local Open Scope list_scope.
Local Open Scope Z_scope.

(** ** Numbers *)

(** [10^e] *)
Definition power10 (e : Z) : Q := if 0 <=? e then inject_Z (10 ^ e) else / inject_Z (10 ^ (- e)).

(** [mathFloor(math.log(x) / math.LN10)] for a positive number. *)
Definition exponent (x : Q) : Z := decimal_exponent (Z.abs (Qnum x)) (Zpos (Qden x)).

(** [correctFloat]: the fourteen leading digits, halves up. *)
Definition correctFloat (x : Q) : Q :=
  let x := Qred x in
  if Qnum x =? 0 then 0%Q
  else
    let k := 13 - exponent x in
    let n := round_scaled (Z.abs (Qnum x)) (Zpos (Qden x)) k in
    (inject_Z (Z.sgn (Qnum x) * n) * power10 (- k))%Q.

Example correctFloat_ex :
  Qred (correctFloat (30000000000000004 # 100000000000000000)) = (3 # 10)%Q /\
  Qred (correctFloat (- (2 # 3))) = (- (33333333333333 + 33333333333334) # 100000000000000)%Q /\
  Qred (correctFloat 1234) = 1234%Q.
Proof. vm_compute. done. Qed.

(** [mathRound] *)
Definition mathRound (x : Q) : Z := Qfloor (x + (1 # 2)).

(** [x % y] *)
Definition Qrem (x y : Q) : Q :=
  let d := (x / y)%Q in
  (x - inject_Z (if Qle_bool 0 d then Qfloor d else Qceiling d) * y)%Q.

(** [normalizeTickInterval(interval, null, magnitude, options)] *)
Fixpoint pick_multiple (normalized : Q) (interval : Q) (multiples : list Q) : Q :=
  match multiples with
  | [] => interval
  | m :: rest =>
      if Qle_bool normalized ((m + match rest with m' :: _ => m' | [] => m end) / 2) then m
      else pick_multiple normalized m rest
  end.
Definition default_multiples : list Q := [1%Q; 2%Q; 5 # 2; 5%Q; 10%Q].
Definition normalizeTickInterval (allowDecimals : bool) (interval magnitude : Q) : Q :=
  let normalized := (interval / magnitude)%Q in
  let multiples :=
    if allowDecimals then default_multiples
    else if Qeq_bool magnitude 1 then [1%Q; 2%Q; 5%Q; 10%Q]
    else if Qle_bool magnitude (1 # 10) then [(/ magnitude)%Q]
    else default_multiples in
  (pick_multiple normalized interval multiples * magnitude)%Q.

(** ** Sizes *)

(** What an axis reads of its chart. *)
Record chart_metrics := ChartMetrics {
  cm_plotLeft : Q; cm_plotTop : Q; cm_plotWidth : Q; cm_plotHeight : Q;
  cm_chartWidth : Q; cm_chartHeight : Q;
  cm_oldChartWidth : option Q; cm_oldChartHeight : option Q
}.

Record size_options := SizeOptions {
  so_left : option Q; so_top : option Q; so_width : option Q; so_height : option Q;
  so_offsetLeft : option Q; so_offsetRight : option Q
}.

Record metrics := Metrics {
  m_left : Q; m_top : Q; m_width : Q; m_height : Q; m_bottom : Q; m_right : Q; m_len : Q
}.

Definition setAxisSize (horiz : bool) (o : size_options) (c : chart_metrics) : metrics :=
  let offsetLeft := default 0%Q (so_offsetLeft o) in
  let offsetRight := default 0%Q (so_offsetRight o) in
  let left_ := default (cm_plotLeft c + offsetLeft)%Q (so_left o) in
  let top := default (cm_plotTop c) (so_top o) in
  let width := default (cm_plotWidth c - offsetLeft + offsetRight)%Q (so_width o) in
  let height := default (cm_plotHeight c) (so_height o) in
  Metrics left_ top width height
    (cm_chartHeight c - height - top)%Q (cm_chartWidth c - width - left_)%Q
    (Qmax (if horiz then width else height) 0).

(** ** The axis *)

(** What the options and [init] fix.  A linked axis sees its parent, which is of its
    type or not.  The ticks of a time axis ([getNonLinearTimeTicks], see [HsOrdinal])
    and those of the option [tickPositioner] are functions. *)
Record linked_parent := LinkedParent {
  lp_min : option Q; lp_max : option Q; lp_dataMin : option Q; lp_dataMax : option Q;
  lp_sameType : bool; lp_tickInterval : Q; lp_tickPixelInterval : Q; lp_pointRange : Q
}.

Record axis_options := AxisOptions {
  o_isXAxis : bool; o_horiz : bool; o_reversed : bool; o_isLog : bool; o_categories : bool;
  o_ordinal : bool; o_linked : option linked_parent;
  o_time_ticks : option (Q -> option Q -> option Q -> option ordinal -> option (list Q));
  o_tickPositioner : option (option Q -> option Q -> option (list Q));
  o_min : option Q; o_max : option Q; o_minPadding : Q; o_maxPadding : Q;
  o_tickInterval : option Q; o_minorAuto : bool; o_minorTickInterval : option Q;
  o_tickPixelInterval : Q; o_allowDecimals : bool;
  o_startOnTick : bool; o_endOnTick : bool;
  o_size : size_options
}.

(** The shown range, the one asked for, and the size of a range to keep. *)
Record ranges := Ranges {
  r_min : option Q; r_max : option Q;
  r_userMin : option Q; r_userMax : option Q;
  r_range : option Q;
  r_minRange : min_range
}.

Record translation := Translation {
  t_transA : Q; t_oldTransA : option Q; t_transB : Q; t_minPixelPadding : Q;
  t_pointRange : Q; t_closestPointRange : option Z
}.

(** [options.tickPositions] is an array the axis works on: it loses and gains ticks. *)
Record tick_state := TickState {
  k_tickInterval : Q;
  k_minorTickInterval : option Q;
  k_minorAutoInterval : option Q;            (* _minorAutoInterval *)
  k_tickPositions : list Q;
  k_optTickPositions : option (list Q)
}.

(** What processing the data of a series leaves. *)
Record series_info := SeriesInfo {
  si_pointRange : Q;
  si_closestPointRange : option Z;
  si_noSharedTooltip : bool;
  si_ordinal : ordinal_series
}.

Record axis_state := AxisState {
  s_metrics : metrics;
  s_extremes : extremes;
  s_ranges : ranges;
  s_translation : translation;
  s_ticks : tick_state;
  s_ordinal : option ordinal;
  s_series : list series_info;
  s_oldMin : option Q;
  s_oldMax : option Q
}.

Section scale.
(** [math.log(x) / math.LN10] and [math.pow(10, x)]. *)
Context (log2lin lin2log : Q -> Q).
Context (o : axis_options).

(** [getExtremes().min]; likewise [max]. *)
Definition shown_extreme (x : option Q) : option Q :=
  if o_isLog o then (fun q => correctFloat (lin2log q)) <$> x else x.

(** ** Translation *)

(** [axis.val2lin] and [axis.lin2val]. *)
Definition axis_val2lin (d : option ordinal) (val : Q) : option Q :=
  if o_ordinal o then HsOrdinal.val2lin d val else Some (log2lin val).
Definition axis_lin2val (d : option ordinal) (val : Q) : option Q :=
  if o_ordinal o then HsOrdinal.lin2val d val else Some (lin2log val).

(** [translate(val, backwards, cvsCoord, old, handleLog)] *)
Definition translate (s : axis_state) (val : Q) (backwards cvsCoord old handleLog : bool) : option Q :=
  let axisLength := m_len (s_metrics s) in
  let t := s_translation s in
  let localA := if old then default (t_transA t) (t_oldTransA t) else t_transA t in
  let localA := if Qeq_bool localA 0 then t_transA t else localA in
  let sign := if cvsCoord then (-1)%Q else 1%Q in
  let cvsOffset := if cvsCoord then axisLength else 0%Q in
  let '(sign, cvsOffset) :=
    if o_reversed o then (- sign, cvsOffset - (- sign) * axisLength)%Q else (sign, cvsOffset) in
  let postTranslate := o_ordinal o || (o_isLog o && handleLog) in
  localMin ← if old then s_oldMin s else r_min (s_ranges s);
  if backwards then
    let val := if o_reversed o then (axisLength - val)%Q else val in
    if Qeq_bool localA 0 then None
    else
      let value := (val / localA + localMin)%Q in
      if postTranslate then axis_lin2val (s_ordinal s) value else Some value
  else
    val ← if postTranslate then axis_val2lin (s_ordinal s) val else Some val;
    Some (sign * (val - localMin) * localA + cvsOffset + sign * t_minPixelPadding t)%Q.

(** The renderer's [crispLine]: a straight line moves to whole pixels, and to half
    ones when its width is odd. *)
Definition line : Type := Q * Q * (Q * Q).
Definition crispLine (p : line) (width : Z) : line :=
  let '(x1, y1, (x2, y2)) := p in
  let half := (inject_Z (Z.rem width 2) / 2)%Q in
  let '(x1, x2) :=
    if Qeq_bool x1 x2 then let x := (inject_Z (mathRound x1) + half)%Q in (x, x) else (x1, x2) in
  let '(y1, y2) :=
    if Qeq_bool y1 y2 then let y := (inject_Z (mathRound y1) + half)%Q in (y, y) else (y1, y2) in
  (x1, y1, (x2, y2)).

(** [getPlotLinePath(value, lineWidth, old)]; [None] is [null]. *)
Definition getPlotLinePath (c : chart_metrics) (s : axis_state) (value : Q) (lineWidth : Z) (old : bool)
    : option line :=
  let m := s_metrics s in
  let cHeight := if old then default (cm_chartHeight c) (cm_oldChartHeight c) else cm_chartHeight c in
  let cWidth := if old then default (cm_chartWidth c) (cm_oldChartWidth c) else cm_chartWidth c in
  translated ← translate s value false false old false;
  let transB := t_transB (s_translation s) in
  let x := inject_Z (mathRound (translated + transB)) in
  let y := inject_Z (mathRound (cHeight - translated - transB)) in
  if o_horiz o then
    if Qlt_b x (m_left m) || Qlt_b (m_left m + m_width m) x then None
    else Some (crispLine (x, m_top m, (x, cHeight - m_bottom m))%Q lineWidth)
  else
    if Qlt_b y (m_top m) || Qlt_b (m_top m + m_height m) y then None
    else Some (crispLine (m_left m, y, (cWidth - m_right m, y))%Q lineWidth).

(** [getPlotBandPath]: one line and back along the other. *)
Definition getPlotBandPath (c : chart_metrics) (s : axis_state) (from to : Q) : option (line * line) :=
  '(a, b) ← getPlotLinePath c s to 0 false;
  path ← getPlotLinePath c s from 0 false;
  Some (path, (b.1, b.2, (a.1, a.2))).

(** [getThreshold]; [None] as the threshold is [null]. *)
Definition getThreshold (s : axis_state) (threshold : option Q) : option Q :=
  let real (x : option Q) := if o_isLog o then lin2log <$> x else x in
  let realMin := real (r_min (s_ranges s)) in
  let realMax := real (r_max (s_ranges s)) in
  let t :=
    match threshold, realMin, realMax with
    | None, m, _ => m
    | Some t, Some m, M =>
        if Qlt_b t m then Some m
        else match M with Some M => if Qlt_b M t then Some M else Some t | None => Some t end
    | Some t, None, Some M => if Qlt_b M t then Some M else Some t
    | Some t, None, None => Some t
    end in
  t ← t; translate s t false true false true.

(** [setAxisTranslation] *)
Definition closest_range (l : list series_info) : option Z :=
  fold_left (fun c i =>
    if si_noSharedTooltip i then c
    else match si_closestPointRange i, c with
         | Some d, Some c => Some (Z.min c d)
         | Some d, None => Some d
         | None, c => c
         end) l None.

Definition setAxisTranslation (s : axis_state) : translation :=
  let t := s_translation s in
  let range := match r_min (s_ranges s), r_max (s_ranges s) with
               | Some m, Some M => Some (M - m)%Q | _, _ => None end in
  let '(pointRange, fieldRange, closest) :=
    if o_isXAxis o then
      match o_linked o with
      | Some p => (lp_pointRange p, lp_pointRange p, None)
      | None =>
          let r := fold_left (fun r i => Qmax r (si_pointRange i)) (s_series s) 0%Q in
          (r, r, closest_range (s_series s))
      end
    else (0%Q, t_pointRange t, t_closestPointRange t) in
  let whole := match range with
               | Some r => if Qeq_bool (r + pointRange) 0 then 1%Q else (r + pointRange)%Q
               | None => 1%Q end in
  let transA := (m_len (s_metrics s) / whole)%Q in
  Translation transA (Some (t_transA t))
    (if o_horiz o then m_left (s_metrics s) else m_bottom (s_metrics s))
    (transA * (pointRange / 2))%Q fieldRange closest.

(** ** Ticks *)

(** [while (pos <= roundedMax)] *)
Fixpoint linear_loop (fuel : nat) (tickInterval roundedMax pos : Q) (lastPos : option Q)
    (tickPositions : list Q) : option (list Q) :=
  if Qle_bool pos roundedMax then
    match fuel with
    | O => None
    | S fuel' =>
        let tickPositions := tickPositions ++ [pos] in
        let pos := correctFloat (pos + tickInterval) in
        if match lastPos with Some l => Qeq_bool pos l | None => false end then Some tickPositions
        else linear_loop fuel' tickInterval roundedMax pos (Some pos) tickPositions
    end
  else Some tickPositions.

Definition rounded_min (tickInterval min : Q) : Q :=
  correctFloat (inject_Z (Qfloor (min / tickInterval)) * tickInterval).
Definition rounded_max (tickInterval max : Q) : Q :=
  correctFloat (inject_Z (Qceiling (max / tickInterval)) * tickInterval).

Definition getLinearTickPositions (fuel : nat) (tickInterval min max : Q) : option (list Q) :=
  linear_loop fuel tickInterval (rounded_max tickInterval max) (rounded_min tickInterval min) None [].

(** The second case of [getLogTickPositions]: the loops over the powers and over the
    multiples, [todo] the multiples left of this power.  A tick [None] is
    [undefined]. *)
Definition intermediate (interval : Q) : list Q :=
  if Qlt_b (3 # 10) interval then [1%Q; 2%Q; 4%Q]
  else if Qlt_b (15 # 100) interval then [1%Q; 2%Q; 4%Q; 6%Q; 8%Q]
  else [1%Q; 2%Q; 3%Q; 4%Q; 5%Q; 6%Q; 7%Q; 8%Q; 9%Q].

Fixpoint log_multiples (i min max : Q) (todo : list Q) (lastPos : option Q)
    (positions : list (option Q)) : list (option Q) * option Q * bool :=
  match todo with
  | [] => (positions, lastPos, false)
  | m :: rest =>
      let pos := log2lin (lin2log i * m) in
      let positions := if Qlt_b min pos then positions ++ [lastPos] else positions in
      if match lastPos with Some l => Qlt_b max l | None => false end then (positions, Some pos, true)
      else log_multiples i min max rest (Some pos) positions
  end.

Fixpoint log_powers (fuel : nat) (interval i min max : Q) (lastPos : option Q)
    (positions : list (option Q)) : option (list (option Q)) :=
  if Qlt_b i (max + 1) then
    match fuel with
    | O => None
    | S fuel' =>
        let '(positions, lastPos, break2) :=
          log_multiples i min max (intermediate interval) lastPos positions in
        if break2 then Some positions
        else log_powers fuel' interval (i + 1)%Q min max lastPos positions
    end
  else Some positions.

(** [getLogTickPositions(interval, min, max, minor)]: the positions and the fields it
    sets.  In the third case [option_] is the interval of the options when it is a
    number, and [length] the length of the axis or of the part between two ticks. *)
Definition magnitude (interval : Q) : Q := power10 (exponent interval).

Definition getLogTickPositions (fuel : nat) (axisLength : Q) (k : tick_state) (interval min max : Q)
    (minor : bool) : option (list (option Q) * tick_state) :=
  let auto := if minor then k_minorAutoInterval k else None in
  '(positions, interval, auto) ←
    ((if Qle_bool (1 # 2) interval then
       let interval := inject_Z (mathRound interval) in
       l ← getLinearTickPositions fuel interval min max; Some (List.map Some l, interval, auto)
     else if Qle_bool (8 # 100) interval then
       l ← log_powers fuel interval (inject_Z (Qfloor min)) min max None []; Some (l, interval, auto)
     else
       let realMin := lin2log min in
       let realMax := lin2log max in
       let option_ := if minor then if o_minorAuto o then None else o_minorTickInterval o
                      else o_tickInterval o in
       let pixels := (o_tickPixelInterval o / (if minor then 5 else 1))%Q in
       let total := if minor then (axisLength / inject_Z (Z.of_nat (length (k_tickPositions k))))%Q
                    else axisLength in
       let interval :=
         default (default ((realMax - realMin) * pixels / (if Qeq_bool total 0 then 1 else total))%Q auto)
           option_ in
       let interval := normalizeTickInterval true interval (magnitude interval) in
       l ← getLinearTickPositions fuel interval realMin realMax;
       Some (List.map (fun x => Some (log2lin x)) l, interval, if minor then auto else Some (interval / 5)%Q))
     : option (list (option Q) * Q * option Q));
  Some (positions,
        if minor then k
        else TickState interval (k_minorTickInterval k) auto (k_tickPositions k) (k_optTickPositions k)).

(** [getMinorTickPositions] *)
Fixpoint minor_loop (fuel : nat) (pos max minorTickInterval : Q) (positions : list Q) : option (list Q) :=
  if Qle_bool pos max then
    match fuel with
    | O => None
    | S fuel' => minor_loop fuel' (pos + minorTickInterval)%Q max minorTickInterval (positions ++ [pos])
    end
  else Some positions.

Fixpoint minor_logs (fuel : nat) (axisLength : Q) (k : tick_state) (interval : Q) (ticks : list Q)
    : option (list (option Q)) :=
  match ticks with
  | a :: ((b :: _) as rest) =>
      '(l, _) ← getLogTickPositions fuel axisLength k interval a b true;
      l' ← minor_logs fuel axisLength k interval rest; Some (l ++ l')
  | _ => Some []
  end.

Definition getMinorTickPositions (fuel : nat) (s : axis_state) : option (list (option Q)) :=
  let k := s_ticks s in
  match k_minorTickInterval k with
  | None => Some []
  | Some interval =>
      if o_isLog o then minor_logs fuel (m_len (s_metrics s)) k interval (k_tickPositions k)
      else match r_min (s_ranges s), r_max (s_ranges s), k_tickPositions k with
           | Some m, Some M, t :: _ =>
               l ← minor_loop fuel (m + Qrem (t - m) interval)%Q M interval []; Some (List.map Some l)
           | _, _, _ => Some []
           end
  end.

(** ** Setting the ticks

    [processData] is what processing leaves of the axis's series for a range (see
    [HsData]), [raw] their x values for [adjustForMinRange]. *)
Context (processData : option Q -> option Q -> list series_info) (raw : list range_series).

Definition pick (a b : option Q) : option Q := match a with Some _ => a | None => b end.

(** [throw msg] of [error(code, 1)]. *)
Definition error (code : Z) : string :=
  ("Highcharts error #" ++ show_Z code ++ ": www.highcharts.com/errors/" ++ show_Z code)%string.

(** The extremes to begin with, those of the parent or of the options and data; then
    their logarithms. *)
Definition first_extremes (e : extremes) (r : ranges) : res (option Q * option Q) :=
  match o_linked o with
  | Some p =>
      if lp_sameType p then Ok (pick (lp_min p) (lp_dataMin p), pick (lp_max p) (lp_dataMax p))
      else Throw (error 11)
  | None => Ok (pick (r_userMin r) (pick (o_min o) (ex_dataMin e)),
                pick (r_userMax r) (pick (o_max o) (ex_dataMax e)))
  end.

Definition log_extremes (secondPass : bool) (e : extremes) (p : option Q * option Q)
    : res (option Q * option Q) :=
  let '(min, max) := p in
  if o_isLog o then
    if negb secondPass &&
       match min with Some m => Qle_bool (Qmin m (default m (ex_dataMin e))) 0 | None => false end
    then Throw (error 10)
    else let f q := correctFloat (log2lin q) in Ok (f <$> min, f <$> max)
  else Ok (min, max).

(** A range to keep, which the second pass forgets. *)
Definition zoom_range (secondPass : bool) (r : ranges) : ranges :=
  match r_range r with
  | Some w =>
      if Qeq_bool w 0 then r
      else
        let min := match r_min r, r_max r with Some m, Some M => Some (Qmax m (M - w)) | _, _ => None end in
        Ranges min (r_max r) min (r_max r) (if secondPass then None else Some w) (r_minRange r)
  | None => r
  end.

(** [adjustForMinRange] *)
Definition min_range_step (e : extremes) (r : ranges) : ranges :=
  let '(mr, (m, M)) :=
    HsAxis.adjustForMinRange
      (RangeAxis (o_isXAxis o) (o_isLog o) (o_min o) (o_max o) (or_zero (ex_dataMin e))
         (or_zero (ex_dataMax e)) (r_minRange r) (or_zero (r_min r)) (or_zero (r_max r)) raw) in
  match r_min r, r_max r with
  | Some _, Some _ => Ranges (Some m) (Some M) (r_userMin r) (r_userMax r) (r_range r) mr
  | min, max => Ranges min max (r_userMin r) (r_userMax r) (r_range r) mr
  end.

(** Padding at the ends that nothing fixes. *)
Definition pad (e : extremes) (r : ranges) : ranges :=
  match r_min r, r_max r with
  | Some m, Some M =>
      if negb (o_categories o) && negb (ex_usePercentage e) && negb (bool_decide (is_Some (o_linked o)))
      then
        let length := if Qeq_bool (M - m) 0 then 1%Q else (M - m)%Q in
        let below_zero := match ex_dataMin e with Some d => Qlt_b d 0 | None => false end in
        let above_zero := match ex_dataMax e with Some d => Qlt_b 0 d | None => false end in
        let m' :=
          match o_min o, r_userMin r with
          | None, None => if below_zero || negb (ex_ignoreMinPadding e)
                          then (m - length * o_minPadding o)%Q else m
          | _, _ => m
          end in
        let M' :=
          match o_max o, r_userMax r with
          | None, None => if above_zero || negb (ex_ignoreMaxPadding e)
                          then (M + length * o_maxPadding o)%Q else M
          | _, _ => M
          end in
        Ranges (Some m') (Some M') (r_userMin r) (r_userMax r) (r_range r) (r_minRange r)
      else r
  | _, _ => r
  end.

(** The distance of the ticks before it is rounded; an option that is zero is one. *)
Definition raw_interval (len : Q) (r : ranges) : Q :=
  match r_min r, r_max r with
  | Some m, Some M =>
      if Qeq_bool m M then 1%Q
      else
        let computed :=
          default (if o_categories o then 1
                   else (M - m) * o_tickPixelInterval o / (if Qeq_bool len 0 then 1 else len))%Q
            (o_tickInterval o) in
        match o_linked o with
        | Some p =>
            if match o_tickInterval o with Some t => Qeq_bool t 0 | None => true end
               && Qeq_bool (o_tickPixelInterval o) (lp_tickPixelInterval p)
            then lp_tickInterval p else computed
        | None => computed
        end
  | _, _ => 1%Q
  end.

(** Rounding it, on an axis that is neither of times nor logarithmic. *)
Definition round_interval (interval : Q) : Q :=
  match o_time_ticks o, o_tickInterval o with
  | None, None =>
      if o_isLog o then interval else normalizeTickInterval (o_allowDecimals o) interval (magnitude interval)
  | _, _ => interval
  end.

(** The ticks: those of the options, which stay the array of the options, or those of
    the axis's kind. *)
Definition find_ticks (fuel : nat) (len : Q) (ord : option ordinal) (r : ranges) (k : tick_state)
    : option tick_state :=
  let given := match k_optTickPositions k with
               | Some l => Some l
               | None => f ← o_tickPositioner o; f (r_min r) (r_max r)
               end in
  let set k l := TickState (k_tickInterval k) (k_minorTickInterval k) (k_minorAutoInterval k) l
                   (k_optTickPositions k) in
  match given, o_time_ticks o, r_min r, r_max r with
  | Some l, _, _, _ => Some (set k l)
  | None, Some f, m, M => l ← f (k_tickInterval k) m M ord; Some (set k l)
  | None, None, Some m, Some M =>
      if o_isLog o then
        '(l, k) ← getLogTickPositions fuel len k (k_tickInterval k) m M false;
        l ← mapM id l; Some (set k l)
      else l ← getLinearTickPositions fuel (k_tickInterval k) m M; Some (set k l)
  | None, None, _, _ => Some (set k [])
  end.

(** [tickPositions.shift()] and [pop()], with the array of the options when it is
    that one. *)
Definition set_ticks (l : list Q) (k : tick_state) : tick_state :=
  TickState (k_tickInterval k) (k_minorTickInterval k) (k_minorAutoInterval k) l
    (match k_optTickPositions k with Some _ => Some l | None => None end).

(** The ends of the axis or the ends of the ticks move. *)
Definition end_on_ticks (r : ranges) (k : tick_state) : ranges * tick_state :=
  match o_linked o with
  | Some _ => (r, k)
  | None =>
      let roundedMin := head (k_tickPositions k) in
      let roundedMax := last (k_tickPositions k) in
      let above (x y : option Q) := match x, y with Some x, Some y => Qlt_b y x | _, _ => false end in
      let '(min, k) :=
        if o_startOnTick o then (roundedMin, k)
        else (r_min r, if above (r_min r) roundedMin then set_ticks (tail (k_tickPositions k)) k else k) in
      let '(max, k) :=
        if o_endOnTick o then (roundedMax, k)
        else (r_max r, if above roundedMax (r_max r) then set_ticks (removelast (k_tickPositions k)) k else k) in
      (Ranges min max (r_userMin r) (r_userMax r) (r_range r) (r_minRange r), k)
  end.

(** The range, from the extremes to the padding. *)
Definition set_ranges (secondPass : bool) (e : extremes) (r : ranges) : res ranges :=
  p ← first_extremes e r;
  '(min, max) ← log_extremes secondPass e p;
  let r := Ranges min max (r_userMin r) (r_userMax r) (r_range r) (r_minRange r) in
  Ok (pad e (min_range_step e (zoom_range secondPass r))).

Definition setTickPositions (fuel : nat) (secondPass : bool) (s : axis_state) : option (res axis_state) :=
  match set_ranges secondPass (s_extremes s) (s_ranges s) with
  | Throw err => Some (Throw err)
  | Ok r =>
      let len := m_len (s_metrics s) in
      let interval := raw_interval len r in
      let series := if o_isXAxis o && negb secondPass then processData (r_min r) (r_max r) else s_series s in
      let s := AxisState (s_metrics s) (s_extremes s) r (s_translation s) (s_ticks s) (s_ordinal s)
                 series (s_oldMin s) (s_oldMax s) in
      let t := setAxisTranslation s in
      let ord := if o_ordinal o then
                   match r_min r, r_max r with
                   | Some m, Some M => beforeSetTickPositions (si_ordinal <$> series) m M
                   | _, _ => None
                   end else None in
      let interval := if o_ordinal o
                      then postProcessTickInterval ord (default 0 (t_closestPointRange t)) interval
                      else interval in
      let interval := round_interval interval in
      let k := s_ticks s in
      let minor := if o_minorAuto o && negb (Qeq_bool interval 0) then Some (interval / 5)%Q
                   else o_minorTickInterval o in
      k ← find_ticks fuel len ord r
            (TickState interval minor (k_minorAutoInterval k) (k_tickPositions k) (k_optTickPositions k));
      let '(r, k) := end_on_ticks r k in
      Some (Ok (AxisState (s_metrics s) (s_extremes s) r t k ord series (s_oldMin s) (s_oldMax s)))
  end.

(** ** The scale as a whole *)

Definition with_metrics (m : metrics) (s : axis_state) : axis_state :=
  AxisState m (s_extremes s) (s_ranges s) (s_translation s) (s_ticks s) (s_ordinal s) (s_series s)
    (s_oldMin s) (s_oldMax s).
Definition with_translation (t : translation) (s : axis_state) : axis_state :=
  AxisState (s_metrics s) (s_extremes s) (s_ranges s) t (s_ticks s) (s_ordinal s) (s_series s)
    (s_oldMin s) (s_oldMax s).

(** What an axis keeps between two calls of [setScale]. *)
Record scale_state := ScaleState {
  c_axis : axis_state;
  c_oldUserMin : option Q;
  c_oldUserMax : option Q;
  c_isDirty : bool;
  c_isDirtyExtremes : bool;
  c_cum : gmap place Q                       (* stacks[type][i].cum *)
}.

Definition same (x y : option Q) : bool :=
  match x, y with Some x, Some y => Qeq_bool x y | None, None => true | _, _ => false end.

(** The axis as [HsAxis.setMaxTicks] reads it. *)
Definition tick_axis (alignTicks : bool) (s : axis_state) : HsAxis.axis :=
  HsAxis.Axis (o_isXAxis o) (bool_decide (is_Some (o_linked o))) (bool_decide (is_Some (o_time_ticks o)))
    (o_categories o) alignTicks (Qfloor <$> k_tickPositions (s_ticks s)) 0 None 0 0%float false.

(** The part of [setScale] for an axis with something new. *)
Definition rescale (fuel : nat) (ignoreHiddenSeries isDirtyAxisLength : bool) (l : list y_series)
    (s : axis_state) (x : scale_state) : option (res scale_state) :=
  let e := getSeriesExtremes (o_isXAxis o) (o_isLog o) ignoreHiddenSeries l (s_extremes s) in
  match setTickPositions fuel false
          (AxisState (s_metrics s) e (s_ranges s) (s_translation s) (s_ticks s) (s_ordinal s) (s_series s)
             (s_oldMin s) (s_oldMax s)) with
  | Some (Ok s') =>
      let r := s_ranges s' in
      Some (Ok (ScaleState s' (r_userMin r) (r_userMax r)
                  (c_isDirty x || isDirtyAxisLength || negb (same (r_min r) (s_oldMin s))
                   || negb (same (r_max r) (s_oldMax s)))
                  (c_isDirtyExtremes x) (c_cum x)))
  | Some (Throw e) => Some (Throw e)
  | None => None
  end.

(** [setScale]; [series_dirty] when some series or its x axis is dirty. *)
Definition setScale (fuel : nat) (c : chart_metrics) (ignoreHiddenSeries alignTicks series_dirty : bool)
    (l : list y_series) (maxTicks : option max_ticks) (x : scale_state)
    : option (res (scale_state * option max_ticks)) :=
  let old := s_ranges (c_axis x) in
  let m := setAxisSize (o_horiz o) (o_size o) c in
  let isDirtyAxisLength := negb (Qeq_bool (m_len m) (m_len (s_metrics (c_axis x)))) in
  let s := AxisState m (s_extremes (c_axis x)) old (s_translation (c_axis x)) (s_ticks (c_axis x))
             (s_ordinal (c_axis x)) (s_series (c_axis x)) (r_min old) (r_max old) in
  let again := isDirtyAxisLength || series_dirty || bool_decide (is_Some (o_linked o))
               || negb (same (r_userMin old) (c_oldUserMin x))
               || negb (same (r_userMax old) (c_oldUserMax x)) in
  match (if again then rescale fuel ignoreHiddenSeries isDirtyAxisLength l s x
         else Some (Ok (ScaleState s (c_oldUserMin x) (c_oldUserMax x) (c_isDirty x)
                          (c_isDirtyExtremes x) (c_cum x)))) with
  | Some (Ok x') =>
      let s' := c_axis x' in
      Some (Ok (ScaleState s' (c_oldUserMin x') (c_oldUserMax x') (c_isDirty x') (c_isDirtyExtremes x')
                  (if o_isXAxis o then c_cum x' else ex_stacks (s_extremes s')),
                HsAxis.setMaxTicks (tick_axis alignTicks s') maxTicks))
  | Some (Throw e) => Some (Throw e)
  | None => None
  end.

(** [setExtremes(newMin, newMax, redraw)]: unless a handler prevents it; whether the
    chart is drawn again. *)
Definition setExtremes (prevented : bool) (newMin newMax : option Q) (redraw : option bool)
    (x : scale_state) : scale_state * bool :=
  if prevented then (x, false)
  else
    let s := c_axis x in
    let r := s_ranges s in
    (ScaleState
       (AxisState (s_metrics s) (s_extremes s)
          (Ranges (r_min r) (r_max r) newMin newMax (r_range r) (r_minRange r))
          (s_translation s) (s_ticks s) (s_ordinal s) (s_series s) (s_oldMin s) (s_oldMax s))
       (c_oldUserMin x) (c_oldUserMax x) (c_isDirty x) true (c_cum x), default true redraw).

(** [setChartSize], for the chart and for the axis; [getMargins] ends with it. *)
Definition setChartSize (c : chart_metrics) (marginRight marginBottom : Q) : chart_metrics :=
  let left_ := inject_Z (mathRound (cm_plotLeft c)) in
  let top := inject_Z (mathRound (cm_plotTop c)) in
  ChartMetrics left_ top
    (inject_Z (mathRound (cm_chartWidth c - left_ - marginRight)))
    (inject_Z (mathRound (cm_chartHeight c - top - marginBottom)))
    (cm_chartWidth c) (cm_chartHeight c) (cm_oldChartWidth c) (cm_oldChartHeight c).

Definition resize_axis (c : chart_metrics) (s : axis_state) : axis_state :=
  let s := with_metrics (setAxisSize (o_horiz o) (o_size o) c) s in
  with_translation (setAxisTranslation s) s.

End scale.

(** A value axis 200 pixels high. *)
Definition demo_chart : chart_metrics := ChartMetrics 10 10 300 200 320 220 None None.
Definition no_size : size_options := SizeOptions None None None None None None.
Definition value_options (startOnTick : bool) : axis_options :=
  AxisOptions false false false false false false None None None None None (5 # 100) (5 # 100)
    None false None 72 true startOnTick startOnTick no_size.
Definition new_axis : axis_state :=
  AxisState (Metrics 0 0 0 0 0 0 0) (Extremes None None false false false ∅)
    (Ranges None None None None None MRUndef) (Translation 0 None 0 0 0 None)
    (TickState 0 None None [] None) None [] None None.
Definition demo_series : y_series :=
  YSeries true ThUndefined [] [1; 2; 3] (Numbers Plain [Some (3 # 10); Some (11 # 10); None]) true None None.

Definition demo_scale (startOnTick : bool) : option (list Q * (option Q * option Q)) :=
  r ← setScale (fun x => x) (fun x => x) (value_options startOnTick) (fun _ _ => []) [] 20 demo_chart
        true true true [demo_series] None
        (ScaleState new_axis None None false false ∅);
  match r with
  | Ok (x, _) =>
      let s := c_axis x in
      Some (Qred <$> k_tickPositions (s_ticks s),
            (Qred <$> r_min (s_ranges s), Qred <$> r_max (s_ranges s)))
  | Throw _ => None
  end.

Example setScale_ex :
  demo_scale true = Some ([1 # 4; 1 # 2; 3 # 4; 1%Q; 5 # 4], (Some (1 # 4), Some (5 # 4))) /\
  demo_scale false = Some ([1 # 2; 3 # 4; 1%Q], (Some (13 # 50), Some (57 # 50))).
Proof. vm_compute. done. Qed.

(** ** Places on the axis *)

Section places.
Context (log2lin lin2log : Q -> Q) (o : axis_options).
Local Notation translate := (translate log2lin lin2log o).
Local Notation setAxisTranslation := (setAxisTranslation o).

(** An axis that translates without a logarithm or ordinal positions. *)
Definition plain_axis (handleLog : bool) : Prop := o_ordinal o || (o_isLog o && handleLog) = false.

(** The range of values a translation is for: what is between the ends of the axis,
    and half a point at both ends. *)
Record fits (s : axis_state) (m M : Q) : Prop := {
  fit_min : r_min (s_ranges s) = Some m;
  fit_max : r_max (s_ranges s) = Some M;
  fit_order : (m <= M)%Q;
  fit_len : (0 <= m_len (s_metrics s))%Q;
  fit_linked : o_linked o = None
}.

Definition pointRange (s : axis_state) : Q :=
  if o_isXAxis o then fold_left (fun r i => Qmax r (si_pointRange i)) (s_series s) 0%Q else 0%Q.

Lemma Qmax_fold_ge l (r : Q) : (r <= fold_left (fun r i => Qmax r (si_pointRange i)) l r)%Q.
Proof.
  revert r. induction l as [|i l IH]; intros r; cbn; [apply Qle_refl|].
  eapply Qle_trans; [apply (Q.le_max_l r (si_pointRange i))|apply IH].
Qed.

Lemma pointRange_nonneg s : (0 <= pointRange s)%Q.
Proof. unfold pointRange. destruct (o_isXAxis o); [apply Qmax_fold_ge|apply Qle_refl]. Qed.

Definition whole (x : Q) : Q := if Qeq_bool x 0 then 1%Q else x.

Lemma whole_pos x : (0 <= x)%Q -> (0 < whole x)%Q /\ (x <= whole x)%Q.
Proof.
  intros H. unfold whole. destruct (Qeq_bool x 0) eqn:E.
  - apply Qeq_bool_iff in E. rewrite E. split; reflexivity || (unfold Qle; cbn; lia).
  - apply Qeq_bool_neq in E. split; [|apply Qle_refl]. apply Qle_lteq in H as [H|H]; [done|].
    exfalso. apply E. by rewrite <-H.
Qed.

(** The factor of an axis that fits, and the room at its ends. *)
Lemma setAxisTranslation_eq s m M : fits s m M ->
  let t := setAxisTranslation s in
  t_transA t = (m_len (s_metrics s) / whole (M - m + pointRange s))%Q /\
  t_minPixelPadding t = (t_transA t * (pointRange s / 2))%Q.
Proof.
  intros [Hm HM _ _ Hl]. unfold HsScale.setAxisTranslation, pointRange. rewrite Hm, HM, Hl.
  by destruct (o_isXAxis o).
Qed.

(** The place of a value, without a canvas: from the start of the axis or, reversed,
    from its end. *)
Lemma translate_eq s m v cvs h : plain_axis h -> r_min (s_ranges s) = Some m ->
  exists p, translate s v false cvs false h = Some p /\
    let t := s_translation s in
    let d := ((v - m) * t_transA t + t_minPixelPadding t)%Q in
    (p == if xorb cvs (o_reversed o) then m_len (s_metrics s) - d else d)%Q.
Proof.
  intros Hp Hm. unfold HsScale.translate. rewrite Hm. unfold plain_axis in Hp. rewrite Hp. cbn [mbind option_bind].
  set (A := t_transA (s_translation s)).
  replace (if Qeq_bool A 0 then A else A) with A by (by destruct (Qeq_bool A 0)).
  destruct (o_reversed o), cvs; cbn [mbind option_bind xorb]; eexists; (split; [reflexivity|]); cbn zeta; ring.
Qed.

Lemma fits_translated s m M : fits s m M ->
  fits (with_translation (setAxisTranslation s) s) m M.
Proof. intros []. by split. Qed.

Lemma room s m M v : fits s m M -> (m <= v <= M)%Q ->
  let t := setAxisTranslation s in
  let d := ((v - m) * t_transA t + t_minPixelPadding t)%Q in
  (t_minPixelPadding t <= d)%Q /\ (d <= m_len (s_metrics s) - t_minPixelPadding t)%Q /\
  (0 <= t_minPixelPadding t)%Q.
Proof.
  intros H [H1 H2]. destruct (setAxisTranslation_eq s m M H) as [Ha Hp]. cbn zeta in *.
  pose proof (pointRange_nonneg s) as Hr. destruct H as [_ _ Ho Hl _].
  set (t := setAxisTranslation s) in *. set (r := pointRange s) in *.
  destruct (whole_pos (M - m + r)) as [Hw Hwle]; [lra|]. set (w := whole _) in *.
  set (len := m_len (s_metrics s)) in *.
  assert (0 <= t_transA t)%Q as HA.
  { rewrite Ha. unfold Qdiv. apply Qmult_le_0_compat; [done|]. by apply Qinv_le_0_compat, Qlt_le_weak. }
  assert (len == t_transA t * w)%Q as Hlen.
  { rewrite Ha. field. intros E. rewrite E in Hw. by apply Qlt_irrefl in Hw. }
  pose proof (Qmult_le_0_compat _ (M - v) HA ltac:(lra)) as H3.
  pose proof (Qmult_le_0_compat _ (w - (M - m + r)) HA ltac:(lra)) as H4.
  pose proof (Qmult_le_0_compat _ (v - m) HA ltac:(lra)) as H5.
  pose proof (Qmult_le_0_compat _ r HA ltac:(lra)) as H6.
  assert (r == r / 2 + r / 2)%Q as Hr2 by field.
  assert (t_transA t * r == t_transA t * (r / 2) + t_transA t * (r / 2))%Q as Hr3
    by (rewrite Hr2 at 1; ring).
  rewrite Hp. set (hr := (t_transA t * (r / 2))%Q) in *. clearbody hr.
  split_and!; nra.
Qed.

(** With the translation of its range, an axis draws every value between its ends
    inside its length and keeps half a point free at both sides; later values are
    never drawn before earlier ones, or never after them on a reversed axis. *)
Theorem translate_inside s0 m M v w h : fits s0 m M -> plain_axis h -> (m <= v <= w)%Q -> (w <= M)%Q ->
  let s := with_translation (setAxisTranslation s0) s0 in
  let pad := t_minPixelPadding (s_translation s) in
  exists p q, translate s v false false false h = Some p /\ translate s w false false false h = Some q /\
    (0 <= pad)%Q /\ (pad <= p <= m_len (s_metrics s) - pad)%Q /\
    (pad <= q <= m_len (s_metrics s) - pad)%Q /\
    (if o_reversed o then q <= p else p <= q)%Q.
Proof.
  intros Hf Hp [H1 H2] H3 s pad.
  destruct (translate_eq s m v false h Hp (fit_min _ _ _ Hf)) as (p & Ep & Dp).
  destruct (translate_eq s m w false h Hp (fit_min _ _ _ Hf)) as (q & Eq & Dq).
  exists p, q. split; [done|]. split; [done|].
  destruct (room s0 m M v Hf) as (R1 & R2 & R3); [split; lra|].
  destruct (room s0 m M w Hf) as (R4 & R5 & _); [split; lra|].
  cbn zeta in *. change (s_translation s) with (setAxisTranslation s0) in *.
  change (m_len (s_metrics s)) with (m_len (s_metrics s0)) in *. subst pad.
  change (s_translation s) with (setAxisTranslation s0).
  set (t := setAxisTranslation s0) in *.
  assert ((v - m) * t_transA t <= (w - m) * t_transA t)%Q as Hmono.
  { apply Qmult_le_compat_r; [lra|]. subst t. destruct (setAxisTranslation_eq s0 m M Hf) as [-> _].
    pose proof (pointRange_nonneg s0). destruct Hf as [_ _ Ho Hl _].
    destruct (whole_pos (M - m + pointRange s0)) as [Hw _]; [lra|].
    unfold Qdiv. apply Qmult_le_0_compat; [done|]. by apply Qinv_le_0_compat, Qlt_le_weak. }
  split; [done|]. cbn [xorb] in *. destruct (o_reversed o); rewrite Dp, Dq; (split_and!; lra).
Qed.

(** Translating back from the place of a value gives the value later by half the
    axis's point range: the value itself where points have no width, and not where
    they have one, as on an axis of columns. *)
Theorem translate_back s0 m M v h p : fits s0 m M -> plain_axis h -> (0 < m_len (s_metrics s0))%Q ->
  let s := with_translation (setAxisTranslation s0) s0 in
  translate s v false false false h = Some p ->
  exists w, translate s p true false false h = Some w /\ (w == v + pointRange s0 / 2)%Q.
Proof.
  intros Hf Hp Hlen s Et.
  destruct (translate_eq s m v false h Hp (fit_min _ _ _ Hf)) as (p' & Ep & Dp).
  rewrite Ep in Et. injection Et as [= <-]. cbn zeta in Dp.
  change (s_translation s) with (setAxisTranslation s0) in Dp.
  change (m_len (s_metrics s)) with (m_len (s_metrics s0)) in Dp.
  destruct (setAxisTranslation_eq s0 m M Hf) as [Ha Hpad]. cbn zeta in Ha, Hpad.
  pose proof (pointRange_nonneg s0) as Hr.
  destruct (whole_pos (M - m + pointRange s0)) as [Hw _]; [destruct Hf; lra|].
  unfold HsScale.translate. unfold plain_axis in Hp. rewrite Hp.
  change (r_min (s_ranges s)) with (r_min (s_ranges s0)). rewrite (fit_min _ _ _ Hf). cbn [mbind option_bind].
  change (s_translation s) with (setAxisTranslation s0).
  change (m_len (s_metrics s)) with (m_len (s_metrics s0)).
  set (t := setAxisTranslation s0) in *. set (len := m_len (s_metrics s0)) in *.
  assert (~ t_transA t == 0)%Q as HA.
  { rewrite Ha. intros E. apply Qmult_integral in E as [E|E].
    - rewrite E in Hlen. by apply Qlt_irrefl in Hlen.
    - pose proof (Qinv_lt_0_compat _ Hw) as Hi. rewrite E in Hi. by apply Qlt_irrefl in Hi. }
  rewrite <-Qeq_bool_iff, not_true_iff_false in HA. rewrite !HA.
  apply Qeq_bool_neq in HA. cbn [xorb] in Dp.
  destruct (o_reversed o); (eexists; split; [reflexivity|]); rewrite Dp, Hpad; by field.
Qed.
End places.

Lemma translate_inside_witness :
  let s0 := AxisState (Metrics 10 10 300 200 10 10 300) (Extremes None None false false false ∅)
    (Ranges (Some 0%Q) (Some 4%Q) None None None MRUndef) (Translation 0 None 0 0 0 None)
    (TickState 1 None None [] None) None [SeriesInfo 1 (Some 1) false (OrdinalSeries true [])] None None in
  let opts := AxisOptions true true true false false false None None None None None 0 0
    None false None 100 true false false no_size in
  let s := with_translation (setAxisTranslation opts s0) s0 in
  exists p q, translate id id opts s 1 false false false false = Some p /\
    translate id id opts s 3 false false false false = Some q /\ (q <= p)%Q.
Proof.
  destruct (translate_inside id id
    (AxisOptions true true true false false false None None None None None 0 0 None false None 100 true
       false false no_size)
    (AxisState (Metrics 10 10 300 200 10 10 300) (Extremes None None false false false ∅)
      (Ranges (Some 0%Q) (Some 4%Q) None None None MRUndef) (Translation 0 None 0 0 0 None)
      (TickState 1 None None [] None) None [SeriesInfo 1 (Some 1) false (OrdinalSeries true [])] None None)
    0 4 1 3 false) as (p & q & Hp & Hq & _ & _ & _ & H).
  - split; try done; unfold Qle; cbn; lia.
  - done.
  - split; unfold Qle; cbn; lia.
  - unfold Qle; cbn; lia.
  - exists p, q. exact (conj Hp (conj Hq H)).
Defined.

Lemma translate_back_witness :
  let s0 := AxisState (Metrics 10 10 300 200 10 10 300) (Extremes None None false false false ∅)
    (Ranges (Some 0%Q) (Some 4%Q) None None None MRUndef) (Translation 0 None 0 0 0 None)
    (TickState 1 None None [] None) None [SeriesInfo 1 (Some 1) false (OrdinalSeries true [])] None None in
  let opts := AxisOptions true true false false false false None None None None None 0 0
    None false None 100 true false false no_size in
  let s := with_translation (setAxisTranslation opts s0) s0 in
  exists p w, translate id id opts s 1 false false false false = Some p /\
    translate id id opts s p true false false false = Some w /\ (w == 3 # 2)%Q.
Proof.
  intros s0 opts s. destruct (translate id id opts s 1 false false false false) as [p|] eqn:E; [|done].
  exists p. destruct (translate_back id id opts s0 0 4 1 false p) as (w & Hw & Hq).
  - split; try done; unfold Qle; cbn; lia.
  - done.
  - done.
  - exact E.
  - exists w. exact (conj eq_refl (conj Hw Hq)).
Defined.

(** ** The ticks are multiples *)

#[export] Instance correctFloat_proper : Proper (Qeq ==> Qeq) correctFloat.
Proof. intros x y H. unfold correctFloat. by rewrite (Qred_complete _ _ H). Qed.

(** The multiples from one to another are short enough to survive [correctFloat]. *)
Definition short (i : Q) (lo hi : Z) : Prop :=
  forall k, lo <= k <= hi -> (correctFloat (inject_Z k * i) == inject_Z k * i)%Q.

Definition multiples (i : Q) (lo : Z) (n : nat) : list Q :=
  (fun k => (inject_Z (lo + Z.of_nat k) * i)%Q) <$> seq 0 n.

Lemma multiples_cons i lo n : multiples i lo (S n) = (inject_Z lo * i)%Q :: multiples i (lo + 1) n.
Proof.
  unfold multiples. cbn [seq fmap list_fmap]. rewrite Z.add_0_r. f_equal.
  rewrite <-fmap_S_seq, <-list_fmap_compose. apply list_fmap_ext. intros ? x _. cbn [compose].
  f_equal. f_equal. lia.
Qed.

Lemma multiples_snoc i lo n : multiples i lo (S n) = multiples i lo n ++ [(inject_Z (lo + Z.of_nat n) * i)%Q].
Proof. unfold multiples. by rewrite seq_S, fmap_app. Qed.

Lemma inject_Z_lt a b : a < b <-> (inject_Z a < inject_Z b)%Q.
Proof. unfold Qlt. cbn. lia. Qed.

Lemma multiple_le i a b : (0 < i)%Q -> (inject_Z a * i <= inject_Z b * i)%Q <-> a <= b.
Proof.
  intros Hi. rewrite Qmult_le_r by done. unfold Qle. cbn. lia.
Qed.

Lemma linear_loop_multiples i hi R n : forall fuel k pos lastPos acc,
  (0 < i)%Q -> (R == inject_Z hi * i)%Q -> short i k (hi + 1) -> (pos == inject_Z k * i)%Q ->
  (match lastPos with Some l => l == inject_Z k * i | None => True end)%Q ->
  Z.of_nat n = Z.max 0 (hi - k + 1) -> (n <= fuel)%nat ->
  exists l, linear_loop fuel i R pos lastPos acc = Some (acc ++ l) /\ Forall2 Qeq l (multiples i k n).
Proof.
  induction n as [|n IH]; intros fuel k pos lastPos acc Hi HR Hs Hp Hl Hn Hf.
  - exists []. split; [|constructor]. rewrite app_nil_r.
    assert (Qle_bool pos R = false) as E.
    { apply not_true_iff_false. rewrite Qle_bool_iff, Hp, HR, multiple_le by done. lia. }
    destruct fuel; cbn [linear_loop]; by rewrite E.
  - destruct fuel as [|fuel]; [lia|]. cbn [linear_loop].
    assert (Qle_bool pos R = true) as ->.
    { rewrite Qle_bool_iff, Hp, HR, multiple_le by done. lia. }
    assert (correctFloat (pos + i) == inject_Z (k + 1) * i)%Q as Hnext.
    { rewrite <-(Hs (k + 1)) by lia. apply correctFloat_proper. rewrite Hp, inject_Z_plus. ring. }
    assert (match lastPos with Some l => Qeq_bool (correctFloat (pos + i)) l | None => false end = false) as ->.
    { destruct lastPos as [l|]; [|done]. apply not_true_iff_false. rewrite Qeq_bool_iff, Hnext, Hl.
      intros E. assert (inject_Z (k + 1) * i <= inject_Z k * i)%Q as E2 by (rewrite E; apply Qle_refl).
      apply multiple_le in E2; [lia|done]. }
    destruct (IH fuel (k + 1) (correctFloat (pos + i)) (Some (correctFloat (pos + i))) (acc ++ [pos]))
      as (l & E & Hf2); try done.
    + intros j Hj. apply Hs. lia.
    + lia.
    + lia.
    + exists (pos :: l). rewrite E, <-app_assoc. split; [done|].
      rewrite multiples_cons. by constructor.
Qed.

Definition first_multiple (i min : Q) : Z := Qfloor (min / i).
Definition last_multiple (i max : Q) : Z := Qceiling (max / i).

Lemma first_multiple_bounds i min : (0 < i)%Q ->
  (inject_Z (first_multiple i min) * i <= min)%Q /\ (min < inject_Z (first_multiple i min + 1) * i)%Q.
Proof.
  intros Hi. assert (min / i * i == min)%Q as E by (field; intros E; rewrite E in Hi; by apply Qlt_irrefl in Hi).
  split.
  - rewrite <-E at 2. apply Qmult_le_r; [done|]. apply Qfloor_le.
  - rewrite <-E at 1. apply Qmult_lt_r; [done|]. apply Qlt_floor.
Qed.

Lemma last_multiple_bounds i max : (0 < i)%Q ->
  (max <= inject_Z (last_multiple i max) * i)%Q /\ (inject_Z (last_multiple i max - 1) * i < max)%Q.
Proof.
  intros Hi. assert (max / i * i == max)%Q as E by (field; intros E; rewrite E in Hi; by apply Qlt_irrefl in Hi).
  split.
  - rewrite <-E at 1. apply Qmult_le_r; [done|]. apply Qle_ceiling.
  - rewrite <-E at 2. apply Qmult_lt_r; [done|]. unfold last_multiple, Z.sub.
    apply Qceiling_lt.
Qed.

Lemma multiples_ordered i min max : (0 < i)%Q -> (min <= max)%Q -> first_multiple i min <= last_multiple i max.
Proof.
  intros Hi H. destruct (first_multiple_bounds i min Hi) as [H1 _].
  destruct (last_multiple_bounds i max Hi) as [H2 _]. apply (multiple_le i); [done|]. lra.
Qed.

(** The number of ticks. *)
Definition tick_count (i min max : Q) : nat := Z.to_nat (last_multiple i max - first_multiple i min + 1).

Lemma getLinearTickPositions_multiples fuel i min max : (0 < i)%Q -> (min <= max)%Q ->
  short i (first_multiple i min) (last_multiple i max + 1) -> (tick_count i min max <= fuel)%nat ->
  exists l, getLinearTickPositions fuel i min max = Some l /\
    Forall2 Qeq l (multiples i (first_multiple i min) (tick_count i min max)).
Proof.
  intros Hi Hm Hs Hf. pose proof (multiples_ordered i min max Hi Hm).
  unfold getLinearTickPositions, rounded_min, rounded_max.
  fold (first_multiple i min). fold (last_multiple i max).
  destruct (linear_loop_multiples i (last_multiple i max)
    (correctFloat (inject_Z (last_multiple i max) * i)) (tick_count i min max) fuel (first_multiple i min)
    (correctFloat (inject_Z (first_multiple i min) * i)) None []) as (l & E & Hl); try done.
  - apply Hs. lia.
  - apply Hs. lia.
  - unfold tick_count. lia.
  - exists l. by rewrite E.
Qed.

(** The interval is positive. *)
Lemma power10_pos e : (0 < power10 e)%Q.
Proof.
  unfold power10. destruct (0 <=? e) eqn:E; zbool; [|apply Qinv_lt_0_compat];
    apply (proj1 (inject_Z_lt 0 _)), Z.pow_pos_nonneg; lia.
Qed.

Lemma pick_multiple_in_q n x ms : ms <> [] -> In (pick_multiple n x ms) ms.
Proof.
  revert x. induction ms as [|m ms IH]; intros x H; [done|]. cbn [pick_multiple].
  destruct (Qle_bool n _); [by left|]. destruct ms as [|m' ms]; [by left|]. right. by apply IH.
Qed.

Lemma normalizeTickInterval_pos allow x mag : (0 < mag)%Q -> (0 < normalizeTickInterval allow x mag)%Q.
Proof.
  intros Hm. unfold normalizeTickInterval. set (ms := if allow then _ else _).
  assert (ms <> [] /\ forall q, In q ms -> (0 < q)%Q) as [Hne Hpos].
  { assert (default_multiples <> [] /\ forall q, In q default_multiples -> (0 < q)%Q) as Hd.
    { split; [done|]. cbn. intros q Hq. intuition (subst; reflexivity). }
    subst ms. destruct allow; [done|]. destruct (Qeq_bool mag 1); [|destruct (Qle_bool mag (1 # 10)); [|done]].
    - split; [done|]. cbn. intros q Hq. intuition (subst; reflexivity).
    - split; [done|]. intros q [<-|[]]. by apply Qinv_lt_0_compat. }
  pose proof (Hpos _ (pick_multiple_in_q (x / mag) x ms Hne)) as H.
  rewrite <-(Qmult_0_l mag). by apply Qmult_lt_r.
Qed.

(** *** A list of the multiples from one to another *)

Definition ticks_of (i : Q) (l : list Q) (lo hi : Z) : Prop :=
  Forall2 Qeq l (multiples i lo (Z.to_nat (hi - lo + 1))).

Lemma ticks_of_tail i l lo hi : lo <= hi -> ticks_of i l lo hi ->
  exists t, head l = Some t /\ (t == inject_Z lo * i)%Q /\ ticks_of i (tail l) (lo + 1) hi.
Proof.
  unfold ticks_of. intros H. replace (Z.to_nat (hi - lo + 1)) with (S (Z.to_nat (hi - (lo + 1) + 1))) by lia.
  rewrite multiples_cons. intros Hl. inversion Hl as [|t ? l' ? Ht Hl' E1 E2]; subst. by exists t.
Qed.

Lemma ticks_of_last i l lo hi : lo <= hi -> ticks_of i l lo hi ->
  exists t, last l = Some t /\ (t == inject_Z hi * i)%Q /\ ticks_of i (removelast l) lo (hi - 1).
Proof.
  unfold ticks_of. intros H. replace (Z.to_nat (hi - lo + 1)) with (S (Z.to_nat (hi - 1 - lo + 1))) by lia.
  rewrite multiples_snoc. intros Hl. apply Forall2_app_inv_r in Hl as (l1 & l2 & H1 & H2 & ->).
  inversion H2 as [|t ? l' ? Ht Hl' E1 E2]; subst. inversion Hl'; subst. exists t.
  rewrite last_snoc, removelast_last. split_and!; [done| |done]. rewrite Ht.
  replace (lo + Z.of_nat (Z.to_nat (hi - 1 - lo + 1))) with hi by lia. reflexivity.
Qed.

(** The ticks are exactly the multiples between two ends. *)
Definition exactly_multiples (i m M : Q) (l : list Q) : Prop :=
  (forall t, In t l -> (m <= t <= M)%Q /\ exists k, (t == inject_Z k * i)%Q) /\
  (forall k, (m <= inject_Z k * i <= M)%Q -> exists t, In t l /\ (t == inject_Z k * i)%Q).

Lemma ticks_of_exactly i l lo hi m M : (0 < i)%Q -> ticks_of i l lo hi ->
  (m <= inject_Z lo * i)%Q -> (inject_Z (lo - 1) * i < m)%Q ->
  (inject_Z hi * i <= M)%Q -> (M < inject_Z (hi + 1) * i)%Q -> exactly_multiples i m M l.
Proof.
  intros Hi Hl H1 H2 H3 H4. split.
  - intros t (j & Hj)%list_elem_of_In%list_elem_of_lookup.
    destruct (Forall2_lookup_l _ _ _ _ _ Hl Hj) as (u & Hu & Ht).
    unfold multiples in Hu. apply list_lookup_fmap_Some in Hu as (k & -> & Hk).
    apply lookup_seq in Hk as [-> Hk]. cbn [Nat.add] in *. set (k := lo + Z.of_nat j) in *.
    assert (inject_Z lo * i <= inject_Z k * i)%Q by (apply multiple_le; [done|lia]).
    assert (inject_Z k * i <= inject_Z hi * i)%Q by (apply multiple_le; [done|lia]).
    split; [split; lra|by exists k].
  - intros k [H5 H6].
    assert (lo <= k).
    { destruct (Z.le_gt_cases lo k); [done|]. exfalso.
      assert (inject_Z k * i <= inject_Z (lo - 1) * i)%Q by (apply multiple_le; [done|lia]). lra. }
    assert (k <= hi).
    { destruct (Z.le_gt_cases k hi); [done|]. exfalso.
      assert (inject_Z (hi + 1) * i <= inject_Z k * i)%Q by (apply multiple_le; [done|lia]). lra. }
    assert (multiples i lo (Z.to_nat (hi - lo + 1)) !! Z.to_nat (k - lo) = Some (inject_Z k * i)%Q) as Hu.
    { unfold multiples. rewrite list_lookup_fmap, lookup_seq_lt by lia. cbn. do 2 f_equal. f_equal. lia. }
    destruct (Forall2_lookup_r _ _ _ _ _ Hl Hu) as (t & Ht & E).
    exists t. split; [|done]. by eapply list_elem_of_In, list_elem_of_lookup_2.
Qed.

(** ** A value axis shows its data *)

(** An axis of numbers whose ends nothing fixes, and its data. *)
Record value_axis (o : axis_options) (s : axis_state) (a b : Q) : Prop := {
  va_y : o_isXAxis o = false;
  va_log : o_isLog o = false;
  va_linked : o_linked o = None;
  va_time : o_time_ticks o = None;
  va_positioner : o_tickPositioner o = None;
  va_ordinal : o_ordinal o = false;
  va_given : k_optTickPositions (s_ticks s) = None;
  va_options : o_min o = None /\ o_max o = None;
  va_padding : (0 <= o_minPadding o)%Q /\ (0 <= o_maxPadding o)%Q;
  va_interval : (match o_tickInterval o with Some t => 0 < t | None => 0 < o_tickPixelInterval o end)%Q;
  va_len : (0 < m_len (s_metrics s))%Q;
  va_user : r_userMin (s_ranges s) = None /\ r_userMax (s_ranges s) = None;
  va_range : r_range (s_ranges s) = None /\ r_minRange (s_ranges s) = MRUndef;
  va_min : ex_dataMin (s_extremes s) = Some a;
  va_max : ex_dataMax (s_extremes s) = Some b;
  va_data : (a <= b)%Q
}.

Section value_axes.
Context (log2lin lin2log : Q -> Q) (o : axis_options).
Context (processData : option Q -> option Q -> list series_info) (raw : list range_series).
Context (s : axis_state) (a b : Q) (Hv : value_axis o s a b).

Lemma set_ranges_value sp : exists m M,
  set_ranges log2lin o raw sp (s_extremes s) (s_ranges s)
    = Ok (Ranges (Some m) (Some M) None None None MRUndef) /\ (m <= a)%Q /\ (b <= M)%Q.
Proof.
  destruct Hv. destruct va_user0 as [Hu1 Hu2], va_range0 as [Hr1 Hr2], va_options0 as [Ho1 Ho2].
  destruct va_padding0 as [Hp1 Hp2].
  unfold set_ranges, first_extremes, log_extremes. rewrite va_linked0, va_log0. cbn [mbind res_bind].
  unfold pick. rewrite Hu1, Hu2, Ho1, Ho2, va_min0, va_max0, Hr1, Hr2. unfold zoom_range. cbn [r_range].
  unfold min_range_step, HsAxis.adjustForMinRange, auto_minRange.
  cbn [r_min r_max r_minRange ra_minRange ra_isXAxis]. rewrite va_y0. cbn [andb range_lt ra_min ra_max or_zero default from_option id].
  unfold pad. cbn [r_min r_max r_userMin r_userMax]. cbn [or_zero default from_option id]. rewrite va_linked0, Ho1, Ho2.
  set (len := if Qeq_bool (b - a) 0 then 1%Q else (b - a)%Q).
  assert (0 <= len)%Q as Hlen by (subst len; destruct (Qeq_bool _ _); lra).
  pose proof (Qmult_le_0_compat _ _ Hlen Hp1). pose proof (Qmult_le_0_compat _ _ Hlen Hp2).
  clearbody len.
  repeat match goal with |- context [if ?c then _ else _] => destruct c end;
    eexists _, _; (split; [reflexivity|]); split; lra.
Qed.

Lemma raw_interval_pos m M uM uX r mr : (m <= M)%Q ->
  (0 < raw_interval o (m_len (s_metrics s)) (Ranges (Some m) (Some M) uM uX r mr))%Q.
Proof.
  intros H. destruct Hv. unfold raw_interval. cbn. rewrite va_linked0.
  destruct (Qeq_bool m M) eqn:E; [reflexivity|]. apply Qeq_bool_neq in E.
  destruct (o_tickInterval o); [done|]. cbn. destruct (o_categories o); [reflexivity|].
  assert (0 < M - m)%Q as HM. { apply Qle_lteq in H as [H|H]; [lra|]. exfalso. by apply E. }
  unfold Qdiv. apply Qmult_lt_0_compat; [by apply Qmult_lt_0_compat|].
  apply Qinv_lt_0_compat. destruct (Qeq_bool (m_len (s_metrics s)) 0); [reflexivity|done].
Qed.

Lemma round_interval_pos x : (0 < x)%Q -> (0 < round_interval o x)%Q.
Proof.
  intros H. unfold round_interval. repeat case_match; try done. apply normalizeTickInterval_pos, power10_pos.
Qed.

Lemma end_on_ticks_value i m M k uM uX r mr : (0 < i)%Q -> (m <= M)%Q ->
  k_optTickPositions k = None ->
  ticks_of i (k_tickPositions k) (first_multiple i m) (last_multiple i M) ->
  exists m' M' k', end_on_ticks o (Ranges (Some m) (Some M) uM uX r mr) k
      = (Ranges (Some m') (Some M') uM uX r mr, k') /\
    (m' <= m)%Q /\ (M <= M')%Q /\ exactly_multiples i m' M' (k_tickPositions k').
Proof.
  intros Hi HmM Hk Ht. unfold end_on_ticks. destruct Hv. rewrite va_linked0. clear Hv.
  destruct (first_multiple_bounds i m Hi) as [F1 F2]. destruct (last_multiple_bounds i M Hi) as [L1 L2].
  pose proof (multiples_ordered i m M Hi HmM) as Hlo.
  set (lo := first_multiple i m) in *. set (hi := last_multiple i M) in *.
  destruct (ticks_of_tail i _ _ _ Hlo Ht) as (t0 & Eh & E0 & Htail).
  destruct (ticks_of_last i _ _ _ Hlo Ht) as (t1 & El & E1 & _).
  rewrite Eh, El. cbn [r_min r_max].
  (* the lower end *)
  assert (exists m' lo' k', (if o_startOnTick o then (Some t0, k)
      else (Some m, if Qlt_b t0 m then set_ticks (tail (k_tickPositions k)) k else k)) = (Some m', k') /\
    (m' <= m)%Q /\ (m' <= inject_Z lo' * i)%Q /\ (inject_Z (lo' - 1) * i < m')%Q /\ lo' <= lo + 1 /\
    ticks_of i (k_tickPositions k') lo' hi /\ (lo' = lo + 1 -> (inject_Z lo * i < m)%Q)) as
    (m' & lo' & k' & -> & Hm' & A1 & A2 & A3 & A4 & A5).
  { assert (inject_Z (lo - 1) * i < inject_Z lo * i)%Q by (apply Qmult_lt_r; [done|apply (proj1 (inject_Z_lt _ _)); lia]).
    destruct (o_startOnTick o).
    - exists t0, lo, k. split_and!; first [done|lra|lia].
    - destruct (Qlt_b t0 m) eqn:E.
      + apply Qlt_b_spec in E. exists m, (lo + 1), (set_ticks (tail (k_tickPositions k)) k).
        replace (lo + 1 - 1) with lo by lia. split_and!; first [done|lra|lia].
      + apply Qlt_b_false in E. exists m, lo, k. split_and!; first [done|lra|lia]. }
  (* the upper end *)
  assert (inject_Z hi * i < inject_Z (hi + 1) * i)%Q by (apply Qmult_lt_r; [done|apply (proj1 (inject_Z_lt _ _)); lia]).
  destruct (o_endOnTick o).
  - exists m', t1, k'. split_and!; [done..|lra|].
    eapply (ticks_of_exactly i _ lo' hi); try done; lra.
  - destruct (Qlt_b M t1) eqn:E.
    + apply Qlt_b_spec in E. exists m', M, (set_ticks (removelast (k_tickPositions k')) k').
      assert (lo' <= hi) as Hlh.
      { destruct (Z.le_gt_cases lo' hi); [done|]. assert (lo' = lo + 1) as -> by lia.
        specialize (A5 eq_refl). assert (lo = hi) as <- by lia. lra. }
      destruct (ticks_of_last i _ _ _ Hlh A4) as (_ & _ & _ & Hrm).
      split_and!; [done|done|apply Qle_refl|].
      eapply (ticks_of_exactly i _ lo' (hi - 1)); try done; [|replace (hi - 1 + 1) with hi by lia]; lra.
    + apply Qlt_b_false in E. exists m', M, k'. split_and!; [done|done|apply Qle_refl|].
      eapply (ticks_of_exactly i _ lo' hi); try done; lra.
Qed.

(** What [setTickPositions] leaves of the axis. *)
Definition shows_data (i : Q) (s' : axis_state) : Prop :=
  exists m M, r_min (s_ranges s') = Some m /\ r_max (s_ranges s') = Some M /\
    (m <= a)%Q /\ (b <= M)%Q /\ exactly_multiples i m M (k_tickPositions (s_ticks s')) /\
    (0 < i)%Q /\ s_metrics s' = s_metrics s /\ s_extremes s' = s_extremes s /\
    s_ordinal s' = None /\ s_series s' = s_series s.

(** The interval, and the fuel and short numbers its ticks need. *)
Definition interval_of (r : ranges) : Q := round_interval o (raw_interval o (m_len (s_metrics s)) r).
Definition enough (fuel : nat) (r : ranges) : Prop :=
  let i := interval_of r in
  (tick_count i (or_zero (r_min r)) (or_zero (r_max r)) <= fuel)%nat /\
  short i (first_multiple i (or_zero (r_min r))) (last_multiple i (or_zero (r_max r)) + 1).

Lemma setTickPositions_value fuel sp r :
  set_ranges log2lin o raw sp (s_extremes s) (s_ranges s) = Ok r -> enough fuel r ->
  exists s', setTickPositions log2lin lin2log o processData raw fuel sp s = Some (Ok s') /\
    shows_data (interval_of r) s'.
Proof.
  intros Hr [Hfuel Hshort]. destruct (set_ranges_value sp) as (m & M & Er & Hm & HM).
  rewrite Hr in Er. injection Er as ->.
  pose proof (va_data _ _ _ _ Hv) as Hab. assert (m <= M)%Q as HmM by lra.
  assert (0 < interval_of (Ranges (Some m) (Some M) None None None MRUndef))%Q as Hi
    by (by apply round_interval_pos, raw_interval_pos).
  unfold setTickPositions. rewrite Hr.
  rewrite (va_ordinal _ _ _ _ Hv), (va_y _ _ _ _ Hv). cbn [andb].
  fold (interval_of (Ranges (Some m) (Some M) None None None MRUndef)).
  set (i := interval_of _) in *. cbn [or_zero r_min r_max default from_option id] in Hfuel, Hshort.
  destruct (getLinearTickPositions_multiples fuel i m M Hi HmM Hshort Hfuel) as (l & El & Hl).
  unfold find_ticks. cbn [k_optTickPositions k_tickInterval r_min r_max s_ticks].
  rewrite (va_given _ _ _ _ Hv), (va_positioner _ _ _ _ Hv), (va_time _ _ _ _ Hv), (va_log _ _ _ _ Hv).
  cbn [mbind option_bind]. rewrite El. cbn [mbind option_bind].
  match goal with |- context [end_on_ticks o ?rr ?k] =>
    destruct (end_on_ticks_value i m M k None None None MRUndef Hi HmM) as (m' & M' & k' & E & H1 & H2 & H3)
  end; [done| |].
  { exact Hl. }
  rewrite E. eexists. split; [reflexivity|]. exists m', M'. cbn.
  split_and!; try done; lra.
Qed.
End value_axes.

(** C10: A chart's value axis has room for its data: on an axis that is linear, neither ordinal
    nor linked, has a length and is given no ends, positions, range or tickPositioner
    ([value_axis]), once [getSeriesExtremes] has read the series into empty stacks, without
    percent stacks, and found data, [setTickPositions] finds range and ticks with the fuel
    and the short numbers these need ([enough]); every value in sight, a stacked one as the
    height its stack has reached with it, has its place between the ends of the axis, and
    the ticks are exactly the multiples of the interval there. *)
Theorem value_axis_has_room log2lin lin2log o processData raw fuel sp ignoreHidden l s0 a b r :
  let e := getSeriesExtremes false (o_isLog o) ignoreHidden l (s_extremes s0) in
  let s := AxisState (s_metrics s0) e (s_ranges s0) (s_translation s0) (s_ticks s0) (s_ordinal s0)
             (s_series s0) (s_oldMin s0) (s_oldMax s0) in
  let shown := shown_series ignoreHidden l in
  let es := entries (o_isLog o) shown in
  ex_stacks (s_extremes s0) = ∅ -> forallb (fun s => negb (is_percent s)) shown = true ->
  value_axis o s a b -> set_ranges log2lin o raw sp e (s_ranges s) = Ok r -> enough o s fuel r ->
  exists s' m M, setTickPositions log2lin lin2log o processData raw fuel sp s = Some (Ok s') /\
    r_min (s_ranges s') = Some m /\ r_max (s_ranges s') = Some M /\
    exactly_multiples (interval_of o s r) m M (k_tickPositions (s_ticks s')) /\
    forall n x, es !! n = Some x -> en_seen x = true ->
      exists p, translate log2lin lin2log o (with_translation (setAxisTranslation o s') s')
                  (counted es n x) false false false false = Some p /\
        (0 <= p <= m_len (s_metrics s'))%Q.
Proof.
  intros e s shown es Hst Hp Hv Hr Hen.
  destruct (setTickPositions_value log2lin lin2log o processData raw s a b Hv fuel sp r Hr Hen)
    as (s' & Es & m & M & Em & EM & Ha & Hb & Hx & _ & Hmet & _).
  exists s', m, M. split_and!; [done..|]. intros n x Hn Hseen.
  destruct (getSeriesExtremes_ok (o_isLog o) ignoreHidden l (s_extremes s0) Hst Hp) as [_ _ Hw _ _].
  destruct (Hw n x Hn Hseen) as (a' & b' & Ea & Eb & Hab). fold shown es in Hab. cbn [snd] in Ea, Eb.
  change (ex_dataMin e = Some a') in Ea. change (ex_dataMax e = Some b') in Eb.
  pose proof (va_min _ _ _ _ Hv) as Ea'. pose proof (va_max _ _ _ _ Hv) as Eb'.
  change (ex_dataMin e = Some a) in Ea'. change (ex_dataMax e = Some b) in Eb'.
  assert (a' = a) as -> by congruence. assert (b' = b) as -> by congruence.
  pose proof (va_data _ _ _ _ Hv). pose proof (va_len _ _ _ _ Hv) as Hlen.
  assert (fits o s' m M) as Hf.
  { split; [done|done|lra|rewrite Hmet; by apply Qlt_le_weak|by apply (va_linked _ _ _ _ Hv)]. }
  assert (plain_axis o false) as Hpl.
  { unfold plain_axis. rewrite (va_ordinal _ _ _ _ Hv), (va_log _ _ _ _ Hv). done. }
  destruct (translate_eq log2lin lin2log o (with_translation (setAxisTranslation o s') s') m
    (counted es n x) false false Hpl Em) as (p & Ep & Dp).
  exists p. split; [done|].
  destruct (room o s' m M (counted es n x) Hf) as (R1 & R2 & R3); [split; lra|].
  cbn zeta in *. cbn [with_translation s_translation s_metrics xorb] in Dp.
  destruct (o_reversed o); split; lra.
Qed.

Lemma short_check i lo n :
  forallb (fun q => Qeq_bool (correctFloat q) q) (multiples i lo n) = true -> short i lo (lo + Z.of_nat n - 1).
Proof.
  intros H k Hk. rewrite forallb_forall in H. apply Qeq_bool_iff, H. apply list_elem_of_In, list_elem_of_fmap.
  exists (Z.to_nat (k - lo)). split; [do 2 f_equal; lia|]. apply elem_of_seq. lia.
Qed.

Definition sized_axis : axis_state := with_metrics (Metrics 10 10 300 200 10 10 200) new_axis.

Definition demo_ranges : ranges := Ranges (Some (13 # 50)) (Some (57 # 50)) None None None MRUndef.

Lemma value_axis_has_room_witness :
  let o := value_options false in
  let e := getSeriesExtremes false false true [demo_series] (s_extremes sized_axis) in
  let s := AxisState (s_metrics sized_axis) e (s_ranges sized_axis) (s_translation sized_axis)
             (s_ticks sized_axis) None [] None None in
  exists s' m M, setTickPositions id id o (fun _ _ => []) [] 5 false s = Some (Ok s') /\
    r_min (s_ranges s') = Some m /\ r_max (s_ranges s') = Some M /\
    exists p, translate id id o (with_translation (setAxisTranslation o s') s') (11 # 10)
                false false false false = Some p /\ (0 <= p <= 200)%Q.
Proof.
  intros o e s.
  destruct (set_ranges id o [] false e (s_ranges s)) as [r|] eqn:Er; [|vm_compute in Er; discriminate].
  assert (Er' := Er). vm_compute in Er'. injection Er' as Er'.
  destruct (value_axis_has_room id id o (fun _ _ => []) [] 5 false true [demo_series] sized_axis
    (3 # 10) (11 # 10) r) as (s' & m & M & E & Em & EM & _ & H).
  - reflexivity.
  - reflexivity.
  - split; try reflexivity; try (split; reflexivity); try (unfold Qle; cbn; lia);
      try (split; unfold Qle; cbn; lia).
  - exact Er.
  - subst r. split; [vm_compute; lia|].
    replace (last_multiple _ _ + 1) with (1 + Z.of_nat 6 - 1) by (vm_compute; reflexivity).
    apply (short_check _ 1 6). vm_compute. reflexivity.
  - exists s', m, M. refine (conj E (conj Em (conj EM _))).
    assert (m_len (s_metrics s') = 200%Q) as Hlen.
    { clear -E. vm_compute in E. injection E as <-. reflexivity. }
    rewrite <-Hlen. apply (H 1%nat (Entry None (11 # 10) true)); reflexivity.
Defined.

(** ** Given ticks are lost

    The axis works on the array of the options: after zooming in and out again the
    ticks that were out of sight are gone. *)
Definition given_axis (userMin userMax : option Q) (ticks : list Q) : axis_state :=
  AxisState (Metrics 10 10 300 200 10 10 200) (Extremes (Some 0%Q) (Some 10%Q) false false false ∅)
    (Ranges None None userMin userMax None MRUndef) (Translation 0 None 0 0 0 None)
    (TickState 0 None None [] (Some ticks)) None [] None None.

Definition ticks_after (s : axis_state) : option (list Q) :=
  match setTickPositions id id (value_options false) (fun _ _ => []) [] 20 false s with
  | Some (Ok s') => k_optTickPositions (s_ticks s')
  | _ => None
  end.

Example given_ticks_lost :
  ticks_after (given_axis None None [0%Q; 5%Q; 10%Q]) = Some [0%Q; 5%Q; 10%Q] /\
  ticks_after (given_axis (Some 4%Q) (Some 6%Q) [0%Q; 5%Q; 10%Q]) = Some [5%Q] /\
  ticks_after (given_axis None None [5%Q]) = Some [5%Q].
Proof. vm_compute. done. Qed.
