(* ===== verification/HsStock.v ===== *)
(** * Charts: comparing series, and gaps in ordinal data

    [highstock.src.js]: the parts of the stock chart that extend a series: the values
    of compared series ([init], [processData]), segments that end at gaps
    ([getSegments] with [gapSize]), and the cache of extended ordinal positions
    ([getExtendedPositions]).  Times are whole numbers, values rational ones without
    rounding; a value [None] is not a number. *)

From stdpp Require Import gmap strings.
From Stdlib Require Import QArith Qround Lqa.
From S2P Require Import Prelude JsString JsNum HsData HsOrdinal.
Local Open Scope list_scope.
Local Open Scope Z_scope.

(** ** Compared series *)

(** [options.compare]: ['value'], or another true value. *)
Inductive compare_option := CompareValue | ComparePercent.

(** [series.modifyValue(value)]; [None] is not a finite number: there is nothing to
    compare with, or it is zero. *)
Definition modifyValue (compare : compare_option) (compareValue : option Q) (value : Q) : option Q :=
  c ← compareValue;
  match compare with
  | CompareValue => Some (value - c)%Q
  | ComparePercent => if Qeq_bool c 0 then None else Some (100 * (value / c) - 100)%Q
  end.

(** The search of [processData]: the first number from the axis's minimum on. *)
Fixpoint first_value (min : Q) (xs : list Z) (ys : list (option Q)) : option Q :=
  match xs, ys with
  | x :: xs', Some y :: ys' => if Qle_bool min (inject_Z x) then Some y else first_value min xs' ys'
  | _ :: xs', None :: ys' => first_value min xs' ys'
  | _, _ => None
  end.

(** [series.compareValue] after [processData]; it stays when nothing is found. *)
Definition compare_value (min : Q) (xs : list Z) (ys : list (option Q)) (old : option Q) : option Q :=
  match first_value min xs ys with Some y => Some y | None => old end.

(** ** Gaps *)

Section gaps.
Context {A : Type} (x_of : A -> Z) (isNull : A -> bool).

(** [segment[i + 1].x - segment[i].x > closestPointRange * gapSize] *)
Definition is_gap (gap : Q) (a b : A) : bool := negb (Qle_bool (inject_Z (x_of b - x_of a)) gap).
Definition gap_at (gap : Q) (segment : list A) (i : nat) : bool :=
  match segment !! i, segment !! S i with Some a, Some b => is_gap gap a b | _, _ => false end.

(** [while (i--)]: what follows a gap becomes a segment of its own, right after. *)
Fixpoint split_loop (gap : Q) (i : nat) (segment : list A) (after : list (list A))
    : list A * list (list A) :=
  match i with
  | O => (segment, after)
  | S i' =>
      if gap_at gap segment i'
      then split_loop gap i' (take (S i') segment) (drop (S i') segment :: after)
      else split_loop gap i' segment after
  end.

(** [each(segments, ...)], with the length there was at first: the parts that were
    inserted are seen, and the segments they push out are not. *)
Fixpoint gap_loop (gap : Q) (n no : nat) (segments : list (list A)) : list (list A) :=
  match n with
  | O => segments
  | S n' =>
      match segments !! no with
      | Some segment =>
          let '(s, after) := split_loop gap (length segment - 1) segment [] in
          gap_loop gap n' (S no) (take no segments ++ (s :: after) ++ drop (S no) segments)
      | None => segments
      end
  end.

(** [getSegments]: the points and the segments.  With [connectNulls] the one segment
    is the array of the points. *)
Definition getSegments (gapSize : option Q) (closestPointRange : Z) (connectNulls : bool) (points : list A)
    : list A * list (list A) :=
  let '(points, segments) := HsData.getSegments isNull connectNulls points in
  match gapSize with
  | Some g =>
      if Qeq_bool g 0 then (points, segments)
      else
        let segments' := gap_loop (inject_Z closestPointRange * g) (length segments) 0 segments in
        (if connectNulls then default points (head segments') else points, segments')
  | None => (points, segments)
  end.
End gaps.

Definition demo_points (l : list (Z * bool)) : list (list Z) :=
  map (map fst) (snd (getSegments fst snd (Some 1%Q) 10 false l)).

(** One segment is split at every gap; of two, the second is not when the first was. *)
Example gap_segments_ex :
  demo_points [(0, false); (10, false); (100, false); (200, false); (210, false)]
    = [[0; 10]; [100]; [200; 210]] /\
  demo_points [(0, false); (100, false); (110, true); (120, false); (300, false)]
    = [[0]; [100]; [120; 300]] /\
  fst (getSegments fst snd (Some 1%Q) 10 true [(0, false); (100, false)]) = [(0, false)].
Proof. vm_compute. done. Qed.

(** ** Extended positions

    The cache of positions by grouping; panning works on the cached arrays.  [full]
    is what processing the whole data of the series with a grouping leaves, the
    hidden series too: the copies of the series do not say whether they are shown. *)
Definition grouping_key (grouping : option (Z * string)) : string :=
  match grouping with Some (count, unit) => (show_Z count ++ unit)%string | None => "raw"%string end.

Definition ordinal_index : Type := gmap string (list Z).

Section extended.
Context (full : option (Z * string) -> list (list Z)).

Definition full_positions (grouping : option (Z * string)) (dataMin dataMax : Q) : option (list Z) :=
  match beforeSetTickPositions (OrdinalSeries true <$> full grouping) dataMin dataMax with
  | Some ord => Some (ordinalPositions ord)
  | None => None
  end.

(** [getExtendedPositions] *)
Definition getExtendedPositions (grouping : option (Z * string)) (dataMin dataMax : Q)
    (index : ordinal_index) : option (list Z) * ordinal_index :=
  let key := grouping_key grouping in
  match index !! key with
  | Some l => (Some l, index)
  | None =>
      match full_positions grouping dataMin dataMax with
      | Some l => (Some l, <[key := l]> index)
      | None => (None, index)
      end
  end.
End extended.

(** [delete xAxis.ordinalIndex], when the data of a series changed. *)
Definition forget_positions (index : ordinal_index) : ordinal_index := ∅.

(** ** What the segments are *)

Section gap_facts.
Context {A : Type} (x_of : A -> Z) (gap : Q).
Local Notation gap_at := (gap_at x_of gap).

(** A segment without gaps. *)
Definition unbroken (s : list A) : Prop := s <> [] /\ forall j, gap_at s j = false.

(** A gap between two segments. *)
Definition gap_between (s s' : list A) : Prop :=
  exists a b, last s = Some a /\ head s' = Some b /\ is_gap x_of gap a b = true.

Fixpoint separated (l : list (list A)) : Prop :=
  match l with
  | s :: ((s' :: _) as rest) => gap_between s s' /\ separated rest
  | _ => True
  end.

Lemma gap_at_lt s j : gap_at s j = true -> (S j < length s)%nat.
Proof.
  unfold HsStock.gap_at. intros H. destruct (s !! j); [|done]. destruct (s !! S j) eqn:E; [|done].
  by apply lookup_lt_Some in E.
Qed.

Lemma gap_at_drop s k j : gap_at (drop k s) j = gap_at s (k + j).
Proof. unfold HsStock.gap_at. rewrite !lookup_drop. by replace (k + S j)%nat with (S (k + j)) by lia. Qed.

Lemma gap_at_take s k j : gap_at (take k s) j = true -> gap_at s j = true /\ (S j < k)%nat.
Proof.
  intros H. pose proof (gap_at_lt _ _ H) as Hl. rewrite length_take in Hl. split; [|lia].
  unfold HsStock.gap_at in *. by rewrite !lookup_take_lt in H by lia.
Qed.

Lemma gap_between_parts s k : gap_at s k = true -> gap_between (take (S k) s) (drop (S k) s).
Proof.
  intros H. pose proof (gap_at_lt _ _ H) as Hl. unfold HsStock.gap_at in H.
  destruct (s !! k) as [a|] eqn:Ea; [|done]. destruct (s !! S k) as [b|] eqn:Eb; [|done].
  exists a, b. split_and!; [| |done].
  - by rewrite (take_S_r _ _ _ Ea), last_snoc.
  - rewrite <-Eb. rewrite <-(Nat.add_0_r (S k)) at 2. rewrite <-lookup_drop. by destruct (drop (S k) s).
Qed.

Lemma split_loop_spec i : forall segment after, (i <= length segment - 1)%nat -> segment <> [] ->
  (forall j, (i <= j)%nat -> gap_at segment j = false) ->
  Forall unbroken after -> separated (segment :: after) ->
  let '(s, after') := split_loop x_of gap i segment after in
  s ++ concat after' = segment ++ concat after /\
  Forall unbroken (s :: after') /\ separated (s :: after').
Proof.
  induction i as [|i IH]; intros segment after Hi Hne Hg Ha Hs; cbn [split_loop].
  - split_and!; [done| |done]. constructor; [split; [done|]|done]. intros j. apply Hg. lia.
  - destruct (gap_at segment i) eqn:E.
    + pose proof (gap_at_lt _ _ E) as Hl.
      assert (drop (S i) segment <> []) as Hd.
      { intros H. apply (f_equal length) in H. rewrite length_drop in H. cbn [length] in H. lia. }
      pose proof (IH (take (S i) segment) (drop (S i) segment :: after)) as IH'.
      destruct (split_loop x_of gap i _ _) as [s after']. destruct IH' as (E1 & E2 & E3).
      * rewrite length_take. lia.
      * intros H. apply (f_equal length) in H. rewrite length_take in H. cbn [length] in H. lia.
      * intros j Hj. apply not_true_iff_false. intros H. apply gap_at_take in H as [_ H]. lia.
      * constructor; [|done]. split; [done|]. intros j. rewrite gap_at_drop. apply Hg. lia.
      * split; [by apply gap_between_parts|]. destruct after as [|s' after]; [done|].
        destruct Hs as [(a & b & H1 & H2 & H3) Hs]. split; [|done]. exists a, b. split_and!; [|done|done].
        rewrite <-(take_drop (S i) segment), last_app in H1.
        destruct (last (drop (S i) segment)) eqn:El; [done|]. by apply last_None in El.
      * rewrite E1. split; [|done]. cbn [concat]. by rewrite app_assoc, take_drop.
    + apply IH; [lia|done| |done|done]. intros j Hj. destruct (decide (j = i)) as [->|]; [done|].
      apply Hg. lia.
Qed.

Lemma split_segment s : s <> [] ->
  let '(s', after) := split_loop x_of gap (length s - 1) s [] in
  s' ++ concat after = s /\ Forall unbroken (s' :: after) /\ separated (s' :: after).
Proof.
  intros Hne. pose proof (split_loop_spec (length s - 1) s [] ltac:(lia) Hne) as H.
  destruct (split_loop _ _ _ _ _) as [s' after]. rewrite app_nil_r in H. apply H; [|constructor|done].
  intros j Hj. apply not_true_iff_false. intros E. apply gap_at_lt in E. lia.
Qed.

Lemma gap_loop_concat n : forall no l, Forall (fun s => s <> []) l ->
  concat (gap_loop x_of gap n no l) = concat l /\ Forall (fun s => s <> []) (gap_loop x_of gap n no l).
Proof.
  induction n as [|n IH]; intros no l Hl; cbn [gap_loop]; [done|].
  destruct (l !! no) as [s|] eqn:E; [|done].
  pose proof (proj1 (Forall_lookup _ _) Hl no s E) as Hs. cbn beta in Hs.
  pose proof (split_segment s Hs) as H. destruct (split_loop _ _ _ _ _) as [s' after].
  destruct H as (H1 & H2 & _).
  destruct (IH (S no) (take no l ++ (s' :: after) ++ drop (S no) l)) as [-> Hf].
  - apply Forall_app. split; [by apply Forall_take|]. apply Forall_app. split; [|by apply Forall_drop].
    eapply Forall_impl; [exact H2|]. by intros ? [? _].
  - split; [|done]. rewrite <-(take_drop_middle l no s E) at 3. rewrite !concat_app. cbn [concat].
    by rewrite H1.
Qed.
End gap_facts.

(** The segments there are before gaps count. *)
Lemma segment_loop_one {A} (isNull : A -> bool) points rest i :
  Forall (fun p => isNull p = false) rest -> (i + length rest = length points)%nat -> rest <> [] ->
  HsData.segment_loop isNull points rest i 0 = [take (length points) points].
Proof.
  revert i. induction rest as [|p rest IH]; intros i Hn Hl Hne; [done|]. cbn [HsData.segment_loop length] in *.
  inversion Hn as [|? ? Hp Hn']; subst. rewrite Hp. case_decide as Hd.
  - destruct rest; cbn [length] in Hl; [|lia]. cbn. f_equal. unfold slice. rewrite drop_0. f_equal. lia.
  - apply IH; [done|lia|]. intros ->. cbn in Hl. lia.
Qed.

Lemma base_segments {A} (isNull : A -> bool) connectNulls points :
  let '(_, segments) := HsData.getSegments isNull connectNulls points in
  concat segments = List.filter (fun p => negb (isNull p)) points /\
  Forall (fun s => s <> []) segments /\
  (connectNulls = true \/ Forall (fun p => isNull p = false) points ->
   segments = [] \/ exists s, segments = [s] /\ s <> []).
Proof.
  pose proof (getSegments_points isNull connectNulls points) as H.
  destruct (HsData.getSegments isNull connectNulls points) as [points' segments] eqn:E.
  destruct H as [Hc Hf].
  assert (Forall (fun s => s <> []) segments) as Hne by (eapply Forall_impl; [exact Hf|]; by intros ? [? _]).
  split_and!; [done|done|]. intros Hk. unfold HsData.getSegments in E. destruct connectNulls.
  - injection E as _ <-. case_decide as Hd; [by left|right]. eauto.
  - destruct Hk as [|Hk]; [done|]. apply (f_equal snd) in E. cbn [snd] in E.
    destruct (decide (points = [])) as [->|Hp]; [left; by rewrite <-E|right].
    rewrite (segment_loop_one isNull points points 0) in E by done.
    exists points. split; [|done]. rewrite <-E. f_equal. by apply take_ge.
Qed.

(** Splitting at gaps neither loses nor moves a point: the segments one after the
    other are the points that are not null.  When nulls make no break there is one
    segment to split, and the result is the runs between the gaps: no segment is
    empty or has a gap inside, and between two segments there is one.  (Of several
    segments those after a split one may stay as they were.) *)
Theorem getSegments_gaps {A} (x_of : A -> Z) isNull g closest connectNulls points :
  let '(_, segments) := getSegments x_of isNull (Some g) closest connectNulls points in
  let gap := (inject_Z closest * g)%Q in
  concat segments = List.filter (fun p => negb (isNull p)) points /\
  Forall (fun s => s <> []) segments /\
  (~ (g == 0)%Q -> connectNulls = true \/ Forall (fun p => isNull p = false) points ->
   Forall (unbroken x_of gap) segments /\ separated x_of gap segments).
Proof.
  unfold getSegments. pose proof (base_segments isNull connectNulls points) as Hb.
  destruct (HsData.getSegments isNull connectNulls points) as [points' segments].
  destruct Hb as (Hc & Hne & Hone). destruct (Qeq_bool g 0) eqn:Eg.
  { split_and!; [done|done|]. intros Hg. by apply Qeq_bool_iff in Eg. }
  set (gap := (inject_Z closest * g)%Q).
  destruct (gap_loop_concat x_of gap (length segments) 0 segments Hne) as [H1 H2].
  split_and!; [by rewrite H1|done|]. intros _ Hk.
  destruct (Hone Hk) as [->|(s & -> & Hs)]; cbn; [by split|].
  pose proof (split_segment x_of gap s Hs) as H. destruct (split_loop x_of gap _ s []) as [s' after].
  rewrite app_nil_r. by destruct H as (_ & ? & ?).
Qed.

Lemma getSegments_gaps_witness :
  let l := [(0, false); (10, false); (100, false); (200, false); (210, false)] in
  let segments := snd (getSegments fst snd (Some 1%Q) 10 false l) in
  Forall (unbroken fst (inject_Z 10 * 1)) segments /\ separated fst (inject_Z 10 * 1) segments.
Proof.
  intros l segments.
  pose proof (getSegments_gaps fst snd 1 10 false l) as H. revert H. unfold segments.
  destruct (getSegments fst snd (Some 1%Q) 10 false l) as [p s]. intros (_ & _ & H).
  apply H; [discriminate|right]. repeat constructor.
Defined.

(** ** Comparing *)

(** When a number in sight is found, the first of them compares as zero (unless it
    is zero itself and per cent are asked for), and comparing keeps the order of
    values by value, and by per cent of a positive one. *)
Theorem compare_first_is_zero compare min xs ys old y :
  first_value min xs ys = Some y -> compare = CompareValue \/ ~ (y == 0)%Q ->
  let c := compare_value min xs ys old in
  (exists z, modifyValue compare c y = Some z /\ (z == 0)%Q) /\
  (compare = CompareValue \/ (0 < y)%Q -> forall v w a b, (v < w)%Q ->
   modifyValue compare c v = Some a -> modifyValue compare c w = Some b -> (a < b)%Q).
Proof.
  intros Hf Hy c. unfold c, compare_value. rewrite Hf. unfold modifyValue. cbn [mbind option_bind].
  destruct compare.
  - split; [eexists; split; [done|ring]|]. intros _ v w a b Hvw [= <-] [= <-]. lra.
  - destruct Hy as [|Hy]; [done|]. destruct (Qeq_bool y 0) eqn:E; [by apply Qeq_bool_iff in E|].
    split; [eexists; split; [done|]; by field|].
    intros [|Hp] v w a b Hvw [= <-] [= <-]; [done|].
    assert (v / y < w / y)%Q by (unfold Qdiv; apply Qmult_lt_r; [by apply Qinv_lt_0_compat|done]). lra.
Qed.

Lemma compare_first_is_zero_witness :
  exists z, modifyValue ComparePercent (compare_value 5 [0; 10; 20] [Some 3%Q; Some 8%Q; None] None) 8 = Some z
    /\ (z == 0)%Q.
Proof.
  destruct (compare_first_is_zero ComparePercent 5 [0; 10; 20] [Some 3%Q; Some 8%Q; None] None 8) as [H _].
  - reflexivity.
  - right. discriminate.
  - exact H.
Defined.
