(* ===== verification/HsNavigator.v ===== *)
(** * Charts: the navigator and the inputs of the range selector

    [highstock.src.js]: the [Scroller] with its three mouse handlers, [render] and
    [updatedDataHandler], the translation of a scroll bar without a navigator, the
    two inputs of the [RangeSelector], its pressed button and what follows a change
    of the extremes.  Places of the mouse are whole pixels, values of an axis
    rational numbers without rounding. *)

From Stdlib Require Import QArith Qround Qminmax Qabs Lqa.
From S2P Require Import Prelude JsString JsNum JsDate HsTime HsAxis.
Local Open Scope list_scope.
Local Open Scope Z_scope.

(** ** The scroller *)

(** What is fixed when the scroller is made. *)
Record scroller_options := ScrollerOptions {
  so_top : Z; so_height : Z; so_scrollbarHeight : Z;
  so_navigatorEnabled : bool; so_scrollbarEnabled : bool;
  so_touch : bool; so_outlineWidth : Q; so_barBorderWidth : Z
}.

(** [Scroller]: without the navigator it has no height, without the scroll bar that
    has none. *)
Definition scroller_height (navigatorEnabled : bool) (height : Z) : Z := if navigatorEnabled then height else 0.
Definition bar_height (scrollbarEnabled : bool) (height : Z) : Z := if scrollbarEnabled then height else 0.
Definition outlineHeight (o : scroller_options) : Z := so_height o + so_scrollbarHeight o.

(** [getAxisTop(chartHeight)]; a top of zero is none. *)
Definition getAxisTop (o : scroller_options) (top : option Z) (chartHeight spacingBottom : Z) : Z :=
  match top with
  | Some t => if t =? 0 then chartHeight - so_height o - so_scrollbarHeight o - spacingBottom else t
  | None => chartHeight - so_height o - so_scrollbarHeight o - spacingBottom
  end.

(** The fields [render] and the handlers set, and their variables [dragOffset] and
    [hasDragged]; the sizes are those of the last [render]. *)
Record scroller := Scroller {
  n_navigatorLeft : Z; n_navigatorWidth : Z; n_scrollerLeft : Z; n_scrollerWidth : Z;
  n_zoomedMin : Z; n_zoomedMax : Z; n_range : Z;
  n_grabbedLeft : bool; n_grabbedRight : bool; n_grabbedCenter : option Z;
  n_otherHandlePos : Z; n_dragOffset : option Z; n_hasDragged : bool
}.

(** [pInt] of a number that is not so small or large that its text has an exponent. *)
Definition pInt (x : Q) : Z := if Qle_bool 0 x then Qfloor x else Qceiling x.

Section scroller.
Context (o : scroller_options).

(** [render(min, max, pxMin, pxMax)] for the sizes of the axis, the places in pixels
    being known, by [translate] or from the mouse. *)
Definition render (axisLeft axisLen : option Z) (plotLeft plotWidth : Z) (pxMin pxMax : Q) (n : scroller)
    : scroller :=
  let sh := so_scrollbarHeight o in
  let navigatorLeft := default (plotLeft + sh) axisLeft in
  let navigatorWidth := default (plotWidth - 2 * sh) axisLen in
  let zoomedMin := pInt (Qmin pxMin pxMax) in
  let zoomedMax := pInt (Qmax pxMin pxMax) in
  Scroller navigatorLeft navigatorWidth (navigatorLeft - sh) (navigatorWidth + 2 * sh)
    zoomedMin zoomedMax (zoomedMax - zoomedMin)
    (n_grabbedLeft n) (n_grabbedRight n) (n_grabbedCenter n) (n_otherHandlePos n) (n_dragOffset n)
    (n_hasDragged n).

(** The extremes [render] gives the navigator's axis, when they are not the union of
    the data already. *)
Definition union_extremes (base : option (Q * Q)) (navDataMin navDataMax navMin navMax : Q)
    : option (Q * Q) :=
  '(baseMin, baseMax) ← base;
  let newMin := Qmin baseMin navDataMin in
  let newMax := Qmax baseMax navDataMax in
  if Qeq_bool newMin navMin && Qeq_bool newMax navMax then None else Some (newMin, newMax).

(** The places and widths of what [render] draws. *)
Record shapes := Shapes {
  sh_leftShade : Z * Z; sh_rightShade : Z * Z; sh_bar : Q * Z; sh_rifles : bool;
  sh_handles : Z * Z; sh_outline : list (Q * Q)
}.
Definition shapes_of (n : scroller) : shapes :=
  let half := (so_outlineWidth o / 2)%Q in
  let top := (inject_Z (so_top o) + half)%Q in
  let bottom := (top + inject_Z (outlineHeight o) - inject_Z (so_scrollbarHeight o))%Q in
  let x1 := (inject_Z (n_navigatorLeft n) + inject_Z (n_zoomedMin n) + half)%Q in
  let x2 := (inject_Z (n_navigatorLeft n) + inject_Z (n_zoomedMax n) - half)%Q in
  Shapes (n_navigatorLeft n, n_zoomedMin n)
    (n_navigatorLeft n + n_zoomedMax n, n_navigatorWidth n - n_zoomedMax n)
    ((inject_Z (so_scrollbarHeight o + n_zoomedMin n) + inject_Z (Z.rem (so_barBorderWidth o) 2) / 2)%Q,
     n_range n - so_barBorderWidth o)
    (12 <? n_range n)
    (n_scrollerLeft n + so_scrollbarHeight o + pInt (inject_Z (n_zoomedMin n) + half),
     n_scrollerLeft n + so_scrollbarHeight o + pInt (inject_Z (n_zoomedMax n) + half))
    [(inject_Z (n_scrollerLeft n), top); (x1, top); (x1, bottom); (x2, bottom); (x2, top);
     (inject_Z (n_scrollerLeft n + n_scrollerWidth n), top)].

(** *** The mouse *)

(** [left] of a click beside the range: half pixels when it is centred. *)
Definition shifted_left (n : scroller) (isOnNavigator : bool) (chartX : Z) : Q :=
  let left_ :=
    if isOnNavigator then (inject_Z (chartX - n_navigatorLeft n) - inject_Z (n_range n) / 2)%Q
    else if chartX <? n_navigatorLeft n then inject_Z (n_zoomedMin n - Z.min 10 (n_range n))
    else if n_scrollerLeft n + n_scrollerWidth n - so_scrollbarHeight o <? chartX then
      inject_Z (n_zoomedMin n + Z.min 10 (n_range n))
    else if chartX <? n_navigatorLeft n + n_zoomedMin n then inject_Z (n_zoomedMin n - n_range n)
    else inject_Z (n_zoomedMax n) in
  if Qlt_b left_ 0 then 0%Q
  else if Qlt_b (inject_Z (n_navigatorWidth n)) (left_ + inject_Z (n_range n)) then
    inject_Z (n_navigatorWidth n - n_range n)
  else left_.

Definition grab (left_ right_ : bool) (center : option Z) (other : Z) (offset : option Z) (n : scroller)
    : scroller :=
  Scroller (n_navigatorLeft n) (n_navigatorWidth n) (n_scrollerLeft n) (n_scrollerWidth n)
    (n_zoomedMin n) (n_zoomedMax n) (n_range n) left_ right_ center other offset (n_hasDragged n).

(** [mouseDownHandler]: the scroller, and the range in pixels the axis is set to. *)
Definition mouseDownHandler (n : scroller) (chartX chartY : Z) : scroller * option (Q * Q) :=
  let sensitivity := if so_touch o then 10 else 7 in
  if (so_top o <? chartY) && (chartY <? so_top o + so_height o + so_scrollbarHeight o) then
    let isOnNavigator := negb (so_scrollbarEnabled o) || (chartY <? so_top o + so_height o) in
    if isOnNavigator && (Z.abs (chartX - n_zoomedMin n - n_navigatorLeft n) <? sensitivity) then
      (grab true (n_grabbedRight n) (n_grabbedCenter n) (n_zoomedMax n) (n_dragOffset n) n, None)
    else if isOnNavigator && (Z.abs (chartX - n_zoomedMax n - n_navigatorLeft n) <? sensitivity) then
      (grab (n_grabbedLeft n) true (n_grabbedCenter n) (n_zoomedMin n) (n_dragOffset n) n, None)
    else if (n_navigatorLeft n + n_zoomedMin n <? chartX) && (chartX <? n_navigatorLeft n + n_zoomedMax n) then
      (grab (n_grabbedLeft n) (n_grabbedRight n) (Some chartX) (n_otherHandlePos n)
         (Some (chartX - n_zoomedMin n)) n, None)
    else if (n_scrollerLeft n <? chartX) && (chartX <? n_scrollerLeft n + n_scrollerWidth n) then
      let left_ := shifted_left n isOnNavigator chartX in
      (n, if Qeq_bool left_ (inject_Z (n_zoomedMin n)) then None
          else Some (left_, left_ + inject_Z (n_range n))%Q)
    else (n, None)
  else (n, None).

(** The mouse kept between the ends. *)
Definition clamp_mouse (n : scroller) (chartX : Z) : Z :=
  if chartX <? n_navigatorLeft n then n_navigatorLeft n
  else if n_scrollerLeft n + n_scrollerWidth n - so_scrollbarHeight o <? chartX then
    n_scrollerLeft n + n_scrollerWidth n - so_scrollbarHeight o
  else chartX.

Definition dragged (n : scroller) : scroller :=
  Scroller (n_navigatorLeft n) (n_navigatorWidth n) (n_scrollerLeft n) (n_scrollerWidth n)
    (n_zoomedMin n) (n_zoomedMax n) (n_range n) (n_grabbedLeft n) (n_grabbedRight n) (n_grabbedCenter n)
    (n_otherHandlePos n) (n_dragOffset n) true.

(** [mouseMoveHandler]; [render] is called with the sizes of the axis. *)
Definition mouseMoveHandler (axisLeft axisLen : option Z) (plotLeft plotWidth : Z) (n : scroller)
    (chartX : Z) : scroller :=
  let chartX := clamp_mouse n chartX in
  let draw (a b : Z) := render axisLeft axisLen plotLeft plotWidth (inject_Z a) (inject_Z b) (dragged n) in
  if n_grabbedLeft n then draw (chartX - n_navigatorLeft n) (n_otherHandlePos n)
  else if n_grabbedRight n then draw (n_otherHandlePos n) (chartX - n_navigatorLeft n)
  else match n_grabbedCenter n with
       | Some c =>
           if c =? 0 then n
           else
             let dragOffset := default 0 (n_dragOffset n) in
             let chartX :=
               if chartX <? dragOffset then dragOffset
               else if n_navigatorWidth n + dragOffset - n_range n <? chartX then
                 n_navigatorWidth n + dragOffset - n_range n
               else chartX in
             draw (chartX - dragOffset) (chartX - dragOffset + n_range n)
       | None => n
       end.

(** [mouseUpHandler]: the range in pixels, when something was dragged. *)
Definition mouseUpHandler (n : scroller) : scroller * option (Z * Z) :=
  (Scroller (n_navigatorLeft n) (n_navigatorWidth n) (n_scrollerLeft n) (n_scrollerWidth n)
     (n_zoomedMin n) (n_zoomedMax n) (n_range n) false false None (n_otherHandlePos n) None false,
   if n_hasDragged n then Some (n_zoomedMin n, n_zoomedMax n) else None).
End scroller.

(** *** New data *)

(** [updatedDataHandler]: the new extremes of the base axis, or what the scroller is
    drawn with. *)
Inductive data_update := NewExtremes (newMin newMax : Q) | Redrawn (min max : Q).

Definition updatedDataHandler (hasSetExtremes : bool) (baseMin baseMax baseDataMin baseDataMax : Q)
    (oldLast newFirst : Q) : data_update :=
  let range := (baseMax - baseMin)%Q in
  let stickToMax := Qle_bool oldLast baseMax in
  let stickToMin := Qle_bool baseMin baseDataMin in
  let newMin := if stickToMin then baseDataMin else Qmax (baseDataMax - range) newFirst in
  let newMax := if stickToMax then baseDataMax else (baseDataMin + range)%Q in
  if hasSetExtremes && (stickToMin || stickToMax) then NewExtremes newMin newMax
  else Redrawn (Qmax baseMin baseDataMin) (Qmin baseMax baseDataMax).

(** *** A scroll bar alone

    [xAxis.translate] of a scroll bar without a navigator; [None] is not finite. *)
Definition bar_translate (plotWidth scrollbarHeight : Z) (dataMin dataMax : Q) (value : Q) (reverse : bool)
    : option Q :=
  let scrollTrackWidth := inject_Z (plotWidth - 2 * scrollbarHeight) in
  let valueRange := (dataMax - dataMin)%Q in
  if reverse then
    if Qeq_bool scrollTrackWidth 0 then None
    else Some (value * valueRange / scrollTrackWidth + dataMin)%Q
  else
    if Qeq_bool valueRange 0 then None
    else Some (scrollTrackWidth * (value - dataMin) / valueRange)%Q.

(** [renderScroller]: what it draws after loading and resizing. *)
Definition renderScroller (min max dataMin dataMax : Q) : Q * Q := (Qmax min dataMin, Qmin max dataMax).

Example navigator_ex :
  let o := ScrollerOptions 100 40 14 true true false 2 1 in
  let n := Scroller 20 200 6 228 50 100 50 false false None 0 None false in
  let '(n1, _) := mouseDownHandler o n 72 120 in
  let n2 := mouseMoveHandler o (Some 20) (Some 200) 0 0 n1 180 in
  (n_zoomedMin n2, n_zoomedMax n2, snd (mouseUpHandler n2)) = (100, 160, Some (100, 160)) /\
  snd (mouseDownHandler o n 200 120) = Some (150 # 1, 200 # 1)%Q.
Proof. vm_compute. done. Qed.

(** ** The range stays on the axis *)

(** The sizes of the last [render], and a range between the ends; the place of the
    other handle too while one is held. *)
Record on_axis (o : scroller_options) (n : scroller) : Prop := {
  on_left : n_scrollerLeft n = n_navigatorLeft n - so_scrollbarHeight o;
  on_width : n_scrollerWidth n = n_navigatorWidth n + 2 * so_scrollbarHeight o;
  on_order : 0 <= n_zoomedMin n <= n_zoomedMax n;
  on_end : n_zoomedMax n <= n_navigatorWidth n;
  on_range : n_range n = n_zoomedMax n - n_zoomedMin n;
  on_other : n_grabbedLeft n || n_grabbedRight n = true -> 0 <= n_otherHandlePos n <= n_navigatorWidth n
}.

(** What can happen: the mouse, and drawing for a range of the axis; the axis keeps
    its size. *)
Inductive step (o : scroller_options) (w : Z) (n : scroller) : scroller -> Prop :=
| step_down x y : step o w n (fst (mouseDownHandler o n x y))
| step_move axisLeft plotLeft plotWidth x :
    step o w n (mouseMoveHandler o axisLeft (Some w) plotLeft plotWidth n x)
| step_up : step o w n (fst (mouseUpHandler n))
| step_render axisLeft plotLeft plotWidth a b :
    (0 <= a <= inject_Z w)%Q -> (0 <= b <= inject_Z w)%Q ->
    step o w n (render o axisLeft (Some w) plotLeft plotWidth a b n).

Lemma pInt_Z z : pInt (inject_Z z) = z.
Proof. unfold pInt. rewrite Qfloor_Z, Qceiling_Z. by destruct (Qle_bool _ _). Qed.

Lemma Qfloor_mono x y : (x <= y)%Q -> Qfloor x <= Qfloor y.
Proof. apply Qfloor_resp_le. Qed.

Lemma pInt_bounds x w : (0 <= x <= inject_Z w)%Q -> 0 <= pInt x <= w.
Proof.
  intros [H1 H2]. unfold pInt. rewrite (proj2 (Qle_bool_iff _ _) H1).
  split; [rewrite <-(Qfloor_Z 0)|rewrite <-(Qfloor_Z w)]; by apply Qfloor_mono.
Qed.

Lemma pInt_mono x y : (0 <= x)%Q -> (x <= y)%Q -> pInt x <= pInt y.
Proof.
  intros H1 H2. unfold pInt. rewrite (proj2 (Qle_bool_iff _ _) H1).
  rewrite (proj2 (Qle_bool_iff 0 y)) by (by apply Qle_trans with x). by apply Qfloor_mono.
Qed.

Lemma render_on_axis o w n axisLeft plotLeft plotWidth a b :
  (0 <= a <= inject_Z w)%Q -> (0 <= b <= inject_Z w)%Q -> 0 <= w ->
  (n_grabbedLeft n || n_grabbedRight n = true -> 0 <= n_otherHandlePos n <= w) ->
  let n' := render o axisLeft (Some w) plotLeft plotWidth a b n in
  on_axis o n' /\ n_navigatorWidth n' = w.
Proof.
  intros Ha Hb Hw Ho n'. split; [|done].
  assert (0 <= Qmin a b)%Q as H1 by (apply Q.min_glb; [apply Ha|apply Hb]).
  assert (Qmin a b <= Qmax a b)%Q as H2.
  { apply Qle_trans with a; [apply Q.le_min_l|apply Q.le_max_l]. }
  assert (Qmax a b <= inject_Z w)%Q as H3 by (apply Q.max_lub; [apply Ha|apply Hb]).
  pose proof (pInt_mono _ _ H1 H2). 
  destruct (pInt_bounds (Qmin a b) w) as [? ?]; [split; [done|by apply Qle_trans with (Qmax a b)]|].
  destruct (pInt_bounds (Qmax a b) w) as [? ?]; [split; [by apply Qle_trans with (Qmin a b)|done]|].
  split; cbn; try lia. intros H'. apply Ho in H'. lia.
Qed.

Lemma inject_bounds z w : 0 <= z <= w -> (0 <= inject_Z z <= inject_Z w)%Q.
Proof. intros [H1 H2]. split; unfold Qle; cbn; lia. Qed.

Lemma step_on_axis o w n n' : 0 <= w -> on_axis o n -> n_navigatorWidth n = w -> step o w n n' ->
  on_axis o n' /\ n_navigatorWidth n' = w.
Proof.
  intros Hw Hn En H. destruct Hn as [H1 H2 H3 H4 H5 H6]. subst w. destruct H.
  - unfold mouseDownHandler. repeat case_match; cbn; (split; [split; cbn; try done; try lia|done]).
    all: intros _; lia.
  - unfold mouseMoveHandler, clamp_mouse.
    assert (n_scrollerLeft n + n_scrollerWidth n - so_scrollbarHeight o
            = n_navigatorLeft n + n_navigatorWidth n) as -> by lia.
    set (x' := if x <? n_navigatorLeft n then _ else _).
    assert (n_navigatorLeft n <= x' <= n_navigatorLeft n + n_navigatorWidth n) as Hx.
    { subst x'. repeat case_match; zbool; lia. }
    clearbody x'. destruct (n_grabbedLeft n) eqn:Gl; [|destruct (n_grabbedRight n) eqn:Gr;
      [|destruct (n_grabbedCenter n) as [c|] eqn:Gc]].
    + specialize (H6 eq_refl). apply render_on_axis; try done; try (by apply inject_bounds; lia).
    + specialize (H6 eq_refl). apply render_on_axis; try done; try (by apply inject_bounds; lia).
    + destruct (c =? 0); [split; [split; try done; by rewrite Gl, Gr|done]|]. set (d := default 0 (n_dragOffset n)).
      set (y := if x' <? d then d else _). assert (0 <= y - d <= n_navigatorWidth n - n_range n) as Hy.
      { subst y. repeat case_match; zbool; lia. }
      clearbody y. apply render_on_axis; try done; try (apply inject_bounds; lia).
      cbn. by rewrite Gl, Gr.
    + split; [|done]. split; try done. by rewrite Gl, Gr.
  - cbn. split; [|done]. by split.
  - by apply render_on_axis.
Qed.

(** C12: However the mouse is pressed, moved and released over the navigator and its
    scroll bar, and however often it is drawn for ranges of the axis between, the
    range it shows lies on the axis, its ends in order; so does the range that
    releasing sets. *)
Theorem navigator_reachable o w n0 n : 0 <= w -> on_axis o n0 -> n_navigatorWidth n0 = w ->
  rtc (step o w) n0 n ->
  0 <= n_zoomedMin n /\ n_zoomedMin n <= n_zoomedMax n /\ n_zoomedMax n <= w /\
  n_range n = n_zoomedMax n - n_zoomedMin n /\
  forall a b, snd (mouseUpHandler n) = Some (a, b) -> 0 <= a <= b /\ b <= w.
Proof.
  intros Hw H0 E0 Hr. assert (on_axis o n /\ n_navigatorWidth n = w) as [[H1 H2 H3 H4 H5 H6] E].
  { revert H0 E0. induction Hr as [n|n n' n'' Hs _ IH]; intros H0 E0; [done|].
    destruct (step_on_axis o w n n' Hw H0 E0 Hs). by apply IH. }
  split_and!; try lia. intros a b. cbn. destruct (n_hasDragged n); [|done]. intros [= <- <-]. lia.
Qed.

Lemma shifted_left_inside o n nav x : on_axis o n ->
  (0 <= shifted_left o n nav x)%Q /\
  (shifted_left o n nav x + inject_Z (n_range n) <= inject_Z (n_navigatorWidth n))%Q.
Proof.
  intros [H1 H2 H3 H4 H5 _]. unfold shifted_left.
  match goal with |- context [if Qlt_b ?l 0 then _ else _] => generalize l end. intros l.
  destruct (Qlt_b l 0) eqn:E1; [|destruct (Qlt_b (inject_Z (n_navigatorWidth n)) _) eqn:E2].
  - split; [apply Qle_refl|]. rewrite Qplus_0_l. unfold Qle; cbn; lia.
  - split; [unfold Qle; cbn; lia|]. rewrite <-inject_Z_plus. unfold Qle; cbn; lia.
  - apply Qlt_b_false in E1, E2. by split.
Qed.

(** A click beside the range moves it without changing its length, to a place on
    the axis; the parts outside the range and the range together are the whole
    width. *)
Theorem click_shifts o n x y a b : on_axis o n -> snd (mouseDownHandler o n x y) = Some (a, b) ->
  (b - a == inject_Z (n_range n))%Q /\ (0 <= a)%Q /\ (b <= inject_Z (n_navigatorWidth n))%Q /\
  snd (sh_leftShade (shapes_of o n)) + n_range n + snd (sh_rightShade (shapes_of o n)) = n_navigatorWidth n.
Proof.
  intros Hn. unfold mouseDownHandler.
  repeat case_match; cbn [snd]; try done; intros [= <- <-].
  all: split; [ring|]; destruct (shifted_left_inside o n (negb (so_scrollbarEnabled o) || (y <? so_top o + so_height o)) x Hn);
    split_and!; [congruence..|]; cbn; destruct Hn; lia.
Qed.

Definition demo_options : scroller_options := ScrollerOptions 100 40 14 true true false 2 1.
Definition demo_scroller : scroller := Scroller 20 200 6 228 50 100 50 false false None 0 None false.

Lemma demo_on_axis : on_axis demo_options demo_scroller.
Proof. by split; cbn. Qed.

Lemma navigator_reachable_witness :
  let n := mouseMoveHandler demo_options (Some 20) (Some 200) 0 0
             (fst (mouseDownHandler demo_options demo_scroller 50 120)) 400 in
  0 <= n_zoomedMin n /\ n_zoomedMax n <= 200.
Proof.
  destruct (navigator_reachable demo_options 200 demo_scroller
    (mouseMoveHandler demo_options (Some 20) (Some 200) 0 0
       (fst (mouseDownHandler demo_options demo_scroller 50 120)) 400)) as (H1 & _ & H3 & _).
  - lia.
  - exact demo_on_axis.
  - reflexivity.
  - eapply rtc_l; [apply step_down|]. eapply rtc_once. apply step_move.
  - exact (conj H1 H3).
Defined.

Lemma click_shifts_witness :
  exists a b, snd (mouseDownHandler demo_options demo_scroller 200 120) = Some (a, b) /\
    (b - a == 50)%Q /\ (b <= 200)%Q.
Proof.
  destruct (snd (mouseDownHandler demo_options demo_scroller 200 120)) as [[a b]|] eqn:E; [|discriminate].
  exists a, b. destruct (click_shifts demo_options demo_scroller 200 120 a b demo_on_axis E) as (H1 & _ & H3 & _).
  exact (conj eq_refl (conj H1 H3)).
Defined.

(** A scroll bar alone translates back what it translated. *)
Theorem bar_translate_back plotWidth sh dataMin dataMax v p :
  bar_translate plotWidth sh dataMin dataMax v false = Some p -> plotWidth <> 2 * sh ->
  exists w, bar_translate plotWidth sh dataMin dataMax p true = Some w /\ (w == v)%Q.
Proof.
  unfold bar_translate. set (t := inject_Z (plotWidth - 2 * sh)).
  destruct (Qeq_bool (dataMax - dataMin) 0) eqn:E; [done|]. intros [= <-] Hne.
  assert (~ t == 0)%Q as Ht by (unfold t, Qeq; cbn; lia).
  apply Qeq_bool_neq in E. destruct (Qeq_bool t 0) eqn:E2; [by apply Qeq_bool_iff in E2|].
  eexists. split; [done|]. by field.
Qed.

(** New data keep the range they follow: at the right end, with room for it, it goes
    to the new maximum and keeps its length; at the left end it starts at the new
    minimum. *)
Theorem updatedData_follows baseMin baseMax dataMin dataMax oldLast newFirst :
  (oldLast <= baseMax)%Q -> (dataMin < baseMin)%Q ->
  exists m, updatedDataHandler true baseMin baseMax dataMin dataMax oldLast newFirst = NewExtremes m dataMax /\
    (newFirst <= m)%Q /\ ((newFirst <= dataMax - (baseMax - baseMin))%Q -> dataMax - m == baseMax - baseMin)%Q.
Proof.
  intros H1 H2. unfold updatedDataHandler. rewrite (proj2 (Qle_bool_iff _ _) H1).
  destruct (Qle_bool baseMin dataMin) eqn:E; [apply Qle_bool_iff in E; lra|]. cbn [andb orb].
  eexists. split; [done|]. split; [apply Q.le_max_r|]. intros H. rewrite Q.max_l by done. ring.
Qed.

(** ** The inputs of the range selector *)

(** The number [Date.parse] gives for a text, or the parts of a date with dashes (45);
    [None] is [NaN].  [date_parse] is the language's. *)
Definition input_time (date_parse : string -> option Z) (inputValue : string) : option Z :=
  match date_parse inputValue with
  | Some t => Some t
  | None =>
      let part (i : nat) := s ← split_on (Ascii.ascii_of_nat 45) inputValue !! i; parseInt s in
      y ← part 0%nat; m ← part 1%nat; d ← part 2%nat;
      let y := if (0 <=? y) && (y <=? 99) then 1900 + y else y in
      Some (MakeDate (MakeDay y (m - 1) d) 0)
  end.

(** [input.onchange]: the extremes the axis is set to; [left] and [right] are the times
    the boxes hold. *)
Definition onchange (isMin : bool) (value : option Z) (min max dataMin dataMax : Z) (leftTime rightTime : Z)
    : option (Z * Z) :=
  v ← value;
  if (isMin && ((dataMin <=? v) && (v <=? rightTime)))
     || (negb isMin && ((v <=? dataMax) && (leftTime <=? v)))
  then Some (if isMin then (v, max) else (min, v)) else None.

(** A box: whether it has the focus, and its time. *)
Record box := Box { bx_hasFocus : bool; bx_time : Z }.

(** [setInputValue(input, time)]: the box and its text; a time of zero is none. *)
Definition setInputValue (format_date : string -> Z -> string) (editFormat format : option string)
    (b : box) (time : option Z) : box * string :=
  let f := if bx_hasFocus b then default "%Y-%m-%d"%string (truthy_str editFormat)
           else default "%b %e, %Y"%string (truthy_str format) in
  let t := match time with Some t => if t =? 0 then bx_time b else t | None => bx_time b end in
  (Box (bx_hasFocus b) t, format_date f t).

(** [onfocus] and [onblur]. *)
Definition focus_box (format_date : string -> Z -> string) (editFormat format : option string)
    (focus : bool) (b : box) : box * string :=
  setInputValue format_date editFormat format (Box focus (bx_time b)) None.

(** The end of [RangeSelector.render]: the two boxes show the extremes. *)
Definition render_inputs (format_date : string -> Z -> string) (editFormat format : option string)
    (left_ right_ : box) (min max : Z) : box * box :=
  (fst (setInputValue format_date editFormat format left_ (Some min)),
   fst (setInputValue format_date editFormat format right_ (Some max))).

(** The handler of [afterSetExtremes]: no button is pressed any more. *)
Definition unpress (selected : option nat) (states : list Z) (forExport : bool) : option nat * list Z :=
  match selected with
  | Some i => (None, if forExport then states else <[i := 0]> states)
  | None => (None, states)
  end.

(** What a user types into a box changes the range only to one that starts not
    before the data and not after its end, or ends not after the data and not before
    its start: with the boxes showing the extremes the range stays in order. *)
Theorem onchange_ordered format_date editFormat format left_ right_ isMin value min max dataMin dataMax a b :
  min <> 0 -> max <> 0 -> dataMin <= min -> max <= dataMax ->
  let '(l, r) := render_inputs format_date editFormat format left_ right_ min max in
  onchange isMin value min max dataMin dataMax (bx_time l) (bx_time r) = Some (a, b) ->
  dataMin <= a <= b /\ b <= dataMax.
Proof.
  intros Hm HM H1 H2. unfold render_inputs, setInputValue, onchange. cbn [fst bx_time].
  destruct (min =? 0) eqn:E1; [zbool; lia|]. destruct (max =? 0) eqn:E2; [zbool; lia|].
  destruct value as [v|]; [|done]. cbn [mbind option_bind].
  destruct isMin; cbn [andb negb orb]; rewrite ?orb_false_r.
  - destruct ((dataMin <=? v) && (v <=? max)) eqn:E; [|done]. intros [= <- <-]. zbool. lia.
  - destruct ((v <=? dataMax) && (min <=? v)) eqn:E; [|done]. intros [= <- <-]. zbool. lia.
Qed.
