(* ===== verification/HsPoints.v ===== *)
(** * Charts: the places of points

    [highstock.src.js]: what the series types make of their points once the axes have
    a scale: stacked values ([Series.translate]), the pixels of the tooltip
    ([setTooltipPoints]), columns ([ColumnSeries.translate]), the slices of a pie
    ([PieSeries.translate]) and the slots of its labels ([drawDataLabels]).
    Numbers are rational, without rounding except where the code rounds. *)

From stdpp Require Import sorting.
From Stdlib Require Import QArith Qround Qminmax Qabs Lqa.
From S2P Require Import Prelude JsString JsNum HsAxis HsScale.
Local Open Scope list_scope.
Local Open Scope Z_scope.

(** ** Stacked values *)

(** Whether the series of an index is the last one shown among those of its axis: the
    index in the list is compared with the index in the chart. *)
Fixpoint last_visible (i : nat) (visible : list bool) : option nat :=
  match visible with
  | [] => None
  | v :: rest => match last_visible (S i) rest with Some j => Some j | None => if v then Some i else None end
  end.
Definition isLastSeries (visible : list bool) (index : nat) : bool :=
  bool_decide (last_visible 0 visible = Some index).

(** The values of a point of a stack with [total] and [cum]: the new [cum], the bottom
    ([None] when the threshold is not a number), the top and the percentage. *)
Record stack_result := StackResult {
  sr_cum : Q; sr_yBottom : option Q; sr_stackY : Q; sr_percentage : Q
}.
Definition percent_of (total v : Q) : Q := if Qeq_bool total 0 then 0%Q else (v * 100 / total)%Q.
Definition stack_point (percent isLast : bool) (threshold : option Q) (total cum y : Q) : stack_result :=
  let cum := (cum - y)%Q in
  let yBottom := if isLast then threshold else Some cum in
  let yValue := (cum + y)%Q in
  if percent then
    StackResult cum (Some (percent_of total (default 0%Q yBottom))) (percent_of total yValue) (percent_of total y)
  else StackResult cum yBottom yValue (percent_of total y).

(** [mathRound(plotY * 10) / 10] *)
Definition tenths (x : Q) : Q := (inject_Z (mathRound (x * 10)) / 10)%Q.

(** The points of one x, one of each series in the order of the series. *)
Fixpoint stack_points (percent : bool) (total cum : Q) (ys : list Q) : list stack_result :=
  match ys with
  | [] => []
  | y :: rest =>
      let r := stack_point percent false None total cum y in
      r :: stack_points percent total (sr_cum r) rest
  end.

(** ** The pixels of the tooltip *)

(** The pixels from [low] to [high] of each point, in the order of the points, those
    of a reversed axis turned round: [_high] is half way to the next point. *)
Fixpoint tooltip_ranges (plotSize : Z) (low : Z) (xs : list Q) : list (Z * Z) :=
  match xs with
  | [] => []
  | x :: rest =>
      let high := match rest with
                  | x' :: _ => Z.max 0 (Qfloor ((x + x') / 2))
                  | [] => plotSize
                  end in
      (low, high) :: tooltip_ranges plotSize (high + 1) rest
  end.
Definition setTooltipPoints (plotSize : Z) (reversed : bool) (xs : list Q) : list (Z * Z) :=
  tooltip_ranges plotSize 0 (if reversed then rev xs else xs).

(** [tooltipPoints[px]]: the last point whose pixels it is among. *)
Fixpoint tooltip_point (i : nat) (px : Z) (l : list (Z * Z)) : option nat :=
  match l with
  | [] => None
  | (low, high) :: rest =>
      match tooltip_point (S i) px rest with
      | Some j => Some j
      | None => if (0 <=? low) && (low <=? px) && (px <=? high) then Some i else None
      end
  end.

(** [tooltipHeaderFormatter]: the format of a time, the first whose unit is not less
    than the distance of points. *)
Fixpoint header_format (units : list (Z * string)) (closestPointRange : option Z) : option string :=
  match units, closestPointRange with
  | (u, f) :: rest, Some d => if d <=? u then Some f else header_format rest closestPointRange
  | _, _ => None
  end.

(** ** Columns *)

(** A series of columns as the count of the columns reads it. *)
Record column_series := ColumnSeries {
  cs_counts : bool;                (* same type and group, visible *)
  cs_stackKey : option string      (* when it is stacked *)
}.

(** The loop over the series of the chart: the column of each, and their number. *)
Fixpoint column_indices (l : list column_series) (groups : list (string * nat)) (count : nat)
    : list (option nat) * nat :=
  match l with
  | [] => ([], count)
  | s :: rest =>
      if cs_counts s then
        match cs_stackKey s with
        | Some k =>
            match list_find (fun p => p.1 = k) groups with
            | Some (_, (_, i)) =>
                let '(r, n) := column_indices rest groups count in (Some i :: r, n)
            | None =>
                let '(r, n) := column_indices rest (groups ++ [(k, count)]) (S count) in (Some count :: r, n)
            end
        | None => let '(r, n) := column_indices rest groups (S count) in (Some count :: r, n)
        end
      else let '(r, n) := column_indices rest groups count in (None :: r, n)
  end.

Record column_options := ColumnOptions {
  co_groupPadding : Q; co_pointPadding : Q; co_pointWidth : option Q; co_borderWidth : Q;
  co_minPointLength : Q
}.

(** The width and the offset from the point, of the column [columnIndex] of
    [columnCount], where a category is [categoryWidth] wide. *)
Record column_place := ColumnPlace { cp_pointWidth : Q; cp_barW : Z; cp_pointXOffset : Q }.

Definition or_first (a : option Q) (b : option Q) : option Q :=
  match a with Some x => if Qeq_bool x 0 then b else a | None => b end.
(** [xAxis.ordinalSlope || options.pointRange || xAxis.closestPointRange || 1] *)
Definition category_width (transA : Q) (ordinalSlope pointRange closestPointRange : option Q) : Q :=
  (Qabs transA * default 1%Q (or_first ordinalSlope (or_first pointRange (or_first closestPointRange (Some 1%Q)))))%Q.

Definition place_columns (o : column_options) (reversed : bool) (categoryWidth : Q)
    (columnCount columnIndex : nat) : column_place :=
  let n := inject_Z (Z.of_nat columnCount) in
  let groupPadding := (categoryWidth * co_groupPadding o)%Q in
  let groupWidth := (categoryWidth - 2 * groupPadding)%Q in
  let pointOffsetWidth := (groupWidth / n)%Q in
  let pointPadding := match co_pointWidth o with
                      | Some w => ((pointOffsetWidth - w) / 2)%Q
                      | None => (pointOffsetWidth * co_pointPadding o)%Q
                      end in
  let pointWidth := default (pointOffsetWidth - 2 * pointPadding)%Q (co_pointWidth o) in
  let i := inject_Z (Z.of_nat columnIndex) in
  let colIndex := if reversed then (n - i)%Q else i in
  ColumnPlace pointWidth (Qceiling (Qmax pointWidth (1 + 2 * co_borderWidth o)))
    (pointPadding + (groupPadding + colIndex * pointOffsetWidth - categoryWidth / 2)
                    * (if reversed then -1 else 1))%Q.

(** The bar of a point: [translatedThreshold] is where columns start. *)
Definition column_bar (o : column_options) (plotY translatedThreshold : Q) (yBottom : option Q) : Q * Q :=
  let bottom := default translatedThreshold yBottom in
  let barY := inject_Z (Qceiling (Qmin plotY bottom)) in
  let barH := inject_Z (Qceiling (Qmax plotY bottom - barY)) in
  let min := co_minPointLength o in
  if Qlt_b (Qabs barH) min && negb (Qeq_bool min 0) then
    (if Qlt_b min (Qabs (barY - translatedThreshold)) then (bottom - min)%Q
     else (translatedThreshold - (if Qle_bool plotY translatedThreshold then min else 0))%Q, min)
  else (barY, barH).

(** The area of a small column that feels the mouse. *)
Definition tracker_height (barH : Q) : option Q := if Qlt_b (Qabs barH) 3 then Some 6%Q else None.

(** ** Pies *)

(** [getCenter]: places and sizes in pixels, or in per cent of the plot. *)
Inductive length_option := Pixels (x : Q) | Percent (p : Z).
Definition length_of (whole : Q) (l : length_option) : Q :=
  match l with Pixels x => x | Percent p => (whole * inject_Z p / 100)%Q end.
Record center := Center { ce_x : Q; ce_y : Q; ce_size : Q; ce_innerSize : Q }.
Definition getCenter (plotWidth plotHeight : Q) (x y size innerSize : length_option) : center :=
  let smallest := Qmin plotWidth plotHeight in
  Center (length_of plotWidth x) (length_of plotHeight y) (length_of smallest size) (length_of smallest innerSize).

(** The slices, in turn: the angles in thousandths of a radian, of a circle [circ]
    long, and the part of the whole. *)
Section pie.
Context (circ : Q).
Record slice := Slice { sl_start : Q; sl_end : Q; sl_fraction : Q }.

Definition angle_at (cumulative : Q) : Q := (inject_Z (mathRound (cumulative * circ * 1000)) / 1000)%Q.

Fixpoint pie_loop (total cumulative : Q) (ys : list Q) : list slice :=
  match ys with
  | [] => []
  | y :: rest =>
      let fraction := if Qeq_bool total 0 then 0%Q else (y / total)%Q in
      Slice (angle_at cumulative) (angle_at (cumulative + fraction)) fraction
        :: pie_loop total (cumulative + fraction)%Q rest
  end.
(** Points without a value count as zero. *)
Definition pie_total (ys : list (option Q)) : Q := fold_left (fun t y => (t + default 0 y)%Q) ys 0%Q.
Definition pie_slices (ys : list (option Q)) : list slice :=
  pie_loop (pie_total ys) (- (1 # 4))%Q (default 0%Q <$> ys).

(** Where the labels and a slice that is moved out belong; [cos] and [sin] are the
    language's. *)
Context (cos sin : Q -> Q).
Record slice_places := SlicePlaces {
  sp_sliced : Z * Z; sp_tooltip : Q * Q; sp_label : list Q; sp_align : string; sp_angle : Q
}.
Definition slice_place (c : center) (slicedOffset borderWidth labelDistance plotLeft plotTop : Q) (s : slice)
    : slice_places :=
  let connectorOffset := (slicedOffset + borderWidth)%Q in
  let angle := ((sl_end s + sl_start s) / 2)%Q in
  let radiusX := (cos angle * ce_size c / 2)%Q in
  let radiusY := (sin angle * ce_size c / 2)%Q in
  SlicePlaces
    (mathRound (cos angle * slicedOffset + plotLeft), mathRound (sin angle * slicedOffset + plotTop))
    (ce_x c + radiusX * (7 # 10), ce_y c + radiusY * (7 # 10))%Q
    [(ce_x c + radiusX + cos angle * labelDistance)%Q; (ce_y c + radiusY + sin angle * labelDistance)%Q;
     (ce_x c + radiusX + cos angle * connectorOffset)%Q; (ce_y c + radiusY + sin angle * connectorOffset)%Q;
     (ce_x c + radiusX)%Q; (ce_y c + radiusY)%Q]
    (if Qlt_b labelDistance 0 then "center"
     else if Qlt_b angle (circ / 4) then "left" else "right")%string
    angle.
End pie.

(** *** The slots of the labels

    The labels of one half of a pie, by the height they would like; [slots] are the
    heights there are. *)
Fixpoint slot_loop (fuel : nat) (pos bottom labelHeight : Q) : option (list Q) :=
  if Qle_bool pos bottom then
    match fuel with
    | O => None
    | S fuel' => l ← slot_loop fuel' (pos + labelHeight)%Q bottom labelHeight; Some (pos :: l)
    end
  else Some [].
Definition label_slots (fuel : nat) (centerY radius distance labelHeight : Q) : option (list Q) :=
  slot_loop fuel (centerY - radius - distance)%Q (centerY + radius + distance)%Q labelHeight.

(** The nearest slot within 9999 pixels, or the one found for the label before; a slot
    that is taken is [null], which counts as the height 0. *)
Fixpoint closest_slot (i : nat) (slots : list Q) (taken : list nat) (y closest : Q) (found : nat) : nat :=
  match slots with
  | [] => found
  | s :: rest =>
      let distance := Qabs ((if bool_decide (i ∈ taken) then 0 else s) - y) in
      if Qlt_b distance closest then closest_slot (S i) rest taken y distance i
      else closest_slot (S i) rest taken y closest found
  end.

(** [while (slots[slotIndex] === null)]: the next slot that is not taken, which may
    be past the last. *)
Fixpoint next_free (fuel : nat) (taken : list nat) (i : nat) : nat :=
  match fuel with
  | O => i
  | S fuel' => if bool_decide (i ∈ taken) then next_free fuel' taken (S i) else i
  end.

(** The slot of the [j]-th of [n] labels. *)
Definition choose_slot (slots : list Q) (n j : nat) (taken : list nat) (y : Q) (before : nat) : nat :=
  let i := closest_slot 0 slots taken y (inject_Z 9999) before in
  let slotsLength := length slots in
  let open_ := bool_decide (j ∉ taken) in
  if (i <? j)%nat && open_ then j
  else
    let i := if (slotsLength <? n - j + i)%nat && open_ then (slotsLength - n + j)%nat else i in
    next_free (S (length taken)) taken i.

Fixpoint choose_slots (slots : list Q) (n j : nat) (taken : list nat) (before : nat) (ys : list Q) : list nat :=
  match ys with
  | [] => []
  | y :: rest =>
      let i := choose_slot slots n j taken y before in
      i :: choose_slots slots n (S j) (i :: taken) i rest
  end.
Definition used_slots (slots : list Q) (ys : list Q) : list nat :=
  choose_slots slots (length ys) 0 [] 0 ys.

(** A label may go back to its natural height when the slot there is free; its slot's
    height is [None] past the last. *)
Definition label_y (slots : list Q) (used : list nat) (naturalY : Q) (i : nat) : option Q :=
  match slots !! i with
  | Some y =>
      let free_below := bool_decide (S i ∉ used) in
      let free_above := match i with O => true | S k => bool_decide (k ∉ used) end in
      Some (if (Qlt_b y naturalY && free_below) || (Qlt_b naturalY y && free_above) then naturalY else y)
  | None => None
  end.

(** [usedSlots.sort(sort)] and [pop]: the labels get the slots from the top, when each
    has a height. *)
Definition assigned_slots (used : list nat) : list nat := merge_sort Nat.le used.

(** With more labels than slots those of the smallest values go; among equal ones the
    later, as a stable sort has them. *)
Definition rank (vs : list Q) (i : nat) : nat :=
  match vs !! i with
  | Some v => length (List.filter (fun w => Qlt_b v w) vs)
              + length (List.filter (fun w => Qeq_bool v w) (take i vs))
  | None => 0
  end.
Definition drop_lowest (slotsLength : nat) (vs : list Q) : list nat :=
  if (slotsLength <? length vs)%nat
  then List.filter (fun i => (rank vs i <? slotsLength)%nat) (seq 0 (length vs))
  else seq 0 (length vs).

(** Three labels, four slots: the second label finds its own slot although the last
    but one would leave more room, the third goes above it. *)
Example used_slots_ex :
  used_slots [0%Q; 10%Q; 20%Q; 30%Q] [9%Q; 29%Q; 31%Q] = [1; 3; 2]%nat /\
  label_y [0%Q; 10%Q; 20%Q; 30%Q] [1; 3; 2]%nat 31 3 = Some 31%Q.
Proof. vm_compute. done. Qed.

(** ** No two labels share a slot *)

Lemma next_free_free fuel : forall taken i,
  (length (List.filter (fun k => i <=? k)%nat taken) < fuel)%nat -> next_free fuel taken i ∉ taken.
Proof.
  induction fuel as [|fuel IH]; intros taken i H; [lia|]. cbn [next_free].
  case_bool_decide as Hi; [|done]. apply IH.
  enough (length (List.filter (fun k => S i <=? k)%nat taken) < length (List.filter (fun k => i <=? k)%nat taken))%nat
    by lia.
  clear -Hi. induction taken as [|k taken IH]; [by apply not_elem_of_nil in Hi|]. cbn [List.filter].
  assert (length (List.filter (fun k => S i <=? k)%nat taken) <= length (List.filter (fun k => i <=? k)%nat taken))%nat
    as Hle.
  { clear. induction taken as [|k taken IH]; cbn [List.filter]; [done|].
    destruct (S i <=? k)%nat eqn:E1, (i <=? k)%nat eqn:E2; cbn [length]; try lia.
    apply Nat.leb_le in E1. apply Nat.leb_gt in E2. lia. }
  apply elem_of_cons in Hi as [->|Hi].
  - rewrite Nat.leb_refl. replace (S k <=? k)%nat with false by (symmetry; apply Nat.leb_gt; lia). cbn [length]. lia.
  - specialize (IH Hi). destruct (S i <=? k)%nat eqn:E1, (i <=? k)%nat eqn:E2; cbn [length]; try lia.
    apply Nat.leb_le in E1. apply Nat.leb_gt in E2. lia.
Qed.

Lemma filter_length {A} (P : A -> bool) l : (length (List.filter P l) <= length l)%nat.
Proof. induction l as [|x l IH]; cbn; [done|]. destruct (P x); cbn; lia. Qed.

Lemma choose_slot_free slots n j taken y before : choose_slot slots n j taken y before ∉ taken.
Proof.
  unfold choose_slot. case_bool_decide as Hj; cbn [andb].
  - rewrite andb_true_r. destruct (_ <? j)%nat; [done|]. apply next_free_free.
    eapply Nat.le_lt_trans; [apply filter_length|lia].
  - rewrite !andb_false_r. apply next_free_free. eapply Nat.le_lt_trans; [apply filter_length|lia].
Qed.

Lemma next_free_le fuel : forall taken i k, k ∉ taken -> (i <= k)%nat -> (next_free fuel taken i <= k)%nat.
Proof.
  induction fuel as [|fuel IH]; intros taken i k Hk Hi; cbn [next_free]; [done|].
  case_bool_decide as E; [|done]. apply IH; [done|].
  assert (i <> k) by (intros ->; done). lia.
Qed.

(** A list too short to hold all the places from [i] on leaves one of them free. *)
Lemma free_place (taken : list nat) i n : (length taken < n)%nat -> exists k, (i <= k < i + n)%nat /\ k ∉ taken.
Proof.
  intros H. destruct (decide (Exists (fun k => k ∉ taken) (seq i n))) as [E|E].
  - apply Exists_exists in E as (k & Hk%elem_of_seq & Hf). by exists k.
  - exfalso. apply not_Exists_Forall in E; [|apply _].
    assert (seq i n ⊆+ taken) as Hs.
    { apply NoDup_submseteq; [apply NoDup_seq|]. intros k Hk. rewrite Forall_forall in E.
      specialize (E k Hk). by apply dec_stable in E. }
    apply submseteq_length in Hs. rewrite length_seq in Hs. lia.
Qed.

(** The height a slot counts as. *)
Definition slot_height (taken : list nat) (i : nat) (s : Q) : Q := if bool_decide (i ∈ taken) then 0%Q else s.

Lemma closest_slot_cases slots taken y : forall i closest found,
  let r := closest_slot i slots taken y closest found in
  (r = found /\ forall k s, slots !! k = Some s -> (closest <= Qabs (slot_height taken (i + k) s - y))%Q) \/
  ((i <= r < i + length slots)%nat /\
   exists s, slots !! (r - i)%nat = Some s /\ (Qabs (slot_height taken r s - y) < closest)%Q /\
     forall k s', slots !! k = Some s' -> (i + k < r)%nat ->
       (Qabs (slot_height taken r s - y) < Qabs (slot_height taken (i + k) s' - y))%Q).
Proof.
  induction slots as [|s slots IH]; intros i closest found; cbn [closest_slot]; [by left|].
  fold (slot_height taken i s). set (d := Qabs (slot_height taken i s - y)). cbn zeta.
  destruct (Qlt_b d closest) eqn:E.
  - apply Qlt_b_spec in E. right. destruct (IH (S i) d i) as [[-> H]|(Hr & s' & Hs & Hd & Hf)].
    + split; [cbn [length]; lia|]. exists s. rewrite Nat.sub_diag. split_and!; [done..|]. intros k ? ? ?. lia.
    + split; [cbn [length]; lia|]. exists s'. set (r := closest_slot _ _ _ _ _ _) in *.
      replace (r - i)%nat with (S (r - S i)) by lia. split_and!; [done|by eapply Qlt_trans|].
      intros [|k] s2 Hk Hlt; cbn in Hk; simplify_eq.
      * rewrite Nat.add_0_r. exact Hd.
      * replace (i + S k)%nat with (S i + k)%nat by lia. apply Hf; [done|lia].
  - assert (closest <= d)%Q as Hge.
    { apply Qnot_lt_le. intros H. apply Qlt_b_spec in H. congruence. }
    destruct (IH (S i) closest found) as [[-> H]|(Hr & s' & Hs & Hd & Hf)].
    + left. split; [done|]. intros [|k] s2 Hk; cbn in Hk; simplify_eq.
      * by rewrite Nat.add_0_r.
      * replace (i + S k)%nat with (S i + k)%nat by lia. by apply H.
    + right. split; [cbn [length]; lia|]. exists s'. set (r := closest_slot _ _ _ _ _ _) in *.
      replace (r - i)%nat with (S (r - S i)) by lia. split_and!; [done..|].
      intros [|k] s2 Hk Hlt; cbn in Hk; simplify_eq.
      * rewrite Nat.add_0_r. exact (Qlt_le_trans _ _ _ Hd Hge).
      * replace (i + S k)%nat with (S i + k)%nat by lia. apply Hf; [done|lia].
Qed.

(** A height the labels can have: within 9999 pixels of the top and of every slot. *)
Definition in_reach (slots : list Q) (y : Q) : Prop :=
  (Qabs (0 - y) < 9999)%Q /\ Forall (fun s => (Qabs (s - y) < 9999)%Q) slots.

(** The nearest slot is one there is; a taken one is the first that is taken. *)
Lemma closest_slot_in slots taken y before : slots <> [] -> in_reach slots y ->
  let i := closest_slot 0 slots taken y (inject_Z 9999) before in
  (i < length slots)%nat /\
  (i ∈ taken -> forall t, t ∈ taken -> (t < length slots)%nat -> (i <= t)%nat).
Proof.
  intros Hne [H0 Hr] i. destruct (closest_slot_cases slots taken y 0 (inject_Z 9999) before) as [[_ H]|(Hi & s & Hs & _ & Hf)].
  - destruct slots as [|s slots]; [done|]. specialize (H O s eq_refl). exfalso. apply Forall_cons in Hr as [Hr _].
    unfold slot_height in H. destruct (bool_decide _); eapply Qlt_irrefl, Qle_lt_trans; [exact H|exact H0|exact H|exact Hr].
  - fold i in Hi, Hs, Hf. split; [lia|]. intros Ht t Htt Hlt.
    destruct (decide (i <= t)%nat) as [|Hgt]; [done|]. destruct (lookup_lt_is_Some_2 slots t Hlt) as [s' Hs'].
    specialize (Hf t s' Hs' ltac:(lia)). unfold slot_height in Hf.
    rewrite !bool_decide_true in Hf by done. by apply Qlt_irrefl in Hf.
Qed.

(** The slots taken before the [j]-th of [n] labels. *)
Definition taken_ok (slots : list Q) (n j : nat) (taken : list nat) : Prop :=
  length taken = j /\ (forall t, t ∈ taken -> (t < length slots)%nat) /\
  (j <> 0 -> exists t, t ∈ taken /\ t <= length slots - n)%nat.

Lemma choose_slot_fits slots n j taken y before : (j < n <= length slots)%nat -> in_reach slots y ->
  taken_ok slots n j taken ->
  (choose_slot slots n j taken y before < length slots)%nat /\
  (j = 0 -> choose_slot slots n j taken y before <= length slots - n)%nat.
Proof.
  intros Hn Hy (Hlen & Hin & Hex). assert (slots <> []) as Hne by (intros ->; cbn in Hn; lia).
  unfold choose_slot. destruct (closest_slot_in slots taken y before Hne Hy) as [Hi Hfirst].
  set (i := closest_slot _ _ _ _ _ _) in *. clearbody i.
  destruct ((i <? j)%nat && bool_decide (j ∉ taken)) eqn:E1; [split; lia|].
  destruct ((length slots <? n - j + i)%nat && bool_decide (j ∉ taken)) eqn:E2.
  - apply andb_true_iff in E2 as [E2%Nat.ltb_lt _].
    set (i' := (length slots - n + j)%nat). set (r := next_free _ taken i').
    assert (r <= i \/ r <= i')%nat as Hr.
    { destruct (decide (i ∈ taken)) as [Ht|Ht]; [|left; apply next_free_le; [done|lia]].
      right. apply next_free_le; [|done]. intros Ht'. specialize (Hfirst Ht i' Ht' ltac:(lia)). lia. }
    split; [lia|]. intros ->. destruct taken; [|cbn in Hlen; lia].
    assert (r <= i')%nat; [|lia]. apply next_free_le; [apply not_elem_of_nil|done].
  - destruct (decide (i ∈ taken)) as [Ht|Ht].
    + destruct (decide (j = 0)%nat) as [->|Hj].
      { destruct taken; [by apply not_elem_of_nil in Ht|cbn in Hlen; lia]. }
      split; [|lia]. destruct (Hex Hj) as (t & Htt & Hle). specialize (Hfirst Ht t Htt (Hin t Htt)).
      destruct (free_place taken i (length slots - i) ltac:(lia)) as (k & Hk & Hf).
      eapply Nat.le_lt_trans; [apply (next_free_le _ _ _ k Hf)|]; lia.
    + set (r := next_free _ taken i). assert (r <= i)%nat by (by apply next_free_le).
      split; [lia|]. intros ->. destruct taken; [|cbn in Hlen; lia].
      rewrite bool_decide_true, andb_true_r in E2 by apply not_elem_of_nil. apply Nat.ltb_ge in E2. lia.
Qed.

(** Whatever heights the labels of a pie would like, no two of them are given the
    same slot, and when there are no more labels than slots each is given one of the
    slots there are: none is sent past the last. *)
Theorem used_slots_fit slots ys :
  NoDup (used_slots slots ys) /\
  ((length ys <= length slots)%nat -> Forall (in_reach slots) ys ->
   Forall (fun i => i < length slots)%nat (used_slots slots ys)).
Proof.
  unfold used_slots. split.
  - assert (forall n j taken before,
      NoDup (choose_slots slots n j taken before ys) /\
      forall i, i ∈ choose_slots slots n j taken before ys -> i ∉ taken) as H; [|apply H].
    induction ys as [|y ys IH]; intros n j taken before; cbn [choose_slots].
    + split; [constructor|]. by intros i ?%not_elem_of_nil.
    + set (k := choose_slot _ _ _ _ _ _). destruct (IH n (S j) (k :: taken) k) as [IH1 IH2]. split.
      * constructor; [|done]. intros Hk. apply (IH2 k Hk). by left.
      * intros i [->|Hi]%elem_of_cons; [apply choose_slot_free|]. intros Ht. apply (IH2 i Hi). by right.
  - intros Hlen Hys. assert (forall n j taken before, (j + length ys = n)%nat -> (n <= length slots)%nat ->
      taken_ok slots n j taken ->
      Forall (fun i => i < length slots)%nat (choose_slots slots n j taken before ys)) as H.
    { clear Hlen. induction Hys as [|y ys Hy Hys IH]; intros n j taken before En Hn Hok; cbn [choose_slots length] in *;
        [constructor|].
      destruct (choose_slot_fits slots n j taken y before ltac:(lia) Hy Hok) as [H1 H2].
      set (k := choose_slot _ _ _ _ _ _) in *. constructor; [done|]. apply IH; [lia|done|].
      destruct Hok as (Hl & Hin & Hex). split_and!.
      - cbn. by rewrite Hl.
      - intros t [->|Ht]%elem_of_cons; [done|by apply Hin].
      - intros _. destruct (decide (j = 0)%nat) as [->|Hj].
        + exists k. split; [by left|by apply H2].
        + destruct (Hex Hj) as (t & Ht & Hle). exists t. split; [by right|done]. }
    apply H; [done..|]. split_and!; [done|by intros t ?%not_elem_of_nil|done].
Qed.

Lemma used_slots_fit_witness :
  Forall (fun i => i < 4)%nat (used_slots [0%Q; 10%Q; 20%Q; 30%Q] [9%Q; 29%Q; 31%Q]).
Proof.
  refine (proj2 (used_slots_fit [0%Q; 10%Q; 20%Q; 30%Q] [9%Q; 29%Q; 31%Q]) _ _); [cbn; lia|].
  repeat constructor.
Defined.

(** ** Stacks *)

Definition sumQ (l : list Q) : Q := fold_right Qplus 0%Q l.

(** The part of a stack a value is: itself, or its per cent of the total. *)
Definition part (percent : bool) (total v : Q) : Q := if percent then percent_of total v else v.

#[export] Instance percent_of_proper : Proper (Qeq ==> Qeq ==> Qeq) percent_of.
Proof.
  intros t t' Ht v v' Hv. unfold percent_of.
  destruct (Qeq_bool t 0) eqn:E, (Qeq_bool t' 0) eqn:E'; [reflexivity| | |].
  - apply Qeq_bool_iff in E. apply Qeq_bool_neq in E'. exfalso. apply E'. by rewrite <-Ht.
  - apply Qeq_bool_iff in E'. apply Qeq_bool_neq in E. exfalso. apply E. by rewrite Ht.
  - by rewrite Ht, Hv.
Qed.

#[export] Instance part_proper percent : Proper (Qeq ==> Qeq ==> Qeq) (part percent).
Proof. intros t t' Ht v v' Hv. unfold part. destruct percent; [by rewrite Ht, Hv|done]. Qed.

(** Points one on top of the other: from a height down to zero. *)
Fixpoint tiles (top : Q) (l : list stack_result) : Prop :=
  match l with
  | [] => (top == 0)%Q
  | r :: rest => (sr_stackY r == top)%Q /\ exists b, sr_yBottom r = Some b /\ tiles b rest
  end.

#[export] Instance tiles_proper : Proper (Qeq ==> eq ==> iff) tiles.
Proof. intros t t' Ht l ? <-. destruct l; cbn; by rewrite Ht. Qed.

Lemma part_zero percent total : (part percent total 0 == 0)%Q.
Proof. unfold part, percent_of. destruct percent; [|reflexivity]. destruct (Qeq_bool total 0) eqn:E; [reflexivity|].
  apply Qeq_bool_neq in E. by field.
Qed.

Lemma stack_points_tile percent total ys : forall cum, (cum == sumQ ys)%Q ->
  tiles (part percent total cum) (stack_points percent total cum ys).
Proof.
  induction ys as [|y ys IH]; intros cum Hc; cbn [stack_points tiles].
  - cbn in Hc. rewrite Hc. apply part_zero.
  - cbn in Hc. assert (cum - y + y == cum)%Q as E by ring.
    assert (cum - y == sumQ ys)%Q as E2 by (rewrite Hc; unfold sumQ; ring).
    unfold stack_point. destruct percent; cbn [sr_stackY sr_yBottom sr_cum default from_option id].
    + split; [unfold part; by rewrite E|]. eexists. split; [reflexivity|]. by apply (IH (cum - y)%Q).
    + split; [exact E|]. eexists. split; [reflexivity|]. by apply (IH (cum - y)%Q).
Qed.

(** The points of a stack stand one on top of the other: when [cum] starts at the
    total of the stack and that is the sum of the values (see
    [HsExtremes.getSeriesExtremes_contain]), the first reaches up to the total, or to
    a hundred per cent of it, each stands on the next, the last on zero, and the per
    cents are a hundred together. *)
Theorem stack_points_cover (percent : bool) total ys : (total == sumQ ys)%Q -> ~ (total == 0)%Q ->
  tiles (if percent then 100 else total)%Q (stack_points percent total total ys) /\
  (sumQ (map sr_percentage (stack_points percent total total ys)) == 100)%Q.
Proof.
  intros Ht Hne. split.
  - pose proof (stack_points_tile percent total ys total Ht) as H. destruct percent; [|exact H].
    assert (part true total total == 100)%Q as E; [|by rewrite E in H].
    unfold part, percent_of. destruct (Qeq_bool total 0) eqn:E; [by apply Qeq_bool_iff in E|]. by field.
  - assert (forall cum, sumQ (map sr_percentage (stack_points percent total cum ys)) * total == 100 * sumQ ys)%Q as H.
    { clear Ht. induction ys as [|y ys IH]; intros cum; [cbn; ring|].
      cbn [stack_points map sumQ fold_right]. change (fold_right Qplus 0%Q) with sumQ.
      assert (sr_percentage (stack_point percent false None total cum y) * total == 100 * y)%Q as E.
      { unfold stack_point. assert (percent_of total y * total == 100 * y)%Q.
        { unfold percent_of. destruct (Qeq_bool total 0) eqn:E; [by apply Qeq_bool_iff in E|]. by field. }
        by destruct percent. }
      rewrite Qmult_plus_distr_l, E, (IH (sr_cum (stack_point percent false None total cum y))). ring. }
    specialize (H total). rewrite <-Ht in H. apply (Qmult_inj_r _ _ total Hne). exact H.
Qed.

Lemma stack_points_cover_witness :
  tiles 100 (stack_points true 6 6 [1%Q; 2%Q; 3%Q]).
Proof. apply (stack_points_cover true 6 [1%Q; 2%Q; 3%Q]); [reflexivity|discriminate]. Defined.

(** ** The nearest point *)

Definition nearest (px : Q) (xs : list Q) (x : Q) : Prop := forall x', In x' xs -> (Qabs (px - x) <= Qabs (px - x'))%Q.

Lemma half_way (x x' : Q) : (0 <= x)%Q -> (x <= x')%Q ->
  let high := Z.max 0 (Qfloor ((x + x') / 2)) in
  (x + x' < 2 * inject_Z (high + 1))%Q /\ (2 * inject_Z high <= x + x')%Q /\
  (forall low, (inject_Z (low - 1) <= x)%Q -> low - 1 <= high).
Proof.
  intros H0 Hx high. assert (0 <= (x + x') / 2)%Q as Hm by (apply Qle_shift_div_l; [reflexivity|]; lra).
  assert (high = Qfloor ((x + x') / 2)) as ->.
  { subst high. apply Z.max_r. rewrite <-(Qfloor_Z 0). by apply Qfloor_resp_le. }
  set (m := ((x + x') / 2)%Q) in *. assert (m * 2 == x + x')%Q as Em by (subst m; field).
  pose proof (Qfloor_le m) as H1. pose proof (Qlt_floor m) as H2. split_and!; [lra|lra|].
  intros low Hl. rewrite <-(Qfloor_Z (low - 1)). apply Qfloor_resp_le. lra.
Qed.

Lemma tooltip_ranges_cons plotSize low x x' xs :
  tooltip_ranges plotSize low (x :: x' :: xs)
  = (low, Z.max 0 (Qfloor ((x + x') / 2)))
      :: tooltip_ranges plotSize (Z.max 0 (Qfloor ((x + x') / 2)) + 1) (x' :: xs).
Proof. reflexivity. Qed.

Lemma tooltip_point_below plotSize px x xs : forall low i, px < low ->
  StronglySorted Qle (x :: xs) -> (0 <= x)%Q -> (inject_Z (low - 1) <= x)%Q ->
  tooltip_point i px (tooltip_ranges plotSize low (x :: xs)) = None.
Proof.
  revert x. induction xs as [|x' xs IH]; intros x low i Hpx Hs H0 Hl.
  - cbn [tooltip_ranges tooltip_point]. assert ((low <=? px) = false) as -> by (apply Z.leb_gt; lia). by rewrite andb_false_r.
  - rewrite tooltip_ranges_cons. cbn [tooltip_point].
    assert ((low <=? px) = false) as -> by (apply Z.leb_gt; lia). rewrite andb_false_r. cbn [andb].
    inversion Hs as [|? ? Hs' Hx]; subst. inversion Hx as [|? ? Hxx _]; subst.
    destruct (half_way x x' H0 Hxx) as (H1 & H2 & H3). set (high := Z.max 0 _) in *.
    specialize (H3 low Hl). rewrite IH; [done|lia|done|lra|].
    replace (high + 1 - 1) with high by lia. lra.
Qed.

Lemma tooltip_point_nearest plotSize px x xs : forall low i, low <= px <= plotSize -> 0 <= low ->
  StronglySorted Qle (x :: xs) -> (0 <= x)%Q ->
  exists j y, tooltip_point i px (tooltip_ranges plotSize low (x :: xs)) = Some (i + j)%nat /\
    (x :: xs) !! j = Some y /\ nearest (inject_Z px) (x :: xs) y.
Proof.
  revert x. induction xs as [|x' xs IH]; intros x low i [Hl Hp] Hlow Hs H0.
  - cbn [tooltip_ranges tooltip_point]. exists O, x. assert ((0 <=? low) && (low <=? px) && (px <=? plotSize) = true) as ->.
    { rewrite !andb_true_iff, !Z.leb_le. lia. }
    rewrite Nat.add_0_r. split_and!; [done..|]. intros z [<-|[]]. apply Qle_refl.
  - rewrite tooltip_ranges_cons. cbn [tooltip_point].
    inversion Hs as [|? ? Hs' Hx]; subst. inversion Hx as [|? ? Hxx Hx']; subst.
    destruct (half_way x x' H0 Hxx) as (H1 & H2 & _). set (high := Z.max 0 _) in *.
    destruct (decide (px <= high)) as [Hh|Hh].
    + exists O, x. rewrite tooltip_point_below; [|lia|done|lra|replace (high + 1 - 1) with high by lia; lra].
      assert ((0 <=? low) && (low <=? px) && (px <=? high) = true) as ->.
      { rewrite !andb_true_iff, !Z.leb_le. lia. }
      rewrite Nat.add_0_r. split_and!; [done..|]. intros z Hz.
      assert (inject_Z px <= inject_Z high)%Q by (unfold Qle; cbn; lia).
      assert (z = x \/ (x' <= z)%Q) as [->|Hz'].
      { destruct Hz as [<-|[<-|Hz]]; [by left|right; apply Qle_refl|right].
        inversion Hs' as [|? ? _ Hall]; subst. rewrite List.Forall_forall in Hall. by apply Hall. }
      { apply Qle_refl. }
      apply Qabs_case; intros ?; apply Qabs_case; intros ?; lra.
    + destruct (IH x' (high + 1) (S i)) as (j & y & E & Ey & Hn); [lia|lia|done|lra|].
      exists (S j), y. rewrite E. split_and!; [f_equal; lia|done|].
      intros z [<-|Hz]; [|by apply Hn].
      apply Qle_trans with (Qabs (inject_Z px - x')); [apply Hn; by left|].
      assert (inject_Z (high + 1) <= inject_Z px)%Q by (unfold Qle; cbn; lia).
      apply Qabs_case; intros ?; apply Qabs_case; intros ?; lra.
Qed.

(** Every pixel of the plot shows the tooltip of a point, and of one nearest to
    it, when the points are in order from the left. *)
Theorem setTooltipPoints_nearest plotSize xs px :
  StronglySorted Qle xs -> Forall (fun x => (0 <= x)%Q) xs -> xs <> [] -> 0 <= px <= plotSize ->
  exists j x, tooltip_point 0 px (setTooltipPoints plotSize false xs) = Some j /\
    xs !! j = Some x /\ nearest (inject_Z px) xs x.
Proof.
  intros Hs H0 Hne Hp. destruct xs as [|x xs]; [done|]. inversion H0; subst.
  destruct (tooltip_point_nearest plotSize px x xs 0 0) as (j & y & E & Ey & Hn); try done.
  by exists j, y.
Qed.

Lemma setTooltipPoints_nearest_witness :
  exists j x, tooltip_point 0 14 (setTooltipPoints 100 false [3%Q; 10%Q; 20%Q]) = Some j /\
    [3%Q; 10%Q; 20%Q] !! j = Some x /\ nearest (inject_Z 14) [3%Q; 10%Q; 20%Q] x.
Proof.
  apply (setTooltipPoints_nearest 100 [3%Q; 10%Q; 20%Q] 14).
  - repeat constructor; unfold Qle; cbn; lia.
  - repeat constructor; unfold Qle; cbn; lia.
  - discriminate.
  - lia.
Defined.

(** ** Columns of a group *)

(** The columns of a category lie side by side within their group, each in its own
    slot, whether the axis is reversed or not; the room for the group is the
    category's less the padding on both sides. *)
Theorem columns_side_by_side o reversed w n i :
  (0 < w)%Q -> (0 <= co_groupPadding o)%Q -> (co_groupPadding o <= 1 # 2)%Q -> (i < n)%nat ->
  let group := (w * (1 - 2 * co_groupPadding o))%Q in
  let slot := (group / inject_Z (Z.of_nat n))%Q in
  match co_pointWidth o with
  | Some pw => (0 <= pw <= slot)%Q
  | None => (0 <= co_pointPadding o)%Q
  end ->
  let p := place_columns o reversed w n i in
  let start := (- (group / 2) + inject_Z (Z.of_nat i) * slot)%Q in
  (start <= cp_pointXOffset p)%Q /\
  (cp_pointXOffset p + cp_pointWidth p <= start + slot)%Q /\
  (- (w / 2) <= start)%Q /\ (start + slot <= w / 2)%Q.
Proof.
  intros Hw Hg1 Hg2 Hi group slot Hp p start.
  set (N := inject_Z (Z.of_nat n)) in *. set (I := inject_Z (Z.of_nat i)) in *.
  assert (0 < N)%Q as HN by (subst N; unfold Qlt; cbn; lia).
  assert (0 <= I)%Q as HI by (subst I; unfold Qle; cbn; lia).
  assert (I + 1 <= N)%Q as HIN by (subst I N; unfold Qle; cbn; lia).
  assert (N * slot == group)%Q as Es.
  { subst slot. field. intros E. rewrite E in HN. by apply Qlt_irrefl in HN. }
  assert (0 <= group)%Q as Hgr by (subst group; apply Qmult_le_0_compat; lra).
  assert (0 <= slot)%Q as Hs.
  { subst slot. unfold Qdiv. apply Qmult_le_0_compat; [done|]. by apply Qinv_le_0_compat, Qlt_le_weak. }
  assert (w * co_groupPadding o == (w - group) / 2)%Q as Ep by (subst group; field).
  assert ((w - 2 * (w * co_groupPadding o)) / N == slot)%Q as Eslot.
  { subst slot group. field. intros E. rewrite E in HN. by apply Qlt_irrefl in HN. }
  set (pad := match co_pointWidth o with
              | Some pw => ((slot - pw) / 2)%Q | None => (slot * co_pointPadding o)%Q end).
  assert (cp_pointXOffset p == start + pad)%Q as E1.
  { subst p start pad. unfold place_columns. cbn [cp_pointXOffset]. fold N I.
    assert (w / 2 == w * co_groupPadding o + group / 2)%Q as Ew by (rewrite Ep; field).
    destruct (co_pointWidth o), reversed; rewrite Eslot, Ew, <-Es; field. }
  assert (cp_pointWidth p == slot - 2 * pad)%Q as E2.
  { subst p pad. unfold place_columns. cbn [cp_pointWidth]. fold N.
    destruct (co_pointWidth o); cbn [default from_option id]; [field|by rewrite Eslot]. }
  assert (0 <= pad)%Q as Hpad.
  { subst pad. destruct (co_pointWidth o); [|by apply Qmult_le_0_compat].
    apply Qle_shift_div_l; [reflexivity|]. lra. }
  rewrite E1, E2. assert (0 <= I * slot)%Q by (by apply Qmult_le_0_compat).
  assert (0 <= (N - I - 1) * slot)%Q by (apply Qmult_le_0_compat; [lra|done]).
  assert (w / 2 == w * co_groupPadding o + group / 2)%Q as Ew by (rewrite Ep; field).
  assert (0 <= w * co_groupPadding o)%Q by (apply Qmult_le_0_compat; lra).
  assert (group / 2 + group / 2 == group)%Q as Eh by field.
  subst start. rewrite Ew. set (h := (group / 2)%Q) in *. clearbody h.
  split_and!; try lra; nra.
Qed.

Lemma columns_side_by_side_witness :
  let o := ColumnOptions (1 # 5) (1 # 10) None 1 0 in
  let p := place_columns o true 50 3 1 in
  (- (50 / 2) <= cp_pointXOffset p)%Q /\ (cp_pointXOffset p + cp_pointWidth p <= 50 / 2)%Q.
Proof.
  intros o p. destruct (columns_side_by_side o true 50 3 1 ltac:(reflexivity) ltac:(discriminate)
    ltac:(discriminate) ltac:(lia) ltac:(discriminate)) as (H1 & H2 & H3 & H4).
  split; [exact (Qle_trans _ _ _ H3 H1)|exact (Qle_trans _ _ _ H2 H4)].
Defined.

(** ** Slices *)

Fixpoint connected (circ : Q) (l : list slice) (at_end : Q) : Prop :=
  match l with
  | [] => True
  | [s] => sl_end s = at_end \/ (sl_end s == at_end)%Q
  | s :: ((s' :: _) as rest) => sl_end s = sl_start s' /\ connected circ rest at_end
  end.

#[export] Instance angle_at_proper circ : Proper (Qeq ==> Qeq) (angle_at circ).
Proof.
  intros x y H. unfold angle_at, mathRound.
  assert (Qfloor (x * circ * 1000 + (1 # 2)) = Qfloor (y * circ * 1000 + (1 # 2))) as ->; [|done].
  apply Qfloor_comp. by rewrite H.
Qed.

Lemma angle_at_mono circ x y : (0 <= circ)%Q -> (x <= y)%Q -> (angle_at circ x <= angle_at circ y)%Q.
Proof.
  intros Hc H. unfold angle_at, mathRound. unfold Qdiv. apply Qmult_le_compat_r; [|unfold Qle; cbn; lia].
  rewrite <-Zle_Qle. apply Qfloor_resp_le. apply Qplus_le_compat; [|apply Qle_refl].
  apply Qmult_le_compat_r; [|unfold Qle; cbn; lia]. by apply Qmult_le_compat_r.
Qed.

Lemma fold_total ys : forall t, (fold_left (fun t y => t + default 0 y) ys t == t + sumQ (default 0%Q <$> ys))%Q.
Proof.
  induction ys as [|y ys IH]; intros t; cbn; [ring|]. rewrite IH. unfold sumQ. ring.
Qed.

Definition fraction_of (total y : Q) : Q := if Qeq_bool total 0 then 0%Q else (y / total)%Q.

Lemma connected_end circ l e e' : (e == e')%Q -> connected circ l e -> connected circ l e'.
Proof.
  intros E. induction l as [|s l IH]; [done|]. destruct l as [|s2 l].
  - cbn. intros [->|H]; right; [done|]. by rewrite H.
  - intros [? H]. split; [done|]. by apply IH.
Qed.

Lemma pie_loop_connected circ total ys : forall c,
  let l := pie_loop circ total c ys in
  length l = length ys /\
  (forall s, head l = Some s -> sl_start s = angle_at circ c) /\
  connected circ l (angle_at circ (c + sumQ (map (fraction_of total) ys))).
Proof.
  induction ys as [|y ys IH]; intros c; [by split_and!|].
  cbn [pie_loop map]. fold (fraction_of total y). generalize (fraction_of total y). intros f.
  destruct (IH (c + f)%Q) as (H1 & H2 & H3). cbn zeta. split_and!.
  - cbn. by rewrite H1.
  - by intros s [= <-].
  - assert (angle_at circ (c + f + sumQ (map (fraction_of total) ys))
            == angle_at circ (c + sumQ (f :: map (fraction_of total) ys)))%Q as E.
    { apply angle_at_proper. rewrite <-Qplus_assoc. reflexivity. }
    destruct (pie_loop circ total (c + f) ys) as [|s' rest].
    + destruct ys; [|done]. right. cbn [sl_end]. rewrite <-E. apply angle_at_proper.
      cbn. ring.
    + split; [cbn; by rewrite (H2 s' eq_refl)|]. exact (connected_end _ _ _ _ E H3).
Qed.

Lemma pie_loop_ordered circ total ys : forall c, (0 <= circ)%Q -> (0 <= total)%Q ->
  Forall (fun y => (0 <= y)%Q) ys ->
  Forall (fun s => (sl_start s <= sl_end s)%Q) (pie_loop circ total c ys).
Proof.
  induction ys as [|y ys IH]; intros c Hc Ht H; cbn [pie_loop]; [constructor|].
  inversion H as [|? ? Hy Hys]; subst. constructor; [|by apply IH].
  cbn. apply angle_at_mono; [done|]. destruct (Qeq_bool total 0); [lra|].
  assert (0 <= y / total)%Q by (unfold Qdiv; apply Qmult_le_0_compat; [done|by apply Qinv_le_0_compat]). lra.
Qed.

Lemma sum_fractions total ys : ~ (total == 0)%Q -> (sumQ (map (fraction_of total) ys) == sumQ ys / total)%Q.
Proof.
  intros Hne. assert (Qeq_bool total 0 = false) as E by (apply not_true_iff_false; by rewrite Qeq_bool_iff).
  induction ys as [|y ys IH]; cbn [map sumQ fold_right]; [by field|].
  change (fold_right Qplus 0%Q) with sumQ. rewrite IH. unfold fraction_of. rewrite E. by field.
Qed.

(** The slices of a pie go once round the circle: the first starts at the top,
    each starts where the one before it ends, the last ends a whole turn later, and
    none goes backwards when no value is negative. *)
Theorem pie_slices_go_round circ ys : (0 < circ)%Q -> ~ (pie_total ys == 0)%Q ->
  let l := pie_slices circ ys in
  length l = length ys /\
  (forall s, head l = Some s -> sl_start s = angle_at circ (- (1 # 4))) /\
  connected circ l (angle_at circ (3 # 4)) /\
  (Forall (fun y => (0 <= default 0 y)%Q) ys -> Forall (fun s => (sl_start s <= sl_end s)%Q) l).
Proof.
  intros Hc Hne l. destruct (pie_loop_connected circ (pie_total ys) (default 0%Q <$> ys) (- (1 # 4))) as (H1 & H2 & H3).
  assert (pie_total ys == sumQ (default 0%Q <$> ys))%Q as Ht.
  { unfold pie_total. rewrite fold_total. ring. }
  split_and!.
  - unfold l, pie_slices. by rewrite H1, length_fmap.
  - exact H2.
  - revert H3. fold (pie_slices circ ys). fold l.
    assert (angle_at circ (- (1 # 4) + sumQ (map (fraction_of (pie_total ys)) (default 0%Q <$> ys)))
            == angle_at circ (3 # 4))%Q as E.
    { apply angle_at_proper. rewrite sum_fractions by done. rewrite <-Ht. by field. }
    intros H3. exact (connected_end _ _ _ _ E H3).
  - intros Hy. apply pie_loop_ordered; [by apply Qlt_le_weak| |].
    + rewrite Ht. clear -Hy. induction Hy as [|y ys Hy Hys IH]; cbn; [apply Qle_refl|].
      change (fold_right Qplus 0%Q) with sumQ. fold (fmap (M := list) (default 0%Q) ys).
      apply (Qle_trans _ (0 + 0)); [discriminate|by apply Qplus_le_compat].
    + apply Forall_fmap. exact Hy.
Qed.

Lemma pie_slices_go_round_witness :
  connected (6283 # 1000) (pie_slices (6283 # 1000) [Some 1%Q; None; Some 3%Q]) (angle_at (6283 # 1000) (3 # 4)).
Proof.
  destruct (pie_slices_go_round (6283 # 1000) [Some 1%Q; None; Some 3%Q]) as (_ & _ & H & _).
  - reflexivity.
  - discriminate.
  - exact H.
Defined.
