(* ===== verification/HsPath.v ===== *)
(** * Charts: paths

    [highstock.src.js]: the path of a line, a step line and a spline
    ([Series.getSegmentPath], [getPointSpline]), that of an area
    ([AreaSeries.getSegmentPath]), the parts [drawGraph] draws, the path that feels the
    mouse ([drawTracker]), and the animation from one path to the next ([pathAnim]). Coordinates are rational, without rounding. *)

From stdpp Require Import list.
From Stdlib Require Import QArith Qminmax Qabs Lqa.
From S2P Require Import Prelude HsAxis.
Local Open Scope list_scope.
Local Open Scope Z_scope.

(** What a path's array holds. [Undefined] is what an index past the end reads. *)
Inductive token := Letter (s : string) | Number (x : Q) | Undefined.

Record pt := Pt { plotX : Q; plotY : Q }.

(** ** Splines *)

Definition between (a b y : Q) : Prop := (Qmin a b <= y /\ y <= Qmax a b)%Q.

(** [x || d], where [x] may be null. *)
Definition or_else (x : option Q) (d : Q) : Q :=
  match x with Some v => if Qeq_bool v 0 then d else v | None => d end.

(** The control points at the left and the right of [p], between two others. *)
Definition smoothing : Q := 3 # 2.
Definition on_the_way (p q : Q) : Q := ((smoothing * p + q) / (smoothing + 1))%Q.

(** The left control is put between the neighbour and the point, the other mirrored. *)
Definition clamp_control (a other neighbour y : Q) : Q * Q :=
  if Qlt_b neighbour a && Qlt_b y a then (Qmax neighbour y, (2 * y - Qmax neighbour y)%Q)
  else if Qlt_b a neighbour && Qlt_b a y then (Qmin neighbour y, (2 * y - Qmin neighbour y)%Q)
  else (a, other).

Definition controls (last p next : pt) : pt * pt :=
  let leftContX := on_the_way (plotX p) (plotX last) in
  let leftContY := on_the_way (plotY p) (plotY last) in
  let rightContX := on_the_way (plotX p) (plotX next) in
  let rightContY := on_the_way (plotY p) (plotY next) in
  let correction := ((rightContY - leftContY) * (rightContX - plotX p) / (rightContX - leftContX)
                     + plotY p - rightContY)%Q in
  let l0 := (leftContY + correction)%Q in
  let r0 := (rightContY + correction)%Q in
  let '(l1, r1) := clamp_control l0 r0 (plotY last) (plotY p) in
  let '(r2, l2) := clamp_control r1 l1 (plotY next) (plotY p) in
  (Pt leftContX l2, Pt rightContX r2).

(** The path of the [i]-th point; [right_] is what the point before it has recorded,
    the result has what this one does. *)
Definition getPointSpline (segment : list pt) (p : pt) (i : nat) (right_ : option pt) : list token * option pt :=
  let cs := match i with
            | O => None
            | S k => match segment !! k, segment !! S i with
                     | Some last, Some next => Some (controls last p next)
                     | _, _ => None
                     end
            end in
  let ret := match i with
             | O => [Letter "M"; Number (plotX p); Number (plotY p)]
             | S k =>
                 let last := default p (segment !! k) in
                 [Letter "C"; Number (or_else (plotX <$> right_) (plotX last));
                  Number (or_else (plotY <$> right_) (plotY last));
                  Number (or_else (plotX <$> (fst <$> cs)) (plotX p));
                  Number (or_else (plotY <$> (fst <$> cs)) (plotY p));
                  Number (plotX p); Number (plotY p)]
             end%string in
  (ret, snd <$> cs).

(** ** The path of a segment *)

Fixpoint spline_path (segment : list pt) (i : nat) (right_ : option pt) (l : list pt) : list token :=
  match l with
  | [] => []
  | p :: rest =>
      let '(ret, r) := getPointSpline segment p i right_ in
      ret ++ spline_path segment (S i) r rest
  end.

Definition line_piece (step : bool) (last : option pt) (p : pt) : list token :=
  Letter (match last with Some _ => "L" | None => "M" end)%string
    :: match last with
       | Some q => if step then [Number (plotX p); Number (plotY q)] else []
       | None => []
       end ++ [Number (plotX p); Number (plotY p)].
Fixpoint line_path (step : bool) (last : option pt) (l : list pt) : list token :=
  match l with
  | [] => []
  | p :: rest => line_piece step last p ++ line_path step (Some p) rest
  end.

Inductive line_kind := Line (step : bool) | Spline.
Definition getSegmentPath (k : line_kind) (segment : list pt) : list token :=
  match k with
  | Spline => spline_path segment 0 None segment
  | Line step => line_path step None segment
  end.

(** [drawGraph]: the path of all the segments, and the points that stand alone. *)
Fixpoint graph_path (k : line_kind) (segments : list (list pt)) : list token * list pt :=
  match segments with
  | [] => ([], [])
  | s :: rest =>
      let '(path, single) := graph_path k rest in
      if (1 <? length s)%nat then (getSegmentPath k s ++ path, single)
      else (path, option_list (head s) ++ single)
  end.

(** *** Areas *)

(** The way back along the bottoms, from the last point. *)
Fixpoint bottoms (step : bool) (l : list (pt * Q)) : list token :=
  match l with
  | [] => []
  | (p, b) :: rest =>
      bottoms step rest ++
      match rest with
      | (q, _) :: _ => if step then [Number (plotX q); Number b] else []
      | [] => []
      end ++ [Number (plotX p); Number b]
  end.

(** [tokens !! i], where an index past the end reads [Undefined]. *)
Definition at_ (l : list token) (i : nat) : token := default Undefined (l !! i).

(** The path of an area; [stacked] is [options.stacking && type !== 'areaspline'], the
    segment comes with the bottoms of its points. *)
Definition getAreaPath (k : line_kind) (stacked step : bool) (translatedThreshold : Q) (segment : list (pt * Q))
    : list token :=
  let segmentPath := getSegmentPath k (map fst segment) in
  segmentPath ++
  (if (length segmentPath =? 3)%nat then [Letter "L"; at_ segmentPath 1; at_ segmentPath 2] else [])%string ++
  (if stacked then bottoms step segment
   else [Letter "L"; default Undefined (Number <$> (plotX <$> (fst <$> last segment))); Number translatedThreshold;
         Letter "L"; default Undefined (Number <$> (plotX <$> (fst <$> head segment))); Number translatedThreshold]%string).

Definition is_letter (c : string) (t : token) : bool :=
  match t with Letter c' => bool_decide (c = c') | _ => false end.

(** ** The path that feels the mouse

    [drawTracker]: every part of the path is longer by [snap] on both sides; points that
    stand alone get a line of their own. The loop goes from the end, so that what it puts
    in does not change what it reads. *)

Definition shifted (t : token) (d : Q) : token := match t with Number x => Number (x + d) | _ => Undefined end.
Fixpoint extend_path (snap : Q) (first : bool) (prev2 prev1 : token) (l : list token) : list token :=
  let right_side := [Letter "L"; shifted prev2 snap; prev1]%string in
  match l with
  | [] => right_side
  | t :: rest =>
      (if is_letter "M" t then
         (if first then [] else right_side) ++
         [t; shifted (at_ rest 0) (- snap); at_ rest 1; Letter "L"]%string
       else [t]) ++ extend_path snap false prev1 t rest
  end.
Definition tracker_path (snap : Q) (trackByArea : bool) (path : list token) (singlePoints : list pt) : list token :=
  (if match path with [] => true | _ => trackByArea end then path else extend_path snap true Undefined Undefined path) ++
  concat (map (fun p => [Letter "M"; Number (plotX p - snap); Number (plotY p);
                         Letter "L"; Number (plotX p + snap); Number (plotY p)]%string) singlePoints).

Example tracker_path_ex :
  let l := line_path false None [Pt 1 2; Pt 3 4] ++ line_path false None [Pt 5 6; Pt 7 8] in
  map (fun t => match t with Number x => Number (Qred x) | _ => t end) (tracker_path 1 false l [])
  = line_path false None [Pt 0 2; Pt 1 2; Pt 3 4; Pt 4 4] ++ line_path false None [Pt 4 6; Pt 5 6; Pt 7 8; Pt 8 8].
Proof. vm_compute. done. Qed.

(** ** [pathAnim] *)

(** [sixify]: the point after an [M] is written three times. *)
Fixpoint sixify (l : list token) : list token :=
  match l with
  | [] => []
  | t :: rest =>
      if is_letter "M" t then
        t :: at_ rest 0 :: at_ rest 1 :: at_ rest 0 :: at_ rest 1 :: sixify rest
      else t :: sixify rest
  end.

(** [splice(start, n)]: a negative start counts from the end. *)
Definition splice_start (len : nat) (start : Z) : nat :=
  Z.to_nat (if start <? 0 then Z.max 0 (Z.of_nat len + start) else Z.min start (Z.of_nat len)).
Definition splice {A} (l : list A) (start : Z) (n : nat) : list A * list A :=
  let i := splice_start (length l) start in
  (take n (drop i l), take i l ++ drop n (drop i l)).

(** [arr[i] = v], which makes an array longer. *)
Definition set_at (l : list token) (i : nat) (v : token) : list token :=
  if (i <? length l)%nat then <[i := v]> l else l ++ replicate (i - length l) Undefined ++ [v].

(** The points put before the end path when points move on. *)
Fixpoint shift_end (numParams : nat) (shift : nat) (end_ : list token) : list token :=
  match shift with
  | O => end_
  | S k => shift_end numParams k (take numParams end_ ++ end_)
  end.

(** The last point again, its first control point left out. *)
Definition last_point (bezier : bool) (numParams : nat) (start : list token) : list token :=
  let slice := fst (splice start (Z.of_nat (length start) - Z.of_nat numParams) numParams) in
  if bezier then
    let slice := set_at slice (numParams - 6) (at_ slice (numParams - 2)) in
    set_at slice (numParams - 5) (at_ slice (numParams - 1))
  else slice.
Fixpoint pad_start (fuel : nat) (bezier : bool) (numParams endLength : nat) (start : list token) : list token :=
  match fuel with
  | O => start
  | S fuel' =>
      if (length start <? endLength)%nat
      then pad_start fuel' bezier numParams endLength (start ++ last_point bezier numParams start)
      else start
  end.

(** [pathAnim.init]; the first path is split at its blanks already, so that the empty
    one is [[Letter ""]]. *)
Definition init (shift : option nat) (isArea : bool) (fromD toD : list token) : list token * list token :=
  let bezier := existsb (is_letter "C") fromD in
  let numParams := if bezier then 7%nat else 3%nat in
  let start := if bezier then sixify fromD else fromD in
  let end_ := if bezier then sixify toD else toD in
  let '(startBase, start) := if isArea then splice start (Z.of_nat (length start) - 6) 6 else ([], start) in
  let '(endBase, end_) := if isArea then splice end_ (Z.of_nat (length end_) - 6) 6 else ([], end_) in
  let end_ := match shift with
              | Some n => if (n * numParams <=? length end_)%nat then shift_end numParams n end_ else end_
              | None => end_
              end in
  let start := match start with
               | [] => []
               | _ => pad_start (length end_) bezier numParams (length end_) start
               end in
  (start ++ startBase, end_ ++ endBase).

(** [pathAnim.step]; a number that meets something else is [Undefined], as [NaN] is. *)
Definition step_token (pos : Q) (s e : token) : token :=
  match s with
  | Number a => match e with Number b => Number (pos * (b - a) + a)%Q | _ => Undefined end
  | _ => s
  end.
Definition step (start end_ : list token) (pos : Q) (complete : list token) : list token :=
  if Qeq_bool pos 1 then complete
  else if (length start =? length end_)%nat && Qlt_b pos 1 then zip_with (step_token pos) start end_
  else end_.

(** ** A spline stays between its points *)

Ltac split_Qlt :=
  repeat match goal with
  | |- context [Qlt_b ?x ?y] =>
      let E := fresh "E" in
      destruct (Qlt_b x y) eqn:E; [apply Qlt_b_spec in E|apply Qlt_b_false in E]; cbn [andb]; try lra
  end.
Ltac split_minmax :=
  repeat match goal with
  | |- context [Qmin ?x ?y] => destruct (Q.min_spec x y) as [[? ->]|[? ->]]; try lra
  | |- context [Qmax ?x ?y] => destruct (Q.max_spec x y) as [[? ->]|[? ->]]; try lra
  end.

#[export] Instance between_proper : Proper (Qeq ==> Qeq ==> Qeq ==> iff) between.
Proof. intros a a' Ha b b' Hb c c' Hc. unfold between. by rewrite Ha, Hb, Hc. Qed.

Lemma between_intro a b y : (a <= y /\ y <= b \/ b <= y /\ y <= a)%Q -> between a b y.
Proof. unfold between. intros H. split; split_minmax; lra. Qed.

Lemma between_elim a b y : between a b y -> (a <= y /\ y <= b \/ b <= y /\ y <= a)%Q.
Proof. unfold between. destruct (Q.min_spec a b) as [[? ->]|[? ->]], (Q.max_spec a b) as [[? ->]|[? ->]]; lra. Qed.

(** What [clamp_control] gives, by cases. *)
Lemma clamp_control_spec a other n y :
  let '(a', other') := clamp_control a other n y in
  between n y a' /\
  (a' = a /\ other' = other \/
   ((a' == n \/ a' == y) /\ (y <= a' /\ a' < a \/ a < a' /\ a' <= y) /\ other' == 2 * y - a')%Q).
Proof.
  unfold clamp_control.
  destruct (Qlt_b n a && Qlt_b y a) eqn:E1; [|destruct (Qlt_b a n && Qlt_b a y) eqn:E2].
  - apply andb_true_iff in E1 as [?%Qlt_b_spec ?%Qlt_b_spec]. split.
    + apply between_intro. split_minmax.
    + right. split_minmax; repeat split; lra.
  - apply andb_true_iff in E2 as [?%Qlt_b_spec ?%Qlt_b_spec]. split.
    + apply between_intro. split_minmax.
    + right. split_minmax; repeat split; lra.
  - split; [|by left]. apply between_intro.
    apply andb_false_iff in E1 as [?%Qlt_b_false|?%Qlt_b_false], E2 as [?%Qlt_b_false|?%Qlt_b_false]; lra.
Qed.

(** Both controls, when the slope is that of the line between the neighbours' controls. *)
Lemma clamp_twice y y1 y2 e ew l0 r0 : (e == (2 # 5) * (y2 - y1))%Q ->
  (0 <= ew /\ ew <= e \/ e <= ew /\ ew <= 0)%Q -> (l0 == y - e + ew)%Q -> (r0 == y + ew)%Q ->
  let '(l1, r1) := clamp_control l0 r0 y1 y in
  let '(r2, l2) := clamp_control r1 l1 y2 y in
  between y1 y l2 /\ between y y2 r2.
Proof.
  intros He Hew Hl Hr. pose proof (clamp_control_spec l0 r0 y1 y) as H1.
  destruct (clamp_control l0 r0 y1 y) as [l1 r1]. destruct H1 as [B1 H1].
  pose proof (clamp_control_spec r1 l1 y2 y) as H2.
  destruct (clamp_control r1 l1 y2 y) as [r2 l2]. destruct H2 as [B2 H2].
  apply between_elim in B1, B2. split; [|apply between_intro; lra].
  apply between_intro. destruct H1 as [[-> ->]|(H1 & H1' & E1)], H2 as [[-> ->]|(H2 & H2' & E2)]; lra.
Qed.

(** The control points of a point whose neighbours are [-u] and [v] away. *)
Lemma controls_between last p next : (plotX last < plotX p)%Q -> (plotX p < plotX next)%Q ->
  let '(l, r) := controls last p next in
  between (plotY last) (plotY p) (plotY l) /\ between (plotY p) (plotY next) (plotY r) /\
  between (plotX last) (plotX p) (plotX l) /\ between (plotX p) (plotX next) (plotX r).
Proof.
  intros Hu Hv. unfold controls, on_the_way, smoothing. destruct last as [x1 y1], p as [x y], next as [x2 y2]; cbn in *.
  set (e := ((2 # 5) * ((y2 - y) - (y1 - y)))%Q). set (w := ((x2 - x) / (x2 - x1))%Q).
  assert (0 < w /\ w < 1)%Q as [Hw0 Hw1].
  { subst w. split; [apply Qlt_shift_div_l|apply Qlt_shift_div_r]; lra. }
  set (l0 := (_ + (_ + y - _))%Q). set (r0 := (_ + (_ + y - _))%Q).
  assert (l0 == y - e + e * w)%Q as El.
  { subst l0 e w. field. lra. }
  assert (r0 == y + e * w)%Q as Er.
  { subst r0 e w. field. lra. }
  assert (e == (2 # 5) * (y2 - y1))%Q as Ee by (subst e; ring).
  assert (0 <= e * w /\ e * w <= e \/ e <= e * w /\ e * w <= 0)%Q as Hew.
  { clearbody e w. destruct (Qlt_le_dec e 0); [right|left]; nra. }
  pose proof (clamp_twice y y1 y2 e (e * w) l0 r0 Ee Hew El Er) as H.
  destruct (clamp_control l0 r0 y1 y) as [l1 r1]. destruct (clamp_control r1 l1 y2 y) as [r2 l2]. cbn.
  destruct H as [H1 H2]. split_and!; [done..| |]; apply between_intro.
  - left. split; [apply Qle_shift_div_l|apply Qle_shift_div_r]; try lra; reflexivity.
  - left. split; [apply Qle_shift_div_l|apply Qle_shift_div_r]; try lra; reflexivity.
Qed.

Definition bezier (a b c d t : Q) : Q :=
  ((1 - t) * (1 - t) * (1 - t) * a + 3 * (1 - t) * (1 - t) * t * b + 3 * (1 - t) * t * t * c + t * t * t * d)%Q.

Lemma bezier_between a b c d t : (0 <= t <= 1)%Q -> between a d b -> between a d c -> between a d (bezier a b c d t).
Proof.
  intros [H0 H1] Hb Hc. assert (between a d a) as Ha by (apply between_intro; lra).
  assert (between a d d) as Hd by (apply between_intro; lra). unfold between in *.
  set (m := Qmin a d) in *. set (M := Qmax a d) in *. clearbody m M.
  set (w0 := ((1 - t) * (1 - t) * (1 - t))%Q). set (w1 := (3 * (1 - t) * (1 - t) * t)%Q).
  set (w2 := (3 * (1 - t) * t * t)%Q). set (w3 := (t * t * t)%Q).
  assert (w0 + w1 + w2 + w3 == 1)%Q as Hw by (subst w0 w1 w2 w3; ring).
  assert (0 <= w0 /\ 0 <= w1 /\ 0 <= w2 /\ 0 <= w3)%Q as (W0 & W1 & W2 & W3).
  { subst w0 w1 w2 w3. repeat split; repeat apply Qmult_le_0_compat; lra. }
  change (bezier a b c d t) with (w0 * a + w1 * b + w2 * c + w3 * d)%Q. clearbody w0 w1 w2 w3.
  assert (forall w z, 0 <= w -> m <= z /\ z <= M -> w * m <= w * z /\ w * z <= w * M)%Q as Hm.
  { intros w z Hw' [Hz Hz']. split; rewrite !(Qmult_comm w); by apply Qmult_le_compat_r. }
  destruct (Hm w0 a W0 Ha), (Hm w1 b W1 Hb), (Hm w2 c W2 Hc), (Hm w3 d W3 Hd).
  assert (m == w0 * m + w1 * m + w2 * m + w3 * m)%Q as Em.
  { transitivity ((w0 + w1 + w2 + w3) * m)%Q; [rewrite Hw; ring|ring]. }
  assert (M == w0 * M + w1 * M + w2 * M + w3 * M)%Q as EM.
  { transitivity ((w0 + w1 + w2 + w3) * M)%Q; [rewrite Hw; ring|ring]. }
  split; lra.
Qed.

(** The rest of a path from the point [cur]: curves only, each of which stays between
    the heights of its two ends. *)
Fixpoint tame (cur : pt) (l : list token) : Prop :=
  match l with
  | [] => True
  | t :: Number x1 :: Number y1 :: Number x2 :: Number y2 :: Number x :: Number y :: rest =>
      t = Letter "C"%string /\
      (forall s, (0 <= s <= 1)%Q -> between (plotY cur) y (bezier (plotY cur) y1 y2 y s)) /\
      tame (Pt x y) rest
  | _ => False
  end.

Definition increasing (segment : list pt) : Prop :=
  forall i p q, segment !! i = Some p -> segment !! S i = Some q -> (plotX p < plotX q)%Q.

Lemma or_else_between a b x d : (forall v, x = Some v -> between a b v) -> between a b d -> between a b (or_else x d).
Proof. intros Hx Hd. destruct x as [v|]; cbn; [|done]. destruct (Qeq_bool v 0); [done|by apply Hx]. Qed.

Lemma spline_path_tame segment : increasing segment -> forall l k q right_,
  segment !! k = Some q -> drop (S k) segment = l ->
  (forall p c, head l = Some p -> right_ = Some c -> between (plotY q) (plotY p) (plotY c)) ->
  tame q (spline_path segment (S k) right_ l).
Proof.
  intros Hinc l. induction l as [|p l IH]; intros k q right_ Hq Hl Hright; [done|].
  assert (segment !! S k = Some p) as Hp.
  { rewrite <-(Nat.add_0_r (S k)), <-lookup_drop, Hl. done. }
  assert (drop (S (S k)) segment = l) as Hl'.
  { replace (S (S k)) with (S k + 1)%nat by lia. by rewrite <-drop_drop, Hl. }
  assert (segment !! S (S k) = head l) as Hn.
  { rewrite <-(Nat.add_0_r (S (S k))), <-lookup_drop, Hl'. by destruct l. }
  cbn [spline_path getPointSpline]. rewrite Hq. cbn [default from_option id app tame].
  destruct p as [x y] eqn:Ep. rewrite <-Ep in *. split_and!; [done| |].
  - intros s Hs. replace y with (plotY p) by (by subst). apply bezier_between; [done| |].
    + apply or_else_between; [|apply between_intro; lra]. intros v Hv. destruct right_ as [c|]; simplify_eq/=.
      exact (Hright _ _ eq_refl eq_refl).
    + apply or_else_between; [|apply between_intro; lra]. intros v Hv. rewrite Hn in Hv.
      destruct l as [|next l]; simplify_eq/=.
      pose proof (controls_between q (Pt x y) next (Hinc _ _ _ Hq Hp) (Hinc _ _ _ Hp Hn)) as H.
      destruct (controls q _ next). cbn. apply H.
  - replace (Pt (plotX p) (plotY p)) with p by (by subst). apply IH; [done..|].
    intros next c Hnext Hc. rewrite Hn, Hnext in Hc. simplify_eq/=. rewrite Hnext in Hn.
    pose proof (controls_between q (Pt x y) next (Hinc _ _ _ Hq Hp) (Hinc _ _ _ Hp Hn)) as H.
    destruct (controls q _ next). cbn. apply H.
Qed.

(** C14: A spline makes no false extremes: of points with increasing places it draws one
    curve between each two, starting at the first point and ending at the last, and
    every point of such a curve lies between the heights of its two ends, also where a
    control point at 0 is taken for a missing one. *)
Theorem spline_stays_between segment : increasing segment ->
  match segment with
  | [] => getSegmentPath Spline segment = []
  | p :: _ => exists rest, getSegmentPath Spline segment = [Letter "M"; Number (plotX p); Number (plotY p)]%string ++ rest /\
                length rest = (7 * (length segment - 1))%nat /\ tame p rest
  end.
Proof.
  intros Hinc. destruct segment as [|p l]; [done|]. cbn [getSegmentPath spline_path getPointSpline fmap option_fmap option_map].
  eexists. split_and!; [done| |by apply spline_path_tame].
  generalize (p :: l) at 1. intros seg. cbn [length].
  assert (forall i r, length (spline_path seg (S i) r l) = 7 * length l)%nat as ->; [|lia].
  clear Hinc. induction l as [|q l IH]; intros i r; [done|]. cbn [spline_path getPointSpline app length]. rewrite IH. lia.
Qed.

Lemma spline_stays_between_witness :
  exists rest, getSegmentPath Spline [Pt 0 5; Pt 1 9; Pt 3 0]
    = [Letter "M"; Number 0; Number 5]%string ++ rest /\ length rest = 14%nat /\ tame (Pt 0 5) rest.
Proof.
  apply (spline_stays_between [Pt 0 5; Pt 1 9; Pt 3 0]).
  intros [|[|[|i]]] p q Hp Hq; cbn in Hp, Hq; simplify_eq; reflexivity.
Defined.

(** ** Areas and steps *)

(** The corners of a path. *)
Fixpoint corners (l : list token) : list pt :=
  match l with
  | Number x :: ((Number y :: rest) as r) => Pt x y :: corners rest
  | Letter _ :: rest => corners rest
  | _ => []
  end.

Lemma corners_line_path step q l : corners (line_path step (Some q) l)
  = concat (zip_with (fun q p => (if step : bool then [Pt (plotX p) (plotY q)] else []) ++ [p]) (q :: l) l).
Proof.
  revert q. induction l as [|p l IH]; intros q; [done|]. cbn [line_path line_piece app zip_with concat].
  destruct p as [x y]. destruct step; cbn [app corners plotX plotY]; by rewrite IH.
Qed.

Lemma corners_numbers (ps : list pt) rest :
  corners (concat (map (fun p => [Number (plotX p); Number (plotY p)]) ps) ++ rest) = ps ++ corners rest.
Proof. induction ps as [|[x y] ps IH]; [done|]. cbn. by rewrite IH. Qed.

(** The corners of the way back. *)
Fixpoint back (step : bool) (l : list (pt * Q)) : list pt :=
  match l with
  | [] => []
  | (p, b) :: rest =>
      back step rest ++ match rest with (q, _) :: _ => if step then [Pt (plotX q) b] else [] | [] => [] end
      ++ [Pt (plotX p) b]
  end.
Lemma bottoms_back step l : bottoms step l = concat (map (fun p => [Number (plotX p); Number (plotY p)]) (back step l)).
Proof.
  induction l as [|[p b] l IH]; [done|]. cbn [bottoms back]. rewrite IH, !map_app, !concat_app. f_equal.
  destruct l as [|[q ?] ?]; [done|]. by destruct step.
Qed.

(** The area of a stacked series is closed along the very line the bottoms draw:
    the way back has the corners of the path of the points at their bottoms, of the
    same kind (with steps or without), from the last to the first. So where the
    bottoms are the heights of the series below, the area follows that series' line. *)
Theorem stacked_area_follows step segment :
  corners (bottoms step segment)
  = rev (corners (getSegmentPath (Line step) (map (fun pb => Pt (plotX pb.1) pb.2) segment))).
Proof.
  rewrite bottoms_back, <-(app_nil_r (concat _)), corners_numbers. cbn [corners]. rewrite app_nil_r.
  destruct segment as [|[p b] l]; [done|]. cbn [getSegmentPath map line_path line_piece app corners plotX plotY].
  rewrite corners_line_path. cbn [rev]. revert p b. induction l as [|[p' b'] l IH]; intros p b; [done|].
  change (back step ((p, b) :: (p', b') :: l))
    with (back step ((p', b') :: l) ++ (if step then [Pt (plotX p') b] else []) ++ [Pt (plotX p) b]).
  rewrite IH. cbn [map zip_with concat fst snd plotX plotY]. rewrite rev_app_distr, <-!(assoc_L (++)).
  f_equal. destruct step; reflexivity.
Qed.

(** Where only one coordinate changes. *)
Definition straight (p q : pt) : Prop := plotX p = plotX q \/ plotY p = plotY q.
Fixpoint all_straight (l : list pt) : Prop :=
  match l with
  | p :: ((q :: _) as rest) => straight p q /\ all_straight rest
  | _ => True
  end.

(** A step line runs only along the axes: from each corner of its path to the next
    only one coordinate changes, and it still passes every point. *)
Theorem step_line_straight segment :
  let path := corners (getSegmentPath (Line true) segment) in
  all_straight path /\ forall p, p ∈ segment -> p ∈ path.
Proof.
  destruct segment as [|[x y] l]; [by split|].
  cbn [getSegmentPath line_path line_piece app corners plotX plotY].
  rewrite corners_line_path. generalize (Pt x y). clear x y.
  induction l as [|p l IH]; intros q.
  { split; [done|]. intros p Hp. exact Hp. }
  destruct (IH p) as [IH1 IH2]. cbn [zip_with concat app]. split.
  - cbn [all_straight]. split_and!; [by right|by left|exact IH1].
  - intros r [->|Hr]%elem_of_cons; [by left|]. right. right. by apply IH2.
Qed.

(** ** The animation from one line to another *)

(** A path with one letter and one point at a time. *)
Fixpoint trace (l : list (string * pt)) : list token :=
  match l with
  | [] => []
  | (c, p) :: rest => Letter c :: Number (plotX p) :: Number (plotY p) :: trace rest
  end.
Definition lettered (l : list pt) : list (string * pt) :=
  match l with [] => [] | p :: rest => ("M"%string, p) :: map (pair "L"%string) rest end.

Lemma trace_app l l' : trace (l ++ l') = trace l ++ trace l'.
Proof. induction l as [|[c p] l IH]; cbn; [done|]. by rewrite IH. Qed.
Lemma trace_length l : length (trace l) = (3 * length l)%nat.
Proof. induction l as [|[c p] l IH]; cbn [trace length]; [done|]. rewrite IH. lia. Qed.
Lemma trace_no_curve l : Forall (fun cp => cp.1 <> "C"%string) l -> existsb (is_letter "C") (trace l) = false.
Proof.
  induction 1 as [|[c p] l Hc _ IH]; [done|]. cbn [trace existsb is_letter]. rewrite IH.
  rewrite bool_decide_false; [done|]. intros E. by apply Hc.
Qed.
Lemma lettered_no_curve l : Forall (fun cp => cp.1 <> "C"%string) (lettered l).
Proof. destruct l as [|p l]; [constructor|]. constructor; [done|]. apply Forall_fmap. by apply Forall_true. Qed.
Lemma lettered_length l : length (lettered l) = length l.
Proof. destruct l; [done|]. cbn. by rewrite length_map. Qed.
Lemma lettered_app p l l' : lettered ((p :: l) ++ l') = lettered (p :: l) ++ map (pair "L"%string) l'.
Proof. cbn. by rewrite map_app. Qed.

Lemma line_path_trace l : line_path false None l = trace (lettered l).
Proof.
  destruct l as [|p l]; [done|]. cbn. do 3 f_equal. revert p.
  induction l as [|q l IH]; intros p; [done|]. cbn. by rewrite IH.
Qed.

Lemma last_point_trace l c p : last_point false 3 (trace (l ++ [(c, p)])) = trace [(c, p)].
Proof.
  unfold last_point, splice. cbn [fst]. rewrite trace_app.
  set (t := trace [(c, p)]). assert (length t = 3)%nat as Ht by done.
  assert (splice_start (length (trace l ++ t)) (Z.of_nat (length (trace l ++ t)) - Z.of_nat 3) = length (trace l)) as ->.
  { unfold splice_start. rewrite length_app, Ht.
    replace (Z.of_nat (length (trace l) + 3) - Z.of_nat 3) with (Z.of_nat (length (trace l))) by lia.
    destruct (Z.ltb_spec (Z.of_nat (length (trace l))) 0); lia. }
  by rewrite drop_app_length.
Qed.

Lemma pad_start_trace l c p n : forall fuel, (n <= fuel)%nat -> forall endLength,
  endLength = (3 * (length l + 1 + n))%nat ->
  pad_start fuel false 3 endLength (trace (l ++ [(c, p)])) = trace (l ++ [(c, p)] ++ replicate n (c, p)).
Proof.
  revert l. induction n as [|n IH]; intros l fuel Hf e He.
  - cbn [replicate]. destruct fuel as [|fuel]; cbn [pad_start]; [done|].
    rewrite trace_length, length_app. cbn [length].
    destruct (Nat.ltb_spec (3 * (length l + 1)) e); [lia|done].
  - destruct fuel as [|fuel]; [lia|]. cbn [pad_start]. rewrite trace_length, length_app. cbn [length].
    destruct (Nat.ltb_spec (3 * (length l + 1)) e); [|lia].
    rewrite last_point_trace, <-trace_app, IH; [|lia|rewrite length_app; cbn; lia].
    by rewrite <-!(assoc_L (++)).
Qed.

Lemma shift_end_trace n a : forall l, shift_end 3 n (trace (a :: l)) = trace (replicate n a ++ a :: l).
Proof.
  induction n as [|n IH]; intros l; [done|]. destruct a as [c p].
  change (shift_end 3 n (trace ((c, p) :: (c, p) :: l)) = trace (replicate (S n) (c, p) ++ (c, p) :: l)).
  rewrite IH, replicate_S_end. by rewrite <-(assoc_L (++)).
Qed.

(** The point a part [pos] of the way from [p] to [q]. *)
Definition moving (pos : Q) (p q : pt) : pt :=
  Pt (pos * (plotX q - plotX p) + plotX p) (pos * (plotY q - plotY p) + plotY p).

Lemma step_trace pos l : forall l', length l = length l' ->
  zip_with (step_token pos) (trace l) (trace l')
  = trace (zip_with (fun a b => (a.1, moving pos a.2 b.2)) l l').
Proof.
  induction l as [|[c p] l IH]; intros [|[c' p'] l'] H; try done. cbn in H. injection H as H.
  cbn. by rewrite IH.
Qed.
Lemma lettered_zip f ps : forall (l' : list (string * pt)), length ps = length l' ->
  zip_with (fun a b => (a.1, f a.2 b.2)) (lettered ps) l' = lettered (zip_with f ps (map snd l')).
Proof.
  destruct ps as [|p ps]; intros [|[c q] l'] H; try done. cbn in *. f_equal. injection H as H. revert l' H.
  induction ps as [|r ps IH]; intros [|[c' q'] l'] H; try done. cbn in *. f_equal. apply IH. lia.
Qed.

(** C28: The animation of a line of straight segments, where the old line has two points or
    more and no more than the new one with the [n] it is shifted by, and the new one no
    fewer than [n]: between the start and the end every point stands the same part of the
    way from its place to its new place. Points that are new grow out of the last old
    point, and with [n] points moved out of the chart at the front the first ones go to the
    place of the first that is left. At the end the path is the new one as it was given. *)
Theorem pathAnim_moves n ps p q qs pos complete :
  (1 <= length ps)%nat -> (S (length ps) <= n + S (length qs))%nat -> (n <= S (length qs))%nat ->
  let '(start, end_) := init (Some n) false (getSegmentPath (Line false) (ps ++ [p]))
                              (getSegmentPath (Line false) (q :: qs)) in
  ((pos < 1)%Q ->
   step start end_ pos complete
   = getSegmentPath (Line false)
       (zip_with (moving pos) (ps ++ [p] ++ replicate (n + length qs - length ps) p) (replicate n q ++ q :: qs))) /\
  ((pos == 1)%Q -> step start end_ pos complete = complete).
Proof.
  intros Hps Hlen Hn. cbn [getSegmentPath]. rewrite !line_path_trace. unfold init.
  rewrite trace_no_curve by apply lettered_no_curve. cbn [fst snd].
  rewrite !app_nil_r. rewrite (proj2 (Nat.leb_le (n * 3) _)) by (rewrite trace_length, lettered_length; cbn; lia).
  change (lettered (q :: qs)) with (("M"%string, q) :: map (pair "L"%string) qs). rewrite shift_end_trace.
  set (end_ := replicate n ("M"%string, q) ++ ("M"%string, q) :: map (pair "L"%string) qs).
  assert (length end_ = n + S (length qs))%nat as Hend.
  { subst end_. rewrite length_app, length_replicate. cbn. by rewrite length_map. }
  destruct ps as [|p0 ps]; [cbn in Hps; lia|].
  assert (pad_start (length (trace end_)) false 3 (length (trace end_)) (trace (lettered ((p0 :: ps) ++ [p])))
          = trace (lettered ((p0 :: ps) ++ [p] ++ replicate (n + length qs - length (p0 :: ps)) p))) as Epad.
  { rewrite !lettered_app, map_app. cbn [map]. rewrite (pad_start_trace _ _ _ (n + length qs - length (p0 :: ps))).
    - by rewrite fmap_replicate.
    - rewrite trace_length, Hend. cbn. lia.
    - rewrite trace_length, Hend, lettered_length. cbn in *. lia. }
  set (start := lettered ((p0 :: ps) ++ [p] ++ _)) in *.
  assert (length start = length end_) as Hl.
  { subst start. rewrite lettered_length, !length_app, length_replicate, Hend. cbn in *. lia. }
  assert (match trace (lettered ((p0 :: ps) ++ [p])) with
          | [] => []
          | _ :: _ => pad_start (length (trace end_)) false 3 (length (trace end_)) (trace (lettered ((p0 :: ps) ++ [p])))
          end = trace start) as -> by exact Epad.
  unfold step. split; intros Hpos.
  - destruct (Qeq_bool pos 1) eqn:E; [apply Qeq_bool_iff in E; lra|].
    rewrite !trace_length, Hl, Nat.eqb_refl, (proj2 (Qlt_b_spec _ _)) by done. cbn [andb].
    rewrite step_trace by done. subst start. rewrite lettered_zip by (by rewrite <-Hl, lettered_length).
    do 3 f_equal. subst end_. rewrite map_app, fmap_replicate. cbn. f_equal. f_equal.
    rewrite map_map. apply map_id.
  - apply Qeq_bool_iff in Hpos. by rewrite Hpos.
Qed.

Lemma pathAnim_moves_witness :
  let '(start, end_) := init (Some 1%nat) false (getSegmentPath (Line false) [Pt 0 1; Pt 1 2])
                              (getSegmentPath (Line false) [Pt 0 2; Pt 1 8]) in
  step start end_ (1 # 2) []
  = getSegmentPath (Line false)
      (zip_with (moving (1 # 2)) [Pt 0 1; Pt 1 2; Pt 1 2] [Pt 0 2; Pt 0 2; Pt 1 8]).
Proof.
  exact (proj1 (pathAnim_moves 1 [Pt 0 1] (Pt 1 2) (Pt 0 2) [Pt 1 8] (1 # 2) [] ltac:(cbn; lia) ltac:(cbn; lia)
    ltac:(cbn; lia)) eq_refl).
Defined.
