(* ===== verification/HsHover.v ===== *)
(** * Charts: what is hovered and what is selected

    [highstock.src.js]: the states of points and series ([Point.setState],
    [Point.select], [onMouseOver], [onMouseOut], [Series.setState], [setVisible]), the
    tooltip as far as it keeps state ([move], [hide], [refresh]), and the two handlers
    of the [MouseTracker] that drive them, [onmousemove] and [resetTracker].

    Points and series are referred to by their index. The texts and the place of the
    tooltip, the user's handlers and formatter are parameters. The elements that show
    all this are not modelled. *)

From Stdlib Require Import QArith Qminmax Qabs Lqa Qround.
From S2P Require Import Prelude JsString JsNum HsAxis HsScale.
Local Open Scope list_scope.
Local Open Scope Z_scope.

(** ** Points, series, the chart *)

Inductive pstate := Normal | Hover | Select.
#[export] Instance pstate_eq_dec : EqDecision pstate.
Proof. solve_decision. Defined.

(** [options.marker] of a series whose type has markers. *)
Record marker_options := MarkerOptions {
  mk_enabled : bool;
  mk_hover : option bool;           (* states.hover.enabled *)
  mk_select : option bool           (* states.select.enabled *)
}.
Record series_options := SeriesOptions {
  so_hover : option bool;           (* states.hover.enabled *)
  so_select : option bool;
  so_marker : option marker_options;
  so_noSharedTooltip : bool;
  so_stickyTracking : bool;
  so_allowPointSelect : bool;
  so_enableMouseTracking : bool;
  so_isCartesian : bool;
  so_tooltipOutsidePlot : bool;
  so_tracker : bool;                (* a tracker for all its points *)
  so_stacking : bool
}.
Record series := Series {
  se_options : series_options; se_visible : bool; se_selected : bool; se_state : pstate; se_isDirty : bool;
  se_tooltipPoints : list nat
}.
(** Where a point is: [pl_tooltipPos] is that of a slice, [pl_range] are [plotLow] and
    [plotHigh]. *)
Record place := Place {
  pl_plotX : Q; pl_plotY : Q; pl_range : option (Q * Q); pl_tooltipPos : option (Q * Q)
}.
(** [pt_place] is [None] where [plotX] is [undefined]. *)
Record point := Point {
  pt_series : nat; pt_state : pstate; pt_selected : bool; pt_place : option place
}.
Definition pt_plotX (pt : point) : option Q := pl_plotX <$> pt_place pt.

Inductive event :=
| PointEvent (name : string) (p : nat)
| SeriesEvent (name : string) (s : nat)
| Shown (text : string) (place : Z * Z).

Record chart := Chart {
  c_points : list point; c_series : list series;
  c_hoverPoint : option nat; c_hoverSeries : option nat; c_hoverPoints : option (list nat);
  c_tooltipIsHidden : bool; c_current : Q * Q; c_tooltipTick : option (Z * Z);
  c_hoverX : option (option Q);     (* [None] is null, [Some None] undefined *)
  c_mouseIsDown : bool; c_isDirtyBox : bool; c_log : list event
}.

Definition with_points f (c : chart) : chart :=
  Chart (f (c_points c)) (c_series c) (c_hoverPoint c) (c_hoverSeries c) (c_hoverPoints c)
    (c_tooltipIsHidden c) (c_current c) (c_tooltipTick c) (c_hoverX c) (c_mouseIsDown c) (c_isDirtyBox c) (c_log c).
Definition with_series f (c : chart) : chart :=
  Chart (c_points c) (f (c_series c)) (c_hoverPoint c) (c_hoverSeries c) (c_hoverPoints c)
    (c_tooltipIsHidden c) (c_current c) (c_tooltipTick c) (c_hoverX c) (c_mouseIsDown c) (c_isDirtyBox c) (c_log c).
Definition with_hoverPoint v (c : chart) : chart :=
  Chart (c_points c) (c_series c) v (c_hoverSeries c) (c_hoverPoints c)
    (c_tooltipIsHidden c) (c_current c) (c_tooltipTick c) (c_hoverX c) (c_mouseIsDown c) (c_isDirtyBox c) (c_log c).
Definition with_hoverSeries v (c : chart) : chart :=
  Chart (c_points c) (c_series c) (c_hoverPoint c) v (c_hoverPoints c)
    (c_tooltipIsHidden c) (c_current c) (c_tooltipTick c) (c_hoverX c) (c_mouseIsDown c) (c_isDirtyBox c) (c_log c).
Definition with_hoverPoints v (c : chart) : chart :=
  Chart (c_points c) (c_series c) (c_hoverPoint c) (c_hoverSeries c) v
    (c_tooltipIsHidden c) (c_current c) (c_tooltipTick c) (c_hoverX c) (c_mouseIsDown c) (c_isDirtyBox c) (c_log c).
Definition with_tooltip hidden current tick (c : chart) : chart :=
  Chart (c_points c) (c_series c) (c_hoverPoint c) (c_hoverSeries c) (c_hoverPoints c)
    hidden current tick (c_hoverX c) (c_mouseIsDown c) (c_isDirtyBox c) (c_log c).
Definition with_hoverX v (c : chart) : chart :=
  Chart (c_points c) (c_series c) (c_hoverPoint c) (c_hoverSeries c) (c_hoverPoints c)
    (c_tooltipIsHidden c) (c_current c) (c_tooltipTick c) v (c_mouseIsDown c) (c_isDirtyBox c) (c_log c).
Definition with_isDirtyBox v (c : chart) : chart :=
  Chart (c_points c) (c_series c) (c_hoverPoint c) (c_hoverSeries c) (c_hoverPoints c)
    (c_tooltipIsHidden c) (c_current c) (c_tooltipTick c) (c_hoverX c) (c_mouseIsDown c) v (c_log c).
Definition log (e : event) (c : chart) : chart :=
  Chart (c_points c) (c_series c) (c_hoverPoint c) (c_hoverSeries c) (c_hoverPoints c)
    (c_tooltipIsHidden c) (c_current c) (c_tooltipTick c) (c_hoverX c) (c_mouseIsDown c) (c_isDirtyBox c)
    (c_log c ++ [e]).

Definition upd_point (p : nat) (f : point -> point) : chart -> chart := with_points (alter f p).
Definition upd_series (s : nat) (f : series -> series) : chart -> chart := with_series (alter f s).
Definition options_of (c : chart) (p : nat) : option series_options :=
  pt ← c_points c !! p; se_options <$> c_series c !! pt_series pt.

(** ** The states of points and series *)

Definition is_false (o : option bool) : bool := match o with Some false => true | _ => false end.

(** The state is switched off by the series or by its markers. *)
Definition state_off (o : series_options) (st : pstate) : bool :=
  let marker_off (f : marker_options -> option bool) :=
    match so_marker o with
    | Some m => is_false (f m) || (negb (mk_enabled m) && negb (default false (f m)))
    | None => false
    end in
  match st with
  | Normal => false
  | Hover => is_false (so_hover o) || marker_off mk_hover
  | Select => is_false (so_select o) || marker_off mk_select
  end.

Definition setState (st : pstate) (p : nat) (c : chart) : chart :=
  match c_points c !! p, options_of c p with
  | Some pt, Some o =>
      if bool_decide (st = pt_state pt) || (pt_selected pt && bool_decide (st <> Select)) || state_off o st then c
      else upd_point p (fun pt => Point (pt_series pt) st (pt_selected pt) (pt_place pt)) c
  | _, _ => c
  end.

Definition set_selected (v : bool) (p : nat) : chart -> chart :=
  upd_point p (fun pt => Point (pt_series pt) (pt_state pt) v (pt_place pt)).

(** [Series.setState]; it is noted also when the state is switched off. *)
Definition series_setState (st : pstate) (s : nat) : chart -> chart :=
  upd_series s (fun x => Series (se_options x) (se_visible x) (se_selected x) st (se_isDirty x) (se_tooltipPoints x)).

(** [chart.getSelectedPoints()], where the points stand in the order of their series. *)
Definition getSelectedPoints (c : chart) : list nat :=
  List.filter (fun p => match c_points c !! p with Some pt => pt_selected pt | None => false end)
    (seq 0 (length (c_points c))).

(** [Point.select]; [veto] tells of a handler that prevents the default. *)
Definition unselect_other (p q : nat) (c : chart) : chart :=
  match c_points c !! q with
  | Some pt =>
      if pt_selected pt && bool_decide (q <> p)
      then log (PointEvent "unselect" q) (setState Normal q (set_selected false q c))
      else c
  | None => c
  end.
Definition select (veto : bool) (selected : option bool) (accumulate : bool) (p : nat) (c : chart) : chart :=
  match c_points c !! p with
  | None => c
  | Some pt =>
      let selected := default (negb (pt_selected pt)) selected in
      let c := log (PointEvent (if selected then "select" else "unselect") p) c in
      if veto then c
      else
        let c := setState (if selected then Select else Normal) p (set_selected selected p c) in
        if accumulate then c
        else fold_left (fun c q => unselect_other p q c) (getSelectedPoints c) c
  end.

(** The click of a point in a series that allows selecting: [key] is Ctrl, Cmd or
    Shift. *)
Definition click_point (veto : bool) (key : bool) (p : nat) (c : chart) : chart :=
  match options_of c p with
  | Some o =>
      let c := log (PointEvent "click" p) c in
      if so_allowPointSelect o then select veto None key p c else c
  | None => c
  end.

(** [Series.select] and [setVisible]; [chart.redraw] is apart, below. *)
Definition series_select (selected : option bool) (s : nat) (c : chart) : chart :=
  match c_series c !! s with
  | None => c
  | Some x =>
      let selected := default (negb (se_selected x)) selected in
      log (SeriesEvent (if selected then "select" else "unselect") s)
        (upd_series s (fun x => Series (se_options x) (se_visible x) selected (se_state x) (se_isDirty x)
                                  (se_tooltipPoints x)) c)
  end.
Definition set_dirty (v : bool) (x : series) : series :=
  Series (se_options x) (se_visible x) (se_selected x) (se_state x) v (se_tooltipPoints x).
Definition set_visible (v : bool) (x : series) : series :=
  Series (se_options x) v (se_selected x) (se_state x) (se_isDirty x) (se_tooltipPoints x).

(** What [redraw] does about the series: with a dirty one in a stack all stacked series
    are dirty; the dirty ones that are seen are drawn, and are then clean. *)
Definition link_stacks (l : list series) : list series :=
  if existsb (fun x => se_isDirty x && so_stacking (se_options x)) l
  then map (fun x => if so_stacking (se_options x) then set_dirty true x else x) l else l.
Definition redraw_series (l : list series) : list series * list nat :=
  let l := link_stacks l in
  let drawn := List.filter (fun s => match l !! s with Some x => se_isDirty x && se_visible x | None => false end)
                 (seq 0 (length l)) in
  (map (fun x => if se_isDirty x && se_visible x then set_dirty false x else x) l, drawn).

(** Before the redrawing. *)
Definition setVisible (ignoreHiddenSeries : bool) (vis : option bool) (s : nat) (c : chart) : chart :=
  match c_series c !! s with
  | None => c
  | Some x =>
      let vis := default (negb (se_visible x)) vis in
      let c := upd_series s (fun x => set_dirty true (set_visible vis x)) c in
      let c := if so_stacking (se_options x)
               then with_series (map (fun y => if so_stacking (se_options y) && se_visible y
                                               then set_dirty true y else y)) c
               else c in
      if ignoreHiddenSeries then with_isDirtyBox true c else c
  end.

(** ** The tooltip *)

Record plot := Plot { plotWidth : Q; plotHeight : Q; inverted : bool }.

(** [chart.isInsidePlot] *)
Definition isInsidePlot (pl : plot) (x y : Z) : bool :=
  (0 <=? x) && Qle_bool (inject_Z x) (plotWidth pl) && (0 <=? y) && Qle_bool (inject_Z y) (plotHeight pl).

(** [getAnchor]: the place of a slice, or the middle of the points, or for several
    points the height of the mouse, [mouse] pixels below the top of the plot. *)
Definition anchor_y (pl : place) : Q :=
  match pl_range pl with
  | Some (low, high) => if Qeq_bool low 0 then pl_plotY pl else ((low + high) / 2)%Q
  | None => pl_plotY pl
  end.
Definition average (l : list Q) : Q := (fold_left Qplus l 0 / inject_Z (Z.of_nat (length l)))%Q.
Definition getAnchor (pl : plot) (shared : bool) (mouse : option Q) (l : list place) : Z * Z :=
  let '(x, y) :=
    match l with
    | first :: _ =>
        match pl_tooltipPos first with
        | Some pos => pos
        | None =>
            let plotX := average (map pl_plotX l) in
            let plotY := average (map anchor_y l) in
            (if inverted pl then plotWidth pl - plotY else plotX,
             match mouse with
             | Some my => if shared && negb (inverted pl) && (1 <? length l)%nat then my
                          else if inverted pl then plotHeight pl - plotX else plotY
             | None => if inverted pl then plotHeight pl - plotX else plotY
             end)%Q
        end
    | [] => (0, 0)%Q
    end in
  (mathRound x, mathRound y).

(** [move]: part of the way, the rest with the ticks of the tracker. *)
Definition move (final : Z * Z) (c : chart) : chart :=
  let '(fx, fy) := final in
  let x := inject_Z fx in
  let y := inject_Z fy in
  let '(cx, cy) := c_current c in
  let '(cx, cy) := if c_tooltipIsHidden c then (x, y) else ((2 * cx + x) / 3, (cy + y) / 2)%Q in
  with_tooltip (c_tooltipIsHidden c) (cx, cy)
    (if Qlt_b 1 (Qabs (x - cx)) || Qlt_b 1 (Qabs (y - cy)) then Some (fx, fy) else None) c.
Definition tick (c : chart) : chart :=
  match c_tooltipTick c with Some final => move final c | None => c end.

Definition set_states (st : pstate) (l : list nat) (c : chart) : chart := fold_left (fun c p => setState st p c) l c.

Definition hide (c : chart) : chart :=
  if c_tooltipIsHidden c then c
  else
    let c := match c_hoverPoints c with Some l => set_states Normal l c | None => c end in
    let c := with_hoverPoints None c in
    with_tooltip true (c_current c) (c_tooltipTick c) c.

Section tooltip.
Context (pl : plot) (shared : bool).
(** The text of the tooltip for some points, [None] where the formatter returns
    [false]; the place of a label with a text at an anchor. *)
Context (text : list nat -> option string) (placed : string -> Z * Z -> Z * Z).

(** One point or an array of points is handed to [refresh]. *)
Inductive target := One (p : nat) | Many (l : list nat).
Definition points_of (t : target) : list nat := match t with One p => [p] | Many l => l end.

Definition places_of (c : chart) (l : list nat) : option (list place) :=
  mapM (fun p => pt ← c_points c !! p; pt_place pt) l.

(** Points without a place have no anchor; [refresh] is not modelled for them. *)
Definition no_place : string := "no place".

Definition noShared (c : chart) (p : nat) : bool :=
  match options_of c p with Some o => so_noSharedTooltip o | None => false end.

Definition refresh (mouse : option Q) (t : target) (c : chart) : res chart :=
  match places_of c (points_of t), head (points_of t) with
  | Some places, Some first =>
      let '(x, y) := getAnchor pl shared mouse places in
      c ← (if shared && negb (match t with One p => noShared c p | Many _ => false end) then
             match t with
             | One _ => Throw TypeError                      (* point[0] of a point *)
             | Many l =>
                 let c := match c_hoverPoints c with Some old => set_states Normal old c | None => c end in
                 Ok (set_states Hover l (with_hoverPoints (Some l) c))
             end
           else match t with
                | One _ => Ok c
                | Many _ => Throw TypeError                  (* getLabelConfig of an array *)
                end);
      let show := shared || match options_of c first with
                            | Some o => negb (so_isCartesian o) || so_tooltipOutsidePlot o
                            | None => true
                            end || isInsidePlot pl x y in
      match text (points_of t) with
      | Some s =>
          if show then
            let p := placed s (x, y) in
            let c := move p (log (Shown s p) c) in
            Ok (with_tooltip false (c_current c) (c_tooltipTick c) c)
          else Ok (hide c)
      | None => Ok (hide c)
      end
  | None, Some _ => Throw no_place
  | _, None => Throw TypeError                               (* points[0] of no points *)
  end.

(** ** Over and out *)

Definition onMouseOut (p : nat) (c : chart) : chart :=
  with_hoverPoint None (setState Normal p (log (PointEvent "mouseOut" p) c)).

Definition onMouseOver (hasTooltip : bool) (p : nat) (c : chart) : res chart :=
  let c := match c_hoverPoint c with
           | Some h => if decide (h = p) then c else onMouseOut h c
           | None => c
           end in
  let c := log (PointEvent "mouseOver" p) c in
  c ← (if hasTooltip && (negb shared || noShared c p) then refresh None (One p) c else Ok c);
  Ok (with_hoverPoint (Some p) (setState Hover p c)).

Definition series_onMouseOut (hasTooltip : bool) (s : nat) (c : chart) : chart :=
  let c := match c_hoverPoint c with Some h => onMouseOut h c | None => c end in
  let c := log (SeriesEvent "mouseOut" s) c in
  let sticky := match c_series c !! s with Some x => so_stickyTracking (se_options x) | None => false end in
  let c := if hasTooltip && negb sticky && negb shared then hide c else c in
  with_hoverSeries None (series_setState Normal s c).

Definition series_onMouseOver (hasTooltip hasTouch : bool) (s : nat) (c : chart) : chart :=
  if negb hasTouch && c_mouseIsDown c then c
  else
    let c := match c_hoverSeries c with
             | Some h => if decide (h = s) then c else series_onMouseOut hasTooltip h c
             | None => c
             end in
    with_hoverSeries (Some s) (series_setState Hover s (log (SeriesEvent "mouseOver" s) c)).

(** ** The tracker *)

(** [Math.min] and [>], where a missing number is [NaN]. *)
Definition min_or_NaN (a b : option Q) : option Q := x ← a; y ← b; Some (Qmin x y).
Definition farther (a b : option Q) : bool := match a, b with Some x, Some y => Qlt_b y x | _, _ => false end.

(** The points of the shared tooltip: of every series that takes part the one at the
    pixel, if there are not nearer ones. *)
Definition takes_part (x : series) : bool :=
  se_visible x && so_enableMouseTracking (se_options x) && negb (so_noSharedTooltip (se_options x))
  && negb (bool_decide (se_tooltipPoints x = [])).
Fixpoint points_at (c : chart) (index : nat) (l : list series) : res (list (nat * option Q)) :=
  match l with
  | [] => Ok []
  | x :: rest =>
      if takes_part x then
        p ← of_option (se_tooltipPoints x !! index);
        let dist := pt ← c_points c !! p; px ← pt_plotX pt; Some (Qabs (inject_Z (Z.of_nat index) - px)) in
        l ← points_at c index rest; Ok ((p, dist) :: l)
      else points_at c index rest
  end.
Definition nearest_points (chartWidth : Q) (l : list (nat * option Q)) : list nat :=
  let distance := fold_left (fun d pd => min_or_NaN d pd.2) l (Some chartWidth) in
  map fst (List.filter (fun pd => negb (farther pd.2 distance)) l).

Definition same_x (a b : option Q) : bool :=
  match a, b with Some x, Some y => Qeq_bool x y | None, None => true | _, _ => false end.

(** [onmousemove] at the pixel [index] of the plot. *)
Definition onmousemove (hasTooltip : bool) (chartWidth : Q) (mouse : option Q) (index : nat) (c : chart) : res chart :=
  let hoverPoint := c_hoverPoint c in
  let hoverSeries := s ← c_hoverSeries c; c_series c !! s in
  let excluded := match hoverSeries with Some x => so_noSharedTooltip (se_options x) | None => false end in
  c ← (if hasTooltip && shared && negb excluded then
         l ← points_at c index (c_series c);
         let points := nearest_points chartWidth l in
         match points with
         | first :: _ =>
             let plotX := pt ← c_points c !! first; pt_plotX pt in
             if match c_hoverX c with Some x => same_x plotX x | None => false end then Ok c
             else c ← refresh mouse (Many points) c; Ok (with_hoverX (Some plotX) c)
         | [] => Ok c
         end
       else Ok c);
  match hoverSeries with
  | Some x =>
      if so_tracker (se_options x) then
        match se_tooltipPoints x !! index with
        | Some p => if decide (hoverPoint = Some p) then Ok c else onMouseOver hasTooltip p c
        | None => Ok c
        end
      else Ok c
  | None => Ok c
  end.

(** [resetTracker]: the tooltip only moves when that is allowed and there is a point
    with a place; else everything is cleared. *)
Definition tooltipPoints (c : chart) : option target :=
  match c_hoverPoints c with Some l => Some (Many l) | None => One <$> c_hoverPoint c end.
Definition full_reset (hasTooltip : bool) (c : chart) : chart :=
  let hoverSeries := c_hoverSeries c in
  let c := match c_hoverPoint c with Some p => onMouseOut p c | None => c end in
  let c := match hoverSeries with Some s => series_onMouseOut hasTooltip s c | None => c end in
  let c := if hasTooltip then hide c else c in
  with_hoverX None c.
Definition resetTracker (hasTooltip allowMove : bool) (c : chart) : res chart :=
  match (if allowMove && hasTooltip then tooltipPoints c else None) with
  | Some t =>
      match head (points_of t) with
      | None => Throw TypeError
      | Some p =>
          if bool_decide (is_Some (pt ← c_points c !! p; pt_place pt)) then refresh None t c
          else Ok (full_reset hasTooltip c)
      end
  | None => Ok (full_reset hasTooltip c)
  end.

(** The mouse leaves the container, or moves outside the plot over the page. *)
Definition hideTooltipOnMouseLeave (hasTooltip : bool) (c : chart) : chart := full_reset hasTooltip c.
Definition hideTooltipOnMouseMove (hasTooltip insidePlot : bool) (c : chart) : chart :=
  match s ← c_hoverSeries c; c_series c !! s with
  | Some x => if so_isCartesian (se_options x) && negb insidePlot then full_reset hasTooltip c else c
  | None => c
  end.

(** [pan] takes the state from the points of a shared tooltip, but keeps them. *)
Definition pan_unhover (c : chart) : chart :=
  match c_hoverPoints c with Some l => set_states Normal l c | None => c end.

(** ** What can happen

    The page's events, redrawing and the timer, in any order; a redrawing may move the
    points and change the pixels they are found at. *)
Definition relaid (places : nat -> option place) (pixels : nat -> list nat) (c : chart) : chart :=
  with_series (imap (fun s x => Series (se_options x) (se_visible x) (se_selected x) (se_state x) (se_isDirty x) (pixels s)))
    (with_points (imap (fun p pt => Point (pt_series pt) (pt_state pt) (pt_selected pt) (places p))) c).

Context (hasTooltip hasTouch : bool) (chartWidth : Q).

Inductive step (c : chart) : chart -> Prop :=
| step_over_series s : step c (series_onMouseOver hasTooltip hasTouch s c)
| step_out_series s : step c (series_onMouseOut hasTooltip s c)
| step_over_point p c' : onMouseOver hasTooltip p c = Ok c' -> step c c'
| step_mousemove mouse index c' : onmousemove hasTooltip chartWidth mouse index c = Ok c' -> step c c'
| step_leave : step c (hideTooltipOnMouseLeave hasTooltip c)
| step_page_move inside : step c (hideTooltipOnMouseMove hasTooltip inside c)
| step_redraw places pixels c' : resetTracker hasTooltip true (relaid places pixels c) = Ok c' -> step c c'
| step_tick : step c (tick c)
| step_select veto selected accumulate p : step c (select veto selected accumulate p c)
| step_click veto key p : step c (click_point veto key p c)
| step_series_select selected s : step c (series_select selected s c)
| step_setVisible ignoreHidden vis s : step c (setVisible ignoreHidden vis s c)
| step_pan : step c (pan_unhover c).

End tooltip.

(** ** Facts about points *)

(** A point that looks hovered and is not selected. *)
Definition looks_hovered (c : chart) (p : nat) : Prop :=
  exists pt, c_points c !! p = Some pt /\ pt_state pt = Hover /\ pt_selected pt = false.

(** Every point has its series. *)
Definition wf (c : chart) : Prop :=
  Forall (fun pt => (pt_series pt < length (c_series c))%nat) (c_points c).

Lemma wf_options c p pt : wf c -> c_points c !! p = Some pt -> exists o, options_of c p = Some o.
Proof.
  intros Hw Hp. unfold options_of. rewrite Hp. cbn. eapply Forall_lookup_1 in Hw; [|exact Hp].
  destruct (lookup_lt_is_Some_2 _ _ Hw) as [x ->]. by eexists.
Qed.

Lemma Forall_alter_same {A} (P : A -> Prop) f i (l : list A) :
  (forall x, P x -> P (f x)) -> Forall P l -> Forall P (alter f i l).
Proof. intros Hf H. apply Forall_alter; [done|]. intros x Hx Hp. by apply Hf. Qed.

Lemma setState_points st p c :
  (setState st p c = c) \/
  (exists f, setState st p c = upd_point p f c /\ (forall pt, pt_series (f pt) = pt_series pt) /\
     (forall pt, pt_selected (f pt) = pt_selected pt) /\ (forall pt, pt_state (f pt) = st)).
Proof.
  unfold setState. destruct (c_points c !! p) as [pt|]; [|by left].
  destruct (options_of c p) as [o|]; [|by left].
  destruct (_ || _ || _); [by left|right]. by eexists.
Qed.

Lemma wf_setState st p c : wf c -> wf (setState st p c).
Proof.
  intros H. destruct (setState_points st p c) as [->|(f & -> & Hf & _)]; [done|].
  unfold wf. cbn. apply Forall_alter_same; [|done]. intros pt. by rewrite Hf.
Qed.

Lemma looks_hovered_setState st q c p :
  looks_hovered (setState st q c) p -> looks_hovered c p \/ (p = q /\ st = Hover).
Proof.
  destruct (setState_points st q c) as [->|(f & -> & _ & Hs & Hst)]; [by left|].
  intros (pt & Hp & Hh & Hn). cbn in Hp. destruct (decide (p = q)) as [->|Hne].
  - rewrite list_lookup_alter_eq in Hp. destruct (c_points c !! q) as [pt0|]; simplify_eq/=.
    right. split; [done|]. by rewrite Hst in Hh.
  - rewrite list_lookup_alter_ne in Hp by done. left. by exists pt.
Qed.

Lemma looks_hovered_normal q c p : wf c ->
  looks_hovered (setState Normal q c) p -> looks_hovered c p /\ p <> q.
Proof.
  intros Hw H. destruct (looks_hovered_setState _ _ _ _ H) as [H'|[_ ?]]; [|done]. split; [done|].
  intros ->. destruct H' as (pt & Hp & Hh & Hn). destruct (wf_options c q pt Hw Hp) as [o Ho].
  revert H. unfold setState. rewrite Hp, Ho, Hn. cbn [state_off orb andb].
  rewrite bool_decide_false by (rewrite Hh; done). cbn [orb andb].
  intros (pt' & Hp' & Hh' & _). cbn in Hp'. rewrite list_lookup_alter_eq, Hp in Hp'. cbn in Hp'. by simplify_eq.
Qed.

Lemma wf_set_states st l : forall c, wf c -> wf (set_states st l c).
Proof. induction l as [|q l IH]; intros c H; [done|]. cbn. by apply IH, wf_setState. Qed.

Lemma looks_hovered_set_normal l : forall c p, wf c ->
  looks_hovered (set_states Normal l c) p -> looks_hovered c p /\ p ∉ l.
Proof.
  induction l as [|q l IH]; intros c p Hw H; [split; [done|apply not_elem_of_nil]|].
  cbn in H. destruct (IH _ _ (wf_setState _ _ _ Hw) H) as [H1 H2].
  destruct (looks_hovered_normal _ _ _ Hw H1) as [H3 H4]. split; [done|]. by rewrite not_elem_of_cons.
Qed.

Lemma looks_hovered_set_hover l : forall c p,
  looks_hovered (set_states Hover l c) p -> looks_hovered c p \/ p ∈ l.
Proof.
  induction l as [|q l IH]; intros c p H; [by left|]. cbn in H.
  destruct (IH _ _ H) as [H1|H1]; [|right; by right].
  destruct (looks_hovered_setState _ _ _ _ H1) as [H2|[-> _]]; [by left|right; by left].
Qed.

(** [setState] changes points only. *)
Definition same_but_points (c c' : chart) : Prop := exists l, c' = with_points (fun _ => l) c.
Lemma setState_same st p c : same_but_points c (setState st p c).
Proof. destruct (setState_points st p c) as [->|(f & -> & _)]; destruct c; by eexists. Qed.
Lemma set_states_same st l : forall c, same_but_points c (set_states st l c).
Proof.
  induction l as [|q l IH]; intros c; [destruct c; by eexists|].
  change (same_but_points c (set_states st l (setState st q c))).
  destruct (IH (setState st q c)) as [l1 ->], (setState_same st q c) as [l2 ->]. by exists l1.
Qed.

(** ** The invariant *)

(** The chart knows the points that look hovered, and remembers none of a shared
    tooltip while the tooltip is hidden. *)
Definition known (c : chart) (p : nat) : Prop :=
  c_hoverPoint c = Some p \/ exists l, c_hoverPoints c = Some l /\ p ∈ l.
Record tidy (c : chart) : Prop := Tidy {
  tidy_wf : wf c;
  tidy_known p : looks_hovered c p -> known c p;
  tidy_hidden : c_tooltipIsHidden c = true -> c_hoverPoints c = None
}.

(** Operations that touch neither points, nor what is hovered, nor the tooltip's being
    hidden. *)
Lemma tidy_same c c' : c_points c' = c_points c -> length (c_series c') = length (c_series c) ->
  c_hoverPoint c' = c_hoverPoint c -> c_hoverPoints c' = c_hoverPoints c ->
  (c_tooltipIsHidden c' = true -> c_tooltipIsHidden c = true) -> tidy c -> tidy c'.
Proof.
  intros Ep Es Eh El Et [Hw Hk Hh]. split.
  - unfold wf. by rewrite Ep, Es.
  - intros p (pt & Hp & ?). unfold known. rewrite Eh, El. apply Hk. exists pt. by rewrite <-Ep.
  - intros Ht. rewrite El. by apply Hh, Et.
Qed.

Lemma tidy_onMouseOut h c : tidy c -> c_hoverPoint c = Some h -> tidy (onMouseOut h c).
Proof.
  intros [Hw Hk Hh] E. unfold onMouseOut. set (c1 := log _ c).
  assert (wf c1) as Hw1 by done. destruct (setState_same Normal h c1) as [l El].
  assert (wf (setState Normal h c1)) as Hw2 by (by apply wf_setState). split.
  - exact Hw2.
  - intros p Hp. assert (looks_hovered (setState Normal h c1) p) as Hp1 by exact Hp.
    apply looks_hovered_normal in Hp1 as [Hp1 Hne]; [|done]. destruct (Hk p Hp1) as [H|H].
    + rewrite H in E. by simplify_eq.
    + right. rewrite El. exact H.
  - rewrite El. exact Hh.
Qed.

Lemma tidy_hide c : tidy c -> tidy (hide c).
Proof.
  intros Ht. unfold hide. destruct (c_tooltipIsHidden c) eqn:E; [done|]. destruct Ht as [Hw Hk Hh].
  set (c1 := match c_hoverPoints c with Some l => set_states Normal l c | None => c end).
  assert (exists l, c1 = with_points (fun _ => l) c) as [l El].
  { subst c1. destruct (c_hoverPoints c); [apply set_states_same|destruct c; by eexists]. }
  split; [| |done].
  - assert (wf c1) as H; [|exact H]. subst c1. destruct (c_hoverPoints c); [by apply wf_set_states|done].
  - intros p Hp. assert (looks_hovered c1 p) as Hp1 by exact Hp.
    assert (c_hoverPoint (with_tooltip true (c_current (with_hoverPoints None c1))
      (c_tooltipTick (with_hoverPoints None c1)) (with_hoverPoints None c1)) = c_hoverPoint c) as Ehp by (by rewrite El).
    left. rewrite Ehp. subst c1. destruct (c_hoverPoints c) as [ps|] eqn:Eps.
    + apply looks_hovered_set_normal in Hp1 as [Hp1 Hn]; [|done].
      destruct (Hk p Hp1) as [H|(ps' & H & Hin)]; [done|]. rewrite Eps in H. by simplify_eq.
    + destruct (Hk p Hp1) as [H|(ps' & H & Hin)]; [done|]. by rewrite Eps in H.
Qed.

Lemma tidy_log e c : tidy c -> tidy (log e c).
Proof. by apply tidy_same. Qed.

Lemma move_same final c : exists cur tk, move final c = with_tooltip (c_tooltipIsHidden c) cur tk c.
Proof.
  unfold move. destruct final as [fx fy], (c_current c) as [cx cy].
  destruct (if c_tooltipIsHidden c then _ else _) as [x y]. by eexists _, _.
Qed.
Lemma tidy_move final c : tidy c -> tidy (move final c).
Proof. destruct (move_same final c) as (cur & tk & ->). by apply tidy_same. Qed.

(** The points of a shared tooltip change. *)
Lemma tidy_shared l c : tidy c ->
  let c1 := match c_hoverPoints c with Some old => set_states Normal old c | None => c end in
  let c2 := set_states Hover l (with_hoverPoints (Some l) c1) in
  wf c2 /\ (forall p, looks_hovered c2 p -> known c2 p).
Proof.
  intros [Hw Hk Hh] c1 c2.
  assert (wf c1 /\ (forall p, looks_hovered c1 p -> c_hoverPoint c = Some p) /\ same_but_points c c1) as (Hw1 & H1 & [l1 E1]).
  { subst c1. destruct (c_hoverPoints c) as [old|] eqn:E.
    - split_and!; [by apply wf_set_states| |apply set_states_same].
      intros p Hp. apply looks_hovered_set_normal in Hp as [Hp Hn]; [|done].
      destruct (Hk p Hp) as [H|(old' & H & Hin)]; [done|]. rewrite E in H. by simplify_eq.
    - split_and!; [done| |destruct c; by eexists].
      intros p Hp. destruct (Hk p Hp) as [H|(old' & H & Hin)]; [done|]. by rewrite E in H. }
  subst c2. clearbody c1. destruct (set_states_same Hover l (with_hoverPoints (Some l) c1)) as [l2 E2]. split.
  - by apply wf_set_states.
  - intros p Hp. apply looks_hovered_set_hover in Hp as [Hp|Hp].
    + left. rewrite E2, E1. cbn. apply H1. exact Hp.
    + right. exists l. by rewrite E2.
Qed.

Section reachable.
Context (pl : plot) (shared : bool) (text : list nat -> option string) (placed : string -> Z * Z -> Z * Z).
Context (hasTooltip hasTouch : bool) (chartWidth : Q).
(** A shared tooltip has something to say: its formatter never returns [false]. *)
Context (speaks : shared = true -> forall l, text l <> None).

Lemma tidy_refresh mouse t c c' : tidy c -> refresh pl shared text placed mouse t c = Ok c' -> tidy c'.
Proof.
  intros Ht. unfold refresh. destruct (places_of c (points_of t)) as [places|]; [|by destruct (head _)].
  destruct (head (points_of t)) as [first|]; [|done]. destruct (getAnchor _ _ _ _) as [x y].
  destruct t as [p|l].
  - destruct (shared && negb (noShared c p)); [done|]. cbn [mbind res_bind].
    destruct (text _) as [s|]; [|intros [= <-]; by apply tidy_hide].
    destruct (_ || _); intros [= <-]; [|by apply tidy_hide].
    eapply tidy_same, tidy_move, tidy_log, Ht; try done.
  - destruct shared eqn:Es; [|done]. cbn [andb negb mbind res_bind orb].
    destruct (text (points_of (Many l))) as [s|] eqn:Etext; [|by destruct (speaks eq_refl (points_of (Many l)))].
    cbn [andb]. intros [= <-]. destruct (tidy_shared l c Ht) as [H1 H2].
    set (c2 := set_states Hover l _) in *. clearbody c2.
    destruct (move_same (placed s (x, y)) (log (Shown s (placed s (x, y))) c2)) as (cur & tk & ->). by split.
Qed.

Lemma tidy_onMouseOver p c c' : tidy c -> onMouseOver pl shared text placed hasTooltip p c = Ok c' -> tidy c'.
Proof.
  intros Ht. unfold onMouseOver.
  set (c1 := match c_hoverPoint c with Some h => _ | None => c end).
  assert (tidy c1 /\ (c_hoverPoint c1 = None \/ c_hoverPoint c1 = Some p)) as [H1 E1].
  { subst c1. destruct (c_hoverPoint c) as [h|] eqn:E; [|by auto]. destruct (decide (h = p)) as [->|]; [by auto|].
    split; [by apply tidy_onMouseOut|by left]. }
  clearbody c1. apply (tidy_log (PointEvent "mouseOver" p)) in H1. set (c2 := log _ c1) in *.
  assert (c_hoverPoint c2 = None \/ c_hoverPoint c2 = Some p) as E2 by exact E1. clearbody c2. clear c1 E1.
  assert (forall c3, tidy c3 -> (c_hoverPoint c3 = None \/ c_hoverPoint c3 = Some p) ->
            tidy (with_hoverPoint (Some p) (setState Hover p c3))) as Hend.
  { intros c3 [Hw Hk Hh] E3. destruct (setState_same Hover p c3) as [l El]. split.
    - assert (wf (setState Hover p c3)) as H by (by apply wf_setState). exact H.
    - intros q Hq. assert (looks_hovered (setState Hover p c3) q) as Hq' by exact Hq.
      apply looks_hovered_setState in Hq' as [Hq'|[-> _]]; [|by left].
      destruct (Hk q Hq') as [H|H]; [|right; rewrite El; exact H].
      destruct E3 as [E3|E3]; rewrite E3 in H; [done|]. left. exact H.
    - rewrite El. exact Hh. }
  destruct (hasTooltip && _); cbn [mbind res_bind].
  - destruct (refresh pl shared text placed None (One p) c2) as [c3|] eqn:Er; [|done]. cbn. intros [= <-].
    apply Hend; [by eapply tidy_refresh|].
    assert (c_hoverPoint c3 = c_hoverPoint c2) as ->; [|done].
    clear -Er. revert Er. unfold refresh. destruct (places_of _ _); [|done]. cbn [points_of head].
    destruct (getAnchor _ _ _ _) as [x y]. destruct (shared && _); [done|]. cbn [mbind res_bind].
    assert (c_hoverPoint (hide c2) = c_hoverPoint c2) as Eh.
    { unfold hide. destruct (c_tooltipIsHidden c2); [done|]. destruct (c_hoverPoints c2); [|done].
      by destruct (set_states_same Normal l0 c2) as [l1 ->]. }
    destruct (text _) as [s|]; [|by intros [= <-]]. destruct (_ || _); intros [= <-]; [|done].
    by destruct (move_same (placed s (x, y)) (log (Shown s (placed s (x, y))) c2)) as (cur & tk & ->).
  - intros [= <-]. by apply Hend.
Qed.

Lemma tidy_series_upd s f c : tidy c -> tidy (upd_series s f c).
Proof. apply tidy_same; try done. cbn. by rewrite length_alter. Qed.

Lemma tidy_unhover c : tidy c -> tidy (match c_hoverPoint c with Some h => onMouseOut h c | None => c end).
Proof. intros H. destruct (c_hoverPoint c) eqn:E; [by apply tidy_onMouseOut|done]. Qed.

Lemma tidy_series_onMouseOut s c : tidy c -> tidy (series_onMouseOut shared hasTooltip s c).
Proof.
  intros H. unfold series_onMouseOut. apply (tidy_same (series_setState Normal s
    (if hasTooltip && negb (match c_series (log (SeriesEvent "mouseOut" s)
       match c_hoverPoint c with Some h => onMouseOut h c | None => c end) !! s with
       | Some x => so_stickyTracking (se_options x) | None => false end) && negb shared
     then hide (log (SeriesEvent "mouseOut" s) match c_hoverPoint c with Some h => onMouseOut h c | None => c end)
     else log (SeriesEvent "mouseOut" s) match c_hoverPoint c with Some h => onMouseOut h c | None => c end)));
    try done.
  apply tidy_series_upd. destruct (_ && _); [apply tidy_hide|]; by apply tidy_log, tidy_unhover.
Qed.

Lemma tidy_series_onMouseOver s c : tidy c -> tidy (series_onMouseOver shared hasTooltip hasTouch s c).
Proof.
  intros H. unfold series_onMouseOver. destruct (negb hasTouch && c_mouseIsDown c); [done|].
  set (c1 := match c_hoverSeries c with Some h => _ | None => c end).
  assert (tidy c1) as H1.
  { subst c1. destruct (c_hoverSeries c); [|done]. destruct (decide _); [done|]. by apply tidy_series_onMouseOut. }
  apply (tidy_same (series_setState Hover s (log (SeriesEvent "mouseOver" s) c1))); try done.
  by apply tidy_series_upd, tidy_log.
Qed.

Lemma tidy_full_reset c : tidy c -> tidy (full_reset shared hasTooltip c).
Proof.
  intros H. unfold full_reset. apply tidy_unhover in H.
  set (c1 := match c_hoverPoint c with Some p => _ | None => c end) in *. clearbody c1.
  set (c2 := match c_hoverSeries c with Some s => _ | None => c1 end).
  assert (tidy c2) as H2 by (subst c2; destruct (c_hoverSeries c); [by apply tidy_series_onMouseOut|done]).
  clearbody c2. apply (tidy_same (if hasTooltip then hide c2 else c2)); try done.
  destruct hasTooltip; [by apply tidy_hide|done].
Qed.

Lemma tidy_onmousemove mouse index c c' : tidy c ->
  onmousemove pl shared text placed hasTooltip chartWidth mouse index c = Ok c' -> tidy c'.
Proof.
  intros H. unfold onmousemove.
  set (hs := s ← c_hoverSeries c; c_series c !! s). clearbody hs.
  match goal with |- (?m ≫= _) = _ -> _ => assert (forall c1, m = Ok c1 -> tidy c1) as H1 end.
  { intros c1. destruct (_ && _ && _); [|by intros [= <-]].
    destruct (points_at c index (c_series c)) as [l|]; [|done]. cbn [mbind res_bind].
    destruct (nearest_points chartWidth l) as [|first rest]; [by intros [= <-]|].
    destruct (match c_hoverX c with Some x => _ | None => _ end); [by intros [= <-]|].
    destruct (refresh _ _ _ _ _ _ _) as [c2|] eqn:Er; [|done]. cbn. intros [= <-].
    apply (tidy_same c2); try done. by eapply tidy_refresh. }
  destruct (if hasTooltip && _ && _ then _ else _) as [c1|]; [|done]. cbn [mbind res_bind].
  specialize (H1 c1 eq_refl). destruct hs as [x|]; [|by intros [= <-]].
  destruct (so_tracker _); [|by intros [= <-]]. destruct (se_tooltipPoints x !! index) as [p|]; [|by intros [= <-]].
  destruct (decide _); [by intros [= <-]|]. by apply tidy_onMouseOver.
Qed.

Lemma tidy_resetTracker allowMove c c' : tidy c ->
  resetTracker pl shared text placed hasTooltip allowMove c = Ok c' -> tidy c'.
Proof.
  intros H. unfold resetTracker. destruct (if allowMove && hasTooltip then _ else _) as [t|].
  - destruct (head _) as [p|]; [|done]. destruct (bool_decide _); [by apply tidy_refresh|].
    intros [= <-]. by apply tidy_full_reset.
  - intros [= <-]. by apply tidy_full_reset.
Qed.

Lemma tidy_relaid places pixels c : tidy c -> tidy (relaid places pixels c).
Proof.
  intros [Hw Hk Hh]. split; [| |done].
  - unfold wf, relaid in *. cbn. rewrite length_imap. apply Forall_lookup. intros i pt.
    rewrite list_lookup_imap. destruct (c_points c !! i) as [pt0|] eqn:E; [|done]. intros [= <-].
    exact (Forall_lookup_1 _ _ _ _ Hw E).
  - intros p (pt & Hp & Hs & Hn). cbn in Hp. rewrite list_lookup_imap in Hp.
    destruct (c_points c !! p) as [pt0|] eqn:E; [|done]. cbn in Hp. apply Hk. exists pt0. injection Hp as <-. done.
Qed.

(** Selecting and unselecting one point: the state follows. *)
Lemma tidy_selected (v : bool) p c : tidy c -> tidy (setState (if v then Select else Normal) p (set_selected v p c)).
Proof.
  intros [Hw Hk Hh]. set (c1 := set_selected v p c).
  assert (wf c1) as Hw1 by (apply Forall_alter_same; done).
  destruct (setState_same (if v then Select else Normal) p c1) as [l El].
  split; [by apply wf_setState| |rewrite El; exact Hh].
  intros q Hq. assert (looks_hovered c q) as Hq0.
  { assert (looks_hovered c1 q /\ (q = p -> v = true)) as [(pt & Hp & Hs & Hn) Hv].
    { destruct v.
      - by apply looks_hovered_setState in Hq as [?|[_ ?]].
      - apply looks_hovered_normal in Hq as [? ?]; [|done]. done. }
    subst c1. cbn in Hp. destruct (decide (q = p)) as [->|Hne].
    - rewrite list_lookup_alter_eq in Hp. destruct (c_points c !! p) as [pt0|]; simplify_eq/=.
      by specialize (Hv eq_refl).
    - rewrite list_lookup_alter_ne in Hp by done. by exists pt. }
  unfold known. rewrite El. exact (Hk q Hq0).
Qed.

Lemma tidy_unselect_others p l : forall c, tidy c -> tidy (fold_left (fun c q => unselect_other p q c) l c).
Proof.
  induction l as [|q l IH]; intros c H; [done|]. cbn. apply IH. unfold unselect_other.
  destruct (c_points c !! q) as [pt|]; [|done]. destruct (_ && _); [|done].
  apply tidy_log. by apply (tidy_selected false).
Qed.

Lemma tidy_select veto selected accumulate p c : tidy c -> tidy (select veto selected accumulate p c).
Proof.
  intros H. unfold select. destruct (c_points c !! p) as [pt|]; [|done].
  set (v := default (negb (pt_selected pt)) selected). destruct veto; [by apply tidy_log|].
  set (c1 := log _ c). assert (tidy (setState (if v then Select else Normal) p (set_selected v p c1))) as H1
    by (apply tidy_selected; by apply tidy_log).
  destruct accumulate; [done|]. by apply tidy_unselect_others.
Qed.

Lemma tidy_setVisible ignoreHidden vis s c : tidy c -> tidy (setVisible ignoreHidden vis s c).
Proof.
  intros H. unfold setVisible. destruct (c_series c !! s) as [x|]; [|done].
  set (c1 := upd_series s _ c). assert (tidy c1) as H1 by (by apply tidy_series_upd).
  set (c2 := if so_stacking (se_options x) then _ else c1).
  assert (tidy c2) as H2.
  { subst c2. destruct (so_stacking _); [|done]. revert H1. apply tidy_same; try done. cbn. by rewrite length_map. }
  destruct ignoreHidden; [|done]. revert H2. by apply tidy_same.
Qed.

Lemma tidy_pan c : tidy c -> tidy (pan_unhover c).
Proof.
  intros [Hw Hk Hh]. unfold pan_unhover. destruct (c_hoverPoints c) as [l|] eqn:E; [|split; try done; by rewrite E].
  destruct (set_states_same Normal l c) as [l1 El]. split.
  - by apply wf_set_states.
  - intros p Hp. apply looks_hovered_set_normal in Hp as [Hp _]; [|done].
    unfold known. rewrite El. exact (Hk p Hp).
  - rewrite El. cbn. rewrite E. exact Hh.
Qed.

Lemma step_tidy c c' : step pl shared text placed hasTooltip hasTouch chartWidth c c' -> tidy c -> tidy c'.
Proof.
  destruct 1; intros Ht.
  - by apply tidy_series_onMouseOver.
  - by apply tidy_series_onMouseOut.
  - by eapply tidy_onMouseOver.
  - by eapply tidy_onmousemove.
  - by apply tidy_full_reset.
  - unfold hideTooltipOnMouseMove. match goal with |- context [match ?o with Some _ => _ | None => c end] => destruct o as [x|] end; [|done]. destruct (_ && _); [by apply tidy_full_reset|done].
  - eapply tidy_resetTracker; [|done]. by apply tidy_relaid.
  - unfold tick. destruct (c_tooltipTick c); [by apply tidy_move|done].
  - by apply tidy_select.
  - unfold click_point. destruct (options_of c p); [|done]. destruct (so_allowPointSelect _); [|by apply tidy_log].
    by apply tidy_select, tidy_log.
  - unfold series_select. destruct (c_series c !! s); [|done]. by apply tidy_log, tidy_series_upd.
  - by apply tidy_setVisible.
  - by apply tidy_pan.
Qed.

Lemma steps_tidy c c' :
  rtc (step pl shared text placed hasTooltip hasTouch chartWidth) c c' -> tidy c -> tidy c'.
Proof. induction 1 as [|c1 c2 c3 H _ IH]; intros Ht; [done|]. by eapply IH, step_tidy. Qed.
End reachable.

(** A chart just drawn: nothing is hovered, the tooltip is hidden. *)
Definition drawn (points : list (nat * option place)) (l : list series) : chart :=
  Chart (map (fun p => Point p.1 Normal false p.2) points) l None None None true (0, 0)%Q None (Some None) false
    false [].

Lemma tidy_drawn points l : Forall (fun p => (p.1 < length l)%nat) points -> tidy (drawn points l).
Proof.
  intros H. split; [by apply Forall_fmap| |done]. intros p (pt & Hp & Hs & _). cbn in Hp.
  rewrite list_lookup_fmap in Hp. destruct (points !! p); [|done]. injection Hp as <-. done.
Qed.

Lemma hide_hover c : c_hoverPoint (hide c) = c_hoverPoint c /\ c_hoverSeries (hide c) = c_hoverSeries c.
Proof.
  unfold hide. destruct (c_tooltipIsHidden c); [done|]. destruct (c_hoverPoints c) as [l|]; [|done].
  by destruct (set_states_same Normal l c) as [l1 ->].
Qed.
Lemma hide_hidden c : c_tooltipIsHidden (hide c) = true.
Proof. unfold hide. by destruct (c_tooltipIsHidden c) eqn:E. Qed.

Lemma onMouseOut_fields h c : c_hoverPoint (onMouseOut h c) = None /\ c_hoverSeries (onMouseOut h c) = c_hoverSeries c.
Proof.
  unfold onMouseOut. destruct (setState_same Normal h (log (PointEvent "mouseOut" h) c)) as [l ->]. done.
Qed.

(** After a full reset nothing is hovered. *)
Lemma full_reset_fields shared c :
  let c' := full_reset shared true c in
  c_hoverPoint c' = None /\ c_hoverSeries c' = None /\ c_tooltipIsHidden c' = true.
Proof.
  cbn zeta. unfold full_reset.
  set (c1 := match c_hoverPoint c with Some p => _ | None => c end).
  assert (c_hoverPoint c1 = None /\ c_hoverSeries c1 = c_hoverSeries c) as [H1 H1'].
  { subst c1. destruct (c_hoverPoint c) eqn:E; [apply onMouseOut_fields|done]. }
  set (c2 := match c_hoverSeries c with Some s => _ | None => c1 end).
  assert (c_hoverPoint c2 = None /\ c_hoverSeries c2 = None) as [H2 H2'].
  { subst c2. destruct (c_hoverSeries c) as [s|]; [|by rewrite H1, H1'].
    unfold series_onMouseOut. rewrite H1. split; [|done]. cbn.
    destruct (negb _ && _); [|done]. rewrite (proj1 (hide_hover _)). exact H1. }
  clearbody c2. destruct (hide_hover c2) as [H3 H3']. split_and!.
  - cbn. by rewrite H3.
  - cbn. by rewrite H3'.
  - cbn. apply hide_hidden.
Qed.

(** C15: In a chart with a tooltip, whose formatter never answers [false] if the tooltip is
    shared: whatever the mouse did over the chart, whatever was selected, hidden, redrawn or
    panned, when the mouse leaves, the chart holds no hovered point, points or series any
    more, the tooltip is hidden, and no point that is not selected looks hovered. *)
Theorem leaving_clears pl shared text placed hasTouch chartWidth points l c :
  (shared = true -> forall ps, text ps <> None) -> Forall (fun p => (p.1 < length l)%nat) points ->
  rtc (step pl shared text placed true hasTouch chartWidth) (drawn points l) c ->
  let c' := hideTooltipOnMouseLeave shared true c in
  c_hoverPoint c' = None /\ c_hoverSeries c' = None /\ c_hoverPoints c' = None /\
  c_tooltipIsHidden c' = true /\ forall p, ~ looks_hovered c' p.
Proof.
  intros Hs Hp Hr. cbn zeta. unfold hideTooltipOnMouseLeave.
  destruct (full_reset_fields shared c) as (H1 & H2 & H3).
  assert (tidy (full_reset shared true c)) as [Hw Hk Hh].
  { apply tidy_full_reset. eapply steps_tidy; [done..|]. by apply tidy_drawn. }
  specialize (Hh H3). split_and!; [done..|]. intros p Hl. destruct (Hk p Hl) as [H|(ps & H & _)].
  - by rewrite H1 in H.
  - by rewrite Hh in H.
Qed.

Definition demo_series (pixels : list nat) : series :=
  Series (SeriesOptions None None (Some (MarkerOptions true None None)) false true true true true false true false)
    true false Normal false pixels.
Definition demo_chart : chart :=
  drawn [(0%nat, Some (Place 0 5 None None)); (0%nat, Some (Place 10 8 None None))] [demo_series [0; 0; 1; 1]%nat].

Lemma leaving_clears_witness :
  let pl := Plot 20 20 false in
  let text := fun _ => Some "text"%string in
  let placed := fun (_ : string) p => p in
  exists c, onmousemove pl true text placed true 20 None 2 demo_chart = Ok c /\ looks_hovered c 1 /\
    forall p, ~ looks_hovered (hideTooltipOnMouseLeave true true c) p.
Proof.
  eexists. split; [reflexivity|]. split; [eexists; repeat split|].
  eapply (leaving_clears (Plot 20 20 false) true (fun _ => Some "text"%string) (fun _ p => p) false 20
    [(0%nat, Some (Place 0 5 None None)); (0%nat, Some (Place 10 8 None None))] [demo_series [0; 0; 1; 1]%nat]).
  - done.
  - repeat constructor.
  - apply rtc_once. eapply (step_mousemove _ _ _ _ _ _ _ _ None 2). reflexivity.
Defined.

(** Where markers are not drawn for selected points, a point that is selected while it
    is hovered looks hovered after the mouse has left. *)
Example selected_stays_hovered :
  let off := Series (SeriesOptions None None (Some (MarkerOptions true None (Some false))) false true true true true
                       false true false) true false Normal false [0%nat] in
  let c := drawn [(0%nat, Some (Place 0 5 None None))] [off] in
  let c := with_hoverPoint (Some 0%nat) (setState Hover 0 c) in
  map pt_state (c_points (hideTooltipOnMouseLeave false true (click_point false false 0 c))) = [Hover].
Proof. vm_compute. done. Qed.

(** The points of a shared tooltip whose formatter returns [false] stay hovered. *)
Example silent_stays_hovered :
  match onmousemove (Plot 20 20 false) true (fun _ => None) (fun _ p => p) true 20 None 2 demo_chart with
  | Ok c => map pt_state (c_points (hideTooltipOnMouseLeave true true c)) = [Normal; Hover]
  | Throw _ => False
  end.
Proof. vm_compute. done. Qed.

(** Leaving a series that was not entered, the mouse being down, forgets the one that
    is hovered. *)
Example other_series_forgotten :
  let c := drawn [] [demo_series []; demo_series []] in
  let c := series_onMouseOut false true 1 (series_onMouseOver false true false 0 c) in
  c_hoverSeries c = None /\ map se_state (c_series c) = [Hover; Normal].
Proof. vm_compute. done. Qed.

(** ** Selecting *)

Definition is_selected (c : chart) (p : nat) : bool :=
  match c_points c !! p with Some pt => pt_selected pt | None => false end.

Lemma is_selected_setState st q c p : is_selected (setState st q c) p = is_selected c p.
Proof.
  destruct (setState_points st q c) as [->|(f & -> & _ & Hs & _)]; [done|]. unfold is_selected. cbn.
  destruct (decide (p = q)) as [->|Hne].
  - rewrite list_lookup_alter_eq. destruct (c_points c !! q); cbn; [apply Hs|done].
  - by rewrite list_lookup_alter_ne.
Qed.
Lemma is_selected_set v q c p : (q < length (c_points c))%nat ->
  is_selected (set_selected v q c) p = if decide (p = q) then v else is_selected c p.
Proof.
  intros Hq. unfold is_selected. cbn. destruct (decide (p = q)) as [->|Hne].
  - rewrite list_lookup_alter_eq. destruct (lookup_lt_is_Some_2 _ _ Hq) as [pt ->]. done.
  - by rewrite list_lookup_alter_ne.
Qed.
Lemma is_selected_lt c p : is_selected c p = true -> (p < length (c_points c))%nat.
Proof. unfold is_selected. destruct (c_points c !! p) eqn:E; [|done]. intros _. by eapply lookup_lt_Some. Qed.

Lemma is_selected_other p q c r :
  is_selected (unselect_other p q c) r = is_selected c r && negb (bool_decide (r = q /\ q <> p)).
Proof.
  unfold unselect_other. destruct (c_points c !! q) as [pt|] eqn:E.
  - assert (is_selected c q = pt_selected pt) as Eq by (unfold is_selected; by rewrite E).
    apply lookup_lt_Some in E. destruct (pt_selected pt && bool_decide (q <> p)) eqn:Eb.
    + apply andb_true_iff in Eb as [Es Ep]. apply bool_decide_eq_true in Ep.
      change (is_selected (setState Normal q (set_selected false q c)) r = is_selected c r && negb (bool_decide (r = q /\ q <> p))).
      rewrite is_selected_setState, is_selected_set by done. destruct (decide (r = q)) as [->|Hne].
      * rewrite bool_decide_true by done. by rewrite andb_false_r.
      * rewrite bool_decide_false by naive_solver. by rewrite andb_true_r.
    + destruct (decide (r = q /\ q <> p)) as [[-> Hne]|Hn].
      * rewrite Eq. rewrite (bool_decide_true (q <> p)) in Eb by done. rewrite andb_true_r in Eb. by rewrite Eb.
      * rewrite bool_decide_false by done. by rewrite andb_true_r.
  - destruct (decide (r = q)) as [->|Hne].
    + unfold is_selected. by rewrite E.
    + rewrite bool_decide_false by naive_solver. by rewrite andb_true_r.
Qed.

Lemma is_selected_others p l : forall c r,
  is_selected (fold_left (fun c q => unselect_other p q c) l c) r
  = is_selected c r && negb (bool_decide (r ∈ l /\ r <> p)).
Proof.
  induction l as [|q l IH]; intros c r; cbn [fold_left].
  - rewrite bool_decide_false; [by rewrite andb_true_r|]. intros [H _]. by apply not_elem_of_nil in H.
  - rewrite IH, is_selected_other. rewrite <-andb_assoc. f_equal. rewrite <-negb_orb. f_equal.
    apply Bool.eq_true_iff_eq. rewrite orb_true_iff, !bool_decide_eq_true, elem_of_cons.
    split; [intros [[-> ?]|[? ?]]; auto|intros [[->|?] ?]; auto].
Qed.

Lemma in_getSelectedPoints c r : r ∈ getSelectedPoints c <-> is_selected c r = true.
Proof.
  unfold getSelectedPoints. rewrite list_elem_of_In, filter_In, <-list_elem_of_In, elem_of_seq.
  split; [by intros [_ H]|]. intros H. split; [|done]. pose proof (is_selected_lt c r H). lia.
Qed.

Lemma log_selected e c r : is_selected (log e c) r = is_selected c r.
Proof. done. Qed.

(** Selecting or unselecting a point, unless a handler prevents it, gives it the
    selection asked for, or the other one when none is asked for, and leaves the other
    points selected as they were when it accumulates, and else none of them selected:
    at most one point is selected then. *)
Theorem select_alone selected accumulate p c pt : c_points c !! p = Some pt ->
  let v := default (negb (pt_selected pt)) selected in
  let c' := select false selected accumulate p c in
  is_selected c' p = v /\ forall q, q <> p -> is_selected c' q = accumulate && is_selected c q.
Proof.
  intros Hp v c'. pose proof (lookup_lt_Some _ _ _ Hp) as Hlt. unfold c', select. rewrite Hp. fold v.
  set (c1 := log _ c). set (c2 := setState _ p (set_selected v p c1)).
  assert (forall q, is_selected c2 q = if decide (q = p) then v else is_selected c q) as H2.
  { intros q. subst c2. rewrite is_selected_setState, is_selected_set by exact Hlt. done. }
  clearbody c2. destruct accumulate.
  - split; [by rewrite H2, decide_True|]. intros q Hq. by rewrite H2, decide_False.
  - split; [|intros q Hq]; rewrite is_selected_others.
    + rewrite bool_decide_false by naive_solver. by rewrite andb_true_r, H2, decide_True.
    + cbn. destruct (is_selected c2 q) eqn:E; [|done]. apply in_getSelectedPoints in E.
      by rewrite bool_decide_true.
Qed.

Lemma select_alone_witness :
  let c := select false (Some true) true 0 demo_chart in
  is_selected (select false None false 1 c) 1 = true /\ is_selected (select false None false 1 c) 0 = false.
Proof.
  intros c. destruct (select_alone None false 1 c (Point 0 Normal false (Some (Place 10 8 None None))) eq_refl) as [H1 H2].
  split; [exact H1|]. apply (H2 0%nat). discriminate.
Defined.

(** ** The tooltip arrives *)

Definition near (fx fy : Z) (d : Q) (c : chart) : Prop :=
  (Qabs (inject_Z fx - fst (c_current c)) <= d)%Q /\ (Qabs (inject_Z fy - snd (c_current c)) <= d)%Q.

Lemma Qabs_scale (a x y : Q) : (0 <= a)%Q -> (x == a * y)%Q -> (Qabs x == a * Qabs y)%Q.
Proof. intros Ha ->. by rewrite Qabs_Qmult, (Qabs_pos a). Qed.

(** One move takes away a third of the way, or half of it. *)
Lemma move_near fx fy c d : c_tooltipIsHidden c = false -> near fx fy d c ->
  near fx fy ((2 # 3) * d) (move (fx, fy) c) /\ c_tooltipIsHidden (move (fx, fy) c) = false /\
  (c_tooltipTick (move (fx, fy) c) = Some (fx, fy) \/
   c_tooltipTick (move (fx, fy) c) = None /\ near fx fy 1 (move (fx, fy) c)).
Proof.
  intros Hh [Hx Hy]. unfold move. rewrite Hh. destruct (c_current c) as [cx cy]. cbn [fst snd] in *.
  set (x := inject_Z fx) in *. set (y := inject_Z fy) in *. unfold near. cbn [c_current fst snd with_tooltip c_tooltipTick c_tooltipIsHidden].
  fold x y.
  assert (Qabs (x - (2 * cx + x) / 3) == (2 # 3) * Qabs (x - cx))%Q as Ex by (apply Qabs_scale; [discriminate|field]).
  assert (Qabs (y - (cy + y) / 2) == (1 # 2) * Qabs (y - cy))%Q as Ey by (apply Qabs_scale; [discriminate|field]).
  pose proof (Qabs_nonneg (x - cx)). pose proof (Qabs_nonneg (y - cy)).
  split; [split; [rewrite Ex|rewrite Ey]; lra|]. split; [done|].
  destruct (Qlt_b 1 _) eqn:E1; [by left|]. destruct (Qlt_b 1 (Qabs (y - (cy + y) / 2))) eqn:E2; [by left|]. right.
  apply Qlt_b_false in E1, E2. by split_and!.
Qed.

Lemma ticks_near fx fy (k : positive) n : forall c, c_tooltipIsHidden c = false ->
  c_tooltipTick c = Some (fx, fy) -> near fx fy (inject_Z (Z.pos k)) c ->
  let c' := Nat.iter n tick c in
  (c_tooltipTick c' = None /\ near fx fy 1 c') \/
  (c_tooltipTick c' = Some (fx, fy) /\ c_tooltipIsHidden c' = false /\
   exists d, (d * inject_Z (2 + Z.of_nat n) <= 2 * inject_Z (Z.pos k))%Q /\ (0 <= d)%Q /\ near fx fy d c').
Proof.
  intros c Hh Ht Hn. induction n as [|n IH]; cbn [Nat.iter].
  - right. split_and!; [done..|]. exists (inject_Z (Z.pos k)). split_and!; [|discriminate|done].
    cbn. rewrite Qmult_comm. apply Qle_refl.
  - change (Nat.iter (S n) tick c) with (tick (Nat.iter n tick c)). set (c1 := Nat.iter n tick c) in *. clearbody c1.
    unfold tick. destruct IH as [[IH1 IH2]|(IH1 & IH2 & d & Hd & H0 & IH3)]; rewrite IH1; [by left|].
    destruct (move_near fx fy c1 d IH2 IH3) as (M1 & M2 & [M3|[M3 M4]]); [|by left].
    right. split_and!; [done..|]. exists ((2 # 3) * d)%Q. split_and!; [|lra|done].
    apply (Qle_trans _ (d * inject_Z (2 + Z.of_nat n))); [|done].
    rewrite !inject_Z_plus, Nat2Z.inj_succ, <-Z.add_1_r, inject_Z_plus.
    assert (0 <= inject_Z (Z.of_nat n))%Q as Hz by (unfold Qle; cbn; lia).
    pose proof (Qmult_le_0_compat _ _ H0 Hz). change (inject_Z 2) with 2%Q. change (inject_Z 1) with 1%Q. lra.
Qed.

(** The tooltip arrives: moved by nothing but its ticks it has stopped after twice as
    many ticks as it had pixels to go in either direction, within a pixel of its place
    (and not always on it). *)
Theorem tooltip_arrives fx fy (k : positive) c : c_tooltipIsHidden c = false ->
  c_tooltipTick c = Some (fx, fy) -> near fx fy (inject_Z (Z.pos k)) c ->
  let c' := Nat.iter (2 * Pos.to_nat k) tick c in
  c_tooltipTick c' = None /\ near fx fy 1 c'.
Proof.
  intros Hh Ht Hn. cbn zeta. replace (2 * Pos.to_nat k)%nat with (S (2 * Pos.to_nat k - 1)) by lia.
  set (n := (2 * Pos.to_nat k - 1)%nat).
  change (Nat.iter (S n) tick c) with (tick (Nat.iter n tick c)).
  pose proof (ticks_near fx fy k n c Hh Ht Hn) as H. cbn zeta in H. set (c1 := Nat.iter n tick c) in *. clearbody c1.
  unfold tick. destruct H as [[H1 H2]|(H1 & H2 & d & Hd & H0 & H3)]; rewrite H1; [done|].
  - destruct (move_near fx fy c1 d H2 H3) as ([M1 M1'] & M2 & [M3|M3]); [|done].
    exfalso. assert ((2 # 3) * d < 1)%Q as Hlt.
    { apply Qnot_le_lt. intros Hge. assert ((3 # 2) <= d)%Q as Hd2 by lra.
      replace (2 + Z.of_nat n) with (2 * Z.pos k + 1) in Hd by lia.
      rewrite inject_Z_plus, inject_Z_mult in Hd. change (inject_Z 2) with 2%Q in Hd. change (inject_Z 1) with 1%Q in Hd.
      assert (1 <= inject_Z (Z.pos k))%Q as Hk by (unfold Qle; cbn; lia).
      set (q := inject_Z (Z.pos k)) in *. clearbody q. nra. }
    revert M3. unfold move in M1, M1' |- *. rewrite H2 in *. destruct (c_current c1) as [cx cy].
    cbn [c_current fst snd with_tooltip c_tooltipTick] in *.
    replace (Qlt_b 1 _) with false by (symmetry; apply Qlt_b_false; lra).
    replace (Qlt_b 1 _) with false by (symmetry; apply Qlt_b_false; lra). done.
Qed.

Lemma tooltip_arrives_witness :
  let c := with_tooltip false (0, 0)%Q (Some (10, 6)) demo_chart in
  c_tooltipTick (Nat.iter 20 tick c) = None /\ near 10 6 1 (Nat.iter 20 tick c).
Proof.
  intros c. apply (tooltip_arrives 10 6 10 c); [done..|]. split; discriminate.
Defined.

(** It stops short of its place. *)
Example tooltip_short :
  let c := Nat.iter 9 tick (with_tooltip false (0, 0)%Q (Some (2, 0)) demo_chart) in
  c_tooltipTick c = None /\ negb (Qeq_bool (fst (c_current c)) 2) = true.
Proof. vm_compute. done. Qed.
