(* ===== verification/HsMouse.v ===== *)
(** * Charts: the mouse over the plot

    [highstock.src.js]: the handlers the [MouseTracker] puts on the container
    ([setDOMEvents]): pressing, moving and releasing the mouse, the selection marker and
    the zooming it ends in ([drop], [chart.zoom], [zoomOut]), clicks
    ([getMouseCoordinates]).

    Places of the mouse are whole pixels, as [normalizeMouseEvent] rounds them; the
    length of a drag is kept as its square. What moving does to tooltips is in
    [HsHover], what panning does in [HsOrdinal]. *)

From Stdlib Require Import QArith Qround Qminmax Qabs Lqa.
From S2P Require Import Prelude JsString HsAxis HsOrdinal HsExtremes HsScale.
Local Open Scope list_scope.
Local Open Scope Z_scope.

(** ** The chart as the tracker sees it *)

Record axis := Axis {
  a_isXAxis : bool;
  a_zoomEnabled : bool;                  (* options.zoomEnabled !== false *)
  a_back : Q -> option Q                 (* translate(pixel, true, 0, 0, 1) *)
}.
Record mouse_options := MouseOptions {
  mo_plotLeft : Z; mo_plotTop : Z; mo_plotWidth : Z; mo_plotHeight : Z;
  mo_inverted : bool; mo_hasCartesianSeries : bool; mo_panning : bool;
  mo_zoomX : bool; mo_zoomY : bool;
  mo_axes : list axis
}.

Record box := Box { b_x : Z; b_y : Z; b_width : Z; b_height : Z }.
Record mouse := Mouse {
  m_isDown : bool; m_cancelClick : bool;
  m_downX : Z; m_downY : Z;
  m_hasDragged : Z;                      (* the square; 0 is false *)
  m_marker : option box;
  m_listening : bool                     (* drop is bound *)
}.

(** What the handlers ask of the rest of the chart. *)
Inductive request :=
| Pan (chartX : Z)
| Track (chartX chartY : Z)              (* onmousemove *)
| Selection (xAxis yAxis : list (nat * Q * Q)).

Section tracker.
Context (o : mouse_options).

Definition isInsidePlot (x y : Z) : bool :=
  (0 <=? x) && (x <=? mo_plotWidth o) && (0 <=? y) && (y <=? mo_plotHeight o).
Definition zoomHor : bool := (mo_zoomX o && negb (mo_inverted o)) || (mo_zoomY o && mo_inverted o).
Definition zoomVert : bool := (mo_zoomY o && negb (mo_inverted o)) || (mo_zoomX o && mo_inverted o).

(** [container.onmousedown] *)
Definition onmousedown (chartX chartY : Z) (m : mouse) : mouse :=
  Mouse true false chartX chartY (m_hasDragged m) (m_marker m) true.

(** The places outside the plot go to its edge. *)
Definition hold (first size v : Z) : Z := if v <? first then first else if first + size <? v then first + size else v.

Definition with_width (x w : Z) (b : box) : box := Box x (b_y b) w (b_height b).
Definition with_height (y h : Z) (b : box) : box := Box (b_x b) y (b_width b) h.

(** The marker after a move that is a drag. *)
Definition drag_marker (chartX chartY : Z) (clickedInside : bool) (m : mouse) : option box :=
  let marker := match m_marker m with
                | Some b => Some b
                | None =>
                    if mo_hasCartesianSeries o && (mo_zoomX o || mo_zoomY o) && clickedInside
                    then Some (Box (mo_plotLeft o) (mo_plotTop o) (if zoomHor then 1 else mo_plotWidth o)
                                 (if zoomVert then 1 else mo_plotHeight o))
                    else None
                end in
  let xSize := chartX - m_downX m in
  let marker := if zoomHor then with_width ((if 0 <? xSize then 0 else xSize) + m_downX m) (Z.abs xSize) <$> marker
                else marker in
  let ySize := chartY - m_downY m in
  if zoomVert then with_height ((if 0 <? ySize then 0 else ySize) + m_downY m) (Z.abs ySize) <$> marker
  else marker.

(** [mouseMove]; [touchstart] is the type of the event. *)
Definition mouseMove (touchstart : bool) (chartX chartY : Z) (m : mouse) : mouse * list request :=
  let isOutsidePlot := negb (isInsidePlot (chartX - mo_plotLeft o) (chartY - mo_plotTop o)) in
  let chartX' := if isOutsidePlot then hold (mo_plotLeft o) (mo_plotWidth o) chartX else chartX in
  let chartY' := if isOutsidePlot then hold (mo_plotTop o) (mo_plotHeight o) chartY else chartY in
  if m_isDown m && negb touchstart then
    let hasDragged := (m_downX m - chartX') * (m_downX m - chartX') + (m_downY m - chartY') * (m_downY m - chartY') in
    if 10 * 10 <? hasDragged then
      let clickedInside := isInsidePlot (m_downX m - mo_plotLeft o) (m_downY m - mo_plotTop o) in
      let marker := drag_marker chartX' chartY' clickedInside m in
      (Mouse true (m_cancelClick m) (m_downX m) (m_downY m) hasDragged marker (m_listening m),
       if clickedInside && negb (bool_decide (is_Some marker)) && mo_panning o then [Pan chartX'] else [])
    else (Mouse true (m_cancelClick m) (m_downX m) (m_downY m) hasDragged (m_marker m) (m_listening m), [])
  else (m, if isOutsidePlot then [] else [Track chartX chartY]).

(** [drop]: the ranges of the axes under the marker. *)
Definition isHorizontal (a : axis) : bool := if mo_inverted o then negb (a_isXAxis a) else a_isXAxis a.
Definition selection_ends (b : box) (a : axis) : Q * Q :=
  let selectionLeft := b_x b - mo_plotLeft o in
  let selectionTop := b_y b - mo_plotTop o in
  if isHorizontal a then (inject_Z selectionLeft, inject_Z (selectionLeft + b_width b))
  else (inject_Z (mo_plotHeight o - selectionTop - b_height b), inject_Z (mo_plotHeight o - selectionTop)).
Definition selection_of (b : box) (a : axis) : option (Q * Q) :=
  if a_zoomEnabled a then
    let '(p, q) := selection_ends b a in
    selectionMin ← a_back a p; selectionMax ← a_back a q;
    Some (Qmin selectionMin selectionMax, Qmax selectionMin selectionMax)
  else None.
Fixpoint selections (b : box) (isX : bool) (i : nat) (l : list axis) : list (nat * Q * Q) :=
  match l with
  | [] => []
  | a :: rest =>
      (if bool_decide (a_isXAxis a = isX) then
         match selection_of b a with Some (p, q) => [(i, p, q)] | None => [] end
       else []) ++ selections b isX (S i) rest
  end.
Definition drop (m : mouse) : mouse * list request :=
  let requests :=
    match m_marker m with
    | Some b =>
        if m_hasDragged m =? 0 then []
        else
          let xs := selections b true 0 (mo_axes o) in
          let ys := selections b false 0 (mo_axes o) in
          match xs ++ ys with [] => [] | _ => [Selection xs ys] end
    | None => []
    end in
  (Mouse false (negb (m_hasDragged m =? 0)) (m_downX m) (m_downY m) 0 None false, requests).

(** The mouse is released, anywhere on the page. *)
Definition mouseup (m : mouse) : mouse * list request := if m_listening m then drop m else (m, []).

(** [container.onclick]: what is told of the click; [onTracker] is a click on a tracker
    with a point hovered. *)
Inductive clicked := ClickPoint | ClickChart (coordinates : list (option Q)) | NoClick.
Definition mouse_coordinate (chartX chartY : Z) (a : axis) (back : Q -> option Q) : option Q :=
  back (inject_Z (if isHorizontal a then chartX - mo_plotLeft o
                  else mo_plotHeight o - chartY + mo_plotTop o)).
Definition onclick (onTracker : bool) (chartX chartY : Z) (m : mouse) : clicked :=
  if m_cancelClick m then NoClick
  else if onTracker then ClickPoint
  else if isInsidePlot (chartX - mo_plotLeft o) (chartY - mo_plotTop o)
  then ClickChart (map (fun a => mouse_coordinate chartX chartY a (a_back a)) (mo_axes o))
  else NoClick.
End tracker.

(** ** Zooming *)

Record zoom_state := ZoomState {
  z_button : bool;                                   (* resetZoomButton *)
  z_extremes : list (nat * option Q * option Q);     (* the calls of setExtremes *)
  z_redraws : nat
}.
(** [chart.zoom]; [None] is a call without an argument. [enabled] is
    [resetZoomEnabled !== false]. *)
Definition zoom (o : mouse_options) (enabled : bool) (selection : option (list (nat * Q * Q) * list (nat * Q * Q)))
    (z : zoom_state) : zoom_state :=
  let calls :=
    match selection with
    | None =>
        map (fun ia : nat * axis => (ia.1, None, None))
          (List.filter (fun ia => a_zoomEnabled ia.2) (imap pair (mo_axes o)))
    | Some (xs, ys) =>
        (if mo_zoomX o then map (fun s : nat * Q * Q => (s.1.1, Some s.1.2, Some s.2)) xs else []) ++
        (if mo_zoomY o then map (fun s : nat * Q * Q => (s.1.1, Some s.1.2, Some s.2)) ys else [])
    end in
  ZoomState (enabled || z_button z) (z_extremes z ++ calls)
    (z_redraws z + match calls with [] => 0 | _ => 1 end).

(** [zoomOut]: the button there was is destroyed, the event's default is [zoom()]. *)
Definition zoomOut (o : mouse_options) (enabled veto : bool) (z : zoom_state) : zoom_state :=
  let had := z_button z in
  let z := if veto then z else zoom o enabled None z in
  if had then ZoomState false (z_extremes z) (z_redraws z) else z.

(** Zooming out of a chart that is not zoomed shows a button to zoom out. *)
Example zoomOut_shows_button o :
  z_button (zoomOut o true false (ZoomState false [] 0)) = true.
Proof. done. Qed.

(** A move of one pixel between pressing and releasing takes the click away. *)
Example one_pixel_no_click o : mo_plotLeft o = 0 -> mo_plotTop o = 0 -> mo_plotWidth o = 100 -> mo_plotHeight o = 100 ->
  let m := onmousedown 50 50 (Mouse false false 0 0 0 None false) in
  let m := fst (mouseMove o false 51 50 m) in
  onclick o true 51 50 (fst (mouseup o m)) = NoClick.
Proof. intros H1 H2 H3 H4. unfold mouseMove, isInsidePlot. rewrite H1, H2, H3, H4. done. Qed.

(** ** The marker stays on the plot *)

Section reachable.
Context (o : mouse_options).

(** The mouse is pressed when it is not down: every release is seen. *)
Inductive step (m : mouse) : mouse -> Prop :=
| step_press x y : m_isDown m = false -> step m (onmousedown x y m)
| step_move touchstart x y : step m (fst (mouseMove o touchstart x y m))
| step_release : step m (fst (mouseup o m)).

Definition still : mouse := Mouse false false 0 0 0 None false.

Definition in_plot (x y : Z) : Prop :=
  mo_plotLeft o <= x <= mo_plotLeft o + mo_plotWidth o /\ mo_plotTop o <= y <= mo_plotTop o + mo_plotHeight o.
Lemma isInsidePlot_spec x y : isInsidePlot o (x - mo_plotLeft o) (y - mo_plotTop o) = true <-> in_plot x y.
Proof. unfold isInsidePlot, in_plot. rewrite !andb_true_iff, !Z.leb_le. lia. Qed.

Record on_plot (b : box) : Prop := {
  on_left : mo_plotLeft o <= b_x b; on_width : 0 <= b_width b;
  on_right : b_x b + b_width b <= mo_plotLeft o + mo_plotWidth o;
  on_top : mo_plotTop o <= b_y b; on_height : 0 <= b_height b;
  on_bottom : b_y b + b_height b <= mo_plotTop o + mo_plotHeight o
}.
Record steady (m : mouse) : Prop := {
  steady_up : m_isDown m = false -> m_marker m = None;
  steady_marker b : m_marker m = Some b -> in_plot (m_downX m) (m_downY m) /\ on_plot b
}.

Lemma hold_inside first size v : 0 <= size -> first <= hold first size v <= first + size.
Proof. intros H. unfold hold. repeat case_match; zbool; lia. Qed.

Lemma drag_marker_on_plot x y m b : steady m -> in_plot x y ->
  drag_marker o x y (isInsidePlot o (m_downX m - mo_plotLeft o) (m_downY m - mo_plotTop o)) m = Some b ->
  in_plot (m_downX m) (m_downY m) /\ on_plot b.
Proof.
  intros [_ Hm] Hxy. unfold drag_marker.
  set (b0 := match m_marker m with Some b => Some b | None => _ end).
  set (b1 := if zoomHor o then _ <$> b0 else b0). intros Hb.
  assert (exists c0 c1, b0 = Some c0 /\ b1 = Some c1) as (c0 & c1 & E0 & E1).
  { destruct (zoomVert o).
    - destruct b1 as [c1|] eqn:E1; [|done]. subst b1. destruct (zoomHor o); destruct b0 as [c0|]; try done; by eexists _, _.
    - exists (default b b0), b. subst b1. destruct (zoomHor o); destruct b0 as [c0|]; try done; by split. }
  assert (in_plot (m_downX m) (m_downY m) /\
          (zoomHor o = true \/ mo_plotLeft o <= b_x c0 /\ 0 <= b_width c0 /\ b_x c0 + b_width c0 <= mo_plotLeft o + mo_plotWidth o) /\
          (zoomVert o = true \/ mo_plotTop o <= b_y c0 /\ 0 <= b_height c0 /\ b_y c0 + b_height c0 <= mo_plotTop o + mo_plotHeight o))
    as (Hd & Hx & Hy).
  { subst b0. destruct (m_marker m) as [b'|] eqn:Em.
    - injection E0 as ->. destruct (Hm _ eq_refl) as [Hd []]. split; [done|]. split; right; done.
    - destruct (_ && isInsidePlot _ _ _) eqn:Ei; [|done]. injection E0 as <-. apply andb_true_iff in Ei as [_ Ei].
      apply isInsidePlot_spec in Ei. split; [done|]. destruct Ei as [Ex Ey]. cbn.
      split; [destruct (zoomHor o)|destruct (zoomVert o)]; try (by left); right; lia. }
  split; [done|]. destruct Hd as [Hdx Hdy], Hxy as [Hxx Hxy].
  assert (mo_plotLeft o <= b_x c1 /\ 0 <= b_width c1 /\ b_x c1 + b_width c1 <= mo_plotLeft o + mo_plotWidth o /\
          b_y c1 = b_y c0 /\ b_height c1 = b_height c0) as (H1 & H2 & H3 & H4 & H5).
  { subst b1. rewrite E0 in E1. destruct (zoomHor o) eqn:Ez.
    - injection E1 as <-. cbn. destruct (0 <? x - m_downX m) eqn:?; zbool; split_and!; lia.
    - injection E1 as <-. destruct Hx as [Hx|Hx]; [done|]. split_and!; lia. }
  rewrite E1 in Hb. destruct (zoomVert o) eqn:Ez.
  - injection Hb as <-. split; cbn; try lia; destruct (0 <? y - m_downY m) eqn:?; zbool; lia.
  - injection Hb as <-. destruct Hy as [Hy|Hy]; [done|]. split; lia.
Qed.

Lemma mouseMove_place x y : 0 <= mo_plotWidth o -> 0 <= mo_plotHeight o ->
  let out := negb (isInsidePlot o (x - mo_plotLeft o) (y - mo_plotTop o)) in
  in_plot (if out then hold (mo_plotLeft o) (mo_plotWidth o) x else x)
          (if out then hold (mo_plotTop o) (mo_plotHeight o) y else y).
Proof.
  intros Hw Hh. destruct (isInsidePlot o _ _) eqn:E; cbn [negb].
  - by apply isInsidePlot_spec.
  - split; by apply hold_inside.
Qed.

Lemma step_steady m m' : 0 <= mo_plotWidth o -> 0 <= mo_plotHeight o -> step m m' -> steady m -> steady m'.
Proof.
  intros Hw Hh [x y Hd|touchstart x y|] Hs.
  - split; [done|]. cbn. rewrite (steady_up m Hs Hd). done.
  - unfold mouseMove. pose proof (mouseMove_place x y Hw Hh) as Hp. cbn zeta in Hp.
    set (x' := if negb _ then hold _ _ x else x) in *. set (y' := if negb _ then hold _ _ y else y) in *.
    destruct (m_isDown m && negb touchstart); [|done]. destruct (10 * 10 <? _); cbn [fst].
    + split; [done|]. cbn. intros b Hb. by eapply drag_marker_on_plot.
    + split; [done|]. cbn. intros b Hb. by apply (steady_marker m Hs).
  - unfold mouseup. destruct (m_listening m); [|done]. by split.
Qed.

Lemma steps_steady m : 0 <= mo_plotWidth o -> 0 <= mo_plotHeight o -> rtc step still m -> steady m.
Proof.
  intros Hw Hh Hr. assert (steady still) as Hs by done. revert Hs.
  induction Hr as [|m1 m2 m3 H _ IH]; intros Hs; [done|]. by eapply IH, step_steady.
Qed.
End reachable.

(** ** What a selection asks for *)

(** An axis of the chart without logarithms, whose state is that of [HsScale]. *)
Record shown_by (a : axis) (log2lin lin2log : Q -> Q) (ao : axis_options) (s0 : axis_state) (min max : Q) : Prop := {
  sh_back p : a_back a p =
    translate log2lin lin2log ao (with_translation (setAxisTranslation ao s0) s0) p true false false true;
  sh_fits : fits ao s0 min max;
  sh_plain : plain_axis ao true;
  sh_order : (min < max)%Q
}.

(** The pixels of an axis are values from its start to its end and, where points have a
    width, that of one more. *)
Lemma back_range a l1 l2 ao s0 min max u : shown_by a l1 l2 ao s0 min max ->
  (0 <= u <= m_len (s_metrics s0))%Q -> (0 < m_len (s_metrics s0))%Q ->
  exists v, a_back a u = Some v /\ (min <= v <= max + pointRange ao s0)%Q.
Proof.
  intros [Hb Hf Hp Ho] [H0 H1] Hl. rewrite Hb. destruct (setAxisTranslation_eq ao s0 min max Hf) as [Ha _]. cbn zeta in Ha.
  pose proof (pointRange_nonneg ao s0) as Hr. unfold translate. unfold plain_axis in Hp. rewrite Hp.
  change (r_min (s_ranges (with_translation (setAxisTranslation ao s0) s0))) with (r_min (s_ranges s0)).
  rewrite (fit_min _ _ _ _ Hf). cbn [mbind option_bind].
  change (s_translation (with_translation (setAxisTranslation ao s0) s0)) with (setAxisTranslation ao s0).
  change (m_len (s_metrics (with_translation (setAxisTranslation ao s0) s0))) with (m_len (s_metrics s0)).
  set (A := t_transA (setAxisTranslation ao s0)) in *. set (len := m_len (s_metrics s0)) in *.
  set (w := (max - min + pointRange ao s0)%Q). assert (0 < w)%Q as Hw by (subst w; lra).
  assert (A == len / w)%Q as EA.
  { rewrite Ha. unfold whole. fold w. destruct (Qeq_bool w 0) eqn:E; [apply Qeq_bool_iff in E; lra|reflexivity]. }
  assert (~ w == 0)%Q as Hwn by (intros E; rewrite E in Hw; by apply Qlt_irrefl in Hw).
  assert (~ len == 0)%Q as Hln by (intros E; rewrite E in Hl; by apply Qlt_irrefl in Hl).
  assert (~ A == 0)%Q as HA.
  { intros E. rewrite EA in E. apply Hln. assert (len == len / w * w)%Q as E2 by (by field).
    rewrite E in E2. rewrite E2. ring. }
  rewrite <-Qeq_bool_iff, not_true_iff_false in HA. rewrite !HA. apply Qeq_bool_neq in HA.
  assert (forall u', 0 <= u' -> u' <= len -> min <= u' / A + min /\ u' / A + min <= max + pointRange ao s0)%Q as Hin.
  { intros u' Hu0 Hu1. assert (u' / A == u' / len * w)%Q as -> by (rewrite EA; by field).
    assert (0 <= u' / len)%Q by (apply Qle_shift_div_l; lra).
    assert (u' / len <= 1)%Q by (apply Qle_shift_div_r; lra).
    assert (w == max - min + pointRange ao s0)%Q as Ew by reflexivity.
    set (t := (u' / len)%Q) in *. clearbody t w. nra. }
  destruct (o_reversed ao); (eexists; split; [reflexivity|]); apply Hin; lra.
Qed.

Lemma selections_in o b isX l : forall i x, x ∈ selections o b isX i l ->
  exists k a p q, l !! k = Some a /\ x = ((i + k)%nat, p, q) /\ selection_of o b a = Some (p, q).
Proof.
  induction l as [|a l IH]; intros i x H; cbn [selections] in H; [by apply not_elem_of_nil in H|].
  apply elem_of_app in H as [H|H].
  - exists 0%nat, a. rewrite Nat.add_0_r. destruct (bool_decide _); [|by apply not_elem_of_nil in H].
    destruct (selection_of o b a) as [[p q]|]; [|by apply not_elem_of_nil in H].
    apply list_elem_of_singleton in H as ->. by exists p, q.
  - destruct (IH (S i) x H) as (k & a' & p & q & Hk & -> & Hs). exists (S k), a', p, q.
    split; [done|]. split; [|done]. do 2 f_equal. lia.
Qed.


Section demo.
Let s0 : axis_state :=
  AxisState (Metrics 10 10 300 200 10 10 300) (Extremes None None false false false ∅)
    (Ranges (Some 0%Q) (Some 4%Q) None None None MRUndef) (Translation 0 None 0 0 0 None)
    (TickState 1 None None [] None) None [SeriesInfo 0 (Some 1) false (OrdinalSeries true [])] None None.
Let ao : axis_options :=
  AxisOptions true true false false false false None None None None None 0 0 None false None 100 true false false no_size.
Let a : axis :=
  Axis true true (fun p => translate id id ao (with_translation (setAxisTranslation ao s0) s0) p true false false true).
Let o : mouse_options := MouseOptions 10 10 300 200 false true false true false [a].
Let m : mouse := fst (mouseMove o false 170 30 (onmousedown 20 20 still)).

Lemma demo_steps : rtc (step o) still m.
Proof. eapply rtc_l; [apply (step_press o still 20 20 eq_refl)|]. apply rtc_once. apply (step_move o _ false 170 30). Qed.

Lemma demo_shown : shown_by a id id ao s0 0 4.
Proof. split; done. Qed.

End demo.

(** Dragging more than ten pixels from one place of the plot to another, in a chart
    that can be zoomed, selects the box between the two places, over the whole height
    or width where that direction is not zoomed; the release asks for the ranges of the
    axes under this box, takes the marker away and cancels the click. *)
Theorem drag_selects o m x0 y0 x1 y1 :
  steady o m -> m_isDown m = false -> in_plot o x0 y0 -> in_plot o x1 y1 ->
  10 * 10 < (x0 - x1) * (x0 - x1) + (y0 - y1) * (y0 - y1) ->
  mo_hasCartesianSeries o = true -> mo_zoomX o || mo_zoomY o = true ->
  let b := Box (if zoomHor o then Z.min x0 x1 else mo_plotLeft o) (if zoomVert o then Z.min y0 y1 else mo_plotTop o)
             (if zoomHor o then Z.abs (x1 - x0) else mo_plotWidth o)
             (if zoomVert o then Z.abs (y1 - y0) else mo_plotHeight o) in
  let xs := selections o b true 0 (mo_axes o) in
  let ys := selections o b false 0 (mo_axes o) in
  let '(m', requests) := mouseup o (fst (mouseMove o false x1 y1 (onmousedown x0 y0 m))) in
  requests = match xs ++ ys with [] => [] | _ => [Selection xs ys] end /\
  m_isDown m' = false /\ m_marker m' = None /\ m_cancelClick m' = true.
Proof.
  intros Hs Hup H0 H1 Hd Hc Hz b xs ys. unfold mouseMove.
  apply isInsidePlot_spec in H0. rewrite (proj2 (isInsidePlot_spec o x1 y1) H1). cbn [negb].
  cbn [m_isDown onmousedown andb m_downX m_downY m_marker m_listening m_cancelClick].
  rewrite H0. rewrite (proj2 (Z.ltb_lt _ _) Hd). cbn [fst mouseup m_listening drop m_marker m_hasDragged].
  replace (_ + _ =? 0) with false by (symmetry; apply Z.eqb_neq; lia).
  assert (drag_marker o x1 y1 true (onmousedown x0 y0 m) = Some b) as ->.
  { unfold drag_marker. cbn [m_marker onmousedown m_downX m_downY]. rewrite (steady_up o m Hs Hup), Hc, Hz. cbn [andb].
    subst b. clear. destruct (zoomHor o), (zoomVert o); cbn; unfold with_width, with_height; cbn; f_equal; f_equal;
      repeat match goal with |- context [0 <? ?x] => destruct (Z.ltb_spec 0 x) end; lia. }
  cbn [negb]. split_and!; done.
Qed.

Lemma drag_selects_witness :
  let a := Axis true true (fun p => Some p) in
  let o := MouseOptions 10 10 300 200 false true false true false [a] in
  let '(m', requests) := mouseup o (fst (mouseMove o false 20 30 (onmousedown 170 20 still))) in
  requests = [Selection [(0%nat, 10%Q, 160%Q)] []] /\ m_cancelClick m' = true.
Proof.
  intros a o. pose proof (drag_selects o still 170 20 20 30) as H.
  destruct H as (H1 & H2 & H3 & H4); [done|done| | |done|done|done|exact (conj H1 H4)].
  - split; cbn; lia.
  - split; cbn; lia.
Defined.
