(* ===== verification/HsLegend.v ===== *)
(** * Charts: the legend and the margins

    [highstock.src.js]: the layout of the legend ([Legend.render], [renderItem]), its
    pages when it is too high ([handleOverflow], [scroll]), where elements are aligned
    ([SVGElement.align]) and the margins that keep the plot clear of titles, legend and
    labels ([getMargins], [resetMargins]).

    The sizes of texts are measured by the browser and are part of the items. Numbers
    are rational; the elements themselves are not modelled. *)

From stdpp Require Import sorting.
From Stdlib Require Import QArith Qround Qminmax Qabs Lqa.
From S2P Require Import Prelude JsString HsAxis HsScale HsText.
Local Open Scope list_scope.
Local Open Scope Z_scope.

(** [x || d] *)
Definition or_q (x : option Q) (d : Q) : Q :=
  match x with Some v => if Qeq_bool v 0 then d else v | None => d end.

(** ** Layout *)

Record legend_options := LegendOptions {
  lo_horizontal : bool; lo_reversed : bool; lo_rtl : bool;
  lo_symbolWidth : Q; lo_symbolPadding : Q; lo_padding : Q;
  lo_width : option Q; lo_itemWidth : option Q;
  lo_itemMarginTop : Q; lo_itemMarginBottom : Q;
  lo_border : bool;                        (* borderWidth || backgroundColor *)
  lo_y : Q; lo_alignTop : bool; lo_maxHeight : option Q
}.

(** A series or a point in the legend, with the size of its text. *)
Record item := Item {
  it_index : option Z;                     (* legendIndex *)
  it_width : Q; it_height : Q; it_checkbox : bool
}.

(** The running layout. *)
Record layout := Layout {
  l_itemX : Q; l_itemY : Q; l_offsetWidth : Q; l_lastItemY : Q; l_lastLineHeight : Q; l_maxItemWidth : Q
}.
(** An item in its place. *)
Record placed := Placed { p_x : Q; p_y : Q; p_w : Q; p_h : Q }.

Section legend.
Context (o : legend_options) (chartWidth : Q).

Definition initialItemX : Q := lo_padding o.
Definition initialItemY : Q := (lo_padding o - 5)%Q.

Definition item_width (it : item) : Q :=
  or_q (lo_itemWidth o)
    (lo_symbolWidth o + lo_symbolPadding o + it_width it + lo_padding o + (if it_checkbox it then 20 else 0))%Q.
(** The width there is for the items of a line. *)
Definition line_width : Q := or_q (lo_width o) (chartWidth - 2 * lo_padding o - initialItemX)%Q.

Definition renderItem (it : item) (l : layout) : layout * placed :=
  let itemWidth := item_width it in
  let itemHeight := it_height it in
  let l := if lo_horizontal o && Qlt_b line_width (l_itemX l - initialItemX + itemWidth)
           then Layout initialItemX (l_itemY l + (lo_itemMarginTop o + l_lastLineHeight l + lo_itemMarginBottom o))%Q
                  (l_offsetWidth l) (l_lastItemY l) 0 (l_maxItemWidth l)
           else l in
  let lastItemY := (lo_itemMarginTop o + l_itemY l + lo_itemMarginBottom o)%Q in
  let lastLineHeight := Qmax itemHeight (l_lastLineHeight l) in
  let p := Placed (l_itemX l) (l_itemY l) itemWidth itemHeight in
  let '(itemX, itemY, lastLineHeight) :=
    if lo_horizontal o then ((l_itemX l + itemWidth)%Q, l_itemY l, lastLineHeight)
    else (l_itemX l, (l_itemY l + (lo_itemMarginTop o + itemHeight + lo_itemMarginBottom o))%Q, itemHeight) in
  let offsetWidth := or_q (lo_width o)
    (Qmax (if lo_horizontal o then itemX - initialItemX else itemWidth) (l_offsetWidth l))%Q in
  (Layout itemX itemY offsetWidth lastItemY lastLineHeight (Qmax (l_maxItemWidth l) itemWidth), p).

Fixpoint renderItems (items : list item) (l : layout) : layout * list placed :=
  match items with
  | [] => (l, [])
  | it :: rest =>
      let '(l, p) := renderItem it l in
      let '(l, ps) := renderItems rest l in
      (l, p :: ps)
  end.

(** The items in their order; [sort] is the host's. *)
Definition by_index (a b : item) : Z := default 0 (it_index a) - default 0 (it_index b).
Definition allItems (sort : (item * nat -> item * nat -> Z) -> list (item * nat) -> list (item * nat)) (items : list item)
    : list item :=
  let l := stableSort sort by_index items in
  if lo_reversed o then rev l else l.

(** Rendering starts at the top again, with the height of the last line and the widest
    item there were. *)
Definition start_layout (l : layout) : layout :=
  Layout initialItemX initialItemY 0 0 (l_lastLineHeight l) (l_maxItemWidth l).
Definition new_layout : layout := Layout 0 0 0 0 0 0.

(** ** Pages *)

Record pages := Pages {
  pg_nav : bool;                           (* the arrows exist *)
  pg_currentPage : option Z; pg_pageCount : Z; pg_clipHeight : Q; pg_fullHeight : Q;
  pg_translateY : Q                        (* of the scrolled items *)
}.

(** [scroll] *)
Definition scroll (scrollBy : Z) (g : pages) : pages :=
  let currentPage := default 0 (pg_currentPage g) + scrollBy in
  let currentPage := if pg_pageCount g <? currentPage then pg_pageCount g else currentPage in
  if 0 <? currentPage then
    Pages (pg_nav g) (Some currentPage) (pg_pageCount g) (pg_clipHeight g) (pg_fullHeight g)
      (- Qmin (pg_clipHeight g * inject_Z (currentPage - 1)) (pg_fullHeight g - pg_clipHeight g + lo_padding o) + 1)%Q
  else g.

Definition spaceHeight (spacingBoxHeight : Q) : Q :=
  let s := (spacingBoxHeight + (if lo_alignTop o then - lo_y o else lo_y o) - lo_padding o)%Q in
  let s := if lo_horizontal o then (s / 2)%Q else s in
  match lo_maxHeight o with Some m => if Qeq_bool m 0 then s else Qmin s m | None => s end.

(** [handleOverflow]: the height of the legend, and its pages. *)
Definition handleOverflow (spacingBoxHeight legendHeight : Q) (g : pages) : Q * pages :=
  let space := spaceHeight spacingBoxHeight in
  if Qlt_b space legendHeight then
    let clipHeight := (space - 20)%Q in
    let g := Pages true (Some (default 1 (pg_currentPage g))) (Qceiling (legendHeight / clipHeight)) clipHeight
               legendHeight (pg_translateY g) in
    (space, scroll 0 g)
  else (legendHeight,
        if pg_nav g then Pages true (pg_currentPage g) (pg_pageCount g) (pg_clipHeight g) (pg_fullHeight g) 1 else g).

(** [render]: the size of the legend and the places of the items. *)
Record rendered := Rendered { r_width : Q; r_height : Q; r_items : list placed; r_layout : layout; r_pages : pages }.
Definition render sort (spacingBoxHeight : Q) (items : list item) (l : layout) (g : pages) : rendered :=
  let '(l, ps) := renderItems (allItems sort items) (start_layout l) in
  let legendWidth := or_q (lo_width o) (l_offsetWidth l) in
  let '(legendHeight, g) := handleOverflow spacingBoxHeight (l_lastItemY l + l_lastLineHeight l)%Q g in
  let extra := if lo_border o then lo_padding o else 0%Q in
  Rendered (legendWidth + extra)%Q (legendHeight + extra)%Q ps l g.

(** [positionItem]: where the group of an item goes, and its check box. *)
Definition positionItem (legendWidth : Q) (p : placed) : Q * Q :=
  (if lo_rtl o then (legendWidth - p_x p - 2 * lo_symbolPadding o - 4)%Q else p_x p, p_y p).
Definition positionCheckbox (translateX translateY : Q) (p : placed) : Q * Q :=
  ((translateX + p_w p + p_x p - 20)%Q, (translateY + p_y p + 3)%Q).
End legend.

(** ** Alignment and margins *)

Inductive side := AtLeft | AtRight | AtCenter.
Inductive vside := AtTop | AtBottom | AtMiddle.
Record rect := Rect { x_ : Q; y_ : Q; w_ : Q; h_ : Q }.

(** [SVGElement.align]: something [width] wide and [height] high in a box. *)
Definition align (a : side) (v : vside) (x y width height : Q) (b : rect) : Z * Z :=
  let left_ := (x_ b + x)%Q in
  let top := (y_ b + y)%Q in
  let left_ := match a with
               | AtLeft => left_
               | AtRight => left_ + (w_ b - width)
               | AtCenter => left_ + (w_ b - width) / 2
               end%Q in
  let top := match v with
             | AtTop => top
             | AtBottom => top + (h_ b - height)
             | AtMiddle => top + (h_ b - height) / 2
             end%Q in
  (mathRound left_, mathRound top).

Record spacing := Spacing { sp_top : Q; sp_right : Q; sp_bottom : Q; sp_left : Q }.
(** The margins of the options, where they are given. *)
Record given_margins := GivenMargins {
  g_top : option Q; g_right : option Q; g_bottom : option Q; g_left : option Q
}.
Record margins := Margins { m_plotTop : Q; m_right : Q; m_bottom : Q; m_plotLeft : Q }.

Definition resetMargins (sp : spacing) (g : given_margins) : margins :=
  Margins (default (sp_top sp) (g_top g)) (default (sp_right sp) (g_right g)) (default (sp_bottom sp) (g_bottom g))
    (default (sp_left sp) (g_left g)).

(** The title or subtitle: [None] where it takes no room of its own. *)
Definition title_offset (has : bool) (floating verticalAlign : bool) (y : option Q) : Q :=
  if has && negb floating && negb verticalAlign then default 0%Q y else 0%Q.

Record legend_place := LegendPlace {
  lp_display : bool; lp_floating : bool; lp_align : side; lp_verticalAlign : vside;
  lp_x : Q; lp_y : Q; lp_margin : Q; lp_width : Q; lp_height : Q
}.
Definition title_margin (sp : spacing) (g : given_margins) (hasTitle : bool) (titleOffset margin : Q) (m : margins) : margins :=
  if hasTitle && negb (bool_decide (is_Some (g_top g))) && negb (Qeq_bool titleOffset 0)
  then Margins (Qmax (m_plotTop m) (titleOffset + margin + sp_top sp)) (m_right m) (m_bottom m) (m_plotLeft m)
  else m.
Definition legend_margin (sp : spacing) (g : given_margins) (l : legend_place) (m : margins) : margins :=
  if lp_display l && negb (lp_floating l) then
    match lp_align l with
    | AtRight =>
        if bool_decide (is_Some (g_right g)) then m
        else Margins (m_plotTop m) (Qmax (m_right m) (lp_width l - lp_x l + lp_margin l + sp_right sp)) (m_bottom m) (m_plotLeft m)
    | AtLeft =>
        if bool_decide (is_Some (g_left g)) then m
        else Margins (m_plotTop m) (m_right m) (m_bottom m) (Qmax (m_plotLeft m) (lp_width l + lp_x l + lp_margin l + sp_left sp))
    | AtCenter =>
        match lp_verticalAlign l with
        | AtTop =>
            if bool_decide (is_Some (g_top g)) then m
            else Margins (Qmax (m_plotTop m) (lp_height l + lp_y l + lp_margin l + sp_top sp)) (m_right m) (m_bottom m) (m_plotLeft m)
        | AtBottom =>
            if bool_decide (is_Some (g_bottom g)) then m
            else Margins (m_plotTop m) (m_right m) (Qmax (m_bottom m) (lp_height l - lp_y l + lp_margin l + sp_bottom sp)) (m_plotLeft m)
        | AtMiddle => m
        end
    end
  else m.

(** [getMargins], up to [setChartSize] (see [HsScale]); [axisOffset] is what the labels
    of the axes need: top, right, bottom, left. *)
Record offsets := Offsets { of_top : Q; of_right : Q; of_bottom : Q; of_left : Q }.
Definition axis_margin (g : given_margins) (axisOffset : offsets) (m : margins) : margins :=
  let add (given : option Q) (v offset : Q) := if bool_decide (is_Some given) then v else (v + offset)%Q in
  Margins (add (g_top g) (m_plotTop m) (of_top axisOffset)) (add (g_right g) (m_right m) (of_right axisOffset))
    (add (g_bottom g) (m_bottom m) (of_bottom axisOffset)) (add (g_left g) (m_plotLeft m) (of_left axisOffset)).
Definition getMargins (sp : spacing) (g : given_margins) (hasTitle : bool) (title subtitle titleMargin : Q)
    (l : legend_place) (extraTop extraBottom : Q) (axisOffset : offsets) : margins :=
  let m := resetMargins sp g in
  let m := title_margin sp g hasTitle (Qmax title subtitle) titleMargin m in
  let m := legend_margin sp g l m in
  let m := Margins (m_plotTop m + extraTop) (m_right m) (m_bottom m + extraBottom) (m_plotLeft m) in
  axis_margin g axisOffset m.

Definition spacingBox (sp : spacing) (chartWidth chartHeight : Q) : rect :=
  Rect (sp_left sp) (sp_top sp) (chartWidth - sp_left sp - sp_right sp) (chartHeight - sp_top sp - sp_bottom sp).

(** The box of the plot, as [setChartSize] rounds it. *)
Definition plot_box (chartWidth chartHeight : Q) (m : margins) : rect :=
  let c := setChartSize (ChartMetrics (m_plotLeft m) (m_plotTop m) 0 0 chartWidth chartHeight None None) (m_right m) (m_bottom m) in
  Rect (cm_plotLeft c) (cm_plotTop c) (cm_plotWidth c) (cm_plotHeight c).

(** Rendering again starts with the last line height there was: two small items do not
    stand where they stood at first. *)
Example line_height_kept :
  let o := LegendOptions true false false 10 2 8 None None 0 0 false 0 false None in
  let small := Item None 70 10 false in
  let big := Item None 70 30 false in
  let ys items l := let '(l, ps) := renderItems o 120 items (start_layout o l) in (map (fun p => Qred (p_y p)) ps, l) in
  let '(first, _) := ys [small; small] new_layout in
  let '(_, l) := ys [big] new_layout in
  first = [3; 13]%Q /\ fst (ys [small; small] l) = [3; 33]%Q.
Proof. vm_compute. done. Qed.

(** ** Items stand apart *)

Section facts.
Context (o : legend_options) (chartWidth : Q).
Context (top_ok : (0 <= lo_itemMarginTop o)%Q) (bottom_ok : (0 <= lo_itemMarginBottom o)%Q).

Definition sized (it : item) : Prop := (0 <= item_width o it)%Q /\ (0 <= it_height it)%Q.
Definition inner_x : Q := initialItemX o.

(** Beside each other on a line, or one line below the other. *)
Definition apart (p q : placed) : Prop :=
  (p_y p == p_y q /\ p_x p + p_w p <= p_x q)%Q \/ (p_y p + p_h p <= p_y q)%Q.
Definition fits_line (p : placed) : Prop :=
  lo_horizontal o = true -> p_x p = inner_x \/ (p_x p - inner_x + p_w p <= line_width o chartWidth)%Q.

(** What holds of the items placed when the layout has come to [l]. *)
Record laid (l : layout) (ps : list placed) : Prop := {
  laid_line : (0 <= l_lastLineHeight l)%Q;
  laid_x : (inner_x <= l_itemX l)%Q /\ (lo_horizontal o = false -> l_itemX l = inner_x);
  laid_before p : p ∈ ps ->
    (lo_horizontal o = true /\ p_y p == l_itemY l /\ p_x p + p_w p <= l_itemX l /\ p_h p <= l_lastLineHeight l)%Q \/
    (p_y p + p_h p <= l_itemY l)%Q;
  laid_height p : p ∈ ps -> (p_y p + p_h p <= l_lastItemY l + l_lastLineHeight l)%Q;
  laid_width p : p ∈ ps -> lo_width o = None -> (p_x p + p_w p <= inner_x + l_offsetWidth l)%Q;
  laid_left p : p ∈ ps -> (inner_x <= p_x p)%Q;
  laid_fits p : p ∈ ps -> fits_line p;
  laid_apart : StronglySorted apart ps
}.

Lemma StronglySorted_snoc {A} (R : A -> A -> Prop) l x :
  StronglySorted R l -> Forall (fun y => R y x) l -> StronglySorted R (l ++ [x]).
Proof.
  induction 1 as [|y l Hl IH Hy]; intros H; [repeat constructor|]. inversion H; subst. cbn. constructor.
  - by apply IH.
  - apply Forall_app. split; [done|]. by constructor.
Qed.

(** The layout before an item is put, on its line or on a new one. *)
Definition next_line (it : item) (l : layout) : layout :=
  if lo_horizontal o && Qlt_b (line_width o chartWidth) (l_itemX l - initialItemX o + item_width o it)
  then Layout (initialItemX o) (l_itemY l + (lo_itemMarginTop o + l_lastLineHeight l + lo_itemMarginBottom o))%Q
         (l_offsetWidth l) (l_lastItemY l) 0 (l_maxItemWidth l)
  else l.
Lemma next_line_before it l ps : laid l ps ->
  let l' := next_line it l in
  (l_itemY l <= l_itemY l')%Q /\ (0 <= l_lastLineHeight l')%Q /\ (inner_x <= l_itemX l')%Q /\
  (lo_horizontal o = false -> l' = l) /\
  (lo_horizontal o = true -> l_itemX l' = inner_x \/ (l_itemX l' - inner_x + item_width o it <= line_width o chartWidth)%Q) /\
  l_offsetWidth l' = l_offsetWidth l /\
  forall p, p ∈ ps ->
    (lo_horizontal o = true /\ p_y p == l_itemY l' /\ p_x p + p_w p <= l_itemX l' /\ p_h p <= l_lastLineHeight l')%Q \/
    (p_y p + p_h p <= l_itemY l')%Q.
Proof.
  intros [H1 [H2 H2'] H3 _ _ _ _ _]. unfold next_line, inner_x in *. destruct (lo_horizontal o) eqn:Eh; cbn [andb].
  - destruct (Qlt_b _ _) eqn:E; cbn.
    + split_and!; try lra; try done; [by left|]. intros p Hp. right.
      destruct (H3 p Hp) as [(_ & Hy & _ & Hh)|Hp']; lra.
    + apply Qlt_b_false in E. split_and!; try done; [lra|by right].
  - split_and!; try done; lra.
Qed.

Lemma renderItem_laid it l ps : sized it -> laid l ps ->
  let '(l', p) := renderItem o chartWidth it l in laid l' (ps ++ [p]).
Proof.
  intros [Hw Hh] Hl. pose proof (next_line_before it l ps Hl) as (N1 & N2 & N3 & N4 & N5 & N6 & N7).
  unfold renderItem. fold (next_line it l). set (l1 := next_line it l) in *. clearbody l1.
  set (p := Placed (l_itemX l1) (l_itemY l1) (item_width o it) (it_height it)).
  assert (Forall (fun q => apart q p) ps) as Hap.
  { apply Forall_forall. intros q Hq. destruct (N7 q Hq) as [(_ & Hy & Hx & _)|Hy]; [left; by split|right; exact Hy]. }
  assert (StronglySorted apart (ps ++ [p])) as Hs by (apply StronglySorted_snoc; [by destruct Hl|done]).
  assert (forall q, q ∈ ps ++ [p] -> (inner_x <= p_x q)%Q) as Hleft.
  { intros q [Hq| ->%list_elem_of_singleton]%elem_of_app; [by apply (laid_left _ _ Hl)|exact N3]. }
  pose proof (Q.le_max_l (it_height it) (l_lastLineHeight l1)). pose proof (Q.le_max_r (it_height it) (l_lastLineHeight l1)).
  assert (forall v, lo_width o = None -> (or_q (lo_width o) v) = v) as Hor by (intros v ->; done).
  destruct (lo_horizontal o) eqn:Eh.
  - split; cbn; try done.
    + lra.
    + split; [lra|intros ?; congruence].
    + intros q [Hq| ->%list_elem_of_singleton]%elem_of_app; cbn; [|left; split_and!; try done; lra].
      destruct (N7 q Hq) as [(_ & Hy & Hx & Hq')|Hy]; [left; split_and!; try done; lra|by right].
    + intros q [Hq| ->%list_elem_of_singleton]%elem_of_app; cbn; [|lra].
      destruct (N7 q Hq) as [(_ & Hy & Hx & Hq')|Hy]; lra.
    + intros q Hq Hwo. rewrite Hor by done. set (v := (l_itemX l1 + item_width o it - initialItemX o)%Q).
      assert (v == l_itemX l1 + item_width o it - initialItemX o)%Q by reflexivity. clearbody v.
      pose proof (Q.le_max_l v (l_offsetWidth l1)). pose proof (Q.le_max_r v (l_offsetWidth l1)). unfold inner_x in *.
      apply elem_of_app in Hq as [Hq| ->%list_elem_of_singleton]; cbn; [|lra].
      pose proof (laid_width _ _ Hl q Hq Hwo) as Hq'. unfold inner_x in Hq'. rewrite <-N6 in Hq'. lra.
    + intros q [Hq| ->%list_elem_of_singleton]%elem_of_app; [by apply (laid_fits _ _ Hl)|]. intros _. by apply N5.
  - specialize (N4 eq_refl) as ->. split; cbn; try done.
    + split; [by destruct Hl as [_ [? ?]]|]. intros _. by apply (laid_x _ _ Hl).
    + intros q [Hq| ->%list_elem_of_singleton]%elem_of_app; right; cbn; [|lra].
      destruct (N7 q Hq) as [(? & _)|Hy]; [done|lra].
    + intros q [Hq| ->%list_elem_of_singleton]%elem_of_app; cbn; [|lra].
      destruct (N7 q Hq) as [(? & _)|Hy]; [done|lra].
    + intros q Hq Hwo. rewrite Hor by done.
      pose proof (Q.le_max_l (item_width o it) (l_offsetWidth l)). pose proof (Q.le_max_r (item_width o it) (l_offsetWidth l)).
      apply elem_of_app in Hq as [Hq| ->%list_elem_of_singleton]; cbn.
      * pose proof (laid_width _ _ Hl q Hq Hwo). lra.
      * rewrite (proj2 (laid_x _ _ Hl) Eh). lra.
    + intros q [Hq| ->%list_elem_of_singleton]%elem_of_app; [by apply (laid_fits _ _ Hl)|]. intros ?. congruence.
Qed.

Lemma renderItems_laid items : forall l ps, Forall sized items -> laid l ps ->
  let '(l', qs) := renderItems o chartWidth items l in laid l' (ps ++ qs).
Proof.
  induction items as [|it items IH]; intros l ps Hi Hl; cbn [renderItems]; [by rewrite app_nil_r|].
  inversion Hi as [|? ? H1 H2]; subst. pose proof (renderItem_laid it l ps H1 Hl) as H.
  destruct (renderItem o chartWidth it l) as [l1 p]. pose proof (IH l1 (ps ++ [p]) H2 H) as H'.
  destruct (renderItems o chartWidth items l1) as [l2 qs]. by rewrite <-(assoc_L (++)) in H'.
Qed.

Lemma start_laid l : (0 <= l_lastLineHeight l)%Q -> laid (start_layout o l) [].
Proof. intros H. split; try (intros p Hp; by apply not_elem_of_nil in Hp); [done|split; [apply Qle_refl|done]|constructor]. Qed.
End facts.

(** C26: The items of a legend stand apart: whatever their sizes, with margins that are not
    negative, each is beside the earlier ones of its line or below the earlier lines; on a
    line only the first may be wider than the line; and all of them lie within the height of
    the items and, when no width is given, within their width. *)
Theorem legend_items_apart o chartWidth l items :
  (0 <= lo_itemMarginTop o)%Q -> (0 <= lo_itemMarginBottom o)%Q -> (0 <= l_lastLineHeight l)%Q ->
  Forall (sized o) items ->
  let '(l', ps) := renderItems o chartWidth items (start_layout o l) in
  length ps = length items /\ StronglySorted apart ps /\
  Forall (fun p => fits_line o chartWidth p /\ (lo_padding o <= p_x p)%Q /\
            (lo_width o = None -> (p_x p + p_w p <= lo_padding o + l_offsetWidth l')%Q) /\
            (p_y p + p_h p <= l_lastItemY l' + l_lastLineHeight l')%Q) ps.
Proof.
  intros Ht Hb Hl Hi.
  pose proof (renderItems_laid o chartWidth Ht Hb items (start_layout o l) [] Hi (start_laid o chartWidth l Hl)) as H.
  assert (forall l0, length (snd (renderItems o chartWidth items l0)) = length items) as Hlen.
  { clear. induction items as [|it items IH]; intros l0; cbn; [done|]. destruct (renderItem _ _ _ _) as [l1 p].
    specialize (IH l1). destruct (renderItems _ _ _ _). cbn in *. by rewrite IH. }
  specialize (Hlen (start_layout o l)). destruct (renderItems o chartWidth items (start_layout o l)) as [l' ps].
  split_and!; [done|by apply (laid_apart _ _ _ _ H)|]. apply Forall_forall. intros p Hp. split_and!.
  - by apply (laid_fits _ _ _ _ H).
  - by apply (laid_left _ _ _ _ H).
  - by apply (laid_width _ _ _ _ H).
  - by apply (laid_height _ _ _ _ H).
Qed.

Lemma legend_items_apart_witness :
  let o := LegendOptions true false false 10 2 8 None None 1 1 false 0 false None in
  let '(l', ps) := renderItems o 150 [Item None 40 10 false; Item None 40 20 true; Item None 90 10 false] (start_layout o new_layout) in
  StronglySorted apart ps /\ l_lastItemY l' = (1 + (3 + (1 + 10 + 1) + (1 + 20 + 1)) + 1)%Q.
Proof.
  intros o.
  assert (Forall (sized o) [Item None 40 10 false; Item None 40 20 true; Item None 90 10 false]) as Hi.
  { repeat constructor; unfold Qle; cbn; lia. }
  destruct (legend_items_apart o 150 new_layout [Item None 40 10 false; Item None 40 20 true; Item None 90 10 false])
    as (_ & H & _); [unfold Qle; cbn; lia|unfold Qle; cbn; lia|apply Qle_refl|exact Hi|].
  split; [exact H|reflexivity].
Defined.

(** ** The pages show everything *)

Section paging.
Context (o : legend_options).

(** The pages of a legend too high, while it is looked at. *)
Record paged (g : pages) : Prop := {
  paged_count : 1 <= pg_pageCount g;
  paged_current : exists k, pg_currentPage g = Some k /\ 1 <= k <= pg_pageCount g /\
    pg_translateY g = (- Qmin (pg_clipHeight g * inject_Z (k - 1)) (pg_fullHeight g - pg_clipHeight g + lo_padding o) + 1)%Q
}.
(** A click on one of the arrows. *)
Inductive scrolled (g : pages) : pages -> Prop :=
| scrolled_up : scrolled g (scroll o (-1) g)
| scrolled_down : scrolled g (scroll o 1 g).

Definition same_pages (g g' : pages) : Prop :=
  pg_pageCount g' = pg_pageCount g /\ pg_clipHeight g' = pg_clipHeight g /\ pg_fullHeight g' = pg_fullHeight g.

Lemma scroll_to g k d : paged g -> pg_currentPage g = Some k -> 1 <= k + d <= pg_pageCount g ->
  paged (scroll o d g) /\ pg_currentPage (scroll o d g) = Some (k + d) /\ same_pages g (scroll o d g).
Proof.
  intros [Hc Hk] E Hd. unfold scroll. rewrite E. cbn [default from_option id].
  destruct (pg_pageCount g <? k + d) eqn:E1; zbool; [lia|]. destruct (0 <? k + d) eqn:E2; zbool; [|lia].
  split_and!; [|done|done]. split; cbn; [done|]. by eexists.
Qed.

Lemma scrolled_paged g g' : scrolled g g' -> paged g -> paged g'.
Proof.
  intros Hs Hp. assert (forall d, d = 1 \/ d = -1 -> paged (scroll o d g)) as H; [|destruct Hs; apply H; auto].
  intros d Hd. destruct (paged_current g Hp) as (k & Ek & Hk & Et). destruct (decide (1 <= k + d <= pg_pageCount g)) as [Hr|Hr].
  - by destruct (scroll_to g k d Hp Ek Hr).
  - unfold scroll. rewrite Ek. cbn [default from_option id]. destruct (pg_pageCount g <? k + d) eqn:E1; zbool.
    + destruct (0 <? pg_pageCount g) eqn:E2; zbool; [|done]. pose proof (paged_count g Hp).
      split; cbn; [done|]. eexists. split; [reflexivity|]. split; [lia|done].
    + destruct (0 <? k + d) eqn:E2; zbool; [lia|done].
Qed.

Lemma scrolled_all g k : paged g -> 1 <= k <= pg_pageCount g ->
  exists g', rtc scrolled g g' /\ paged g' /\ pg_currentPage g' = Some k /\ same_pages g g'.
Proof.
  intros Hp Hk. destruct (paged_current g Hp) as (c & Ec & Hc & _).
  remember (Z.to_nat (Z.abs (k - c))) as n eqn:En. revert g Hp c Ec Hc En Hk.
  induction n as [|n IH]; intros g Hp c Ec Hc En Hk.
  - assert (k = c) as -> by lia. exists g. by split_and!.
  - set (d := if k <? c then -1 else 1). assert (1 <= c + d <= pg_pageCount g /\ n = Z.to_nat (Z.abs (k - (c + d)))) as [Hd Hn].
    { subst d. destruct (k <? c) eqn:?; zbool; lia. }
    destruct (scroll_to g c d Hp Ec Hd) as (Hp' & Ec' & S1 & S2 & S3).
    destruct (IH (scroll o d g) Hp' (c + d) Ec') as (g' & Hr & Hp'' & E' & T1 & T2 & T3); [by rewrite S1|done|by rewrite S1|].
    exists g'. split_and!; [|done|done|split_and!; congruence].
    eapply rtc_l; [|exact Hr]. subst d. destruct (k <? c); [apply scrolled_up|apply scrolled_down].
Qed.
End paging.

Lemma handleOverflow_paged o box h g g' space : (20 < space)%Q -> spaceHeight o box = space ->
  (forall k, pg_currentPage g = Some k -> 1 <= k) -> handleOverflow o box h g = (space, g') -> (space < h)%Q ->
  paged o g' /\ pg_fullHeight g' = h /\ (pg_clipHeight g' == space - 20)%Q /\
  (h <= inject_Z (pg_pageCount g') * pg_clipHeight g')%Q /\ (inject_Z (pg_pageCount g' - 1) * pg_clipHeight g' < h)%Q.
Proof.
  intros Hs Es Hk Eh Hlt. unfold handleOverflow in Eh. rewrite Es in Eh.
  rewrite (proj2 (Qlt_b_spec space h) Hlt) in Eh. injection Eh as <-.
  set (clip := (space - 20)%Q). assert (0 < clip)%Q as Hc by (subst clip; lra).
  assert (~ clip == 0)%Q as Hcn by (intros E; rewrite E in Hc; by apply Qlt_irrefl in Hc).
  set (n := Qceiling (h / clip)). assert (h == h / clip * clip)%Q as Ehc by (by field).
  assert (h <= inject_Z n * clip)%Q as Hn1.
  { rewrite Ehc at 1. apply Qmult_le_compat_r; [apply Qle_ceiling|by apply Qlt_le_weak]. }
  assert (inject_Z (n - 1) * clip < h)%Q as Hn2.
  { rewrite Ehc. apply Qmult_lt_compat_r; [done|]. apply Qceiling_lt. }
  assert (1 <= n) as Hn.
  { assert (0 < inject_Z n)%Q; [|unfold Qlt in *; cbn in *; lia].
    apply (Qmult_lt_r _ _ clip Hc). rewrite Qmult_0_l. apply (Qlt_le_trans _ h); [lra|done]. }
  set (k := default 1 (pg_currentPage g)). assert (1 <= k) as Hk1.
  { subst k. destruct (pg_currentPage g) eqn:E; cbn; [by apply Hk|done]. }
  unfold scroll. cbn [pg_currentPage pg_pageCount pg_clipHeight pg_fullHeight default from_option id pg_nav]. fold clip n.
  set (c := if n <? k + 0 then n else k + 0). assert (1 <= c <= n) as Hcn'.
  { subst c. destruct (n <? k + 0) eqn:?; zbool; lia. }
  destruct (0 <? c) eqn:E; zbool; [|lia]. cbn [pg_currentPage pg_pageCount pg_clipHeight pg_fullHeight].
  split_and!; try done. split; cbn; [done|]. by eexists.
Qed.

Lemma scroll_same o d g : same_pages g (scroll o d g).
Proof. unfold scroll. by destruct (0 <? _). Qed.
Lemma scrolls_paged o g g' : rtc (scrolled o) g g' -> paged o g -> paged o g' /\ same_pages g g'.
Proof.
  induction 1 as [g|a b c Hab _ IH]; intros Hp; [done|].
  destruct (IH (scrolled_paged o a b Hab Hp)) as [Hc (T1 & T2 & T3)]. split; [done|].
  assert (same_pages a b) as (S1 & S2 & S3) by (destruct Hab; apply scroll_same). split_and!; congruence.
Qed.

(** Pages [clip] high, the last of them moved up to the end: every height is on one. *)
Lemma page_of (clip h pad y : Q) (n : Z) : (0 < clip)%Q -> (0 <= pad)%Q -> 1 <= n ->
  (h <= inject_Z n * clip)%Q -> (0 <= y <= h)%Q ->
  exists k, 1 <= k <= n /\
    (Qmin (clip * inject_Z (k - 1)) (h - clip + pad) <= y /\ y <= Qmin (clip * inject_Z (k - 1)) (h - clip + pad) + clip)%Q.
Proof.
  intros Hc Hpad Hn Hh [H0 H1]. assert (~ clip == 0)%Q as Hcn by (intros E; rewrite E in Hc; by apply Qlt_irrefl in Hc).
  assert (y == clip * (y / clip))%Q as Ey by (by field). set (t := (y / clip)%Q) in *.
  assert (0 <= t)%Q as Ht by (apply Qle_shift_div_l; [done|]; lra).
  assert (0 <= Qfloor t) as Hf by (rewrite <-(Qfloor_Z 0); by apply Qfloor_resp_le).
  set (k := Z.min n (Qfloor t + 1)). exists k. split; [lia|].
  assert (clip * inject_Z (k - 1) <= y)%Q as Hlow.
  { rewrite Ey, !(Qmult_comm clip). apply Qmult_le_compat_r; [|by apply Qlt_le_weak].
    apply (Qle_trans _ (inject_Z (Qfloor t))); [rewrite <-Zle_Qle; lia|apply Qfloor_le]. }
  assert (y <= clip * inject_Z (k - 1) + clip)%Q as Hhigh.
  { assert (clip * inject_Z (k - 1) + clip == clip * inject_Z k)%Q as ->.
    { assert (inject_Z (k - 1) == inject_Z k - 1)%Q as -> by (unfold Qeq; cbn; lia). ring. }
    destruct (decide (n <= Qfloor t + 1)) as [Hle|Hgt].
    - assert (k = n) as -> by lia. lra.
    - assert (k = Qfloor t + 1) as -> by lia. rewrite Ey, !(Qmult_comm clip). apply Qlt_le_weak.
      apply Qmult_lt_compat_r; [done|]. apply Qlt_floor. }
  destruct (Q.min_spec (clip * inject_Z (k - 1)) (h - clip + pad)) as [[? Em]|[? Em]]; rewrite Em; lra.
Qed.

(** C27: A legend that is too high is shown in pages, and the pages show all of it: from
    any page that clicks on the arrows lead to, further clicks lead to a page with the
    height one looks for between the upper and the lower end of what is shown, as long
    as there is room for more than the arrows (20 pixels). *)
Theorem legend_pages_cover o box h g g0 g1 y :
  (20 < spaceHeight o box)%Q -> (spaceHeight o box < h)%Q -> (0 <= lo_padding o)%Q ->
  (forall k, pg_currentPage g = Some k -> 1 <= k) ->
  handleOverflow o box h g = (spaceHeight o box, g0) -> rtc (scrolled o) g0 g1 -> (0 <= y <= h)%Q ->
  exists g2 k, rtc (scrolled o) g1 g2 /\ pg_currentPage g2 = Some k /\ 1 <= k <= pg_pageCount g2 /\
    (1 - pg_translateY g2 <= y /\ y <= 1 - pg_translateY g2 + pg_clipHeight g2)%Q.
Proof.
  intros Hs Hlt Hpad Hk Eh Hr Hy.
  destruct (handleOverflow_paged o box h g g0 _ Hs eq_refl Hk Eh Hlt) as (Hp & Ef & Ec & Hn1 & _).
  destruct (scrolls_paged o g0 g1 Hr Hp) as [Hp1 (S1 & S2 & S3)]. rewrite <-S1, <-S2 in *. rewrite <-S3 in Ef.
  assert (0 < pg_clipHeight g1)%Q as Hc by (rewrite Ec; lra).
  destruct (page_of (pg_clipHeight g1) h (lo_padding o) y (pg_pageCount g1) Hc Hpad (paged_count _ _ Hp1) Hn1 Hy)
    as (k & Hkn & Hlow & Hhigh).
  destruct (scrolled_all o g1 k Hp1 Hkn) as (g2 & Hr2 & Hp2 & Ek & T1 & T2 & T3).
  destruct (paged_current _ _ Hp2) as (k' & Ek' & _ & Et). rewrite Ek in Ek'. injection Ek' as <-.
  rewrite T2, T3, Ef in Et. exists g2, k. rewrite Et, T1, T2. split_and!; try done; try lia; lra.
Qed.

Lemma legend_pages_cover_witness :
  let o := LegendOptions false false false 10 2 8 None None 0 0 false 0 false None in
  let g0 := snd (handleOverflow o 108 250 (Pages false None 0 0 0 0)) in
  exists g2 k, rtc (scrolled o) (scroll o 1 g0) g2 /\ pg_currentPage g2 = Some k /\ 1 <= k <= pg_pageCount g2 /\
    (1 - pg_translateY g2 <= 200 /\ 200 <= 1 - pg_translateY g2 + pg_clipHeight g2)%Q.
Proof.
  intros o g0. apply (legend_pages_cover o 108 250 (Pages false None 0 0 0 0) g0 (scroll o 1 g0)).
  - reflexivity.
  - reflexivity.
  - discriminate.
  - discriminate.
  - reflexivity.
  - apply rtc_once, scrolled_down.
  - split; discriminate.
Defined.

(** ** The legend beside the plot *)

Lemma mathRound_near x : (x - (1 # 2) < inject_Z (mathRound x))%Q /\ (inject_Z (mathRound x) <= x + (1 # 2))%Q.
Proof.
  unfold mathRound. pose proof (Qfloor_le (x + (1 # 2))). pose proof (Qlt_floor (x + (1 # 2))) as H1.
  rewrite inject_Z_plus in H1. change (inject_Z 1) with 1%Q in H1. split; lra.
Qed.

(** Where the legend lies, at the side the options name. *)
Definition beside (l : legend_place) (x y : Z) (plot : rect) : Prop :=
  let gap := (lp_margin l - 1)%Q in
  match lp_align l, lp_verticalAlign l with
  | AtRight, _ => x_ plot + w_ plot + gap <= inject_Z x
  | AtLeft, _ => inject_Z x + lp_width l + gap <= x_ plot
  | AtCenter, AtTop => inject_Z y + lp_height l + gap <= y_ plot
  | AtCenter, AtBottom => y_ plot + h_ plot + gap <= inject_Z y
  | AtCenter, AtMiddle => True
  end%Q.

(** A legend that does not float lies beside the plot, not on it: where no margin is
    given, the plot keeps the margin of the legend, less one pixel for rounding, whatever
    room titles, axes and navigator take besides. *)
Theorem legend_beside_plot sp hasTitle title subtitle titleMargin l extraTop extraBottom off chartWidth chartHeight :
  (0 <= extraTop)%Q -> (0 <= extraBottom)%Q ->
  (0 <= of_top off)%Q -> (0 <= of_right off)%Q -> (0 <= of_bottom off)%Q -> (0 <= of_left off)%Q ->
  lp_display l = true -> lp_floating l = false ->
  let m := getMargins sp (GivenMargins None None None None) hasTitle title subtitle titleMargin l extraTop extraBottom off in
  let '(x, y) := align (lp_align l) (lp_verticalAlign l) (lp_x l) (lp_y l) (lp_width l) (lp_height l)
                   (spacingBox sp chartWidth chartHeight) in
  beside l x y (plot_box chartWidth chartHeight m).
Proof.
  intros Het Heb H1 H2 H3 H4 Hd Hf. unfold getMargins, resetMargins. cbn [default from_option id g_top g_right g_bottom g_left].
  set (m0 := title_margin _ _ _ _ _ _). clearbody m0.
  unfold legend_margin, beside, align, plot_box, setChartSize, spacingBox, axis_margin.
  rewrite Hd, Hf, !bool_decide_false by (cbn; by intros [? ?]). cbn [andb negb].
  destruct (lp_align l); [| |destruct (lp_verticalAlign l); [| |done]];
    cbn [x_ y_ w_ h_ m_plotTop m_right m_bottom m_plotLeft cm_plotLeft cm_plotTop cm_plotWidth cm_plotHeight cm_chartWidth cm_chartHeight].
  - pose proof (Q.le_max_r (m_plotLeft m0) (lp_width l + lp_x l + lp_margin l + sp_left sp)).
    set (M := Qmax _ _) in *. pose proof (mathRound_near (M + of_left off)). pose proof (mathRound_near (sp_left sp + lp_x l)). lra.
  - pose proof (Q.le_max_r (m_right m0) (lp_width l - lp_x l + lp_margin l + sp_right sp)).
    set (M := Qmax _ _) in *. set (left_ := inject_Z (mathRound (m_plotLeft m0 + of_left off))).
    pose proof (mathRound_near (chartWidth - left_ - (M + of_right off))).
    pose proof (mathRound_near (sp_left sp + lp_x l + (chartWidth - sp_left sp - sp_right sp - lp_width l))). lra.
  - pose proof (Q.le_max_r (m_plotTop m0) (lp_height l + lp_y l + lp_margin l + sp_top sp)).
    set (M := Qmax _ _) in *. pose proof (mathRound_near (M + extraTop + of_top off)). pose proof (mathRound_near (sp_top sp + lp_y l)). lra.
  - pose proof (Q.le_max_r (m_bottom m0) (lp_height l - lp_y l + lp_margin l + sp_bottom sp)).
    set (M := Qmax _ _) in *. set (top := inject_Z (mathRound (m_plotTop m0 + extraTop + of_top off))).
    pose proof (mathRound_near (chartHeight - top - (M + extraBottom + of_bottom off))).
    pose proof (mathRound_near (sp_top sp + lp_y l + (chartHeight - sp_top sp - sp_bottom sp - lp_height l))). lra.
Qed.

Lemma legend_beside_plot_witness :
  let l := LegendPlace true false AtCenter AtBottom 0 0 15 200 30 in
  let sp := Spacing 10 10 15 10 in
  let m := getMargins sp (GivenMargins None None None None) true 20 0 15 l 0 0 (Offsets 0 0 25 40) in
  let '(x, y) := align AtCenter AtBottom 0 0 200 30 (spacingBox sp 600 400) in
  beside l x y (plot_box 600 400 m).
Proof.
  exact (legend_beside_plot (Spacing 10 10 15 10) true 20 0 15 (LegendPlace true false AtCenter AtBottom 0 0 15 200 30)
    0 0 (Offsets 0 0 25 40) 600 400 ltac:(discriminate) ltac:(discriminate) ltac:(discriminate) ltac:(discriminate)
    ltac:(discriminate) ltac:(discriminate) eq_refl eq_refl).
Defined.
