(* ===== verification/HsTicks.v ===== *)
(** * Charts: ticks, labels and titles of an axis

    [highstock.src.js]: [Tick] with its label, place and overflow, [PlotLineOrBand],
    [StackItem.setOffset], and of [Axis] [getOffset], [getLinePath],
    [getTitlePosition], [render], [redraw], [setTitle] and [setCategories].

    What is drawn is kept as places, texts and visibility; colours and other constant
    attributes are left out.  The browser's measure of a text is a parameter. *)

From stdpp Require Import gmap strings.
From Stdlib Require Import QArith Qround Qminmax Qabs Lqa.
From S2P Require Import Prelude JsString HsAxis HsOrdinal HsExtremes HsLegend HsScale.
Local Open Scope list_scope.
Local Open Scope Z_scope.

#[export] Instance Q_eq_dec : EqDecision Q.
Proof. solve_decision. Defined.
#[export] Program Instance Q_countable : Countable Q :=
  inj_countable' (fun q => (Qnum q, Qden q)) (fun p => Qmake p.1 p.2) _.
Next Obligation. by intros [n d]. Qed.

(** ** What is drawn *)

(** An element is put somewhere at once or moves there. *)
Inductive motion := Attr | Animate.

Record label := Label {
  lb_text : option string;
  lb_width : option Z;                      (* the style's width *)
  lb_xy : option (Q * option Q);            (* label.xy; [None] as y is NaN *)
  lb_motion : option motion;
  lb_visible : bool
}.

Inductive kind := Major | Minor.

(** A position is a number or, when there is none, [undefined]. *)
Notation pos := (option Q).

Record tick := Tick {
  tk_kind : kind; tk_pos : pos;
  tk_isNew : bool; tk_isActive : bool; tk_isFirst : bool; tk_isLast : bool;
  tk_label : option label;
  tk_bbox : option (Q * Q);                 (* labelBBox: width and height *)
  tk_gridLine : option (option line * motion);
  tk_mark : option (option line)            (* its path; [None] with a NaN *)
}.

(** The key of a position in [axis.ticks]: the text of the number. *)
Definition key (p : pos) : pos := Qred <$> p.
Notation ticks := (gmap pos tick).

(** [a === b] on positions. *)
Definition same_pos (a b : pos) : bool := bool_decide (key a = key b).

(** ** Options *)

Record tick_labels := TickLabels {
  tl_enabled : bool; tl_align : side; tl_x : Q; tl_y : option Q;
  tl_step : Z; tl_staggerLines : Z; tl_rotation : Q; tl_padding : Q;   (* 0: not given *)
  tl_justify : bool                                                   (* overflow *)
}.
Record line_style := LineStyle {
  ls_gridWidth : Z; ls_tickLength : Q; ls_tickWidth : Z; ls_inside : bool
}.

Inductive along := Low | Middle | High.
Record title_options := TitleOptions {
  to_text : string; to_align : along; to_margin : option Q; to_offset : option Q;
  to_fontSize : Q; to_x : Q; to_y : Q
}.

Record band_label := BandLabel {
  bl_text : string; bl_align : option side; bl_verticalAlign : option vside;
  bl_x : option Q; bl_y : option Q
}.
Record band_options := BandOptions {
  bo_id : option string; bo_width : Z; bo_value : option Q; bo_from : option Q; bo_to : option Q;
  bo_label : option band_label
}.

Record draw_options := DrawOptions {
  do_opposite : bool;
  do_labels : tick_labels;
  do_between : bool;                        (* options.categories, placed between *)
  do_major : line_style; do_minor : line_style;
  do_showFirstLabel : bool; do_showLastLabel : bool; do_showEmpty : bool;
  do_title : option title_options;
  do_offset : option Q;
  do_lineWidth : Z;
  do_alternate : bool;                      (* alternateGridColor *)
  do_bands : list band_options;             (* plotLines and plotBands *)
  do_dateTimeLabelFormats : string -> option string;
  do_lineHeight : Q                         (* labels.style.lineHeight *)
}.

(** What the formatter of the labels is given. *)
Inductive label_value := LCategory (s : string) | LNumber (x : pos).
Record formatter_args := FormatterArgs {
  fa_isFirst : bool; fa_isLast : bool; fa_dateTimeLabelFormat : option string; fa_value : label_value
}.

(** ** Totals of stacks *)

(** [StackItem.setOffset]: the box of a whole stack. *)
Definition stack_box (inverted neg : bool) (plotHeight y yZero x xWidth : Q) : rect :=
  let h := Qabs (y - yZero) in
  Rect (if inverted then (if neg then y else y - h) else x)
       (if inverted then plotHeight - x - xWidth
        else if neg then plotHeight - y - h else plotHeight - y)
       (if inverted then h else xWidth) (if inverted then xWidth else h).

Definition setOffset (inverted neg : bool) (plotHeight y yZero x xOffset xWidth : Q)
    (a : side) (v : vside) (ax ay : Q) : Z * Z :=
  align a v ax ay 0 0 (stack_box inverted neg plotHeight y yZero (x + xOffset) xWidth).

(** ** Ticks *)

Section ticks.
Context (log2lin lin2log : Q -> Q).
Context (o : axis_options) (q : draw_options) (c : chart_metrics).
Context (labelFormatter : formatter_args -> option string).
Context (measure : option string -> option Z -> Q * Q).
(** The shown state of the axis, its categories, and [tickPositions.info]. *)
Context (s : axis_state) (categories : option (list string)).
Context (info : option (string * (Q -> option string))).

Local Notation m := (s_metrics s).
Local Notation positions := (@Some Q <$> k_tickPositions (s_ticks s)).
Local Notation horiz := (o_horiz o).
Local Notation labels := (do_labels q).

Definition staggerLines : Z := if horiz then tl_staggerLines labels else 0.

(** ** Labels *)

(** The width set for a label, 0 for none. *)
Definition label_room : Q :=
  let w := if bool_decide (default [] categories ≠ []) && horiz && (tl_step labels =? 0)
              && (tl_staggerLines labels =? 0) && Qeq_bool (tl_rotation labels) 0
           then (cm_plotWidth c / inject_Z (Z.of_nat (length positions)))%Q else 0%Q in
  if Qeq_bool w 0 then (if horiz then 0 else cm_plotWidth c / 2)%Q else w.
Definition label_width : option Z :=
  if Qeq_bool label_room 0 then None
  else
    let padding := if Qeq_bool (tl_padding labels) 0 then 10%Q else tl_padding labels in
    Some (Z.max 1 (mathRound (label_room - 2 * padding))).

Definition category_at (p : pos) : option string :=
  l ← categories; x ← p;
  if Pos.eqb (Qden (Qred x)) 1 && (0 <=? Qnum (Qred x)) then l !! Z.to_nat (Qnum (Qred x)) else None.

Definition label_text (p : pos) (isFirst isLast : bool) : option string :=
  let value := match category_at p with
               | Some t => LCategory t
               | None => LNumber (if o_isLog o then (fun x => correctFloat (lin2log x)) <$> p else p) end in
  let format := '(unitName, higherRanks) ← info;
                do_dateTimeLabelFormats q (default unitName (p ≫= higherRanks)) in
  labelFormatter (FormatterArgs isFirst isLast format value).

Definition tset_label l b t :=
  Tick (tk_kind t) (tk_pos t) (tk_isNew t) (tk_isActive t) (tk_isFirst t) (tk_isLast t) l b
    (tk_gridLine t) (tk_mark t).

Definition addLabel (t : tick) : tick :=
  let isFirst := same_pos (tk_pos t) (default None (head positions)) in
  let isLast := same_pos (tk_pos t) (default None (last positions)) in
  let str := label_text (tk_pos t) isFirst isLast in
  let l := match tk_label t with
           | None => if bool_decide (is_Some str) && tl_enabled labels
                     then Some (Label str label_width None None true) else None
           | Some l => Some (Label str (option_union label_width (lb_width l)) (lb_xy l) (lb_motion l)
                               (lb_visible l))
           end in
  Tick (tk_kind t) (tk_pos t) (tk_isNew t) (tk_isActive t) isFirst isLast l (tk_bbox t)
    (tk_gridLine t) (tk_mark t).

Definition new_tick (k : kind) (p : pos) : tick :=
  let t := Tick k p true false false false None None None None in
  match k with Major => addLabel t | Minor => t end.

Definition label_box (l : label) : Q * Q := measure (lb_text l) (lb_width l).

(** [getLabelSize]: the tick keeps the box it measured. *)
Definition getLabelSize (t : tick) : Q * tick :=
  match tk_label t with
  | None => (0%Q, t)
  | Some l => let b := label_box l in (if horiz then b.2 else b.1, tset_label (Some l) (Some b) t)
  end.

(** [getLabelSides]: reads [labelBBox], which may be missing. *)
Definition getLabelSides (t : tick) : option (Q * Q) :=
  b ← tk_bbox t;
  let width := b.1 in
  let leftSide := (match tl_align labels with AtLeft => 0 | AtCenter => width / 2 | AtRight => width end
                   - tl_x labels)%Q in
  Some ((- leftSide)%Q, (width - leftSide)%Q).

(** [handleOverflow(index, xy)]: whether to show the label, and its x. *)
Definition handleOverflow (ts : ticks) (index : nat) (t : tick) (x : Q) : res (bool * Q) :=
  if negb (tk_isFirst t || tk_isLast t) then Ok (true, x)
  else
    '(leftSide, rightSide) ← of_option (getLabelSides t);
    let plotLeft := cm_plotLeft c in
    let plotRight := (plotLeft + m_len m)%Q in
    let there := if tk_isFirst t then positions !! S index
                 else match index with 0%nat => None | S i => positions !! i end in
    let neighbour := ts !! key (default None there) in
    edge ← match neighbour with
           | None => Ok None
           | Some nb =>
               l ← of_option (tk_label nb); xy ← of_option (lb_xy l);
               sides ← of_option (getLabelSides nb);
               Ok (Some (xy.1 + (if tk_isFirst t then sides.1 else sides.2))%Q)
           end;
    if (tk_isFirst t && negb (o_reversed o)) || (tk_isLast t && o_reversed o) then
      if Qlt_b (x + leftSide) plotLeft then
        let x := (plotLeft - leftSide)%Q in
        Ok (match edge with Some e => negb (Qlt_b e (x + rightSide)) | None => true end, x)
      else Ok (true, x)
    else
      if Qlt_b plotRight (x + rightSide) then
        let x := (plotRight - rightSide)%Q in
        Ok (match edge with Some e => negb (Qlt_b (x + leftSide) e) | None => true end, x)
      else Ok (true, x).

(** ** Places *)

Definition place (p : pos) (old : bool) : option Q :=
  x ← p; HsScale.translate log2lin lin2log o s x false false old false.

(** [getPosition(horiz, pos, tickmarkOffset, old)]; [None] is NaN. *)
Definition getPosition (offset : Q) (p : pos) (old : bool) : option Q * option Q :=
  let cHeight := if old then default (cm_chartHeight c) (cm_oldChartHeight c) else cm_chartHeight c in
  let cWidth := if old then default (cm_chartWidth c) (cm_oldChartWidth c) else cm_chartWidth c in
  let transB := t_transB (s_translation s) in
  if horiz then
    ((fun x => x + transB)%Q <$> place p old,
     Some (cHeight - HsScale.m_bottom m + offset - (if do_opposite q then m_height m else 0))%Q)
  else
    (Some (m_left m + offset + (if do_opposite q then cWidth - HsScale.m_right m - m_left m else 0))%Q,
     (fun y => cHeight - y - transB)%Q <$> place p old).

Definition tickmarkOffset : Q := if do_between q then (1 # 2)%Q else 0%Q.

(** [getLabelPosition] *)
Definition getLabelPosition (x : Q) (y : option Q) (l : label) (index : nat) : Q * option Q :=
  let a := (tickmarkOffset * t_transA (s_translation s))%Q in
  let x := (x + tl_x labels - (if horiz then a * (if o_reversed o then -1 else 1) else 0))%Q in
  let dy := (default 0 (tl_y labels) - (if horiz then 0 else a * (if o_reversed o then 1 else -1)))%Q in
  let dy := match tl_y labels with
            | Some _ => dy
            | None => (dy + do_lineHeight q * (9 # 10) - (label_box l).2 / 2)%Q end in
  let step := if tl_step labels =? 0 then 1 else tl_step labels in
  let dy := if staggerLines =? 0 then dy
            else (dy + Qrem (inject_Z (Z.of_nat index) / inject_Z step) (inject_Z staggerLines) * 16)%Q in
  (x, (fun y => y + dy)%Q <$> y).

Definition getMarkPath (x y : option Q) (tickLength : Q) (tickWidth : Z) : option line :=
  x ← x; y ← y;
  Some (crispLine (x, y, ((x + (if horiz then 0 else - tickLength))%Q,
                          (y + (if horiz then tickLength else 0))%Q)) tickWidth).

(** [Tick.render(index, old)]; [ts] are the ticks of the axis. *)
Definition render_grid (offset : Q) (old : bool) (t : tick) : option (option line * motion) :=
  let width := ls_gridWidth (match tk_kind t with Major => do_major q | Minor => do_minor q end) in
  if width =? 0 then tk_gridLine t
  else
    let path := x ← tk_pos t;
                getPlotLinePath log2lin lin2log o c s (x + tickmarkOffset)%Q width old in
    let line := default (path, Attr) (tk_gridLine t) in
    Some (if negb old && bool_decide (is_Some path)
          then (path, if tk_isNew t then Attr else Animate) else line).

Definition render_mark (x y : option Q) (t : tick) : option (option line) :=
  let st := match tk_kind t with Major => do_major q | Minor => do_minor q end in
  if ls_tickWidth st =? 0 then tk_mark t
  else
    let l := if ls_inside st then (- ls_tickLength st)%Q else ls_tickLength st in
    let l := if do_opposite q then (- l)%Q else l in
    Some (getMarkPath x y l (ls_tickWidth st)).

Definition hidden_end (t : tick) : bool :=
  (tk_isFirst t && negb (do_showFirstLabel q)) || (tk_isLast t && negb (do_showLastLabel q)).

Definition render_label (ts : ticks) (x : Q) (y : option Q) (index : nat) (t : tick) (l : label)
    : res (bool * label) :=
  let '(lx, ly) := getLabelPosition x y l index in
  '(show, lx) ← if hidden_end t then Ok (false, lx)
                else if (staggerLines =? 0) && horiz && tl_justify labels
                then handleOverflow (<[key (tk_pos t) := tset_label (Some (Label (lb_text l) (lb_width l)
                       (Some (lx, ly)) (lb_motion l) (lb_visible l))) (tk_bbox t) t]> ts) index t lx
                else Ok (true, lx);
  let show := show && negb (negb (tl_step labels =? 0)
                            && negb (Z.of_nat index mod tl_step labels =? 0)) in
  Ok (show, Label (lb_text l) (lb_width l) (Some (lx, ly))
              (if show then Some (if tk_isNew t then Attr else Animate) else lb_motion l) show).

Definition render_tick (offset : Q) (ts : ticks) (index : nat) (old : bool) (t : tick) : res tick :=
  let '(x, y) := getPosition offset ((fun p => p + tickmarkOffset)%Q <$> tk_pos t) old in
  let grid := render_grid offset old t in
  let mark := render_mark x y t in
  '(isNew, l) ← match tk_label t, x with
                | Some l, Some x =>
                    '(show, l) ← render_label ts x y index t l;
                    Ok (tk_isNew t && negb show, Some l)
                | l, _ => Ok (tk_isNew t, l)
                end;
  Ok (Tick (tk_kind t) (tk_pos t) isNew (tk_isActive t) (tk_isFirst t) (tk_isLast t) l (tk_bbox t)
        grid mark).

(** ** Plot lines and bands *)

Inductive band_path := PLine (l : line) | PBand (from to : line).
Record band_elem := BandElem { be_path : band_path; be_shown : bool; be_waiting : bool (* onGetPath *) }.
Record band := Band {
  b_options : band_options;
  b_elem : option band_elem;
  b_label : option (option (Z * Z) * bool);  (* where, and whether it shows *)
  b_isActive : bool
}.
Definition new_band (bo : band_options) : band := Band bo None None false.

Definition is_band (bo : band_options) : bool :=
  bool_decide (is_Some (bo_from bo)) && bool_decide (is_Some (bo_to bo)).

(** Its path; the outer [None] when there is nothing to draw at all. *)
Definition band_path_of (bo : band_options) : option (option band_path) :=
  let log v := if o_isLog o then log2lin <$> v else v in
  let half := (t_pointRange (s_translation s) / 2)%Q in
  if negb (bo_width bo =? 0) then
    Some (v ← log (bo_value bo);
          PLine <$> getPlotLinePath log2lin lin2log o c s v (bo_width bo) false)
  else if is_band bo then
    Some (from ← log (bo_from bo); to ← log (bo_to bo);
          low ← r_min (s_ranges s); high ← r_max (s_ranges s);
          (fun p => PBand p.1 p.2) <$>
            getPlotBandPath log2lin lin2log o c s (Qmax from (low - half)) (Qmin to (high + half)))
  else None.

(** The box around a path, from the first three of its points. *)
Definition path_box (p : band_path) : rect :=
  let '(x1, y1, (x2, y2), (x3, y3)) := match p with
    | PLine l => (l, l.1)
    | PBand from to => (from, to.1) end in
  let x := Qmin x1 (Qmin x2 x3) in
  let y := Qmin y1 (Qmin y2 y3) in
  Rect x y (Qmax x1 (Qmax x2 x3) - x) (Qmax y1 (Qmax y2 y3) - y).

Definition place_band_label (bo : band_options) (bl : band_label) (p : band_path) : Z * Z :=
  let isBand := is_band bo in
  align (default (if horiz && isBand then AtCenter else AtLeft) (bl_align bl))
        (default (if negb horiz && isBand then AtMiddle else AtTop) (bl_verticalAlign bl))
        (default (if horiz then (if isBand then 0 else 4) else 10)%Q (bl_x bl))
        (default (if horiz then (if isBand then 16 else 10) else (if isBand then 6 else -4))%Q (bl_y bl))
        0 0 (path_box p).

(** [PlotLineOrBand.render]; [None] where it returns nothing. *)
Definition render_band (b : band) : option band :=
  path ← band_path_of (b_options b);
  let elem := match b_elem b, path with
              | Some e, Some p => Some (BandElem p (be_shown e || be_waiting e) (be_waiting e))
              | Some e, None => Some (BandElem (be_path e) false true)
              | None, Some p => Some (BandElem p true false)
              | None, None => None end in
  let lab := match bo_label (b_options b), path with
             | Some bl, Some p =>
                 if Qlt_b 0 (m_width m) && Qlt_b 0 (m_height m)
                 then Some (Some (place_band_label (b_options b) bl p), true)
                 else (fun l => (l.1, false)) <$> b_label b
             | _, _ => (fun l => (l.1, false)) <$> b_label b end in
  Some (Band (b_options b) elem lab (b_isActive b)).

(** ** The axis *)

Record title := Title { ti_isNew : bool; ti_shown : bool; ti_xy : option (Q * Q) }.

Record axis_draw := AxisDraw {
  d_ticks : ticks; d_minorTicks : ticks;
  d_alternate : gmap pos band;
  d_bands : list (option band);             (* plotLinesAndBands *)
  d_addedPlotLB : bool;
  d_hasData : bool; d_showAxis : bool;
  d_offset : Q; d_titleMargin : Q;
  d_title : option title;
  d_line : option (line * bool)             (* its path, and whether it shows *)
}.

Definition side_number : nat :=
  if horiz then (if do_opposite q then 0 else 2)%nat else (if do_opposite q then 1 else 3)%nat.
Definition directionFactor : Q := match side_number with 1%nat | 2%nat => 1 | _ => -1 end%Q.

(** Labels on this side need room. *)
Definition labels_aside : bool :=
  horiz || match side_number, tl_align labels with
           | 1%nat, AtLeft | 3%nat, AtRight => true | _, _ => false end.

(** The ticks get their labels. *)
Definition label_ticks (ts : ticks) : ticks :=
  fold_left (fun ts p => <[key p := match ts !! key p with
                                    | None => new_tick Major (key p)
                                    | Some t => addLabel t end]> ts) positions ts.
(** Measured in turn: the largest. *)
Definition measure_step (a : Q * ticks) (p : pos) : Q * ticks :=
  match a.2 !! key p with
  | Some t => let '(size, t) := getLabelSize t in (Qmax size a.1, <[key p := t]> a.2)
  | None => a end.
Definition measure_ticks (ts : ticks) : Q * ticks := fold_left measure_step positions (0%Q, ts).

Definition linked : bool := bool_decide (is_Some (o_linked o)).

(** [getOffset]: [has_series] whether the axis has any, [titleSize] the title's box,
    [axisOffset] the room the axes take on each side. *)
Definition getOffset (has_series : bool) (titleSize : Q * Q) (axisOffset : list Q) (d : axis_draw)
    : list Q * axis_draw :=
  let hasData := has_series && bool_decide (is_Some (r_min (s_ranges s)))
                 && bool_decide (is_Some (r_max (s_ranges s))) in
  let showAxis := hasData || do_showEmpty q in
  let '(labelOffset, ts) :=
    if hasData || linked then
      let ts := label_ticks (d_ticks d) in
      let '(size, ts) := if labels_aside then measure_ticks ts else (0%Q, ts) in
      ((if staggerLines =? 0 then size else size + (inject_Z staggerLines - 1) * 16)%Q, ts)
    else (0%Q, ∅) in
  let has_title := match do_title q with Some t => negb (String.eqb (to_text t) "") | None => false end in
  let titleOffset := if has_title && showAxis then (if horiz then titleSize.2 else titleSize.1) else 0%Q in
  let titleMargin := if has_title && showAxis
                     then default (if horiz then 5 else 10)%Q (do_title q ≫= to_margin) else 0%Q in
  let titleOffsetOption := if has_title && showAxis then do_title q ≫= to_offset else None in
  let title := if has_title
               then let t := default (Title true true None) (d_title d) in
                    Some (Title (ti_isNew t) showAxis (ti_xy t))
               else d_title d in
  let offset := (directionFactor * default (nth side_number axisOffset 0) (do_offset q))%Q in
  let aside := if Nat.eqb side_number 2 || Qeq_bool labelOffset 0 then 0%Q
               else (directionFactor * (if horiz then default 0 (tl_y labels) else tl_x labels))%Q in
  let titleMargin := default (labelOffset + titleMargin + aside)%Q titleOffsetOption in
  (<[side_number := Qmax (nth side_number axisOffset 0%Q)
                      (titleMargin + titleOffset + directionFactor * offset)%Q]> axisOffset,
   AxisDraw ts (d_minorTicks d) (d_alternate d) (d_bands d) (d_addedPlotLB d) hasData showAxis offset
     titleMargin title (d_line d)).

Definition getLinePath (offset : Q) (lineWidth : Z) : line :=
  let lineLeft := (m_left m + (if do_opposite q then m_width m else 0) + offset)%Q in
  let lineTop := (cm_chartHeight c - HsScale.m_bottom m - (if do_opposite q then m_height m else 0) + offset)%Q in
  crispLine (if horiz then (m_left m, lineTop, ((cm_chartWidth c - HsScale.m_right m)%Q, lineTop))
             else (lineLeft, m_top m, (lineLeft, (cm_chartHeight c - HsScale.m_bottom m)%Q))) lineWidth.

Definition getTitlePosition (d : axis_draw) (t : title_options) : Q * Q :=
  let margin := if horiz then m_left m else m_top m in
  let alongAxis := match to_align t with
                   | Low => margin + (if horiz then 0 else m_len m)
                   | Middle => margin + m_len m / 2
                   | High => margin + (if horiz then m_len m else 0) end%Q in
  let offAxis := ((if horiz then m_top m + m_height m else m_left m)
                  + (if horiz then 1 else -1) * (if do_opposite q then -1 else 1) * d_titleMargin d
                  + (if Nat.eqb side_number 2 then to_fontSize t else 0))%Q in
  if horiz then (alongAxis, (offAxis - (if do_opposite q then m_height m else 0) + d_offset d)%Q)
  else ((offAxis + (if do_opposite q then m_width m else 0) + d_offset d + to_x t)%Q,
        (alongAxis + to_y t)%Q).

(** The loop over the ticks: the first one comes last, for the place of its neighbour. *)
Definition major_order : list (nat * pos) :=
  match positions with
  | [] => [(1%nat, None)]
  | p :: rest => zip (seq 1 (length rest)) rest ++ [(0%nat, p)]
  end.

Definition set_active (b : bool) (t : tick) : tick :=
  Tick (tk_kind t) (tk_pos t) (tk_isNew t) b (tk_isFirst t) (tk_isLast t) (tk_label t) (tk_bbox t)
    (tk_gridLine t) (tk_mark t).

(** One tick: made when it is not there, new ones first put in their old place. *)
Definition show_tick (k : kind) (slideIn : bool) (offset : Q) (ts : ticks) (index : nat) (p : pos)
    : res ticks :=
  let t := default (new_tick k (key p)) (ts !! key p) in
  let ts := <[key p := t]> ts in
  t ← if slideIn && tk_isNew t then render_tick offset ts index true t else Ok t;
  let t := set_active true t in
  let ts := <[key p := t]> ts in
  t ← render_tick offset ts index false t;
  Ok (<[key p := t]> ts).

Definition in_range (p : pos) : bool :=
  match p, r_min (s_ranges s), r_max (s_ranges s) with
  | Some x, Some a, Some b => Qle_bool a x && Qle_bool x b | _, _, _ => false end.

Fixpoint show_major (slideIn : bool) (offset : Q) (l : list (nat * pos)) (ts : ticks) : res ticks :=
  match l with
  | [] => Ok ts
  | (i, p) :: l =>
      ts ← if negb linked || in_range p then show_tick Major slideIn offset ts i p else Ok ts;
      show_major slideIn offset l ts
  end.

Fixpoint show_minor (slideIn : bool) (offset : Q) (l : list pos) (ts : ticks) : res ticks :=
  match l with
  | [] => Ok ts
  | p :: l => ts ← show_tick Minor slideIn offset ts 0 p; show_minor slideIn offset l ts
  end.

(** Every second interval between ticks gets a band. *)
Definition band_between (from to : option Q) : band_options :=
  let exp v := if o_isLog o then lin2log <$> v else v in
  BandOptions None 0 None (exp from) (exp to) None.
Fixpoint show_alternate (even : bool) (l : list pos) (bs : gmap pos band) : gmap pos band :=
  match l with
  | [] => bs
  | p :: l =>
      let below := match p, r_max (s_ranges s) with Some x, Some b => Qlt_b x b | _, _ => false end in
      show_alternate (negb even) l
        (if even && below then
           let b := default (Band (BandOptions None 0 None None None None) None None false)
                      (bs !! key p) in
           let to := match l with Some x :: _ => Some x | _ => r_max (s_ranges s) end in
           let b := Band (band_between p to) (b_elem b) (b_label b) (b_isActive b) in
           let b := default b (render_band b) in
           <[key p := Band (b_options b) (b_elem b) (b_label b) true]> bs
         else bs)
  end.

(** What was not drawn this time goes; the rest waits for the next time. *)
Definition keep_active (ts : ticks) : ticks :=
  set_active false <$> filter (fun e => tk_isActive e.2 = true) ts.
Definition keep_bands (bs : gmap pos band) : gmap pos band :=
  (fun b => Band (b_options b) (b_elem b) (b_label b) false)
    <$> filter (fun e => b_isActive e.2 = true) bs.

(** [render]: [hasRendered] of the chart; [minorPositions] from [getMinorTickPositions],
    where there is an interval for them. *)
Definition render (hasRendered : bool) (minorPositions : option (list pos)) (d : axis_draw)
    : res axis_draw :=
  let slideIn := hasRendered && bool_decide (is_Some (s_oldMin s)) in
  let draws := d_hasData d || linked in
  minor ← match minorPositions, categories with
          | Some l, None => if draws then show_minor slideIn (d_offset d) l (d_minorTicks d)
                            else Ok (d_minorTicks d)
          | _, _ => Ok (d_minorTicks d) end;
  major ← if draws then show_major slideIn (d_offset d) major_order (d_ticks d) else Ok (d_ticks d);
  let alternate := if draws && do_alternate q then show_alternate true positions (d_alternate d)
                   else d_alternate d in
  let bands := if draws && negb (d_addedPlotLB d)
               then d_bands d ++ List.map (fun bo => render_band (new_band bo)) (do_bands q)
               else d_bands d in
  let line := if do_lineWidth q =? 0 then d_line d
              else Some (getLinePath (d_offset d) (do_lineWidth q), d_showAxis d) in
  let title := match d_title d, do_title q with
               | Some t, Some to =>
                   if d_showAxis d then Some (Title false (ti_shown t) (Some (getTitlePosition d to)))
                   else Some t
               | t, _ => t end in
  Ok (AxisDraw (keep_active major) (keep_active minor) (keep_bands alternate) bands
        (d_addedPlotLB d || draws) (d_hasData d) (d_showAxis d) (d_offset d) (d_titleMargin d) title line).

(** [redraw]: the axis, then its lines and bands; one that [render] gave nothing back for
    is not there to be rendered. *)
Definition redraw (hasRendered : bool) (minorPositions : option (list pos)) (d : axis_draw)
    : res axis_draw :=
  d ← render hasRendered minorPositions d;
  if forallb (fun b => bool_decide (is_Some b)) (d_bands d) then
    Ok (AxisDraw (d_ticks d) (d_minorTicks d) (d_alternate d)
          (List.map (fun b => b ← b; Some (default b (render_band b))) (d_bands d)) (d_addedPlotLB d)
          (d_hasData d) (d_showAxis d) (d_offset d) (d_titleMargin d) (d_title d) (d_line d))
  else Throw TypeError.

(** [addPlotBandOrLine] and [removePlotBandOrLine]. *)
Definition set_bands l (d : axis_draw) : axis_draw :=
  AxisDraw (d_ticks d) (d_minorTicks d) (d_alternate d) l (d_addedPlotLB d) (d_hasData d) (d_showAxis d)
    (d_offset d) (d_titleMargin d) (d_title d) (d_line d).
Definition addPlotBandOrLine (bo : band_options) (d : axis_draw) : axis_draw :=
  set_bands (d_bands d ++ [render_band (new_band bo)]) d.
Definition removePlotBandOrLine (id : option string) (d : axis_draw) : res axis_draw :=
  if forallb (fun b => bool_decide (is_Some b)) (d_bands d) then
    Ok (set_bands (List.filter (fun b => negb (bool_decide ((bo_id ∘ b_options) <$> b = Some id))) (d_bands d)) d)
  else Throw TypeError.

(** [setTitle]: the title's element is forgotten, whatever it was. *)
Definition forget_title (d : axis_draw) : axis_draw :=
  AxisDraw (d_ticks d) (d_minorTicks d) (d_alternate d) (d_bands d) (d_addedPlotLB d) (d_hasData d)
    (d_showAxis d) (d_offset d) (d_titleMargin d) None (d_line d).

(** ** The ticks of a redrawn axis *)

Lemma key_key p : key (key p) = key p.
Proof. destruct p as [x|]; [|done]. cbn. f_equal. apply Qred_complete, Qred_correct. Qed.

(** What the label of a tick says. *)
Definition titled (t : tick) : Prop :=
  tk_isFirst t = same_pos (tk_pos t) (default None (head positions)) /\
  tk_isLast t = same_pos (tk_pos t) (default None (last positions)) /\
  match tk_label t with
  | Some l => lb_text l = label_text (tk_pos t) (tk_isFirst t) (tk_isLast t)
  | None => tl_enabled labels = false \/ label_text (tk_pos t) (tk_isFirst t) (tk_isLast t) = None
  end.

Definition filed (ts : ticks) : Prop := forall k t, ts !! k = Some t -> tk_pos t = k.
Definition inactive (ts : ticks) : Prop := forall k t, ts !! k = Some t -> tk_isActive t = false.
Definition has_titled (ts : ticks) (p : pos) : Prop := exists t, ts !! key p = Some t /\ titled t.

(** The parts of a tick that placing it leaves alone. *)
Definition kept (t t' : tick) : Prop :=
  tk_pos t' = tk_pos t /\ tk_isFirst t' = tk_isFirst t /\ tk_isLast t' = tk_isLast t /\
  tk_bbox t' = tk_bbox t /\
  match tk_label t, tk_label t' with
  | Some l, Some l' => lb_text l' = lb_text l /\ lb_width l' = lb_width l
  | None, None => True | _, _ => False end.

Lemma tick_kept_refl t : kept t t.
Proof. unfold kept. by destruct (tk_label t). Qed.

Lemma tick_kept_trans t1 t2 t3 : kept t1 t2 -> kept t2 t3 -> kept t1 t3.
Proof.
  unfold kept. intros (-> & -> & -> & -> & H) (-> & -> & -> & -> & H').
  destruct (tk_label t1), (tk_label t2), (tk_label t3); try done. destruct H, H'. split_and!; congruence.
Qed.

Lemma kept_titled t t' : kept t t' -> titled t -> titled t'.
Proof.
  unfold kept, titled. intros (-> & -> & -> & _ & H) (-> & -> & HL).
  destruct (tk_label t), (tk_label t'); try done. destruct H. split_and!; congruence.
Qed.

Lemma addLabel_titled t : titled (addLabel t).
Proof.
  unfold titled, addLabel. cbn. split_and!; [done..|].
  destruct (tk_label t); [done|]. case_bool_decide as H; cbn; [|right; by apply eq_None_not_Some].
  destruct (tl_enabled labels); [done|by left].
Qed.

Lemma render_tick_kept offset ts i old t t' :
  render_tick offset ts i old t = Ok t' -> kept t t' /\ tk_isActive t' = tk_isActive t.
Proof.
  unfold render_tick. destruct (getPosition _ _ _) as [x y].
  destruct (tk_label t) as [l|] eqn:El; [destruct x as [x|]|].
  - rewrite res_bind_ok. intros ([n l'] & H & [= <-]).
    apply res_bind_ok in H as ([sh l2] & H & [= <- <-]).
    unfold kept. cbn. rewrite El. split_and!; try done;
      unfold render_label in H; destruct (getLabelPosition _ _ _ _) as [lx ly];
      apply res_bind_ok in H as ([? ?] & _ & [= _ <-]); done.
  - intros [= <-]. unfold kept. cbn. by rewrite El.
  - intros [= <-]. unfold kept. cbn. by rewrite El.
Qed.

Lemma show_tick_spec k slideIn offset ts i p ts' :
  show_tick k slideIn offset ts i p = Ok ts' ->
  exists t', ts' = <[key p := t']> ts /\ kept (default (new_tick k (key p)) (ts !! key p)) t' /\
    tk_isActive t' = true.
Proof.
  unfold show_tick. set (t := default _ _). rewrite res_bind_ok. intros (t1 & H1 & H).
  rewrite res_bind_ok in H. destruct H as (t2 & H2 & [= <-]).
  apply render_tick_kept in H2 as [H2 Ha].
  exists t2. rewrite !insert_insert_eq. split_and!; [done| |done].
  eapply tick_kept_trans; [|exact H2].
  assert (kept t t1) as Ht by (destruct (slideIn && tk_isNew t);
    [by apply render_tick_kept in H1 as [H1 _]|injection H1 as <-; apply tick_kept_refl]).
  eapply tick_kept_trans; [exact Ht|]. unfold kept, set_active. cbn. by destruct (tk_label t1).
Qed.

(** After a walk over positions, the ticks there are drawn and the others untouched. *)
Lemma new_tick_pos k p : tk_pos (new_tick k p) = p.
Proof. by destruct k. Qed.

Lemma show_tick_walk k slideIn offset ts i p ts' :
  filed ts -> show_tick k slideIn offset ts i p = Ok ts' ->
  filed ts' /\ (forall p', has_titled ts p' -> has_titled ts' p') /\
  (exists t', ts' !! key p = Some t' /\ tk_isActive t' = true) /\
  (forall k', k' <> key p -> ts' !! k' = ts !! k').
Proof.
  intros Hf (t' & -> & Hk & Ha)%show_tick_spec. split_and!.
  - intros k' t [[<- <-]|[_ H]]%lookup_insert_Some; [|by apply Hf].
    destruct Hk as [-> _]. destruct (ts !! key p) as [t|] eqn:E; [by apply Hf in E|apply new_tick_pos].
  - intros p' (t & Ht & HT). unfold has_titled.
    destruct (decide (key p = key p')) as [E|E].
    + rewrite <-E in Ht |- *. rewrite lookup_insert_eq. rewrite Ht in Hk. cbn in Hk.
      exists t'. split; [done|]. by eapply kept_titled.
    + rewrite lookup_insert_ne by done. by exists t.
  - exists t'. by rewrite lookup_insert_eq.
  - intros k' Hne. by rewrite lookup_insert_ne.
Qed.

Definition shown (p : pos) : bool := negb linked || in_range p.

Definition drawn_keys (l : list (nat * pos)) : list pos :=
  List.map (fun e => key e.2) (List.filter (fun e => shown e.2) l).

Lemma show_major_walk slideIn offset l : forall ts ts',
  filed ts -> show_major slideIn offset l ts = Ok ts' ->
  filed ts' /\ (forall p, has_titled ts p -> has_titled ts' p) /\
  (forall k, k ∈ drawn_keys l -> exists t', ts' !! k = Some t' /\ tk_isActive t' = true) /\
  (forall k, k ∉ drawn_keys l -> ts' !! k = ts !! k).
Proof.
  induction l as [|[i p] l IH]; intros ts ts' Hf; cbn [show_major].
  { intros [= <-]. split_and!; try done. by intros ? ?%elem_of_nil. }
  rewrite res_bind_ok. intros (ts1 & H1 & H). fold (shown p) in H1.
  unfold drawn_keys. cbn [List.filter snd]. destruct (shown p) eqn:Es; fold (drawn_keys l).
  2:{ injection H1 as <-. by apply IH. }
  apply show_tick_walk in H1 as (Hf1 & HT1 & (t1 & Ht1 & Ha1) & Ho1); [|done].
  destruct (IH _ _ Hf1 H) as (A & B & C & D).
  cbn [List.map snd]. fold (drawn_keys l). split_and!; [done|by auto| |].
  - intros k [->|Hin]%elem_of_cons; [|by apply C].
    destruct (decide (key p ∈ drawn_keys l)) as [Hin|Hno]; [by apply C|].
    exists t1. by rewrite D.
  - intros k [Hne Hno]%not_elem_of_cons. by rewrite D, Ho1.
Qed.

Lemma show_minor_walk slideIn offset l : forall ts ts',
  show_minor slideIn offset l ts = Ok ts' ->
  (forall k, k ∈ List.map key l -> exists t', ts' !! k = Some t' /\ tk_isActive t' = true) /\
  (forall k, k ∉ List.map key l -> ts' !! k = ts !! k) /\ (filed ts -> filed ts').
Proof.
  induction l as [|p l IH]; intros ts ts'; cbn [show_minor].
  { intros [= <-]. split_and!; try done. by intros ? ?%elem_of_nil. }
  rewrite res_bind_ok. intros (ts1 & H1 & H). destruct (IH _ _ H) as (C & D & A).
  pose proof H1 as (t1 & -> & _ & Ha)%show_tick_spec. cbn [List.map]. split_and!.
  - intros k [->|Hin]%elem_of_cons; [|by apply C].
    destruct (decide (key p ∈ List.map key l)) as [Hin|Hno]; [by apply C|].
    exists t1. by rewrite D, lookup_insert_eq.
  - intros k [Hne Hno]%not_elem_of_cons. by rewrite D, lookup_insert_ne.
  - intros Hf. apply A. by eapply show_tick_walk in H1 as [? _].
Qed.

(** What is kept once the others are gone. *)
Lemma keep_active_lookup ts k t :
  keep_active ts !! k = Some t <-> exists t0, ts !! k = Some t0 /\ tk_isActive t0 = true /\ t = set_active false t0.
Proof.
  unfold keep_active. rewrite lookup_fmap, fmap_Some. split.
  - intros (t0 & [H1 H2]%map_lookup_filter_Some & ->). by exists t0.
  - intros (t0 & H1 & H2 & ->). exists t0. split; [|done]. by apply map_lookup_filter_Some.
Qed.

Lemma keep_active_dom ts ts0 ks :
  inactive ts0 -> (forall k, k ∈ ks -> exists t, ts !! k = Some t /\ tk_isActive t = true) ->
  (forall k, k ∉ ks -> ts !! k = ts0 !! k) ->
  dom (keep_active ts) = list_to_set ks.
Proof.
  intros Hi Hin Hout. apply set_eq. intros k. rewrite elem_of_dom, elem_of_list_to_set. split.
  - intros [t (t0 & H1 & H2 & ->)%keep_active_lookup].
    destruct (decide (k ∈ ks)) as [|Hno]; [done|]. rewrite Hout in H1 by done.
    apply Hi in H1. congruence.
  - intros (t & H1 & H2)%Hin. exists (set_active false t). apply keep_active_lookup. by exists t.
Qed.

Lemma keep_active_inactive ts : inactive (keep_active ts).
Proof. by intros k t (t0 & _ & _ & ->)%keep_active_lookup. Qed.
Lemma keep_active_filed ts : filed ts -> filed (keep_active ts).
Proof. intros Hf k t (t0 & H & _ & ->)%keep_active_lookup. by apply Hf in H. Qed.
Lemma keep_active_titled ts p : (exists t, ts !! key p = Some t /\ tk_isActive t = true) ->
  has_titled ts p -> has_titled (keep_active ts) p.
Proof.
  intros (t & Ht & Ha) (t1 & Ht1 & HT). assert (t1 = t) as -> by congruence.
  exists (set_active false t). split; [|done]. apply keep_active_lookup. by exists t.
Qed.

(** Writing the labels and measuring them. *)
Lemma addLabel_keeps t : tk_pos (addLabel t) = tk_pos t /\ tk_isActive (addLabel t) = tk_isActive t.
Proof. done. Qed.

Lemma label_ticks_walk l : forall ts, filed ts -> inactive ts ->
  let ts' := fold_left (fun ts p => <[key p := match ts !! key p with
                | None => new_tick Major (key p) | Some t => addLabel t end]> ts) l ts in
  filed ts' /\ inactive ts' /\ (forall p, has_titled ts p -> has_titled ts' p) /\
  (forall p, p ∈ l -> has_titled ts' p).
Proof.
  induction l as [|p l IH]; intros ts Hf Hi; cbn.
  { split_and!; try done. by intros ? ?%elem_of_nil. }
  set (t := match ts !! key p with None => _ | Some t => _ end).
  assert (tk_pos t = key p /\ tk_isActive t = false /\ titled t) as (H1 & H2 & H3).
  { unfold t. destruct (ts !! key p) as [t0|] eqn:E.
    - split_and!; [by apply Hf in E|by apply Hi in E|apply addLabel_titled].
    - split_and!; [done|done|apply addLabel_titled]. }
  assert (has_titled (<[key p := t]> ts) p) as HT by (exists t; by rewrite lookup_insert_eq).
  destruct (IH (<[key p := t]> ts)) as (A & B & C & D).
  - intros k t' [[<- <-]|[_ H]]%lookup_insert_Some; [done|by apply Hf].
  - intros k t' [[<- <-]|[_ H]]%lookup_insert_Some; [done|by eapply Hi].
  - split_and!; [done..| |].
    + intros p' (t' & Ht' & HT'). apply C. unfold has_titled.
      destruct (decide (key p = key p')) as [E|E].
      * exists t. by rewrite <-E, lookup_insert_eq.
      * exists t'. by rewrite lookup_insert_ne.
    + intros p' [->|Hin]%elem_of_cons; [by apply C|by apply D].
Qed.

Definition measured (t : tick) : Prop := forall l, tk_label t = Some l -> tk_bbox t = Some (label_box l).

Lemma getLabelSize_kept t : let t' := (getLabelSize t).2 in
  tk_pos t' = tk_pos t /\ tk_isActive t' = tk_isActive t /\ tk_label t' = tk_label t /\
  tk_isFirst t' = tk_isFirst t /\ tk_isLast t' = tk_isLast t /\ measured t'.
Proof.
  unfold getLabelSize, measured. destruct (tk_label t) as [l|] eqn:E; cbn; rewrite ?E; split_and!; try done.
  by intros l' [= <-].
Qed.

Lemma getLabelSize_label t t' : tk_label t' = tk_label t -> (getLabelSize t').1 = (getLabelSize t).1.
Proof. unfold getLabelSize. intros ->. by destruct (tk_label t). Qed.

(** What measuring leaves of the ticks: each keeps its place and label. *)
Definition measures (ks : list pos) (a a' : Q * ticks) : Prop :=
  (filed a.2 -> filed a'.2) /\ (inactive a.2 -> inactive a'.2) /\ (a.1 <= a'.1)%Q /\
  forall k t, a.2 !! k = Some t -> exists t', a'.2 !! k = Some t' /\ tk_label t' = tk_label t /\
    (titled t -> titled t') /\ (measured t -> measured t') /\
    (k ∈ ks -> measured t' /\ ((getLabelSize t).1 <= a'.1)%Q).

Lemma measure_step_measures a p : measures [key p] a (measure_step a p).
Proof.
  unfold measures, measure_step. destruct (a.2 !! key p) as [t|] eqn:E.
  2:{ split_and!; [done|done|apply Qle_refl|]. intros k t Ht. exists t. split_and!; try done.
      intros ->%list_elem_of_singleton. congruence. }
  pose proof (getLabelSize_kept t) as (H1 & H2 & H3 & H4 & H5 & H6).
  destruct (getLabelSize t) as [size t1] eqn:Et. cbn in H1, H2, H3, H4, H5, H6 |- *. split_and!.
  - intros Hf k t' [[<- <-]|[_ H]]%lookup_insert_Some; [|by apply Hf]. apply Hf in E. by rewrite H1.
  - intros Hi k t' [[<- <-]|[_ H]]%lookup_insert_Some; [|by eapply Hi]. apply Hi in E. by rewrite H2.
  - apply Q.le_max_r.
  - intros k t' Ht'. destruct (decide (key p = k)) as [<-|Hne].
    + rewrite E in Ht'. injection Ht' as <-. exists t1. rewrite lookup_insert_eq. split_and!; try done.
      * unfold titled. by rewrite H1, H3, H4, H5.
      * intros _. split; [done|]. rewrite Et. apply Q.le_max_l.
    + exists t'. rewrite lookup_insert_ne by done. split_and!; try done.
      by intros ->%list_elem_of_singleton.
Qed.

Lemma measure_walk l : forall a, measures (List.map key l) a (fold_left measure_step l a).
Proof.
  induction l as [|p l IH]; intros a; cbn.
  { split_and!; try done; [apply Qle_refl|]. intros k t Ht. exists t. split_and!; try done.
    by intros ?%elem_of_nil. }
  destruct (measure_step_measures a p) as (A1 & B1 & C1 & D1).
  destruct (IH (measure_step a p)) as (A2 & B2 & C2 & D2). split_and!; [by auto|by auto|by eapply Qle_trans|].
  intros k t (t1 & Ht1 & L1 & T1 & M1 & S1)%D1.
  destruct (D2 _ _ Ht1) as (t2 & Ht2 & L2 & T2 & M2 & S2).
  exists t2. split_and!; [done|congruence|by auto|by auto|].
  intros [->|Hin]%elem_of_cons.
  - destruct S1 as [S1 S1']; [by left|]. split; [by auto|by eapply Qle_trans].
  - destruct (S2 Hin) as [S S']. split; [done|]. by rewrite <-(getLabelSize_label t t1).
Qed.

Lemma getOffset_ticks has_series titleSize room d :
  let d1 := (getOffset has_series titleSize room d).2 in
  filed (d_ticks d) -> inactive (d_ticks d) -> d_hasData d1 || linked = true ->
  filed (d_ticks d1) /\ inactive (d_ticks d1) /\
  (forall p, p ∈ positions -> exists t, d_ticks d1 !! key p = Some t /\ titled t /\
     (labels_aside = true -> measured t)).
Proof.
  cbn zeta. unfold getOffset. set (hd := has_series && _ && _). intros Hf Hi.
  destruct (hd || linked) eqn:Eh.
  2:{ cbn. fold hd. rewrite Eh. done. }
  intros _. destruct (label_ticks_walk positions (d_ticks d) Hf Hi) as (A & B & _ & D).
  fold (label_ticks (d_ticks d)) in A, B, D.
  destruct labels_aside.
  - destruct (measure_walk positions (0%Q, label_ticks (d_ticks d))) as (A' & B' & _ & D').
    fold (measure_ticks (label_ticks (d_ticks d))) in A', B', D'.
    destruct (measure_ticks _) as [size ts]. cbn in A', B', D' |- *.
    split_and!; [by auto|by auto|]. intros p Hp. destruct (D p Hp) as (t & Ht & HT).
    destruct (D' _ _ Ht) as (t' & Ht' & _ & HT' & _ & Hm). exists t'. split_and!; [done|by auto|].
    intros _. apply Hm. apply list_elem_of_In, in_map, list_elem_of_In, Hp.
  - cbn. split_and!; [done..|]. intros p Hp. destruct (D p Hp) as (t & Ht & HT). by exists t.
Qed.

Lemma major_order_in i p : positions <> [] -> (i, p) ∈ major_order <-> positions !! i = Some p.
Proof.
  unfold major_order. generalize positions. intros [|p0 rest] Hne; [done|].
  rewrite elem_of_app, list_elem_of_singleton. split.
  - intros [Hin|[= -> ->]]; [|done]. apply list_elem_of_lookup in Hin as [n Hn].
    apply lookup_zip_Some in Hn as [Hs Hr]. apply lookup_seq in Hs as [-> _]. done.
  - destruct i as [|i]; cbn; [intros [= ->]; by right|]. intros Hr. left.
    apply list_elem_of_lookup. exists i. apply lookup_zip_Some. split; [|done].
    apply lookup_seq. split; [done|]. by apply lookup_lt_Some in Hr.
Qed.

Lemma drawn_keys_in k : positions <> [] ->
  k ∈ drawn_keys major_order <-> k ∈ List.map key (List.filter shown positions).
Proof.
  intros Hne. unfold drawn_keys. rewrite !list_elem_of_In, !in_map_iff. split.
  - intros ([i p] & <- & [Hin Hs]%filter_In). exists p. split; [done|]. apply filter_In. split; [|done].
    apply list_elem_of_In, (major_order_in i p Hne), list_elem_of_lookup_2 in Hin. by apply list_elem_of_In.
  - intros (p & <- & [Hin Hs]%filter_In). apply list_elem_of_In, list_elem_of_lookup in Hin as [i Hi].
    exists (i, p). split; [done|]. apply filter_In. split; [|done].
    by apply list_elem_of_In, major_order_in.
Qed.

(** Between two drawings every tick is filed under its place and waits to be drawn. *)
Definition drawn_ok (d : axis_draw) : Prop :=
  filed (d_ticks d) /\ inactive (d_ticks d) /\ filed (d_minorTicks d) /\ inactive (d_minorTicks d).

Definition minor_keys (minorPositions : option (list pos)) : list pos :=
  match minorPositions, categories with Some l, None => List.map key l | _, _ => [] end.

Lemma render_ticks hasRendered minors d d' :
  filed (d_ticks d) -> inactive (d_ticks d) -> filed (d_minorTicks d) -> inactive (d_minorTicks d) ->
  positions <> [] -> d_hasData d || linked = true ->
  render hasRendered minors d = Ok d' ->
  drawn_ok d' /\
  dom (d_ticks d') = list_to_set (List.map key (List.filter shown positions)) /\
  dom (d_minorTicks d') = list_to_set (minor_keys minors) /\
  forall p, p ∈ positions -> shown p = true -> has_titled (d_ticks d) p -> has_titled (d_ticks d') p.
Proof.
  intros Hf Hi Hfm Him Hne Hd. unfold render. rewrite Hd, res_bind_ok. intros (mi & H1 & H).
  apply res_bind_ok in H as (ma & H2 & [= <-]). cbn [d_ticks d_minorTicks].
  apply show_major_walk in H2 as (A & B & C & D); [|done].
  assert (filed mi /\ dom (keep_active mi) = list_to_set (minor_keys minors)) as [Hfm' Hdm].
  { unfold minor_keys. destruct minors as [l|]; [destruct categories|].
    2:{ apply show_minor_walk in H1 as (C' & D' & A'). split; [by auto|].
        by eapply keep_active_dom. }
    all: injection H1 as <-; split; [done|]; eapply keep_active_dom; try done;
      by intros k ?%elem_of_nil. }
  split_and!; [|by eapply (keep_active_dom ma (d_ticks d)); [done|
    intros k Hk; apply C, drawn_keys_in; done|intros k Hk; apply D; by rewrite drawn_keys_in]|done|].
  - split_and!; [by apply keep_active_filed|apply keep_active_inactive|by apply keep_active_filed|
      apply keep_active_inactive].
  - intros p Hp Hs HT. apply keep_active_titled; [|by apply B].
    apply C, drawn_keys_in; [done|]. apply list_elem_of_In, in_map, filter_In.
    split; [by apply list_elem_of_In|done].
Qed.

Lemma redraw_render hasRendered minors d d' :
  redraw hasRendered minors d = Ok d' ->
  exists d1, render hasRendered minors d = Ok d1 /\ d_ticks d' = d_ticks d1 /\ d_minorTicks d' = d_minorTicks d1.
Proof.
  unfold redraw. rewrite res_bind_ok. intros (d1 & H1 & H). exists d1. split; [done|].
  destruct (forallb _ _); [by injection H as <-|done].
Qed.

(** C18: Whatever an axis showed before, once it is redrawn it has exactly one tick for
    each of its positions and one minor tick for each minor position, and every label
    has the text of its position as the first, the last or one in between. *)
Theorem axis_shows_ticks has_series titleSize room hasRendered minors d d' :
  let d1 := (getOffset has_series titleSize room d).2 in
  drawn_ok d -> positions <> [] -> d_hasData d1 || linked = true ->
  redraw hasRendered minors d1 = Ok d' ->
  drawn_ok d' /\
  dom (d_ticks d') = list_to_set (List.map key (List.filter shown positions)) /\
  dom (d_minorTicks d') = list_to_set (minor_keys minors) /\
  forall p, p ∈ positions -> shown p = true ->
    exists t, d_ticks d' !! key p = Some t /\ tk_pos t = key p /\ titled t.
Proof.
  intros d1 (Hf & Hi & Hfm & Him) Hne Hd (d2 & H & Et & Em)%redraw_render.
  destruct (getOffset_ticks has_series titleSize room d Hf Hi Hd) as (Hf1 & Hi1 & HT). fold d1 in Hf1, Hi1, HT.
  assert (d_minorTicks d1 = d_minorTicks d) as Hm.
  { unfold d1, getOffset. destruct (_ && _ || linked); [destruct (if labels_aside then _ else _)|]; done. }
  apply render_ticks in H as (Hok & Hdom & Hmin & Hall); try (rewrite Hm; done); try done.
  unfold drawn_ok. rewrite Et, Em. split; [exact Hok|]. split; [done|]. split; [done|].
  intros p Hp Hs. destruct (HT p Hp) as (t & Ht & Htt & _).
  destruct (Hall p Hp Hs) as (t' & Ht' & Htt'); [by exists t|].
  exists t'. split; [done|]. split; [|done]. destruct Hok as [Hf' _]. exact (Hf' _ _ Ht').
Qed.

(** ** Labels that are kept inside the axis *)

(** From where to where a label reaches. *)
Definition extent (t : tick) : option (Q * Q) :=
  l ← tk_label t; xy ← lb_xy l; sides ← getLabelSides t;
  Some (xy.1 + sides.1, xy.1 + sides.2)%Q.

Definition ready (t : tick) : Prop := titled t /\ is_Some (tk_label t) /\ measured t.

Lemma measured_sides t : is_Some (tk_label t) -> measured t ->
  exists l r, getLabelSides t = Some (l, r).
Proof. intros [l El] Hm. unfold getLabelSides. rewrite (Hm l El). cbn. eauto. Qed.

Lemma kept_ready t t' : kept t t' -> ready t -> ready t'.
Proof.
  intros Hk (HT & [l El] & Hm). split; [by eapply kept_titled|].
  destruct Hk as (_ & _ & _ & Eb & H). rewrite El in H. destruct (tk_label t') as [l'|] eqn:El'; [|done].
  split; [done|]. intros l2 E2. assert (l2 = l') as -> by congruence.
  rewrite Eb, (Hm l El). unfold label_box. by destruct H as [-> ->].
Qed.

(** The neighbour [handleOverflow] looks at. *)
Definition neighbour_of (isFirst : bool) (index : nat) : pos :=
  default None (if isFirst then positions !! S index
                else match index with 0%nat => None | S i => positions !! i end).

(** A label at the left end of the axis; one at the right end. *)
Definition fits_left (e : Q * Q) (nb : option (Q * Q)) (moved : Prop) : Prop :=
  (cm_plotLeft c <= e.1)%Q /\ (moved -> forall b, nb = Some b -> (e.2 <= b.1)%Q).
Definition fits_right (e : Q * Q) (nb : option (Q * Q)) (moved : Prop) : Prop :=
  (e.2 <= cm_plotLeft c + m_len m)%Q /\ (moved -> forall b, nb = Some b -> (b.2 <= e.1)%Q).

Lemma handleOverflow_ok ts index t x :
  o_reversed o = false -> ready t ->
  (tk_isFirst t || tk_isLast t = true ->
   forall nb, ts !! key (neighbour_of (tk_isFirst t) index) = Some nb -> is_Some (extent nb)) ->
  exists show x' sl sr, handleOverflow ts index t x = Ok (show, x') /\ getLabelSides t = Some (sl, sr) /\
    let nb := ts !! key (neighbour_of (tk_isFirst t) index) ≫= extent in
    (show = true -> tk_isFirst t = true -> fits_left (x' + sl, x' + sr)%Q nb (x' <> x)) /\
    (show = true -> tk_isFirst t = false -> tk_isLast t = true ->
     fits_right (x' + sl, x' + sr)%Q nb (x' <> x)).
Proof.
  intros Hr (_ & HL & Hm) Hn. destruct (measured_sides t HL Hm) as (sl & sr & Es).
  unfold handleOverflow. destruct (tk_isFirst t || tk_isLast t) eqn:Efl; cbn [negb].
  2:{ apply orb_false_iff in Efl as [E1 E2]. exists true, x, sl, sr. rewrite E1, E2. by split_and!. }
  specialize (Hn eq_refl). unfold neighbour_of in *.
  set (nb := ts !! key _) in *. rewrite Es. cbn [of_option mbind res_bind]. cbv zeta. fold nb.
  assert (exists eb, (nb ≫= extent) = eb /\
    match nb with
    | None => Ok None
    | Some nb => l ← of_option (tk_label nb); xy ← of_option (lb_xy l); sides ← of_option (getLabelSides nb);
        Ok (Some (xy.1 + (if tk_isFirst t then sides.1 else sides.2))%Q)
    end = Ok ((fun b => if tk_isFirst t then b.1 else b.2) <$> eb)) as (eb & -> & ->).
  { exists (nb ≫= extent). split; [done|]. destruct nb as [n|]; [|done].
    destruct (Hn n eq_refl) as [e He]. cbn. unfold extent in *.
    destruct (tk_label n) as [l|]; [|done]. cbn in *. destruct (lb_xy l) as [xy|]; [|done]. cbn in *.
    destruct (getLabelSides n) as [sd|]; [|done]. cbn. by destruct (tk_isFirst t). }
  cbn [mbind res_bind]. rewrite Hr, andb_false_r, orb_false_r.
  destruct (tk_isFirst t) eqn:Ef; cbn [andb negb].
  - destruct (Qlt_b (x + sl) (cm_plotLeft c)) eqn:El.
    + eexists _, _, sl, sr. split_and!; [done..| |done]. intros Hs _. split; cbn; [lra|].
      intros _ b ->. cbn in Hs. apply negb_true_iff in Hs. by apply Qlt_b_false in Hs.
    + eexists _, _, sl, sr. split_and!; [done..| |done]. intros _ _. split; [by apply Qlt_b_false in El|done].
  - cbn in Efl. destruct (Qlt_b (cm_plotLeft c + m_len m) (x + sr)) eqn:El.
    + eexists _, _, sl, sr. split_and!; [done..|]. intros Hs _ _. split; cbn; [lra|].
      intros _ b ->. cbn in Hs. apply negb_true_iff in Hs. by apply Qlt_b_false in Hs.
    + eexists _, _, sl, sr. split_and!; [done..|]. intros _ _ _. split; [by apply Qlt_b_false in El|done].
Qed.

(** Where a label would be by itself, and where it is. *)
Definition natural_x (p : pos) : option Q :=
  x ← place ((fun p => p + tickmarkOffset)%Q <$> p) false;
  Some (x + t_transB (s_translation s) + tl_x labels
        - tickmarkOffset * t_transA (s_translation s) * (if o_reversed o then -1 else 1))%Q.
Definition at_x (t : tick) : option Q := l ← tk_label t; fst <$> lb_xy l.
Definition visible (t : tick) : bool := match tk_label t with Some l => lb_visible l | None => false end.

(** An axis along the bottom or top whose first and last label are kept inside. *)
Record justified : Prop := Justified {
  j_horiz : horiz = true; j_justify : tl_justify labels = true; j_stagger : tl_staggerLines labels = 0;
  j_reversed : o_reversed o = false; j_linked : o_linked o = None; j_ordinal : o_ordinal o = false;
  j_min : is_Some (r_min (s_ranges s)); j_enabled : tl_enabled labels = true;
  j_text : forall p a b, p ∈ positions -> is_Some (label_text (key p) a b)
}.

Section fits.
Context (J : justified).

Lemma place_some x old : (old = true -> is_Some (s_oldMin s)) -> is_Some (place (Some x) old).
Proof.
  intros Ho. unfold place. cbn. unfold HsScale.translate. rewrite (j_ordinal J), (j_reversed J), andb_false_r.
  cbn. destruct old; [destruct (Ho eq_refl) as [v ->]|destruct (j_min J) as [v ->]]; cbn; eauto.
Qed.

(** The neighbour is another tick, and it is in its place. *)
Definition neighbour_put (ts : ticks) (index : nat) (t : tick) : Prop :=
  tk_isFirst t || tk_isLast t = true ->
  key (neighbour_of (tk_isFirst t) index) <> key (tk_pos t) /\
  forall nb, ts !! key (neighbour_of (tk_isFirst t) index) = Some nb -> is_Some (extent nb).

Definition fits (ts : ticks) (index : nat) (t t' : tick) (e : Q * Q) : Prop :=
  let nb := ts !! key (neighbour_of (tk_isFirst t) index) ≫= extent in
  let moved := at_x t' <> natural_x (tk_pos t) in
  visible t' = true ->
  (tk_isFirst t = true -> fits_left e nb moved) /\
  (tk_isFirst t = false -> tk_isLast t = true -> fits_right e nb moved).

Lemma render_tick_ok offset ts index old t :
  ready t -> is_Some (tk_pos t) -> (old = true -> is_Some (s_oldMin s)) -> neighbour_put ts index t ->
  exists t' e, render_tick offset ts index old t = Ok t' /\ extent t' = Some e /\
    (old = false -> fits ts index t t' e).
Proof.
  intros Hr [p Hp] Ho Hn. unfold render_tick. rewrite Hp. cbn [fmap option_fmap option_map].
  destruct (place_some (p + tickmarkOffset)%Q old Ho) as [x Hx].
  unfold getPosition. rewrite (j_horiz J), Hx. cbn [fmap option_fmap option_map].
  destruct Hr as (HT & [l El] & Hm). rewrite El. unfold render_label, getLabelPosition. rewrite (j_horiz J).
  set (lx := (x + _ + _ - _)%Q). set (ly := _ <$> _).
  set (t1 := tset_label _ _ t).
  assert (ready t1) as Hr1.
  { split; [|split; [by eexists|]].
    - unfold titled, t1 in *. cbn. by rewrite El in HT.
    - intros l' [= <-]. cbn. by rewrite (Hm l El). }
  assert (getLabelSides t1 = getLabelSides t) as Es1 by done.
  destruct (measured_sides t1 ltac:(by eexists) ltac:(apply Hr1)) as (sl & sr & Es).
  assert (forall t' x' y, tk_label t' <> None -> (forall l', tk_label t' = Some l' -> lb_xy l' = Some (x', y)) ->
            tk_bbox t' = tk_bbox t -> extent t' = Some (x' + sl, x' + sr)%Q) as Hext.
  { intros t' x' y Hl Hxy Hb. unfold extent. destruct (tk_label t') as [l'|]; [|done].
    cbn [mbind option_bind]. rewrite (Hxy l' eq_refl). cbn [mbind option_bind]. assert (getLabelSides t' = getLabelSides t) as ->
      by (unfold getLabelSides; by rewrite Hb). by rewrite <-Es1, Es. }
  unfold staggerLines. rewrite (j_horiz J), (j_stagger J), (j_justify J). cbn [Z.eqb andb].
  destruct (hidden_end t) eqn:Eh.
  - cbn [mbind res_bind]. eexists _, _. split; [done|]. split; [by eapply Hext; [done|intros l' [= <-]|]|].
    intros _ Hv. cbn in Hv. done.
  - destruct (handleOverflow_ok (<[key (tk_pos t) := t1]> ts) index t lx (j_reversed J)) as
      (show & x' & sl' & sr' & -> & Es' & HL & HR); [by split; [|split; [by eexists|]]| |].
    { intros Hfl nb. destruct (Hn Hfl) as [Hne Hput]. rewrite lookup_insert_ne by done. apply Hput. }
    assert ((sl', sr') = (sl, sr)) as [= -> ->] by (rewrite <-Es1, Es in Es'; congruence).
    cbn [mbind res_bind]. eexists _, _. split; [done|].
    split; [by eapply Hext; [done|intros l' [= <-]|]|].
    intros -> Hv. cbn in Hv. apply andb_true_iff in Hv as [Hs _]. cbn [at_x tk_label mbind option_bind lb_xy].
    assert (natural_x (tk_pos t) = Some lx) as Hnat.
    { unfold natural_x. rewrite Hp. cbn [fmap option_fmap option_map]. rewrite Hx. cbn. unfold lx. done. }
    rewrite Hnat. assert (forall b, tk_isFirst t || tk_isLast t = b -> b = true ->
      <[key (tk_pos t) := t1]> ts !! key (neighbour_of (tk_isFirst t) index)
      = ts !! key (neighbour_of (tk_isFirst t) index)) as Hlk.
    { intros b Hb ->. destruct (Hn Hb) as [Hne _]. by rewrite lookup_insert_ne. }
    split.
    + intros Hf. specialize (HL Hs Hf). rewrite (Hlk true) in HL by (rewrite ?Hf; done).
      destruct HL as [A B]. split; [done|]. intros Hmv. apply B. intros ->. by apply Hmv.
    + intros Hf Hl. specialize (HR Hs Hf Hl). rewrite (Hlk true) in HR by (rewrite ?Hf, ?Hl; done).
      destruct HR as [A B]. split; [done|]. intros Hmv. apply B. intros ->. by apply Hmv.
Qed.

Context (Hnd : NoDup (List.map key positions)) (Hlen : (3 <= length positions)%nat).

Lemma same_index i j p p' : positions !! i = Some p -> positions !! j = Some p' -> key p = key p' -> i = j.
Proof.
  intros Hi Hj E. rewrite NoDup_alt in Hnd. apply (Hnd i j (key p)).
  - change (List.map key positions) with (key <$> positions). by rewrite list_lookup_fmap, Hi.
  - change (List.map key positions) with (key <$> positions). by rewrite list_lookup_fmap, Hj, E.
Qed.

Lemma flags i p t : positions !! i = Some p -> tk_pos t = key p -> titled t ->
  tk_isFirst t = Nat.eqb i 0 /\ tk_isLast t = Nat.eqb i (length positions - 1).
Proof.
  intros Hi Hp (-> & -> & _). rewrite Hp, head_lookup, last_lookup.
  destruct (lookup_lt_is_Some_2 positions 0%nat ltac:(lia)) as [p0 H0].
  destruct (lookup_lt_is_Some_2 positions (pred (length positions)) ltac:(lia)) as [p1 H1].
  rewrite H0, H1. cbn [default]. unfold same_pos. rewrite key_key.
  replace (length positions - 1)%nat with (pred (length positions)) by lia.
  split; case_bool_decide as H; symmetry.
  - apply Nat.eqb_eq. by eapply same_index.
  - apply Nat.eqb_neq. intros ->. apply H. rewrite H0 in Hi. by injection Hi as ->.
  - apply Nat.eqb_eq. by eapply same_index.
  - apply Nat.eqb_neq. intros ->. apply H. rewrite H1 in Hi. by injection Hi as ->.
Qed.

Definition all_ready (ts : ticks) : Prop :=
  filed ts /\ forall p, p ∈ positions -> exists t, ts !! key p = Some t /\ ready t.
Definition put (ts : ticks) (i : nat) : Prop :=
  forall p, positions !! i = Some p -> exists t, ts !! key p = Some t /\ is_Some (extent t).
Definition fit_at (ts : ticks) (i : nat) : Prop :=
  forall p, positions !! i = Some p ->
  exists t e, ts !! key p = Some t /\ extent t = Some e /\ fits ts i t t e.

(** The neighbour at index [j] has its own key. *)
Definition nb_index (i : nat) : nat := if Nat.eqb i 0 then 1%nat else (i - 1)%nat.
Lemma neighbour_index i p : positions !! i = Some p -> i = 0%nat \/ i = (length positions - 1)%nat ->
  exists p', neighbour_of (Nat.eqb i 0) i = p' /\ positions !! nb_index i = Some p' /\ key p' <> key p.
Proof.
  intros Hi Hends. assert (exists p', positions !! nb_index i = Some p') as [p' Hp'].
  { apply lookup_lt_is_Some_2. unfold nb_index. destruct (Nat.eqb i 0) eqn:E; [lia|].
    apply Nat.eqb_neq in E. lia. }
  exists p'. split; [|split; [done|]].
  - unfold neighbour_of, nb_index in *. destruct i as [|i]; cbn [Nat.eqb] in *; [by rewrite Hp'|].
    replace (S i - 1)%nat with i in Hp' by lia. by rewrite Hp'.
  - intros E. pose proof (same_index _ _ _ _ Hp' Hi E) as H. unfold nb_index in H.
    destruct (Nat.eqb i 0) eqn:E0; [apply Nat.eqb_eq in E0|apply Nat.eqb_neq in E0]; lia.
Qed.

Lemma show_tick_ok slideIn offset ts i p :
  (slideIn = true -> is_Some (s_oldMin s)) -> all_ready ts -> positions !! i = Some p ->
  (i = 0%nat \/ i = (length positions - 1)%nat -> put ts (nb_index i)) ->
  exists ts', show_tick Major slideIn offset ts i p = Ok ts' /\ all_ready ts' /\ put ts' i /\ fit_at ts' i /\
    forall k, k <> key p -> ts' !! k = ts !! k.
Proof.
  intros Ho [Hf Hall] Hi Hput.
  assert (is_Some p) as [x ->].
  { rewrite list_lookup_fmap in Hi. destruct (_ !! i); [|done]. injection Hi as <-. by eexists. }
  destruct (Hall _ (list_elem_of_lookup_2 _ _ _ Hi)) as (t & Ht & Hr).
  pose proof (Hf _ _ Ht) as Hpos. destruct (flags _ _ _ Hi Hpos (proj1 Hr)) as [Ef El].
  assert (forall ts0 t0, (forall k, k <> key (Some x) -> ts0 !! k = ts !! k) ->
            tk_pos t0 = tk_pos t -> tk_isFirst t0 = tk_isFirst t -> tk_isLast t0 = tk_isLast t ->
            neighbour_put ts0 i t0) as Hnp.
  { intros ts0 t0 Hts0 H1 H2 H3 Hfl. rewrite H1, H2. rewrite H2, H3, Ef, El in Hfl.
    assert (i = 0%nat \/ i = (length positions - 1)%nat) as Hends.
    { apply orb_true_iff in Hfl as [H%Nat.eqb_eq|H%Nat.eqb_eq]; auto. }
    rewrite Ef. destruct (neighbour_index _ _ Hi Hends) as (p' & -> & Hp' & Hne).
    rewrite Hpos, key_key. split; [done|]. intros nb Hnb. rewrite Hts0 in Hnb by done.
    destruct (Hput Hends _ Hp') as (t' & Ht' & He). congruence. }
  unfold show_tick. rewrite Ht. change (default (new_tick Major (key (Some x))) (Some t)) with t.
  assert (exists t1, (if slideIn && tk_isNew t then render_tick offset (<[key (Some x) := t]> ts) i true t
                      else Ok t) = Ok t1 /\ kept t t1) as (t1 & -> & Hk1).
  { destruct (slideIn && tk_isNew t) eqn:Es; [|exists t; split; [done|apply tick_kept_refl]].
    apply andb_true_iff in Es as [Es _].
    destruct (render_tick_ok offset (<[key (Some x) := t]> ts) i true t) as (t' & e & Et & _ & _);
      [done|by rewrite Hpos|by auto|apply Hnp; try done; intros k Hk; by rewrite lookup_insert_ne|].
    exists t'. split; [done|]. by apply render_tick_kept in Et as [? _]. }
  cbn [mbind res_bind]. set (t2 := set_active true t1).
  assert (kept t t2) as Hk2.
  { eapply tick_kept_trans; [exact Hk1|]. unfold kept, t2, set_active. cbn. by destruct (tk_label t1). }
  pose proof Hk2 as (Hp2 & Hf2 & Hl2 & _).
  destruct (render_tick_ok offset (<[key (Some x) := t2]> (<[key (Some x) := t]> ts)) i false t2) as (t3 & e & Et & He & Hfit);
    [by eapply kept_ready|by rewrite Hp2, Hpos|done|
     apply Hnp; try done; intros k Hk; by rewrite !lookup_insert_ne|].
  rewrite Et. cbn [mbind res_bind]. eexists. split; [done|]. rewrite !insert_insert_eq.
  apply render_tick_kept in Et as [Hk3 _]. pose proof (tick_kept_trans _ _ _ Hk2 Hk3) as Hk.
  split; [split|split_and!].
  - intros k t' [[<- <-]|[_ H]]%lookup_insert_Some; [|by apply Hf]. destruct Hk as [-> _]. done.
  - intros p' Hp'. destruct (decide (key (Some x) = key p')) as [E|E].
    + exists t3. rewrite <-E, lookup_insert_eq. split; [done|by eapply kept_ready].
    + rewrite lookup_insert_ne by done. by apply Hall.
  - intros p' Hp'. assert (p' = Some x) as -> by congruence. exists t3. by rewrite lookup_insert_eq, He.
  - intros p' Hp'. assert (p' = Some x) as -> by congruence. exists t3, e.
    rewrite lookup_insert_eq. split_and!; [done..|].
    destruct Hk3 as (Hp3 & Hf3 & Hl3 & _). unfold fits in Hfit |- *. rewrite Hp3, Hf3, Hl3.
    rewrite insert_insert_eq in Hfit. specialize (Hfit eq_refl).
    intros Hv. specialize (Hfit Hv). rewrite Hf2, Hl2, Ef, El in Hfit |- *.
    destruct (decide (i = 0%nat \/ i = (length positions - 1)%nat)) as [Hends|Hno].
    + destruct (neighbour_index _ _ Hi Hends) as (p' & E' & _ & Hne). rewrite E' in Hfit |- *.
      by rewrite lookup_insert_ne in Hfit |- *.
    + split; [intros H%Nat.eqb_eq|intros _ H%Nat.eqb_eq]; exfalso; apply Hno; auto.
  - intros k Hk'. by rewrite lookup_insert_ne.
Qed.

(** A tick keeps fitting when others are put in their places. *)
Lemma fit_at_same ts ts' i : (i = 0%nat \/ i = (length positions - 1)%nat) ->
  (forall p, positions !! i = Some p \/ positions !! nb_index i = Some p -> ts' !! key p = ts !! key p) ->
  all_ready ts -> fit_at ts i -> fit_at ts' i.
Proof.
  intros Hends Hsame [Hf Hall] Hfit p Hi. destruct (Hfit p Hi) as (t & e & Ht & He & H).
  exists t, e. rewrite Hsame by auto. split_and!; [done..|].
  destruct (Hall p (list_elem_of_lookup_2 _ _ _ Hi)) as (t' & Ht' & HT & _).
  assert (t' = t) as -> by congruence.
  destruct (flags _ _ _ Hi (Hf _ _ Ht) HT) as [Ef El].
  unfold fits in *. intros Hv. specialize (H Hv). rewrite Ef in H |- *.
  destruct (neighbour_index _ _ Hi Hends) as (p' & E' & Hp' & Hne). rewrite E' in H |- *.
  rewrite Hsame by auto. done.
Qed.

Lemma put_same ts ts' i : (forall p, positions !! i = Some p -> ts' !! key p = ts !! key p) ->
  put ts i -> put ts' i.
Proof. intros Hs Hp p Hi. rewrite Hs by done. by apply Hp. Qed.

Lemma show_major_ok slideIn offset p0 : (slideIn = true -> is_Some (s_oldMin s)) ->
  positions !! 0%nat = Some p0 ->
  forall l k ts, (1 <= k)%nat -> drop k positions = l -> all_ready ts ->
  (forall j, (1 <= j < k)%nat -> put ts j) ->
  ((length positions <= k)%nat -> fit_at ts (length positions - 1)) ->
  exists ts', show_major slideIn offset (zip (seq k (length l)) l ++ [(0%nat, p0)]) ts = Ok ts' /\
    all_ready ts' /\ (forall j, (j < length positions)%nat -> put ts' j) /\
    fit_at ts' 0 /\ fit_at ts' (length positions - 1).
Proof.
  intros Ho H0. induction l as [|p l IH]; intros k ts Hk Hdrop Hr Hput Hlast.
  - assert (length positions <= k)%nat as Hkn.
    { pose proof (length_drop positions k) as E. rewrite Hdrop in E. cbn in E. lia. }
    cbn [zip length seq app show_major]. unfold linked. rewrite (j_linked J).
    change (negb (bool_decide (is_Some (@None linked_parent))) || in_range p0) with true. cbn iota.
    destruct (show_tick_ok slideIn offset ts 0 p0 Ho Hr H0) as (ts' & -> & Hr' & Hp' & Hf' & Hsame).
    { intros _. apply Hput. unfold nb_index. cbn. lia. }
    cbn [mbind res_bind]. exists ts'. split_and!; try done.
    + intros j Hj. destruct (decide (j = 0%nat)) as [->|Hne]; [done|].
      eapply put_same; [|apply Hput; lia]. intros p Hp. apply Hsame. intros E.
      by apply Hne, (same_index _ _ _ _ Hp H0).
    + eapply fit_at_same; [by right| |exact Hr|by apply Hlast]. intros p Hp. apply Hsame. intros E.
      destruct Hp as [Hp|Hp]; pose proof (same_index _ _ _ _ Hp H0 E) as Hi; unfold nb_index in Hi;
        [lia|]. destruct (Nat.eqb_spec (length positions - 1) 0); lia.
  - assert (positions !! k = Some p) as Hkp.
    { rewrite <-(Nat.add_0_r k), <-lookup_drop, Hdrop. done. }
    pose proof (lookup_lt_Some _ _ _ Hkp) as Hkn.
    assert (drop (S k) positions = l) as Hdrop'.
    { rewrite <-Nat.add_1_r, <-drop_drop, Hdrop. done. }
    cbn [zip length seq app show_major]. unfold linked. rewrite (j_linked J).
    change (negb (bool_decide (is_Some (@None linked_parent))) || in_range p) with true. cbn iota.
    destruct (show_tick_ok slideIn offset ts k p Ho Hr Hkp) as (ts1 & -> & Hr1 & Hp1 & Hf1 & Hsame).
    { intros [?|?]; [lia|]. apply Hput. unfold nb_index. destruct (Nat.eqb_spec k 0); lia. }
    cbn [mbind res_bind]. apply IH; [lia|done|done| |].
    + intros j Hj. destruct (decide (j = k)) as [->|Hne]; [done|].
      eapply put_same; [|apply Hput; lia]. intros p' Hp'. apply Hsame. intros E.
      by apply Hne, (same_index _ _ _ _ Hp' Hkp).
    + intros HSk. replace (length positions - 1)%nat with k by lia. done.
Qed.

Definition unlabelled (ts : ticks) : Prop := forall k t, ts !! k = Some t -> tk_label t = None.

Lemma render_unlabelled offset ts i old t : tk_label t = None -> exists t', render_tick offset ts i old t = Ok t'.
Proof. intros E. unfold render_tick. destruct (getPosition _ _ _). rewrite E. by eexists. Qed.

Lemma show_minor_ok slideIn offset l : forall ts, unlabelled ts -> exists t', show_minor slideIn offset l ts = Ok t'.
Proof.
  induction l as [|p l IH]; intros ts Hu; cbn [show_minor]; [by eexists|].
  unfold show_tick. set (t := default _ _).
  assert (tk_label t = None) as Et.
  { unfold t. destruct (ts !! key p) as [t0|] eqn:E; [by apply Hu in E|done]. }
  assert (exists t1, (if slideIn && tk_isNew t then render_tick offset (<[key p := t]> ts) 0 true t
                      else Ok t) = Ok t1 /\ tk_label t1 = None) as (t1 & -> & E1).
  { destruct (slideIn && tk_isNew t); [|by exists t].
    destruct (render_unlabelled offset (<[key p := t]> ts) 0 true t Et) as [t1 H1]. exists t1. split; [done|].
    apply render_tick_kept in H1 as [(_ & _ & _ & _ & H) _]. rewrite Et in H. by destruct (tk_label t1). }
  cbn [mbind res_bind].
  destruct (render_unlabelled offset (<[key p := set_active true t1]> (<[key p := t]> ts)) 0 false
              (set_active true t1) E1) as [t2 H2].
  rewrite H2. cbn [mbind res_bind]. apply IH. rewrite !insert_insert_eq.
  intros k t' [[<- <-]|[_ H]]%lookup_insert_Some; [|by apply Hu in H].
  apply render_tick_kept in H2 as [(_ & _ & _ & _ & H) _]. cbn in H. rewrite E1 in H. by destruct (tk_label t2).
Qed.

(** What [fits] says of the two ends. *)
Lemma fit_at_ends ts i p t e : all_ready ts -> positions !! i = Some p -> ts !! key p = Some t ->
  extent t = Some e -> fit_at ts i -> visible t = true ->
  forall p' t' e', positions !! nb_index i = Some p' -> ts !! key p' = Some t' -> extent t' = Some e' ->
  (i = 0%nat -> fits_left e (Some e') (at_x t <> natural_x (tk_pos t))) /\
  (i = (length positions - 1)%nat -> fits_right e (Some e') (at_x t <> natural_x (tk_pos t))).
Proof.
  intros [Hf Hall] Hi Ht He Hfit Hv p' t' e' Hp' Ht' He'.
  destruct (Hfit p Hi) as (t0 & e0 & Ht0 & He0 & H).
  assert (t0 = t) as -> by congruence. assert (e0 = e) as -> by congruence.
  destruct (Hall p (list_elem_of_lookup_2 _ _ _ Hi)) as (t1 & Ht1 & HT & _).
  assert (t1 = t) as -> by congruence.
  destruct (flags _ _ _ Hi (Hf _ _ Ht) HT) as [Ef El].
  specialize (H Hv). rewrite Ef, El in H.
  split; intros Hend; (destruct (neighbour_index _ _ Hi) as (p1 & E1 & Hp1 & _); [by auto|]);
    rewrite E1 in H; assert (p1 = p') as -> by congruence; rewrite Ht' in H; cbn [mbind option_bind] in H;
    rewrite He' in H; destruct H as [HL HR].
  - apply HL. by apply Nat.eqb_eq.
  - apply HR; [apply Nat.eqb_neq; lia|by apply Nat.eqb_eq].
Qed.
End fits.

Lemma major_order_first p0 : positions !! 0%nat = Some p0 ->
  major_order = zip (seq 1 (length (drop 1 positions))) (drop 1 positions) ++ [(0%nat, p0)].
Proof. unfold major_order. generalize positions. by intros [|p rest] [= ->]. Qed.

End ticks.

(** The box of a stack reaches from the origin to the total, on either side of it. *)
Lemma stack_box_reaches (neg : bool) plotHeight y yZero x w :
  (if neg then y <= yZero else yZero <= y)%Q ->
  let b := stack_box false neg plotHeight y yZero x w in
  (y_ b == plotHeight - (if neg then yZero else y) /\
   y_ b + h_ b == plotHeight - (if neg then y else yZero))%Q.
Proof.
  unfold stack_box. cbn [y_ h_]. destruct neg; intros H.
  - pose proof (Qabs_neg (y - yZero) ltac:(lra)). split; lra.
  - pose proof (Qabs_pos (y - yZero) ltac:(lra)). split; lra.
Qed.

(** ** Examples *)

Definition demo_labels (justify : bool) : tick_labels :=
  TickLabels true AtCenter 0 (Some 14%Q) 0 0 0 0 justify.
Definition demo_style : line_style := LineStyle 1 5 1 false.
Definition demo_draw (justify : bool) (bands : list band_options) : draw_options :=
  DrawOptions false (demo_labels justify) false demo_style demo_style true true true None None 1 true bands
    (fun _ => None) 10.
Definition demo_axis (reversed : bool) : axis_options :=
  AxisOptions true true reversed false false false None None None None None 0 0 None false None 100 true
    false false no_size.
(** An axis 300 pixels long from 0 to [30], with ticks at [l]. *)
Definition demo_state (l : list Q) : axis_state :=
  AxisState (Metrics 10 10 300 200 10 10 300) (s_extremes new_axis) (Ranges (Some 0%Q) (Some 30%Q) None None None MRUndef)
    (HsScale.Translation 10 None 10 0 0 None) (TickState 10 None None l None) None [] None None.
Definition demo_text (a : formatter_args) : option string :=
  match fa_value a with
  | LCategory t => Some t | LNumber (Some x) => Some (show_Z (Qfloor x)) | LNumber None => None end.
(** Every text is [w] wide. *)
Definition demo_measure (w : Q) (_ : option string) (_ : option Z) : Q * Q := (w, 10%Q).
Definition empty_draw : axis_draw :=
  AxisDraw ∅ ∅ ∅ [] false false false 0 0 None None.

Section demo.
Context (reversed justify : bool) (bands : list band_options) (w : Q) (l : list Q).
Definition demo_offset (d : axis_draw) : axis_draw :=
  (getOffset (fun x => x) (demo_axis reversed) (demo_draw justify bands) demo_chart demo_text
     (demo_measure w) (demo_state l) None None true (0, 0)%Q [0; 0; 0; 0]%Q d).2.
Definition demo_render (minors : option (list (option Q))) (d : axis_draw) : res axis_draw :=
  render (fun x => x) (fun x => x) (demo_axis reversed) (demo_draw justify bands) demo_chart demo_text
    (demo_measure w) (demo_state l) None None false minors d.
Definition demo_redraw (minors : option (list (option Q))) (d : axis_draw) : res axis_draw :=
  redraw (fun x => x) (fun x => x) (demo_axis reversed) (demo_draw justify bands) demo_chart demo_text
    (demo_measure w) (demo_state l) None None false minors d.
End demo.

Definition drawn (r : res axis_draw) : axis_draw := match r with Ok d => d | Throw _ => empty_draw end.
(** The x of a label where it shows. *)
Definition label_at (d : axis_draw) (x : Q) : option (option string * option Q) :=
  t ← d_ticks d !! Some x; l ← tk_label t;
  Some (lb_text l, if lb_visible l then Qred ∘ fst <$> lb_xy l else None).

Definition first_drawing : axis_draw :=
  drawn (demo_redraw false true [] 20 [0; 15; 30]%Q (Some [Some 5%Q]) (demo_offset false true [] 20 [0; 15; 30]%Q empty_draw)).

Lemma map_members {K A} `{Countable K} (P : K -> A -> Prop) (ts : gmap K A) :
  Forall (fun e => P e.1 e.2) (map_to_list ts) -> forall k t, ts !! k = Some t -> P k t.
Proof. intros H0 k t Ht%elem_of_map_to_list. rewrite Forall_forall in H0. exact (H0 _ Ht). Qed.

Lemma first_drawing_ok : drawn_ok first_drawing.
Proof.
  split; [|split; [|split]]; [refine (map_members (fun k t => tk_pos t = k) _ _)|
    refine (map_members (fun k t => tk_isActive t = false) _ _)|
    refine (map_members (fun k t => tk_pos t = k) _ _)|
    refine (map_members (fun k t => tk_isActive t = false) _ _)]; vm_compute; repeat constructor.
Qed.

Lemma second_drawing : exists d', redraw (fun x => x) (fun x => x) (demo_axis false) (demo_draw true []) demo_chart
  demo_text (demo_measure 20) (demo_state [0; 10; 20; 30]%Q) None None false None
  (getOffset (fun x => x) (demo_axis false) (demo_draw true []) demo_chart demo_text (demo_measure 20)
     (demo_state [0; 10; 20; 30]%Q) None None true (0, 0)%Q [0; 0; 0; 0]%Q first_drawing).2 = Ok d'.
Proof. eexists. vm_compute. reflexivity. Qed.

Lemma axis_shows_ticks_witness :
  exists d', demo_redraw false true [] 20 [0; 10; 20; 30]%Q None
               (demo_offset false true [] 20 [0; 10; 20; 30]%Q first_drawing) = Ok d' /\
  dom (d_ticks d') = list_to_set [Some 0%Q; Some 10%Q; Some 20%Q; Some 30%Q].
Proof.
  unfold demo_redraw, demo_offset. destruct second_drawing as [d' E]. exists d'. split; [exact E|].
  destruct (axis_shows_ticks (fun x => x) (fun x => x) (demo_axis false) (demo_draw true []) demo_chart demo_text
    (demo_measure 20) (demo_state [0; 10; 20; 30]%Q) None None true (0, 0)%Q [0; 0; 0; 0]%Q false None first_drawing d'
    first_drawing_ok) as (_ & -> & _); [done|vm_compute; done|exact E|].
  apply (f_equal list_to_set). vm_compute. done.
Defined.


(** With two ticks the last label looks for the place of the first one, which has none
    yet. *)
Example two_ticks_throw :
  demo_render false true [] 20 [0; 30]%Q None (demo_offset false true [] 20 [0; 30]%Q empty_draw)
  = Throw TypeError.
Proof. vm_compute. done. Qed.

(** On a reversed axis the wrong side of the neighbour is looked at: the first label is
    pushed over its neighbour and still shows. *)
Example reversed_overlaps :
  let d := drawn (demo_render true true [] 120 [0; 7; 15; 30]%Q None
                    (demo_offset true true [] 120 [0; 7; 15; 30]%Q empty_draw)) in
  label_at d 0 = Some (Some "0"%string, Some 250%Q) /\ label_at d 7 = Some (Some "7"%string, Some 240%Q).
Proof. vm_compute. done. Qed.

(** Only a label that shows ends the novelty of a tick: a minor tick stays new. *)
Example minor_stays_new :
  let d := drawn (demo_render false true [] 20 [0; 15; 30]%Q (Some [Some 5%Q])
                    (demo_offset false true [] 20 [0; 15; 30]%Q first_drawing)) in
  (tk_isNew <$> d_ticks d !! Some 15%Q, tk_isNew <$> d_minorTicks d !! Some 5%Q) = (Some false, Some true).
Proof. vm_compute. done. Qed.

(** A plot line without a width is nothing to render, and redrawing stumbles over it. *)
Example line_without_width :
  demo_redraw false true [BandOptions None 0 (Some 5%Q) None None None] 20 [0; 15; 30]%Q None
    (demo_offset false true [BandOptions None 0 (Some 5%Q) None None None] 20 [0; 15; 30]%Q empty_draw)
  = Throw TypeError.
Proof. vm_compute. done. Qed.
