(* ===== verification/HsChart.v ===== *)
(** * Charts: the life of a chart

    [highstock.src.js]: what a [Chart] has of axes and series and how it keeps them up
    to date: [getAxes], [Series.init] with [bindAxes], [addSeries], [Series.remove] with
    [destroy], [redraw] with [Axis.redraw] and [Series.redraw], [resize] with
    [fireEndResize] and [initReflow], [get], [showLoading] and [hideLoading], [destroy].

    Series are objects others point to: they live in a store.  What drawing does is a
    log of calls in their order; whether a new scale made an axis dirty ([Axis.setScale]
    in [HsScale], [adjustTickAmount] in [HsAxis]) is an argument of the calls. *)

From stdpp Require Import gmap strings.
From Stdlib Require Import QArith Qround.
From S2P Require Import Prelude JsString HsAxis HsOrdinal HsExtremes HsScale.
Local Open Scope list_scope.
Local Open Scope Z_scope.

(** ** What a chart has *)

Notation sref := positive.

Record axis := Axis {
  ax_isX : bool; ax_index : nat; ax_id : option string;
  ax_series : list sref;
  ax_isDirty : bool; ax_isDirtyExtremes : bool
}.

Record series := Series {
  se_type : string; se_id : option string;
  se_index : nat; se_name : string;
  se_visible : bool; se_stacking : bool; se_cartesian : bool; se_pointLegend : bool;
  se_xAxis : option nat; se_yAxis : option nat;       (* places in the chart's axes *)
  se_points : list (option string);                   (* their ids *)
  se_isDirty : bool; se_isDirtyData : bool; se_hasRendered : bool
}.

Inductive event :=
| LegendDrawn | AxisScaled (i : nat) | TicksAdjusted | MarginsTaken | AfterSetExtremes (i : nat)
| AxisDrawn (i : nat) | BoxDrawn | SeriesDrawn (r : sref) | UpdatedData (r : sref)
| TrackerReset | CanvasDrawn | Redrawn | Resized | SeriesDestroyed (r : sref) | Destroyed.

(** The end of a resize, called on the chart or, by a timer, on the window. *)
Inductive receiver := OnChart | OnWindow.

Record chart := Chart {
  c_axes : list axis;
  c_series : list sref;
  c_store : gmap sref series;
  c_hasCartesianSeries : bool; c_hasRendered : bool;
  c_isDirtyLegend : bool; c_isDirtyBox : bool;
  c_isResizing : Z;
  c_timers : list receiver;
  c_hoverSeries : option sref;
  c_log : list event
}.

Definition with_axes v (c : chart) : chart :=
  Chart v (c_series c) (c_store c) (c_hasCartesianSeries c) (c_hasRendered c) (c_isDirtyLegend c)
    (c_isDirtyBox c) (c_isResizing c) (c_timers c) (c_hoverSeries c) (c_log c).
Definition with_series l st (c : chart) : chart :=
  Chart (c_axes c) l st (c_hasCartesianSeries c) (c_hasRendered c) (c_isDirtyLegend c)
    (c_isDirtyBox c) (c_isResizing c) (c_timers c) (c_hoverSeries c) (c_log c).
Definition with_store st (c : chart) : chart := with_series (c_series c) st c.
Definition with_dirty legend box (c : chart) : chart :=
  Chart (c_axes c) (c_series c) (c_store c) (c_hasCartesianSeries c) (c_hasRendered c) legend box
    (c_isResizing c) (c_timers c) (c_hoverSeries c) (c_log c).
Definition with_resizing n timers (c : chart) : chart :=
  Chart (c_axes c) (c_series c) (c_store c) (c_hasCartesianSeries c) (c_hasRendered c) (c_isDirtyLegend c)
    (c_isDirtyBox c) n timers (c_hoverSeries c) (c_log c).
Definition with_flags cartesian rendered hover (c : chart) : chart :=
  Chart (c_axes c) (c_series c) (c_store c) cartesian rendered (c_isDirtyLegend c)
    (c_isDirtyBox c) (c_isResizing c) (c_timers c) hover (c_log c).
Definition log (e : event) (c : chart) : chart :=
  Chart (c_axes c) (c_series c) (c_store c) (c_hasCartesianSeries c) (c_hasRendered c) (c_isDirtyLegend c)
    (c_isDirtyBox c) (c_isResizing c) (c_timers c) (c_hoverSeries c) (c_log c ++ [e]).

Definition set_dirty (d dd : bool) (x : series) : series :=
  Series (se_type x) (se_id x) (se_index x) (se_name x) (se_visible x) (se_stacking x) (se_cartesian x)
    (se_pointLegend x) (se_xAxis x) (se_yAxis x) (se_points x) d dd (se_hasRendered x).
(** [Series.render] and [PieSeries.render], which leaves [isDirtyData] and [hasRendered]. *)
Definition rendered (x : series) : series :=
  if bool_decide (se_type x = "pie")%string then set_dirty false (se_isDirtyData x) x
  else Series (se_type x) (se_id x) (se_index x) (se_name x) (se_visible x) (se_stacking x) (se_cartesian x)
         (se_pointLegend x) (se_xAxis x) (se_yAxis x) (se_points x) false false true.
Definition mark (x : series) : series := set_dirty true (se_isDirtyData x) x.

Definition axis_set series dirty extremes (a : axis) : axis :=
  Axis (ax_isX a) (ax_index a) (ax_id a) series dirty extremes.

(** [while (i--) series[i]...] and [each(series, ...)] over the series [l]. *)
Definition mark_where (p : series -> bool) (l : list sref) (st : gmap sref series) : gmap sref series :=
  fold_left (fun st r => alter (fun x => if p x then mark x else x) r st) l st.
Definition has_where (p : series -> bool) (c : chart) : bool :=
  existsb (fun r => match c_store c !! r with Some x => p x | None => false end) (c_series c).

(** ** Axes and series *)

Record axis_options := AxisOptions { ao_isX : bool; ao_id : option string }.

(** [getAxes]: the axes of the options, numbered by kind. *)
Fixpoint new_axes (isX : bool) (i : nat) (l : list (option string)) : list axis :=
  match l with
  | [] => []
  | id :: l => Axis isX i id [] false false :: new_axes isX (S i) l
  end.
Definition getAxes (xAxis yAxis : list (option string)) : list axis :=
  new_axes true 0 xAxis ++ new_axes false 0 yAxis.

Record series_options := SeriesOptions {
  so_type : string; so_id : option string; so_name : option string; so_visible : bool; so_stacking : bool;
  so_cartesian : bool; so_pointLegend : bool;
  so_xAxis : option nat; so_yAxis : option nat;
  so_points : list (option string)
}.

(** Is it the axis an option means; the first when there is none. *)
Definition means_axis (isX : bool) (opt : option nat) (a : axis) : bool :=
  Bool.eqb (ax_isX a) isX && Nat.eqb (ax_index a) (default 0%nat opt).

(** [bindAxes]: every axis that is meant takes the series and is dirty; the series
    refers to the last one. *)
Fixpoint bind_loop (isX : bool) (opt : option nat) (r : sref) (i : nat) (l : list axis)
    (bound : option nat) : list axis * option nat :=
  match l with
  | [] => ([], bound)
  | a :: l =>
      if means_axis isX opt a then
        let '(l', b) := bind_loop isX opt r (S i) l (Some i) in
        (axis_set (ax_series a ++ [r]) true (ax_isDirtyExtremes a) a :: l', b)
      else let '(l', b) := bind_loop isX opt r (S i) l bound in (a :: l', b)
  end.
Definition bindAxes (o : series_options) (r : sref) (axes : list axis)
    : list axis * (option nat * option nat) :=
  if so_cartesian o then
    let '(axes, x) := bind_loop true (so_xAxis o) r 0 axes None in
    let '(axes, y) := bind_loop false (so_yAxis o) r 0 axes None in
    (axes, (x, y))
  else (axes, (None, None)).

(** Types whose [init] touches the others of their type; [remove] does so for flags
    as well. *)
Definition column_like (t : string) : bool := bool_decide (t ∈ ["column"; "bar"; "ohlc"; "candlestick"]%string).
Definition column_removed (t : string) : bool := column_like t || bool_decide (t = "flags"%string).

Definition new_ref (c : chart) : sref := fresh (dom (c_store c) : gset sref).

(** [Series.init] with what [setData] marks, and the column's [init]. *)
Definition initSeries (o : series_options) (c : chart) : chart :=
  let r := new_ref c in
  let index := length (c_series c) in
  let '(axes, (x, y)) := bindAxes o r (c_axes c) in
  let name := default ("Series " ++ show_Z (Z.of_nat index + 1))%string (so_name o) in
  let s := Series (so_type o) (so_id o) index name (so_visible o) (so_stacking o) (so_cartesian o)
             (so_pointLegend o) x y (so_points o) true true false in
  let st := <[r := s]> (c_store c) in
  let l := c_series c ++ [r] in
  let st := if column_like (so_type o) && c_hasRendered c
            then mark_where (fun x => String.eqb (se_type x) (so_type o)) l st else st in
  with_flags (c_hasCartesianSeries c || so_cartesian o) (c_hasRendered c) (c_hoverSeries c)
    (with_dirty (c_isDirtyLegend c) true (with_series l st (with_axes axes c))).

(** [Series.destroy], as far as the chart keeps the series. *)
Definition leave_axis (r : sref) (i : option nat) (l : list axis) : list axis :=
  match i with
  | Some i => alter (fun a => axis_set (remove_first r (ax_series a)) true (ax_isDirtyExtremes a) a) i l
  | None => l
  end.
Definition destroy_series (r : sref) (s : series) (c : chart) : chart :=
  let axes := leave_axis r (se_yAxis s) (leave_axis r (se_xAxis s) (c_axes c)) in
  let hover := if bool_decide (c_hoverSeries c = Some r) then None else c_hoverSeries c in
  log (SeriesDestroyed r)
    (with_flags (c_hasCartesianSeries c) (c_hasRendered c) hover
       (with_series (remove_first r (c_series c)) (delete r (c_store c)) (with_axes axes c))).

(** ** Redrawing *)

(** What scaling an axis anew finds. *)
Record rescaled := Rescaled { rs_dirty : bool; rs_extremes : bool; rs_amount : bool }.

Section redraw.
Context (legendEnabled : bool) (needs : nat -> rescaled).

(** Every axis is scaled. *)
Definition scale_axes (c : chart) : chart :=
  fold_left (fun c i =>
    log (AxisScaled i)
      (with_axes (alter (fun a => axis_set (ax_series a) (ax_isDirty a || rs_dirty (needs i))
                                    (ax_isDirtyExtremes a || rs_extremes (needs i)) a) i (c_axes c)) c))
    (seq 0 (length (c_axes c))) c.
Definition adjustTickAmounts (c : chart) : chart :=
  log TicksAdjusted
    (with_axes (imap (fun i a => axis_set (ax_series a) (ax_isDirty a || rs_amount (needs i))
                                   (ax_isDirtyExtremes a) a) (c_axes c)) c).

(** [Axis.redraw]: drawn, its series are dirty. *)
Definition redraw_axis (i : nat) (c : chart) : chart :=
  match c_axes c !! i with
  | None => c
  | Some a =>
      let c := log (AxisDrawn i) (log TrackerReset c) in
      with_store (mark_where (fun _ => true) (ax_series a) (c_store c))
        (with_axes (<[i := axis_set (ax_series a) false (ax_isDirtyExtremes a) a]> (c_axes c)) c)
  end.

(** The loop over the axes; [box] is the local [isDirtyBox]. *)
Fixpoint redraw_axes (stacked : bool) (js : list nat) (box : bool) (c : chart) : bool * chart :=
  match js with
  | [] => (box, c)
  | i :: js =>
      match c_axes c !! i with
      | None => redraw_axes stacked js box c
      | Some a =>
          let c := if ax_isDirtyExtremes a
                   then log (AfterSetExtremes i)
                          (with_axes (<[i := axis_set (ax_series a) (ax_isDirty a) false a]> (c_axes c)) c)
                   else c in
          if ax_isDirty a || box || stacked
          then redraw_axes stacked js true (redraw_axis i c)
          else redraw_axes stacked js box c
      end
  end.

(** May it be drawn at all. *)
Definition drawable (x : series) : bool :=
  se_visible x && (negb (se_cartesian x) || bool_decide (is_Some (se_xAxis x))).

Definition redraw_series (r : sref) (c : chart) : chart :=
  match c_store c !! r with
  | Some x =>
      if se_isDirty x && drawable x then
        let c := log (SeriesDrawn r) (with_store (<[r := rendered x]> (c_store c)) c) in
        if se_isDirtyData x then log (UpdatedData r) c else c
      else c
  | None => c
  end.

Definition dirty_stacks (c : chart) : bool := has_where (fun x => se_isDirty x && se_stacking x) c.

Definition redraw_legend (c : chart) : chart :=
  let redrawLegend := c_isDirtyLegend c || has_where (fun x => se_isDirty x && se_pointLegend x) c in
  if redrawLegend && legendEnabled then with_dirty false (c_isDirtyBox c) (log LegendDrawn c) else c.

(** The axes of the chart; [box] says that the plot area has changed. *)
Definition redraw_scales (stacked box : bool) (c : chart) : bool * chart :=
  if c_hasCartesianSeries c then
    let c := if c_isResizing c =? 0 then scale_axes c else c in
    let c := log MarginsTaken (adjustTickAmounts c) in
    redraw_axes stacked (seq 0 (length (c_axes c))) box c
  else (box, c).

Definition redraw (c : chart) : chart :=
  let box := c_isDirtyBox c in
  let stacked := dirty_stacks c in
  let c := if stacked then with_store (mark_where se_stacking (c_series c) (c_store c)) c else c in
  let c := redraw_legend c in
  let '(box, c) := redraw_scales stacked box c in
  let c := if box then log BoxDrawn (with_dirty (c_isDirtyLegend c) false c) else c in
  let c := fold_left (fun c r => redraw_series r c) (c_series c) c in
  log Redrawn (log CanvasDrawn (log TrackerReset c)).
End redraw.

(** ** Operations *)

Section operations.
Context (legendEnabled : bool) (needs : nat -> rescaled).

(** [addSeries]; [vetoed] when a handler prevents it. *)
Definition addSeries (o : series_options) (doRedraw vetoed : bool) (c : chart) : chart :=
  if vetoed then c
  else
    let c := initSeries o c in
    let c := with_dirty true (c_isDirtyBox c) c in
    if doRedraw then redraw legendEnabled needs c else c.

(** [Series.remove]; a series that is gone has no chart. *)
Definition remove (r : sref) (doRedraw vetoed : bool) (c : chart) : res chart :=
  match c_store c !! r with
  | None => Throw TypeError
  | Some s =>
      let c := if column_removed (se_type s) && c_hasRendered c
               then with_store (mark_where (fun x => String.eqb (se_type x) (se_type s)) (c_series c) (c_store c)) c
               else c in
      if vetoed then Ok c
      else
        let c := with_dirty true true (destroy_series r s c) in
        Ok (if doRedraw then redraw legendEnabled needs c else c)
  end.

(** [setData] without its data: the series is dirty. *)
Definition setData (r : sref) (doRedraw : bool) (c : chart) : chart :=
  let c := with_dirty (c_isDirtyLegend c) true (with_store (alter (set_dirty true true) r (c_store c)) c) in
  if doRedraw then redraw legendEnabled needs c else c.

(** [fireEndResize] called on the chart or on the window. *)
Definition fireEndResize (this : receiver) (c : chart) : chart :=
  match this with OnChart => with_resizing (c_isResizing c - 1) (c_timers c) c | OnWindow => c end.

(** [resize]; [animated] unless the animation is [false]. *)
Definition resize (animated : bool) (c : chart) : chart :=
  let c := with_resizing (c_isResizing c + 1) (c_timers c) c in
  let c := with_axes (List.map (fun a => axis_set (ax_series a) true (ax_isDirtyExtremes a) a) (c_axes c)) c in
  let c := scale_axes needs c in
  let c := with_store (mark_where (fun _ => true) (c_series c) (c_store c)) c in
  let c := log MarginsTaken (with_dirty true true c) in
  let c := log Resized (redraw legendEnabled needs c) in
  if animated then with_resizing (c_isResizing c) (c_timers c ++ [OnWindow]) c
  else fireEndResize OnChart c.

(** The next timer runs. *)
Definition run_timer (c : chart) : chart :=
  match c_timers c with
  | [] => c
  | t :: ts => fireEndResize t (with_resizing (c_isResizing c) ts c)
  end.

(** [Chart.render]: the order of the first drawing. *)
Definition draw_axes (c : chart) : chart :=
  fold_left (fun c i => log (AxisDrawn i)
      (with_axes (alter (fun a => axis_set (ax_series a) false (ax_isDirtyExtremes a) a) i (c_axes c)) c))
    (seq 0 (length (c_axes c))) c.
Definition draw_series (c : chart) : chart :=
  fold_left (fun c r => log (SeriesDrawn r) (with_store (alter rendered r (c_store c)) c)) (c_series c) c.
Definition render (c : chart) : chart :=
  let c := log MarginsTaken (scale_axes needs c) in
  let c := log MarginsTaken (adjustTickAmounts needs c) in
  let c := log BoxDrawn (with_dirty (c_isDirtyLegend c) false c) in
  let c := if c_hasCartesianSeries c then draw_axes c else c in
  let c := draw_series c in
  with_flags (c_hasCartesianSeries c) true (c_hoverSeries c) c.

(** [firstRender]: the axes, the series, the first drawing. *)
Definition firstRender (showAxes : bool) (xAxis yAxis : list (option string)) (l : list series_options) : chart :=
  let c := Chart (getAxes xAxis yAxis) [] ∅ showAxes false false false 0 [] None [] in
  render (fold_left (fun c o => initSeries o c) l c).
End operations.

(** [Chart.destroy]: axes and series from the last on. *)
Definition destroy_chart (c : chart) : chart :=
  let c := fold_left (fun c r => match c_store c !! r with Some s => destroy_series r s c | None => c end)
             (rev (c_series c)) (with_axes [] c) in
  log Destroyed c.

(** [get]: an axis, a series or a point with the id. *)
Inductive found := FoundAxis (i : nat) | FoundSeries (r : sref) | FoundPoint (r : sref) (j : nat).
Definition get (id : option string) (c : chart) : option found :=
  match list_find (fun a => ax_id a = id) (c_axes c) with
  | Some (i, _) => Some (FoundAxis i)
  | None =>
      match list_find (fun r => (se_id <$> c_store c !! r) = Some id) (c_series c) with
      | Some (_, r) => Some (FoundSeries r)
      | None =>
          head (omap (fun r => s ← c_store c !! r;
                               '(j, _) ← list_find (eq id) (se_points s); Some (FoundPoint r j)) (c_series c))
      end
  end.

(** ** The loading layer *)

Record loading := Loading {
  ld_made : bool; ld_text : string; ld_shown : bool;     (* loadingShown *)
  ld_display : bool;                                     (* the layer is displayed *)
  ld_hiding : bool                                       (* it fades out, to be hidden then *)
}.
Definition no_loading : loading := Loading false "" false false false.

Definition showLoading (str lang : string) (l : loading) : loading :=
  let text := if String.eqb str "" then lang else str in
  if ld_shown l then Loading true text true (ld_display l) (ld_hiding l)
  else Loading true text true true false.       (* the animation stops the one there is *)
Definition hideLoading (l : loading) : loading :=
  Loading (ld_made l) (ld_text l) false (ld_display l) (ld_made l).
Definition fade_over (l : loading) : loading :=
  if ld_hiding l then Loading (ld_made l) (ld_text l) (ld_shown l) false false else l.

(** ** Fitting a changed window *)

(** [reflow]: the size there is, the size last seen and the resize that waits. *)
Record reflow_state := ReflowState {
  rf_containerWidth : Q; rf_containerHeight : Q; rf_waiting : option (Q * Q)
}.
Definition reflow (optWidth optHeight : option Q) (width height : Q) (target_window : bool)
    (st : reflow_state) : reflow_state :=
  let width := match optWidth with Some w => if Qeq_bool w 0 then width else w | None => width end in
  let height := match optHeight with Some h => if Qeq_bool h 0 then height else h | None => height end in
  if negb (Qeq_bool width 0) && negb (Qeq_bool height 0) && target_window then
    ReflowState width height
      (if Qeq_bool width (rf_containerWidth st) && Qeq_bool height (rf_containerHeight st)
       then rf_waiting st else Some (width, height))
  else st.

(** ** The registers agree *)

(** What the flags and the log leave out. *)
Definition axis_shape (a : axis) : bool * nat * list sref := (ax_isX a, ax_index a, ax_series a).
Definition series_shape (s : series) : option nat * option nat := (se_xAxis s, se_yAxis s).
Record shape := Shape {
  sh_axes : list (bool * nat * list sref); sh_series : list sref;
  sh_store : gmap sref (option nat * option nat); sh_hover : option sref
}.
Definition shape_of (c : chart) : shape :=
  Shape (axis_shape <$> c_axes c) (c_series c) (series_shape <$> c_store c) (c_hoverSeries c).

(** Every series of the chart is in the store, listed once, and in the lists of exactly
    the axes it refers to. *)
Record registered (s : shape) : Prop := Registered {
  rg_nodup : NoDup (sh_series s);
  rg_store : forall r, r ∈ sh_series s <-> is_Some (sh_store s !! r);
  rg_axes : forall i (isX : bool) n l, sh_axes s !! i = Some (isX, n, l) ->
    NoDup l /\ forall r, r ∈ l <-> exists b, sh_store s !! r = Some b /\ (if isX then b.1 else b.2) = Some i;
  rg_bound : forall r b i, sh_store s !! r = Some b ->
    (b.1 = Some i -> exists n l, sh_axes s !! i = Some (true, n, l)) /\
    (b.2 = Some i -> exists n l, sh_axes s !! i = Some (false, n, l));
  rg_number : forall i j (isX : bool) n l l', sh_axes s !! i = Some (isX, n, l) -> sh_axes s !! j = Some (isX, n, l') -> i = j;
  rg_hover : forall r, sh_hover s = Some r -> r ∈ sh_series s
}.

(** *** Flags do not matter *)

Lemma axes_shape_alter f (i : nat) (l : list axis) : (forall a, axis_shape (f a) = axis_shape a) ->
  axis_shape <$> alter f i l = axis_shape <$> l.
Proof.
  intros H. apply list_eq. intros j. rewrite !list_lookup_fmap.
  destruct (decide (i = j)) as [<-|Hne]; [rewrite list_lookup_alter_eq|by rewrite list_lookup_alter_ne].
  destruct (l !! i); cbn; by rewrite ?H.
Qed.

Lemma axes_shape_insert (i : nat) a b (l : list axis) : l !! i = Some a -> axis_shape b = axis_shape a ->
  axis_shape <$> <[i := b]> l = axis_shape <$> l.
Proof.
  intros Ha Hs. rewrite list_fmap_insert, Hs. apply list_insert_id. by rewrite list_lookup_fmap, Ha.
Qed.

Lemma store_shape_alter f r (st : gmap sref series) : (forall s, series_shape (f s) = series_shape s) ->
  series_shape <$> alter f r st = series_shape <$> st.
Proof.
  intros H. apply map_eq. intros k. rewrite !lookup_fmap.
  destruct (decide (r = k)) as [<-|Hne]; [rewrite lookup_alter_eq|by rewrite lookup_alter_ne].
  destruct (st !! r); cbn; by rewrite ?H.
Qed.

Lemma store_shape_mark p l : forall st : gmap sref series,
  series_shape <$> mark_where p l st = series_shape <$> st.
Proof.
  unfold mark_where. induction l as [|r l IH]; intros st; cbn; [done|].
  rewrite IH. apply store_shape_alter. intros s. by destruct (p s).
Qed.

Lemma shape_store st c : series_shape <$> st = series_shape <$> c_store c ->
  shape_of (with_store st c) = shape_of c.
Proof. unfold shape_of, with_store, with_series. cbn. by intros ->. Qed.
Lemma shape_axes l c : axis_shape <$> l = axis_shape <$> c_axes c -> shape_of (with_axes l c) = shape_of c.
Proof. unfold shape_of, with_axes. cbn. by intros ->. Qed.

Lemma shape_log e c : shape_of (log e c) = shape_of c.
Proof. done. Qed.
Lemma shape_dirty a b c : shape_of (with_dirty a b c) = shape_of c.
Proof. done. Qed.
Lemma shape_resizing a b c : shape_of (with_resizing a b c) = shape_of c.
Proof. done. Qed.
Lemma shape_flags a b c : shape_of (with_flags a b (c_hoverSeries c) c) = shape_of c.
Proof. done. Qed.
#[local] Hint Rewrite shape_log shape_dirty shape_resizing shape_flags : shape.

Lemma fold_shape {A} (f : chart -> A -> chart) l :
  (forall c x, shape_of (f c x) = shape_of c) -> forall c, shape_of (fold_left f l c) = shape_of c.
Proof. intros H. induction l as [|x l IH]; intros c; cbn; [done|]. by rewrite IH, H. Qed.

Section keeps.
Context (legendEnabled : bool) (needs : nat -> rescaled).

Lemma scale_axes_shape c : shape_of (scale_axes needs c) = shape_of c.
Proof.
  unfold scale_axes. apply fold_shape. intros c' i.
  rewrite shape_log. apply shape_axes, axes_shape_alter. done.
Qed.

Lemma adjust_shape c : shape_of (adjustTickAmounts needs c) = shape_of c.
Proof.
  unfold adjustTickAmounts. rewrite shape_log. apply shape_axes.
  apply list_eq. intros j. rewrite !list_lookup_fmap, list_lookup_imap. by destruct (_ !! j).
Qed.

Lemma redraw_axis_shape i c : shape_of (redraw_axis i c) = shape_of c.
Proof.
  unfold redraw_axis. destruct (c_axes c !! i) as [a|] eqn:E; [|done].
  rewrite shape_store by apply store_shape_mark. rewrite shape_axes; [done|].
  by eapply axes_shape_insert.
Qed.

Lemma redraw_axes_shape stacked js : forall box c, shape_of (redraw_axes stacked js box c).2 = shape_of c.
Proof.
  induction js as [|i js IH]; intros box c; cbn; [done|].
  destruct (c_axes c !! i) as [a|] eqn:E; [|done].
  set (c1 := if ax_isDirtyExtremes a then _ else c).
  assert (shape_of c1 = shape_of c) as Hc1.
  { unfold c1. destruct (ax_isDirtyExtremes a); [|done].
    rewrite shape_log. apply shape_axes. by eapply axes_shape_insert. }
  destruct (ax_isDirty a || box || stacked); rewrite IH, ?redraw_axis_shape; done.
Qed.

Lemma rendered_shape s : series_shape (rendered s) = series_shape s.
Proof. unfold rendered. by case_bool_decide. Qed.
Lemma redraw_series_shape c r : shape_of (redraw_series r c) = shape_of c.
Proof.
  unfold redraw_series. destruct (c_store c !! r) as [x|] eqn:E; [|done].
  destruct (se_isDirty x && drawable x); [|done].
  assert (shape_of (log (SeriesDrawn r) (with_store (<[r:=rendered x]> (c_store c)) c)) = shape_of c) as H.
  { rewrite shape_log. apply shape_store. rewrite fmap_insert.
    rewrite rendered_shape. apply insert_id. by rewrite lookup_fmap, E. }
  by destruct (se_isDirtyData x).
Qed.

Lemma redraw_scales_shape stacked box c : shape_of (redraw_scales needs stacked box c).2 = shape_of c.
Proof.
  unfold redraw_scales. destruct (c_hasCartesianSeries c); [|done]. rewrite redraw_axes_shape.
  rewrite shape_log. rewrite adjust_shape.
  destruct (_ =? 0); [apply scale_axes_shape|done].
Qed.

Lemma redraw_shape c : shape_of (redraw legendEnabled needs c) = shape_of c.
Proof.
  unfold redraw. set (c1 := if dirty_stacks c then _ else c).
  assert (shape_of c1 = shape_of c) as H1.
  { unfold c1. destruct (dirty_stacks c); [|done]. apply shape_store, store_shape_mark. }
  set (c2 := redraw_legend _ c1).
  assert (shape_of c2 = shape_of c) as H2 by (unfold c2, redraw_legend; by destruct (_ && _)).
  destruct (redraw_scales needs _ _ c2) as [box c3] eqn:E3.
  pose proof (redraw_scales_shape (dirty_stacks c) (c_isDirtyBox c) c2) as H3. rewrite E3, H2 in H3. cbn in H3.
  autorewrite with shape.
  rewrite fold_shape by (intros; apply redraw_series_shape). by destruct box.
Qed.

Lemma resize_shape animated c : shape_of (resize legendEnabled needs animated c) = shape_of c.
Proof.
  unfold resize. set (c1 := with_axes _ _).
  assert (shape_of c1 = shape_of c) as H1.
  { unfold c1, shape_of. cbn. f_equal. rewrite <-list_fmap_compose. by apply list_fmap_ext. }
  set (c2 := log MarginsTaken _).
  assert (shape_of c2 = shape_of c) as H2.
  { unfold c2. rewrite shape_log.
    rewrite shape_dirty.
    rewrite shape_store by apply store_shape_mark. by rewrite scale_axes_shape. }
  destruct animated; cbn [fireEndResize];
    autorewrite with shape; by rewrite redraw_shape.
Qed.

Lemma render_shape c : shape_of (render needs c) = shape_of c.
Proof.
  unfold render. rewrite shape_flags.
  unfold draw_series. rewrite fold_shape.
  2:{ intros c' r. rewrite shape_log. apply shape_store, store_shape_alter. intros. apply rendered_shape. }
  set (c1 := log BoxDrawn _).
  assert (shape_of c1 = shape_of c) as H1.
  { unfold c1. rewrite shape_log.
    rewrite shape_dirty.
    rewrite shape_log. rewrite adjust_shape.
    rewrite shape_log. apply scale_axes_shape. }
  destruct (c_hasCartesianSeries c1); [|done]. unfold draw_axes. rewrite fold_shape; [done|].
  intros c' i. rewrite shape_log. by apply shape_axes, axes_shape_alter.
Qed.
End keeps.

(** *** Adding a series *)

Definition takes (o : series_options) (isX : bool) (n : nat) : bool :=
  so_cartesian o && Nat.eqb n (default 0%nat (if isX then so_xAxis o else so_yAxis o)).
Definition give (o : series_options) (r : sref) (p : bool * nat * list sref) : bool * nat * list sref :=
  (p.1.1, p.1.2, p.2 ++ if takes o p.1.1 p.1.2 then [r] else []).

Lemma bind_loop_axes isX opt r : forall l i b,
  (bind_loop isX opt r i l b).1
  = List.map (fun a => if means_axis isX opt a then axis_set (ax_series a ++ [r]) true (ax_isDirtyExtremes a) a
                       else a) l.
Proof.
  induction l as [|a l IH]; intros i b; cbn; [done|].
  destruct (means_axis isX opt a); [specialize (IH (S i) (Some i))|specialize (IH (S i) b)];
    destruct (bind_loop _ _ _ _ _ _); cbn in *; by rewrite IH.
Qed.

Lemma bind_loop_bound isX opt r : forall l i b,
  let k := (bind_loop isX opt r i l b).2 in
  (k = b /\ forall j a, l !! j = Some a -> means_axis isX opt a = false) \/
  exists j a, k = Some (i + j)%nat /\ l !! j = Some a /\ means_axis isX opt a = true.
Proof.
  induction l as [|a l IH]; intros i b; cbn.
  { left. split; [done|]. intros j a. by rewrite lookup_nil. }
  destruct (means_axis isX opt a) eqn:E.
  - specialize (IH (S i) (Some i)). destruct (bind_loop _ _ _ _ _ _) as [l' k]. cbn in *. right.
    destruct IH as [[-> _]|(j & a' & -> & Ha & Hm)].
    + exists 0%nat, a. by rewrite Nat.add_0_r.
    + exists (S j), a'. split_and!; [f_equal; lia|done|done].
  - specialize (IH (S i) b). destruct (bind_loop _ _ _ _ _ _) as [l' k]. cbn in *.
    destruct IH as [[-> Hno]|(j & a' & -> & Ha & Hm)].
    + left. split; [done|]. intros [|j] a' Ha; [by injection Ha as <-|by eapply Hno].
    + right. exists (S j), a'. split_and!; [f_equal; lia|done|done].
Qed.

Lemma bindAxes_axes o r axes :
  axis_shape <$> (bindAxes o r axes).1 = give o r <$> (axis_shape <$> axes).
Proof.
  unfold bindAxes. destruct (so_cartesian o) eqn:Ec.
  - pose proof (bind_loop_axes true (so_xAxis o) r axes 0 None) as H1.
    destruct (bind_loop true _ _ _ _ _) as [axes1 x]. cbn in H1.
    pose proof (bind_loop_axes false (so_yAxis o) r axes1 0 None) as H2.
    destruct (bind_loop false _ _ _ _ _) as [axes2 y]. cbn in H2 |- *. subst.
    change @List.map with (fun A B => @fmap list _ A B). cbv beta.
    rewrite <-!list_fmap_compose. apply list_fmap_ext. intros i [k n id l d e] _.
    unfold give, takes, axis_shape, means_axis, compose. rewrite Ec. cbn.
    destruct k; cbn; destruct (Nat.eqb _ _); cbn; by rewrite ?app_nil_r.
  - cbn. rewrite <-list_fmap_compose. apply list_fmap_ext. intros i a _. cbn.
    unfold give, takes, axis_shape. rewrite Ec. cbn. by rewrite app_nil_r.
Qed.

Definition numbered (axes : list (bool * nat * list sref)) : Prop :=
  forall i j isX n l l', axes !! i = Some (isX, n, l) -> axes !! j = Some (isX, n, l') -> i = j.

Lemma bound_spec isX opt r axes k :
  numbered (axis_shape <$> axes) -> k = (bind_loop isX opt r 0 axes None).2 ->
  forall i, k = Some i <-> exists l, (axis_shape <$> axes) !! i = Some (isX, default 0%nat opt, l).
Proof.
  intros Hn -> i. pose proof (bind_loop_bound isX opt r axes 0 None) as H. cbn zeta in H.
  assert (forall a, means_axis isX opt a = true <-> exists l, axis_shape a = (isX, default 0%nat opt, l)) as Hm.
  { intros a. unfold means_axis, axis_shape. rewrite andb_true_iff, eqb_true_iff, Nat.eqb_eq. split.
    - intros [H1 H2]. exists (ax_series a). by rewrite H1, H2.
    - intros (l & [= H1 H2 _]). done. }
  split.
  - destruct H as [[-> _]|(j & a & -> & Ha & (l & Hl)%Hm)]; [done|]. intros [= <-]. exists l.
    by rewrite list_lookup_fmap, Ha, <-Hl.
  - intros (l & Hl). rewrite list_lookup_fmap in Hl. destruct (axes !! i) as [a|] eqn:Ha; [|done].
    apply (inj Some) in Hl. assert (means_axis isX opt a = true) as Hma by (apply Hm; by exists l).
    destruct H as [[_ Hno]|(j & a' & -> & Ha' & (l' & Hl')%Hm)]; [apply Hno in Ha; congruence|].
    f_equal. cbn. eapply (Hn j i isX (default 0%nat opt)).
    + by rewrite list_lookup_fmap, Ha', <-Hl'.
    + by rewrite list_lookup_fmap, Ha, <-Hl.
Qed.

Lemma bindAxes_bound o r axes x y :
  numbered (axis_shape <$> axes) -> (bindAxes o r axes).2 = (x, y) ->
  forall i isX, (if isX : bool then x else y) = Some i <->
    exists n l, (axis_shape <$> axes) !! i = Some (isX, n, l) /\ takes o isX n = true.
Proof.
  intros Hn. unfold bindAxes, takes. destruct (so_cartesian o) eqn:Ec; cbn [andb].
  2:{ intros [= <- <-] i isX. split; [by destruct isX|]. by intros (? & ? & _ & ?). }
  pose proof (bound_spec true (so_xAxis o) r axes _ Hn eq_refl) as Hx.
  pose proof (bind_loop_axes true (so_xAxis o) r axes 0 None) as H1.
  destruct (bind_loop true _ _ _ _ _) as [axes1 x']. cbn in H1, Hx.
  assert (forall i n, (exists l, (axis_shape <$> axes1) !! i = Some (false, n, l)) <->
                      (exists l, (axis_shape <$> axes) !! i = Some (false, n, l))) as Hsame.
  { intros i n. subst axes1. rewrite !list_lookup_fmap.
    change @List.map with (fun A B => @fmap list _ A B). cbv beta. rewrite ?list_lookup_fmap.
    destruct (axes !! i) as [a|]; cbn; [|done]. unfold means_axis, axis_shape.
    destruct (ax_isX a) eqn:Ek; cbn; [|by rewrite Ek].
    destruct (Nat.eqb _ _); cbn; rewrite ?Ek; split; intros (l & [=]). }
  assert (numbered (axis_shape <$> axes1)) as Hn1.
  { intros i j isX n l l' Hi Hj.
    assert (forall i n l, (axis_shape <$> axes1) !! i = Some (isX, n, l) ->
              exists l, (axis_shape <$> axes) !! i = Some (isX, n, l)) as Hback.
    { intros i' n' l0. subst axes1. rewrite !list_lookup_fmap.
      change @List.map with (fun A B => @fmap list _ A B). cbv beta. rewrite ?list_lookup_fmap.
      destruct (axes !! i') as [a|]; cbn; [|done].
      destruct (means_axis true (so_xAxis o) a); cbn; intros [= <- <- _]; by eexists. }
    apply Hback in Hi as [? Hi], Hj as [? Hj]. by eapply Hn. }
  pose proof (bound_spec false (so_yAxis o) r axes1 _ Hn1 eq_refl) as Hy.
  destruct (bind_loop false _ _ _ _ _) as [axes2 y']. cbn in Hy |- *. intros [= <- <-] i isX.
  transitivity (exists l, (axis_shape <$> axes) !! i
    = Some (isX, default 0%nat (if isX then so_xAxis o else so_yAxis o), l)).
  - destruct isX; [apply Hx|]. rewrite Hy. apply Hsame.
  - split.
    + intros (l & Hl). eexists _, l. split; [exact Hl|]. apply Nat.eqb_refl.
    + intros (n & l & Hl & ->%Nat.eqb_eq). by exists l.
Qed.

Lemma initSeries_shape o c :
  let r := new_ref c in
  let '(axes, b) := bindAxes o r (c_axes c) in
  shape_of (initSeries o c) = Shape (axis_shape <$> axes) (c_series c ++ [r])
    (<[r := b]> (series_shape <$> c_store c)) (c_hoverSeries c).
Proof.
  cbn zeta. unfold initSeries. destruct (bindAxes o _ _) as [axes [x y]].
  set (st := if column_like _ && _ then _ else _).
  assert (series_shape <$> st = <[new_ref c := (x, y)]> (series_shape <$> c_store c)) as H.
  { unfold st. destruct (_ && _); [rewrite store_shape_mark|]; by rewrite fmap_insert. }
  unfold shape_of. cbn. by rewrite H.
Qed.

Lemma new_ref_fresh c : c_store c !! new_ref c = None.
Proof. apply (not_elem_of_dom (D := gset sref)). unfold new_ref. apply is_fresh. Qed.

Lemma initSeries_registered o c : registered (shape_of c) -> registered (shape_of (initSeries o c)).
Proof.
  intros Hr. pose proof (initSeries_shape o c) as Hs. cbn zeta in Hs.
  pose proof (bindAxes_axes o (new_ref c) (c_axes c)) as Ha.
  pose proof (bindAxes_bound o (new_ref c) (c_axes c)) as Hb.
  destruct (bindAxes o (new_ref c) (c_axes c)) as [axes [x y]]. cbn in Ha. rewrite Hs, Ha.
  specialize (Hb x y (rg_number _ Hr) eq_refl). clear Hs Ha.
  set (r := new_ref c) in *.
  assert (r ∉ c_series c) as Hfresh.
  { intros Hin. apply (rg_store _ Hr) in Hin as [b H]. cbn in H. rewrite lookup_fmap in H.
    unfold r in H. by rewrite new_ref_fresh in H. }
  assert (forall i isX n l, (axis_shape <$> c_axes c) !! i = Some (isX, n, l) -> r ∉ l) as Hno.
  { intros i isX n l Hi Hin. destruct (rg_axes _ Hr _ _ _ _ Hi) as [_ H]. apply H in Hin as (b & H' & _).
    apply Hfresh, (rg_store _ Hr). by exists b. }
  split; cbn.
  - apply NoDup_app. split_and!; [apply Hr| |apply NoDup_singleton].
    by intros z Hz ->%list_elem_of_singleton.
  - intros z. rewrite elem_of_app, list_elem_of_singleton, lookup_insert_is_Some, (rg_store _ Hr).
    cbn. destruct (decide (z = r)); naive_solver.
  - intros i isX n l Hi. rewrite list_lookup_fmap in Hi.
    destruct ((axis_shape <$> c_axes c) !! i) as [[[k m] l0]|] eqn:E; [|done].
    injection Hi as -> -> <-. destruct (rg_axes _ Hr _ _ _ _ E) as [Hnd Hiff]. pose proof (Hno _ _ _ _ E) as Hn0.
    cbn [fst snd]. split.
    + destruct (takes o isX n); [|by rewrite app_nil_r]. apply NoDup_app.
      split_and!; [done| |apply NoDup_singleton]. by intros z Hz ->%list_elem_of_singleton.
    + intros z. rewrite elem_of_app, Hiff. cbn. split.
      * intros [(b & Hz & Hbi)|Hz].
        -- exists b. rewrite lookup_insert_ne; [done|]. intros <-. apply Hfresh, (rg_store _ Hr). by exists b.
        -- destruct (takes o isX n) eqn:Et; [|by apply elem_of_nil in Hz].
           apply list_elem_of_singleton in Hz as ->. exists (x, y). rewrite lookup_insert_eq. split; [done|].
           cbn. apply Hb. by exists n, l0.
      * intros (b & [[<- <-]|[Hne Hz]]%lookup_insert_Some & Hbi); [right|left; by exists b].
        cbn in Hbi. apply Hb in Hbi as (n' & l' & Hl & Ht). rewrite E in Hl. injection Hl as <- <-.
        rewrite Ht. by left.
  - intros z b i [[<- <-]|[Hne Hz]]%lookup_insert_Some.
    + cbn. rewrite list_lookup_fmap.
      split; intros H; [apply (Hb i true) in H|apply (Hb i false) in H]; destruct H as (n & l & -> & _);
        cbn; unfold give; cbn; by eexists _, _.
    + destruct (rg_bound _ Hr z b i Hz) as [H1 H2]. cbn in H1, H2. rewrite list_lookup_fmap.
      split; [intros (n & l & ->)%H1|intros (n & l & ->)%H2]; cbn; unfold give; cbn; by eexists _, _.
  - intros i j isX n l l' Hi Hj. rewrite list_lookup_fmap in Hi, Hj.
    destruct ((axis_shape <$> c_axes c) !! i) as [[[k m] l0]|] eqn:Ei; [|done].
    destruct ((axis_shape <$> c_axes c) !! j) as [[[k' m'] l0']|] eqn:Ej; [|done].
    injection Hi as -> -> _. injection Hj as -> -> _. by eapply (rg_number _ Hr).
  - intros z Hz. apply elem_of_app. left. by apply (rg_hover _ Hr).
Qed.

(** *** Removing a series *)

Definition take_from (r : sref) (p : bool * nat * list sref) : bool * nat * list sref :=
  (p.1, remove_first r p.2).

Lemma leave_axis_shape r i l j :
  axis_shape <$> leave_axis r i l !! j
  = (fun p => if decide (i = Some j) then take_from r p else p) <$> (axis_shape <$> l !! j).
Proof.
  unfold leave_axis. destruct i as [i|].
  2:{ destruct (decide (None = Some j)); [done|]. by destruct (l !! j). }
  destruct (decide (Some i = Some j)) as [[= ->]|Hne].
  - rewrite list_lookup_alter_eq. by destruct (l !! j).
  - rewrite list_lookup_alter_ne by congruence. by destruct (l !! j).
Qed.

Lemma destroy_shape r s c : registered (shape_of c) -> c_store c !! r = Some s ->
  shape_of (destroy_series r s c)
  = Shape (take_from r <$> (axis_shape <$> c_axes c)) (remove_first r (c_series c))
      (delete r (series_shape <$> c_store c)) (if bool_decide (c_hoverSeries c = Some r) then None else c_hoverSeries c).
Proof.
  intros Hr Hs. unfold destroy_series. set (axes := leave_axis _ _ _).
  assert (axis_shape <$> axes = take_from r <$> (axis_shape <$> c_axes c)) as Ha.
  { pose proof (rg_bound _ Hr r (series_shape s)) as Hb. cbn in Hb. rewrite lookup_fmap, Hs in Hb.
    unfold series_shape in Hb. cbn in Hb.
    apply list_eq. intros j. rewrite (list_lookup_fmap (take_from r)), (list_lookup_fmap axis_shape axes).
    unfold axes. rewrite !leave_axis_shape, <-list_lookup_fmap.
    destruct ((axis_shape <$> c_axes c) !! j) as [[[k n] l]|] eqn:Ej; [|done]. cbn.
    destruct (rg_axes _ Hr _ _ _ _ Ej) as [Hnd Hin]. cbn in Hin.
    assert ((if k then se_xAxis s else se_yAxis s) <> Some j -> remove_first r l = l) as Hout.
    { intros Hne. apply remove_first_notin. intros Hi. apply Hin in Hi as (b & Hb' & Hk).
      rewrite lookup_fmap, Hs in Hb'. injection Hb' as <-. by destruct k. }
    destruct (decide (se_xAxis s = Some j)) as [Hx|Hx], (decide (se_yAxis s = Some j)) as [Hy|Hy];
      unfold take_from; cbn; f_equal.
    - destruct (Hb j eq_refl) as [H1 H2]. destruct (H1 Hx) as (? & ? & ?), (H2 Hy) as (? & ? & ?). congruence.
    - f_equal. symmetry. apply Hout. by destruct k. }
  unfold shape_of. cbn. by rewrite Ha, fmap_delete.
Qed.

Lemma destroy_registered r s c : registered (shape_of c) -> c_store c !! r = Some s ->
  registered (shape_of (destroy_series r s c)).
Proof.
  intros Hr Hs. rewrite (destroy_shape r s c Hr Hs).
  assert (forall z, z ∈ remove_first r (c_series c) <-> z ∈ c_series c /\ z <> r) as Hrm
    by (intros z; apply elem_of_remove_first, (rg_nodup _ Hr)).
  split; cbn.
  - eapply sublist_NoDup; [apply Hr|apply remove_first_sublist].
  - intros z. rewrite Hrm, (rg_store _ Hr), lookup_delete_is_Some. cbn. naive_solver.
  - intros i isX n l Hi. rewrite list_lookup_fmap in Hi.
    destruct ((axis_shape <$> c_axes c) !! i) as [[[k m] l0]|] eqn:E; [|done].
    injection Hi as -> -> <-. destruct (rg_axes _ Hr _ _ _ _ E) as [Hnd Hiff]. cbn in Hiff |- *. split.
    + eapply sublist_NoDup; [exact Hnd|apply remove_first_sublist].
    + intros z. rewrite elem_of_remove_first, Hiff by done. split.
      * intros [(b & Hz & Hb) Hne]. exists b. by rewrite lookup_delete_ne.
      * intros (b & [Hne Hz]%lookup_delete_Some & Hb). split; [by exists b|done].
  - intros z b i [Hne Hz]%lookup_delete_Some. destruct (rg_bound _ Hr z b i Hz) as [H1 H2].
    cbn in H1, H2. rewrite list_lookup_fmap.
    split; [intros (n & l & ->)%H1|intros (n & l & ->)%H2]; by eexists _, _.
  - intros i j isX n l l' Hi Hj. rewrite list_lookup_fmap in Hi, Hj.
    destruct ((axis_shape <$> c_axes c) !! i) as [[[k m] l0]|] eqn:Ei; [|done].
    destruct ((axis_shape <$> c_axes c) !! j) as [[[k' m'] l0']|] eqn:Ej; [|done].
    injection Hi as -> -> _. injection Hj as -> -> _. by eapply (rg_number _ Hr).
  - intros z Hz. apply Hrm. case_bool_decide as E; [done|]. split; [by apply (rg_hover _ Hr)|].
    intros ->. by apply E.
Qed.

Lemma new_axes_shape isX : forall l n i p, (axis_shape <$> new_axes isX n l) !! i = Some p -> p = (isX, (n + i)%nat, []).
Proof.
  induction l as [|id l IH]; intros n i p; cbn; [by rewrite lookup_nil|].
  destruct i as [|i]; cbn; [intros [= <-]; by rewrite Nat.add_0_r|].
  intros ->%IH. f_equal. f_equal. lia.
Qed.

Lemma start_registered showAxes xAxis yAxis :
  registered (shape_of (Chart (getAxes xAxis yAxis) [] ∅ showAxes false false false 0 [] None [])).
Proof.
  assert (forall i p, (axis_shape <$> getAxes xAxis yAxis) !! i = Some p ->
    p.2 = [] /\ ((p.1.1 = true /\ p.1.2 = i) \/ (p.1.1 = false /\ (p.1.2 + length xAxis)%nat = i))) as Hax.
  { intros i p. unfold getAxes. rewrite fmap_app.
    assert (length (axis_shape <$> new_axes true 0 xAxis) = length xAxis) as Hl.
    { rewrite length_fmap. generalize 0%nat. induction xAxis; intros; cbn; auto. }
    intros [H|[Hge H]]%lookup_app_Some; apply new_axes_shape in H as ->; cbn; [by auto|].
    rewrite Hl in Hge |- *. split; [done|]. right. split; [done|lia]. }
  split; cbn.
  - constructor.
  - intros r. rewrite fmap_empty, lookup_empty. split; [by intros ?%elem_of_nil|by intros []].
  - intros i isX n l Hi. apply Hax in Hi as [Hl _]. cbn in Hl. subst l. split; [constructor|].
    intros r. rewrite fmap_empty. split; [by intros ?%elem_of_nil|]. intros (b & H & _). by rewrite lookup_empty in H.
  - intros r b i. by rewrite fmap_empty, lookup_empty.
  - intros i j isX n l l' Hi%Hax Hj%Hax. cbn in Hi, Hj. destruct Hi as [_ Hi], Hj as [_ Hj].
    destruct isX; destruct Hi as [[? ?]|[? ?]]; destruct Hj as [[? ?]|[? ?]]; congruence.
  - done.
Qed.

(** ** Every state of a chart *)

Inductive step (c : chart) : chart -> Prop :=
| step_add legendEnabled needs o doRedraw vetoed : step c (addSeries legendEnabled needs o doRedraw vetoed c)
| step_remove legendEnabled needs r doRedraw vetoed c' :
    remove legendEnabled needs r doRedraw vetoed c = Ok c' -> step c c'
| step_data legendEnabled needs r doRedraw : step c (setData legendEnabled needs r doRedraw c)
| step_redraw legendEnabled needs : step c (redraw legendEnabled needs c)
| step_resize legendEnabled needs animated : step c (resize legendEnabled needs animated c)
| step_timer : step c (run_timer c)
| step_over r : r ∈ c_series c -> step c (with_flags (c_hasCartesianSeries c) (c_hasRendered c) (Some r) c)
| step_out : step c (with_flags (c_hasCartesianSeries c) (c_hasRendered c) None c).

Lemma step_registered c c' : step c c' -> registered (shape_of c) -> registered (shape_of c').
Proof.
  intros Hs Hr. destruct Hs as [le needs o dr v|le needs r dr v c' H|le needs r dr|le needs|le needs an| |r Hin|].
  - unfold addSeries. destruct v; [done|]. set (c1 := with_dirty _ _ _).
    assert (registered (shape_of c1)) as H1 by (unfold c1; rewrite shape_dirty; by apply initSeries_registered).
    destruct dr; [by rewrite redraw_shape|done].
  - unfold remove in H. destruct (c_store c !! r) as [s|] eqn:Es; [|done].
    set (c1 := if column_removed _ && _ then _ else c) in H.
    assert (shape_of c1 = shape_of c) as H1.
    { unfold c1. destruct (_ && _); [|done]. apply shape_store, store_shape_mark. }
    assert (exists s1, c_store c1 !! r = Some s1 /\ se_xAxis s1 = se_xAxis s /\ se_yAxis s1 = se_yAxis s)
      as (s1 & Es1 & Hx & Hy).
    { apply (f_equal (fun sh => sh_store sh !! r)) in H1. cbn in H1. rewrite !lookup_fmap, Es in H1.
      destruct (c_store c1 !! r) as [s1|]; [|done]. exists s1. injection H1 as H2 H3. done. }
    destruct v; [injection H as <-; by rewrite H1|].
    assert (registered (shape_of (with_dirty true true (destroy_series r s c1)))) as H2.
    { rewrite shape_dirty. assert (destroy_series r s c1 = destroy_series r s1 c1) as ->
        by (unfold destroy_series; by rewrite Hx, Hy).
      apply destroy_registered; [by rewrite H1|done]. }
    destruct dr; injection H as <-; [by rewrite redraw_shape|done].
  - unfold setData. set (c1 := with_dirty _ _ _).
    assert (shape_of c1 = shape_of c) as H1.
    { unfold c1. rewrite shape_dirty. by apply shape_store, store_shape_alter. }
    destruct dr; by rewrite ?redraw_shape, H1.
  - by rewrite redraw_shape.
  - by rewrite resize_shape.
  - unfold run_timer. destruct (c_timers c) as [|[] ts]; done.
  - destruct Hr. by split; cbn; try intros ? [= <-].
  - destruct Hr. by split.
Qed.

(** C16: In every state a chart can reach by adding, changing and removing series,
    drawing, resizing and the mouse, each of its series is listed once and is in the
    lists of exactly the axes it is bound to; the hovered series is one of them. *)
Theorem chart_registered needs showAxes xAxis yAxis l c :
  rtc step (firstRender needs showAxes xAxis yAxis l) c -> registered (shape_of c).
Proof.
  assert (registered (shape_of (firstRender needs showAxes xAxis yAxis l))) as H0.
  { unfold firstRender. rewrite render_shape.
    generalize (start_registered showAxes xAxis yAxis). generalize (Chart (getAxes xAxis yAxis) [] ∅ showAxes false false false 0 [] None []).
    induction l as [|o l IH]; intros c0 Hc0; cbn; [done|]. apply IH. by apply initSeries_registered. }
  intros Hsteps. revert H0. induction Hsteps as [|c1 c2 c3 Hs _ IH]; [done|].
  intros H. apply IH. by eapply step_registered.
Qed.

(** ** What a redraw leaves *)

Definition drawn_refs (l : list event) : list sref :=
  omap (fun e => match e with SeriesDrawn r => Some r | _ => None end) l.
Definition early (e : event) : bool :=
  match e with LegendDrawn | AxisScaled _ | AxisDrawn _ | TicksAdjusted | MarginsTaken | AfterSetExtremes _ | BoxDrawn => true
  | _ => false end.

(** Series only get dirtier. *)
Definition marks (st st' : gmap sref series) : Prop :=
  forall r, match st !! r, st' !! r with
            | Some s, Some s' => drawable s' = drawable s /\ se_stacking s' = se_stacking s /\
                                 (se_isDirty s = true -> se_isDirty s' = true)
            | None, None => True | _, _ => False end.

Lemma marks_refl st : marks st st.
Proof. intros r. by destruct (st !! r). Qed.
Lemma marks_trans st1 st2 st3 : marks st1 st2 -> marks st2 st3 -> marks st1 st3.
Proof.
  intros H1 H2 r. specialize (H1 r). specialize (H2 r).
  destruct (st1 !! r), (st2 !! r), (st3 !! r); try done. destruct H1 as (? & ? & ?), H2 as (? & ? & ?).
  split_and!; [congruence|congruence|by auto].
Qed.

Lemma mark_where_marks p l : forall st, marks st (mark_where p l st).
Proof.
  unfold mark_where. induction l as [|r l IH]; intros st; cbn; [apply marks_refl|].
  eapply marks_trans; [|apply IH]. intros k. destruct (decide (r = k)) as [<-|Hne].
  - rewrite lookup_alter_eq. destruct (st !! r) as [s|]; [|done]. cbn. by destruct (p s).
  - rewrite lookup_alter_ne by done. by destruct (st !! k).
Qed.

Lemma mark_where_hits p l : forall st r s, r ∈ l -> st !! r = Some s -> p s = true ->
  (forall s, p (mark s) = p s) -> exists s', mark_where p l st !! r = Some s' /\ se_isDirty s' = true.
Proof.
  unfold mark_where. induction l as [|r' l IH]; intros st r s Hin Hs Hp Hpm; [by apply elem_of_nil in Hin|].
  cbn. destruct (decide (r' = r)) as [->|Hne].
  - pose proof (mark_where_marks p l (alter (fun x => if p x then mark x else x) r st) r) as H.
    rewrite lookup_alter_eq, Hs in H. cbn in H. rewrite Hp in H. unfold mark_where in H.
    destruct (fold_left _ _ _ !! r) as [s'|]; [|done]. exists s'. split; [done|]. by apply H.
  - apply elem_of_cons in Hin as [->|Hin]; [done|]. eapply IH; [done| |exact Hp|done].
    by rewrite lookup_alter_ne.
Qed.

(** The parts a walk over the axes may change. *)
Record axes_walk (c c' : chart) : Prop := AxesWalk {
  aw_series : c_series c' = c_series c;
  aw_legend : c_isDirtyLegend c' = c_isDirtyLegend c;
  aw_length : length (c_axes c') = length (c_axes c);
  aw_marks : marks (c_store c) (c_store c');
  aw_log : exists a, c_log c' = c_log c ++ a /\ drawn_refs a = []
}.

Lemma axes_walk_refl c : axes_walk c c.
Proof. split; try done; [apply marks_refl|]. exists []. by rewrite app_nil_r. Qed.
Lemma drawn_refs_app a b : drawn_refs (a ++ b) = drawn_refs a ++ drawn_refs b.
Proof. apply omap_app. Qed.
Lemma axes_walk_trans c1 c2 c3 : axes_walk c1 c2 -> axes_walk c2 c3 -> axes_walk c1 c3.
Proof.
  intros [S1 L1 N1 M1 (a & A1 & D1)] [S2 L2 N2 M2 (b & A2 & D2)]. split; try congruence.
  - by eapply marks_trans.
  - exists (a ++ b). rewrite A2, A1, <-app_assoc, drawn_refs_app, D1, D2. done.
Qed.
Lemma axes_walk_log e c : drawn_refs [e] = [] -> axes_walk c (log e c).
Proof. intros H. split; try done; [apply marks_refl|]. by exists [e]. Qed.
Lemma axes_walk_axes l c : length l = length (c_axes c) -> axes_walk c (with_axes l c).
Proof. intros H. split; try done; [apply marks_refl|]. exists []. by rewrite app_nil_r. Qed.
Lemma axes_walk_store p l c : axes_walk c (with_store (mark_where p l (c_store c)) c).
Proof. split; try done; [apply mark_where_marks|]. exists []. by rewrite app_nil_r. Qed.

Section settles.
Context (needs : nat -> rescaled).

Lemma redraw_axis_walk i c : axes_walk c (redraw_axis i c).
Proof.
  unfold redraw_axis. destruct (c_axes c !! i) as [a|]; [|apply axes_walk_refl].
  eapply axes_walk_trans; [apply (axes_walk_log TrackerReset); done|].
  eapply axes_walk_trans; [apply (axes_walk_log (AxisDrawn i)); done|].
  set (c1 := log (AxisDrawn i) _). set (l := <[i := _]> _).
  apply (axes_walk_trans _ (with_axes l c1)); [|apply (axes_walk_store _ _ (with_axes l c1))].
  apply axes_walk_axes. unfold l. by rewrite length_insert.
Qed.

Lemma scale_axes_walk c : axes_walk c (scale_axes needs c).
Proof.
  unfold scale_axes. generalize (seq 0 (length (c_axes c))). intros l. revert c.
  induction l as [|i l IH]; intros c; cbn; [apply axes_walk_refl|].
  eapply axes_walk_trans; [|apply IH]. eapply axes_walk_trans; [|by apply axes_walk_log].
  apply axes_walk_axes. by rewrite length_alter.
Qed.

Lemma scale_axes_box c : c_isDirtyBox (scale_axes needs c) = c_isDirtyBox c.
Proof.
  unfold scale_axes. generalize (seq 0 (length (c_axes c))). intros l. revert c.
  induction l as [|i l IH]; intros c; cbn; [done|]. by rewrite IH.
Qed.

Definition clean (a : axis) : Prop := ax_isDirty a = false /\ ax_isDirtyExtremes a = false.

Lemma redraw_axis_axes i c a : c_axes c !! i = Some a ->
  c_axes (redraw_axis i c) = <[i := axis_set (ax_series a) false (ax_isDirtyExtremes a) a]> (c_axes c).
Proof. unfold redraw_axis. by intros ->. Qed.

(** Each axis walked over is clean afterwards, and stays so. *)
Lemma redraw_axes_walk stacked js : forall box c, NoDup js ->
  let c' := (redraw_axes stacked js box c).2 in
  axes_walk c c' /\ c_isDirtyBox c' = c_isDirtyBox c /\
  (box = true -> (redraw_axes stacked js box c).1 = true) /\
  (forall i a, i ∈ js -> c_axes c' !! i = Some a -> clean a) /\
  (forall i, i ∉ js -> c_axes c' !! i = c_axes c !! i).
Proof.
  induction js as [|i js IH]; intros box c Hnd; cbn.
  { split_and!; try done; [apply axes_walk_refl|]. by intros i a ?%elem_of_nil. }
  apply NoDup_cons in Hnd as [Hi Hnd].
  destruct (c_axes c !! i) as [a|] eqn:Ea.
  2:{ destruct (IH box c Hnd) as (A & B & C & D & E). split_and!; try done.
      - intros j b [->|Hj]%elem_of_cons Hb; [|by eapply D]. rewrite E in Hb by done. congruence.
      - intros j [Hne Hj]%not_elem_of_cons. by apply E. }
  set (c1 := if ax_isDirtyExtremes a then _ else c).
  assert (axes_walk c c1 /\ c_isDirtyBox c1 = c_isDirtyBox c /\
          c_axes c1 = <[i := axis_set (ax_series a) (ax_isDirty a) false a]> (c_axes c)) as (W1 & B1 & A1).
  { unfold c1. destruct (ax_isDirtyExtremes a) eqn:Ee.
    - split_and!; try done. eapply axes_walk_trans; [apply axes_walk_axes|by apply axes_walk_log].
      by rewrite length_insert.
    - split_and!; [apply axes_walk_refl|done|]. symmetry. apply list_insert_id. rewrite Ea.
      f_equal. destruct a. cbn in *. by subst. }
  assert (i < length (c_axes c))%nat as Hlt by (by eapply lookup_lt_Some).
  destruct (ax_isDirty a || box || stacked) eqn:Ed.
  - assert (c_axes c1 !! i = Some (axis_set (ax_series a) (ax_isDirty a) false a)) as Ea1
      by (rewrite A1; by apply list_lookup_insert_eq).
    destruct (IH true (redraw_axis i c1) Hnd) as (A & B & C & D & E).
    pose proof (redraw_axis_axes i c1 _ Ea1) as A2.
    split_and!.
    + eapply axes_walk_trans; [exact W1|]. eapply axes_walk_trans; [apply redraw_axis_walk|done].
    + rewrite B. unfold redraw_axis. by rewrite Ea1.
    + intros _. by apply C.
    + intros j b [->|Hj]%elem_of_cons Hb; [|by eapply D]. rewrite E, A2 in Hb by done.
      rewrite list_lookup_insert_eq in Hb by (by rewrite A1, length_insert). by injection Hb as <-.
    + intros j [Hne Hj]%not_elem_of_cons. by rewrite E, A2, list_lookup_insert_ne, A1, list_lookup_insert_ne.
  - apply orb_false_iff in Ed as [[Ed ->]%orb_false_iff _].
    destruct (IH false c1 Hnd) as (A & B & C & D & E). split_and!.
    + by eapply axes_walk_trans.
    + congruence.
    + done.
    + intros j b [->|Hj]%elem_of_cons Hb; [|by eapply D]. rewrite E, A1 in Hb by done.
      rewrite list_lookup_insert_eq in Hb by done. injection Hb as <-. done.
    + intros j [Hne Hj]%not_elem_of_cons. by rewrite E, A1, list_lookup_insert_ne.
Qed.

Lemma redraw_scales_walk stacked box c :
  let t := redraw_scales needs stacked box c in
  axes_walk c t.2 /\ c_isDirtyBox t.2 = c_isDirtyBox c /\ (box = true -> t.1 = true) /\
  (c_hasCartesianSeries c = true -> forall a, a ∈ c_axes t.2 -> clean a).
Proof.
  cbn zeta. unfold redraw_scales. destruct (c_hasCartesianSeries c).
  2:{ split_and!; try done. apply axes_walk_refl. }
  set (c1 := if c_isResizing c =? 0 then scale_axes needs c else c).
  assert (axes_walk c c1 /\ c_isDirtyBox c1 = c_isDirtyBox c) as [W1 B1].
  { unfold c1. destruct (_ =? 0); split; [apply scale_axes_walk|apply scale_axes_box|apply axes_walk_refl|done]. }
  set (c2 := log MarginsTaken (adjustTickAmounts needs c1)).
  assert (axes_walk c c2) as W2.
  { eapply axes_walk_trans; [exact W1|]. eapply axes_walk_trans; [|by apply axes_walk_log].
    eapply axes_walk_trans; [|by apply axes_walk_log]. apply axes_walk_axes. by rewrite length_imap. }
  destruct (redraw_axes_walk stacked (seq 0 (length (c_axes c2))) box c2) as (A & B & C & D & _);
    [apply NoDup_seq|].
  split_and!; [by eapply axes_walk_trans|by rewrite B|done|].
  intros _ a Ha. apply list_elem_of_lookup in Ha as [i Hi]. eapply D; [|exact Hi].
  apply elem_of_seq. apply lookup_lt_Some in Hi. rewrite (aw_length _ _ A) in Hi. lia.
Qed.

Lemma rendered_clean s : se_isDirty (rendered s) = false.
Proof. unfold rendered. by case_bool_decide. Qed.

(** The series due are drawn, in order and once. *)
Definition due (st : gmap sref series) (r : sref) : bool :=
  match st !! r with Some s => se_isDirty s && drawable s | None => false end.

Lemma draw_loop l : forall c, NoDup l ->
  let c' := fold_left (fun c r => redraw_series r c) l c in
  c_axes c' = c_axes c /\ c_series c' = c_series c /\ c_isDirtyLegend c' = c_isDirtyLegend c /\
  c_isDirtyBox c' = c_isDirtyBox c /\
  (forall r, r ∉ l -> c_store c' !! r = c_store c !! r) /\
  (forall r, r ∈ l -> c_store c' !! r = (fun s => if due (c_store c) r then rendered s else s) <$> c_store c !! r) /\
  exists b, c_log c' = c_log c ++ b /\ drawn_refs b = List.filter (due (c_store c)) l /\ Forall (fun e => early e = false) b.
Proof.
  induction l as [|r l IH]; intros c Hnd; cbn.
  { split_and!; try done; [by intros r ?%elem_of_nil|]. exists []. by rewrite app_nil_r. }
  apply NoDup_cons in Hnd as [Hr Hnd]. set (c1 := redraw_series r c).
  assert (exists b, c_log c1 = c_log c ++ b /\ drawn_refs b = (if due (c_store c) r then [r] else []) /\
            Forall (fun e => early e = false) b /\
            c_axes c1 = c_axes c /\ c_series c1 = c_series c /\ c_isDirtyLegend c1 = c_isDirtyLegend c /\
            c_isDirtyBox c1 = c_isDirtyBox c /\ (forall k, k <> r -> c_store c1 !! k = c_store c !! k) /\
            c_store c1 !! r = (fun s => if due (c_store c) r then rendered s else s) <$> c_store c !! r)
    as (b & Hb & Hd & He & A1 & S1 & L1 & B1 & O1 & R1).
  { unfold c1, redraw_series, due. destruct (c_store c !! r) as [s|] eqn:Es.
    2:{ exists []. rewrite app_nil_r. by rewrite Es. }
    destruct (se_isDirty s && drawable s) eqn:Ed.
    2:{ exists []. rewrite app_nil_r, Es. by split_and!. }
    destruct (se_isDirtyData s); [exists [SeriesDrawn r; UpdatedData r]|exists [SeriesDrawn r]]; cbn;
      rewrite <-?app_assoc; cbn; (split_and!; try done;
        [by repeat constructor|by intros k Hk; rewrite lookup_insert_ne|by rewrite lookup_insert_eq]). }
  destruct (IH c1 Hnd) as (A & S & L & B & O & R & (b' & Hb' & Hd' & He')).
  split_and!; try congruence.
  - intros k [Hne Hk]%not_elem_of_cons. by rewrite O, O1.
  - intros k [->|Hk]%elem_of_cons; [by rewrite O, R1|].
    rewrite R by done. assert (k <> r) as Hne by congruence. rewrite O1 by done.
    unfold due. by rewrite O1.
  - exists (b ++ b'). split; [by rewrite Hb', Hb, app_assoc|]. split; [|by apply Forall_app].
    rewrite drawn_refs_app, Hd, Hd'. transitivity ((if due (c_store c) r then [r] else []) ++ List.filter (due (c_store c)) l);
      [|by destruct (due _ r)].
    f_equal. apply List.filter_ext_in. intros k Hk%list_elem_of_In. unfold due. by rewrite O1 by congruence.
Qed.
End settles.

Lemma filter_refs_nodup (p : sref -> bool) l : NoDup l -> NoDup (List.filter p l).
Proof.
  induction 1 as [|x l Hx Hnd IH]; cbn; [constructor|]. destruct (p x); [|done].
  constructor; [|done]. intros [H _]%list_elem_of_In%filter_In. by apply Hx, list_elem_of_In.
Qed.

(** The axes and the plot area before the series are drawn. *)
Definition before_series (legendEnabled : bool) (needs : nat -> rescaled) (c : chart) : chart :=
  let stacked := dirty_stacks c in
  let c1 := if stacked then with_store (mark_where se_stacking (c_series c) (c_store c)) c else c in
  let '(box, c1) := redraw_scales needs stacked (c_isDirtyBox c) (redraw_legend legendEnabled c1) in
  if box then log BoxDrawn (with_dirty (c_isDirtyLegend c1) false c1) else c1.

Lemma redraw_unfold legendEnabled needs c :
  redraw legendEnabled needs c
  = let c1 := before_series legendEnabled needs c in
    log Redrawn (log CanvasDrawn (log TrackerReset (fold_left (fun c r => redraw_series r c) (c_series c1) c1))).
Proof. unfold redraw, before_series. by destruct (redraw_scales _ _ _ _) as [[] ?]. Qed.

Lemma before_series_spec legendEnabled needs c :
  let c1 := before_series legendEnabled needs c in
  c_series c1 = c_series c /\ c_isDirtyBox c1 = false /\
  (legendEnabled = true -> c_isDirtyLegend c1 = false) /\ marks (c_store c) (c_store c1) /\
  (c_hasCartesianSeries c = true -> forall a, a ∈ c_axes c1 -> clean a) /\
  (exists a, c_log c1 = c_log c ++ a /\ drawn_refs a = []) /\
  (dirty_stacks c = true -> forall r s, r ∈ c_series c -> c_store c !! r = Some s -> se_stacking s = true ->
     exists s', c_store c1 !! r = Some s' /\ se_isDirty s' = true).
Proof.
  cbn zeta. unfold before_series. set (c1 := if dirty_stacks c then _ else c).
  assert (axes_walk c c1 /\ c_isDirtyBox c1 = c_isDirtyBox c /\ c_hasCartesianSeries c1 = c_hasCartesianSeries c)
    as (W1 & B1 & K1).
  { unfold c1. destruct (dirty_stacks c); split_and!; try done; [apply axes_walk_store|apply axes_walk_refl]. }
  set (c2 := redraw_legend legendEnabled c1).
  assert (c_series c2 = c_series c1 /\ c_store c2 = c_store c1 /\ c_isDirtyBox c2 = c_isDirtyBox c1 /\
          c_hasCartesianSeries c2 = c_hasCartesianSeries c1 /\
          (legendEnabled = true -> c_isDirtyLegend c2 = false) /\
          exists a, c_log c2 = c_log c1 ++ a /\ drawn_refs a = []) as (S2 & M2 & B2 & K2 & L2 & (a2 & A2 & D2)).
  { unfold c2, redraw_legend. destruct legendEnabled; [|rewrite andb_false_r; split_and!; try done;
      exists []; by rewrite app_nil_r].
    rewrite andb_true_r. destruct (c_isDirtyLegend c1) eqn:E; cbn [orb].
    - split_and!; try done. by exists [LegendDrawn].
    - destruct (has_where _ c1); split_and!; try done; [by exists [LegendDrawn]|exists []; by rewrite app_nil_r]. }
  destruct (redraw_scales_walk needs (dirty_stacks c) (c_isDirtyBox c) c2) as (W3 & B3 & T3 & C3).
  destruct (redraw_scales _ _ _ c2) as [box c3]. cbn in W3, B3, T3, C3.
  assert (marks (c_store c) (c_store c3)) as HM.
  { eapply marks_trans; [apply W1|]. rewrite <-M2. apply W3. }
  assert (exists a, c_log c3 = c_log c ++ a /\ drawn_refs a = []) as (a3 & A3 & D3).
  { destruct (aw_log _ _ W1) as (a1 & A1 & D1), (aw_log _ _ W3) as (a & A & D).
    exists (a1 ++ a2 ++ a). rewrite A, A2, A1, <-!app_assoc, !drawn_refs_app, D1, D2, D. done. }
  set (c4 := if box then _ else c3).
  assert (c_series c4 = c_series c3 /\ c_store c4 = c_store c3 /\ c_axes c4 = c_axes c3 /\
          c_isDirtyLegend c4 = c_isDirtyLegend c3) as (S4 & M4 & A4 & L4) by (unfold c4; by destruct box).
  split_and!.
  - rewrite S4, (aw_series _ _ W3), S2. apply W1.
  - unfold c4. destruct box; [done|]. rewrite B3, B2, B1. destruct (c_isDirtyBox c); [|done]. by specialize (T3 eq_refl).
  - intros Hl. rewrite L4, (aw_legend _ _ W3). by apply L2.
  - by rewrite M4.
  - intros Hk a. rewrite A4. apply C3. congruence.
  - unfold c4. destruct box; [|by exists a3]. exists (a3 ++ [BoxDrawn]). cbn. rewrite A3, app_assoc.
    split; [done|]. by rewrite drawn_refs_app, D3.
  - intros Hst r s Hr Hs Hss. rewrite M4.
    destruct (mark_where_hits se_stacking (c_series c) (c_store c) r s Hr Hs Hss) as (s1 & H1 & Hd1); [done|].
    pose proof (aw_marks _ _ W3 r) as H. rewrite M2 in H. unfold c1 in H. rewrite Hst in H. cbn in H.
    rewrite H1 in H. destruct (c_store c3 !! r) as [s'|]; [|done]. exists s'. split; [done|]. by apply H.
Qed.

(** C17: After a redraw nothing that can be shown is out of date: axes, plot area and
    legend are clean and so is every series that can be drawn; those that were dirty,
    and all stacked ones if one of them was, have been drawn once, after all axes. *)
Theorem redraw_settles legendEnabled needs c :
  registered (shape_of c) ->
  let c' := redraw legendEnabled needs c in
  (forall r s, c_store c' !! r = Some s -> se_isDirty s = true -> drawable s = false) /\
  c_isDirtyBox c' = false /\ (legendEnabled = true -> c_isDirtyLegend c' = false) /\
  (c_hasCartesianSeries c = true -> forall a, a ∈ c_axes c' -> clean a) /\
  exists a b, c_log c' = c_log c ++ a ++ b /\ drawn_refs a = [] /\ Forall (fun e => early e = false) b /\
    NoDup (drawn_refs b) /\
    forall r s, c_store c !! r = Some s -> drawable s = true ->
      se_isDirty s || (dirty_stacks c && se_stacking s) = true -> r ∈ drawn_refs b.
Proof.
  intros Hr. cbn zeta. rewrite redraw_unfold. cbn zeta.
  pose proof (before_series_spec legendEnabled needs c) as (S1 & B1 & L1 & M1 & C1 & (a & A1 & D1) & K1).
  set (c1 := before_series legendEnabled needs c) in *.
  assert (NoDup (c_series c1)) as Hnd by (rewrite S1; apply (rg_nodup _ Hr)).
  destruct (draw_loop (c_series c1) c1 Hnd) as (A & S & L & B & O & R & (b & Hb & Hd & He)).
  set (c2 := fold_left _ _ c1) in *.
  assert (forall r, is_Some (c_store c !! r) -> r ∈ c_series c1) as Hin.
  { intros r [s Hs]. rewrite S1. apply (rg_store _ Hr). cbn. rewrite lookup_fmap, Hs. by eexists. }
  assert (forall r, is_Some (c_store c1 !! r) -> is_Some (c_store c !! r)) as Hback.
  { intros r [s Hs]. specialize (M1 r). rewrite Hs in M1. destruct (c_store c !! r); [by eexists|done]. }
  split_and!.
  - cbn. intros r s Hs Hdirty.
    assert (is_Some (c_store c1 !! r)) as [s1 Hs1].
    { destruct (decide (r ∈ c_series c1)) as [Hi|Hi]; [rewrite R in Hs by done|rewrite O in Hs by done; by eexists].
      destruct (c_store c1 !! r); [by eexists|done]. }
    rewrite (R r) in Hs by (apply Hin, Hback; by eexists). rewrite Hs1 in Hs. cbn in Hs. injection Hs as <-.
    unfold due in *. rewrite Hs1 in *. destruct (se_isDirty s1) eqn:E1; cbn [andb] in *; [|by rewrite E1 in Hdirty].
    destruct (drawable s1) eqn:E2; [|done]. by rewrite rendered_clean in Hdirty.
  - by rewrite <-B in B1.
  - intros Hl. rewrite <-L in L1. by apply L1.
  - intros Hk x Hx. apply C1; [done|]. by rewrite <-A.
  - exists a, (b ++ [TrackerReset; CanvasDrawn; Redrawn]). cbn. rewrite Hb, A1, <-!app_assoc.
    split; [done|]. split; [done|].
    assert (drawn_refs (b ++ [TrackerReset; CanvasDrawn; Redrawn]) = drawn_refs b) as ->
      by (rewrite drawn_refs_app; apply app_nil_r).
    rewrite Hd. split; [apply Forall_app; split; [done|by repeat constructor]|].
    split; [by apply filter_refs_nodup|].
    intros r s Hs Hdr Hdue. apply list_elem_of_In, filter_In.
    split; [apply list_elem_of_In, Hin; by eexists|].
    pose proof (M1 r) as Hm. rewrite Hs in Hm. unfold due.
    destruct (c_store c1 !! r) as [s1|] eqn:Hs1; [|done]. destruct Hm as (-> & _ & Hm). rewrite Hdr, andb_true_r.
    apply orb_true_iff in Hdue as [H|[Hst Hss]%andb_true_iff]; [by apply Hm|].
    assert (r ∈ c_series c) as Hrs by (rewrite <-S1; apply Hin; by eexists).
    destruct (K1 Hst r s Hrs Hs Hss) as (s' & Hs' & Hd'). congruence.
Qed.

(** ** Examples *)

Definition no_need (_ : nat) : rescaled := Rescaled false false false.
Definition demo_series (id : string) (stacking : bool) : series_options :=
  SeriesOptions "line" (Some id) None true stacking true false None None [].
Definition demo_chart : chart := firstRender no_need false [None] [None] [demo_series "a" true; demo_series "b" true].

Lemma chart_registered_witness :
  exists c, rtc step demo_chart c /\ registered (shape_of c).
Proof.
  exists (addSeries true no_need (demo_series "c" false) true false demo_chart).
  assert (rtc step demo_chart (addSeries true no_need (demo_series "c" false) true false demo_chart)) as H
    by (apply rtc_once, step_add).
  split; [done|]. exact (chart_registered no_need false [None] [None] [demo_series "a" true; demo_series "b" true] _ H).
Defined.

Lemma redraw_settles_witness :
  registered (shape_of (setData true no_need 2%positive false demo_chart)) /\
  drawn_refs (c_log (redraw true no_need (setData true no_need 2%positive false demo_chart)))
  = [1%positive; 2%positive; 1%positive; 2%positive] /\
  c_isDirtyBox (redraw true no_need (setData true no_need 2%positive false demo_chart)) = false.
Proof.
  assert (registered (shape_of (setData true no_need 2%positive false demo_chart))) as H.
  { eapply step_registered; [apply step_data|]. unfold demo_chart, firstRender. rewrite render_shape.
    apply initSeries_registered, initSeries_registered, start_registered. }
  split; [done|]. split; [vm_compute; done|].
  exact (proj1 (proj2 (redraw_settles true no_need _ H))).
Defined.

(** After a resize with an animation the end is told to the window: the chart counts as
    being resized for good, and redrawing never scales its axes again. *)
Definition scaled (l : list event) : list nat := omap (fun e => match e with AxisScaled i => Some i | _ => None end) l.
Example resize_never_ends :
  let c := run_timer (resize true no_need true demo_chart) in
  c_isResizing c = 1 /\ c_timers c = [] /\
  scaled (c_log (setData true no_need 1%positive true c)) = scaled (c_log c).
Proof. vm_compute. done. Qed.
Example resize_at_once :
  let c := resize true no_need false demo_chart in
  c_isResizing c = 0 /\ scaled (c_log (setData true no_need 1%positive true c)) = scaled (c_log c) ++ [0; 1]%nat.
Proof. vm_compute. done. Qed.

(** Numbers and names of series are given by the length of the list: after one is
    removed the next takes the number and name of another. *)
Example same_number :
  let c := addSeries true no_need (SeriesOptions "line" None None true false true false None None []) false false
             (match remove true no_need 1%positive false false demo_chart with Ok c => c | Throw _ => demo_chart end) in
  map_to_list ((fun s => (se_index s, se_name s)) <$> c_store c)
  = [(3%positive, (1%nat, "Series 2")); (2%positive, (1%nat, "Series 2"))]%string.
Proof. vm_compute. done. Qed.

(** The layer that says that data are loading is displayed whenever it is shown. *)
Inductive loading_step (l : loading) : loading -> Prop :=
| loading_show str lang : loading_step l (showLoading str lang l)
| loading_hide : loading_step l (hideLoading l)
| loading_faded : loading_step l (fade_over l).

Lemma loading_displayed l : rtc loading_step no_loading l ->
  ld_shown l = true -> ld_display l = true /\ ld_hiding l = false.
Proof.
  intros H. assert (ld_shown no_loading = true -> ld_display no_loading = true /\ ld_hiding no_loading = false) as H0 by done.
  revert H0. induction H as [|l1 l2 l3 Hs _ IH]; intros H1; [done|]. apply IH.
  destruct Hs; unfold showLoading, hideLoading, fade_over.
  - destruct (ld_shown l1) eqn:E; cbn; [by intros _; apply H1|done].
  - done.
  - destruct (ld_hiding l1) eqn:E; cbn; [|rewrite E; exact H1]. intros Hsh. destruct (H1 Hsh). congruence.
Qed.
