(* ===== verification/HsAttribs.v ===== *)
(** * Charts: what points look like

    [highstock.src.js]: the attributes of points in each of their states
    ([convertAttribs], [getAttribs]), the markers that show them ([drawPoints]) and
    their labels ([drawDataLabels]).

    The attributes are read from options that [getAttribs] completes as it goes: the
    options are part of the result.  Numbers are doubles where they are options and
    sizes of markers, and rational where they place labels. *)

From stdpp Require Import gmap strings.
From Stdlib Require Import QArith Qround PrimFloat.
From S2P Require Import Prelude JsString JsNum HsAxis HsScale HsText HsLegend.
Local Open Scope list_scope.
Local Open Scope string_scope.
Local Open Scope Z_scope.

(** ** Values of options *)

(** A value that is there; [undefined] and [null] are read alike. *)
Inductive value := VNum (x : num) | VText (s : string).
Notation values := (gmap string value).

#[global] Instance value_inhabited : Inhabited value := populate (VText "").

(** Assigning what may be [undefined]. *)
Definition put (k : string) (v : option value) (m : values) : values := partial_alter (fun _ => v) k m.

Definition truthy (v : option value) : bool :=
  match v with
  | Some (VNum x) => num_truthy x
  | Some (VText s) => negb (String.eqb s "")
  | None => false
  end.
(** [v || w] *)
Definition or_value (v w : option value) : option value := if truthy v then v else w.
(** [v + n]: [undefined] gives [NaN], a text is lengthened. *)
Definition plus (v : option value) (n : num) : value :=
  match v with
  | Some (VNum x) => VNum (x + n)%num
  | Some (VText s) => VText (s ++ num_string n)
  | None => VNum nan
  end.

(** [Color(v).brighten(alpha).get()]; what is not a text is no colour and stays. *)
Definition brightened (v alpha : option value) : option value :=
  match v with
  | Some (VText s) =>
      let c := Color s in
      match get FDefault (match alpha with Some (VNum a) => brighten a c | _ => c end) with
      | CText t => Some (VText t)
      | CNum x => Some (VNum x)
      end
  | v => v
  end.

(** [pick] *)
Fixpoint pick_first (l : list (option value)) : option value :=
  match l with
  | [] => None
  | Some v :: _ => Some v
  | None :: l => pick_first l
  end.

(** ** The attributes of the states *)

(** The options of a series: those of its markers or its own, and their states. *)
Record series_options := SeriesOptions {
  so_marker : bool;                         (* options.marker is there *)
  so_normal : values; so_hover : values; so_select : values
}.
Definition with_hover v (o : series_options) : series_options :=
  SeriesOptions (so_marker o) (so_normal o) v (so_select o).

(** Options of a point; [ps_hover] and [ps_select] are the states it has. *)
Record point_states := PointStates { ps_hover : option values; ps_select : option values }.
Record look := Look { lk_values : values; lk_enabled : option bool; lk_states : option point_states }.
(** [point.options] with its marker; [None] for a point that is a number. *)
Record point_options := PointOptions { po_own : look; po_marker : option look }.

Record attribs := Attribs { at_normal : values; at_hover : values; at_select : values }.

Section attribs.
(** [pointAttrToOptions]: attributes and the options they come from. *)
Context (conversion : list (string * string)).

Definition convertAttribs (options : values) (bases : list values) : values :=
  fold_left (fun obj '(a, option) =>
      put a (pick_first (options !! option :: List.map (fun b => b !! a) bases)) obj) conversion ∅.

(** The hover state of a series gets what it lacks. *)
Definition complete_hover (color : option value) (o : series_options) : series_options :=
  let h := so_hover o in
  with_hover
    (if so_marker o then
       let h := put "radius" (or_value (h !! "radius") (Some (plus (so_normal o !! "radius") 2%float))) h in
       put "lineWidth" (or_value (h !! "lineWidth") (Some (plus (so_normal o !! "lineWidth") 1%float))) h
     else put "color" (or_value (h !! "color") (brightened color (h !! "brightness"))) h) o.

Definition normal_defaults (color : option value) : values := put "stroke" color (put "fill" color ∅).

Definition series_attribs (color : option value) (o : series_options) : attribs :=
  let normal := convertAttribs (so_normal o) [normal_defaults color] in
  Attribs normal (convertAttribs (so_hover o) [normal]) (convertAttribs (so_select o) [normal]).

(** What a point's own options say: those of its marker, else its own. *)
Definition look_of (p : point_options) : look := default (po_own p) (po_marker p).
Definition with_look (l : look) (p : point_options) : point_options :=
  match po_marker p with
  | Some _ => PointOptions (po_own p) (Some l)
  | None => PointOptions l None
  end.

Definition hidden_radius (l : look) : look :=
  match lk_enabled l with
  | Some false => Look (<["radius" := VNum 0%float]> (lk_values l)) (lk_enabled l) (lk_states l)
  | _ => l
  end.
Definition specific (l : look) : bool :=
  existsb (fun '(_, option) => bool_decide (is_Some (lk_values l !! option))) conversion.

(** The hover state of a point with options of its own. *)
Definition point_hover (o : series_options) (own_color : option value) (h : values) : values :=
  if so_marker o then h
  else put "color" (brightened (or_value (h !! "color") own_color)
                      (or_value (h !! "brightness") (so_hover o !! "brightness"))) h.

Definition point_attribs (o : series_options) (s : attribs) (p : point_options) : point_options * attribs :=
  let l := hidden_radius (look_of p) in
  let p := with_look l p in
  if specific l then
    let own_color := lk_values (po_own p) !! "color" in
    let hover := point_hover o own_color (default ∅ (lk_states l ≫= ps_hover)) in
    let select := default ∅ (lk_states l ≫= ps_select) in
    let normal := convertAttribs (lk_values l) [at_normal s] in
    (* the states of the options keep the hover state, when there are any *)
    let states := (fun st => PointStates (Some hover) (ps_select st)) <$> lk_states l in
    (with_look (Look (lk_values l) (lk_enabled l) states) p,
     Attribs normal (convertAttribs hover [at_hover s; normal]) (convertAttribs select [at_select s; normal]))
  else (p, s).

(** [getAttribs]: the options afterwards, the attributes of the series and of its points. *)
Definition getAttribs (color : option value) (o : series_options) (ps : list (option point_options))
    : series_options * list (option point_options) * (attribs * list attribs) :=
  let o := complete_hover color o in
  let s := series_attribs color o in
  let r := List.map (fun p => match p with
                              | Some p => let '(p, a) := point_attribs o s p in (Some p, a)
                              | None => (None, s) end) ps in
  (o, List.map fst r, (s, List.map snd r)).
End attribs.

(** ** Markers *)

(** A marker: a symbol of some size, or an image, whose size is that of its file. *)
Record marker := Marker { mk_x : num; mk_y : num; mk_size : option num }.
Record marked := Marked {
  md_plotX : num; md_plotY : option num;
  md_attr : attribs; md_selected : bool; md_symbol : option string;
  md_graphic : option marker
}.

(** The symbols that are drawn as paths. *)
Definition is_symbol (s : string) : bool :=
  bool_decide (s ∈ ["circle"; "square"; "triangle"; "triangle-down"; "diamond"; "arc"; "callout"; "flag";
                    "circlepin"; "squarepin"]).
Definition is_image (s : string) : bool := String.prefix "url" s.

Definition with_graphic v (p : marked) : marked :=
  Marked (md_plotX p) (md_plotY p) (md_attr p) (md_selected p) (md_symbol p) v.

(** A point is marked; [series_symbol] where it has no symbol of its own. *)
Definition draw_marker (series_symbol : option string) (p : marked) : res marked :=
  match md_plotY p with
  | None => Ok p
  | Some plotY =>
      if isNaN plotY then Ok p
      else
        let attr := if md_selected p then at_select (md_attr p) else at_normal (md_attr p) in
        let radius := match attr !! "r" with Some (VNum r) => r | _ => nan end in
        match option_union (md_symbol p) series_symbol with
        | None => Throw TypeError
        | Some symbol =>
            let x := (md_plotX p - radius)%num in
            let y := (plotY - radius)%num in
            let size := (2%float * radius)%num in
            match md_graphic p with
            | Some g => Ok (with_graphic (Some (Marker x y ((fun _ => size) <$> mk_size g))) p)
            | None =>
                if (0%float < radius)%num || is_image symbol then
                  if is_symbol symbol then Ok (with_graphic (Some (Marker x y (Some size))) p)
                  else if is_image symbol then Ok (with_graphic (Some (Marker x y None)) p)
                  else Throw TypeError
                else Ok p
            end
        end
  end.

Fixpoint draw_markers (series_symbol : option string) (l : list marked) : res (list marked) :=
  match l with
  | [] => Ok []
  | p :: l => (* from the last point on *)
      l ← draw_markers series_symbol l; p ← draw_marker series_symbol p; Ok (p :: l)
  end.
Definition drawPoints (enabled : bool) (series_symbol : option string) (l : list marked) : res (list marked) :=
  if enabled then draw_markers series_symbol l else Ok l.

(** ** What the attributes are *)

Lemma put_lookup k v m j : put k v m !! j = if decide (k = j) then v else m !! j.
Proof.
  unfold put. destruct (decide (k = j)) as [<-|Hne]; [by rewrite lookup_partial_alter_eq|by rewrite lookup_partial_alter_ne].
Qed.
Lemma put_unchanged k v m : m !! k = v -> put k v m = m.
Proof. intros H. apply map_eq. intros j. rewrite put_lookup. case_decide; congruence. Qed.

Lemma or_value_again v d : or_value (or_value v (Some d)) (Some d) = or_value v (Some d).
Proof. unfold or_value. destruct (truthy v) eqn:E; [by rewrite E|by destruct (truthy (Some d))]. Qed.

Section facts.
Context (conversion : list (string * string)).
Hypothesis names : NoDup (List.map fst conversion).

(** What an attribute is looked up in, in this order. *)
Definition sources (option : string) (a : string) (options : values) (bases : list values) : list (Datatypes.option value) :=
  options !! option :: List.map (fun b => b !! a) bases.

Lemma convert_fold l (options : values) (bases : list values) : NoDup (List.map fst l) -> forall (obj : values) a option, (a, option) ∈ l ->
  fold_left (fun (obj : values) '(a, option) => put a (pick_first (options !! option :: List.map (fun b => b !! a) bases)) obj) l obj !! a
  = pick_first (sources option a options bases).
Proof.
  induction l as [|[b q] l IH]; cbn; intros Hnd obj a option Hin; [by apply elem_of_nil in Hin|].
  apply NoDup_cons in Hnd as [Hb Hnd]. apply elem_of_cons in Hin as [[= -> ->]|Hin]; [|by apply IH].
  assert (forall l (obj : values), b ∉ List.map fst l ->
    fold_left (fun (obj : values) '(a, option) => put a (pick_first (options !! option :: List.map (fun b => b !! a) bases)) obj) l obj !! b
    = obj !! b) as Hkeep.
  { clear. induction l as [|[c q] l IH]; cbn; intros obj Hn; [done|].
    apply not_elem_of_cons in Hn as [Hne Hn]. rewrite IH by done. rewrite put_lookup. case_decide; congruence. }
  rewrite Hkeep by done. rewrite put_lookup. case_decide; congruence.
Qed.

Lemma convert_lookup options bases a option : (a, option) ∈ conversion ->
  convertAttribs conversion options bases !! a = pick_first (sources option a options bases).
Proof. apply convert_fold, names. Qed.

Lemma convert_other_fold l (options : values) (bases : list values) : forall (obj : values) a, a ∉ List.map fst l ->
  fold_left (fun (obj : values) '(a, option) => put a (pick_first (options !! option :: List.map (fun b => b !! a) bases)) obj) l obj !! a
  = obj !! a.
Proof.
  induction l as [|[c q] l IH]; cbn; intros obj a Hn; [done|].
  apply not_elem_of_cons in Hn as [Hne Hn]. rewrite IH by done. rewrite put_lookup. case_decide; congruence.
Qed.
Lemma convert_other options bases a : a ∉ List.map fst conversion -> convertAttribs conversion options bases !! a = None.
Proof. intros H. unfold convertAttribs. by rewrite convert_other_fold. Qed.

Lemma pick_first_app l l' : pick_first (l ++ l') = option_union (pick_first l) (pick_first l').
Proof. induction l as [|[v|] l IH]; cbn; [by destruct (pick_first l')|by destruct (pick_first l')|done]. Qed.
Lemma pick_first_nested x l l' : pick_first (x :: pick_first l :: l') = pick_first (x :: l ++ l').
Proof. destruct x; [done|]. cbn. rewrite pick_first_app. by destruct (pick_first l), (pick_first l'). Qed.

(** An attribute of a point is what the point's options for the state say, then the
    series' for the state, then the series' normal ones, then its colour; what the point
    says for its normal state counts in its normal state, and in others only where all
    of these are silent. *)
Theorem attributes_come_from color o p a option :
  (a, option) ∈ conversion ->
  let o' := complete_hover color o in
  let s := series_attribs conversion color o' in
  let '(p', at_) := point_attribs conversion o' s p in
  let own := look_of p' in
  let theirs := [so_normal o !! option; normal_defaults color !! a] in
  specific conversion own = true ->
  at_normal at_ !! a = pick_first (lk_values own !! option :: theirs) /\
  (forall states, lk_states own = Some states ->
     at_hover at_ !! a = pick_first ([default ∅ (ps_hover states) !! option; so_hover o' !! option]
                                       ++ theirs ++ [lk_values own !! option]) /\
     at_select at_ !! a = pick_first ([default ∅ (ps_select states) !! option; so_select o !! option]
                                        ++ theirs ++ [lk_values own !! option])).
Proof.
  intros Ha o' s. destruct (point_attribs conversion o' s p) as [p' at_] eqn:E.
  intros own theirs Hs. revert E Hs. unfold point_attribs, own.
  set (l := hidden_radius (look_of p)).
  assert (forall q l, look_of (with_look l q) = l) as Hlook by (intros [q [m|]] x; done).
  assert (so_normal o' = so_normal o /\ so_select o' = so_select o) as [Hn Hsel] by done.
  assert (at_normal s !! a = pick_first theirs) as Hsn.
  { unfold s, series_attribs. cbn [at_normal]. rewrite (convert_lookup _ _ a option) by done. by rewrite Hn. }
  assert (at_hover s !! a = pick_first (so_hover o' !! option :: theirs)) as Hsh.
  { unfold s, series_attribs. cbn [at_hover]. rewrite (convert_lookup _ _ a option) by done. unfold sources. cbn [List.map].
    fold s. change (convertAttribs conversion (so_normal o') [normal_defaults color]) with (at_normal s).
    rewrite Hsn, pick_first_nested. by rewrite app_nil_r. }
  assert (at_select s !! a = pick_first (so_select o !! option :: theirs)) as Hss.
  { unfold s, series_attribs. cbn [at_select]. rewrite (convert_lookup _ _ a option) by done. unfold sources. cbn [List.map].
    change (convertAttribs conversion (so_normal o') [normal_defaults color]) with (at_normal s).
    rewrite Hsn, pick_first_nested, Hsel. by rewrite app_nil_r. }
  clearbody s o'. destruct (specific conversion l) eqn:El; intros [= <- <-].
  2:{ rewrite Hlook. congruence. }
  rewrite !Hlook. cbn [lk_values lk_states]. intros _.
  assert (convertAttribs conversion (lk_values l) [at_normal s] !! a = pick_first (lk_values l !! option :: theirs)) as HN.
  { rewrite (convert_lookup _ _ a option) by done. unfold sources. cbn [List.map].
    rewrite Hsn, pick_first_nested. by rewrite app_nil_r. }
  split; [exact HN|].
  assert (forall v b, pick_first [v; pick_first (b :: theirs); pick_first (lk_values l !! option :: theirs)]
                      = pick_first ([v; b] ++ theirs ++ [lk_values l !! option])) as Hchain.
  { intros v b. destruct v as [v|]; [done|]. destruct b as [b|]; [done|]. cbn [pick_first app].
    unfold theirs. destruct (so_normal o !! option); [done|]. destruct (normal_defaults color !! a); [done|].
    by destruct (lk_values l !! option). }
  intros states Hst. destruct (lk_states l) as [st|] eqn:Est; [|done]. injection Hst as <-. cbn [ps_hover ps_select].
  cbn [at_hover at_select].
  split; rewrite (convert_lookup _ [_; _] a option) by done; unfold sources; cbn [List.map];
    rewrite HN, ?Hsh, ?Hss; apply Hchain.
Qed.
End facts.

(** Where there are markers, computing the attributes again changes nothing. *)
Lemma complete_hover_again color o : so_marker o = true ->
  complete_hover color (complete_hover color o) = complete_hover color o.
Proof.
  intros Hm. unfold complete_hover. cbn [so_marker so_hover so_normal so_select with_hover]. rewrite Hm.
  unfold with_hover. cbn [so_marker so_hover so_normal so_select]. f_equal.
  set (v := or_value (so_hover o !! "radius") _). set (w := or_value (put "radius" v _ !! "lineWidth") _).
  set (h := put "lineWidth" w _).
  assert (h !! "radius" = v /\ h !! "lineWidth" = w) as [Hr Hl].
  { unfold h. rewrite !put_lookup. split; by repeat case_decide. }
  assert (put "radius" (or_value (h !! "radius") (Some (plus (so_normal o !! "radius") 2))) h = h) as ->.
  { apply put_unchanged. rewrite Hr. symmetry. apply or_value_again. }
  apply put_unchanged. rewrite Hl. symmetry. apply or_value_again.
Qed.

Lemma hidden_radius_states k st :
  hidden_radius (Look (lk_values (hidden_radius k)) (lk_enabled (hidden_radius k)) st)
  = Look (lk_values (hidden_radius k)) (lk_enabled (hidden_radius k)) st.
Proof.
  unfold hidden_radius. destruct (lk_enabled k) as [[]|] eqn:E; cbn; rewrite ?E; cbn; try done.
  by rewrite insert_insert_eq.
Qed.

Lemma point_attribs_again conversion o s p p' a : so_marker o = true ->
  point_attribs conversion o s p = (p', a) -> point_attribs conversion o s p' = (p', a).
Proof.
  intros Hm. unfold point_attribs.
  assert (forall q l, look_of (with_look l q) = l) as Hlook by (intros [q [m|]] x; done).
  assert (forall q l l', with_look l' (with_look l q) = with_look l' q) as Hwith by (intros [q [m|]] x y; done).
  assert (forall l, hidden_radius (hidden_radius l) = hidden_radius l) as Hh.
  { intros l. unfold hidden_radius. destruct (lk_enabled l) as [[]|] eqn:E; rewrite ?E; try done. cbn.
    by rewrite insert_insert_eq. }
  unfold point_hover. rewrite !Hm. set (l := hidden_radius (look_of p)).
  destruct (specific conversion l) eqn:El; intros [= <- <-]; rewrite !Hlook.
  2:{ unfold l. rewrite Hh. fold l. by rewrite El, Hwith. }
  set (hover := default ∅ (lk_states l ≫= ps_hover)).
  set (l' := Look (lk_values l) (lk_enabled l) _).
  assert (hidden_radius l' = l') as Hl'.
  { unfold l', l. apply hidden_radius_states. }
  rewrite Hl'. assert (specific conversion l' = true) as -> by (rewrite <-El; done).
  assert (default ∅ (lk_states l' ≫= ps_hover) = hover) as Hhov.
  { unfold l', hover. cbn. by destruct (lk_states l). }
  assert (default ∅ (lk_states l' ≫= ps_select) = default ∅ (lk_states l ≫= ps_select)) as Hsel.
  { unfold l'. cbn. by destruct (lk_states l). }
  rewrite Hhov, Hsel, !Hwith. cbn [lk_values lk_enabled lk_states]. f_equal. f_equal. unfold l'. f_equal.
  by destruct (lk_states l).
Qed.

Lemma attributes_stay conversion color o ps : so_marker o = true ->
  let '(o1, ps1, r1) := getAttribs conversion color o ps in
  getAttribs conversion color o1 ps1 = (o1, ps1, r1).
Proof.
  intros Hm. unfold getAttribs. rewrite (complete_hover_again color o Hm).
  assert (so_marker (complete_hover color o) = true) as Hm' by done.
  set (o' := complete_hover color o) in *. set (s := series_attribs conversion color o').
  set (f := fun p => match p with Some p => let '(p, a) := point_attribs conversion o' s p in (Some p, a) | None => (None, s) end).
  assert (forall p, f (fst (f p)) = f p) as Hf.
  { intros [p|]; [|done]. cbn. destruct (point_attribs conversion o' s p) as [p1 a1] eqn:E. cbn.
    by rewrite (point_attribs_again _ _ _ _ _ _ Hm' E). }
  rewrite !List.map_map. f_equal; [|f_equal]; [f_equal|]; apply List.map_ext; intros p; by rewrite Hf.
Qed.

(** Markers: each point with a place and a radius is marked there, whatever stood before. *)
Definition marked_at (series_symbol : option string) (p p' : marked) : Prop :=
  forall plotY, md_plotY p = Some plotY -> isNaN plotY = false ->
  let attr := if md_selected p then at_select (md_attr p) else at_normal (md_attr p) in
  forall r, attr !! "r" = Some (VNum r) -> (0%float < r)%num = true ->
  exists g, md_graphic p' = Some g /\ mk_x g = (md_plotX p - r)%num /\ mk_y g = (plotY - r)%num.

Lemma markers_drawn series_symbol l :
  (forall p, p ∈ l -> exists s, option_union (md_symbol p) series_symbol = Some s /\ (is_symbol s || is_image s) = true) ->
  exists l', draw_markers series_symbol l = Ok l' /\ Forall2 (marked_at series_symbol) l l'.
Proof.
  induction l as [|p l IH]; intros Hs; [by exists []|]. cbn [draw_markers].
  destruct IH as (l' & -> & HF); [intros q Hq; apply Hs; by right|]. cbn [mbind res_bind].
  destruct (Hs p) as (s & Hsym & Hok); [by left|].
  assert (exists p', draw_marker series_symbol p = Ok p' /\ marked_at series_symbol p p') as (p' & -> & Hp').
  { unfold draw_marker, marked_at. destruct (md_plotY p) as [plotY|]; [|by eexists; split].
    destruct (isNaN plotY) eqn:En; [eexists; split; [done|]; congruence|].
    rewrite Hsym. set (attr := if md_selected p then _ else _). set (radius := match attr !! "r" with Some (VNum r) => r | _ => nan end).
    assert (forall g, (mk_x g = (md_plotX p - radius)%num -> mk_y g = (plotY - radius)%num ->
      forall y, Some plotY = Some y -> isNaN y = false -> forall r, attr !! "r" = Some (VNum r) -> (0%float < r)%num = true ->
      exists g', md_graphic (with_graphic (Some g) p) = Some g' /\ mk_x g' = (md_plotX p - r)%num /\ mk_y g' = (y - r)%num)) as Hg.
    { intros g Hx Hy y [= <-] _ r Hr _. exists g. assert (radius = r) as <- by (unfold radius; by rewrite Hr). done. }
    destruct (md_graphic p) as [g|] eqn:Eg.
    - eexists. split; [done|]. by apply Hg.
    - destruct ((0%float < radius)%num || is_image s) eqn:Er.
      + destruct (is_symbol s); [eexists; split; [done|]; by apply Hg|].
        cbn in Hok. rewrite Hok. eexists. split; [done|]. by apply Hg.
      + eexists. split; [done|]. intros y _ _ r Hr Hpos. unfold radius in Er. rewrite Hr, Hpos in Er. done. }
  exists (p' :: l'). split; [done|]. by constructor.
Qed.

(** ** Labels of points *)

Record label_options := LabelOptions {
  dl_enabled : bool;
  dl_align : side; dl_verticalAlign : option vside;       (* null when not given *)
  dl_x : Q; dl_y : option Q
}.
Record label := DataLabel { lb_text : string; lb_align : side; lb_x : Q; lb_y : Z }.

Record labelled := Labelled {
  ld_plotX : option Q; ld_plotY : option Q; ld_y : option Q;
  ld_bar : option rect;                        (* barX, barY, barW, barH *)
  ld_options : label_options -> label_options;  (* merged with the point's own *)
  ld_text : option string;                     (* what the formatter returns *)
  ld_label : option label
}.
Definition with_label v (p : labelled) : labelled :=
  Labelled (ld_plotX p) (ld_plotY p) (ld_y p) (ld_bar p) (ld_options p) (ld_text p) v.

Record label_series := LabelSeries {
  sl_isCartesian : bool; sl_column : bool; sl_bar : bool; sl_stacking : bool; sl_threshold : Q;
  sl_fontBaseline : Q; sl_fontLineHeight : Q;
  sl_inverted : bool; sl_plotWidth : Q; sl_plotHeight : Q
}.

Section labels.
Context (s : label_series).

(** The options of labels of columns and bars that are not given. *)
Definition default_y (v : option vside) : option Q :=
  match v with
  | Some AtTop => Some (sl_fontBaseline s)
  | Some AtMiddle => Some (sl_fontBaseline s - sl_fontLineHeight s / 2)%Q
  | Some AtBottom => Some (- sl_fontLineHeight s + sl_fontBaseline s)%Q
  | None => None
  end.
Definition bar_options (o : label_options) : label_options :=
  let set v y := LabelOptions (dl_enabled o) (dl_align o) v (dl_x o) y in
  if sl_column s || sl_bar s then
    if sl_stacking s then
      let v := Some (default AtMiddle (dl_verticalAlign o)) in
      set v (match dl_y o with Some y => Some y | None => default_y v end)
    else
      match dl_verticalAlign o with
      | None => set (Some AtTop) (dl_y o)
      | Some v => set (Some v) (match dl_y o with Some y => Some y | None => default_y (Some v) end)
      end
  else o.

(** [plotX] and [plotY] of a label, from the bar of the point when there is one that does
    not begin at 0. *)
Definition label_plotX (p : labelled) : Q :=
  match (b ← ld_bar p; let x := (x_ b + w_ b / 2)%Q in
         if Qeq_bool (x_ b) 0 || Qeq_bool x 0 then None else Some x) with
  | Some x => x
  | None => default (-999)%Q (ld_plotX p)
  end.

Definition natural_place (o : label_options) (p : labelled) : Q * Z :=
  let plotX := label_plotX p in
  let plotY := default (-999)%Q (ld_plotY p) in
  let dy := match dl_y o with
            | Some y => y
            | None => if Qle_bool (sl_threshold s) (default 0%Q (ld_y p))
                      then (- sl_fontLineHeight s + sl_fontBaseline s)%Q else sl_fontBaseline s
            end in
  ((if sl_inverted s then sl_plotWidth s - plotY else plotX) + dl_x o,
   mathRound ((if sl_inverted s then sl_plotHeight s - plotX else plotY) + dy))%Q.

Definition inside_plot (x : Q) (y : Z) : bool :=
  Qle_bool 0 x && Qle_bool x (sl_plotWidth s) && (0 <=? y) && Qle_bool (inject_Z y) (sl_plotHeight s).

(** Where the label goes, and its alignment. *)
Definition label_side (o : label_options) (p : labelled) : side :=
  if negb (sl_stacking s) && sl_inverted s && Qlt_b (default 0%Q (ld_y p)) 0%Q then AtRight else dl_align o.
Definition label_x (o : label_options) (p : labelled) (x : Q) : Q :=
  let x := if sl_column s
           then (x + match dl_align o, ld_bar p with
                     | AtLeft, Some b => - w_ b / 2 | AtRight, Some b => w_ b / 2 | _, _ => 0 end)%Q else x in
  if negb (sl_stacking s) && sl_inverted s && Qlt_b (default 0%Q (ld_y p)) 0%Q then (x - 10)%Q else x.

(** In a stack a label is aligned in the box of its bar. *)
Definition bar_box (b : rect) : rect :=
  if sl_inverted s
  then Rect (sl_plotWidth s - y_ b - h_ b) (sl_plotHeight s - x_ b - w_ b) (h_ b) (w_ b)
  else b.
Definition in_bar (o : label_options) (p : labelled) (l : label) : label :=
  match ld_bar p with
  | Some b =>
      if (sl_column s || sl_bar s) && sl_stacking s then
        let '(x, y) := align (dl_align o) (default AtTop (dl_verticalAlign o)) (dl_x o) (default 0%Q (dl_y o)) 0 0 (bar_box b) in
        DataLabel (lb_text l) (lb_align l) (inject_Z x) y
      else l
  | None => l
  end.

(** One point of [drawDataLabels]; [general] are the options of the series. *)
Definition draw_label (general : label_options) (p : labelled) : labelled :=
  let o := ld_options p general in
  let '(x, y) := natural_place o p in
  match ld_label p with
  | Some l =>
      if sl_isCartesian s && (negb (dl_enabled o) || negb (inside_plot x y)) then with_label None p
      else if dl_enabled o then
        let l := DataLabel (default "" (ld_text p)) (lb_align l) (label_x o p x) y in
        with_label (Some (in_bar o p l)) p
      else p
  | None =>
      if dl_enabled o then
        match ld_text p with
        | Some t => with_label (Some (in_bar o p (DataLabel t (label_side o p) (label_x o p x) y))) p
        | None => p
        end
      else p
  end.

(** [hasPointLabels]: a point has options of its own for its label. *)
Definition drawDataLabels (hasPointLabels : bool) (o : label_options) (ps : list labelled) : list labelled :=
  if dl_enabled o || hasPointLabels then List.map (draw_label (bar_options o)) ps else ps.
End labels.

Lemma natural_place_label s o p l : natural_place s o (with_label l p) = natural_place s o p.
Proof. done. Qed.

(** A point in the plot with a text has its label, with that text, at the place the
    point and its options give, whatever label it had; drawing again moves nothing. *)
Theorem labels_settle s o p t :
  let own := ld_options p o in
  let '(x, y) := natural_place s own p in
  dl_enabled own = true -> inside_plot s x y = true -> ld_text p = Some t ->
  exists l, ld_label (draw_label s o p) = Some l /\ lb_text l = t /\
    (sl_stacking s = false -> lb_x l = label_x s own p x /\ lb_y l = y) /\
    draw_label s o (draw_label s o p) = draw_label s o p.
Proof.
  intros own. destruct (natural_place s own p) as [x y] eqn:E. intros He Hin Ht.
  assert (forall l, draw_label s o (with_label (Some l) p)
                    = with_label (Some (in_bar s own p (DataLabel t (lb_align l) (label_x s own p x) y))) p) as Hagain.
  { intros l. unfold draw_label. cbn [ld_label ld_options ld_text with_label]. fold own. rewrite natural_place_label, E.
    rewrite He, Hin, andb_false_r, Ht. done. }
  assert (exists a, draw_label s o p = with_label (Some (in_bar s own p (DataLabel t a (label_x s own p x) y))) p) as [a Ha].
  { destruct (ld_label p) as [l|] eqn:El.
    - exists (lb_align l). rewrite <-Hagain. f_equal. destruct p; cbn in *; by subst.
    - exists (label_side s own p). unfold draw_label. fold own. by rewrite E, El, He, Ht. }
  rewrite Ha. eexists. split; [done|].
  assert (forall l, lb_text (in_bar s own p l) = lb_text l /\ lb_align (in_bar s own p l) = lb_align l) as Hkeep.
  { intros l. unfold in_bar. destruct (ld_bar p); [|done]. destruct (_ && _); [|done]. by destruct (align _ _ _ _ _ _ _). }
  split_and!; [apply Hkeep| |].
  - intros Hs. unfold in_bar. destruct (ld_bar p); [|done]. by rewrite Hs, andb_false_r.
  - rewrite Hagain. by rewrite (proj2 (Hkeep _)).
Qed.

(** The label of a point outside the plot comes and goes with every drawing. *)
Lemma label_comes_and_goes s o p t :
  let own := ld_options p o in
  let '(x, y) := natural_place s own p in
  sl_isCartesian s = true -> dl_enabled own = true -> inside_plot s x y = false -> ld_text p = Some t ->
  is_Some (ld_label (draw_label s o p)) <-> ld_label p = None.
Proof.
  intros own. destruct (natural_place s own p) as [x y] eqn:E. intros Hc He Hin Ht.
  unfold draw_label. fold own. rewrite E. destruct (ld_label p) as [l|].
  - rewrite Hc, Hin, orb_true_r. cbn. split; [by intros []|done].
  - rewrite He, Ht. cbn. split; [done|by eexists].
Qed.

(** ** Examples *)

Definition line_attributes : list (string * string) :=
  [("stroke", "lineColor"); ("stroke-width", "lineWidth"); ("fill", "fillColor"); ("r", "radius")].
Definition column_attributes : list (string * string) :=
  [("stroke", "borderColor"); ("stroke-width", "borderWidth"); ("fill", "color"); ("r", "borderRadius")].
Definition demo_markers : series_options :=
  SeriesOptions true (<["radius" := VNum 4%float]> (<["lineWidth" := VNum 0%float]> ∅)) ∅ ∅.
Definition red_point (states : option point_states) : point_options :=
  PointOptions (Look ∅ None None) (Some (Look (<["fillColor" := VText "red"]> ∅) None states)).

Lemma attributes_come_from_witness :
  ("fill", "fillColor") ∈ line_attributes /\
  (let '(p', at_) := point_attribs line_attributes (complete_hover (Some (VText "blue")) demo_markers)
                       (series_attribs line_attributes (Some (VText "blue")) (complete_hover (Some (VText "blue")) demo_markers))
                       (red_point (Some (PointStates None None))) in
   specific line_attributes (look_of p') = true /\ at_normal at_ !! "fill" = Some (VText "red")).
Proof.
  assert (NoDup (List.map fst line_attributes)) as Hn by (apply (bool_decide_unpack _); vm_compute; done).
  assert (("fill", "fillColor") ∈ line_attributes) as Hin by (apply (bool_decide_unpack _); vm_compute; done).
  split; [done|].
  pose proof (attributes_come_from line_attributes Hn (Some (VText "blue")) demo_markers
                (red_point (Some (PointStates None None))) "fill" "fillColor" Hin) as H.
  cbn zeta in H. destruct (point_attribs line_attributes _ _ _) as [p' at_] eqn:E.
  assert (specific line_attributes (look_of p') = true) as Hs.
  { apply (f_equal (fun x => specific line_attributes (look_of x.1))) in E. cbn [fst] in E. rewrite <-E. vm_compute. done. }
  split; [done|]. destruct (H Hs) as [-> _].
  apply (f_equal (fun x => lk_values (look_of x.1) !! "fillColor")) in E. cbn [fst] in E.
  assert (lk_values (look_of p') !! "fillColor" = Some (VText "red")) as -> by (rewrite <-E; vm_compute; done).
  done.
Defined.

(** A red point turns blue under the mouse: the series' colour comes before the point's
    own, which its hover state was meant to inherit. *)
Example red_point_hovered :
  let '(_, _, (_, l)) := getAttribs line_attributes (Some (VText "blue")) demo_markers [Some (red_point None)] in
  List.map (fun a => (at_normal a !! "fill", at_hover a !! "fill")) l = [(Some (VText "red"), Some (VText "blue"))].
Proof. vm_compute. done. Qed.

(** Without markers the hover colour a point was given is brightened anew each time. *)
Definition demo_columns : series_options :=
  SeriesOptions false ∅ (<["brightness" := VNum 0.1%float]> ∅) ∅.
Definition hovered_column : point_options :=
  PointOptions (Look (<["color" := VText "#000000"]> ∅) None
                  (Some (PointStates (Some (<["color" := VText "#101010"]> ∅)) None))) None.
Example hover_gets_brighter :
  let hover r := List.map (fun a => at_hover a !! "fill") (snd (snd r)) in
  let r1 := getAttribs column_attributes (Some (VText "#0000ff")) demo_columns [Some hovered_column] in
  let r2 := getAttribs column_attributes (Some (VText "#0000ff")) (fst (fst r1)) (snd (fst r1)) in
  (hover r1, hover r2) = ([Some (VText "rgba(41,41,41,1)")], [Some (VText "rgba(66,66,66,1)")]).
Proof. vm_compute. done. Qed.

(** A point that loses its value keeps its marker. *)
Definition demo_attribs : attribs := Attribs (<["r" := VNum 4%float]> ∅) ∅ ∅.
Example marker_left_behind :
  (l ← drawPoints true (Some "circle") [Marked 10%float (Some 20%float) demo_attribs false None None];
   l ← drawPoints true (Some "circle") (List.map (fun p => Marked (md_plotX p) None (md_attr p) false None (md_graphic p)) l);
   Ok (List.map md_graphic l))
  = Ok [Some (Marker 6%float 16%float (Some 8%float))].
Proof. vm_compute. done. Qed.

Definition demo_labels : label_series := LabelSeries true false false false 0 10 14 false 300 200.
Definition demo_label_options : label_options := LabelOptions true AtCenter None 0 (Some (-6)%Q).
Definition demo_labelled : labelled := Labelled (Some 30%Q) (Some 50%Q) (Some 3%Q) None (fun o => o) (Some "3") None.

Lemma labels_settle_witness :
  exists l, ld_label (draw_label demo_labels demo_label_options demo_labelled) = Some l /\ lb_text l = "3" /\ lb_y l = 44.
Proof.
  destruct (labels_settle demo_labels demo_label_options demo_labelled "3" eq_refl eq_refl eq_refl) as (l & H & Ht & Hp & _).
  exists l. split; [exact H|]. split; [exact Ht|]. rewrite (proj2 (Hp eq_refl)). vm_compute. done.
Defined.
