(* ===== verification/HsFlags.v ===== *)
(** * Charts: prices and flags

    [highstock.src.js]: the series with four values at each time ([OHLCPoint],
    [OHLCSeries], [CandlestickSeries]) and the flags that stand on another series
    ([seriesTypes.flags]): what is read from the data, where points are placed and the
    paths that draw them. *)

From stdpp Require Import gmap strings sorting.
From Stdlib Require Import QArith Qround Qminmax PrimFloat Lqa.
From S2P Require Import Prelude JsString JsNum HsAxis HsOrdinal HsExtremes HsScale HsText HsLegend HsPoints HsPath HsAttribs.
Local Open Scope list_scope.
Local Open Scope Z_scope.

(** ** Data *)

(** What stands in the data. *)
Inductive cell := CNum (x : Q) | CText (s : string) | CNull | CUndef.
Inductive datum :=
| DObject (x : option Q) (open high low close : cell)
| DArray (l : list cell)
| DOther.                                       (* a number or [null]: nothing is read *)

Record price := Price {
  pr_x : option Q; pr_name : option string;
  pr_open : cell; pr_high : cell; pr_low : cell; pr_close : cell; pr_y : cell
}.
Definition no_price : price := Price None None CUndef CUndef CUndef CUndef CUndef.

(** [OHLCPoint.applyOptions]; [auto] is the next x of the series. *)
Definition cell_at (l : list cell) (i : nat) : cell := default CUndef (l !! i).
Definition applyOptions (auto : Q) (d : datum) (p : price) : price :=
  let p :=
    match d with
    | DObject x o h l c => Price (option_union x (pr_x p)) (pr_name p) o h l c (pr_y p)
    | DArray [] | DOther => p
    | DArray l =>
        let p := if (length l =? 5)%nat then
                   match cell_at l 0 with
                   | CText s => Price (pr_x p) (Some s) (pr_open p) (pr_high p) (pr_low p) (pr_close p) (pr_y p)
                   | CNum x => Price (Some x) (pr_name p) (pr_open p) (pr_high p) (pr_low p) (pr_close p) (pr_y p)
                   | _ => p
                   end
                 else p in
        let i := if (length l =? 5)%nat then 1%nat else 0%nat in
        Price (pr_x p) (pr_name p) (cell_at l i) (cell_at l (S i)) (cell_at l (S (S i))) (cell_at l (S (S (S i)))) (pr_y p)
    end in
  Price (Some (default auto (pr_x p))) (pr_name p) (pr_open p) (pr_high p) (pr_low p) (pr_close p) (pr_high p).

(** [toYData] *)
Inductive ydatum := Four (o h l c : cell) | One (y : cell).
Definition toYData (p : price) : ydatum := Four (pr_open p) (pr_high p) (pr_low p) (pr_close p).

(** [yData] after [setData], [addPoint] and [Point.update]; [autos] are the times given
    to points without one. *)
Definition setData_y (autos : list Q) (data : list datum) : list ydatum :=
  zip_with (fun auto d => toYData (applyOptions auto d no_price)) autos data.
Definition addPoint_y (auto : Q) (d : datum) (ys : list ydatum) : list ydatum :=
  ys ++ [toYData (applyOptions auto d no_price)].
Definition updatePoint_y (i : nat) (auto : Q) (d : datum) (p : price) (ys : list ydatum) : price * list ydatum :=
  let p := applyOptions auto d p in
  (p, if (i <? length ys)%nat then <[i := One (pr_y p)]> ys else ys).

(** ** Bars and candles *)

Record candle := Candle {
  cd_open : option Q; cd_close : option Q;            (* [None] is [null] *)
  cd_plotX : Q; cd_plotY : option Q; cd_yBottom : Q; cd_barW : Q;
  cd_plotOpen : option Q; cd_plotClose : option Q;    (* [None] is [undefined] *)
  cd_selected : bool; cd_attr : attribs;
  cd_graphic : option (list token)
}.
Definition with_plots o c (p : candle) : candle :=
  Candle (cd_open p) (cd_close p) (cd_plotX p) (cd_plotY p) (cd_yBottom p) (cd_barW p) o c
    (cd_selected p) (cd_attr p) (cd_graphic p).
Definition with_path v (p : candle) : candle :=
  Candle (cd_open p) (cd_close p) (cd_plotX p) (cd_plotY p) (cd_yBottom p) (cd_barW p) (cd_plotOpen p) (cd_plotClose p)
    (cd_selected p) (cd_attr p) (Some v).
Definition with_attr v (p : candle) : candle :=
  Candle (cd_open p) (cd_close p) (cd_plotX p) (cd_plotY p) (cd_yBottom p) (cd_barW p) (cd_plotOpen p) (cd_plotClose p)
    (cd_selected p) v (cd_graphic p).

(** The loop of [OHLCSeries.translate]; [place] is [yAxis.translate(v, 0, 1, 0, 1)]. *)
Definition translate_candle (place : Q -> option Q) (p : candle) : candle :=
  with_plots (match cd_open p with Some v => place v | None => cd_plotOpen p end)
             (match cd_close p with Some v => place v | None => cd_plotClose p end) p.

(** [pointAttr[state]] *)
Definition attr_of (state : string) (a : attribs) : option values :=
  if bool_decide (state = "")%string then Some (at_normal a)
  else if bool_decide (state = "hover")%string then Some (at_hover a)
  else if bool_decide (state = "select")%string then Some (at_select a)
  else None.

Definition q_of (x : num) : Q := let '(p, q) := num_ratio x in (inject_Z p / inject_Z q)%Q.
(** [pointAttr['stroke-width'] % 2 / 2]; [None] is [NaN]. *)
Definition crispCorr (attr : values) : option Q :=
  match attr !! "stroke-width"%string with
  | Some (VNum x) => if isNaN (x - x)%num then None else Some (Qrem (q_of x) 2 / 2)%Q
  | _ => None
  end.

(** [mathRound(x) + c]; a part of a path that is not a number cannot be drawn. *)
Definition crisp (x c : option Q) : option Q := x ← x; c ← c; Some (inject_Z (mathRound x) + c)%Q.
Definition at_num (x : option Q) : token := match x with Some q => Number q | None => Undefined end.
Definition plus_q (x : option Q) (d : Q) : option Q := (fun x => x + d)%Q <$> x.
Definition min_q (x y : option Q) : option Q := x ← x; y ← y; Some (Qmin x y).
Definition max_q (x y : option Q) : option Q := x ← x; y ← y; Some (Qmax x y).

(** The state asked for is ['selected'], for selected points; the others are in the
    state ['']. *)
Definition candle_attr (p : candle) : res values :=
  of_option (attr_of (if cd_selected p then "selected" else "")%string (cd_attr p)).

(** [OHLCSeries.drawPoints] *)
Definition ohlc_path (corr : option Q) (plotY : Q) (p : candle) : list token :=
  let crispX := crisp (Some (cd_plotX p)) corr in
  let halfWidth := inject_Z (mathRound (cd_barW p / 2)) in
  let stem := [Letter "M"; at_num crispX; Number (inject_Z (mathRound (cd_yBottom p)));
               Letter "L"; at_num crispX; Number (inject_Z (mathRound plotY))] in
  let branch v plot d :=
    match v with
    | None => []
    | Some _ => let y := crisp plot corr in
                [Letter "M"; at_num crispX; at_num y; Letter "L"; at_num (plus_q crispX d); at_num y]
    end in
  stem ++ branch (cd_open p) (cd_plotOpen p) (- halfWidth)%Q ++ branch (cd_close p) (cd_plotClose p) halfWidth.

(** [CandlestickSeries.drawPoints] *)
Definition candle_path (corr : option Q) (plotY : Q) (p : candle) : list token :=
  let crispX := crisp (Some (cd_plotX p)) corr in
  let plotOpen := crisp (cd_plotOpen p) corr in
  let plotClose := crisp (cd_plotClose p) corr in
  let topBox := min_q plotOpen plotClose in
  let bottomBox := max_q plotOpen plotClose in
  let halfWidth := inject_Z (mathRound (cd_barW p / 2)) in
  let left_ := at_num (plus_q crispX (- halfWidth)%Q) in
  let right_ := at_num (plus_q crispX halfWidth) in
  [Letter "M"; left_; at_num bottomBox; Letter "L"; left_; at_num topBox; Letter "L"; right_; at_num topBox;
   Letter "L"; right_; at_num bottomBox; Letter "L"; left_; at_num bottomBox;
   Letter "M"; at_num crispX; at_num bottomBox; Letter "L"; at_num crispX; Number (inject_Z (mathRound (cd_yBottom p)));
   Letter "M"; at_num crispX; at_num topBox; Letter "L"; at_num crispX; Number (inject_Z (mathRound plotY)); Letter "Z"].

Definition draw_candle (path : option Q -> Q -> candle -> list token) (p : candle) : res candle :=
  match cd_plotY p with
  | None => Ok p
  | Some plotY => attr ← candle_attr p; Ok (with_path (path (crispCorr attr) plotY p) p)
  end.
Fixpoint draw_candles (path : option Q -> Q -> candle -> list token) (l : list candle) : res (list candle) :=
  match l with
  | [] => Ok []
  | p :: l => p ← draw_candle path p; l ← draw_candles path l; Ok (p :: l)
  end.

(** [CandlestickSeries.getAttribs]: points that rise are filled with [upColor]. *)
Definition candle_attribs (upColor hoverUp selectUp : option value) (series : attribs) (l : list candle) : list candle :=
  let fill c v := put "fill"%string c v in
  let down := Attribs (fill upColor (at_normal series)) (fill (or_value hoverUp upColor) (at_hover series))
                (fill (or_value selectUp upColor) (at_select series)) in
  List.map (fun p => if Qlt_b (default 0%Q (cd_open p)) (default 0%Q (cd_close p)) then with_attr down p else p) l.

(** ** Flags *)

(** A place of the series the flags stand on. *)
Record on_point := OnPoint { op_x : Q; op_plotY : option Q }.

Record drawn_flag := DrawnFlag {
  fl_x : Q; fl_y : Q; fl_title : string;
  fl_anchor : option (Q * Q)                 (* anchorX, anchorY; none: no connector *)
}.
Record flag := Flag {
  f_x : Q; f_title : option string;
  f_plotX : Q; f_plotY : option Q; f_stackIndex : option nat;
  f_shape : option rect;                     (* shapeArgs; [None] is empty *)
  f_graphic : option drawn_flag; f_away : bool    (* its tracker was moved out of sight *)
}.
Definition with_plotY v (p : flag) : flag :=
  Flag (f_x p) (f_title p) (f_plotX p) v (f_stackIndex p) (f_shape p) (f_graphic p) (f_away p).
Definition with_stackIndex v (p : flag) : flag :=
  Flag (f_x p) (f_title p) (f_plotX p) (f_plotY p) v (f_shape p) (f_graphic p) (f_away p).
Definition with_shape v (p : flag) : flag :=
  Flag (f_x p) (f_title p) (f_plotX p) (f_plotY p) (f_stackIndex p) v (f_graphic p) (f_away p).
Definition with_flag g sh away (p : flag) : flag :=
  Flag (f_x p) (f_title p) (f_plotX p) (f_plotY p) (f_stackIndex p) sh g away.

(** A flag is placed on the line at or right of [onData[i]]. *)
Section on_series.
Context (step : bool) (onData : list on_point).
Definition lastX : Q := match last onData with Some l => op_x l | None => 0%Q end.

Definition height_on (i : nat) (left_ : on_point) (x : Q) : option Q :=
  (fun y =>
     if Qlt_b (op_x left_) x && negb step then
       match onData !! S i with
       | Some (OnPoint rx (Some ry)) => (y + (x - op_x left_) / (rx - op_x left_) * (ry - y))%Q
       | _ => y
       end
     else y) <$> op_plotY left_.
Definition place_on (i : nat) (left_ : on_point) (p : flag) : flag :=
  if Qle_bool (f_x p) lastX then with_plotY (height_on i left_ (f_x p)) p else p.

(** [i] and [cursor] as at the head of the loop; [None] when the fuel does not do. *)
Fixpoint on_loop (fuel : nat) (i cursor : nat) (points : list flag) : option (list flag) :=
  match fuel with
  | O => None
  | S fuel =>
      match i with
      | O => Some points
      | S i' =>
          match points !! cursor, onData !! i' with
          | None, _ => Some points
          | _, None => None
          | Some p, Some left_ =>
              if Qle_bool (op_x left_) (f_x p) && bool_decide (is_Some (op_plotY left_)) then
                let points := <[cursor := place_on i' left_ p]> points in
                match cursor with
                | O => Some points
                | S cursor => on_loop fuel i cursor points
                end
              else on_loop fuel i' cursor points
          end
      end
  end.
End on_series.

Definition x_le (p q : flag) : Prop := (f_x p <= f_x q)%Q.
#[global] Instance x_le_dec p q : Decision (x_le p q).
Proof. unfold x_le. destruct (Qle_bool (f_x p) (f_x q)) eqn:E; [left; by apply Qle_bool_iff|right].
  intros H%Qle_bool_iff. congruence. Defined.

(** [translate] after that of the columns; [on] is the series to stand on, when there is
    one and it is visible, with its option [step]. *)
Section flags.
Context (min max : option Q) (plotHeight : Q).

Definition in_extremes (x : Q) : bool :=
  match min, max with Some a, Some b => Qle_bool a x && Qle_bool x b | _, _ => false end.
Definition on_axis (p : flag) : flag :=
  match f_plotY p with
  | Some _ => p
  | None => if in_extremes (f_x p) then with_plotY (Some plotHeight) p else with_shape None p
  end.

(** [done] are the points before, the last one first. *)
Fixpoint stack_loop (done_ l : list flag) : list flag :=
  match l with
  | [] => rev done_
  | p :: l =>
      let p := on_axis p in
      match done_ with
      | last_ :: done' =>
          if Qeq_bool (f_plotX last_) (f_plotX p) then
            let i := default 0%nat (f_stackIndex last_) in
            stack_loop (with_stackIndex (Some (S i)) p :: with_stackIndex (Some i) last_ :: done') l
          else stack_loop (p :: done_) l
      | [] => stack_loop [p] l
      end
  end.

Definition translate (fuel : nat) (on : option (bool * list on_point)) (points : list flag) : option (list flag) :=
  points ← match on with
           | Some (step, (_ :: _) as onData) =>
               let points := merge_sort x_le points in
               on_loop step onData fuel (length onData) (length points - 1) points
           | _ => Some points
           end;
  Some (stack_loop [] points).

(** [drawPoints], one flag; [measure] is the box of the label, [width] the attribute of
    its box. *)
Record flag_options := FlagOptions {
  fo_y : Q; fo_stackDistance : Q; fo_lineWidth : Q; fo_title : option string; fo_flag : bool  (* shape === 'flag' *)
}.
Definition flag_title (o : flag_options) (p : flag) : string :=
  default "A"%string (option_union (truthy_str (f_title p)) (truthy_str (fo_title o))).

Definition draw_flag (o : flag_options) (measure : string -> Q * Q) (width : string -> Q) (p : flag) : flag :=
  let half := (Qrem (fo_lineWidth o) 2 / 2)%Q in
  let plotX := (f_plotX p + half)%Q in
  match f_plotY p with
  | Some plotY0 =>
      let raised := match f_stackIndex p with Some i => (inject_Z (Z.of_nat i) * fo_stackDistance o)%Q | None => 0%Q end in
      let plotY := (plotY0 + fo_y o + half - raised)%Q in
      let anchor := match f_stackIndex p with Some (S _) => None | _ => Some (plotX, plotY0) end in
      let title := match f_graphic p with Some g => fl_title g | None => flag_title o p end in
      let '(w, h) := measure title in
      with_flag (Some (DrawnFlag plotX plotY title anchor))
        (Some (Rect (plotX - (if fo_flag o then 0 else width title / 2))%Q plotY w h)) (f_away p) p
  | None =>
      match f_graphic p with
      | Some _ => with_flag None (f_shape p) true p
      | None => p
      end
  end.
Definition drawPoints (o : flag_options) measure width (l : list flag) : list flag :=
  List.map (draw_flag o measure width) l.     (* from the last on; they do not meet *)
End flags.

(** ** Candles *)

Lemma qround_mono x y : (x <= y)%Q -> mathRound x <= mathRound y.
Proof. intros H. unfold mathRound. apply Qfloor_resp_le. lra. Qed.

Lemma Qrem_range x y : (0 <= x)%Q -> (0 < y)%Q -> (0 <= Qrem x y < y)%Q.
Proof.
  intros Hx Hy. unfold Qrem. assert (0 <= x / y)%Q as Hd by (apply Qle_shift_div_l; [done|]; lra).
  assert (Qle_bool 0 (x / y) = true) as -> by (by apply Qle_bool_iff).
  pose proof (Qfloor_le (x / y)) as H1. pose proof (Qlt_floor (x / y)) as H2.
  rewrite inject_Z_plus in H2. set (k := inject_Z (Qfloor (x / y))) in *. change (inject_Z 1) with 1%Q in H2.
  assert (x == x / y * y)%Q as Hxy by (field; lra).
  set (d := (x / y)%Q) in *. clearbody d. clearbody k. nra.
Qed.

Lemma crispCorr_range attr c x : attr !! "stroke-width"%string = Some (VNum x) -> (0 <= q_of x)%Q ->
  crispCorr attr = Some c -> (0 <= c < 1)%Q.
Proof.
  unfold crispCorr. intros ->. destruct (isNaN _); [done|]. intros Hx [= <-].
  destruct (Qrem_range (q_of x) 2 Hx) as [H1 H2]; [done|].
  set (r := Qrem (q_of x) 2) in *. clearbody r. assert (r / 2 == r * (1 # 2))%Q as E by field. rewrite E. lra.
Qed.

(** The shape of a candle: a box of half a width at each side of [x], from [bottom] up to
    [top], and wicks from there to [lower] and to [upper]. *)
Definition candle_shape (x half top bottom upper lower : Q) : list token :=
  [Letter "M"; Number (x + - half); Number bottom; Letter "L"; Number (x + - half); Number top;
   Letter "L"; Number (x + half); Number top; Letter "L"; Number (x + half); Number bottom;
   Letter "L"; Number (x + - half); Number bottom;
   Letter "M"; Number x; Number bottom; Letter "L"; Number x; Number lower;
   Letter "M"; Number x; Number top; Letter "L"; Number x; Number upper; Letter "Z"].

Section candles.
Context (log2lin lin2log : Q -> Q) (o : axis_options).
Local Notation place s v := (HsScale.translate log2lin lin2log o s v false true false true).

(** On an upright value axis higher values are placed further up. *)
Lemma higher_up s0 m M v w : fits o s0 m M -> plain_axis o true -> o_reversed o = false ->
  (m <= v <= w)%Q -> (w <= M)%Q ->
  let s := with_translation (setAxisTranslation o s0) s0 in
  exists p q, place s v = Some p /\ place s w = Some q /\ (q <= p)%Q.
Proof.
  intros Hf Hp Hr [H1 H2] H3 s.
  destruct (translate_inside log2lin lin2log o s0 m M v w true Hf Hp (conj H1 H2) H3)
    as (p0 & q0 & E1 & E2 & _ & _ & _ & Hle). fold s in E1, E2. rewrite Hr in Hle.
  assert (r_min (s_ranges s) = Some m) as Hm by apply (fit_min _ _ _ _ Hf).
  destruct (translate_eq log2lin lin2log o s m v true true Hp Hm) as (p & Ep & Dp).
  destruct (translate_eq log2lin lin2log o s m w true true Hp Hm) as (q & Eq & Dq).
  destruct (translate_eq log2lin lin2log o s m v false true Hp Hm) as (p1 & Ep1 & Dp1).
  destruct (translate_eq log2lin lin2log o s m w false true Hp Hm) as (q1 & Eq1 & Dq1).
  rewrite E1 in Ep1. rewrite E2 in Eq1. injection Ep1 as <-. injection Eq1 as <-.
  exists p, q. split; [done|]. split; [done|]. rewrite Hr in *. cbn [xorb] in *. cbn zeta in *. lra.
Qed.
End candles.

Section candle.
Context (log2lin lin2log : Q -> Q) (ax : axis_options).

(** A candle whose values lie on a value axis in their order is drawn, unless it is
    selected, as a box between the places of its opening and closing value, in the middle
    over its time and as wide as its column; the wicks go on to the highest and the lowest
    value, and the box does not reach beyond them by more than a pixel. *)
Theorem candle_between_wicks s0 m M open high low close p attr0 x c Th Tl :
  let s := with_translation (setAxisTranslation ax s0) s0 in
  let place v := HsScale.translate log2lin lin2log ax s v false true false true in
  fits ax s0 m M -> plain_axis ax true -> o_reversed ax = false ->
  (m <= low)%Q -> (low <= open <= high)%Q -> (low <= close <= high)%Q -> (high <= M)%Q ->
  cd_open p = Some open -> cd_close p = Some close ->
  place high = Some Th -> place low = Some Tl ->
  cd_plotY p = Some (tenths Th) -> cd_yBottom p = Tl -> cd_selected p = false ->
  at_normal (cd_attr p) = attr0 -> attr0 !! "stroke-width"%string = Some (VNum x) -> (0 <= q_of x)%Q ->
  crispCorr attr0 = Some c ->
  let half := inject_Z (mathRound (cd_barW p / 2)) in
  let upper := inject_Z (mathRound (tenths Th)) in
  let lower := inject_Z (mathRound Tl) in
  exists p' top bottom, draw_candle candle_path (translate_candle place p) = Ok p' /\
    cd_graphic p' = Some (candle_shape (inject_Z (mathRound (cd_plotX p)) + c) half top bottom upper lower) /\
    (upper <= top + 1)%Q /\ (top <= bottom)%Q /\ (bottom < lower + 1)%Q.
Proof.
  intros s place Hf Hp Hr Hlow [Ho1 Ho2] [Hc1 Hc2] Hhigh Eo Ec ETh ETl EY EB Esel Ea Ew Hx Hc half upper lower.
  pose proof (higher_up log2lin lin2log ax s0 m M) as H. fold s in H.
  destruct (H open high Hf Hp Hr ltac:(lra) Hhigh) as (To & Th' & E1 & E2 & Hoh).
  destruct (H close high Hf Hp Hr ltac:(lra) Hhigh) as (Tc & Th'' & E3 & E4 & Hch).
  destruct (H low open Hf Hp Hr ltac:(lra) ltac:(lra)) as (Tl' & To' & E5 & E6 & Hlo).
  destruct (H low close Hf Hp Hr ltac:(lra) ltac:(lra)) as (Tl'' & Tc' & E7 & E8 & Hlc).
  fold (place high) in E2, E4. fold (place low) in E5, E7. fold (place open) in E1, E6. fold (place close) in E3, E8.
  assert (Th' = Th /\ Th'' = Th /\ Tl' = Tl /\ Tl'' = Tl /\ To' = To /\ Tc' = Tc) as (-> & -> & -> & -> & -> & ->) by (split_and!; congruence).
  destruct (crispCorr_range attr0 c x Ew Hx Hc) as [Hc0 Hc1'].
  unfold draw_candle, translate_candle. rewrite Eo, Ec. fold place. cbn [with_plots cd_plotY].
  rewrite EY. unfold candle_attr. cbn [with_plots cd_selected cd_attr]. rewrite Esel, E1, E3.
  change (attr_of "" (cd_attr p)) with (Some (at_normal (cd_attr p))). rewrite Ea. cbn [of_option mbind res_bind].
  rewrite Hc. eexists _, (Qmin (inject_Z (mathRound To) + c) (inject_Z (mathRound Tc) + c)),
                        (Qmax (inject_Z (mathRound To) + c) (inject_Z (mathRound Tc) + c)).
  split; [done|]. split.
  { cbn [with_path cd_graphic with_plots]. unfold candle_path, candle_shape, upper, lower, half.
    cbn [with_plots cd_plotOpen cd_plotClose cd_plotX cd_yBottom cd_barW crisp mbind option_bind min_q max_q plus_q fmap option_fmap option_map at_num].
    by rewrite EB. }
  assert (upper <= inject_Z (mathRound Th) + 1)%Q as Hup.
  { unfold upper. change 1%Q with (inject_Z 1). rewrite <-inject_Z_plus, <-Zle_Qle.
    assert (tenths Th <= Th + (1 # 10))%Q as Ht.
    { unfold tenths, mathRound. pose proof (Qfloor_le (Th * 10 + (1 # 2))) as Hfl.
      set (k := inject_Z (Qfloor _)) in *. clearbody k. assert (k / 10 == k * (1 # 10))%Q as -> by field. lra. }
    unfold mathRound in *. pose proof (Qfloor_le (tenths Th + (1 # 2))) as H1.
    pose proof (Qlt_floor (Th + (1 # 2))) as H2. rewrite inject_Z_plus in H2. change (inject_Z 1) with 1%Q in H2.
    apply Z.nlt_ge. intros Hlt. assert (Qfloor (Th + (1 # 2)) + 2 <= Qfloor (tenths Th + (1 # 2))) as H3 by lia.
    rewrite Zle_Qle, inject_Z_plus in H3. change (inject_Z 2) with 2%Q in H3.
    set (k := inject_Z (Qfloor (Th + (1 # 2)))) in *. set (j := inject_Z (Qfloor (tenths Th + (1 # 2)))) in *. clearbody j k. lra. }
  assert (forall T, (Th <= T)%Q -> (inject_Z (mathRound Th) <= inject_Z (mathRound T))%Q) as Hmono1
    by (intros T HT; rewrite <-Zle_Qle; by apply qround_mono).
  assert (forall T, (T <= Tl)%Q -> (inject_Z (mathRound T) <= lower)%Q) as Hmono2
    by (intros T HT; unfold lower; rewrite <-Zle_Qle; by apply qround_mono).
  pose proof (Hmono1 To Hoh). pose proof (Hmono1 Tc Hch). pose proof (Hmono2 To Hlo). pose proof (Hmono2 Tc Hlc).
  set (a := inject_Z (mathRound To)) in *. set (b := inject_Z (mathRound Tc)) in *. clearbody a b upper lower.
  destruct (Q.min_spec (a + c) (b + c)) as [[? ->]|[? ->]], (Q.max_spec (a + c) (b + c)) as [[? ->]|[? ->]];
    split_and!; lra.
Qed.
End candle.

(** ** Flags on a line *)

Section anchors.
Context (step : bool) (onData : list on_point).

(** The last place at or before [x] that can be seen, among the first [i]. *)
Definition stands (l : on_point) (x : Q) : bool := Qle_bool (op_x l) x && bool_decide (is_Some (op_plotY l)).
Fixpoint anchor (i : nat) (x : Q) : option nat :=
  match i with
  | O => None
  | S i' => match onData !! i' with
            | Some l => if stands l x then Some i' else anchor i' x
            | None => None
            end
  end.
Definition line_at (x : Q) : option Q :=
  j ← anchor (length onData) x; l ← onData !! j;
  if Qle_bool x (lastX onData) then height_on step onData j l x else None.
Definition flag_on (p : flag) : flag :=
  match anchor (length onData) (f_x p) with
  | Some j => match onData !! j with Some l => place_on step onData j l p | None => p end
  | None => p
  end.

Lemma place_on_x j l p : f_x (place_on step onData j l p) = f_x p.
Proof. unfold place_on. by destruct (Qle_bool _ _). Qed.

Lemma anchor_lookup x : forall i j, anchor i x = Some j -> exists l, onData !! j = Some l /\ stands l x = true.
Proof.
  induction i as [|i IH]; cbn; intros j H; [done|]. destruct (onData !! i) as [l|] eqn:E; [|done].
  destruct (stands l x) eqn:Es; [injection H as <-; by eexists|by apply IH].
Qed.

Lemma on_loop_spec : forall fuel i cursor (pts : list flag) p,
  (i + cursor < fuel)%nat -> (i <= length onData)%nat -> pts !! cursor = Some p ->
  (forall k q r, (k <= cursor)%nat -> pts !! k = Some q -> pts !! cursor = Some r -> (f_x q <= f_x r)%Q) ->
  (forall j k q r, (j <= k)%nat -> (k <= cursor)%nat -> pts !! j = Some q -> pts !! k = Some r -> (f_x q <= f_x r)%Q) ->
  (forall k q, (k <= cursor)%nat -> pts !! k = Some q -> anchor (length onData) (f_x q) = anchor i (f_x q)) ->
  on_loop step onData fuel i cursor pts = Some (List.map flag_on (take (S cursor) pts) ++ drop (S cursor) pts).
Proof.
  induction fuel as [|fuel IH]; intros i cursor pts p Hf Hi Hp Hle Hs Ha; [lia|].
  cbn [on_loop]. destruct i as [|i].
  { f_equal. assert (List.map flag_on (take (S cursor) pts) = take (S cursor) pts) as ->.
    2:{ by rewrite take_drop. }
    rewrite <-(List.map_id (take (S cursor) pts)) at 2. apply List.map_ext_in. intros q [k Hk]%list_elem_of_In%list_elem_of_lookup.
    apply lookup_take_Some in Hk as [Hk Hkc]. unfold flag_on. rewrite (Ha k q) by (done || lia). done. }
  rewrite Hp. destruct (onData !! i) as [l|] eqn:El.
  2:{ apply lookup_ge_None in El. lia. }
  fold (stands l (f_x p)). destruct (stands l (f_x p)) eqn:Es.
  - assert (flag_on p = place_on step onData i l p) as Hon.
    { unfold flag_on. rewrite (Ha cursor p) by done. cbn [anchor]. rewrite El, Es, El. done. }
    assert (cursor < length pts)%nat as Hlt by (by eapply lookup_lt_Some).
    rewrite <-Hon. rewrite (take_S_r _ _ p) by done. rewrite List.map_app. cbn [List.map].
    assert (drop cursor (<[cursor:=flag_on p]> pts) = flag_on p :: drop (S cursor) pts) as Hd.
    { rewrite (drop_S (<[cursor:=flag_on p]> pts) (flag_on p) cursor) by (by apply list_lookup_insert_eq).
      f_equal. rewrite drop_insert_lt by lia. done. }
    destruct cursor as [|cursor].
    + cbn [take List.map app]. f_equal. by rewrite drop_0 in Hd.
    + destruct (lookup_lt_is_Some_2 pts cursor ltac:(lia)) as [q Hq].
      rewrite (IH (S i) cursor _ q); try done.
      * f_equal. rewrite Hd, take_insert_ge by lia. by rewrite <-app_assoc.
      * lia.
      * by rewrite list_lookup_insert_ne by lia.
      * intros k a b Hk H1 H2. rewrite list_lookup_insert_ne in H1 by lia. rewrite list_lookup_insert_ne in H2 by lia.
        by apply (Hs k cursor); [lia|lia|..].
      * intros j k a b Hj Hk H1 H2. rewrite list_lookup_insert_ne in H1 by lia. rewrite list_lookup_insert_ne in H2 by lia.
        by apply (Hs j k); [lia|lia|..].
      * intros k a Hk H1. rewrite list_lookup_insert_ne in H1 by lia. apply (Ha k a); [lia|done].
  - apply (IH i cursor pts p); try done; [lia|lia|].
    intros k q Hk Hq. rewrite (Ha k q) by done. cbn [anchor]. rewrite El.
    assert (stands l (f_x q) = false) as ->; [|done].
    pose proof (Hle k q p Hk Hq Hp) as Hqp. unfold stands in *. destruct (bool_decide _); [|apply andb_false_r].
    rewrite andb_true_r in *. apply not_true_iff_false. intros H%Qle_bool_iff.
    assert (Qle_bool (op_x l) (f_x p) = true) by (apply Qle_bool_iff; lra). congruence.
Qed.

Lemma on_loop_all pts : onData <> [] ->
  (forall j k q r, (j <= k)%nat -> pts !! j = Some q -> pts !! k = Some r -> (f_x q <= f_x r)%Q) ->
  on_loop step onData (length onData + length pts) (length onData) (length pts - 1) pts = Some (List.map flag_on pts).
Proof.
  intros Hne Hs. destruct pts as [|p0 pts'] eqn:E.
  { destruct onData; [done|]. done. }
  rewrite <-E in *. destruct (lookup_lt_is_Some_2 pts (length pts - 1)) as [p Hp]; [rewrite E; cbn; lia|].
  assert (length pts > 0)%nat by (rewrite E; cbn; lia).
  rewrite (on_loop_spec _ _ _ pts p); try done; try lia.
  - replace (S (length pts - 1)) with (length pts) by lia. by rewrite take_ge, drop_ge, app_nil_r by done.
  - intros k q r Hk H1 H2. by apply (Hs k (length pts - 1)%nat).
  - intros j k q r Hj Hk H1 H2. by apply (Hs j k).
Qed.
End anchors.

(** ** Stacks of flags *)

Section stacks.
Context (min max : option Q) (plotHeight : Q).

(** Newest first: each flag counts on from the one before at its place. *)
Definition base (i : option nat) : Prop := i = None \/ i = Some 0%nat.
Fixpoint counted (l : list flag) : Prop :=
  match l with
  | [] => True
  | q :: r =>
      match r with
      | [] => base (f_stackIndex q)
      | p :: _ => if Qeq_bool (f_plotX p) (f_plotX q)
                  then f_stackIndex q = Some (S (default 0%nat (f_stackIndex p)))
                  else base (f_stackIndex q)
      end /\ counted r
  end.

(** All but the count. *)
Definition bare (p : flag) : flag := with_stackIndex None p.

Lemma on_axis_fresh p : f_stackIndex p = None -> f_stackIndex (on_axis min max plotHeight p) = None.
Proof. unfold on_axis. destruct (f_plotY p); [done|]. by destruct (in_extremes _ _ _). Qed.
Lemma on_axis_plotX p : f_plotX (on_axis min max plotHeight p) = f_plotX p.
Proof. unfold on_axis. destruct (f_plotY p); [done|]. by destruct (in_extremes _ _ _). Qed.
Lemma on_axis_x p : f_x (on_axis min max plotHeight p) = f_x p.
Proof. unfold on_axis. destruct (f_plotY p); [done|]. by destruct (in_extremes _ _ _). Qed.

Lemma counted_head p l : counted (p :: l) -> counted (with_stackIndex (Some (default 0%nat (f_stackIndex p))) p :: l).
Proof.
  cbn. intros [H Hl]. split; [|done]. destruct l as [|q l].
  - right. by destruct H as [->| ->].
  - change (f_plotX (with_stackIndex _ p)) with (f_plotX p).
    destruct (Qeq_bool _ _); [by rewrite H|]. right. by destruct H as [->| ->].
Qed.

Lemma stack_loop_spec l : forall done_, counted done_ -> Forall (fun p => f_stackIndex p = None) l ->
  exists d, stack_loop min max plotHeight done_ l = rev d /\ counted d /\
    List.map bare d = List.map bare (rev (List.map (on_axis min max plotHeight) l) ++ done_).
Proof.
  induction l as [|p l IH]; intros done_ Hc Hf; cbn; [by exists done_|].
  apply Forall_cons in Hf as [Hp Hf]. pose proof (on_axis_fresh p Hp) as Hq. set (q := on_axis min max plotHeight p) in *.
  assert (forall d0, counted d0 -> List.map bare d0 = bare q :: List.map bare done_ ->
    exists d, stack_loop min max plotHeight d0 l = rev d /\ counted d /\
      List.map bare d = List.map bare ((rev (List.map (on_axis min max plotHeight) l) ++ [q]) ++ done_)) as Hgo.
  { intros d0 H0 H1. destruct (IH d0 H0 Hf) as (d & Hd & Hcd & Ha). exists d. split; [done|]. split; [done|].
    rewrite Ha, !List.map_app, H1, <-app_assoc. done. }
  destruct done_ as [|last_ done']; [apply Hgo; [|done]; cbn; split; [by left|done]|].
  destruct (Qeq_bool (f_plotX last_) (f_plotX q)) eqn:E; (apply Hgo; [|done]).
  - split; [|by apply counted_head]. cbn. by rewrite E.
  - split; [|done]. rewrite E. by left.
Qed.

Lemma counted_lookup d : counted d -> forall i p q, d !! S i = Some p -> d !! i = Some q ->
  Qeq_bool (f_plotX p) (f_plotX q) = true -> f_stackIndex q = Some (S (default 0%nat (f_stackIndex p))).
Proof.
  induction d as [|q0 d IH]; intros Hc i p q Hp Hq He; [done|]. destruct Hc as [H Hc]. destruct i as [|i].
  - injection Hq as <-. cbn in Hp. destruct d as [|p0 d]; [done|]. injection Hp as <-. by rewrite He in H.
  - by apply (IH Hc i p q).
Qed.

(** The first one of its place does not count. *)
Lemma counted_lowest d : counted d -> forall i q, d !! i = Some q ->
  (forall p, d !! S i = Some p -> Qeq_bool (f_plotX p) (f_plotX q) = false) -> base (f_stackIndex q).
Proof.
  induction d as [|q0 d IH]; intros Hc i q Hq Hn; [done|]. destruct Hc as [H Hc]. destruct i as [|i].
  - injection Hq as <-. destruct d as [|p0 d]; [done|]. by rewrite (Hn p0 eq_refl) in H.
  - by apply (IH Hc i q).
Qed.
End stacks.

(** [drawPoints] on a flag that has a height. *)
Definition crispness (o : flag_options) : Q := (Qrem (fo_lineWidth o) 2 / 2)%Q.
Lemma drawn_lowest o measure width p y : f_plotY p = Some y -> base (f_stackIndex p) ->
  exists a, f_graphic (draw_flag o measure width p) = Some a /\ fl_anchor a = Some (fl_x a, y) /\
    fl_x a = (f_plotX p + crispness o)%Q /\ (fl_y a == y + fo_y o + crispness o)%Q.
Proof.
  intros Hy Hb. unfold draw_flag. rewrite Hy. destruct (measure _) as [w h]. eexists. split; [done|].
  cbn [fl_anchor fl_x fl_y]. unfold crispness. set (c := (Qrem _ _ / 2)%Q).
  destruct Hb as [E|E]; rewrite E; (split; [done|]); (split; [done|]); [|change (inject_Z (Z.of_nat 0)) with 0%Q]; ring.
Qed.

(** Flags that have not been placed yet. *)
Definition unplaced (p : flag) : Prop := f_stackIndex p = None /\ f_plotY p = None.

(** The height of a flag at [x]: that of the line it stands on or, off the line, that of
    the axis, as far as it is in sight. *)
Definition flag_height (step : bool) (onData : list on_point) (min max : option Q) (plotHeight x : Q) : option Q :=
  match line_at step onData x with
  | Some y => Some y
  | None => if in_extremes min max x then Some plotHeight else None
  end.

Lemma flag_on_height step onData min max plotHeight p : f_plotY p = None ->
  f_plotY (on_axis min max plotHeight (flag_on step onData p)) = flag_height step onData min max plotHeight (f_x p).
Proof.
  intros Hp. unfold flag_height, line_at, flag_on.
  assert (f_plotY (on_axis min max plotHeight p) = if in_extremes min max (f_x p) then Some plotHeight else None) as H0
    by (unfold on_axis; rewrite Hp; by destruct (in_extremes _ _ _)).
  destruct (anchor onData (length onData) (f_x p)) as [j|] eqn:Ea; cbn [mbind option_bind]; [|done].
  destruct (onData !! j) as [l|]; cbn [mbind option_bind]; [|done].
  unfold place_on. destruct (Qle_bool (f_x p) (lastX onData)); [|done].
  unfold on_axis. cbn [with_plotY f_plotY f_x]. destruct (height_on step onData j l (f_x p)); [done|].
  by destruct (in_extremes _ _ _).
Qed.

Lemma strongly_sorted_at {A} (R : A -> A -> Prop) l : StronglySorted R l ->
  forall j k a b, (j < k)%nat -> l !! j = Some a -> l !! k = Some b -> R a b.
Proof.
  induction 1 as [|x l Hl IH Hx]; intros j k a b Hjk Ha Hb; [done|]. destruct k as [|k]; [lia|]. cbn in Hb.
  destruct j as [|j]; [|apply (IH j k); [lia|done..]]. injection Ha as <-.
  rewrite Forall_forall in Hx. apply Hx. by eapply list_elem_of_lookup_2.
Qed.

(** The flags a first translation leaves, newest first. *)
Lemma first_translate min max plotHeight step onData points :
  onData <> [] -> Forall unplaced points ->
  exists d, translate min max plotHeight (length onData + length points) (Some (step, onData)) points = Some (rev d) /\
    counted d /\ Sorted Qle (f_x <$> rev d) /\ (f_x <$> rev d) ≡ₚ (f_x <$> points) /\
    forall i p, rev d !! i = Some p -> f_plotY p = flag_height step onData min max plotHeight (f_x p).
Proof.
  intros Hne Hun. unfold translate. destruct onData as [|l0 onData'] eqn:E; [done|]. rewrite <-E in *. clear l0 onData' E.
  set (sorted := merge_sort x_le points).
  assert (sorted ≡ₚ points) as Hperm by apply merge_sort_Permutation.
  assert (Total x_le) as Htot by (intros a b; unfold x_le; destruct (Qlt_le_dec (f_x a) (f_x b)); [left; by apply Qlt_le_weak|by right]).
  assert (Transitive x_le) as Htr by (intros a b c; apply Qle_trans).
  assert (StronglySorted x_le sorted) as Hss by (apply StronglySorted_merge_sort; done).
  assert (forall j k q r, (j <= k)%nat -> sorted !! j = Some q -> sorted !! k = Some r -> (f_x q <= f_x r)%Q) as Hle.
  { intros j k q r Hjk Hq Hr. destruct (decide (j = k)) as [<-|Hd]; [rewrite Hq in Hr; injection Hr as <-; apply Qle_refl|].
    by apply (strongly_sorted_at x_le sorted Hss j k q r); [lia|..]. }
  replace (length points) with (length sorted) by (by rewrite Hperm).
  rewrite (on_loop_all step onData sorted Hne Hle). cbn [mbind option_bind].
  assert (Forall unplaced sorted) as Hun' by (by rewrite Hperm).
  set (placed := List.map (flag_on step onData) sorted).
  assert (Forall (fun p => f_stackIndex p = None) placed) as Hfresh.
  { apply Forall_forall. intros p (q & <- & Hq%list_elem_of_In)%list_elem_of_In%in_map_iff.
    rewrite Forall_forall in Hun'. destruct (Hun' q Hq) as [Hs _]. unfold flag_on, place_on.
    destruct (anchor _ _ _); [|done]. destruct (onData !! _); [|done]. by destruct (Qle_bool _ _). }
  destruct (stack_loop_spec min max plotHeight placed [] I Hfresh) as (d & Hd & Hcd & Hal). rewrite app_nil_r in Hal.
  rewrite Hd. exists d. split; [done|]. split; [done|].
  assert (List.map bare (rev d) = List.map bare (List.map (on_axis min max plotHeight) placed)) as Hal'.
  { by rewrite List.map_rev, Hal, List.map_rev, rev_involutive. }
  assert (f_x <$> rev d = f_x <$> sorted) as Hx.
  { apply (f_equal (List.map f_x)) in Hal'. rewrite !List.map_map in Hal'. unfold placed in Hal'. rewrite List.map_map in Hal'.
    change (List.map f_x (rev d) = List.map f_x sorted). transitivity (List.map (fun x => f_x (bare x)) (rev d)); [done|].
    rewrite Hal'. apply List.map_ext. intros p. change (f_x (bare ?a)) with (f_x a). rewrite on_axis_x.
    unfold flag_on. destruct (anchor _ _ _); [|done]. destruct (onData !! _); [|done]. apply place_on_x. }
  assert (forall i p, rev d !! i = Some p -> f_plotY p = flag_height step onData min max plotHeight (f_x p)) as Hheight.
  { intros i p Hi. apply (f_equal (fun l => l !! i)) in Hal'. unfold placed in Hal'.
    change (@List.map) with (fun A B => @fmap list _ A B) in Hal'. cbv beta in Hal'.
    rewrite !list_lookup_fmap, Hi in Hal'. cbn in Hal'.
    destruct (sorted !! i) as [q|] eqn:Eq; [|done]. cbn in Hal'. injection Hal' as Hxx _ _ Hyy _ _ _.
    rewrite Forall_forall in Hun'. destruct (Hun' q) as [_ Hq]; [by eapply list_elem_of_lookup_2|].
    rewrite Hyy, flag_on_height by done. f_equal.
    rewrite Hxx, on_axis_x. unfold flag_on. destruct (anchor _ _ _); [|done]. destruct (onData !! _); [|done].
    symmetry. apply place_on_x. }
  split_and!; [| |exact Hheight].
  - rewrite Hx. apply StronglySorted_Sorted. clear -Hss. induction Hss as [|p l _ IH Hp]; cbn; constructor; [done|].
    apply Forall_fmap. eapply Forall_impl; [exact Hp|]. done.
  - rewrite Hx. by rewrite Hperm.
Qed.

(** C20: When flags are placed for the first time on a series that has points: they end at
    the height of its line, interpolated between its points, or on the axis where there is
    no line, in the order of their times; the lowest flag of a place is drawn at its
    distance from this height, with a connector to it, the others at one time each by the
    distance of a stack above the one before, without a connector. *)
Theorem flags_stand min max plotHeight step onData points o measure width :
  onData <> [] -> Forall unplaced points ->
  exists l, translate min max plotHeight (length onData + length points) (Some (step, onData)) points = Some l /\
    Sorted Qle (f_x <$> l) /\ (f_x <$> l) ≡ₚ (f_x <$> points) /\
    (forall p, p ∈ l -> f_plotY p = flag_height step onData min max plotHeight (f_x p)) /\
    (forall i q y, l !! i = Some q -> f_plotY q = Some y ->
      (forall j p, S j = i -> l !! j = Some p -> ~ (f_plotX p == f_plotX q)%Q) ->
      exists a, f_graphic (draw_flag o measure width q) = Some a /\ fl_anchor a = Some (fl_x a, y) /\
        fl_x a = (f_plotX q + crispness o)%Q /\ (fl_y a == y + fo_y o + crispness o)%Q) /\
    forall i p q y, l !! i = Some p -> l !! S i = Some q -> f_x p = f_x q -> (f_plotX p == f_plotX q)%Q ->
      f_plotY p = Some y -> exists a b, f_graphic (draw_flag o measure width p) = Some a /\
        f_graphic (draw_flag o measure width q) = Some b /\ (fl_y b == fl_y a - fo_stackDistance o)%Q /\ fl_anchor b = None.
Proof.
  intros Hne Hun. destruct (first_translate min max plotHeight step onData points Hne Hun) as (d & Hd & Hcd & Hs & Hp0 & Hheight).
  exists (rev d). split; [exact Hd|]. split; [exact Hs|]. split; [exact Hp0|].
  assert (forall i, (i < length d)%nat -> rev d !! i = d !! (length d - S i)%nat) as Hrev.
  { intros i Hi. rewrite rev_alt. change (rev_append d []) with (reverse d). by rewrite reverse_lookup. }
  split_and!.
  - intros p [i Hi]%list_elem_of_lookup. by apply (Hheight i).
  - intros i q y Hq Hy Hfirst. apply drawn_lowest; [done|]. apply lookup_lt_Some in Hq as Hlt. rewrite length_rev in Hlt.
    rewrite Hrev in Hq by done. apply (counted_lowest d Hcd _ q Hq). intros p Hp.
    apply not_true_iff_false. intros He%Qeq_bool_iff. apply lookup_lt_Some in Hp as Hlt'.
    destruct i as [|i]; [lia|]. apply (Hfirst i p eq_refl); [|done]. rewrite Hrev by lia. rewrite <-Hp. f_equal. lia.
  - intros i p q y Hp Hq Hxx Hpx Hy.
    assert (f_stackIndex q = Some (S (default 0%nat (f_stackIndex p)))) as Hst.
    { apply lookup_lt_Some in Hq as Hlt. rewrite length_rev in Hlt. rewrite Hrev in Hp by lia. rewrite Hrev in Hq by lia.
      apply (counted_lookup d Hcd (length d - S (S i))%nat p q); [|done|by apply Qeq_bool_iff].
      rewrite <-Hp. f_equal. lia. }
    assert (f_plotY q = Some y) as Hyq by (by rewrite (Hheight (S i) q Hq), <-Hxx, <-(Hheight i p Hp)).
    unfold draw_flag. rewrite Hy, Hyq, Hst.
    destruct (measure _) as [w h]. destruct (measure _) as [w' h']. eexists _, _. split; [done|]. split; [done|].
    cbn [fl_y fl_anchor]. split; [|done]. rewrite Nat2Z.inj_succ. unfold Z.succ. rewrite inject_Z_plus.
    change (inject_Z 1) with 1%Q. destruct (f_stackIndex p) as [k|]; cbn [default from_option id];
      [set (n := inject_Z (Z.of_nat k))|change (inject_Z (Z.of_nat 0)) with 0%Q]; ring.
Qed.

(** ** Examples *)

Definition demo_line : list on_point := [OnPoint 0 (Some 100%Q); OnPoint 10 (Some 80%Q); OnPoint 20 (Some 40%Q)].
Definition demo_flag (x : Q) (i : option nat) : flag := Flag x None x None i None None false.
Definition demo_flag_options : flag_options := FlagOptions (-30) 7 1 None true.
Definition demo_box (_ : string) : Q * Q := (10%Q, 12%Q).

Lemma flags_stand_witness :
  demo_line <> [] /\ Forall unplaced [demo_flag 15 None; demo_flag 5 None; demo_flag 15 None] /\
  exists l, translate (Some 0%Q) (Some 20%Q) 200 6 (Some (false, demo_line)) [demo_flag 15 None; demo_flag 5 None; demo_flag 15 None]
            = Some l /\ Forall (fun p => f_plotY p = flag_height false demo_line (Some 0%Q) (Some 20%Q) 200 (f_x p)) l.
Proof.
  assert (demo_line <> []) as Hne by done.
  assert (Forall unplaced [demo_flag 15 None; demo_flag 5 None; demo_flag 15 None]) as Hu by (by repeat constructor).
  split; [done|]. split; [done|].
  destruct (flags_stand (Some 0%Q) (Some 20%Q) 200 false demo_line _ demo_flag_options demo_box (fun _ => 10%Q) Hne Hu)
    as (l & Hl & _ & _ & Hh & _ & _).
  exists l. split; [exact Hl|]. by apply Forall_forall.
Defined.

Example flags_drawn :
  (fun l => (fun p => ((fun y => Qred y) <$> f_plotY p, (fun g => (Qred (fl_y g), (fun a => (Qred a.1, Qred a.2)) <$> fl_anchor g)) <$> f_graphic p))
     <$> drawPoints demo_flag_options demo_box (fun _ => 10%Q) l) <$>
  translate (Some 0%Q) (Some 20%Q) 200 6 (Some (false, demo_line)) [demo_flag 15 None; demo_flag 5 None; demo_flag 15 None]
  = Some [(Some 90%Q, Some (121 # 2, Some (11 # 2, 90)))%Q;
          (Some 60%Q, Some (61 # 2, Some (31 # 2, 60)))%Q;
          (Some 60%Q, Some (47 # 2, None))%Q].
Proof. vm_compute. done. Qed.

(** The count of a flag is kept: when the lower flag of a stack is removed the upper one
    stays raised, without a connector. *)
Example flags_stay_raised :
  (fun l => (fun p => (f_stackIndex p, fl_anchor <$> f_graphic p))
     <$> drawPoints demo_flag_options demo_box (fun _ => 10%Q) l) <$>
  (translate (Some 0%Q) (Some 20%Q) 200 5 (Some (false, demo_line)) [demo_flag 15 None; demo_flag 15 None]
     ≫= fun l => translate (Some 0%Q) (Some 20%Q) 200 4 (Some (false, demo_line)) (drop 1 l))
  = Some [(Some 1%nat, Some None)].
Proof. vm_compute. done. Qed.

(** A selected bar or candle cannot be drawn: the state is called ['select']. *)
Definition demo_candle (selected : bool) : candle :=
  Candle (Some 4%Q) (Some 6%Q) 50 (Some 20%Q) 80 9 (Some 40%Q) (Some 60%Q) selected
    (Attribs (<["stroke-width"%string := VNum 1%float]> ∅) ∅ ∅) None.
Example selected_candle_throws :
  draw_candles candle_path [demo_candle true] = Throw TypeError /\
  draw_candles ohlc_path [demo_candle true] = Throw TypeError /\
  exists l, draw_candles candle_path [demo_candle false] = Ok l.
Proof. split; [done|]. split; [done|]. eexists. vm_compute. done. Qed.

(** Updating a point with four values leaves one of them in the data. *)
Example update_keeps_high :
  let d := DArray [CNum 1; CNum 5; CNum 9; CNum 3; CNum 6] in
  let ys := setData_y [0%Q] [d] in
  (ys, (updatePoint_y 0 0 (DArray [CNum 1; CNum 5; CNum 8; CNum 3; CNum 7]) (applyOptions 0 d no_price) ys).2)
  = ([Four (CNum 5) (CNum 9) (CNum 3) (CNum 6)], [One (CNum 8)]).
Proof. vm_compute. done. Qed.

(** A bar leaves out the value that is missing; a candle is drawn all the same, with
    coordinates that are no numbers. *)
Example no_opening_value :
  let p := Candle None (Some 6%Q) 50 (Some 20%Q) 80 9 None (Some 60%Q) false
             (Attribs (<["stroke-width"%string := VNum 1%float]> ∅) ∅ ∅) None in
  let broken l := existsb (fun t => match t with Undefined => true | _ => false end) l in
  (broken (ohlc_path (Some (1 # 2)%Q) 20 p), broken (candle_path (Some (1 # 2)%Q) 20 p)) = (false, true).
Proof. vm_compute. done. Qed.

(** Prices from 2 to 8 on an axis from 0 to 10, 100 pixels high. *)
Definition price_axis : axis_options :=
  AxisOptions false false false false false false None None None None None 0 0 None false None 72 true true true no_size.
Definition price_state : axis_state :=
  AxisState (Metrics 0 0 300 100 0 0 100) (Extremes None None false false false ∅)
    (Ranges (Some 0%Q) (Some 10%Q) None None None MRUndef) (Translation 0 None 0 0 0 None)
    (TickState 2 None None [] None) None [] None None.
Definition price_place (v : Q) : option Q :=
  HsScale.translate id id price_axis (with_translation (setAxisTranslation price_axis price_state) price_state)
    v false true false true.
Definition price_candle : candle :=
  Candle (Some 4%Q) (Some 6%Q) 50 (tenths <$> price_place 8) (default 0%Q (price_place 2)) 9 None None false
    (Attribs (<["stroke-width"%string := VNum 1%float]> ∅) ∅ ∅) None.

Lemma candle_between_wicks_witness :
  exists p' top bottom, draw_candle candle_path (translate_candle price_place price_candle) = Ok p' /\
    is_Some (cd_graphic p') /\ (top <= bottom)%Q.
Proof.
  assert (exists c, crispCorr (at_normal (cd_attr price_candle)) = Some c) as [c Hc] by (eexists; vm_compute; done).
  destruct (candle_between_wicks id id price_axis price_state 0 10 4 8 2 6 price_candle (at_normal (cd_attr price_candle)) 1%float c
              (default 0%Q (price_place 8)) (default 0%Q (price_place 2)))
    as (p' & top & bottom & H1 & H2 & _ & H3 & _); [..|by exists p', top, bottom].
  - split; try done; unfold Qle; cbn; lia.
  - done.
  - done.
  - unfold Qle; cbn; lia.
  - split; unfold Qle; cbn; lia.
  - split; unfold Qle; cbn; lia.
  - unfold Qle; cbn; lia.
  - done.
  - done.
  - vm_compute. done.
  - vm_compute. done.
  - vm_compute. done.
  - done.
  - done.
  - done.
  - done.
  - vm_compute. done.
  - exact Hc.
Defined.
