(* ===== verification/HsWrap.v ===== *)
(** * Charts: texts in lines

    [highstock.src.js]: [SVGRenderer.buildText], which turns the simple markup of labels
    and titles into pieces of text, breaks lines that are wider than allowed, and sets
    styles and links.

    What the browser measures are the widths of lines; a text is as wide as its widest
    line.  Characters are bytes. *)

From Stdlib Require Import QArith Qminmax Lqa Ascii String.
From stdpp Require Import list strings.
From S2P Require Import Prelude JsString HsAxis.
Local Open Scope list_scope.
Local Open Scope string_scope.
Local Open Scope Z_scope.

(** ** Replacing and splitting *)

(** [s.replace(/p1|p2|.../g, repl)] for literal texts; [skip] characters are part of the
    last match. *)
Fixpoint replace_any_go (pats : list string) (repl : string) (skip : nat) (s : string) : string :=
  match s with
  | EmptyString => ""
  | String c s' =>
      match skip with
      | S k => replace_any_go pats repl k s'
      | O => match List.find (fun p => String.prefix p s) pats with
             | Some p => repl ++ replace_any_go pats repl (String.length p - 1) s'
             | None => String c (replace_any_go pats repl 0 s')
             end
      end
  end.
Definition replace_any (pats : list string) (repl s : string) : string := replace_any_go pats repl 0 s.

(** The text up to the first [>], when no character before it is in [stops]. *)
Fixpoint to_bracket (stops : list ascii) (s : string) : option nat :=
  match s with
  | EmptyString => None
  | String c s' =>
      if Ascii.eqb c ">" then Some 1%nat
      else if bool_decide (c ∈ stops) then None
      else S <$> to_bracket stops s'
  end.
Definition newline : ascii := "010".
Definition return_ : ascii := "013".
(** [<br.*?>] and [<(.|\n)*?>] at the start of a text: their length. *)
Definition br_at (s : string) : option nat :=
  if String.prefix "<br" s then (fun n => n + 3)%nat <$> to_bracket [newline; return_] (str_drop 3 s) else None.
Definition tag_at (s : string) : option nat :=
  if String.prefix "<" s then S <$> to_bracket [return_] (str_drop 1 s) else None.

(** [s.split(pattern)] and [s.replace(pattern, '')] for a pattern of that length. *)
Fixpoint split_at (m : string -> option nat) (skip : nat) (s : string) : list string :=
  match s with
  | EmptyString => [""]
  | String c s' =>
      match skip with
      | S k => split_at m k s'
      | O => match m s with
             | Some (S n) => "" :: split_at m n s'
             | _ => match split_at m 0 s' with
                    | l :: ls => String c l :: ls
                    | [] => [String c ""]
                    end
             end
      end
  end.
Fixpoint remove_at (m : string -> option nat) (skip : nat) (s : string) : string :=
  match s with
  | EmptyString => ""
  | String c s' =>
      match skip with
      | S k => remove_at m k s'
      | O => match m s with Some (S n) => remove_at m n s' | _ => String c (remove_at m 0 s') end
      end
  end.
Definition bars_at (s : string) : option nat := if String.prefix "|||" s then Some 3%nat else None.

Definition dq : ascii := "034".
(** The value of an attribute: the first quoted text after its name that is not empty. *)
Fixpoint quoted (s : string) : option string :=
  match s with
  | EmptyString => None
  | String c s' => if Ascii.eqb c dq then Some "" else String c <$> quoted s'
  end.
Fixpoint attribute (name s : string) : option string :=
  match (if String.prefix (name ++ "=" ++ String dq "") s then quoted (str_drop (String.length name + 2) s) else None) with
  | Some (String _ _ as v) => Some v
  | _ => match s with String _ s' => attribute name s' | EmptyString => None end
  end.

(** [replace(/(;| |^)color([ :])/, '$1fill$2')] *)
Definition color_at (s : string) : option string :=
  if String.prefix "color " s || String.prefix "color:" s then Some ("fill" ++ str_drop 5 s) else None.
Fixpoint color_after (s : string) : string :=
  match s with
  | EmptyString => ""
  | String c s' =>
      match (if Ascii.eqb c ";" || Ascii.eqb c " " then color_at s' else None) with
      | Some t => String c t
      | None => String c (color_after s')
      end
  end.
Definition fill_style (s : string) : string :=
  match s with
  | String c s' =>
      match (if Ascii.eqb c ";" || Ascii.eqb c " " then color_at s' else None), color_at s with
      | Some t, _ => String c t
      | None, Some t => t
      | None, None => color_after s
      end
  | EmptyString => ""
  end.

(** ** Pieces of text *)

Record tspan := Tspan {
  ts_text : string;
  ts_style : option string; ts_href : option string;
  ts_start : bool;                 (* x: it starts a line; otherwise dx *)
  ts_dy : option Q
}.
Definition with_text t (n : tspan) : tspan := Tspan t (ts_style n) (ts_href n) (ts_start n) (ts_dy n).

(** The lines of a text. *)
Fixpoint lines_of (nodes : list tspan) : list (list tspan) :=
  match nodes with
  | [] => []
  | n :: nodes =>
      match lines_of nodes, nodes with
      | l :: ls, m :: _ => if ts_start m then [n] :: l :: ls else (n :: l) :: ls
      | _, _ => [[n]]
      end
  end.

Section wrap.
(** The width of a line, [lineHeight] of the style, and the line height of the n-th line. *)
Context (line_width : list tspan -> Q) (textLineHeight : Q) (line_height : nat -> Q).

Definition measure (nodes : list tspan) : Q := fold_right Qmax 0%Q (List.map line_width (lines_of nodes)).

(** [span.replace(/-/g, '- ').split(' ')] and back. *)
Definition words_of (s : string) : list string := split_on " " (replace_any ["-"] "- " s).
Definition line_text (words : list string) : string := replace_any ["- "] "-" (join " " words).

Definition new_line (words : list string) : tspan :=
  Tspan (line_text words) None None true (Some textLineHeight).
Definition set_last (words : list string) (nodes : list tspan) : list tspan :=
  match last nodes with
  | Some n => (removelast nodes ++ [with_text (line_text words) n])%list
  | None => nodes
  end.

(** The loop over the words of a piece; [None] when the fuel does not do. *)
Fixpoint wrap_loop (fuel : nat) (width : Q) (nodes : list tspan) (words rest : list string)
    : option (Q * list tspan) :=
  match fuel with
  | O => None
  | S fuel =>
      match words, rest with
      | [], [] => Some (width, nodes)
      | _, _ =>
          let actualWidth := measure nodes in
          let tooLong := Qlt_b width actualWidth in
          if negb tooLong || (length words =? 1)%nat then
            match rest with
            | [] => wrap_loop fuel width nodes [] []
            | _ =>
                wrap_loop fuel (if tooLong then actualWidth else width) (nodes ++ [new_line rest])%list rest []
            end
          else
            let rest := match last words with Some w => w :: rest | None => rest end in
            let words := removelast words in
            wrap_loop fuel width (set_last words nodes) words rest
      end
  end.
Definition wrap_fuel (words : list string) : nat := S (length words * length words + length words).

(** A piece of a line; [spanNo] pieces of the line were drawn before. *)
Definition build_span (lineNo spanNo : nat) (span : string) (st : option Q * list tspan)
    : option (option Q * list tspan) :=
  let style := fill_style <$> attribute "style" span in
  let href := attribute "href" span in
  let text := remove_at tag_at 0 span in
  let text := if String.eqb text "" then " " else text in
  let text := replace_any ["&gt;"] ">" (replace_any ["&lt;"] "<" text) in
  let first := (spanNo =? 0)%nat in
  let n := Tspan text style href first
             (if first && negb (lineNo =? 0)%nat then Some (line_height lineNo) else None) in
  let nodes := (st.2 ++ [n])%list in
  match st.1 with
  | Some width =>
      if Qeq_bool width 0 then Some (st.1, nodes)
      else
        '(width, nodes) ← wrap_loop (wrap_fuel (words_of text)) width nodes (words_of text) [];
        Some (Some width, nodes)
  | None => Some (None, nodes)
  end.

Fixpoint build_spans (lineNo spanNo : nat) (single : bool) (spans : list string) (st : option Q * list tspan)
    : option (option Q * list tspan) :=
  match spans with
  | [] => Some st
  | span :: spans =>
      if negb (String.eqb span "") || single then
        st ← build_span lineNo spanNo span st; build_spans lineNo (S spanNo) single spans st
      else build_spans lineNo spanNo single spans st
  end.

Definition spans_of (line : string) : list string :=
  split_at bars_at 0 (replace_any ["</span>"] "</span>|||" (replace_any ["<span"] "|||<span" line)).
Fixpoint build_lines (lineNo : nat) (lines : list string) (st : option Q * list tspan)
    : option (option Q * list tspan) :=
  match lines with
  | [] => Some st
  | line :: lines =>
      let spans := spans_of line in
      st ← build_spans lineNo 0 (length spans =? 1)%nat spans st;
      build_lines (S lineNo) lines st
  end.

Definition style_span (style : string) : string := "<span style=" ++ String dq style ++ String dq ">".
Definition text_lines (s : string) : list string :=
  let s := replace_any ["<b>"; "<strong>"] (style_span "font-weight:bold") s in
  let s := replace_any ["<i>"; "<em>"] (style_span "font-style:italic") s in
  let s := replace_any ["<a"] "<span" s in
  let s := replace_any ["</b>"; "</strong>"; "</i>"; "</em>"; "</a>"] "</span>" s in
  let l := split_at br_at 0 s in
  if bool_decide (last l = Some "") then removelast l else l.

(** [buildText]: the pieces for a text, no wider than [width] where there is one. *)
Definition buildText (width : option Q) (s : string) : option (list tspan) :=
  snd <$> build_lines 0 (text_lines s) (width, []).
End wrap.

(** ** Texts without markup *)

Definition opens (c : ascii) (p : string) : bool := match p with String d _ => Ascii.eqb c d | EmptyString => false end.
Lemma replace_any_lacks pats repl c s : forallb (opens c) pats = true -> lacks c s = true ->
  replace_any pats repl s = s.
Proof.
  intros Hp. unfold replace_any. induction s as [|d s IH]; [done|]. cbn [lacks].
  rewrite andb_true_iff, negb_true_iff. intros [Hd Hs]. cbn [replace_any_go].
  assert (List.find (fun p => String.prefix p (String d s)) pats = None) as ->; [|by rewrite IH].
  clear -Hp Hd. induction pats as [|p pats IH]; [done|]. cbn [forallb] in Hp. apply andb_true_iff in Hp as [H1 H2].
  destruct p as [|e p]; [done|]. apply Ascii.eqb_eq in H1 as <-. cbn [List.find String.prefix].
  destruct (ascii_dec c d) as [->|_]; [by rewrite Ascii.eqb_refl in Hd|by apply IH].
Qed.

(** What matches begins with [c]. *)
Definition begins (c : ascii) (m : string -> option nat) : Prop :=
  forall s n, m s = Some n -> exists s', s = String c s'.

Lemma split_at_lacks m c s : begins c m -> lacks c s = true -> split_at m 0 s = [s].
Proof.
  intros Hm. induction s as [|d s IH]; [done|]. cbn [lacks].
  rewrite andb_true_iff, negb_true_iff. intros [Hd Hs]. cbn [split_at]. rewrite IH by done.
  destruct (m (String d s)) as [n|] eqn:E; [|done].
  destruct (Hm _ _ E) as [s' [= -> _]]. by rewrite Ascii.eqb_refl in Hd.
Qed.
Lemma remove_at_lacks m c s : begins c m -> lacks c s = true -> remove_at m 0 s = s.
Proof.
  intros Hm. induction s as [|d s IH]; [done|]. cbn [lacks].
  rewrite andb_true_iff, negb_true_iff. intros [Hd Hs]. cbn [remove_at]. rewrite IH by done.
  destruct (m (String d s)) as [n|] eqn:E; [|done].
  destruct (Hm _ _ E) as [s' [= -> _]]. by rewrite Ascii.eqb_refl in Hd.
Qed.

Lemma prefix_begins c p s : String.prefix (String c p) s = true -> exists s', s = String c s'.
Proof. destruct s as [|d s]; cbn; [done|]. destruct (ascii_dec c d) as [->|]; [by eexists|done]. Qed.
Lemma br_begins : begins "<" br_at.
Proof. intros s n. unfold br_at. destruct (String.prefix "<br" s) eqn:E; [|done]. intros _. by eapply prefix_begins. Qed.
Lemma tag_begins : begins "<" tag_at.
Proof. intros s n. unfold tag_at. destruct (String.prefix "<" s) eqn:E; [|done]. intros _. by eapply prefix_begins. Qed.
Lemma bars_begins : begins "|" bars_at.
Proof. intros s n. unfold bars_at. destruct (String.prefix "|||" s) eqn:E; [|done]. intros _. by eapply prefix_begins. Qed.

(** Putting the words together again gives the text. *)
Lemma join_split sep s : join (String sep "") (split_on sep s) = s.
Proof.
  induction s as [|c s IH]; [done|]. cbn [split_on]. pose proof (split_on_ne sep s) as Hne.
  destruct (Ascii.eqb c sep) eqn:E.
  - apply Ascii.eqb_eq in E as ->. destruct (split_on sep s) as [|w ws] eqn:Es; [done|].
    change (join (String sep "") ("" :: w :: ws)) with ("" ++ String sep "" ++ join (String sep "") (w :: ws)).
    by rewrite IH.
  - destruct (split_on sep s) as [|w [|v ws]]; [done|cbn in *; by rewrite IH|].
    change (String c (join (String sep "") (w :: v :: ws)) = String c s). by rewrite IH.
Qed.

Lemma prefix_char d c s : String.prefix (String d "") (String c s) = Ascii.eqb d c.
Proof.
  cbn [String.prefix]. destruct (ascii_dec d c) as [<-|Hne].
  - rewrite Ascii.eqb_refl. by destruct s.
  - symmetry. by apply Ascii.eqb_neq.
Qed.
Lemma prefix_two d e c s : String.prefix (String d (String e "")) (String c s)
  = Ascii.eqb d c && String.prefix (String e "") s.
Proof.
  cbn [String.prefix]. destruct (ascii_dec d c) as [<-|Hne].
  - by rewrite Ascii.eqb_refl.
  - by rewrite (proj2 (Ascii.eqb_neq _ _) Hne).
Qed.

Lemma dashes_back s : replace_any ["- "] "-" (replace_any ["-"] "- " s) = s.
Proof.
  unfold replace_any. induction s as [|c s IH]; [done|]. cbn [replace_any_go List.find]. rewrite prefix_char.
  destruct (Ascii.eqb "-" c) eqn:E.
  - apply Ascii.eqb_eq in E as <-. cbn [String.length Nat.sub].
    change ("- " ++ ?x) with (String "-" (String " " x)). cbn [replace_any_go List.find].
    assert (forall x, String.prefix "- " (String "-" (String " " x)) = true) as ->
      by (intros x; by rewrite prefix_two, prefix_char).
    cbn [String.length Nat.sub replace_any_go]. by rewrite IH.
  - cbn [replace_any_go List.find]. assert (forall x, String.prefix "- " (String c x) = false) as ->.
    { intros x. by rewrite prefix_two, E. }
    by rewrite IH.
Qed.

Lemma line_text_words s : line_text (words_of s) = s.
Proof. unfold line_text, words_of. by rewrite join_split, dashes_back. Qed.

(** ** Lines that are broken *)

Section wrapped.
Context (line_width : list tspan -> Q) (textLineHeight : Q) (line_height : nat -> Q).
Local Notation measure := (measure line_width).
Local Notation new_line := (new_line textLineHeight).
Local Notation wrap_loop := (wrap_loop line_width textLineHeight).

Lemma lines_of_ne nodes : nodes <> [] -> lines_of nodes <> [].
Proof. destruct nodes as [|n nodes]; [done|]. cbn. destruct (lines_of nodes), nodes as [|m nodes]; try done. by destruct (ts_start m). Qed.

Lemma lines_of_snoc nodes n : ts_start n = true -> lines_of (nodes ++ [n]) = (lines_of nodes ++ [[n]])%list.
Proof.
  intros Hn. induction nodes as [|m nodes IH]; [done|]. cbn [app lines_of]. rewrite IH.
  destruct nodes as [|k nodes].
  - cbn. by rewrite Hn.
  - pose proof (lines_of_ne (k :: nodes)) as Hne. destruct (lines_of (k :: nodes)) as [|l ls]; [by destruct Hne|].
    cbn [app]. by destruct (ts_start k).
Qed.

Lemma fold_Qmax_le l w : (fold_right Qmax 0 l <= w <-> 0 <= w /\ Forall (fun x => x <= w) l)%Q.
Proof.
  induction l as [|x l IH]; cbn [fold_right].
  - split; [intros H; split; [done|constructor]|by intros []].
  - rewrite Q.max_lub_iff, IH, Forall_cons. tauto.
Qed.

Lemma measure_snoc nodes n w : ts_start n = true ->
  (measure (nodes ++ [n]) <= w <-> measure nodes <= w /\ line_width [n] <= w)%Q.
Proof.
  intros Hn. unfold HsWrap.measure. rewrite lines_of_snoc by done. rewrite List.map_app, !fold_Qmax_le, Forall_app.
  cbn [List.map]. rewrite Forall_cons. split; [intros (H & H1 & H2 & _); tauto|].
  intros ([H H1] & H2). split_and!; try done.
Qed.

(** How wide a line of some words is. *)
Definition width_of (n : tspan) (words : list string) : Q := line_width [with_text (line_text words) n].

(** A line that is too wide has a single word. *)
Definition held (w : Q) (n : tspan) (words : list string) : Prop :=
  (width_of n words <= w)%Q \/ length words = 1%nat.
(** With the next word a line would have been too wide. *)
Fixpoint tight (w : Q) (n : tspan) (words : list string) (lines : list (list string)) : Prop :=
  match lines with
  | [] => True
  | next :: lines =>
      match next with v :: _ => (w < width_of n (words ++ [v])%list)%Q | [] => True end /\
      tight w (new_line []) next lines
  end.
(** The width that is allowed in the end is the one there was, or that of a single word. *)
Definition pressed (w w' : Q) (n : tspan) (words : list string) (lines : list (list string)) : Prop :=
  (w' == w)%Q \/ (length words = 1%nat /\ (w' <= width_of n words)%Q) \/
  exists l, l ∈ lines /\ length l = 1%nat /\ (w' <= width_of (new_line []) l)%Q.

Lemma with_text_same n : with_text (ts_text n) n = n.
Proof. by destruct n. Qed.
Lemma set_last_snoc words nodes n :
  set_last words (nodes ++ [n]) = (nodes ++ [with_text (line_text words) n])%list.
Proof. unfold set_last. by rewrite last_snoc, removelast_last. Qed.

Lemma wrap_loop_spec w0 : forall fuel width nodes n words rest,
  words <> [] -> ts_text n = line_text words -> ts_start n = true ->
  (let t := length words + length rest in t * t + length words < fuel)%nat ->
  (w0 <= width)%Q -> (measure nodes <= width)%Q ->
  match rest with v :: _ => (w0 < width_of n (words ++ [v])%list)%Q | [] => True end ->
  exists w' first lines,
    wrap_loop fuel width (nodes ++ [n])%list words rest
    = Some (w', (nodes ++ with_text (line_text first) n :: List.map new_line lines)%list) /\
    (first ++ List.concat lines = words ++ rest)%list /\ first <> [] /\ Forall (fun l => l <> []) lines /\
    (width <= w')%Q /\ held w' n first /\ Forall (held w' (new_line [])) lines /\
    pressed width w' n first lines /\ tight w0 n first lines.
Proof.
  induction fuel as [|fuel IH]; intros width nodes n words rest Hw Ht Hs Hf Hlo Hm He; cbn zeta in Hf; [lia|].
  assert (with_text (line_text words) n = n) as Hsame by (rewrite <-Ht; apply with_text_same).
  assert (width_of n words = line_width [n]) as Hwn by (unfold width_of; by rewrite Hsame).
  assert (wrap_loop (S fuel) width (nodes ++ [n])%list words rest =
    (let actualWidth := measure (nodes ++ [n]) in
     let tooLong := Qlt_b width actualWidth in
     if negb tooLong || (length words =? 1)%nat then
       match rest with
       | [] => wrap_loop fuel width (nodes ++ [n])%list [] []
       | _ => wrap_loop fuel (if tooLong then actualWidth else width) ((nodes ++ [n]) ++ [new_line rest])%list rest []
       end
     else
       let rest := match last words with Some w => w :: rest | None => rest end in
       let words := removelast words in
       wrap_loop fuel width (set_last words (nodes ++ [n])) words rest)) as -> by (by destruct words).
  cbn zeta. set (actual := measure (nodes ++ [n])).
  assert (forall w, (actual <= w <-> measure nodes <= w /\ line_width [n] <= w)%Q) as Hact by (intros; by apply measure_snoc).
  destruct (negb (Qlt_b width actual) || (length words =? 1)%nat) eqn:E.
  - assert (held width n words) as Hheld.
    { apply orb_true_iff in E as [E|E]; [left; rewrite Hwn; apply Hact; apply negb_true_iff, Qlt_b_false in E; done|].
      right. by apply Nat.eqb_eq. }
    destruct rest as [|r rest].
    + destruct fuel as [|fuel]; [destruct words; [done|cbn in Hf; lia]|]. cbn [HsWrap.wrap_loop].
      exists width, words, []. rewrite Hsame. split; [done|]. cbn. rewrite app_nil_r.
      split_and!; try done; try apply Qle_refl. by left.
    + set (width' := if Qlt_b width actual then actual else width).
      assert (width <= width')%Q as Hww by (unfold width'; destruct (Qlt_b width actual) eqn:El; [apply Qlt_b_spec in El; lra|lra]).
      assert (measure (nodes ++ [n]) <= width')%Q as Hm'.
      { unfold width'. destruct (Qlt_b width actual) eqn:El; [apply Qle_refl|by apply Qlt_b_false in El]. }
      destruct (IH width' (nodes ++ [n])%list (new_line (r :: rest)) (r :: rest) []) as
        (w' & first & lines & Hl & Hc & Hne & Hfne & Hge & Hhf & Hhl & Hp & Htg); try done.
      { cbn zeta. set (a := length words) in *. assert (a <> 0)%nat by (by destruct words).
        set (b := length (r :: rest)) in *. cbn [length]. rewrite Nat.add_0_r. nia. }
      { lra. }
      exists w', words, (first :: lines). rewrite Hl. split.
      { f_equal. f_equal. rewrite <-app_assoc. cbn [app List.map]. by rewrite Hsame. }
      cbn [List.concat]. rewrite Hc, app_nil_r. split; [done|]. split; [done|]. split; [by constructor|].
      split; [lra|]. split; [destruct Hheld; [left; lra|by right]|]. split; [by constructor|].
      split; [|split; [|destruct lines; exact Htg]].
      * destruct Hp as [Hp|[[H1 H2]|(l & H1 & H2 & H3)]].
        -- unfold width' in Hp. destruct (Qlt_b width actual) eqn:El; [|by left].
           right; left. assert (length words = 1%nat) as H1 by (rewrite orb_false_l in E; by apply Nat.eqb_eq).
           split; [done|]. rewrite Hwn, Hp. apply Qlt_b_spec in El. destruct (Qlt_le_dec (line_width [n]) actual) as [Hlt|]; [|done].
           assert (actual <= Qmax width (line_width [n]))%Q as Hle
             by (apply Hact; split; [pose proof (Q.le_max_l width (line_width [n])); lra|apply Q.le_max_r]).
           destruct (Q.max_spec width (line_width [n])) as [[_ Hx]|[_ Hx]]; rewrite Hx in Hle; lra.
        -- right; right. exists first. split; [by left|]. split; [done|]. done.
        -- right; right. exists l. split; [by right|done].
      * destruct first as [|v first]; [done|]. injection Hc as -> _. done.
  - apply orb_false_iff in E as [El E1]. apply negb_false_iff, Qlt_b_spec in El. apply Nat.eqb_neq in E1.
    destruct (exists_last Hw) as (ws & w & ->). rewrite length_app in Hf, E1. cbn [length] in Hf, E1.
    rewrite last_snoc, removelast_last, set_last_snoc.
    assert (ws <> []) as Hws by (intros ->; cbn in E1; lia).
    assert (width < line_width [n])%Q as Hwide.
    { destruct (Qlt_le_dec width (line_width [n])); [done|]. assert (actual <= width)%Q by (by apply Hact). lra. }
    destruct (IH width nodes (with_text (line_text ws) n) ws (w :: rest)) as
      (w' & first & lines & Hl & Hc & Hne & Hfne & Hge & Hhf & Hhl & Hp & Htg); try done.
    { cbn zeta. cbn [length]. replace (length ws + S (length rest))%nat with (length ws + 1 + length rest)%nat by lia. lia. }
    { change (width_of (with_text (line_text ws) n) (ws ++ [w])%list) with (width_of n (ws ++ [w])%list). rewrite Hwn. lra. }
    exists w', first, lines. rewrite Hl. split; [done|]. rewrite Hc, <-app_assoc.
    split; [done|]. split; [done|]. split; [done|]. split; [done|]. split; [exact Hhf|]. split; [done|].
    split; [exact Hp|]. destruct lines; exact Htg.
Qed.
End wrapped.

(** C21: A text without markup is broken into lines of its words in their order, which
    together are the text; no line with more than one word is wider than the width allowed
    in the end, which is the width given or, if that is wider, that of a line of a single
    word; and no line is broken before the next word would have made it too wide. *)
Theorem text_wrapped line_width textLineHeight line_height width s :
  (0 < width)%Q -> s <> "" -> lacks "<" s = true -> lacks "&" s = true -> lacks "|" s = true ->
  exists w' n first lines,
    buildText line_width textLineHeight line_height (Some width) s
    = Some (with_text (line_text first) n :: List.map (new_line textLineHeight) lines) /\
    (first ++ List.concat lines)%list = words_of s /\ line_text (words_of s) = s /\
    Forall (fun l => l <> []) (first :: lines) /\ (width <= w')%Q /\
    held line_width w' n first /\ Forall (held line_width w' (new_line textLineHeight [])) lines /\
    pressed line_width textLineHeight width w' n first lines /\
    tight line_width textLineHeight width n first lines.
Proof.
  intros Hw Hs Hlt Hamp Hbar.
  assert (text_lines s = [s]) as HL.
  { unfold text_lines. rewrite !(replace_any_lacks _ _ "<" s) by done.
    rewrite (split_at_lacks br_at "<") by (done || apply br_begins). case_bool_decide as H; [|done]. by injection H as ->. }
  unfold buildText. rewrite HL. cbn [build_lines].
  assert (spans_of s = [s]) as HS.
  { unfold spans_of. rewrite !(replace_any_lacks _ _ "<" s) by done.
    apply (split_at_lacks _ "|"); [apply bars_begins|done]. }
  rewrite HS. cbn [length Nat.eqb build_spans]. rewrite orb_true_r. unfold build_span.
  rewrite (remove_at_lacks _ "<" s tag_begins Hlt).
  assert (String.eqb s "" = false) as -> by (by apply String.eqb_neq).
  rewrite !(replace_any_lacks _ _ "&" s) by done.
  cbn [Nat.eqb negb andb fst snd app]. set (n := Tspan s _ _ _ _).
  assert (Qeq_bool width 0 = false) as ->.
  { apply not_true_iff_false. intros H%Qeq_bool_iff. lra. }
  destruct (wrap_loop_spec line_width textLineHeight width (wrap_fuel (words_of s)) width [] n (words_of s) [])
    as (w' & first & lines & Hl & Hcat & Hne & Hfne & Hge & Hhf & Hhl & Hp & Htg); try done.
  { apply split_on_ne. }
  { symmetry. apply line_text_words. }
  { cbn zeta. unfold wrap_fuel. cbn [length]. rewrite Nat.add_0_r. lia. }
  { apply Qle_refl. }
  { cbn. lra. }
  cbn [app] in Hl. rewrite Hl. cbn. exists w', n, first, lines. rewrite app_nil_r in Hcat.
  split; [done|]. split; [done|]. split; [apply line_text_words|]. split; [by constructor|]. done.
Qed.

(** ** Examples *)

Definition demo_width (l : list tspan) : Q :=
  inject_Z (Z.of_nat (foldr (fun n a => String.length (ts_text n) + a)%nat 0%nat l)).
Definition demo_texts (width : option Q) (s : string) : list string :=
  ts_text <$> default [] (buildText demo_width 16 (fun _ => 14%Q) width s).

Lemma text_wrapped_witness :
  (0 < 10)%Q /\ exists l, buildText demo_width 16 (fun _ => 14%Q) (Some 10%Q) "the quick fox-like jump" = Some l /\ (1 <= length l)%nat.
Proof.
  split; [done|].
  destruct (text_wrapped demo_width 16 (fun _ => 14%Q) 10 "the quick fox-like jump") as (w' & n & first & lines & H & _);
    [done|done|reflexivity|reflexivity|reflexivity|].
  eexists. split; [exact H|]. cbn. lia.
Defined.

Example lines_of_words : demo_texts (Some 10%Q) "the quick fox-like jump" = ["the quick"; "fox-like"; "jump"].
Proof. vm_compute. done. Qed.
Example markup_read :
  default [] (buildText demo_width 16 (fun _ => 14%Q) None "<b>a</b> &lt; b<br/><a>c</a>")
  = [Tspan "a" (Some "font-weight:bold") None true None; Tspan " < b" None None false None;
     Tspan "c" None None true (Some 14%Q)].
Proof. vm_compute. done. Qed.

(** After a line of one word that is too wide, the next is broken after its first word
    although it has room. *)
Example broken_too_early :
  demo_texts (Some 6%Q) "averylongword<br/>a b c" = ["averylongword"; "a"; "b c"] /\
  demo_texts (Some 6%Q) "shorter<br/>a b c" = ["shorter"; "a"; "b c"] /\
  demo_texts (Some 6%Q) "short<br/>a b c" = ["short"; "a b c"].
Proof. vm_compute. done. Qed.

(** A single word with markup of its own never goes to a new line. *)
Example bold_word_stays :
  demo_texts (Some 10%Q) "the quick <b>brown</b>" = ["the quick "; "brown"] /\
  demo_texts (Some 10%Q) "the quick brown" = ["the quick"; "brown"].
Proof. vm_compute. done. Qed.
