(* ===== verification/HsSlices.v ===== *)
(** * Charts: columns and slices

    [highstock.src.js]: the elements that show columns and feel the mouse
    ([ColumnSeries.drawPoints], [drawTracker], [animate]), those of scattered points, and
    the slices of a pie: [PiePoint.setVisible] and [slice], [PieSeries.drawPoints] and
    [drawDataLabels] with the connectors of its labels.

    An element is what it shows and where; the elements of a slice are its group, shadow,
    tracker, label and connector.  [cos (asin t)] is an argument. *)

From stdpp Require Import gmap strings sorting.
From Stdlib Require Import QArith Qabs Qminmax.
From S2P Require Import Prelude JsString HsAxis HsScale HsLegend HsPoints HsPath.
Local Open Scope list_scope.
Local Open Scope Z_scope.

(** ** Columns *)

Record column := Column {
  co_y : option Q; co_plotY : option Q; co_shape : rect; co_tracker_shape : option rect;
  co_graphic : option rect; co_tracker : option (rect * bool)     (* its place; is it shown *)
}.
Definition placed (c : column) : bool := bool_decide (is_Some (co_plotY c)).

(** [drawPoints]: columns with a value are drawn or moved. *)
Definition draw_column (c : column) : column :=
  if placed c && bool_decide (is_Some (co_y c))
  then Column (co_y c) (co_plotY c) (co_shape c) (co_tracker_shape c) (Some (co_shape c)) (co_tracker c)
  else c.
(** [drawTracker]; [visible] of the series. *)
Definition track_column (isCartesian visible : bool) (c : column) : column :=
  let shape := default (co_shape c) (co_tracker_shape c) in
  if bool_decide (is_Some (co_y c)) && (negb isCartesian || placed c)
  then Column (co_y c) (co_plotY c) (co_shape c) (co_tracker_shape c) (co_graphic c)
         (Some (shape, match co_tracker c with Some (_, v) => v | None => visible end))
  else c.
(** [animate]: columns grow from the threshold, or from the lower end of the axis. *)
Definition grow (threshold_place min_place : option Q) (c : column) : column :=
  match co_graphic c with
  | Some g => Column (co_y c) (co_plotY c) (co_shape c) (co_tracker_shape c)
                (Some (Rect (x_ g) (default 0%Q (option_union threshold_place min_place)) (w_ g) 0)) (co_tracker c)
  | None => c
  end.
Definition grown (c : column) : column :=
  match co_graphic c with
  | Some g => Column (co_y c) (co_plotY c) (co_shape c) (co_tracker_shape c)
                (Some (Rect (x_ g) (y_ (co_shape c)) (w_ g) (h_ (co_shape c)))) (co_tracker c)
  | None => c
  end.

(** Scattered points feel the mouse within [snap]. *)
Definition scatter_shape (snap plotX plotY : Q) : Q * Q * Q := (plotX, plotY, snap).

(** ** Slices *)

Record arc := Arc { a_x : Q; a_y : Q; a_r : Q; a_innerR : Q; a_start : Q; a_end : Q }.
Notation pos2 := (Q * Q)%type.
Record connector := Connector { cn_shown : bool; cn_origin : pos2; cn_path : list token }.
Record slice := Slice {
  s_visible : bool; s_sliced : bool;
  s_out : pos2;                              (* slicedTranslation *)
  s_shape : arc;
  s_group : option (bool * pos2);            (* shown, and where *)
  s_shadow : option (bool * pos2);
  s_graphic : option arc;
  s_tracker : option bool;
  s_label : option (bool * pos2);
  s_connector : option connector
}.

(** [away] is where a label of the base method goes: slices have no [plotX]; the origin of
    an operation is [chart.plotLeft] and [plotTop]. *)
Section pie.
Context (shadow tracking : bool) (away : pos2).

Definition show {A} (v : bool) (e : option (bool * A)) : option (bool * A) := (fun x => (v, x.2)) <$> e.
Definition show_connector (v : bool) (c : connector) : connector := Connector v (cn_origin c) (cn_path c).

(** [setVisible(vis)]; before the first drawing there is no group. *)
Definition setVisible (vis : option bool) (s : slice) : res slice :=
  let v := default (negb (s_visible s)) vis in
  match s_group s with
  | None => Throw TypeError
  | Some _ =>
      Ok (Slice v (s_sliced s) (s_out s) (s_shape s) (show v (s_group s)) (show v (s_shadow s)) (s_graphic s)
            ((fun _ => v) <$> s_tracker s) (show v (s_label s)) (show_connector v <$> s_connector s))
  end.

(** [slice(sliced)], which a slice does when it is selected or unselected. *)
Definition slice_place (origin : pos2) (s : slice) : pos2 := if s_sliced s then s_out s else origin.
Definition slice_ (sliced : option bool) (origin : pos2) (s : slice) : res slice :=
  let s := Slice (s_visible s) (default (negb (s_sliced s)) sliced) (s_out s) (s_shape s) (s_group s) (s_shadow s)
             (s_graphic s) (s_tracker s) (s_label s) (s_connector s) in
  match s_group s with
  | None => Throw TypeError
  | Some (v, _) =>
      let to := slice_place origin s in
      Ok (Slice (s_visible s) (s_sliced s) (s_out s) (s_shape s) (Some (v, to))
            ((fun e => (e.1, to)) <$> s_shadow s) (s_graphic s) (s_tracker s) (s_label s) (s_connector s))
  end.

(** [drawPoints], one slice. *)
Definition draw_slice (origin : pos2) (s : slice) : res slice :=
  let to := slice_place origin s in
  let move e := Some (match e with Some (v, _) => v | None => true end, to) in
  let s := Slice (s_visible s) (s_sliced s) (s_out s) (s_shape s) (move (s_group s))
             (if shadow then move (s_shadow s) else match s_shadow s with Some _ => move (s_shadow s) | None => None end)
             (Some (s_shape s)) (s_tracker s) (s_label s) (s_connector s) in
  if s_visible s then Ok s else setVisible (Some false) s.

(** [drawTracker] of columns; [value] has a slice unless it is [null], [visible] is that
    of the series. *)
Definition track_slice (visible value : bool) (s : slice) : slice :=
  if tracking && value then
    Slice (s_visible s) (s_sliced s) (s_out s) (s_shape s) (s_group s) (s_shadow s) (s_graphic s)
      (Some (default visible (s_tracker s))) (s_label s) (s_connector s)
  else s.

(** Where [drawDataLabels] puts a label and the path of its connector; none for a slice
    whose label was left out. *)
Record label_place := LabelPlace { lp_at : pos2; lp_path : option (list token) }.
Definition place_label (origin : pos2) (to : option label_place) (s : slice) : slice :=
  match s_label s, to with
  | Some _, Some to =>
      Slice (s_visible s) (s_sliced s) (s_out s) (s_shape s) (s_group s) (s_shadow s) (s_graphic s) (s_tracker s)
        (Some (s_visible s, lp_at to))
        (match lp_path to with
         | Some p => Some (Connector (s_visible s) (match s_connector s with Some c => cn_origin c | None => origin end) p)
         | None => s_connector s
         end)
  | _, _ => s
  end.
(** The labels of the base method: made for slices with a text. *)
Definition base_label (enabled text : bool) (s : slice) : slice :=
  let set l := Slice (s_visible s) (s_sliced s) (s_out s) (s_shape s) (s_group s) (s_shadow s) (s_graphic s)
                 (s_tracker s) l (s_connector s) in
  if enabled then
    match s_label s with
    | Some (v, _) => set (Some (v, away))
    | None => if text then set (Some (true, away)) else s
    end
  else s.

(** What a new translation, the options and the labels' layout give a slice. *)
Record drawing := Drawing {
  dr_out : pos2; dr_shape : arc; dr_value : bool; dr_enabled : bool; dr_text : bool; dr_label : option label_place
}.
Definition redraw_slice (labels : bool) (origin : pos2) (d : drawing) (s : slice) : res slice :=
  let s := Slice (s_visible s) (s_sliced s) (dr_out d) (dr_shape d) (s_group s) (s_shadow s) (s_graphic s)
             (s_tracker s) (s_label s) (s_connector s) in
  s ← draw_slice origin s;
  let s := track_slice true (dr_value d) s in
  Ok (if labels then place_label origin (dr_label d) (base_label (dr_enabled d) (dr_text d) s) else s).

Fixpoint redraw (labels : bool) (origin : pos2) (l : list (drawing * slice)) : res (list slice) :=
  match l with
  | [] => Ok []
  | (d, s) :: l => s ← redraw_slice labels origin d s; l ← redraw labels origin l; Ok (s :: l)
  end.
End pie.

(** *** The layout of the labels of one half *)

Section labels.
Context (cos_asin : Q -> Q).
Context (center : pos2) (radius distance : Q) (justify : bool) (connectorPadding : Q).

(** [series.getX(y, left)] *)
Definition getX (left_ : bool) (y : Q) : Q :=
  (center.1 + (if left_ then -1 else 1) * (cos_asin ((y - center.2) / (radius + distance)) * (radius + distance)))%Q.

(** The labels that stay, with their slots and heights; of a label past the last slot the
    height is missing. *)
Definition half_heights (slots : list Q) (ys values : list Q) : list (nat * option nat * option Q) :=
  if Qlt_b 0 distance then
    let kept := drop_lowest (length slots) values in
    let ys' := List.map (fun j => default 0%Q (ys !! j)) kept in
    let used := used_slots slots ys' in
    zip_with (fun j i => (j, Some i, label_y slots used (default 0%Q (ys !! j)) i)) kept (assigned_slots used)
  else imap (fun j y => (j, None, Some y)) ys.

Definition label_x (left_ : bool) (slots : list Q) (naturalY : Q) (slot : option nat) (y : Q) : Q :=
  if justify then (center.1 + (if left_ then -1 else 1) * (radius + distance))%Q
  else
    let edge := match slot with Some i => (i =? 0)%nat || (i =? length slots - 1)%nat | None => false end in
    getX left_ (if edge then naturalY else y).

(** The place of a label aligned at [align] and the path of its connector; [labelPos] are
    the places of [HsPoints.slice_place]. *)
Definition connector_path (soft : bool) (align_left : bool) (x y : Q) (labelPos : list Q) : list token :=
  let p i := default 0%Q (labelPos !! i) in
  let start := [Letter "M"; Number (x + (if align_left then 5 else -5))%Q; Number y] in
  let base := [Letter "L"; Number (p 4%nat); Number (p 5%nat)] in
  if soft then
    start ++ [Letter "C"; Number x; Number y; Number (2 * p 2%nat - p 4%nat)%Q; Number (2 * p 3%nat - p 5%nat)%Q;
              Number (p 2%nat); Number (p 3%nat)] ++ base
  else start ++ [Letter "L"; Number (p 2%nat); Number (p 3%nat)] ++ base.
Definition label_at (align : string) (dx dy x y : Q) : pos2 :=
  ((x + dx + (if bool_decide (align = "left"%string) then connectorPadding
              else if bool_decide (align = "right"%string) then - connectorPadding else 0))%Q, (y + dy)%Q).
End labels.

(** ** Slices in step *)

Section steps.
Context (shadow tracking : bool) (away : pos2).

(** The elements of a slice are shown as the slice is and stand where it stands; a label
    the layout left out is out of sight. *)
Record in_step (origin : pos2) (s : slice) : Prop := InStep {
  is_group : forall v p, s_group s = Some (v, p) -> v = s_visible s /\ p = slice_place origin s;
  is_shadow : forall v p, s_shadow s = Some (v, p) -> v = s_visible s /\ p = slice_place origin s;
  is_tracker : forall v, s_tracker s = Some v -> v = s_visible s;
  is_label : forall v p, s_label s = Some (v, p) -> v = s_visible s \/ p = away;
  is_connector : forall c, s_connector s = Some c -> cn_shown c = s_visible s;
  is_new : s_group s = None -> s_visible s = true /\ s_shadow s = None /\ s_tracker s = None /\
             s_label s = None /\ s_connector s = None;
  is_felt : s_group s <> None -> tracking = true -> s_tracker s <> None
}.

Inductive pie_step : pos2 * list slice -> pos2 * list slice -> Prop :=
| step_redraw labels origin origin' ds l l' : length ds = length l -> Forall (fun d => dr_value d = true) ds ->
    redraw shadow tracking away labels origin' (zip ds l) = Ok l' -> pie_step (origin, l) (origin', l')
| step_visible origin l i vis s s' : l !! i = Some s -> setVisible vis s = Ok s' ->
    pie_step (origin, l) (origin, <[i := s']> l)
| step_slice origin l i sliced s s' : l !! i = Some s -> slice_ sliced origin s = Ok s' ->
    pie_step (origin, l) (origin, <[i := s']> l).

Lemma setVisible_in_step origin vis s s' : in_step origin s -> setVisible vis s = Ok s' -> in_step origin s'.
Proof.
  intros [G S T L C N F]. unfold setVisible. destruct (s_group s) as [[v p]|] eqn:Eg; [|done]. intros [= <-].
  split; cbn [s_group s_shadow s_tracker s_label s_connector s_visible show fmap option_fmap option_map snd].
  - intros v' p' [= <- <-]. split; [done|]. by apply (G v p).
  - intros v' p'. destruct (s_shadow s) as [[w q]|]; [|done]. intros [= <- <-]. split; [done|]. by apply (S w q).
  - intros v'. by destruct (s_tracker s); intros [= <-].
  - intros v' p'. destruct (s_label s) as [[w q]|]; [|done]. intros [= <- <-]. by left.
  - intros c. destruct (s_connector s); [|done]. by intros [= <-].
  - done.
  - intros _ Ht. specialize (F ltac:(done) Ht). by destruct (s_tracker s).
Qed.

Lemma slice_in_step origin sliced s s' : in_step origin s -> slice_ sliced origin s = Ok s' -> in_step origin s'.
Proof.
  intros [G S T L C N F]. unfold slice_. cbn [s_group]. destruct (s_group s) as [[v p]|] eqn:Eg; [|done]. intros [= <-].
  split; cbn [s_group s_shadow s_tracker s_label s_connector s_visible]; try done.
  - intros v' p' [= <- <-]. split; [by eapply G|done].
  - intros v' p'. destruct (s_shadow s) as [[w q]|]; [|done]. intros [= <- <-]. split; [by apply (S w q)|done].
  - intros _. by apply F.
Qed.

(** A slice that is drawn, but for the area that feels the mouse, which is made next. *)
Record drawn (origin : pos2) (s : slice) : Prop := Drawn {
  dn_group : exists p, s_group s = Some (s_visible s, p) /\ p = slice_place origin s;
  dn_shadow : forall v p, s_shadow s = Some (v, p) -> v = s_visible s /\ p = slice_place origin s;
  dn_tracker : forall v, s_tracker s = Some v -> v = s_visible s;
  dn_hidden : s_visible s = false -> tracking = true -> s_tracker s <> None;
  dn_label : forall v p, s_label s = Some (v, p) -> v = s_visible s \/ p = away;
  dn_connector : forall c, s_connector s = Some c -> cn_shown c = s_visible s
}.

Lemma draw_slice_drawn origin0 origin s s' out shape : in_step origin0 s ->
  draw_slice shadow origin (Slice (s_visible s) (s_sliced s) out shape (s_group s) (s_shadow s) (s_graphic s)
                              (s_tracker s) (s_label s) (s_connector s)) = Ok s' -> drawn origin s'.
Proof.
  intros [G S T L C N F]. unfold draw_slice, slice_place.
  cbn [s_visible s_sliced s_out s_shape s_group s_shadow s_graphic s_tracker s_label s_connector].
  set (to := if s_sliced s then out else origin). destruct (s_visible s) eqn:Ev.
  - intros [= <-].
    assert (forall e : option (bool * pos2), (forall v p, e = Some (v, p) -> v = true) -> forall v p,
      Some (match e with Some (v, _) => v | None => true end, to) = Some (v, p) -> v = true /\ p = to) as Hmove.
    { intros e He v p [= <- <-]. split; [|done]. destruct e as [[w q]|]; [by eapply He|done]. }
    assert (forall v p, s_shadow s = Some (v, p) -> v = true) as S' by (intros v p H; by apply (S v p)).
    split; cbn [s_visible s_sliced s_out s_shape s_group s_shadow s_graphic s_tracker s_label s_connector]; try done.
    + exists to. split; [|done]. destruct (s_group s) as [[v p]|]; [|done]. by destruct (G v p eq_refl) as [-> _].
    + intros v p. destruct shadow; [by apply Hmove|]. destruct (s_shadow s) as [[w q]|] eqn:Es; [|done].
      apply (Hmove (Some (w, q))). intros v' p' [= <- <-]. by apply (S' w q).
  - assert (s_group s <> None) as Hg by (intros H; by destruct (N H)).
    unfold setVisible. cbn [s_visible s_sliced s_out s_shape s_group s_shadow s_graphic s_tracker s_label s_connector default].
    intros [= <-].
    split; cbn [s_visible s_sliced s_out s_shape s_group s_shadow s_graphic s_tracker s_label s_connector show fmap option_fmap option_map snd]; try done.
    + by exists to.
    + intros v p. destruct shadow; [by intros [= <- <-]|]. destruct (s_shadow s) as [[w q]|]; [by intros [= <- <-]|done].
    + intros v. by destruct (s_tracker s); intros [= <-].
    + intros _ Ht. specialize (F Hg Ht). by destruct (s_tracker s).
    + intros v p. destruct (s_label s) as [[w q]|]; [|done]. intros [= <- <-]. by left.
    + intros c. destruct (s_connector s); [|done]. by intros [= <-].
Qed.

Lemma track_in_step origin s : drawn origin s -> in_step origin (track_slice tracking true true s).
Proof.
  intros [(p & G & Hp) S T H L C]. unfold track_slice. rewrite andb_true_r. destruct tracking eqn:E.
  - split; cbn [s_visible s_sliced s_out s_shape s_group s_shadow s_graphic s_tracker s_label s_connector];
      rewrite ?G; try done; [by intros v q [= <- <-]|].
    intros v [= <-]. destruct (s_tracker s) as [t|]; [by apply T|]. destruct (s_visible s); [done|]. by destruct H.
  - split; rewrite ?G; try done; [by intros v q [= <- <-]|congruence].
Qed.

(** Labels and connectors do not matter to the rest. *)
Lemma relabel_in_step origin l c s : in_step origin s -> s_group s <> None ->
  (forall v p, l = Some (v, p) -> v = s_visible s \/ p = away) -> (forall k, c = Some k -> cn_shown k = s_visible s) ->
  in_step origin (Slice (s_visible s) (s_sliced s) (s_out s) (s_shape s) (s_group s) (s_shadow s) (s_graphic s)
                    (s_tracker s) l c).
Proof. intros [G S T L C N F] Hg Hl Hc. by split. Qed.

Lemma redraw_slice_in_step labels origin0 origin d s s' : in_step origin0 s -> dr_value d = true ->
  redraw_slice shadow tracking away labels origin d s = Ok s' -> in_step origin s'.
Proof.
  intros Hs Hd. unfold redraw_slice. rewrite res_bind_ok. intros (s1 & H1 & [= <-]).
  apply (draw_slice_drawn origin0) in H1; [|done]. rewrite Hd.
  assert (s_group (track_slice tracking true true s1) <> None) as Hg.
  { destruct H1 as [(p & Hp & _) _ _ _ _ _]. unfold track_slice. destruct (tracking && true); cbn; congruence. }
  apply track_in_step in H1. set (s2 := track_slice tracking true true s1) in *. clearbody s2. destruct labels; [|done].
  assert (in_step origin (base_label away (dr_enabled d) (dr_text d) s2) /\
          s_group (base_label away (dr_enabled d) (dr_text d) s2) <> None) as [Hb Hgb].
  { unfold base_label. destruct (dr_enabled d); [|done].
    assert (forall v, in_step origin (Slice (s_visible s2) (s_sliced s2) (s_out s2) (s_shape s2) (s_group s2) (s_shadow s2)
              (s_graphic s2) (s_tracker s2) (Some (v, away)) (s_connector s2))) as Haway.
    { intros v. apply relabel_in_step; [done|done|intros v' p [= <- <-]; by right|apply H1]. }
    destruct (s_label s2) as [[v p]|]; [by split|]. destruct (dr_text d); [by split|done]. }
  set (s3 := base_label _ _ _ s2) in *. clearbody s3. unfold place_label.
  destruct (s_label s3) as [[v p]|] eqn:El; [|done]. destruct (dr_label d) as [to|]; [|done].
  apply relabel_in_step; [done|done|intros v' p' [= <- <-]; by left|].
  intros k. destruct (lp_path to) as [path|]; [by intros [= <-]|apply Hb].
Qed.

Lemma redraw_in_step labels origin0 origin : forall ds l l', length ds = length l ->
  Forall (fun d => dr_value d = true) ds -> Forall (in_step origin0) l ->
  redraw shadow tracking away labels origin (zip ds l) = Ok l' -> Forall (in_step origin) l'.
Proof.
  induction ds as [|d ds IH]; intros [|s l] l' Hlen Hd Hl H; try done.
  { by injection H as <-. }
  apply Forall_cons in Hd as [Hd Hds]. apply Forall_cons in Hl as [Hs Hl]. cbn in H.
  apply res_bind_ok in H as (s' & H1 & H). apply res_bind_ok in H as (l1 & H2 & [= <-]).
  constructor; [by eapply redraw_slice_in_step|]. eapply (IH l); [by injection Hlen|done|done|done].
Qed.
End steps.

(** A slice that has not been drawn. *)
Definition fresh_slice (s : slice) : Prop :=
  s_visible s = true /\ s_group s = None /\ s_shadow s = None /\ s_tracker s = None /\ s_label s = None /\ s_connector s = None.


(** ** Examples *)

Definition demo_arc : arc := Arc 100 100 80 0 0 1.
Definition demo_slice (visible : bool) : slice := Slice visible false (0, 0)%Q demo_arc None None None None None None.
Definition demo_drawing : drawing :=
  Drawing (15, 5)%Q demo_arc true true true (Some (LabelPlace (190, 90)%Q (Some [Letter "M"]))).
Definition demo_draw (origin : pos2) (l : list slice) : res (list slice) :=
  redraw false true (-999, -999)%Q true origin (List.map (fun s => (demo_drawing, s)) l).


(** A slice that is hidden from the start feels the mouse until it is drawn again. *)
Example hidden_slice_felt :
  (l ← demo_draw (10, 10)%Q [demo_slice false]; Ok (List.map s_tracker l)) = Ok [Some true] /\
  (l ← demo_draw (10, 10)%Q [demo_slice false]; l ← demo_draw (10, 10)%Q l; Ok (List.map s_tracker l)) = Ok [Some false].
Proof. vm_compute. done. Qed.

(** When the plot moves the slices go with it, but not the connectors. *)
Example connector_stays :
  (l ← demo_draw (10, 10)%Q [demo_slice true]; l ← demo_draw (10, 40)%Q l;
   Ok (List.map (fun s => (s_group s, cn_origin <$> s_connector s)) l))
  = Ok [(Some (true, (10, 40)%Q), Some (10, 10)%Q)].
Proof. vm_compute. done. Qed.

(** A slice whose label the layout leaves out keeps its connector. *)
Example connector_without_label :
  (l ← demo_draw (10, 10)%Q [demo_slice true];
   l ← redraw false true (-999, -999)%Q true (10, 10)%Q
         (List.map (fun s => (Drawing (15, 5)%Q demo_arc true true true None, s)) l);
   Ok (List.map (fun s => (s_label s, cn_shown <$> s_connector s)) l))
  = Ok [(Some (true, (-999, -999)%Q), Some true)].
Proof. vm_compute. done. Qed.

(** A column that loses its value stays where it was. *)
Example column_left_behind :
  let c := draw_column (Column (Some 3%Q) (Some 40%Q) (Rect 10 40 8 60) None None None) in
  co_graphic (draw_column (Column None None (Rect 10 0 8 0) None (co_graphic c) None)) = Some (Rect 10 40 8 60).
Proof. done. Qed.
