(* ===== verification/HsDom.v ===== *)
(** * Charts: the order of elements

    [highstock.src.js]: [SVGElement.add], [toFront], [empty], [safeRemoveChild] and
    [destroy], as far as they change which elements there are and in which order they are
    drawn.

    A node is a wrapper with its element: both come into being together.  Node 0 is the box
    of the renderer, with what the renderer keeps for itself.  The browser refuses to put an
    element into itself; [step] does not try. *)

From stdpp Require Import gmap strings sorting relations.
From S2P Require Import Prelude JsString.
Local Open Scope list_scope.
Local Open Scope Z_scope.

(** ** Nodes *)

Record node := Node {
  n_alive : bool;               (* the wrapper has its members: it was not destroyed *)
  n_z : option string;          (* the attribute zIndex *)
  n_parent : option nat;        (* parentNode *)
  n_children : list nat;        (* childNodes *)
  n_handleZ : bool;             (* handleZ of the wrapper *)
  n_element_handleZ : bool      (* handleZ of the element, see [add] *)
}.
Notation doc := (gmap nat node).

Definition with_z z (n : node) := Node (n_alive n) z (n_parent n) (n_children n) (n_handleZ n) (n_element_handleZ n).
Definition with_parent p (n : node) := Node (n_alive n) (n_z n) p (n_children n) (n_handleZ n) (n_element_handleZ n).
Definition with_children l (n : node) := Node (n_alive n) (n_z n) (n_parent n) l (n_handleZ n) (n_element_handleZ n).
Definition with_handleZ b (n : node) := Node (n_alive n) (n_z n) (n_parent n) (n_children n) b (n_element_handleZ n).
Definition with_element_handleZ b (n : node) := Node (n_alive n) (n_z n) (n_parent n) (n_children n) (n_handleZ n) b.

Definition childNodes (d : doc) (p : nat) : list nat := default [] (n_children <$> d !! p).
Definition z_of (d : doc) (n : nat) : option string := d !! n ≫= n_z.
Definition parentNode (d : doc) (n : nat) : option nat := d !! n ≫= n_parent.

(** [parent.removeChild(n)] and [safeRemoveChild]. *)
Definition removeChild (p n : nat) (d : doc) : doc :=
  alter (with_parent None) n (alter (fun P => with_children (filter (fun c => c <> n) (n_children P)) P) p d).
Definition safeRemoveChild (n : nat) (d : doc) : doc :=
  match parentNode d n with Some p => removeChild p n d | None => d end.

(** [p.insertBefore(n, other)], and [p.appendChild(n)] without another: an element that has
    a place leaves it. *)
Fixpoint place_before (n : nat) (other : nat) (l : list nat) : list nat :=
  match l with
  | [] => []
  | c :: l => if decide (c = other) then n :: c :: l else c :: place_before n other l
  end.
Definition insertBefore (p n : nat) (other : option nat) (d : doc) : doc :=
  let d := safeRemoveChild n d in
  let place l := match other with Some o => place_before n o l | None => l ++ [n] end in
  alter (with_parent (Some p)) n (alter (fun P => with_children (place (n_children P)) P) p d).

(** ** [add] *)

(** [pInt(otherZIndex) > zIndex]: what is compared is a number, or the text or [null] that
    was left unread, both of which count as zero. *)
Definition own_z (z : option string) : option Z :=
  match z with
  | Some s => if decide (s = ""%string) then Some 0 else parseInt s
  | None => Some 0
  end.
Definition higher (other z : option string) : bool :=
  match other ≫= parseInt, own_z z with Some o, Some k => k <? o | _, _ => false end.
(** Does an element with [other] stop the search for the place of one with [z]? *)
Definition goes_before (z other : option string) : bool :=
  higher other z || (bool_decide (z = None) && bool_decide (is_Some other)).
Definition truthy_z (z : option string) : bool :=
  match z with Some s => negb (bool_decide (s = ""%string)) | None => false end.

Inductive parent_arg := NoParent | ToWrapper (n : nat) | ToElement (n : nat).

(** [parentWrapper.element || renderer.box]: an element has no member [element], nor has a
    wrapper that was destroyed. *)
Definition container (d : doc) (p : parent_arg) : nat :=
  match p with
  | NoParent | ToElement _ => 0%nat
  | ToWrapper n => if default false (n_alive <$> d !! n) then n else 0%nat
  end.
(** [parentWrapper.handleZ] *)
Definition reads_z (d : doc) (p : parent_arg) : bool :=
  match p with
  | NoParent => default false (n_handleZ <$> d !! 0%nat)
  | ToWrapper n => default false (n_handleZ <$> d !! n)
  | ToElement n => default false (n_element_handleZ <$> d !! n)
  end.
Definition mark_z (p : parent_arg) (d : doc) : doc :=
  match p with
  | NoParent => alter (with_handleZ true) 0%nat d
  | ToWrapper n => alter (with_handleZ true) n d
  | ToElement n => alter (with_element_handleZ true) n d
  end.

Definition find_place (d : doc) (n : nat) (l : list nat) : option nat :=
  snd <$> list_find (fun c => c <> n /\ goes_before (z_of d n) (z_of d c) = true) l.

Definition add (n : nat) (parent : parent_arg) (d : doc) : res doc :=
  match d !! n with
  | Some N =>
      if n_alive N then
        let p := container d parent in
        let d := if truthy_z (n_z N) then mark_z parent d else d in
        let other := if reads_z d parent then find_place d n (childNodes d p) else None in
        Ok (insertBefore p n other d)
      else Throw TypeError
  | None => Throw TypeError
  end.

(** ** The other operations *)

Definition create (n : nat) (z : option string) (d : doc) : doc := <[n := Node true z None [] false false]> d.
(** [attr({zIndex: z})] *)
Definition set_z (n : nat) (z : string) (d : doc) : doc := alter (with_z (Some z)) n d.
Definition toFront (n : nat) (d : doc) : res doc :=
  match parentNode d n with Some p => Ok (insertBefore p n None d) | None => Throw TypeError end.
Definition empty (n : nat) (d : doc) : doc := foldr (removeChild n) d (childNodes d n).
(** [destroy] deletes the members of the wrapper; the children of its element stay what and
    where they are.  Destroyed twice, it misses its renderer. *)
Definition buried (N : node) : node := Node false (n_z N) None (n_children N) false (n_element_handleZ N).
Definition destroy (n : nat) (d : doc) : res doc :=
  match d !! n with
  | Some N => if n_alive N then Ok (alter buried n (safeRemoveChild n d)) else Throw TypeError
  | None => Throw TypeError
  end.

Definition blank : doc := create 0 None ∅.

(** ** What the operations do to lists, parents and attributes *)

Lemma z_of_alter f n d c : (forall N, n_z (f N) = n_z N) -> z_of (alter f n d) c = z_of d c.
Proof.
  intros H. unfold z_of. destruct (decide (c = n)) as [->|]; [|by rewrite lookup_alter_ne].
  rewrite lookup_alter_eq. destruct (d !! n); cbn; [apply H | done].
Qed.
Lemma parentNode_alter f n d c : (forall N, n_parent (f N) = n_parent N) -> parentNode (alter f n d) c = parentNode d c.
Proof.
  intros H. unfold parentNode. destruct (decide (c = n)) as [->|]; [|by rewrite lookup_alter_ne].
  rewrite lookup_alter_eq. destruct (d !! n); cbn; [apply H | done].
Qed.
Lemma childNodes_alter f n d p : (forall N, n_children (f N) = n_children N) -> childNodes (alter f n d) p = childNodes d p.
Proof.
  intros H. unfold childNodes. destruct (decide (p = n)) as [->|]; [|by rewrite lookup_alter_ne].
  rewrite lookup_alter_eq. destruct (d !! n); cbn; [apply H | done].
Qed.
Lemma set_parent p n d c :
  is_Some (d !! n) -> parentNode (alter (with_parent p) n d) c = if decide (c = n) then p else parentNode d c.
Proof.
  intros [N H]. unfold parentNode. destruct (decide (c = n)) as [->|]; [|by rewrite lookup_alter_ne].
  by rewrite lookup_alter_eq, H.
Qed.
Lemma set_children f p d q :
  f [] = [] \/ is_Some (d !! p) ->
  childNodes (alter (fun P => with_children (f (n_children P)) P) p d) q
  = if decide (q = p) then f (childNodes d p) else childNodes d q.
Proof.
  intros H. unfold childNodes. destruct (decide (q = p)) as [->|]; [|by rewrite lookup_alter_ne].
  rewrite lookup_alter_eq. destruct (d !! p); cbn; [done|]. destruct H as [H|[? H]]; [by rewrite H | done].
Qed.

(** Which wrappers there are and what they are, the places of elements apart. *)
Definition shape (N : node) := (n_alive N, n_z N, n_handleZ N).
Definition same_nodes (d d' : doc) : Prop := forall n, shape <$> d' !! n = shape <$> d !! n.
Lemma same_nodes_alter f n d : (forall N, shape (f N) = shape N) -> same_nodes d (alter f n d).
Proof.
  intros H c. destruct (decide (c = n)) as [->|]; [|by rewrite lookup_alter_ne].
  rewrite lookup_alter_eq. destruct (d !! n); cbn; [by rewrite H | done].
Qed.
#[local] Instance same_nodes_preorder : PreOrder same_nodes.
Proof. split; [done|]. intros a b c H K n. by rewrite K. Qed.
Lemma same_nodes_z d d' n : same_nodes d d' -> z_of d' n = z_of d n.
Proof.
  intros H. specialize (H n). unfold z_of.
  destruct (d' !! n), (d !! n); cbn in *; try done. by injection H.
Qed.
Lemma same_nodes_some d d' n N' : same_nodes d d' -> d' !! n = Some N' -> exists N, d !! n = Some N /\ shape N' = shape N.
Proof. intros H E. specialize (H n). rewrite E in H. destruct (d !! n) as [N|]; cbn in H; [|done]. exists N. unfold shape in *. split; [done | congruence]. Qed.

Definition without (n : nat) (l : list nat) : list nat := filter (fun c => c <> n) l.
Lemma without_cons n c l : without n (c :: l) = if decide (c = n) then without n l else c :: without n l.
Proof. unfold without. rewrite filter_cons. destruct (decide (c = n)); by repeat case_decide. Qed.
#[local] Arguments without : simpl never.
Lemma without_id n l : n ∉ l -> without n l = l.
Proof.
  unfold without. induction l as [|c l IH]; intros H; [done|]. rewrite filter_cons_True by set_solver.
  rewrite IH; set_solver.
Qed.
Lemma elem_without n l c : c ∈ without n l <-> c <> n /\ c ∈ l.
Proof. unfold without. by rewrite list_elem_of_filter. Qed.

(** ** The order *)

Definition key (z : option string) : option Z := z ≫= parseInt.
Definition not_above (a b : option Z) : Prop :=
  match a, b with None, _ => True | Some x, Some y => x <= y | Some _, None => False end.
Definition readable (z : option string) : Prop := match z with Some s => is_Some (parseInt s) | None => True end.
Definition below (d : doc) (a b : nat) : Prop := not_above (key (z_of d a)) (key (z_of d b)).

#[export] Instance not_above_dec a b : Decision (not_above a b).
Proof. destruct a, b; cbn; apply _. Defined.
#[export] Instance below_dec d a b : Decision (below d a b) := not_above_dec _ _.

#[local] Arguments parseInt : simpl never.
Lemma goes_before_spec z other :
  readable z -> readable other -> goes_before z other = true <-> ~ not_above (key other) (key z).
Proof.
  intros Hz Ho. unfold goes_before, higher, own_z, key, not_above.
  destruct z as [s|], other as [t|]; cbn in *; try destruct Hz as [k Ek]; try destruct Ho as [o Eo].
  - rewrite Ek, Eo. rewrite decide_False by (intros ->; done). cbn. rewrite orb_false_r, Z.ltb_lt. lia.
  - cbn. naive_solver.
  - rewrite Eo. cbn. rewrite orb_true_r. naive_solver.
  - naive_solver.
Qed.
Lemma truthy_readable z : readable z -> truthy_z z = bool_decide (is_Some z).
Proof. destruct z as [s|]; [|done]. intros [k E]. cbn. rewrite bool_decide_false by (intros ->; done). done. Qed.
Lemma not_above_total a b : ~ not_above a b -> not_above b a.
Proof. destruct a, b; cbn; lia. Qed.
Lemma not_above_trans a b c : not_above a b -> not_above b c -> not_above a c.
Proof. destruct a, b, c; cbn; lia || tauto. Qed.

(** The first child that stops the search, among the children without the element itself. *)
Lemma find_place_split d n l :
  match find_place d n l with
  | Some o => exists l1 l2, without n l = l1 ++ o :: l2 /\ o ∉ l1 /\
      Forall (fun c => goes_before (z_of d n) (z_of d c) = false) l1 /\ goes_before (z_of d n) (z_of d o) = true
  | None => Forall (fun c => goes_before (z_of d n) (z_of d c) = false) (without n l)
  end.
Proof.
  unfold find_place. induction l as [|c l IH]; cbn [list_find]; [constructor|]. rewrite without_cons.
  destruct (decide (c <> n /\ goes_before (z_of d n) (z_of d c) = true)) as [[Hc Hg]|Hn].
  - rewrite decide_False by done. cbn. exists [], (without n l). repeat split; [set_solver | constructor | done].
  - destruct (list_find _ l) as [[i o]|]; cbn in *.
    + destruct IH as (l1 & l2 & E & Ho & H1 & H2). destruct (decide (c = n)) as [->|Hc]; [by exists l1, l2|].
      rewrite E. exists (c :: l1), l2.
      assert (goes_before (z_of d n) (z_of d c) = false) by (apply not_true_is_false; tauto).
      repeat split; [|by constructor|done]. intros [->|?]%elem_of_cons; [congruence | done].
    + destruct (decide (c = n)) as [->|Hc]; [done|]. constructor; [apply not_true_is_false; tauto | done].
Qed.
Lemma place_before_split n o l1 l2 : o ∉ l1 -> place_before n o (l1 ++ o :: l2) = l1 ++ n :: o :: l2.
Proof.
  induction l1 as [|c l1 IH]; intros H; cbn; [by rewrite decide_True|].
  rewrite decide_False by set_solver. rewrite IH; set_solver.
Qed.

(** ** What holds of a document *)

(** Is what is given to [add] as parent a wrapper, and one that was not destroyed? *)
Definition wrapper_of (d : doc) (parent : parent_arg) : Prop :=
  match parent with NoParent => True | ToWrapper m => n_alive <$> d !! m = Some true | ToElement _ => False end.

(** One container is watched: while it is, nothing is put in front in it, none of its
    children is given another zIndex, and what is added to it is added to its wrapper.
    Elsewhere all of this happens. *)
Section watched.
Context (w : nat).

Record well_placed (d : doc) : Prop := {
  wp_z : forall n, readable (z_of d n);
  wp_links : forall p c, c ∈ childNodes d p <-> parentNode d c = Some p;
  wp_nodup : forall p, NoDup (childNodes d p);
  wp_order : StronglySorted (below d) (childNodes d w);
  wp_marked : forall P c, d !! w = Some P -> n_alive P = true -> c ∈ n_children P -> is_Some (z_of d c) -> n_handleZ P = true;
  wp_box : exists B, d !! 0%nat = Some B /\ n_alive B = true
}.

Inductive step (d : doc) : doc -> Prop :=
| Creates n z : d !! n = None -> readable z -> step d (create n z d)
| Raises n z : parentNode d n <> Some w -> readable (Some z) -> step d (set_z n z d)
| Adds n parent d' :
    n <> 0%nat -> (container d parent = w -> wrapper_of d parent) ->
    ~ rtc (fun a b => parentNode d a = Some b) (container d parent) n ->
    add n parent d = Ok d' -> step d d'
| Fronts n d' : parentNode d n <> Some w -> toFront n d = Ok d' -> step d d'
| Empties n : step d (empty n d)
| Destroys n d' : n <> 0%nat -> destroy n d = Ok d' -> step d d'.

Lemma StronglySorted_without {R : relation nat} n l : StronglySorted R l -> StronglySorted R (without n l).
Proof.
  induction 1 as [|c l _ IH Hc]; [constructor|]. rewrite without_cons. case_decide; [done|].
  constructor; [done|]. apply Forall_forall. intros x [_ Hx]%elem_without. by eapply Forall_forall in Hc.
Qed.
Lemma StronglySorted_mono {R R' : relation nat} l : (forall a b, R a b -> R' a b) -> StronglySorted R l -> StronglySorted R' l.
Proof. intros H. induction 1; constructor; [done|]. eapply Forall_impl; [done|]. apply H. Qed.
Lemma NoDup_without n l : NoDup l -> NoDup (without n l).
Proof. intros. by apply NoDup_filter. Qed.

(** [removeChild]. *)
Lemma removeChild_same p n d : same_nodes d (removeChild p n d).
Proof. unfold removeChild. etransitivity; apply same_nodes_alter; done. Qed.
Lemma removeChild_parent p n d c : parentNode (removeChild p n d) c = if decide (c = n) then None else parentNode d c.
Proof.
  unfold removeChild. case_decide as Hc.
  - subst. unfold parentNode. rewrite lookup_alter_eq. by destruct (alter _ _ _ !! n).
  - unfold parentNode at 1. rewrite lookup_alter_ne by done. by apply parentNode_alter.
Qed.
Lemma removeChild_children p n d q :
  childNodes (removeChild p n d) q = if decide (q = p) then without n (childNodes d p) else childNodes d q.
Proof. unfold removeChild. rewrite childNodes_alter by done. apply (set_children (without n)). by left. Qed.

Lemma well_placed_removeChild p n d : parentNode d n = Some p -> well_placed d -> well_placed (removeChild p n d).
Proof.
  intros Hp W. pose proof (removeChild_same p n d) as Hs.
  assert (forall q, childNodes (removeChild p n d) q = without n (childNodes d q)) as Hc.
  { intros q. rewrite removeChild_children. case_decide; [by subst|]. rewrite without_id; [done|].
    intros Hn%(wp_links _ W). congruence. }
  split.
  - intros m. rewrite (same_nodes_z _ _ _ Hs). apply W.
  - intros q c. rewrite Hc, elem_without, removeChild_parent, (wp_links _ W). case_decide; naive_solver.
  - intros q. rewrite Hc. by apply NoDup_without, W.
  - rewrite Hc. eapply StronglySorted_mono; [|apply StronglySorted_without, (wp_order _ W)].
    intros a b. unfold below. by rewrite !(same_nodes_z _ _ _ Hs).
  - intros Q c Hq Ha Hin Hz. destruct (same_nodes_some _ _ _ _ Hs Hq) as (Q0 & HQ0 & E). injection E as E1 E2 E3.
    rewrite E3. apply (wp_marked _ W Q0 c); [done | congruence | | by rewrite <- (same_nodes_z d _ c Hs)].
    assert (c ∈ childNodes (removeChild p n d) w) as H by (unfold childNodes; by rewrite Hq).
    rewrite Hc, elem_without in H. unfold childNodes in H. rewrite HQ0 in H. apply H.
  - destruct (wp_box _ W) as (B & HB & Ha). specialize (Hs 0%nat). rewrite HB in Hs.
    destruct (removeChild p n d !! 0%nat) as [B'|]; [|done]. exists B'. split; [done|]. injection Hs. congruence.
Qed.
Lemma well_placed_safeRemoveChild n d :
  well_placed d -> well_placed (safeRemoveChild n d) /\ same_nodes d (safeRemoveChild n d) /\
    (forall q, childNodes (safeRemoveChild n d) q = without n (childNodes d q)) /\
    forall c, parentNode (safeRemoveChild n d) c = if decide (c = n) then None else parentNode d c.
Proof.
  intros W. unfold safeRemoveChild. destruct (parentNode d n) as [p|] eqn:Ep.
  - split_and!; [by apply well_placed_removeChild | apply removeChild_same | | apply removeChild_parent].
    intros q. rewrite removeChild_children. case_decide; [by subst|]. rewrite without_id; [done|].
    intros Hn%(wp_links _ W). congruence.
  - split_and!; [done | done | |].
    + intros q. rewrite without_id; [done|]. intros Hn%(wp_links _ W). congruence.
    + intros c. case_decide; congruence.
Qed.

(** Putting an element between children it may stand between. *)
Definition put_child (p n : nat) (f : list nat -> list nat) (d : doc) : doc :=
  alter (with_parent (Some p)) n (alter (fun P => with_children (f (n_children P)) P) p d).

Lemma put_child_same p n f d : same_nodes d (put_child p n f d).
Proof. unfold put_child. etransitivity; apply same_nodes_alter; done. Qed.
Lemma put_child_parent p n f d c :
  is_Some (d !! n) -> parentNode (put_child p n f d) c = if decide (c = n) then Some p else parentNode d c.
Proof.
  intros H. unfold put_child. rewrite set_parent; [case_decide; [done | by apply parentNode_alter]|].
  destruct (decide (n = p)) as [<-|]; [rewrite lookup_alter_eq; by apply fmap_is_Some | by rewrite lookup_alter_ne].
Qed.
Lemma put_child_children p n f d q :
  is_Some (d !! p) -> childNodes (put_child p n f d) q = if decide (q = p) then f (childNodes d p) else childNodes d q.
Proof. intros H. unfold put_child. rewrite childNodes_alter by done. apply set_children. by right. Qed.

Lemma StronglySorted_between {R : relation nat} l1 n l2 :
  (forall a b c, R a b -> R b c -> R a c) ->
  StronglySorted R (l1 ++ l2) -> Forall (fun c => R c n) l1 -> Forall (R n) l2 -> StronglySorted R (l1 ++ n :: l2).
Proof.
  intros Ht. induction l1 as [|c l1 IH]; cbn; intros Hs H1 H2; [by constructor|].
  inversion Hs as [|? ? Hs' Hc]; inversion H1; subst. constructor; [by apply IH|].
  apply Forall_app in Hc as [Hc1 Hc2]. apply Forall_app. split; [done|]. by constructor.
Qed.

Lemma well_placed_put p n l1 l2 f d :
  well_placed d -> parentNode d n = None -> is_Some (d !! n) -> is_Some (d !! p) ->
  childNodes d p = l1 ++ l2 -> f (l1 ++ l2) = l1 ++ n :: l2 ->
  (p = w -> Forall (fun c => below d c n) l1 /\ Forall (below d n) l2 /\
    (is_Some (z_of d n) -> n_handleZ <$> d !! p = Some true)) -> well_placed (put_child p n f d).
Proof.
  intros W Hpar Hn Hp Hl Hf Hw. pose proof (put_child_same p n f d) as Hs.
  assert (forall q, n ∉ childNodes d q) as Hno by (intros q Hq%(wp_links _ W); congruence).
  assert (forall q, childNodes (put_child p n f d) q = if decide (q = p) then l1 ++ n :: l2 else childNodes d q) as Hc.
  { intros q. rewrite put_child_children by done. case_decide; [by rewrite Hl, Hf | done]. }
  assert (forall q c, c ∈ childNodes (put_child p n f d) q <-> (q = p /\ c = n) \/ c ∈ childNodes d q) as Hin.
  { intros q c. rewrite Hc. case_decide; [subst; rewrite Hl|]; set_solver. }
  split.
  - intros m. rewrite (same_nodes_z _ _ _ Hs). apply W.
  - intros q c. rewrite Hin, (wp_links _ W), put_child_parent by done. case_decide; naive_solver.
  - intros q. rewrite Hc. case_decide; [|apply W].
    rewrite <- Permutation_middle, <- Hl. constructor; [apply Hno | apply W].
  - eapply (StronglySorted_mono (R:=below d)); [intros a b; unfold below; by rewrite !(same_nodes_z _ _ _ Hs)|].
    rewrite Hc. case_decide as E; [|apply W]. destruct (Hw (eq_sym E)) as (H1 & H2 & _).
    apply StronglySorted_between; [|rewrite <- Hl, <- E; apply W|done|done].
    intros a b c. apply not_above_trans.
  - intros Q c Hq Ha Hcq Hzc. destruct (same_nodes_some _ _ _ _ Hs Hq) as (Q0 & HQ0 & E). injection E as E1 E2 E3.
    rewrite E3. rewrite (same_nodes_z _ _ _ Hs) in Hzc.
    assert (c ∈ childNodes (put_child p n f d) w) as [[E ->]|Hcd]%Hin by (unfold childNodes; by rewrite Hq).
    + destruct (Hw (eq_sym E)) as (_ & _ & Hz). specialize (Hz Hzc). rewrite <- E, HQ0 in Hz. by injection Hz.
    + apply (wp_marked _ W Q0 c); [done | congruence | | done]. unfold childNodes in Hcd. by rewrite HQ0 in Hcd.
  - destruct (wp_box _ W) as (B & HB & Ha). specialize (Hs 0%nat). rewrite HB in Hs.
    destruct (put_child p n f d !! 0%nat) as [B'|]; [|done]. exists B'. split; [done|]. injection Hs. congruence.
Qed.

(** ** [add] *)

Lemma well_placed_mark parent d : well_placed d -> well_placed (mark_z parent d).
Proof.
  assert (forall f m, (forall N, n_z (f N) = n_z N) -> (forall N, n_parent (f N) = n_parent N) ->
    (forall N, n_children (f N) = n_children N) -> (forall N, n_alive (f N) = n_alive N) ->
    (forall N, n_handleZ N = true -> n_handleZ (f N) = true) -> well_placed d -> well_placed (alter f m d)) as H.
  { intros f m Fz Fp Fc Fa Fh W. split.
    - intros n. rewrite z_of_alter by done. apply W.
    - intros p c. rewrite childNodes_alter, parentNode_alter by done. apply W.
    - intros p. rewrite childNodes_alter by done. apply W.
    - rewrite childNodes_alter by done. eapply (StronglySorted_mono (R:=below d)); [|apply W].
      intros a b. unfold below. by rewrite !z_of_alter.
    - intros P c Hp Ha Hc. rewrite z_of_alter by done. intros Hz. destruct (decide (m = w)) as [E|].
      + rewrite E, lookup_alter_eq in Hp. destruct (d !! w) as [M|] eqn:EM; [|done]. injection Hp as <-. apply Fh.
        rewrite Fa in Ha. rewrite Fc in Hc. by apply (wp_marked _ W M c).
      + rewrite lookup_alter_ne in Hp by done. by eapply (wp_marked _ W).
    - destruct (wp_box _ W) as (B & HB & Ha). destruct (decide (m = 0%nat)) as [->|].
      + exists (f B). rewrite lookup_alter_eq, HB, Fa. done.
      + exists B. by rewrite lookup_alter_ne. }
  destruct parent; cbn; by apply H.
Qed.
Lemma mark_z_same parent d n : z_of (mark_z parent d) n = z_of d n /\ childNodes (mark_z parent d) n = childNodes d n /\
  n_alive <$> mark_z parent d !! n = n_alive <$> d !! n.
Proof.
  assert (forall f m, (forall N, n_alive (f N) = n_alive N) -> n_alive <$> alter f m d !! n = n_alive <$> d !! n) as H.
  { intros f m H. destruct (decide (n = m)) as [->|]; [|by rewrite lookup_alter_ne].
    rewrite lookup_alter_eq. destruct (d !! m); cbn; [by rewrite H | done]. }
  destruct parent; cbn; (split; [by apply z_of_alter|]); (split; [by apply childNodes_alter|]); by apply H.
Qed.

(** What [add] finds as a container was not destroyed. *)
Lemma container_alive d parent : well_placed d -> n_alive <$> d !! container d parent = Some true.
Proof.
  intros W. assert (n_alive <$> d !! 0%nat = Some true) as H0 by (destruct (wp_box _ W) as (B & -> & Ha); cbn; by rewrite Ha).
  destruct parent as [|m|m]; cbn; try done. destruct (n_alive <$> d !! m) as [[]|] eqn:E; cbn; done.
Qed.
Lemma wrapper_container d parent :
  wrapper_of d parent ->
  (forall d', same_nodes d d' -> reads_z d' parent = default false (n_handleZ <$> d' !! container d parent)) /\
  (forall d', mark_z parent d' = alter (with_handleZ true) (container d parent) d').
Proof. intros H. destruct parent as [|m|m]; cbn in *; [done|by rewrite H|done]. Qed.

(** Where the search ends; in the watched container an element of lower order comes before
    and one of higher order behind. *)
Lemma found_between d n p marked_ :
  let other := if marked_ : bool then find_place d n (childNodes d p) else None in
  let f l := match other with Some o => place_before n o l | None => l ++ [n] end in
  exists l1 l2, without n (childNodes d p) = l1 ++ l2 /\ f (l1 ++ l2) = l1 ++ n :: l2 /\
    (marked_ = true -> Forall (fun c => goes_before (z_of d n) (z_of d c) = false) l1 /\
      match l2 with [] => True | o :: _ => goes_before (z_of d n) (z_of d o) = true end) /\
    (marked_ = false -> l2 = []).
Proof.
  intros other f. subst other f. destruct marked_.
  - pose proof (find_place_split d n (childNodes d p)) as H. destruct (find_place d n (childNodes d p)) as [o|].
    + destruct H as (l1 & l2 & E & Ho & H1 & H2). exists l1, (o :: l2). rewrite E.
      split; [done|]. split; [by apply place_before_split|]. done.
    + exists (without n (childNodes d p)), []. by rewrite app_nil_r.
  - exists (without n (childNodes d p)), []. by rewrite app_nil_r.
Qed.

Lemma placed_between d n l1 l2 (marked_ : bool) :
  well_placed d -> without n (childNodes d w) = l1 ++ l2 ->
  (marked_ = true -> Forall (fun c => goes_before (z_of d n) (z_of d c) = false) l1 /\
    match l2 with [] => True | o :: _ => goes_before (z_of d n) (z_of d o) = true end) ->
  (marked_ = false -> l2 = []) ->
  n_alive <$> d !! w = Some true -> marked_ = default false (n_handleZ <$> d !! w) -> (marked_ = false -> z_of d n = None) ->
  Forall (fun c => below d c n) l1 /\ Forall (fun c => ~ below d c n) l2.
Proof.
  intros W E Hm Hn Ha Em Hz. destruct marked_.
  - destruct (Hm eq_refl) as [H1 H2]. split.
    + eapply Forall_impl; [exact H1|]. cbn. intros c Hc. destruct (decide (below d c n)) as [|Hb]; [done|].
      apply goes_before_spec in Hb; [congruence | apply W | apply W].
    + destruct l2 as [|o l2]; [done|]. apply goes_before_spec in H2; [|apply W|apply W].
      pose proof (StronglySorted_without n _ (wp_order _ W)) as Hs. rewrite E in Hs.
      apply StronglySorted_app_1_r in Hs. inversion Hs as [|? ? _ Hall]; subst.
      constructor; [done|]. eapply Forall_impl; [exact Hall|]. intros c Hoc Hc. apply H2. by eapply not_above_trans.
  - rewrite (Hn eq_refl) in *. specialize (Hz eq_refl). split; [|done].
    apply Forall_forall. intros c Hc. assert (c ∈ childNodes d w) as Hcd.
    { apply (elem_without n). rewrite E, app_nil_r. done. }
    unfold below. destruct (z_of d c) as [t|] eqn:Et; [|done]. exfalso.
    unfold childNodes in Hcd. destruct (d !! w) as [P|] eqn:EP; [|by apply elem_of_nil in Hcd]. cbn in *.
    assert (n_handleZ P = true); [|congruence]. eapply (wp_marked _ W); [done | congruence | done | by rewrite Et].
Qed.

(** Marking the container: an element with a zIndex finds its container marked. *)
Lemma marked d n N parent :
  well_placed d -> wrapper_of d parent -> d !! n = Some N ->
  let d1 := if truthy_z (n_z N) then mark_z parent d else d in
  let p := container d parent in
  (is_Some (n_z N) -> n_handleZ <$> d1 !! p = Some true) /\
  reads_z d1 parent = default false (n_handleZ <$> d1 !! p).
Proof.
  intros W Hw EN d1 p. destruct (wrapper_container d parent Hw) as (Hreads & Hmark).
  pose proof (container_alive d parent W) as Halive. fold p in Halive, Hreads, Hmark.
  assert (readable (n_z N)) as Hrd by (pose proof (wp_z _ W n) as H; unfold z_of in H; by rewrite EN in H).
  subst d1. rewrite truthy_readable by done. case_bool_decide as Ez; [|by rewrite Hreads].
  rewrite Hmark. split.
  - intros _. rewrite lookup_alter_eq. by destruct (d !! p).
  - clear -Halive Hw. subst p. destruct parent as [|m|m]; cbn in *; [done | by rewrite Hw | done].
Qed.

(** Putting an element between others, wherever it was. *)
Lemma inserted d n p other l1 l2 :
  well_placed d -> is_Some (d !! n) -> is_Some (d !! p) -> without n (childNodes d p) = l1 ++ l2 ->
  match other with Some o => place_before n o (l1 ++ l2) | None => (l1 ++ l2) ++ [n] end = l1 ++ n :: l2 ->
  (p = w -> Forall (fun c => below d c n) l1 /\ Forall (fun c => ~ below d c n) l2 /\
    (is_Some (z_of d n) -> n_handleZ <$> d !! p = Some true)) ->
  let d' := insertBefore p n other d in
  well_placed d' /\ (forall c, z_of d' c = z_of d c) /\ childNodes d' p = l1 ++ n :: l2 /\
  forall q, q <> p -> childNodes d' q = without n (childNodes d q).
Proof.
  intros W Hn Hp E Ef Hord d'. destruct (well_placed_safeRemoveChild n d W) as (W2 & Hs2 & Hc2 & Hp2).
  set (d2 := safeRemoveChild n d) in *.
  assert (forall q, is_Some (d !! q) -> is_Some (d2 !! q)) as Hsome2.
  { intros q [Q HQ]. specialize (Hs2 q). rewrite HQ in Hs2. destruct (d2 !! q); [by eexists | done]. }
  assert (d' = put_child p n (fun l => match other with Some o => place_before n o l | None => l ++ [n] end) d2) as -> by done.
  assert (forall a b, below d2 a b <-> below d a b) as Hb2 by (intros a b; unfold below; by rewrite !(same_nodes_z _ _ _ Hs2)).
  split_and!.
  - apply (well_placed_put p n l1 l2); [done | rewrite Hp2; by rewrite decide_True | by apply Hsome2 | by apply Hsome2 | by rewrite Hc2 | done |].
    intros Hw. destruct (Hord Hw) as (H1 & H2 & H3). split_and!.
    + eapply Forall_impl; [exact H1|]. intros c. by rewrite Hb2.
    + eapply Forall_impl; [exact H2|]. intros c Hcn%not_above_total. by apply Hb2.
    + rewrite (same_nodes_z _ _ _ Hs2). intros Hz'. specialize (H3 Hz'). specialize (Hs2 p).
      destruct (d !! p), (d2 !! p); cbn in *; try done. injection Hs2. congruence.
  - intros c. by rewrite (same_nodes_z _ _ _ (put_child_same _ _ _ _)), (same_nodes_z _ _ _ Hs2).
  - rewrite put_child_children, decide_True, Hc2, E by auto. done.
  - intros q Hq. by rewrite put_child_children, decide_False, Hc2 by auto.
Qed.

(** An element that is added leaves its place and, in the watched container, comes before
    the elements of a higher order, and behind all others. *)
Lemma add_places d n parent d' :
  well_placed d -> (container d parent = w -> wrapper_of d parent) -> add n parent d = Ok d' ->
  let p := container d parent in
  well_placed d' /\ (forall c, z_of d' c = z_of d c) /\
  exists l1 l2, childNodes d' p = l1 ++ n :: l2 /\ without n (childNodes d p) = l1 ++ l2 /\
    (p = w -> Forall (fun c => below d c n) l1 /\ Forall (fun c => ~ below d c n) l2) /\
    forall q, q <> p -> childNodes d' q = without n (childNodes d q).
Proof.
  intros W Hw. unfold add. destruct (d !! n) as [N|] eqn:EN; [|done]. destruct (n_alive N); [|done].
  intros [= <-]. pose proof (container_alive d parent W) as Halive. set (p := container d parent) in *. cbn zeta.
  assert (z_of d n = n_z N) as Hzn by (unfold z_of; by rewrite EN).
  set (d1 := if truthy_z (n_z N) then mark_z parent d else d).
  assert (well_placed d1) as W1 by (subst d1; destruct (truthy_z _); [by apply well_placed_mark | done]).
  assert (forall c, z_of d1 c = z_of d c /\ childNodes d1 c = childNodes d c /\ n_alive <$> d1 !! c = n_alive <$> d !! c) as Hsame
    by (intros c; subst d1; destruct (truthy_z _); [apply mark_z_same | done]).
  assert (forall c, is_Some (n_alive <$> d !! c) -> is_Some (d1 !! c)) as Hsome.
  { intros c. destruct (Hsame c) as (_ & _ & <-). apply fmap_is_Some. }
  destruct (found_between d1 n p (reads_z d1 parent)) as (l1 & l2 & E & Ef & Hm & Hu).
  set (other := if reads_z d1 parent then find_place d1 n (childNodes d1 p) else None) in *.
  assert (forall a b, below d1 a b <-> below d a b) as Hb by (intros a b; unfold below; by rewrite !(proj1 (Hsame _))).
  assert (p = w -> Forall (fun c => below d1 c n) l1 /\ Forall (fun c => ~ below d1 c n) l2 /\
    (is_Some (z_of d1 n) -> n_handleZ <$> d1 !! p = Some true)) as Hord.
  { intros Ew. destruct (marked d n N parent W (Hw Ew) EN) as (Hmarked & Hr). fold d1 p in Hmarked, Hr. rewrite Ew in *.
    assert (is_Some (z_of d1 n) -> n_handleZ <$> d1 !! w = Some true) as Hmk by (by rewrite (proj1 (Hsame n)), Hzn).
    destruct (placed_between d1 n l1 l2 (reads_z d1 parent) W1 E Hm Hu); [ | done | | done].
    - by rewrite (proj2 (proj2 (Hsame w))).
    - intros Hf. rewrite Hr in Hf. destruct (z_of d1 n); [|done]. by rewrite Hmk in Hf. }
  destruct (inserted d1 n p other l1 l2 W1) as (H1 & H2 & H3 & H4); [apply Hsome; by rewrite EN|apply Hsome; by rewrite Halive|done..|].
  split; [done|]. split; [intros c; by rewrite H2, (proj1 (Hsame c))|].
  exists l1, l2. rewrite <- (proj1 (proj2 (Hsame p))). split_and!; [done|done| |].
  - intros Ew. destruct (Hord Ew) as (K1 & K2 & _). split; [eapply Forall_impl; [exact K1|]|eapply Forall_impl; [exact K2|]]; intros c; cbn; by rewrite Hb.
  - intros q Hq. by rewrite H4, (proj1 (proj2 (Hsame q))).
Qed.

(** ** Every reachable document *)

Lemma well_placed_blank : well_placed blank.
Proof.
  assert (forall n N, blank !! n = Some N -> n = 0%nat /\ N = Node true None None [] false false) as Hb.
  { intros n N H. unfold blank, create in H. apply lookup_insert_Some in H as [[<- <-]|[_ H]]; [done|]. by rewrite lookup_empty in H. }
  assert (blank !! 0%nat = Some (Node true None None [] false false)) as H0 by (unfold blank, create; by rewrite lookup_insert_eq).
  generalize dependent blank. intros blank Hb H0.
  assert (forall n, childNodes blank n = []) as Hc.
  { intros n. unfold childNodes. destruct (blank !! n) as [N|] eqn:E; [|done]. by apply Hb in E as [_ ->]. }
  split.
  - intros n. unfold z_of. destruct (blank !! n) as [N|] eqn:E; [|done]. by apply Hb in E as [_ ->].
  - intros p c. rewrite Hc. unfold parentNode. destruct (blank !! c) as [N|] eqn:E.
    + apply Hb in E as [_ ->]. split; [by intros ?%elem_of_nil | done].
    + split; [by intros ?%elem_of_nil | done].
  - intros p. rewrite Hc. constructor.
  - rewrite Hc. constructor.
  - intros P c Hp _ Hin. apply Hb in Hp as [_ ->]. by apply elem_of_nil in Hin.
  - by eexists.
Qed.

(** A node outside the document may change its own attributes. *)
Lemma well_placed_outside n N d :
  well_placed d -> parentNode d n = None -> n_parent N = None -> readable (n_z N) ->
  n_children N = childNodes d n -> (n <> w \/ childNodes d n = [] \/ n_alive N = false \/ n_handleZ <$> d !! n = Some (n_handleZ N) /\ n_alive <$> d !! n = Some true) ->
  (n = 0%nat -> n_alive N = true) -> well_placed (<[n := N]> d).
Proof.
  intros W Hp HNp Hr Hch Hm Hbox.
  assert (forall q, n ∉ childNodes d q) as Hno by (intros q Hq%(wp_links _ W); congruence).
  assert (forall q, childNodes (<[n := N]> d) q = childNodes d q) as Hc.
  { intros q. unfold childNodes at 1. destruct (decide (q = n)) as [->|]; [by rewrite lookup_insert_eq | by rewrite lookup_insert_ne]. }
  assert (forall c, parentNode (<[n := N]> d) c = parentNode d c) as Hpar.
  { intros c. unfold parentNode at 1. destruct (decide (c = n)) as [->|]; [by rewrite lookup_insert_eq, Hp | by rewrite lookup_insert_ne]. }
  assert (forall c, c <> n -> z_of (<[n := N]> d) c = z_of d c) as Hz by (intros c Hcn; unfold z_of; by rewrite lookup_insert_ne).
  split.
  - intros c. destruct (decide (c = n)) as [->|]; [|rewrite Hz by done; apply W]. unfold z_of. by rewrite lookup_insert_eq.
  - intros p c. rewrite Hc, Hpar. apply W.
  - intros p. rewrite Hc. apply W.
  - rewrite Hc. pose proof (wp_order _ W) as Hs. specialize (Hno w). clear -Hs Hno Hz.
    induction Hs as [|c l _ IH Hall]; constructor; [apply IH; set_solver|].
    apply Forall_forall. intros x Hx. unfold below. rewrite !Hz by set_solver. by eapply Forall_forall in Hall.
  - intros P c HP Ha Hcp. destruct (decide (c = n)) as [->|Hcn].
    { exfalso. apply (Hno w). rewrite <- Hc. unfold childNodes. by rewrite HP. }
    rewrite Hz by done. destruct (decide (n = w)) as [E|]; [|rewrite lookup_insert_ne in HP by done; by eapply (wp_marked _ W)].
    rewrite <- E, lookup_insert_eq in HP. injection HP as <-. intros Hzc. rewrite Hch in Hcp.
    destruct Hm as [Hm|[Hm|[Hm|[Hm Hd]]]]; [done | rewrite Hm in Hcp; by apply elem_of_nil in Hcp | congruence |].
    apply fmap_Some in Hm as (M & EM & ->). rewrite EM in Hd. injection Hd as Hd.
    unfold childNodes in Hcp. rewrite EM in Hcp. apply (wp_marked _ W M c); [by rewrite <- E | done..].
  - destruct (wp_box _ W) as (B & HB & Ha). destruct (decide (n = 0%nat)) as [->|].
    + exists N. rewrite lookup_insert_eq. auto.
    + exists B. by rewrite lookup_insert_ne.
Qed.

Lemma well_placed_empty n d : well_placed d -> well_placed (empty n d).
Proof.
  intros W. unfold empty.
  assert (forall l, NoDup l -> Forall (fun c => parentNode d c = Some n) l ->
    well_placed (foldr (removeChild n) d l) /\ forall c, c ∉ l -> parentNode (foldr (removeChild n) d l) c = parentNode d c) as H.
  { induction l as [|c l IH]; intros Hd Hl; [done|]. inversion Hd; inversion Hl; subst.
    destruct IH as [IHW IHp]; [done|done|]. cbn. split.
    - apply well_placed_removeChild; [by rewrite IHp | done].
    - intros x Hx. rewrite removeChild_parent, decide_False by set_solver. apply IHp. set_solver. }
  apply H; [apply W|]. apply Forall_forall. intros c Hc. by apply (wp_links _ W).
Qed.

Lemma alter_absent f n (d : doc) : d !! n = None -> alter f n d = d.
Proof.
  intros H. apply map_eq. intros i. destruct (decide (i = n)) as [->|].
  - by rewrite lookup_alter_eq, H.
  - by rewrite lookup_alter_ne.
Qed.
Lemma alter_present f n N (d : doc) : d !! n = Some N -> alter f n d = <[n := f N]> d.
Proof.
  intros H. apply map_eq. intros i. destruct (decide (i = n)) as [->|].
  - by rewrite lookup_alter_eq, lookup_insert_eq, H.
  - by rewrite lookup_alter_ne, lookup_insert_ne.
Qed.

Lemma well_placed_set_z n z d : parentNode d n <> Some w -> readable (Some z) -> well_placed d -> well_placed (set_z n z d).
Proof.
  intros Hp Hr W. unfold set_z.
  assert (forall c, c <> n -> z_of (alter (with_z (Some z)) n d) c = z_of d c) as Hz by (intros c Hc; unfold z_of; by rewrite lookup_alter_ne).
  assert (n ∉ childNodes d w) as Hn by (intros H%(wp_links _ W); done).
  split.
  - intros c. destruct (decide (c = n)) as [->|]; [|rewrite Hz by done; apply W].
    unfold z_of. rewrite lookup_alter_eq. by destruct (d !! n).
  - intros p c. rewrite childNodes_alter, parentNode_alter by done. apply W.
  - intros p. rewrite childNodes_alter by done. apply W.
  - rewrite childNodes_alter by done. pose proof (wp_order _ W) as Hs. revert Hs Hn. generalize (childNodes d w) as l.
    induction 1 as [|c l _ IH Hall]; intros Hn; constructor; [apply IH; set_solver|].
    apply Forall_forall. intros x Hx. unfold below. rewrite !Hz by set_solver. by eapply Forall_forall in Hall.
  - intros P c HP Ha Hc Hzc. assert (c ∈ childNodes d w) as Hcw.
    { rewrite <- (childNodes_alter (with_z (Some z)) n d w) by done. unfold childNodes. by rewrite HP. }
    rewrite Hz in Hzc by (intros ->; done). destruct (decide (w = n)) as [E|].
    + rewrite <- E, lookup_alter_eq in HP. destruct (d !! w) as [M|] eqn:EM; [|done]. injection HP as <-.
      by apply (wp_marked _ W M c).
    + rewrite lookup_alter_ne in HP by done. by apply (wp_marked _ W P c).
  - destruct (wp_box _ W) as (B & HB & Ha). destruct (decide (n = 0%nat)) as [->|].
    + exists (with_z (Some z) B). by rewrite lookup_alter_eq, HB.
    + exists B. by rewrite lookup_alter_ne.
Qed.

Lemma parent_present n p d : well_placed d -> parentNode d n = Some p -> is_Some (d !! n) /\ is_Some (d !! p).
Proof.
  intros W H. split; [unfold parentNode in H; destruct (d !! n); [by eexists | done]|].
  apply (wp_links _ W) in H. unfold childNodes in H. destruct (d !! p); [by eexists | by apply elem_of_nil in H].
Qed.
Lemma well_placed_toFront n d d' : parentNode d n <> Some w -> toFront n d = Ok d' -> well_placed d -> well_placed d'.
Proof.
  intros Hw H W. unfold toFront in H. destruct (parentNode d n) as [p|] eqn:Ep; [|done]. injection H as <-.
  destruct (parent_present n p d W Ep) as [Hn Hp].
  destruct (inserted d n p None (without n (childNodes d p)) []) as [H _]; rewrite ?app_nil_r; try done.
  intros ->. congruence.
Qed.

Lemma well_placed_destroy n d d' : n <> 0%nat -> destroy n d = Ok d' -> well_placed d -> well_placed d'.
Proof.
  intros H0 H W. unfold destroy in H. destruct (d !! n) as [N|] eqn:EN; [|done]. destruct (n_alive N); [|done].
  injection H as <-. destruct (well_placed_safeRemoveChild n d W) as (W' & Hs & _ & Hp).
  destruct (safeRemoveChild n d !! n) as [M|] eqn:EM; [|by rewrite alter_absent].
  rewrite (alter_present _ _ _ _ EM). apply well_placed_outside; try done.
  - rewrite Hp. by rewrite decide_True.
  - pose proof (wp_z _ W' n) as Hr. unfold z_of in Hr. by rewrite EM in Hr.
  - cbn. unfold childNodes. by rewrite EM.
  - by right; right; left.
Qed.

Lemma well_placed_step d d' : step d d' -> well_placed d -> well_placed d'.
Proof.
  intros [n z Hn Hz | n z Hp Hz | n parent d2 H0 Hw _ Ha | n d2 Hp Hf | n | n d2 H0 Hd] W.
  - assert (childNodes d n = []) as Hc by (unfold childNodes; by rewrite Hn).
    apply well_placed_outside; try done; [unfold parentNode; by rewrite Hn | by right; left].
  - by apply well_placed_set_z.
  - by apply (add_places d n parent).
  - by eapply well_placed_toFront.
  - by apply well_placed_empty.
  - by eapply well_placed_destroy.
Qed.

Lemma well_placed_reachable d : rtc step blank d -> well_placed d.
Proof.
  assert (forall a, rtc step a d -> well_placed a -> well_placed d) as H.
  { intros a Ha. induction Ha as [|x y z Hxy _ IH]; [done|]. intros Wx. by eapply IH, well_placed_step. }
  intros. by eapply H, well_placed_blank.
Qed.
End watched.

(** C23: However elements are created, given a number as zIndex, added, added again
    elsewhere, put in front, emptied and destroyed: the children of every element in which
    nothing was put in front or given another zIndex, and to which all was added by its
    wrapper, stand in the order of their zIndex, those without one first.  What is added to
    its wrapper leaves its old place and comes behind all that are not to be above it and
    before all that are. *)
Theorem add_in_order w d n parent :
  rtc (step w) blank d -> n <> 0%nat -> n_alive <$> d !! n = Some true -> (container d parent = w -> wrapper_of d parent) ->
  ~ rtc (fun a b => parentNode d a = Some b) (container d parent) n ->
  exists d' l1 l2, add n parent d = Ok d' /\
    childNodes d' (container d parent) = l1 ++ n :: l2 /\
    without n (childNodes d (container d parent)) = l1 ++ l2 /\
    (container d parent = w -> Forall (fun c => below d c n) l1 /\ Forall (fun c => ~ below d c n) l2) /\
    (forall q, q <> container d parent -> childNodes d' q = without n (childNodes d q)) /\
    StronglySorted (below d) (childNodes d w) /\ StronglySorted (below d) (childNodes d' w).
Proof.
  intros W%well_placed_reachable _ Ha Hw _. apply fmap_Some in Ha as (N & EN & Ea).
  assert (exists d', add n parent d = Ok d') as [d' Hd] by (unfold add; rewrite EN, <- Ea; by eexists).
  destruct (add_places w d n parent d' W Hw Hd) as (W' & Hz & l1 & l2 & H1 & H2 & H3 & H4).
  exists d', l1, l2. split_and!; try done; [apply (wp_order _ _ W)|]. eapply StronglySorted_mono; [|apply (wp_order _ _ W')].
  intros a b. unfold below. by rewrite !Hz.
Qed.

(** ** Examples *)

(** Elements added to the box one after the other: 1 without zIndex, 2 with 7, 3 with 3. *)
Definition grow (d : doc) (n : nat) (z : option string) : doc :=
  match add n NoParent (create n z d) with Ok d => d | Throw _ => d end.
Definition demo : doc := grow (grow (grow blank 1 None) 2 (Some "7"%string)) 3 (Some "3"%string).
Example demo_order : childNodes demo 0 = [1; 3; 2]%nat.
Proof. vm_compute. reflexivity. Qed.

Lemma grow_reachable w d n z :
  rtc (step w) blank d -> d !! n = None -> n <> 0%nat -> readable z -> parentNode d 0 = None -> rtc (step w) blank (grow d n z).
Proof.
  intros Hr Hn H0 Hz Hp. unfold grow. destruct (add n NoParent (create n z d)) as [d'|] eqn:Ha; [|done].
  eapply rtc_r; [eapply rtc_r; [exact Hr | by apply (Creates _ d n z)]|].
  apply (Adds _ _ n NoParent); try done. cbn. intros Hrt. inversion Hrt as [|? ? ? E]; [congruence|].
  unfold parentNode, create in E. rewrite lookup_insert_ne in E by done. unfold parentNode in Hp. congruence.
Qed.

Lemma add_in_order_witness :
  rtc (step 0) blank (create 4 (Some "3"%string) demo) /\
  exists d' l1 l2, add 4 NoParent (create 4 (Some "3"%string) demo) = Ok d' /\ childNodes d' 0 = l1 ++ 4%nat :: l2 /\
    l1 ++ l2 = [1; 3; 2]%nat.
Proof.
  assert (rtc (step 0) blank (create 4 (Some "3"%string) demo)) as Hr.
  { eapply rtc_r; [|by apply Creates; [vm_compute | eexists]].
    unfold demo. repeat first [apply rtc_refl | apply grow_reachable]; try done; by eexists. }
  split; [done|].
  destruct (add_in_order 0 (create 4 (Some "3"%string) demo) 4 NoParent Hr ltac:(done) ltac:(vm_compute; reflexivity) (fun _ => I)) as
    (d' & l1 & l2 & H1 & H2 & H3 & _).
  - intros Hrt. inversion Hrt as [|? ? ? E]. vm_compute in E. discriminate E.
  - exists d', l1, l2. split; [exact H1|]. split; [exact H2|]. rewrite <- H3. vm_compute. reflexivity.
Defined.

(** An element given as a parent, which the documentation allows, is not one: what is added
    to it goes into the box. *)
Example element_is_no_parent :
  match add 4 (ToElement 1) (create 4 None demo) with
  | Ok d => (childNodes d 1, childNodes d 0) = ([], [1; 3; 2; 4]%nat)
  | Throw _ => False
  end.
Proof. vm_compute. reflexivity. Qed.

(** Why the watched container is left alone: a zIndex that is set later moves nothing, 1
    stays below 3 and 2, and what is added then is placed before it; and what is put in
    front stays there. *)
Example raised_later_stays :
  match add 4 NoParent (create 4 (Some "8"%string) (set_z 1 "9" demo)) with
  | Ok d => childNodes d 0 = [4; 1; 3; 2]%nat
  | Throw _ => False
  end.
Proof. vm_compute. reflexivity. Qed.
Example put_in_front :
  match toFront 1 demo with Ok d => childNodes d 0 = [3; 2; 1]%nat | Throw _ => False end.
Proof. vm_compute. reflexivity. Qed.

(** What was destroyed is no parent either, and is not destroyed again. *)
Example destroyed_is_no_parent :
  match destroy 1 demo with
  | Ok d =>
      match add 4 (ToWrapper 1) (create 4 None d) with
      | Ok d => childNodes d 0 = [3; 2; 4]%nat /\ destroy 1 d = Throw TypeError
      | Throw _ => False
      end
  | Throw _ => False
  end.
Proof. vm_compute. split; reflexivity. Qed.
