(* ===== verification/HsElement.v ===== *)
(** * Charts: elements and their attributes

    [highstock.src.js]: [SVGElement] (attributes, styles, transforms, crisp edges, symbols,
    shadows), the shapes of the renderer, its symbols and colours.

    An element is the wrapper with its element of the document: the attributes that were
    set, what the wrapper records, and the texts that were built.  Numbers are rational;
    the text of a number stands for itself, and [None] is [undefined] or [null]. *)

From stdpp Require Import gmap strings sorting.
From Stdlib Require Import QArith Qabs Qminmax Qround Ascii Lqa.
From S2P Require Import Prelude JsString HsAxis HsScale HsText HsLegend HsPath.
Local Open Scope list_scope.
Local Open Scope Z_scope.

(** ** Values *)

(** What [updateTransform] writes. [None] is [NaN]. *)
Inductive move := Translate (x y : option Q) | Flip | Turn (angle : Q) (x y : option Q).

Inductive aval :=
| ANum (x : Q) | ANaN | AText (s : string)
| APath (p : list token)               (* the array of a path *)
| APaint (gradient : nat)              (* a gradient configuration *)
| AUrl (id : nat)                      (* the address of an element *)
| AColour (c : color_text)
| AMoves (l : list move)
| ADashes (l : list (option Q))
| AStyles (l : list (string * string)).

Notation attribs := (gmap string aval).
Notation hash := (list (string * option aval)).

(** [wrapper[key] || 0], for members that are numbers or missing. *)
Definition num_of (v : option aval) : option Q := match v with Some (ANum x) => Some x | _ => None end.
Definition or_zero (v : option aval) : Q := default 0%Q (num_of v).
Definition truthy_q (x : option Q) : bool := match x with Some q => negb (Qeq_bool q 0) | None => false end.

(** [parseInt] of a number cuts off, that of a text reads. *)
Definition cut (x : Q) : Q := inject_Z (Z.quot (Qnum x) (Zpos (Qden x))).
Definition pInt (v : option aval) : option Q :=
  match v with
  | Some (ANum x) => Some (cut x)
  | Some (AText s) => inject_Z <$> parseInt s
  | _ => None
  end.
Definition to_aval (x : option Q) : aval := match x with Some q => ANum q | None => ANaN end.
(** A decimal text, and [parseFloat]. *)
Definition ten_power (e : Z) : Q := if e <? 0 then (1 / inject_Z (10 ^ (- e)))%Q else inject_Z (10 ^ e).
Definition parseFloat (v : option aval) : option Q :=
  match v with
  | Some (ANum x) => Some x
  | Some (AText s) => '(m, e, _) ← take_numeral (trim_left s); Some (inject_Z m * ten_power e)%Q
  | _ => None
  end.

(** ** Elements *)

Record shadow := Shadow { sh_attrs : attribs; sh_cut : option Q }.
Record elem := Elem {
  el_name : string;                     (* nodeName *)
  el_dom : attribs;                     (* the attributes of the element *)
  el_own : attribs;                     (* the members of the wrapper *)
  el_lines : list attribs;              (* the tspans of a text *)
  el_title : option aval;               (* the title subnode *)
  el_symbolName : option string;
  el_shadows : list shadow;
  el_radial : option (Q * Q * Q);       (* radialReference *)
  el_inverted : bool;
  el_added : bool;
  el_text : option aval;                (* textStr *)
  el_built : option aval;               (* what buildText built last *)
  el_styles : list (string * string)
}.
Definition new_element (name : string) : elem :=
  Elem name ∅ ∅ [] None None [] None false false None None [].

Definition with_dom a (e : elem) := Elem (el_name e) a (el_own e) (el_lines e) (el_title e) (el_symbolName e) (el_shadows e) (el_radial e) (el_inverted e) (el_added e) (el_text e) (el_built e) (el_styles e).
Definition with_own a (e : elem) := Elem (el_name e) (el_dom e) a (el_lines e) (el_title e) (el_symbolName e) (el_shadows e) (el_radial e) (el_inverted e) (el_added e) (el_text e) (el_built e) (el_styles e).
Definition with_lines l (e : elem) := Elem (el_name e) (el_dom e) (el_own e) l (el_title e) (el_symbolName e) (el_shadows e) (el_radial e) (el_inverted e) (el_added e) (el_text e) (el_built e) (el_styles e).
Definition with_title t (e : elem) := Elem (el_name e) (el_dom e) (el_own e) (el_lines e) t (el_symbolName e) (el_shadows e) (el_radial e) (el_inverted e) (el_added e) (el_text e) (el_built e) (el_styles e).
Definition with_symbolName s (e : elem) := Elem (el_name e) (el_dom e) (el_own e) (el_lines e) (el_title e) s (el_shadows e) (el_radial e) (el_inverted e) (el_added e) (el_text e) (el_built e) (el_styles e).
Definition with_shadows l (e : elem) := Elem (el_name e) (el_dom e) (el_own e) (el_lines e) (el_title e) (el_symbolName e) l (el_radial e) (el_inverted e) (el_added e) (el_text e) (el_built e) (el_styles e).
Definition with_radial r (e : elem) := Elem (el_name e) (el_dom e) (el_own e) (el_lines e) (el_title e) (el_symbolName e) (el_shadows e) r (el_inverted e) (el_added e) (el_text e) (el_built e) (el_styles e).
Definition with_inverted b (e : elem) := Elem (el_name e) (el_dom e) (el_own e) (el_lines e) (el_title e) (el_symbolName e) (el_shadows e) (el_radial e) b (el_added e) (el_text e) (el_built e) (el_styles e).
Definition with_added b (e : elem) := Elem (el_name e) (el_dom e) (el_own e) (el_lines e) (el_title e) (el_symbolName e) (el_shadows e) (el_radial e) (el_inverted e) b (el_text e) (el_built e) (el_styles e).
Definition with_text t (e : elem) := Elem (el_name e) (el_dom e) (el_own e) (el_lines e) (el_title e) (el_symbolName e) (el_shadows e) (el_radial e) (el_inverted e) (el_added e) t (el_built e) (el_styles e).
Definition with_built t (e : elem) := Elem (el_name e) (el_dom e) (el_own e) (el_lines e) (el_title e) (el_symbolName e) (el_shadows e) (el_radial e) (el_inverted e) (el_added e) (el_text e) t (el_styles e).
Definition with_styles s (e : elem) := Elem (el_name e) (el_dom e) (el_own e) (el_lines e) (el_title e) (el_symbolName e) (el_shadows e) (el_radial e) (el_inverted e) (el_added e) (el_text e) (el_built e) s.

(** The helper [attr(elem, prop, value)]: what is not there is not set. *)
Definition set_attr (k : string) (v : option aval) (a : attribs) : attribs :=
  match v with Some x => <[k := x]> a | None => a end.
Definition set_dom (k : string) (v : option aval) (e : elem) : elem := with_dom (set_attr k v (el_dom e)) e.
(** [wrapper[key] = value] *)
Definition set_own (k : string) (v : option aval) (e : elem) : elem := with_own (partial_alter (fun _ => v) k (el_own e)) e.

(** [attr(key)] as a getter; the texts of paths and visibilities are not read. *)
Definition truthy_a (v : option aval) : bool :=
  match v with
  | Some (ANum x) => negb (Qeq_bool x 0)
  | Some (AText s) => negb (String.eqb s "")
  | Some ANaN | None => false
  | Some _ => true
  end.
Definition own_key (e : elem) (key : string) : string :=
  if String.eqb (el_name e) "circle" then
    (if String.eqb key "x" then "cx" else if String.eqb key "y" then "cy" else key)
  else if String.eqb key "strokeWidth" then "stroke-width" else key.
(** An attribute is a text: only the empty one counts as missing. *)
Definition attr_raw (e : elem) (key : string) : option aval :=
  match el_dom e !! key with
  | Some (AText s) => if String.eqb s "" then None else Some (AText s)
  | v => v
  end.
Definition attr_get (e : elem) (key : string) : aval :=
  let key := own_key e key in
  let v := match attr_raw e key with
           | Some v => v
           | None => if truthy_a (el_own e !! key) then default (ANum 0) (el_own e !! key) else ANum 0
           end in
  if String.eqb key "d" || String.eqb key "visibility" then v else to_aval (parseFloat (Some v)).

(** ** Transforms *)

Definition updateTransform (e : elem) : elem :=
  let inv (k : string) (t : Q) : option Q :=
    if el_inverted e then Qplus t <$> num_of (Some (attr_get e k)) else Some t in
  let translateX := inv "width"%string (or_zero (el_own e !! "translateX"%string)) in
  let translateY := inv "height"%string (or_zero (el_own e !! "translateY"%string)) in
  let rotation := or_zero (el_own e !! "rotation"%string) in
  let shift := if truthy_q translateX || truthy_q translateY then [Translate translateX translateY] else [] in
  let turn :=
    if el_inverted e then [Flip]
    else if negb (Qeq_bool rotation 0)
    then [Turn rotation (Some (or_zero (el_own e !! "x"%string))) (Some (or_zero (el_own e !! "y"%string)))] else [] in
  match shift ++ turn with
  | [] => e
  | l => set_dom "transform" (Some (AMoves l)) e
  end.

(** ** Colours and gradients *)

Record gradient := Gradient {
  gr_radial : bool;
  gr_array : option (Q * Q * Q * Q);       (* the old form, an array *)
  gr_attr : attribs;
  gr_id : option nat;
  gr_stops : list (Q * string)
}.
Record stop := Stop { st_offset : Q; st_color : color_text; st_opacity : option color_text }.
(** The configurations, which the options own; the gradients the renderer made; [idCounter]. *)
Record palette := Palette {
  pa_options : gmap nat gradient; pa_made : gmap nat (string * attribs * list stop); pa_next : nat
}.

Definition is_rgba (s : string) : bool := String.prefix "rgba" s.
Definition make_stop (s : Q * string) : stop :=
  if is_rgba s.2 then Stop s.1 (get FRgb (Color s.2)) (Some (get FA (Color s.2))) else Stop s.1 (CText s.2) None.
(** [(reference[i] - diameter / 2) + value * diameter] *)
Definition scaled (centre diameter : Q) (v : option aval) : option aval :=
  Some (to_aval ((fun q => (centre - diameter / 2) + q * diameter)%Q <$> num_of v)).
Definition radial_attr (ref : Q * Q * Q) (a : attribs) : attribs :=
  let '(x, y, d) := ref in
  set_attr "gradientUnits" (Some (AText "userSpaceOnUse"))
    (set_attr "r" (Some (to_aval ((fun q => q * d)%Q <$> num_of (a !! "r"%string))))
      (set_attr "cy" (scaled y d (a !! "cy"%string)) (set_attr "cx" (scaled x d (a !! "cx"%string)) a))).
Definition array_attr (g : Q * Q * Q * Q) : attribs :=
  let '(x1, y1, x2, y2) := g in
  <["x1" := ANum x1]> (<["y1" := ANum y1]> (<["x2" := ANum x2]> (<["y2" := ANum y2]>
    {["gradientUnits"%string := AText "userSpaceOnUse"]})))%string.

(** A gradient is made once for each configuration and kept under the id it gets. *)
Definition paint (r : nat) (radialReference : option (Q * Q * Q)) (p : palette) : option aval * palette :=
  match pa_options p !! r with
  | None => (Some (APaint r), p)
  | Some g =>
      match gr_id g ≫= (fun id => (fun m => (id, m)) <$> pa_made p !! id) with
      | Some (id, _) => (Some (AUrl id), p)
      | None =>
          let a := match gr_array g with Some l => array_attr l | None => gr_attr g end in
          let a := match radialReference, gr_radial g, a !! "gradientUnits"%string with
                   | Some ref, true, None => radial_attr ref a
                   | _, _, _ => a
                   end in
          let id := pa_next p in
          (Some (AUrl id),
           Palette (<[r := Gradient (gr_radial g) None a (Some id) (gr_stops g)]> (pa_options p))
             (<[id := ((if gr_radial g then "radialGradient" else "linearGradient")%string, a, make_stop <$> gr_stops g)]> (pa_made p))
             (S id))
      end
  end.

(** [renderer.color(color, elem, prop)]: browsers that cannot show rgba get two attributes. *)
Definition color (v : option aval) (prop : string) (e : elem) (p : palette) : option aval * elem * palette :=
  let opacity := (prop ++ "-opacity")%string in
  match v with
  | Some (APaint r) => let '(v, p) := paint r (el_radial e) p in (v, e, p)
  | Some (AText s) =>
      if is_rgba s then
        (Some (match get FRgb (Color s) with CText t => AText t | c => AColour c end),
         set_dom opacity (Some (AColour (get FA (Color s)))) e, p)
      else (v, with_dom (delete opacity (el_dom e)) e, p)
  | _ => (v, with_dom (delete opacity (el_dom e)) e, p)
  end.

(** ** Dashes *)

Fixpoint replace_dots (s : string) : string :=
  match s with
  | String "d"%char (String "o"%char (String "t"%char r)) => ("1,3," ++ replace_dots r)%string
  | String c r => String c (replace_dots r)
  | EmptyString => EmptyString
  end.
Fixpoint drop_last_comma (s : string) : string :=
  match s with
  | String ","%char EmptyString => EmptyString
  | String c r => String c (drop_last_comma r)
  | EmptyString => EmptyString
  end.
Definition dash_text (s : string) : string :=
  drop_last_comma (js_replace "dash" "4,3," (replace_dots (js_replace "longdash" "8,3," (js_replace "shortdash" "3,1,"
    (js_replace "shortdot" "1,1," (js_replace "shortdashdot" "3,1,1,1" (js_replace "shortdashdotdot" "3,1,1,1,1,1," s))))))).
(** [strokeWidth] is the one set in the same call; without it the lengths are [NaN]. *)
Definition dashes (strokeWidth : option Q) (s : string) : list (option Q) :=
  (fun t => n ← parseInt t; w ← strokeWidth; Some (inject_Z n * w)%Q) <$> split_on ","%char (dash_text s).
Definition dashstyle (strokeWidth : option Q) (v : option aval) : option aval :=
  match v with
  | Some (AText s) =>
      let s := lower s in
      if String.eqb s "solid" then Some (AText "none")
      else if String.eqb s "" then v else Some (ADashes (dashes strokeWidth s))
  | v => v
  end.

(** ** Paths and symbols *)

(** What joins to nothing. *)
Definition is_blank (t : token) : bool :=
  match t with Undefined => true | Letter s => String.eqb s "" | Number _ => false end.
(** [/(NaN| {2}|^$)/] of the joined path: letters are commands, so there are two spaces
    around an inner blank only. *)
Definition bad_path (p : list token) : bool :=
  match p with
  | [] => true
  | [t] => is_blank t
  | _ :: l => existsb is_blank (removelast l)
  end.
Definition bad_text (s : string) : bool :=
  String.eqb s "" || (0 <=? indexOf "NaN" s) || (0 <=? indexOf "  " s).
Definition nowhere : aval := AText "M 0 0".
Definition path_value (v : option aval) : option aval :=
  match v with
  | Some (APath p) => if bad_path p then Some nowhere else v
  | Some (AText s) => if bad_text s then Some nowhere else v
  | v => v
  end.

Definition num_token (x : option Q) : token := match x with Some q => Number q | None => Undefined end.
Definition tokens (l : list (string + option Q)) : list token :=
  (fun t => match t with inl s => Letter s | inr x => num_token x end) <$> l.
Definition lift (f : Q -> Q -> Q) (x y : option Q) : option Q := a ← x; b ← y; Some (f a b).
Notation "x '+?' y" := (lift Qplus x y) (at level 50, left associativity).
Notation "x '-?' y" := (lift Qminus x y) (at level 50, left associativity).
Notation "x '*?' y" := (lift Qmult x y) (at level 40, left associativity).
Definition half (x : option Q) : option Q := (fun q => q / 2)%Q <$> x.
Definition or_opt (x y : option Q) : option Q := if truthy_q x then x else y.

Section symbols.
Context (cos sin : Q -> Q) (pi : Q).

Definition shape_path (square : bool) (x y w h : option Q) : list (string + option Q) :=
  if square then
    [inl "M"; inr x; inr y; inl "L"; inr (x +? w); inr y; inr (x +? w); inr (y +? h); inr x; inr (y +? h); inl "Z"]%string
  else
    let cpw := Some (166 # 1000)%Q *? w in
    [inl "M"; inr (x +? half w); inr y;
     inl "C"; inr (x +? w +? cpw); inr y; inr (x +? w +? cpw); inr (y +? h); inr (x +? half w); inr (y +? h);
     inl "C"; inr (x -? cpw); inr (y +? h); inr (x -? cpw); inr y; inr (x +? half w); inr y; inl "Z"]%string.
Definition pin_path (square : bool) (x y w h : option Q) (anchorX anchorY : option Q) : list (string + option Q) :=
  shape_path square x y w h ++
  (if truthy_q anchorX && truthy_q anchorY
   then [inl "M"; inr anchorX; inr (y +? h); inl "L"; inr anchorX; inr anchorY]%string else []).

(** [symbols]; [option] is what the last argument has. *)
Definition symbol_path (name : string) (x y w h : option Q) (option_ : string -> option Q) (open : bool) :
    option (list (string + option Q)) :=
  if String.eqb name "circle" then Some (shape_path false x y w h)
  else if String.eqb name "square" then Some (shape_path true x y w h)
  else if String.eqb name "triangle" then
    Some [inl "M"; inr (x +? half w); inr y; inl "L"; inr (x +? w); inr (y +? h); inr x; inr (y +? h); inl "Z"]%string
  else if String.eqb name "triangle-down" then
    Some [inl "M"; inr x; inr y; inl "L"; inr (x +? w); inr y; inr (x +? half w); inr (y +? h); inl "Z"]%string
  else if String.eqb name "diamond" then
    Some [inl "M"; inr (x +? half w); inr y; inl "L"; inr (x +? w); inr (y +? half h);
          inr (x +? half w); inr (y +? h); inr x; inr (y +? half h); inl "Z"]%string
  else if String.eqb name "flag" then
    let anchorX := or_opt (option_ "anchorX"%string) x in
    let anchorY := or_opt (option_ "anchorY"%string) y in
    Some [inl "M"; inr anchorX; inr anchorY; inl "L"; inr x; inr (y +? h); inr x; inr y; inr (x +? w); inr y;
          inr (x +? w); inr (y +? h); inr x; inr (y +? h); inl "M"; inr anchorX; inr anchorY; inl "Z"]%string
  else if String.eqb name "circlepin" then Some (pin_path false x y w h (option_ "anchorX"%string) (option_ "anchorY"%string))
  else if String.eqb name "squarepin" then Some (pin_path true x y w h (option_ "anchorX"%string) (option_ "anchorY"%string))
  else if String.eqb name "arc" then
    let start := option_ "start"%string in
    let radius := or_opt (or_opt (option_ "r"%string) w) h in
    let end_ := option_ "end"%string -? Some (1 # 1000000)%Q in
    let inner := option_ "innerR"%string in
    let cosStart := cos <$> start in let sinStart := sin <$> start in
    let cosEnd := cos <$> end_ in let sinEnd := sin <$> end_ in
    let longArc := match option_ "end"%string -? start with Some d => if Qlt_le_dec d pi then 0%Q else 1%Q | None => 1%Q end in
    Some [inl "M"; inr (x +? radius *? cosStart); inr (y +? radius *? sinStart);
          inl "A"; inr radius; inr radius; inr (Some 0%Q); inr (Some longArc); inr (Some 1%Q);
          inr (x +? radius *? cosEnd); inr (y +? radius *? sinEnd);
          inl (if open then "M" else "L"); inr (x +? inner *? cosEnd); inr (y +? inner *? sinEnd);
          inl "A"; inr inner; inr inner; inr (Some 0%Q); inr (Some longArc); inr (Some 0%Q);
          inr (x +? inner *? cosStart); inr (y +? inner *? sinStart); inl (if open then "" else "Z")]%string
  else None.
End symbols.

(** ** [attr] *)

Section attr.
Context (cos sin : Q -> Q) (pi : Q) (isWebKit : bool).

(** The keys that a symbol is drawn from, by how they begin. *)
Definition symbol_keys : list string :=
  ["x"; "y"; "width"; "height"; "r"; "start"; "end"; "innerR"; "anchorX"; "anchorY"]%string.
Definition sizes_symbol (key : string) : bool := existsb (fun p => String.prefix p key) symbol_keys.
Definition follows (key : string) : bool :=
  bool_decide (key ∈ ["width"; "height"; "visibility"; "x"; "y"; "d"; "transform"]%string).

(** The text of a number is compared as a number. *)
Definition is_negative (v : option aval) : bool :=
  match v with
  | Some (ANum x) => if Qlt_le_dec x 0 then true else false
  | Some (AText s) => match parseFloat v with Some x => if Qlt_le_dec x 0 then true else false | None => false end
  | _ => false
  end.
Definition shadow_value (key : string) (v : option aval) (s : shadow) : option aval :=
  if String.eqb key "height" then
    match v with Some (ANum h) => Some (ANum (Qmax (h - default 0%Q (sh_cut s)) 0)) | _ => Some ANaN end
  else v.

(** From the shadows on: what is the same for each attribute. *)
Definition finish (key : string) (v : option aval) (skip doTransform : bool) (e : elem) : elem :=
  let e := if follows key
           then with_shadows ((fun s => Shadow (set_attr key (shadow_value key v s) (sh_attrs s)) (sh_cut s)) <$> el_shadows e) e
           else e in
  let v := if (String.eqb key "width" || String.eqb key "height") && String.eqb (el_name e) "rect" && is_negative v
           then Some (ANum 0) else v in
  let e := set_own key v e in
  let e := if doTransform then updateTransform e else e in
  if String.eqb key "text" then
    let e := with_text v e in if el_added e then with_built v e else e
  else if skip then e else set_dom key v e.

Definition own_num (e : elem) (key : string) : option Q := num_of (el_own e !! key).
Definition get_hash (h : hash) (key : string) : option aval :=
  match list_find (fun p => p.1 = key) h with Some (_, p) => p.2 | None => None end.
Definition symbolAttr (h : hash) (name : string) (e : elem) : elem :=
  let e := foldl (fun e k => set_own k (match get_hash h k with Some v => Some v | None => el_own e !! k end) e) e symbol_keys in
  match symbol_path cos sin pi name (own_num e "x") (own_num e "y") (own_num e "width") (own_num e "height")
          (own_num e) (truthy_a (el_own e !! "open"%string)) with
  | Some p => finish "d" (path_value (Some (APath (tokens p)))) false false e
  | None => e
  end.

(** Children that stood where the text stood go with it. *)
Definition same_place (a b : option aval) : bool :=
  match a, b with
  | None, None => true
  | Some (ANum x), Some (ANum y) => Qeq_bool x y
  | Some (AText s), Some (AText t) => String.eqb s t
  | _, _ => false
  end.
Definition move_lines (v : option aval) (e : elem) : elem :=
  with_lines ((fun l => if same_place (l !! "x"%string) (el_dom e !! "x"%string) then set_attr "x" v l else l) <$> el_lines e) e.

Definition anchor_of (v : option aval) : option aval :=
  match v with
  | Some (AText s) =>
      if String.eqb s "left" then Some (AText "start")
      else if String.eqb s "center" then Some (AText "middle")
      else if String.eqb s "right" then Some (AText "end") else None
  | _ => None
  end.

(** What happens to one pair before [finish]: the key and value that go on, whether the
    attribute itself is left out and whether the transform is written anew. *)
Definition treat (h : hash) (key : string) (v : option aval) (e : elem) (p : palette) :
    string * option aval * bool * bool * elem * palette :=
  let at_key := String.eqb key in
  if at_key "d" then (key, path_value v, false, false, e, p)
  else if at_key "x" && String.eqb (el_name e) "text" then
    let e := move_lines v e in
    let rotation := or_zero (el_own e !! "rotation"%string) in
    let y := match get_hash h "y" with Some y => if truthy_a (Some y) then Some y else el_dom e !! "y"%string | None => el_dom e !! "y"%string end in
    (key, v, false, false,
     if Qeq_bool rotation 0 then e else set_dom "transform" (Some (AMoves [Turn rotation (num_of v) (pInt y)])) e, p)
  else if at_key "fill" then let '(v, e, p) := color v key e p in (key, v, false, false, e, p)
  else if String.eqb (el_name e) "circle" && (at_key "x" || at_key "y") then
    ((if at_key "x" then "cx" else "cy")%string, v, false, false, e, p)
  else if String.eqb (el_name e) "rect" && at_key "r" then
    (key, v, true, false, set_dom "ry" v (set_dom "rx" v e), p)
  else if at_key "translateX" || at_key "translateY" || at_key "rotation" || at_key "verticalAlign" then (key, v, true, true, e, p)
  else if at_key "stroke" then let '(v, e, p) := color v key e p in (key, v, false, false, e, p)
  else if at_key "dashstyle" then
    ("stroke-dasharray"%string, dashstyle (num_of (get_hash h "stroke-width")) v, false, false, e, p)
  else if at_key "isTracker" then (key, v, false, false, set_own key v e, p)
  else if at_key "width" then (key, Some (to_aval (pInt v)), false, false, e, p)
  else if at_key "align" then ("text-anchor"%string, anchor_of v, false, false, e, p)
  else if at_key "title" then (key, v, false, false, with_title v e, p)
  else (key, v, false, false, e, p).

Definition attr_one (h : hash) (kv : string * option aval) (st : elem * palette * bool) : elem * palette * bool :=
  let '(e, p, hasSetSymbolSize) := st in
  let '(key, v, skip, doTransform, e, p) := treat h kv.1 kv.2 e p in
  let key := if String.eqb key "strokeWidth" then "stroke-width"%string else key in
  let v := if isWebKit && String.eqb key "stroke-width" && match v with Some (ANum x) => Qeq_bool x 0 | _ => false end
           then Some (ANum (1 # 1000000)) else v in
  match el_symbolName e with
  | Some name =>
      if sizes_symbol key
      then (finish key v true doTransform (if hasSetSymbolSize then e else symbolAttr h name e), p, true)
      else (finish key v skip doTransform e, p, hasSetSymbolSize)
  | None => (finish key v skip doTransform e, p, hasSetSymbolSize)
  end.
Definition attr (h : hash) (e : elem) (p : palette) : elem * palette :=
  (foldl (fun st kv => attr_one h kv st) (e, p, false) h).1.

(** ** What is built on [attr] *)

Definition translate (x y : Q) : elem -> palette -> elem * palette :=
  attr [("translateX", Some (ANum x)); ("translateY", Some (ANum y))]%string.
Definition show : elem -> palette -> elem * palette := attr [("visibility", Some (AText "visible"))]%string.
Definition hide : elem -> palette -> elem * palette := attr [("visibility", Some (AText "hidden"))]%string.
Definition clip (id : nat) : elem -> palette -> elem * palette := attr [("clip-path", Some (AUrl id))]%string.
Definition invert (e : elem) : elem := updateTransform (with_inverted true e).
Definition setRadialReference (r : Q * Q * Q) (e : elem) : elem := with_radial (Some r) e.
(** [animate]: without an animation the attributes are set and the callback called; with
    one, they have their values when it ends. *)
Definition animate (h : hash) : elem -> palette -> elem * palette := attr h.

(** [on]: the touch screen takes a click for a touch. *)
Definition on (hasTouch : bool) (eventType : string) : string :=
  "on" ++ (if hasTouch && String.eqb eventType "click" then "touchstart" else eventType).

(** [crisp]; a number that is zero counts as not given. *)
Record crisp_values := CrispValues { cv_x : Q; cv_y : Q; cv_width : Q; cv_height : Q; cv_strokeWidth : Q }.
Definition js_mod (x : Q) (m : Z) : Q := (x - inject_Z (m * Z.quot (Qnum x) (Zpos (Qden x) * m)))%Q.
Definition normalizer (strokeWidth : Q) : Q := (inject_Z (Z.rem (mathRound strokeWidth) 2) / 2)%Q.
Definition first_truthy (l : list (option Q)) : Q := default 0%Q (head (filter (fun q => Qeq_bool q 0 = false) (omap id l))).
Definition crisp_of (e : elem) (strokeWidth x y width height : option Q) : crisp_values :=
  let s := first_truthy [strokeWidth; own_num e "strokeWidth"; num_of (Some (attr_get e "stroke-width"))] in
  let n := normalizer s in
  let floor a k := inject_Z (Qfloor (first_truthy [a; own_num e k])) in
  let floor_in a k := inject_Z (Qfloor (first_truthy [a; own_num e k] - 2 * n)) in
  CrispValues (floor x "x"%string + n)%Q (floor y "y"%string + n)%Q (floor_in width "width"%string) (floor_in height "height"%string) s.
Definition crisp_pairs (v : crisp_values) : list (string * Q) :=
  [("x", cv_x v); ("y", cv_y v); ("width", cv_width v); ("height", cv_height v); ("strokeWidth", cv_strokeWidth v)]%string.
(** Attributes that changed, and the wrapper that records them. *)
Definition crisp (strokeWidth x y width height : option Q) (e : elem) : hash * elem :=
  let changed := filter (fun p => match own_num e p.1 with Some q => Qeq_bool q p.2 | None => false end = false)
                   (crisp_pairs (crisp_of e strokeWidth x y width height)) in
  ((fun p => (p.1, Some (ANum p.2))) <$> changed, foldl (fun e p => set_own p.1 (Some (ANum p.2)) e) e changed).

(** [css], where style attributes can be set: [color] is [fill] as well, and the texts go
    into one attribute. *)
Fixpoint hyphenate (s : string) : string :=
  match s with
  | String c r =>
      let n := nat_of_ascii c in
      if (65 <=? n)%nat && (n <=? 90)%nat then String "-"%char (String (ascii_of_nat (n + 32)) (hyphenate r))
      else String c (hyphenate r)
  | EmptyString => EmptyString
  end.
Definition filled (styles : list (string * string)) : list (string * string) :=
  match truthy_str (oget "color" styles) with Some c => oset "fill" c styles | None => styles end.
Definition css (styles : list (string * string)) (e : elem) (p : palette) : elem * palette :=
  let textWidth := bool_decide (is_Some (truthy_str (oget "width" styles))) && String.eqb (el_name e) "text" in
  let styles := extend_obj (el_styles e) (filled styles) in
  let '(e, p) := attr [("style"%string, Some (AStyles ((fun s => (hyphenate s.1, s.2)) <$> styles)))] (with_styles styles e) p in
  (if textWidth && el_added e then with_built (el_text e) e else e, p).

(** ** Shapes *)

Definition path (p : list token) : palette -> elem * palette :=
  attr [("fill", Some (AText "none")); ("d", Some (APath p))]%string (new_element "path").
Definition circle (x y r : Q) : palette -> elem * palette :=
  attr [("x", Some (ANum x)); ("y", Some (ANum y)); ("r", Some (ANum r))]%string (new_element "circle").
Definition rect_ (x y width height : Q) (r strokeWidth : option Q) (p : palette) : elem * palette :=
  let '(e, p) := attr [("rx", ANum <$> r); ("ry", ANum <$> r); ("fill", Some (AText "none"))]%string (new_element "rect") p in
  let '(h, e) := crisp strokeWidth (Some x) (Some y) (Some (Qmax width 0)) (Some (Qmax height 0)) e in
  attr h e p.
Definition g (name : option string) (p : palette) : elem * palette :=
  match name with
  | Some n => attr [("class"%string, Some (AText ("highcharts-" ++ n)))] (new_element "g") p
  | None => (new_element "g", p)
  end.
(** [symbol], for the names that have a path; [options] become members of the wrapper. *)
Definition symbol (name : string) (x y width height : Q) (options : list (string * Q)) (p : palette) : option (elem * palette) :=
  t ← symbol_path cos sin pi name (Some (inject_Z (mathRound x))) (Some (inject_Z (mathRound y))) (Some width) (Some height)
        (fun k => oget k options) (truthy_q (oget "open" options));
  let '(e, p) := path (tokens t) p in
  Some (foldl (fun e kv => set_own kv.1 (Some (ANum kv.2)) e) (with_symbolName (Some name) e)
          ([("x", x); ("y", y); ("width", width); ("height", height)]%string ++ options), p).
Definition arc (x y r innerR start end_ : Q) : palette -> option (elem * palette) :=
  symbol "arc" x y r r [("innerR", innerR); ("start", start); ("end", end_)]%string.

(** [crispLine] of [M x1 y1 L x2 y2]. *)
Definition crispLine (width x1 y1 x2 y2 : Q) : Q * Q * Q * Q :=
  let at_ v := (inject_Z (mathRound v) + js_mod width 2 / 2)%Q in
  let '(x1, x2) := if Qeq_bool x1 x2 then (at_ x1, at_ x1) else (x1, x2) in
  let '(y1, y2) := if Qeq_bool y1 y2 then (at_ y1, at_ y1) else (y1, y2) in
  (x1, y1, x2, y2).

(** [shadow]: three copies, each wider and paler; [cutOff] shortens them. *)
Definition shadow_of (e : elem) (cutOff : bool) (i : Z) : shadow :=
  let strokeWidth := inject_Z (7 - 2 * i) in
  let a := <["isShadow" := AText "true"]> (<["stroke" := AText "rgb(0, 0, 0)"]>
           (<["stroke-opacity" := ANum ((5 # 100) * inject_Z i)]> (<["stroke-width" := ANum strokeWidth]>
           (<["transform" := AMoves [Translate (Some 1%Q) (Some 1%Q)]]> (<["fill" := AText "none"]> (el_dom e))))))%string in
  if cutOff
  then Shadow (<["height"%string := ANum (Qmax (or_zero (a !! "height"%string) - strokeWidth) 0)]> a) (Some strokeWidth)
  else Shadow a None.
Definition shadow_ (parentInverted apply cutOff : bool) (e : elem) : elem :=
  if apply then
    with_shadows ((fun s => if parentInverted
                            then Shadow (<["transform"%string := AMoves [Translate (Some (-1)%Q) (Some (-1)%Q)]]> (sh_attrs s)) (sh_cut s)
                            else s) <$> map (shadow_of e cutOff) [1; 2; 3]) e
  else e.

End attr.

(** ** Transforms move what they are to move *)

(** Where a transform puts a point; rotations of texts are left to the browser. *)
Definition move_point (m : move) (pt : Q * Q) : option (Q * Q) :=
  match m with
  | Translate (Some x) (Some y) => Some (pt.1 + x, pt.2 + y)%Q
  | Flip => Some (- pt.2, - pt.1)%Q
  | _ => None
  end.
Definition drawn_at (e : elem) (pt : Q * Q) : option (Q * Q) :=
  match el_dom e !! "transform"%string with
  | Some (AMoves l) => foldr (fun m pt => pt ← pt; move_point m pt) (Some pt) l
  | Some _ => None
  | None => Some pt
  end.
Definition same_point (a b : option (Q * Q)) : Prop :=
  match a, b with Some p, Some q => (p.1 == q.1)%Q /\ (p.2 == q.2)%Q | None, None => True | _, _ => False end.
Lemma same_point_refl a : same_point a a.
Proof. destruct a; cbn; [split; reflexivity | done]. Qed.

Section attr_facts.
Context (cos sin : Q -> Q) (pi : Q) (isWebKit : bool).
Notation attr := (attr cos sin pi isWebKit).
Notation translate := (translate cos sin pi isWebKit).

Definition unturned (e : elem) : Prop := or_zero (el_own e !! "rotation"%string) = 0%Q.

Lemma finish_transform key v e :
  String.eqb key "text" = false -> follows key = false ->
  String.eqb key "width" || String.eqb key "height" = false ->
  finish key v true true e = updateTransform (set_own key v e).
Proof. intros H1 H2 H3. unfold finish. rewrite H1, H2, H3. done. Qed.
Lemma attr_one_translate h k v e p b :
  k = "translateX"%string \/ k = "translateY"%string ->
  attr_one cos sin pi isWebKit h (k, v) (e, p, b) = (updateTransform (set_own k v e), p, b).
Proof.
  intros [-> | ->]; unfold attr_one; cbn -[finish updateTransform]; rewrite !andb_false_r; cbn -[finish updateTransform];
    (destruct (el_symbolName e); [cbn -[finish updateTransform]|]); by rewrite finish_transform.
Qed.
Lemma translate_updates x y e p :
  translate x y e p =
  (updateTransform (set_own "translateY" (Some (ANum y)) (updateTransform (set_own "translateX" (Some (ANum x)) e))), p).
Proof. unfold translate, HsElement.translate, HsElement.attr. cbn [foldl]. rewrite !attr_one_translate by auto. done. Qed.

(** What [updateTransform] reads is not what it writes. *)
Lemma updateTransform_eq e :
  el_own (updateTransform e) = el_own e /\ el_inverted (updateTransform e) = el_inverted e /\
  forall k, k <> "transform"%string -> el_dom (updateTransform e) !! k = el_dom e !! k.
Proof.
  unfold updateTransform. destruct (_ ++ _); [done|]. split_and!; [done | done|].
  intros k Hk. cbn. by rewrite lookup_insert_ne.
Qed.
Lemma set_own_lookup k v e k' : el_own (set_own k v e) !! k' = if decide (k' = k) then v else el_own e !! k'.
Proof. cbn. case_decide as H; [subst; by rewrite lookup_partial_alter_eq | by rewrite lookup_partial_alter_ne]. Qed.

(** An element that is not turned is drawn where it is moved to, unless it is moved home:
    then the last transform counts that was written. *)
Lemma translate_drawn x y e p pt :
  unturned e -> el_inverted e = false ->
  same_point (drawn_at (translate x y e p).1 pt)
    (if Qeq_bool x 0 && Qeq_bool y 0
     then drawn_at (updateTransform (set_own "translateX" (Some (ANum x)) e)) pt
     else Some (pt.1 + x, pt.2 + y)%Q).
Proof.
  intros Hr Hi. rewrite translate_updates. cbn [fst].
  set (e1 := updateTransform (set_own "translateX" (Some (ANum x)) e)).
  destruct (updateTransform_eq (set_own "translateX" (Some (ANum x)) e)) as (Ho & Hinv & _). fold e1 in Ho, Hinv.
  unfold updateTransform at 1. cbn [el_inverted set_own with_own]. rewrite Hinv. cbn [el_inverted set_own with_own]. rewrite Hi.
  rewrite !set_own_lookup, Ho, !set_own_lookup. unfold unturned in Hr.
  repeat first [rewrite decide_True by done | rewrite decide_False by done]. rewrite Hr. cbn [or_zero num_of default truthy_q].
  destruct (Qeq_bool x 0) eqn:Ex, (Qeq_bool y 0) eqn:Ey; cbn; rewrite ?Ex, ?Ey; cbn.
  - apply same_point_refl.
  - unfold drawn_at. cbn. rewrite lookup_insert_eq. cbn. split; reflexivity.
  - unfold drawn_at. cbn. rewrite lookup_insert_eq. cbn. split; reflexivity.
  - unfold drawn_at. cbn. rewrite lookup_insert_eq. cbn. split; reflexivity.
Qed.

(** An inverted group turns its plot over: what is at [(x, y)] of the one comes to
    [(width - y, height - x)] of the other, and stays inside. *)
Lemma invert_drawn e w h pt :
  attr_get e "width" = ANum w -> attr_get e "height" = ANum h ->
  let tx := or_zero (el_own e !! "translateX"%string) in
  let ty := or_zero (el_own e !! "translateY"%string) in
  same_point (drawn_at (invert e) pt) (Some (tx + w - pt.2, ty + h - pt.1)%Q).
Proof.
  intros Hw Hh tx ty. unfold invert, updateTransform.
  assert (forall k, attr_get (with_inverted true e) k = attr_get e k) as Hg by done.
  cbn [el_inverted with_inverted]. rewrite !Hg, Hw, Hh. cbn [num_of fmap option_fmap option_map].
  change (el_own (with_inverted true e)) with (el_own e). fold tx ty. cbn [truthy_q].
  destruct (Qeq_bool (tx + w) 0) eqn:Ex, (Qeq_bool (ty + h) 0) eqn:Ey; cbn;
    unfold drawn_at; cbn; rewrite lookup_insert_eq; cbn; try (split; ring).
  apply Qeq_bool_iff in Ex, Ey. rewrite Ex, Ey. split; ring.
Qed.

(** ** What is set is read back *)

(** Attributes that are not numbers, or not set under their own name, are left out; circles
    record the width of their line under a name they do not look for. *)
Definition read_keys : list string :=
  ["x"; "y"; "width"; "height"; "r"; "rotation"; "translateX"; "translateY"; "opacity"; "zIndex"; "strokeWidth"; "stroke-width"]%string.
(** Members that are not attributes of this element. *)
Definition members_apart (e : elem) : Prop :=
  (forall k, k ∈ ["rotation"; "translateX"; "translateY"; "strokeWidth"]%string -> el_dom e !! k = None) /\
  (el_name e = "rect"%string -> el_dom e !! "r"%string = None) /\
  (el_symbolName e <> None -> forall k, sizes_symbol k = true -> el_dom e !! k = None).
(** What a number is kept as: widths are cut to whole numbers, rectangles have no negative
    sizes, and in WebKit a line is never without width. *)
Definition no_negative (name key : string) (x : Q) : Q :=
  if (String.eqb key "width" || String.eqb key "height") && String.eqb name "rect" && is_negative (Some (ANum x)) then 0%Q else x.
Definition no_zero (key : string) (x : Q) : Q :=
  if isWebKit && String.eqb key "stroke-width" && Qeq_bool x 0 then (1 # 1000000)%Q else x.
Definition kept (name key : string) (x : Q) : Q := no_negative name key (no_zero key x).
Definition stored (name key : string) (x : Q) : Q :=
  if String.eqb key "width" then kept name key (cut x)
  else kept name (if String.eqb key "strokeWidth" then "stroke-width" else key)%string x.

Lemma updateTransform_name e : el_name (updateTransform e) = el_name e.
Proof. unfold updateTransform. by destruct (_ ++ _). Qed.
Lemma finish_name key v skip tr e : el_name (finish key v skip tr e) = el_name e.
Proof. unfold finish. cbn zeta. repeat case_match; cbn; rewrite ?updateTransform_name; done. Qed.
Lemma symbolAttr_other h n e :
  el_name (symbolAttr cos sin pi h n e) = el_name e /\
  forall k, k <> "d"%string -> el_dom (symbolAttr cos sin pi h n e) !! k = el_dom e !! k.
Proof.
  unfold symbolAttr. set (e1 := foldl _ e symbol_keys).
  assert (el_name e1 = el_name e /\ el_dom e1 = el_dom e) as [Hn Hd].
  { subst e1. generalize symbol_keys. intros l. revert e. induction l as [|k l IH]; intros e; [done|]. cbn [foldl].
    destruct (IH (set_own k match get_hash h k with Some v => Some v | None => el_own e !! k end e)) as [-> ->]. done. }
  destruct (symbol_path _ _ _ _ _ _ _ _ _ _) as [l|]; [|by rewrite Hn, Hd].
  generalize (path_value (Some (APath (tokens l)))). intros v. rewrite finish_name. split; [done|]. intros k Hk. unfold finish. cbn [follows String.eqb].
  rewrite <- Hd. cbn. unfold set_attr. destruct v; [|done]. by rewrite lookup_insert_ne.
Qed.

Lemma finish_own key x skip tr e :
  el_own (finish key (Some (ANum x)) skip tr e) !! key = Some (ANum (no_negative (el_name e) key x)).
Proof.
  unfold finish. cbn zeta.
  set (e1 := if follows key then _ else _). assert (el_name e1 = el_name e) as -> by (subst e1; by destruct (follows key)).
  assert ((if (String.eqb key "width" || String.eqb key "height") && String.eqb (el_name e) "rect" && is_negative (Some (ANum x))
           then Some (ANum 0) else Some (ANum x)) = Some (ANum (no_negative (el_name e) key x))) as ->
    by (unfold no_negative; by destruct (_ && is_negative _)).
  set (v := Some (ANum (no_negative _ _ _))).
  assert (forall e', el_own e' !! key = v ->
    el_own (if String.eqb key "text" then let e0 := with_text v e' in if el_added e0 then with_built v e0 else e0
            else if skip then e' else set_dom key v e') !! key = v) as H.
  { intros e' He'. destruct (String.eqb key "text"); [cbn; by destruct (el_added e') | by destruct skip]. }
  apply H. destruct tr; [rewrite (proj1 (updateTransform_eq _))|]; rewrite set_own_lookup; by rewrite decide_True.
Qed.
Lemma finish_dom key x tr e :
  key <> "text"%string ->
  el_dom (finish key (Some (ANum x)) false tr e) !! key = Some (ANum (no_negative (el_name e) key x)).
Proof.
  intros Ht. pose proof (finish_own key x false tr e) as H. revert H. unfold finish. cbn zeta.
  set (e1 := if follows key then _ else _). set (v := if _ && is_negative _ then Some (ANum 0) else Some (ANum x)).
  assert (String.eqb key "text" = false) as -> by by apply String.eqb_neq.
  intros Ho. cbn in Ho. assert (v = Some (ANum (no_negative (el_name e) key x))) as ->; [|cbn; by rewrite lookup_insert_eq].
  destruct tr; [rewrite (proj1 (updateTransform_eq _)) in Ho|]; rewrite set_own_lookup in Ho; by rewrite decide_True in Ho.
Qed.
Lemma finish_skip key v tr e k :
  key <> "text"%string -> k <> "transform"%string -> el_dom (finish key v true tr e) !! k = el_dom e !! k.
Proof.
  intros Ht%String.eqb_neq Hk. unfold finish. cbn zeta. rewrite Ht.
  destruct tr; [rewrite (proj2 (proj2 (updateTransform_eq _))) by done|]; cbn; by destruct (follows key).
Qed.

Lemma attr_get_dom e k x :
  el_dom e !! own_key e k = Some (ANum x) -> own_key e k <> "d"%string -> own_key e k <> "visibility"%string -> attr_get e k = ANum x.
Proof. intros H Hd%String.eqb_neq Hv%String.eqb_neq. unfold attr_get, attr_raw. by rewrite H, Hd, Hv. Qed.
Lemma attr_get_own e k x :
  el_dom e !! own_key e k = None -> el_own e !! own_key e k = Some (ANum x) ->
  own_key e k <> "d"%string -> own_key e k <> "visibility"%string -> exists q, attr_get e k = ANum q /\ (q == x)%Q.
Proof.
  intros H Ho Hd%String.eqb_neq Hv%String.eqb_neq. unfold attr_get, attr_raw. rewrite H, Ho, Hd, Hv. cbn.
  destruct (Qeq_bool x 0) eqn:E; cbn; [exists 0%Q; split; [done|] | by exists x].
  apply Qeq_bool_iff in E. by rewrite E.
Qed.

Definition renamed (key : string) : string := if String.eqb key "strokeWidth" then "stroke-width" else key.
Lemma attr_reads_treated h key x0 x e p key' skip tr e' :
  let k := renamed key' in
  treat h key (Some (ANum x0)) e p = (key', Some (ANum x), skip, tr, e', p) -> el_name e' = el_name e ->
  own_key e key = k -> k ∉ ["text"; "transform"; "d"; "visibility"]%string ->
  (skip = true -> el_dom e' !! k = None) -> (el_symbolName e' <> None -> sizes_symbol k = true -> el_dom e' !! k = None) ->
  exists q, attr_get (attr_one cos sin pi isWebKit h (key, Some (ANum x0)) (e, p, false)).1.1 key = ANum q /\
    (q == kept (el_name e) k x)%Q.
Proof.
  intros k Ht Hn Hk Hother Hskip Hsym. unfold attr_one. cbn [fst snd]. rewrite Ht. fold (renamed key'). fold k.
  assert ((if isWebKit && String.eqb k "stroke-width" && Qeq_bool x 0 then Some (ANum (1 # 1000000)) else Some (ANum x)) = Some (ANum (no_zero k x))) as ->
    by (unfold no_zero; by destruct (_ && Qeq_bool x 0)).
  unfold kept. set (y := no_zero k x). rewrite !elem_of_cons in Hother.
  assert (forall sk e3, el_name e3 = el_name e -> (sk = false \/ el_dom e3 !! k = None) ->
    exists q, attr_get (finish k (Some (ANum y)) sk tr e3) key = ANum q /\ (q == no_negative (el_name e) k y)%Q) as Hplain.
  { intros sk e3 Hn3 Hd. assert (own_key (finish k (Some (ANum y)) sk tr e3) key = k) as Ho by (unfold own_key; rewrite finish_name, Hn3; exact Hk).
    destruct sk.
    - destruct Hd as [|Hd]; [done|]. apply attr_get_own; rewrite ?Ho; [rewrite finish_skip; tauto | rewrite <- Hn3; apply finish_own | tauto..].
    - eexists. split; [|reflexivity]. apply attr_get_dom; rewrite ?Ho; [rewrite <- Hn3; apply finish_dom; tauto | tauto..]. }
  destruct (el_symbolName e') as [n|] eqn:Esn.
  - destruct (sizes_symbol k) eqn:Ez; cbn [fst].
    + destruct (symbolAttr_other h n e') as [Hsn Hsd]. apply Hplain; [congruence|]. right. rewrite Hsd by tauto. by apply Hsym.
    + apply Hplain; [done|]. destruct skip; [right; by apply Hskip | by left].
  - apply Hplain; [done|]. destruct skip; [right; by apply Hskip | by left].
Qed.

(** C24: A number that is set as an attribute is read back, whatever the element is and
    whatever it was before: a shape, a symbol, a text; from the element or, where it is not
    an attribute, from the wrapper.  Widths are read back as whole numbers, negative sizes
    of a rectangle as zero and, in WebKit, a line without width as one of a millionth; the
    width of the line of a circle is not, under the name strokeWidth. *)
Theorem attr_reads_back key x e p :
  key ∈ read_keys -> members_apart e -> (el_name e = "circle"%string -> key <> "strokeWidth"%string) ->
  exists q, attr_get (attr [(key, Some (ANum x))] e p).1 key = ANum q /\ (q == stored (el_name e) key x)%Q.
Proof.
  intros Hk (Hm1 & Hm2 & Hm3) Hs3. unfold HsElement.attr. cbn [foldl fst].
  set (h := [(key, Some (ANum x))]).
  assert (forall k sk tr x', treat h key (Some (ANum x)) e p = (k, Some (ANum x'), sk, tr, e, p) ->
    own_key e key = renamed k -> renamed k ∉ ["text"; "transform"; "d"; "visibility"]%string ->
    (sk = true -> el_dom e !! renamed k = None) -> kept (el_name e) (renamed k) x' = stored (el_name e) key x ->
    exists q, attr_get (attr_one cos sin pi isWebKit h (key, Some (ANum x)) (e, p, false)).1.1 key = ANum q /\ (q == stored (el_name e) key x)%Q) as H.
  { intros k sk tr x' H1 H2 H3 H4 <-. apply (attr_reads_treated h key x x' e p k sk tr e); auto. }
  apply list_elem_of_In in Hk. unfold read_keys in Hk. cbn [In] in Hk.
  unfold treat, own_key in H. subst h.
  destruct (String.eqb (el_name e) "text") eqn:Et, (String.eqb (el_name e) "circle") eqn:Ec, (String.eqb (el_name e) "rect") eqn:Er;
    rewrite ?String.eqb_eq in *; try congruence.
  all: repeat destruct Hk as [<-|Hk]; [..|done].
  all: try (eapply H; [cbn; reflexivity | reflexivity | cbn; set_solver
    | first [done | intros _; apply Hm1; set_solver | intros _; by apply Hm2]
    | reflexivity]; fail).
  all: try (by destruct (Hs3 Ec)).
  set (y := treat [("x", Some (ANum x))]%string "x" (Some (ANum x)) e p).
  assert (exists e', y = ("x"%string, Some (ANum x), false, false, e', p) /\ el_name e' = el_name e /\
    el_symbolName e' = el_symbolName e /\ forall k, k <> "transform"%string -> el_dom e' !! k = el_dom e !! k) as (e' & Hy & Hn & Hsn & Hd).
  { subst y. unfold treat. cbn [String.eqb Ascii.eqb Bool.eqb]. rewrite Et. cbn. eexists. split; [reflexivity|].
    destruct (Qeq_bool _ _); [done|]. split_and!; [done | done|]. intros k Hk. cbn. by rewrite lookup_insert_ne. }
  apply (attr_reads_treated _ "x" x x e p "x" false false e'); try done.
  - unfold own_key. by rewrite Ec.
  - cbn. set_solver.
  - intros Hs Hx. rewrite Hd by done. apply Hm3; [congruence | done].
  - (* the corners of a rectangle *)
    apply (attr_reads_treated _ "r" x x e p "r" true false (set_dom "ry" (Some (ANum x)) (set_dom "rx" (Some (ANum x)) e))).
    + unfold treat. rewrite Er. done.
    + done.
    + unfold own_key. by rewrite Ec.
    + cbn. set_solver.
    + intros _. cbn. rewrite !lookup_insert_ne by done. by apply Hm2.
    + intros Hs Hz. cbn. rewrite !lookup_insert_ne by done. by apply Hm3.
Qed.

End attr_facts.

(** ** Colours, crisp edges, examples *)

(** Asked for again, whatever for, the colour of a configuration is the gradient there is. *)
Lemma paint_once r ref ref' p v p' : is_Some (pa_options p !! r) -> paint r ref p = (v, p') -> paint r ref' p' = (v, p').
Proof.
  unfold paint. intros [g Hg]. rewrite Hg. destruct (gr_id g ≫= _) as [[id m]|] eqn:E.
  - intros [= <- <-]. by rewrite Hg, E.
  - intros [= <- <-]. cbn. rewrite !lookup_insert_eq. cbn. by rewrite lookup_insert_eq.
Qed.

Lemma first_truthy_given x l : Qeq_bool x 0 = false -> first_truthy (Some x :: l) = x.
Proof. intros H. unfold first_truthy. cbn. by rewrite decide_True. Qed.
Lemma mathRound_Z k : mathRound (inject_Z k) = k.
Proof.
  unfold mathRound. assert (Qfloor (inject_Z k + (1 # 2)) = Qfloor ((2 * k + 1) # 2)) as ->.
  { apply Qfloor_comp. unfold inject_Z, Qplus, Qeq; cbn. lia. }
  unfold Qfloor. Z.div_mod_to_equations. lia.
Qed.

(** One direction: where the line around a rectangle begins and ends. *)
Lemma crisp_direction x w k :
  0 <= k ->
  let n := normalizer (inject_Z k) in
  let left := (inject_Z (Qfloor x) + n)%Q in
  let size := inject_Z (Qfloor (w - 2 * n)) in
  (left - inject_Z k / 2 == inject_Z (Qfloor x - k / 2))%Q /\
  (exists b, left + size + inject_Z k / 2 == inject_Z b)%Q /\
  (inject_Z (Qfloor x) <= left)%Q /\ (left + size <= inject_Z (Qfloor x) + w)%Q.
Proof.
  intros Hk n left size.
  assert (n == inject_Z (k mod 2) / 2)%Q as Hn by (unfold n, normalizer; rewrite mathRound_Z, Z.rem_mod_nonneg by lia; reflexivity).
  assert (inject_Z k == 2 * inject_Z (k / 2) + inject_Z (k mod 2))%Q as Hd.
  { change 2%Q with (inject_Z 2). rewrite <- inject_Z_mult, <- inject_Z_plus. rewrite (Z.div_mod k 2) at 1 by lia. reflexivity. }
  assert (0 <= inject_Z (k mod 2))%Q as H0 by (change 0%Q with (inject_Z 0); rewrite <- Zle_Qle; apply Z.mod_pos_bound; lia).
  assert (0 <= n)%Q as Hn0 by (rewrite Hn; unfold Qdiv; change (/ 2)%Q with (1 # 2)%Q; lra).
  pose proof (Qfloor_le (w - 2 * n)) as Hf.
  split_and!.
  - unfold left. rewrite Hn, Hd. unfold Z.sub. rewrite inject_Z_plus, inject_Z_opp. field.
  - exists (Qfloor x + Qfloor (w - 2 * n) + (k / 2 + k mod 2)). unfold left, size. rewrite !inject_Z_plus.
    set (s := inject_Z (Qfloor (w - 2 * n))). rewrite Hn, Hd. field.
  - unfold left. clear -Hn0. clearbody n. lra.
  - unfold left, size. set (s := inject_Z (Qfloor (w - 2 * n))) in *. clear -Hf Hn0. clearbody n s. lra.
Qed.
(** The edges of the line around a crisp rectangle are edges of pixels, and it is not drawn
    beyond the pixels of the rectangle by more than half its width. *)
Lemma crisp_edges e k x y w h :
  0 < k -> Forall (fun q => Qeq_bool q 0 = false) [x; y; w; h] ->
  let v := crisp_of e (Some (inject_Z k)) (Some x) (Some y) (Some w) (Some h) in
  let s := inject_Z k in
  (exists l t r b, cv_x v - s / 2 == inject_Z l /\ cv_y v - s / 2 == inject_Z t /\
    cv_x v + cv_width v + s / 2 == inject_Z r /\ cv_y v + cv_height v + s / 2 == inject_Z b)%Q /\
  (inject_Z (Qfloor x) <= cv_x v /\ cv_x v + cv_width v <= inject_Z (Qfloor x) + w)%Q /\
  (inject_Z (Qfloor y) <= cv_y v /\ cv_y v + cv_height v <= inject_Z (Qfloor y) + h)%Q.
Proof.
  intros Hk Hall v s. rewrite !Forall_cons in Hall. destruct Hall as (Hx & Hy & Hw & Hh & _).
  assert (Qeq_bool (inject_Z k) 0 = false) as Hs.
  { apply not_true_is_false. intros E%Qeq_bool_iff. unfold Qeq in E. cbn in E. lia. }
  subst v s. unfold crisp_of. cbv zeta. rewrite !first_truthy_given by done.
  destruct (crisp_direction x w k) as (H1 & [r H2] & H3 & H4); [lia|].
  destruct (crisp_direction y h k) as (H5 & [b H6] & H7 & H8); [lia|].
  split_and!; [|exact H3|exact H4|exact H7|exact H8]. eexists _, _, r, b. cbn [cv_x cv_y cv_width cv_height]. split_and!; [exact H1 | exact H5 | exact H2 | exact H6].
Qed.

Definition no_palette : palette := Palette ∅ ∅ 0.
Notation attr' := (attr id id 3 false).

Lemma attr_reads_back_witness :
  members_apart (new_element "rect") /\
  exists q, attr_get (attr id id 3 false [("height"%string, Some (ANum (21 # 2)))] (new_element "rect") no_palette).1 "height" = ANum q /\ (q == 21 # 2)%Q.
Proof.
  assert (members_apart (new_element "rect")) as Hm by (split_and!; intros; try apply lookup_empty; done).
  split; [done|]. by apply (attr_reads_back id id 3%Q false "height" (21 # 2) (new_element "rect")); [apply list_elem_of_In; cbn; tauto | ..].
Defined.

(** Moved away and home again, an element comes home in one direction only: with the second
    zero there is nothing to write, and the transform with the first is kept. *)
Example moved_home_stays :
  let e := (translate id id 3 false 10 5 (new_element "g") no_palette).1 in
  let e := (translate id id 3 false 0 0 e no_palette).1 in
  (or_zero (el_own e !! "translateX"%string), drawn_at e (0, 0)%Q) = (0%Q, Some (0 + 0, 0 + 5)%Q).
Proof. vm_compute. reflexivity. Qed.

(** A rectangle at 50 that is to be crisp at 0 stays: a zero counts as not given. *)
Example crisp_zero_stays :
  let e := set_own "x" (Some (ANum 50)) (new_element "rect") in
  (cv_x (crisp_of e (Some 2%Q) (Some 0%Q) None None None) == 50)%Q.
Proof. vm_compute. reflexivity. Qed.

(** The width of the line of a circle is not found under the name it was set by. *)
Example circle_width_lost :
  attr_get (attr' [("strokeWidth"%string, Some (ANum 2))] (new_element "circle") no_palette).1 "strokeWidth" = ANum 0.
Proof. vm_compute. reflexivity. Qed.

Example dash_names :
  ((fun s => dashes (Some 1%Q) (lower s)) <$>
    ["ShortDash"; "ShortDot"; "ShortDashDot"; "ShortDashDotDot"; "Dot"; "Dash"; "LongDash"; "DashDot"; "LongDashDot"; "LongDashDotDot"]%string)
  = (fun l => (fun n => Some (inject_Z n)) <$> l) <$>
    [[3;1]; [1;1]; [3;1;1;1]; [3;1;1;1;1;1]; [1;3]; [4;3]; [8;3]; [4;3;1;3]; [8;3;1;3]; [8;3;1;3;1;3]].
Proof. vm_compute. reflexivity. Qed.
(** Dashes set without the width in the same call are no numbers. *)
Example dashes_without_width : dashes None "dash" = [None; None].
Proof. vm_compute. reflexivity. Qed.

(** A radial gradient is fitted to the first pie it is used for, and is that one for others. *)
Example second_pie_same_gradient :
  let g := Gradient true None (<["cx" := ANum 0]> (<["cy" := ANum 0]> {["r" := ANum 1]}))%string None [(0%Q, "red"%string)] in
  let p := Palette {[7%nat := g]} ∅ 0 in
  let '(url, p) := paint 7 (Some (100, 100, 50))%Q p in
  let '(url', p') := paint 7 (Some (300, 100, 50))%Q p in
  url = url' /\ (pa_made p' !! 0%nat) ≫= (fun m => num_of (m.1.2 !! "cx"%string)) = Some (100 - 50 / 2 + 0 * 50)%Q.
Proof. vm_compute. split; reflexivity. Qed.

(** A flag pinned to the left edge, at 0, is pinned to itself. *)
Example flag_at_zero :
  symbol_path id id 3 "flag" (Some 10%Q) (Some 5%Q) (Some 20%Q) (Some 8%Q) (fun k => if String.eqb k "anchorX" then Some 0%Q else Some 40%Q) false
  ≫= (fun l => l !! 1%nat) = Some (inr (Some 10%Q)).
Proof. vm_compute. reflexivity. Qed.

(** A path with a gap inside is not drawn; the missing number at its end is passed on. *)
Example paths :
  (path_value (Some (APath [Letter "M"; Undefined; Number 3])), path_value (Some (APath [])),
   path_value (Some (APath [Letter "M"; Number 3; Undefined])))
  = (Some nowhere, Some nowhere, Some (APath [Letter "M"; Number 3; Undefined])).
Proof. vm_compute. reflexivity. Qed.

(** Styles are written with hyphens; a colour fills. *)
Example css_text :
  let e := (css id id 3 false [("fontSize", "11px"); ("color", "red")]%string (new_element "text") no_palette).1 in
  el_dom e !! "style"%string = Some (AStyles [("font-size", "11px"); ("color", "red"); ("fill", "red")]%string).
Proof. vm_compute. reflexivity. Qed.
