(* ===== verification/GridHeap.v ===== *)
(** * ligerGrid: rows, arrays and data sources

    The state of a grid ([ligerGrid.js]).  The grid and its callers hold the same
    row objects and the same arrays, so rows, arrays of rows and data sources
    ([{Rows: [...], Total: n}]) live in a store and are passed by reference. *)

From S2P Require Import Prelude JsString JsNum.
Local Open Scope Z_scope.

Abbreviation rref := positive.    (* a row object *)
Abbreviation aref := positive.    (* an array of rows *)
Abbreviation dref := positive.    (* a data source *)

(** The value of a column. *)
Inductive jval :=
| VUndef | VNull | VBool (b : bool) | VNum (x : num) | VStr (s : string).

(** [v == "s"] for a string literal that is not numeric. *)
Definition is_str (s : string) (v : jval) : bool :=
  match v with VStr s' => bool_decide (s = s') | _ => false end.

(** [v == null] *)
Definition is_nil (v : jval) : bool :=
  match v with VUndef | VNull => true | _ => false end.

(** [String(v)], and the truth value of a value. *)
Definition jstr (v : jval) : string :=
  match v with
  | VUndef => "undefined" | VNull => "null"
  | VBool b => if b then "true" else "false"
  | VNum x => num_string x
  | VStr s => s
  end.
Definition jtruthy (v : jval) : bool :=
  match v with
  | VUndef | VNull => false
  | VBool b => b
  | VNum x => num_truthy x
  | VStr s => negb (String.eqb s "")
  end.

(** A link to another row: the id of the row, or [-1]. *)
Abbreviation link := (option string).

(** A row object: the properties the grid adds ([None] when absent), the array
    of child rows, and the other properties, the status among them. *)
Record row := Row {
  r_id : option string;          (* __id *)
  r_previd : option link;        (* __previd *)
  r_nextid : option string;      (* __nextid *)
  r_index : option Z;            (* __index *)
  r_pid : option link;           (* __pid *)
  r_level : option Z;            (* __level *)
  r_hasChildren : option bool;   (* __hasChildren *)
  r_children : option aref;      (* [p.tree.childrenName] *)
  r_props : list (string * jval)
}.

Definition prop (k : string) (r : row) : jval := default VUndef (oget k (r_props r)).

Definition with_id v r := Row v (r_previd r) (r_nextid r) (r_index r) (r_pid r) (r_level r)
  (r_hasChildren r) (r_children r) (r_props r).
Definition with_previd v r := Row (r_id r) v (r_nextid r) (r_index r) (r_pid r) (r_level r)
  (r_hasChildren r) (r_children r) (r_props r).
Definition with_nextid v r := Row (r_id r) (r_previd r) v (r_index r) (r_pid r) (r_level r)
  (r_hasChildren r) (r_children r) (r_props r).
Definition with_index v r := Row (r_id r) (r_previd r) (r_nextid r) v (r_pid r) (r_level r)
  (r_hasChildren r) (r_children r) (r_props r).
Definition with_tree pid level has r := Row (r_id r) (r_previd r) (r_nextid r) (r_index r)
  pid level has (r_children r) (r_props r).
Definition with_hasChildren v r := Row (r_id r) (r_previd r) (r_nextid r) (r_index r) (r_pid r)
  (r_level r) v (r_children r) (r_props r).
Definition with_children v r := Row (r_id r) (r_previd r) (r_nextid r) (r_index r) (r_pid r)
  (r_level r) (r_hasChildren r) v (r_props r).
Definition with_props v r := Row (r_id r) (r_previd r) (r_nextid r) (r_index r) (r_pid r)
  (r_level r) (r_hasChildren r) (r_children r) v.
Definition set_prop k v r := with_props (oset k v (r_props r)) r.
Definition del_prop k r := with_props (odel k (r_props r)) r.

(** A data source: the array under [p.root] and the number under [p.record]. *)
Record source := Source { s_rows : option aref; s_record : option Z }.

(** The store. *)
Record store := Store {
  rowh : gmap rref row;
  arrh : gmap aref (list rref);
  srch : gmap dref source
}.

Definition upd_row (r : rref) (f : row -> row) (h : store) : store :=
  Store (alter f r (rowh h)) (arrh h) (srch h).
Definition set_arr (a : aref) (l : list rref) (h : store) : store :=
  Store (rowh h) (<[a := l]> (arrh h)) (srch h).
Definition set_src (d : dref) (s : source) (h : store) : store :=
  Store (rowh h) (arrh h) (<[d := s]> (srch h)).

(** A property read through a reference that is [undefined] throws. *)
Definition row_at (h : store) (r : rref) : res row := of_option (rowh h !! r).
Definition arr_at (h : store) (a : aref) : res (list rref) := of_option (arrh h !! a).
Definition src_at (h : store) (d : dref) : res source := of_option (srch h !! d).

(** New objects. *)
Definition new_arr (l : list rref) (h : store) : aref * store :=
  let a := fresh (dom (arrh h)) in (a, set_arr a l h).
Definition new_src (s : source) (h : store) : dref * store :=
  let d := fresh (dom (srch h)) in (d, set_src d s h).

(** ** Options and state *)

(** The options the row operations read: whether the grid is a tree
    ([p.tree]), the name of the status property, the check boxes. *)
Record options := Options {
  o_tree : bool;
  o_statusName : string;
  o_checkbox : bool;
  o_usePager : bool;
  o_localAction : bool;        (* p.dataAction == "local", else "server" *)
  o_localData : bool;          (* p.dataType == "local", else "server" *)
  o_pageSize : Z
}.

(** What the grid asks of the page, and the events it triggers. *)
Inductive event :=
| EvTrigger (name : string) (arg : option rref)
| EvSelect (r : rref) (on : bool)          (* class l-selected *)
| EvToggle (r : rref) (opened : bool)       (* the link of a tree row *)
| EvShow (r : rref) (shown : bool)          (* row visibility *)
| EvPager (page pageCount : Z) (stat : string)
| EvButton (name : string) (enabled : bool)
| EvLoading (on : bool)
| EvRequest (params : list (string * string))
| EvRender (frozen : bool) (rows : list rref)
| EvCell (r : rref) (col : string)
| EvTotal (i : Z) (col : string).          (* the content of a total cell *)

(** The rows on show: [g.records], by id in insertion order, [g.rows], by
    position, and the counter the ids are made from. *)
Record index := Index {
  records : list (string * rref);
  rows : list (option rref);
  recordNumber : Z
}.

(** The data sources: what is on show, and what it was cut from. *)
Record sources := Sources {
  currentData : option dref;
  filteredData : option dref;
  sortedData : option dref;
  data : option dref
}.

(** The pager's options: [p.page], [p.newPage], [p.total], [p.pageCount]; [0]
    also stands for [undefined], both being false. *)
Record pager := Pager {
  page : Z;
  newPage : Z;
  total : Z;
  pageCount : Z
}.

Record grid := Grid {
  heap : store;
  idx : index;
  selected : list rref;
  deletedRows : option (list rref);
  collapsedRows : option (list rref);
  srcs : sources;
  pg : pager;
  isDataChanged : bool;
  loading : bool;
  sortName : option string;
  sortOrder : option string;
  out : list event
}.

Section setters.
Context (g : grid).
Definition set_heap v := Grid v (idx g) (selected g) (deletedRows g) (collapsedRows g) (srcs g)
  (pg g) (isDataChanged g) (loading g) (sortName g) (sortOrder g) (out g).
Definition set_idx v := Grid (heap g) v (selected g) (deletedRows g) (collapsedRows g) (srcs g)
  (pg g) (isDataChanged g) (loading g) (sortName g) (sortOrder g) (out g).
Definition set_selected v := Grid (heap g) (idx g) v (deletedRows g) (collapsedRows g) (srcs g)
  (pg g) (isDataChanged g) (loading g) (sortName g) (sortOrder g) (out g).
Definition set_deletedRows v := Grid (heap g) (idx g) (selected g) v (collapsedRows g) (srcs g)
  (pg g) (isDataChanged g) (loading g) (sortName g) (sortOrder g) (out g).
Definition set_collapsedRows v := Grid (heap g) (idx g) (selected g) (deletedRows g) v (srcs g)
  (pg g) (isDataChanged g) (loading g) (sortName g) (sortOrder g) (out g).
Definition set_srcs v := Grid (heap g) (idx g) (selected g) (deletedRows g) (collapsedRows g) v
  (pg g) (isDataChanged g) (loading g) (sortName g) (sortOrder g) (out g).
Definition set_pg v := Grid (heap g) (idx g) (selected g) (deletedRows g) (collapsedRows g)
  (srcs g) v (isDataChanged g) (loading g) (sortName g) (sortOrder g) (out g).
Definition set_changed v := Grid (heap g) (idx g) (selected g) (deletedRows g) (collapsedRows g)
  (srcs g) (pg g) v (loading g) (sortName g) (sortOrder g) (out g).
Definition set_loading v := Grid (heap g) (idx g) (selected g) (deletedRows g) (collapsedRows g)
  (srcs g) (pg g) (isDataChanged g) v (sortName g) (sortOrder g) (out g).
Definition set_sort n o := Grid (heap g) (idx g) (selected g) (deletedRows g) (collapsedRows g)
  (srcs g) (pg g) (isDataChanged g) (loading g) n o (out g).
Definition log (ev : event) := Grid (heap g) (idx g) (selected g) (deletedRows g)
  (collapsedRows g) (srcs g) (pg g) (isDataChanged g) (loading g) (sortName g) (sortOrder g)
  (out g ++ [ev]).
End setters.

(** Updating a row of the store. *)
Definition upd (r : rref) (f : row -> row) (g : grid) : grid := set_heap g (upd_row r f (heap g)).

(** ** A grid of three rows, two to a page *)

Definition blank_row (name : string) : row :=
  Row None None None None None None None None [("name"%string, VStr name)].
Definition demo_store : store :=
  Store (<[1%positive := blank_row "a"]> (<[2%positive := blank_row "b"]>
          (<[3%positive := blank_row "c"]> ∅)))
        {[ 1%positive := [1%positive; 2%positive; 3%positive] ]}
        {[ 1%positive := Source (Some 1%positive) (Some 3) ]}.
Definition demo_options : options := Options false "__status" false true true true 2.
Definition demo_grid : grid :=
  Grid demo_store (Index [] [] 0) [] None None
    (Sources (Some 1%positive) (Some 1%positive) None (Some 1%positive))
    (Pager 1 1 3 2) false false None None [].
