(* ===== verification/GridRows.v ===== *)
(** * ligerGrid: records, rows and the tree

    Giving every row its id, position, neighbours and place in the tree
    ([_updateGridData], [_addNewRecord], [formatRecord]), finding rows again
    ([getRow], [getParent], [getChildren], ...). *)

From S2P Require Import Prelude JsString JsNum GridHeap.
From Stdlib Require Import Ascii.
Local Open Scope Z_scope.

Definition out_of_fuel : string := "out of fuel".

(** ** Ids *)

Definition _createRowid (n : Z) : string := ("r" +:+ show_Z (1000 + n))%string.

Definition _isRowId (str : string) (g : grid) : bool :=
  bool_decide (str ∈ okeys (records (idx g))).

(** [domid.split('|')[2]]; the grid's own id is the first part. *)
Definition _getRowIdByDomId (domid : string) : option string := split_on "|"%char domid !! 2%nat.

Definition _getRowByDomId (domid : string) (g : grid) : option rref :=
  id ← _getRowIdByDomId domid; oget id (records (idx g)).

(** What the callers pass for a row: nothing, an id or a position as a string,
    a position, a row object, or the table row element with a given id. *)
Inductive rowParm :=
| PNull
| PStr (s : string)
| PNum (n : Z)
| PRow (r : rref)
| PDom (domid : string).

Definition row_number (n : option Z) (g : grid) : option rref :=
  n ← n; if n <? 0 then None else mjoin (rows (idx g) !! Z.to_nat n).

Definition getRow (p : rowParm) (g : grid) : option rref :=
  match p with
  | PNull => None
  | PStr s => if _isRowId s g then oget s (records (idx g)) else row_number (parseInt s) g
  | PNum n => row_number (Some n) g
  | PDom d => _getRowByDomId d g
  | PRow r => Some r
  end.

(** ** Records *)

Section records.
Context (p : options).

Definition formatRecord (removeStatus : bool) (o : row) : row :=
  let o := with_index None (with_nextid None (with_previd None (with_id None o))) in
  let o := if o_tree p then with_tree None None None o else o in
  if removeStatus then del_prop (o_statusName p) o else o.

Definition set_rows_index (v : list (option rref)) (g : grid) : grid :=
  set_idx g (Index (records (idx g)) v (recordNumber (idx g))).

(** The first half of [_addNewRecord]: the id and the links to the row before. *)
Definition link_prev (o : rref) (previd : link) (g : grid) : res grid :=
  let n := recordNumber (idx g) + 1 in
  let g := set_idx g (Index (records (idx g)) (rows (idx g)) n) in
  let id := _createRowid n in
  let g := upd o (fun r => with_previd (Some previd) (with_id (Some id) r)) g in
  match previd with
  | Some pv =>
      prev ← of_option (oget pv (records (idx g)));
      prevrow ← row_at (heap g) prev;
      let g := match r_nextid prevrow with
               | Some nx => match oget nx (records (idx g)) with
                            | Some old => upd old (with_previd (Some (Some id))) g
                            | None => g
                            end
               | None => g
               end in
      let g := upd prev (with_nextid (Some id)) g in
      prevrow ← row_at (heap g) prev;
      Ok (upd o (with_index ((fun i => i + 1) <$> r_index prevrow)) g)
  | None => Ok (upd o (with_index (Some 0)) g)
  end.

(** The second half: the place in the tree, the status, [g.rows] and
    [g.records]. *)
Definition link_parent (o : rref) (pid : link) (g : grid) : res grid :=
  if o_tree p then
    match pid with
    | Some pp =>
        parent ← of_option (oget pp (records (idx g)));
        prow ← row_at (heap g) parent;
        Ok (upd o (fun r => with_tree (Some pid) ((fun l => l + 1) <$> r_level prow)
                              (Some (bool_decide (is_Some (r_children r)))) r) g)
    | None =>
        Ok (upd o (fun r => with_tree (Some None) (Some 1)
                              (Some (bool_decide (is_Some (r_children r)))) r) g)
    end
  else Ok g.

Definition mark_nochanged (r : row) : row :=
  if is_str "add" (prop (o_statusName p) r) then r
  else set_prop (o_statusName p) (VStr "nochanged") r.

Definition file_record (o : rref) (g : grid) : res grid :=
  orow ← row_at (heap g) o;
  id ← of_option (r_id orow);
  let rows' := match r_index orow with
               | Some i => if i <? 0 then rows (idx g) else arr_assign (Z.to_nat i) o (rows (idx g))
               | None => rows (idx g)
               end in
  Ok (set_idx g (Index (oset id o (records (idx g))) rows' (recordNumber (idx g)))).

Definition _addNewRecord (o : rref) (previd pid : link) (g : grid) : res grid :=
  g ← link_prev o previd g;
  g ← link_parent o pid g;
  file_record o (upd o mark_nochanged g).

(** The loop of [_updateGridData] over one array; [previd] runs on through the
    children, which [rec] loads. *)
Fixpoint load_list (rec : option aref -> link -> link * grid -> res (link * grid))
    (pid : link) (l : list rref) (st : link * grid) : res (link * grid) :=
  match l with
  | [] => Ok st
  | o :: l' =>
      let g := upd o (formatRecord false) st.2 in
      orow ← row_at (heap g) o;
      if is_str "delete" (prop (o_statusName p) orow) then load_list rec pid l' (st.1, g)
      else
        g ← _addNewRecord o st.1 pid g;
        orow ← row_at (heap g) o;
        let st' := (r_id orow, g) in
        st' ← (if default false (r_hasChildren orow)
               then if o_tree p then rec (r_children orow) (r_id orow) st'
                    else Throw TypeError
               else Ok st');
        load_list rec pid l' st'
  end.

Fixpoint load (fuel : nat) (a : option aref) (pid : link) (st : link * grid)
    : res (link * grid) :=
  match a with
  | None => Ok st
  | Some a =>
      match fuel with
      | O => Throw out_of_fuel
      | S fuel' => l ← arr_at (heap st.2) a; load_list (load fuel') pid l st
      end
  end.

Definition current_rows (g : grid) : res (option aref) :=
  d ← of_option (currentData (srcs g));
  s ← src_at (heap g) d;
  Ok (s_rows s).

Definition _updateGridData (fuel : nat) (g : grid) : res grid :=
  let g := set_idx g (Index [] [] 0) in
  a ← current_rows g;
  st ← load fuel a None (None, g);
  Ok st.2.

(** [_clearGrid]: no rows, no records, nothing selected. *)
Definition _clearGrid (g : grid) : grid := set_selected (set_idx g (Index [] [] 0)) [].

(** [getData]: copies of the records with a status, the grid's properties taken
    off.  The program copies deeply; here a copy's children are still named by
    their reference. *)
Fixpoint collect_records (status : option string) (removeStatus : bool)
    (l : list (string * rref)) (h : store) : res (list row) :=
  match l with
  | [] => Ok []
  | (_, r) :: l' =>
      o ← row_at h r;
      rest ← collect_records status removeStatus l' h;
      Ok (if match status with
             | Some st => is_str st (prop (o_statusName p) o) | None => true end
          then formatRecord removeStatus o :: rest else rest)
  end.

Definition getData (status : option string) (removeStatus : bool) (g : grid) : res (list row) :=
  collect_records status removeStatus (records (idx g)) (heap g).
Definition getUpdated : grid -> res (list row) := getData (Some "update") true.
Definition getAdded : grid -> res (list row) := getData (Some "add") true.
Definition getDeleted (g : grid) : option (list rref) := deletedRows g.

(** ** The tree *)

(** [rowdata['__pid'] in g.records] *)
Definition parent_of (r : row) (g : grid) : option rref :=
  match r_pid r with
  | Some (Some pid) => oget pid (records (idx g))
  | _ => None
  end.

Definition getParent (q : rowParm) (g : grid) : option rref :=
  if o_tree p then
    r ← getRow q g;
    o ← rowh (heap g) !! r;
    parent_of o g
  else None.

(** [loadChildren]: the children whose [__status] is not [delete], with their
    own children after each when [deep]. *)
Fixpoint loadChildren (fuel : nat) (deep : bool) (h : store) (r : rref) : res (list rref) :=
  match fuel with
  | O => Throw out_of_fuel
  | S fuel' =>
      o ← row_at h r;
      match r_children o with
      | None => Ok []
      | Some a =>
          l ← arr_at h a;
          (fix go l := match l with
             | [] => Ok []
             | c :: l' =>
                 crow ← row_at h c;
                 rest ← go l';
                 if is_str "delete" (prop "__status" crow) then Ok rest
                 else below ← (if deep then loadChildren fuel' deep h c else Ok []);
                      Ok (c :: below ++ rest)
             end) l
      end
  end.

Definition getChildren (fuel : nat) (q : rowParm) (deep : bool) (g : grid)
    : res (option (list rref)) :=
  if o_tree p then
    match getRow q g with
    | None => Ok None
    | Some r => l ← loadChildren fuel deep (heap g) r; Ok (Some l)
    end
  else Ok None.

(** [None] is [undefined]. *)
Definition isLeaf (q : rowParm) (g : grid) : option bool :=
  r ← getRow q g;
  o ← rowh (heap g) !! r;
  Some (negb (default false (r_hasChildren o))).

(** Asked of the rows of a tree only: without [p.tree] the program throws. *)
Definition hasChildren (q : rowParm) (g : grid) : option bool :=
  r ← getRow q g;
  o ← rowh (heap g) !! r;
  Some (match r_children o with
        | Some a => match arrh (heap g) !! a with
                    | Some l => negb (bool_decide (l = [])) | None => false end
        | None => false
        end).

Definition existRecord (r : rref) (g : grid) : bool :=
  bool_decide (r ∈ map snd (records (idx g))).
End records.
