(* ===== verification/GridLoad.v ===== *)
(** * ligerGrid: the rows of a tree

    [_updateGridData] against its specification: the records are the rows of the
    forest in depth-first order, numbered from zero, each linked to the row
    before it and to its parent. *)

From S2P Require Import Prelude JsString JsNum GridHeap GridRows.
Local Open Scope Z_scope.

(** ** Forests *)

(** A row, whether it is deleted, its array of children, and their trees. *)
Inductive tree := Node (r : rref) (del : bool) (ch : option aref) (kids : list tree).

Definition root (t : tree) : rref := let 'Node r _ _ _ := t in r.

(** Every row below. *)
Fixpoint allrows (t : tree) : list rref :=
  let 'Node r _ _ kids := t in r :: flat_map allrows kids.

(** How many arrays deep. *)
Fixpoint height (t : tree) : nat :=
  let 'Node _ _ ch kids := t in
  match ch with None => O | Some _ => S (foldr Nat.max O (map height kids)) end.

(** A row with its parent row and its level. *)
Definition entry : Type := rref * option rref * Z.
Definition e_row (e : entry) : rref := e.1.1.
Definition e_parent (e : entry) : option rref := e.1.2.
Definition e_level (e : entry) : Z := e.2.

(** The rows on show, depth first, a deleted row hiding what is below it. *)
Fixpoint entries (par : option rref) (lvl : Z) (t : tree) : list entry :=
  let 'Node r del _ kids := t in
  if del then [] else (r, par, lvl) :: flat_map (entries (Some r) (lvl + 1)) kids.

Section rep.
Context (p : options).

(** The store holds the tree. *)
Fixpoint rep (h : store) (t : tree) : Prop :=
  let 'Node r del ch kids := t in
  (exists o, rowh h !! r = Some o /\
     is_str "delete" (prop (o_statusName p) o) = del /\
     (if o_tree p then r_children o = ch else ch = None /\ r_hasChildren o = None)) /\
  match ch with
  | None => kids = []
  | Some a => arrh h !! a = Some (map root kids) /\ foldr (fun t P => rep h t /\ P) True kids
  end.

Definition reps (h : store) (ts : list tree) : Prop := foldr (fun t P => rep h t /\ P) True ts.

(** The store may change outside the tree. *)
Lemma rep_frame h h' t :
  arrh h' = arrh h ->
  (forall r, r ∈ allrows t -> rowh h' !! r = rowh h !! r) ->
  rep h t -> rep h' t.
Proof.
  intros Ha. revert t. fix IH 1. intros [r del ch kids] Hr [(o & Ho & Hrest) Hch].
  split; [exists o; rewrite Hr by left; done|].
  destruct ch as [a|]; [|done]. destruct Hch as [Hl Hk]. rewrite Ha. split; [done|].
  assert (forall r, r ∈ flat_map allrows kids -> rowh h' !! r = rowh h !! r) as Hr'.
  { intros x Hx. apply Hr. by right. }
  clear Hl Hr. induction kids as [|t kids IHk]; [done|]. cbn in *.
  destruct Hk as [Ht Hk]. split.
  - apply IH; [|done]. intros x Hx. apply Hr', elem_of_app. by left.
  - apply IHk; [done|]. intros x Hx. apply Hr', elem_of_app. by right.
Qed.

Lemma reps_frame h h' ts :
  arrh h' = arrh h ->
  (forall r, r ∈ flat_map allrows ts -> rowh h' !! r = rowh h !! r) ->
  reps h ts -> reps h' ts.
Proof.
  intros Ha. induction ts as [|t ts IH]; [done|]. cbn. intros Hr [Ht Hts]. split.
  - eapply rep_frame; [done| |done]. intros. apply Hr, elem_of_app. by left.
  - apply IH; [|done]. intros. apply Hr, elem_of_app. by right.
Qed.
End rep.

(** ** Ids *)

Definition rid (k : nat) : string := _createRowid (Z.of_nat k + 1).

Lemma rid_inj k k' : rid k = rid k' -> k = k'.
Proof.
  unfold rid, _createRowid, show_Z. intros H. apply (inj _) in H. apply (inj pretty) in H. lia.
Qed.

(** [g.records] after the rows of [done]. *)
Definition recs_from (n : nat) (done : list entry) : list (string * rref) :=
  imap (fun k e => (rid (n + k), e_row e)) done.

Lemma recs_from_cons n e done : recs_from n (e :: done) = (rid n, e_row e) :: recs_from (S n) done.
Proof.
  unfold recs_from. cbn [imap]. rewrite Nat.add_0_r. f_equal. apply imap_ext. intros. cbn.
  by rewrite Nat.add_succ_r.
Qed.

Lemma recs_lookup n done k :
  (n <= k)%nat -> oget (rid k) (recs_from n done) = e_row <$> (done !! (k - n)%nat).
Proof.
  revert n. induction done as [|e done IH]; intros n Hn; [done|].
  rewrite recs_from_cons. cbn [oget]. case_decide as E.
  - apply rid_inj in E as ->. by rewrite Nat.sub_diag.
  - assert (k <> n) by congruence. rewrite IH by lia.
    by replace (k - n)%nat with (S (k - S n)) by lia.
Qed.

Lemma recs_snoc done e :
  recs_from 0 (done ++ [e]) = recs_from 0 done ++ [(rid (length done), e_row e)].
Proof. unfold recs_from. rewrite imap_app. cbn. by rewrite Nat.add_0_r. Qed.

(** ** The invariant of the load *)

Definition prev_link (k : nat) : link := match k with O => None | S j => Some (rid j) end.
Definition next_link (n k : nat) : option string :=
  if decide (S k < n)%nat then Some (rid (S k)) else None.

Section load.
Context (p : options).

(** What the grid writes into the [k]-th row on show. *)
Definition linked (done : list entry) (k : nat) (e : entry) (o : row) : Prop :=
  r_id o = Some (rid k) /\ r_index o = Some (Z.of_nat k) /\
  r_previd o = Some (prev_link k) /\ r_nextid o = next_link (length done) k /\
  (o_tree p = true ->
   r_level o = Some (e_level e) /\
   match e_parent e with
   | None => r_pid o = Some None
   | Some pr => exists j ej, done !! j = Some ej /\ e_row ej = pr /\ r_pid o = Some (Some (rid j))
   end).

Record Inv (g : grid) (done : list entry) : Prop := {
  inv_records : records (idx g) = recs_from 0 done;
  inv_rows : rows (idx g) = map (fun e => Some (e_row e)) done;
  inv_number : recordNumber (idx g) = Z.of_nat (length done);
  inv_linked : forall k e, done !! k = Some e ->
    exists o, rowh (heap g) !! e_row e = Some o /\ linked done k e o
}.

(** The id passed down for the parent of the rows being loaded. *)
Definition parent_link (done : list entry) (par : option rref) (lvl : Z) (pid : link) : Prop :=
  match par with
  | None => pid = None /\ lvl = 1
  | Some pr => exists j ej, done !! j = Some ej /\ e_row ej = pr /\ pid = Some (rid j) /\
                            lvl = e_level ej + 1
  end.

Lemma lookup_upd r f g r' :
  rowh (heap (upd r f g)) !! r' =
  if decide (r = r') then f <$> rowh (heap g) !! r' else rowh (heap g) !! r'.
Proof. cbn. rewrite lookup_alter. by case_decide; subst. Qed.

Lemma inv_record_at g done k e :
  Inv g done -> done !! k = Some e -> oget (rid k) (records (idx g)) = Some (e_row e).
Proof.
  intros HI Hk. rewrite (inv_records _ _ HI), recs_lookup by lia.
  by rewrite Nat.sub_0_r, Hk.
Qed.

(** The first half of [_addNewRecord], in the middle of a load. *)
Lemma link_prev_spec g done r o :
  Inv g done -> NoDup (map e_row done) -> r ∉ map e_row done ->
  rowh (heap g) !! r = Some o -> r_nextid o = None ->
  exists g',
    link_prev r (prev_link (length done)) g = Ok g' /\
    records (idx g') = records (idx g) /\ rows (idx g') = rows (idx g) /\
    recordNumber (idx g') = Z.of_nat (length done) + 1 /\
    arrh (heap g') = arrh (heap g) /\ srcs g' = srcs g /\
    rowh (heap g') !! r = Some (with_index (Some (Z.of_nat (length done)))
                                 (with_previd (Some (prev_link (length done)))
                                   (with_id (Some (rid (length done))) o))) /\
    (forall r', r' <> r -> r' ∉ map e_row done -> rowh (heap g') !! r' = rowh (heap g) !! r') /\
    (forall k e o, done !! k = Some e -> rowh (heap g) !! e_row e = Some o ->
       rowh (heap g') !! e_row e =
         Some (if decide (S k = length done) then with_nextid (Some (rid (length done))) o else o)).
Proof.
  intros HI Hnd Hr Ho Hnx. unfold link_prev. rewrite (inv_number _ _ HI).
  change (_createRowid (Z.of_nat (length done) + 1)) with (rid (length done)).
  destruct (length done) as [|j] eqn:Hlen; cbn [prev_link].
  - apply nil_length_inv in Hlen as ->.
    eexists. split; [reflexivity|]. split_and!; try done.
    + rewrite !lookup_upd, !decide_True by done. cbn. by rewrite Ho.
    + intros r' Hr' _. by rewrite !lookup_upd, !decide_False by done.
  - destruct (lookup_lt_is_Some_2 done j) as [e He]; [lia|].
    assert (e_row e <> r) as Hne.
    { intros <-. apply Hr. apply list_elem_of_fmap. exists e. split; [done|].
      by eapply list_elem_of_lookup_2. }
    destruct (inv_linked _ _ HI j e He) as (oe & Hoe & Hid & Hix & _ & Hnext & _).
    rewrite Hlen in Hnext. unfold next_link in Hnext. rewrite decide_False in Hnext by lia.
    cbn [idx upd set_heap set_idx records].
    rewrite (inv_record_at _ _ _ _ HI He). cbn [of_option mbind res_bind].
    unfold row_at. cbn [heap upd set_heap set_idx].
    change (rowh (upd_row r ?f (heap g))) with (alter f r (rowh (heap g))).
    rewrite lookup_alter_ne by done. rewrite Hoe. cbn [of_option mbind res_bind].
    rewrite Hnext. cbn [upd_row rowh heap upd set_heap set_idx]. rewrite lookup_alter_eq, lookup_alter_ne, Hoe by done.
    cbn [fmap option_fmap option_map of_option].
    eexists. split; [reflexivity|]. split_and!; try done.
    + cbn. rewrite lookup_alter_eq, lookup_alter_ne, lookup_alter_eq, Ho by done. cbn.
      rewrite Hix. cbn. by replace (Z.of_nat j + 1) with (Z.of_nat (S j)) by lia.
    + intros r' Hr' Hr''. cbn.
      assert (r' <> e_row e).
      { intros ->. apply Hr''. apply list_elem_of_fmap. exists e. split; [done|].
        by eapply list_elem_of_lookup_2. }
      by rewrite !lookup_alter_ne.
    + intros k e' o' Hk Ho'. cbn.
      assert (e_row e' <> r) as Hne'.
      { intros <-. apply Hr. apply list_elem_of_fmap. exists e'. split; [done|].
        by eapply list_elem_of_lookup_2. }
      rewrite lookup_alter_ne by done. case_decide as Hk'.
      * assert (k = j) as -> by lia. simplify_eq.
        rewrite lookup_alter_eq, lookup_alter_ne, Hoe by done. done.
      * assert (e_row e' <> e_row e) as Hee.
        { intros Heq. apply Hk'. f_equal.
          eapply (NoDup_lookup (map e_row done) k j (e_row e)); [done|..];
            rewrite list_lookup_fmap; [rewrite Hk; cbn; by rewrite Heq|by rewrite He]. }
        by rewrite !lookup_alter_ne.
Qed.

Definition placed (par : option rref) (lvl : Z) (pid : link) (r : row) : row :=
  if o_tree p then
    with_tree (Some pid) (Some lvl) (Some (bool_decide (is_Some (r_children r)))) r
  else r.

Lemma alter_Some (f : row -> row) i (m : gmap rref row) x :
  m !! i = Some x -> alter f i m = <[i := f x]> m.
Proof.
  intros Hi. apply map_eq. intros j. destruct (decide (i = j)) as [<-|].
  - by rewrite lookup_alter_eq, lookup_insert_eq, Hi.
  - by rewrite lookup_alter_ne, lookup_insert_ne.
Qed.

Lemma arr_assign_end {A} (x : A) l : arr_assign (length l) x l = l ++ [Some x].
Proof. unfold arr_assign. rewrite decide_False by lia. by rewrite Nat.sub_diag. Qed.

Lemma arr_assign_end' {A} n (x : A) l :
  length l = n -> arr_assign n x l = l ++ [Some x].
Proof. intros <-. apply arr_assign_end. Qed.

Lemma Inv_snoc g g' done r par lvl pid o :
  Inv g done ->
  records (idx g') = recs_from 0 (done ++ [(r, par, lvl)]) ->
  rows (idx g') = map (fun e => Some (e_row e)) (done ++ [(r, par, lvl)]) ->
  recordNumber (idx g') = Z.of_nat (length done) + 1 ->
  parent_link done par lvl pid ->
  rowh (heap g') !! r = Some o ->
  r_id o = Some (rid (length done)) -> r_index o = Some (Z.of_nat (length done)) ->
  r_previd o = Some (prev_link (length done)) -> r_nextid o = None ->
  (o_tree p = true -> r_level o = Some lvl /\ r_pid o = Some pid) ->
  (forall k e o, done !! k = Some e -> rowh (heap g) !! e_row e = Some o ->
     rowh (heap g') !! e_row e =
       Some (if decide (S k = length done) then with_nextid (Some (rid (length done))) o else o)) ->
  Inv g' (done ++ [(r, par, lvl)]).
Proof.
  intros HI Hrec Hrows Hnum Hpar Ho E1 E2 E3 E4 E5 Hold. split; [done|done| |].
  { rewrite Hnum, length_app. cbn. lia. }
  intros k e Hk. apply lookup_app_Some in Hk as [Hk|[Hk Hk']].
  - destruct (inv_linked _ _ HI k e Hk) as (oe & Hoe & F1 & F2 & F3 & F4 & F5).
    eexists. split; [by apply Hold|]. unfold linked. rewrite length_app. cbn [length].
    pose proof (lookup_lt_Some _ _ _ Hk).
    assert (forall o', (o_tree p = true -> r_level o' = Some (e_level e) /\
              match e_parent e with
              | None => r_pid o' = Some None
              | Some pr => exists j ej, done !! j = Some ej /\ e_row ej = pr /\
                                        r_pid o' = Some (Some (rid j)) end) ->
            (o_tree p = true -> r_level o' = Some (e_level e) /\
              match e_parent e with
              | None => r_pid o' = Some None
              | Some pr => exists j ej, (done ++ [(r, par, lvl)]) !! j = Some ej /\ e_row ej = pr /\
                                        r_pid o' = Some (Some (rid j)) end)) as Hmono.
    { intros o' Hf Ht. destruct (Hf Ht) as [? Hp]. split; [done|].
      destruct (e_parent e); [|done]. destruct Hp as (j & ej & Hj & ? & ?).
      exists j, ej. split; [by apply lookup_app_l_Some|done]. }
    destruct (decide (S k = length done)) as [Hlast|Hlast]; unfold next_link in *; cbn.
    + rewrite decide_True by lia. rewrite Hlast. split_and!; try done. by apply Hmono.
    + rewrite F4. split_and!; try done; [|by apply Hmono].
      repeat case_decide; try done; lia.
  - destruct (k - length done)%nat as [|n] eqn:En; [|done]. cbn in Hk'. simplify_eq.
    assert (k = length done) as -> by lia. exists o. split; [done|]. unfold linked.
    rewrite length_app. cbn [length]. unfold next_link. rewrite decide_False by lia.
    split_and!; try done. intros Ht. destruct (E5 Ht) as [-> ->]. split; [done|].
    cbn. destruct par as [pr|]; cbn in Hpar; [|by destruct Hpar as [-> _]].
    destruct Hpar as (j & ej & Hj & ? & -> & _). exists j, ej.
    split; [by apply lookup_app_l_Some|done].
Qed.

Lemma link_parent_spec g done r o par lvl pid :
  records (idx g) = recs_from 0 done ->
  (o_tree p = true -> forall k e, done !! k = Some e ->
     exists oe, rowh (heap g) !! e_row e = Some oe /\ r_level oe = Some (e_level e)) ->
  rowh (heap g) !! r = Some o ->
  parent_link done par lvl pid ->
  exists g', link_parent p r pid g = Ok g' /\ idx g' = idx g /\
    arrh (heap g') = arrh (heap g) /\ srcs g' = srcs g /\
    rowh (heap g') = <[r := placed par lvl pid o]> (rowh (heap g)).
Proof.
  intros Hrec Hlvl Ho Hpar. unfold link_parent, placed. destruct (o_tree p) eqn:Ht.
  - destruct par as [pr|]; cbn in Hpar.
    + destruct Hpar as (j & ej & Hj & Hpr & -> & Hlv).
      rewrite Hrec, recs_lookup, Nat.sub_0_r, Hj by lia. cbn [fmap option_fmap option_map of_option mbind res_bind].
      destruct (Hlvl eq_refl j ej Hj) as (oe & Hoe & Hloe).
      unfold row_at. rewrite Hoe. cbn [of_option mbind res_bind]. rewrite Hloe.
      eexists. split; [reflexivity|]. split_and!; try done.
      cbn. erewrite alter_Some by done. by rewrite Hlv.
    + destruct Hpar as [-> ->]. eexists. split; [reflexivity|]. split_and!; try done.
      cbn. by erewrite alter_Some.
  - exists g. split_and!; try done. by rewrite insert_id.
Qed.

(** [_addNewRecord] in the middle of a load: the invariant holds with the new
    row at the end, and no other row that is not on show has changed. *)
Lemma _addNewRecord_spec g done r o par lvl pid :
  Inv g done -> NoDup (map e_row done) -> r ∉ map e_row done ->
  rowh (heap g) !! r = Some o -> r_nextid o = None ->
  parent_link done par lvl pid ->
  exists g' o',
    _addNewRecord p r (prev_link (length done)) pid g = Ok g' /\
    Inv g' (done ++ [(r, par, lvl)]) /\
    arrh (heap g') = arrh (heap g) /\ srcs g' = srcs g /\
    (forall r', r' <> r -> r' ∉ map e_row done -> rowh (heap g') !! r' = rowh (heap g) !! r') /\
    rowh (heap g') !! r = Some o' /\ r_id o' = Some (rid (length done)) /\
    r_children o' = r_children o /\
    r_hasChildren o' = (if o_tree p then Some (bool_decide (is_Some (r_children o)))
                        else r_hasChildren o).
Proof.
  intros HI Hnd Hr Ho Hnx Hpar. unfold _addNewRecord.
  destruct (link_prev_spec g done r o HI Hnd Hr Ho Hnx)
    as (g1 & -> & Hrec1 & Hrows1 & Hnum1 & Harr1 & Hsrc1 & Hro1 & Hoth1 & Hdone1).
  cbn [mbind res_bind].
  set (o1 := with_index _ _) in Hro1.
  destruct (link_parent_spec g1 done r o1 par lvl pid) as (g2 & -> & Hidx2 & Harr2 & Hsrc2 & Hrow2);
    [by rewrite Hrec1, (inv_records _ _ HI)| |done..|].
  { intros Htr k e Hk. destruct (inv_linked _ _ HI k e Hk) as (oe & Hoe & Hl).
    specialize (Hdone1 k e oe Hk Hoe). eexists. split; [exact Hdone1|].
    destruct Hl as (_ & _ & _ & _ & Htree). destruct (Htree Htr) as [Hlv _].
    by case_decide. }
  cbn [mbind res_bind].
  set (o2 := mark_nochanged p (placed par lvl pid o1)).
  assert (rowh (heap (upd r (mark_nochanged p) g2)) = <[r := o2]> (rowh (heap g1))) as Hrow3.
  { cbn. rewrite Hrow2. erewrite alter_Some by apply lookup_insert_eq. by rewrite insert_insert_eq. }
  assert (r_id o2 = Some (rid (length done)) /\ r_index o2 = Some (Z.of_nat (length done)) /\
          r_previd o2 = Some (prev_link (length done)) /\ r_nextid o2 = None /\
          r_children o2 = r_children o /\
          r_hasChildren o2 = (if o_tree p then Some (bool_decide (is_Some (r_children o)))
                              else r_hasChildren o) /\
          (o_tree p = true -> r_level o2 = Some lvl /\ r_pid o2 = Some pid))
    as (E1 & E2 & E3 & E4 & E5 & E6 & E7).
  { unfold o2, mark_nochanged, placed, o1. destruct (o_tree p), (is_str _ _); cbn; naive_solver. }
  unfold file_record, row_at. rewrite Hrow3, lookup_insert_eq. cbn [of_option mbind res_bind].
  rewrite E1, E2. cbn [of_option mbind res_bind].
  rewrite (proj2 (Z.ltb_ge _ _)) by lia. rewrite Nat2Z.id.
  change (idx (upd r (mark_nochanged p) g2)) with (idx g2).
  rewrite Hidx2, Hrec1, Hrows1, Hnum1, (inv_records _ _ HI), (inv_rows _ _ HI).
  rewrite oset_fresh by (rewrite recs_lookup by lia; by rewrite Nat.sub_0_r, lookup_ge_None_2).
  rewrite (arr_assign_end' (length done)) by (by rewrite length_map).
  eexists _, o2. split; [reflexivity|].
  assert (forall r', r' <> r -> rowh (heap (upd r (mark_nochanged p) g2)) !! r'
                                = rowh (heap g1) !! r') as Hoth3.
  { intros r' Hr'. by rewrite Hrow3, lookup_insert_ne. }
  split.
  - apply (Inv_snoc g _ done r par lvl pid o2); try done.
    + cbn [idx set_idx records]. by rewrite recs_snoc.
    + cbn [idx set_idx rows]. by rewrite map_app.
    + cbn [heap set_idx]. by rewrite Hrow3, lookup_insert_eq.
    + intros k e oe Hk Hoe. cbn [heap set_idx]. rewrite Hoth3; [by apply Hdone1|].
      intros Heq. apply Hr, list_elem_of_fmap. exists e. split; [done|].
      by eapply list_elem_of_lookup_2.
  - split_and!; try done.
    + cbn. by rewrite Harr2, Harr1.
    + cbn. by rewrite Hsrc2, Hsrc1.
    + intros r' Hr' Hr''. cbn [heap set_idx]. rewrite Hoth3 by done. by apply Hoth1.
    + cbn [heap set_idx]. by rewrite Hrow3, lookup_insert_eq.
Qed.

(** The rows on show are among all the rows, in order. *)
Lemma entries_sublist t par lvl : map e_row (entries par lvl t) `sublist_of` allrows t.
Proof.
  revert par lvl t. fix IH 3. intros par lvl [r del ch kids]. cbn.
  destruct del; [apply sublist_nil_l|]. cbn. apply sublist_skip. generalize (Some r), (lvl + 1).
  induction kids as [|t kids IHk]; intros par' lvl'; cbn; [done|].
  rewrite map_app. apply sublist_app; [apply IH|apply IHk].
Qed.

Lemma entries_sublists ts par lvl :
  map e_row (flat_map (entries par lvl) ts) `sublist_of` flat_map allrows ts.
Proof.
  induction ts as [|t ts IH]; cbn; [done|]. rewrite map_app.
  apply sublist_app; [apply entries_sublist|done].
Qed.

Lemma entries_sublist_one t par lvl :
  map e_row (flat_map (entries par lvl) [t]) `sublist_of` allrows t.
Proof. cbn [flat_map]. rewrite app_nil_r. apply entries_sublist. Qed.

(** What loading the trees [ts] does, in the middle of a load. *)
Definition loads (f : link * grid -> res (link * grid)) (g : grid) (done : list entry)
    (par : option rref) (lvl : Z) (ts : list tree) : Prop :=
  let done' := done ++ flat_map (entries par lvl) ts in
  exists g', f (prev_link (length done), g) = Ok (prev_link (length done'), g') /\
    Inv g' done' /\ arrh (heap g') = arrh (heap g) /\ srcs g' = srcs g /\
    (forall r, r ∉ map e_row done ++ flat_map allrows ts ->
       rowh (heap g') !! r = rowh (heap g) !! r).

Definition can_load (g : grid) (done : list entry) (par : option rref) (lvl : Z) (pid : link)
    (ts : list tree) : Prop :=
  Inv g done /\ NoDup (map e_row done ++ flat_map allrows ts) /\ reps p (heap g) ts /\
  parent_link done par lvl pid.

Definition in_array (g : grid) (ch : option aref) (ts : list tree) : Prop :=
  match ch with None => ts = [] | Some a => arrh (heap g) !! a = Some (map root ts) end.

Lemma parent_link_app done done' par lvl pid :
  parent_link done par lvl pid -> parent_link (done ++ done') par lvl pid.
Proof.
  destruct par as [pr|]; [|done]. cbn. intros (j & ej & Hj & Hrest). exists j, ej.
  split; [by apply lookup_app_l_Some|done].
Qed.

Lemma Inv_upd_other g done r f : Inv g done -> r ∉ map e_row done -> Inv (upd r f g) done.
Proof.
  intros HI Hr. split; [apply HI..|]. intros k e Hk.
  destruct (inv_linked _ _ HI k e Hk) as (o & Ho & Hl). exists o. split; [|done].
  rewrite lookup_upd, decide_False; [done|]. intros ->. apply Hr, list_elem_of_fmap.
  exists e. split; [done|]. by eapply list_elem_of_lookup_2.
Qed.

Lemma formatted o :
  let o' := formatRecord p false o in
  r_nextid o' = None /\ r_children o' = r_children o /\ r_props o' = r_props o /\
  r_hasChildren o' = if o_tree p then None else r_hasChildren o.
Proof. unfold formatRecord. by destruct (o_tree p). Qed.

(** The step of the loop for a row that is not deleted. *)
Definition load_row (rec : option aref -> link -> link * grid -> res (link * grid))
    (pid : link) (o : rref) (st : link * grid) : res (link * grid) :=
  g ← _addNewRecord p o st.1 pid st.2;
  orow ← row_at (heap g) o;
  let st' := (r_id orow, g) in
  if default false (r_hasChildren orow) then
    if o_tree p then rec (r_children orow) (r_id orow) st' else Throw TypeError
  else Ok st'.

Lemma load_list_cons rec pid o l st :
  load_list p rec pid (o :: l) st =
  let g := upd o (formatRecord p false) st.2 in
  orow ← row_at (heap g) o;
  if is_str "delete" (prop (o_statusName p) orow) then load_list p rec pid l (st.1, g)
  else st' ← load_row rec pid o (st.1, g); load_list p rec pid l st'.
Proof.
  cbn. destruct (row_at _ _) as [orow|]; [|done]. cbn. destruct (is_str _ _); [done|].
  unfold load_row. cbn. destruct (_addNewRecord _ _ _ _ _) as [g|]; [|done]. cbn.
  destruct (row_at (heap g) o); [|done]. done.
Qed.

Section list.
Context (rec : option aref -> link -> link * grid -> res (link * grid)) (fuel : nat).
Context (Hrec : forall g done par lvl pid ch ts,
  match ch with None => True | Some _ => (S (foldr Nat.max O (map height ts)) <= fuel)%nat end ->
  can_load g done par lvl pid ts -> in_array g ch ts ->
  loads (rec ch pid) g done par lvl ts).

Lemma load_row_spec g done par lvl pid r o ch kids :
  Inv g done -> NoDup (map e_row done ++ r :: flat_map allrows kids) ->
  rowh (heap g) !! r = Some o -> r_nextid o = None ->
  (if o_tree p then r_children o = ch else ch = None /\ r_hasChildren o = None) ->
  in_array g ch kids -> reps p (heap g) kids -> parent_link done par lvl pid ->
  (height (Node r false ch kids) <= fuel)%nat ->
  loads (load_row rec pid r) g done par lvl [Node r false ch kids].
Proof.
  intros HI Hnd Ho Hnx Hch Harr Hreps Hpar Hh.
  apply NoDup_app in Hnd as Hnd'. destruct Hnd' as (Hnd1 & Hdis & [Hrk Hndk]%NoDup_cons).
  assert (r ∉ map e_row done) as Hr by (intros Hin; by eapply Hdis; [exact Hin|left]).
  destruct (_addNewRecord_spec g done r o par lvl pid HI Hnd1 Hr Ho Hnx Hpar)
    as (g1 & o1 & Hadd & HI1 & Ha1 & Hs1 & Hf1 & Ho1 & Hid1 & Hc1 & Hhc1).
  unfold loads, load_row. cbn [fst snd]. rewrite Hadd. cbn [mbind res_bind].
  unfold row_at. rewrite Ho1. cbn [of_option mbind res_bind]. rewrite Hid1, Hc1, Hhc1.
  set (done1 := done ++ [(r, par, lvl)]) in *.
  assert (prev_link (length done1) = Some (rid (length done))) as Hl1.
  { unfold done1. rewrite length_app. cbn. by rewrite Nat.add_1_r. }
  assert (done ++ flat_map (entries par lvl) [Node r false ch kids]
          = done1 ++ flat_map (entries (Some r) (lvl + 1)) kids) as ->.
  { cbn. unfold done1. rewrite app_nil_r, <-app_assoc. done. }
  assert (can_load g1 done1 (Some r) (lvl + 1) (Some (rid (length done))) kids) as Hcan.
  { split_and!; [done| | |].
    - unfold done1. rewrite map_app, <-app_assoc. exact Hnd.
    - eapply reps_frame; [exact Ha1| |exact Hreps]. intros x Hx. apply Hf1.
      + intros ->. done.
      + intros Hin. eapply Hdis; [exact Hin|by right].
    - exists (length done), (r, par, lvl). unfold done1.
      by rewrite lookup_app_r, Nat.sub_diag by lia. }
  assert (in_array g1 ch kids) as Harr1 by (unfold in_array in *; by rewrite Ha1).
  assert (forall r', r' ∉ map e_row done ++ flat_map allrows [Node r false ch kids] ->
            rowh (heap g1) !! r' = rowh (heap g) !! r') as Hframe1.
  { intros r' Hr'. cbn in Hr'. rewrite app_nil_r, elem_of_app, elem_of_cons in Hr'.
    apply Hf1; tauto. }
  assert (o_tree p = true /\ ch <> None \/ (ch = None /\ kids = [] /\
    default false (if o_tree p then Some (bool_decide (is_Some (r_children o)))
                   else r_hasChildren o) = false)) as [[Ht Hsome]|(-> & -> & ->)].
  { destruct (o_tree p); [|right; destruct Hch as [-> ->]; done].
    destruct ch as [a|]; [by left|right]. rewrite Hch. done. }
  - rewrite Ht in *. subst ch. destruct (r_children o) as [a|] eqn:Hca; [|done].
    rewrite bool_decide_true by done. cbn [default].
    destruct (Hrec g1 done1 (Some r) (lvl + 1) (Some (rid (length done))) (Some a) kids)
      as (g2 & Heq & HI2 & Ha2 & Hs2 & Hf2); [done|done|done|].
    rewrite Hl1 in Heq. exists g2. split; [exact Heq|]. split_and!; [done|congruence|congruence|].
    intros r' Hr'. rewrite Hf2; [by apply Hframe1|]. unfold done1. cbn in Hr'.
    rewrite map_app. cbn. rewrite app_nil_r in Hr'. by rewrite <-app_assoc.
  - cbn [flat_map]. rewrite app_nil_r, Hl1. exists g1. by split_and!.
Qed.

Lemma load_list_spec ts g done par lvl pid :
  Forall (fun t => (height t <= fuel)%nat) ts ->
  can_load g done par lvl pid ts ->
  loads (load_list p rec pid (map root ts)) g done par lvl ts.
Proof.
  revert g done. induction ts as [|[r del ch kids] ts IH]; intros g done Hh Hcan.
  { destruct Hcan as (HI & _). exists g. cbn. rewrite app_nil_r. by split_and!. }
  destruct Hcan as (HI & Hnd & [[(o & Ho & Hdel & Hch) Hkids] Hts] & Hpar).
  apply Forall_cons in Hh as [Hh Hhs]. cbn [map root].
  cbn [flat_map allrows] in Hnd. rewrite <-app_comm_cons in Hnd.
  apply NoDup_app in Hnd as Hnd'. destruct Hnd' as (Hnd1 & Hdis & Hnd2).
  apply NoDup_cons in Hnd2 as [Hrk Hndk].
  assert (r ∉ map e_row done) as Hr by (intros Hin; by eapply Hdis; [exact Hin|left]).
  assert (forall x, x ∈ flat_map allrows kids ++ flat_map allrows ts -> x <> r) as Hne.
  { intros x Hx ->. done. }
  set (g0 := upd r (formatRecord p false) g).
  assert (Inv g0 done) as HI0 by (by apply Inv_upd_other).
  assert (forall x, x <> r -> rowh (heap g0) !! x = rowh (heap g) !! x) as Hf0.
  { intros x Hx. unfold g0. by rewrite lookup_upd, decide_False. }
  destruct (formatted o) as (F1 & F2 & F3 & F4).
  assert (rowh (heap g0) !! r = Some (formatRecord p false o)) as Ho0.
  { unfold g0. by rewrite lookup_upd, decide_True, Ho. }
  unfold loads. rewrite load_list_cons. cbv zeta. cbn [fst snd]. fold g0.
  unfold row_at. rewrite Ho0. cbn [of_option mbind res_bind].
  unfold prop at 1. rewrite F3. fold (prop (o_statusName p) o). rewrite Hdel.
  destruct del; cbn [flat_map entries].
  - destruct (IH g0 done Hhs) as (g' & Heq & HI' & Ha & Hs & Hf).
    { split_and!; [done| | |done].
      - eapply sublist_NoDup; [exact Hnd|]. apply sublist_app; [done|].
        apply sublist_cons, sublist_inserts_l. done.
      - apply (reps_frame p (heap g)); [done| |exact Hts]. intros. apply Hf0, Hne, elem_of_app. by right. }
    cbn [app]. exists g'. split_and!; [exact Heq|done|by rewrite Ha|by rewrite Hs|].
    intros x Hx. cbn in Hx. rewrite Hf; [apply Hf0|]; set_solver.
  - destruct (load_row_spec g0 done par lvl pid r (formatRecord p false o) ch kids)
      as (g1 & Heq1 & HI1 & Ha1 & Hs1 & Hf1); try done.
    { eapply sublist_NoDup; [exact Hnd|]. apply sublist_app; [done|].
      apply sublist_skip, sublist_inserts_r. done. }
    { rewrite F2, F4. by destruct (o_tree p). }
    { unfold in_array. destruct ch; [by destruct Hkids|done]. }
    { destruct ch; [|by subst]. destruct Hkids as [_ Hkids].
      apply (reps_frame p (heap g)); [done| |exact Hkids]. intros. apply Hf0, Hne, elem_of_app. by left. }
    rewrite Heq1. cbn [mbind res_bind].
    set (done1 := done ++ flat_map (entries par lvl) [Node r false ch kids]) in *.
    destruct (IH g1 done1 Hhs) as (g' & Heq & HI' & Ha & Hs & Hf).
    { split_and!; [done| | |by apply parent_link_app].
      - unfold done1. rewrite map_app, <-app_assoc. eapply sublist_NoDup; [exact Hnd|].
        apply sublist_app; [done|]. rewrite app_comm_cons. apply sublist_app; [|done].
        exact (entries_sublist_one (Node r false ch kids) par lvl).
      - apply (reps_frame p (heap g)); [by rewrite Ha1| |exact Hts]. intros x Hx.
        assert (x <> r) by (apply Hne, elem_of_app; by right).
        rewrite Hf1; [by apply Hf0|].
        rewrite elem_of_app. cbn [flat_map]. rewrite app_nil_r. cbn [allrows].
        rewrite elem_of_cons. intros [Hin|[?|Hin]]; [|done|].
        + eapply Hdis; [exact Hin|]. right. apply elem_of_app. by right.
        + apply NoDup_app in Hndk as (_ & Hdk & _). by eapply Hdk. }
    exists g'. rewrite Heq. unfold done1. rewrite <-!app_assoc. cbn [flat_map entries app].
    rewrite app_nil_r. split_and!; try done.
    + unfold done1 in HI'. rewrite <-!app_assoc in HI'. cbn [flat_map entries app] in HI'.
      by rewrite app_nil_r in HI'.
    + by rewrite Ha, Ha1.
    + by rewrite Hs, Hs1.
    + intros x Hx. assert (x <> r) by set_solver.
      rewrite Hf, Hf1, Hf0; [done|done|set_solver|].
      pose proof (entries_sublist_one (Node r false ch kids) par lvl) as Hsub.
      unfold done1. rewrite map_app. intros Hin. apply Hx.
      rewrite !elem_of_app in Hin. destruct Hin as [[Hin|Hin]|Hin].
      * apply elem_of_app. by left.
      * apply elem_of_app. right. apply elem_of_app. left.
        by apply (sublist_subseteq _ _ Hsub).
      * apply elem_of_app. right. apply elem_of_app. by right.
Qed.
End list.

Lemma load_spec fuel : forall g done par lvl pid ch ts,
  match ch with None => True | Some _ => (S (foldr Nat.max O (map height ts)) <= fuel)%nat end ->
  can_load g done par lvl pid ts -> in_array g ch ts ->
  loads (load p fuel ch pid) g done par lvl ts.
Proof.
  induction fuel as [|fuel IH]; intros g done par lvl pid [a|] ts Hh Hcan Harr; cbn in Harr.
  - lia.
  - subst ts. exists g. cbn. rewrite app_nil_r. destruct Hcan as [HI _]. by split_and!.
  - unfold loads. cbn [load snd]. unfold arr_at. rewrite Harr. cbn [of_option mbind res_bind].
    apply (load_list_spec (load p fuel) fuel IH _ _ _ _ _ pid); [|done].
    clear -Hh. induction ts as [|t ts IHt]; cbn in Hh; constructor; [lia|].
    apply IHt. cbn. lia.
  - subst ts. exists g. cbn. rewrite app_nil_r. destruct Hcan as [HI _]. by split_and!.
Qed.
End load.

(** ** The specification of [_updateGridData] *)

(** The grid shows the rows [shown]: records and rows list them in order, and
    every row is linked to its neighbours and its parent. *)
Definition shows (p : options) (g : grid) (shown : list entry) : Prop := Inv p g shown.

(** C1: on data that form a forest, with more fuel than the forest has levels,
    [_updateGridData] succeeds; the records and the rows are then the rows of the
    forest in depth-first order, deleted rows left out with all below them; the
    [k]-th has id, index, neighbours, parent and level to match; and the arrays of
    the data are as they were. *)
Theorem _updateGridData_forest p g fuel d s a ts :
  currentData (srcs g) = Some d -> srch (heap g) !! d = Some s -> s_rows s = Some a ->
  arrh (heap g) !! a = Some (map root ts) ->
  reps p (heap g) ts -> NoDup (flat_map allrows ts) ->
  (foldr Nat.max O (map height ts) < fuel)%nat ->
  exists g', _updateGridData p fuel g = Ok g' /\
    shows p g' (flat_map (entries None 1) ts) /\ arrh (heap g') = arrh (heap g).
Proof.
  intros Hd Hs Ha Harr Hreps Hnd Hfuel. unfold _updateGridData, current_rows.
  cbn [set_idx srcs heap]. rewrite Hd. cbn [of_option mbind res_bind].
  unfold src_at. rewrite Hs. cbn [of_option mbind res_bind]. rewrite Ha.
  set (g0 := set_idx g (Index [] [] 0)).
  destruct (load_spec p fuel g0 [] None 1 None (Some a) ts)
    as (g' & Heq & HI & Harr' & _); [lia| |done|].
  { by split_and!. }
  cbn [length prev_link] in Heq. rewrite Heq. cbn [mbind res_bind]. by exists g'.
Qed.

(** ** A row with two rows below it, the first of them deleted *)

Definition tree_store : store :=
  Store (<[1%positive := Row None None None None None None None (Some 2%positive) []]>
          (<[2%positive := Row None None None None None None None None
                             [("__status"%string, VStr "delete")]]>
          (<[3%positive := blank_row "c"]> ∅)))
        (<[1%positive := [1%positive]]> {[ 2%positive := [2%positive; 3%positive] ]})
        {[ 1%positive := Source (Some 1%positive) None ]}.
Definition tree_options : options := Options true "__status" false false true true 2.
Definition tree_grid : grid := set_heap demo_grid tree_store.
Definition tree_forest : list tree :=
  [Node 1%positive false (Some 2%positive)
     [Node 2%positive true None []; Node 3%positive false None []]].

Lemma _updateGridData_forest_witness :
  exists g', _updateGridData tree_options 2 tree_grid = Ok g' /\
    shows tree_options g' [(1%positive, None, 1); (3%positive, Some 1%positive, 2)].
Proof.
  destruct (_updateGridData_forest tree_options tree_grid 2 1%positive
              (Source (Some 1%positive) None) 1%positive tree_forest) as (g' & H & Hs & _).
  1-4: reflexivity.
  - cbn. repeat split; try (eexists; split; [vm_compute; reflexivity|by split]).
  - apply (bool_decide_unpack _). vm_compute. exact I.
  - cbn. lia.
  - by exists g'.
Defined.
