(* ===== verification/GridShow.v ===== *)
(** * ligerGrid: the selection, search, pages and showing the data

    [select], [unselect], [_removeSelected], [getSelectedRows], [_searchData],
    [_getCurrentPageData], [_buildPager], [_showData], [loadData],
    [loadServerData] and its replies, [changePage]. *)

From S2P Require Import Prelude JsString JsNum GridHeap GridRows.
Local Open Scope string_scope.
Local Open Scope Z_scope.

(** [s.substr] aside, the numbers put into the pager's text are integers. *)
Definition page_stat (msg : string) (from to tot size : Z) : string :=
  js_replace "{pagesize}" (show_Z size)
    (js_replace "{total}" (show_Z tot)
      (js_replace "{to}" (show_Z to)
        (js_replace "{from}" (show_Z from) msg))).

(** ** Selection *)

Section selection.
Context (p : options) (ctrlKey : bool) (fuel : nat).

(** [o['__id'] in g.records] *)
Definition in_records (g : grid) (r : rref) : bool :=
match rowh (heap g) !! r with
| Some o => match r_id o with Some id => _isRowId id g | None => false end
| None => false
end.

(** [getRowObj]: the id of the row whose element is looked up; a string that is
  neither a row id nor a position of a row is a [TypeError]. *)
Definition getRowObj (q : rowParm) (g : grid) : res (option string) :=
match q with
| PNull => Ok None
| PStr s =>
    if _isRowId s g then Ok (Some s)
    else r ← of_option (row_number (parseInt s) g); o ← row_at (heap g) r; Ok (r_id o)
| PNum n => r ← of_option (row_number (Some n) g); o ← row_at (heap g) r; Ok (r_id o)
| PRow r =>
    o ← row_at (heap g) r;
    match r_id o with
    | None => Ok None
    | Some s =>
        if _isRowId s g then Ok (Some s)
        else r ← of_option (row_number (parseInt s) g); o ← row_at (heap g) r; Ok (r_id o)
    end
| PDom d => Ok (_getRowIdByDomId d)
end.

Definition id_parm (id : option string) : rowParm :=
match id with Some s => PStr s | None => PNull end.

Definition log_all (evs : list event) (g : grid) : grid := fold_left log evs g.

Definition select (q : rowParm) (g : grid) : res grid :=
r ← of_option (getRow q g);
o ← row_at (heap g) r;
_ ← getRowObj (id_parm (r_id o)) g;
let g :=
  if negb (o_checkbox p) && negb ctrlKey then
    set_selected
      (log_all (map (fun s => EvSelect s false) (List.filter (in_records g) (selected g))) g) []
  else g in
let g := log g (EvSelect r true) in
let g := set_selected g (selected g ++ [r])%list in
Ok (log g (EvTrigger "selectRow" (Some r))).

(** The children go first, then the row itself; each is looked up with
    [$.inArray], so a row given by its id or position is not found. *)
Definition _removeSelected (q : rowParm) (g : grid) : res grid :=
  children ← getChildren p fuel q true g;
  let sel := fold_left (fun sel c => remove_first c sel) (default [] children) (selected g) in
  Ok (set_selected g (match q with PRow r => remove_first r sel | _ => sel end)).

Definition unselect (q : rowParm) (g : grid) : res grid :=
r ← of_option (getRow q g);
o ← row_at (heap g) r;
_ ← getRowObj (id_parm (r_id o)) g;
let g := log g (EvSelect r false) in
g ← _removeSelected (PRow r) g;
Ok (log g (EvTrigger "unSelectRow" (Some r))).

Definition isSelected (q : rowParm) (g : grid) : bool :=
match getRow q g with
| Some r => bool_decide (r ∈ selected g)
| None => false
end.

Definition getSelectedRows (g : grid) : list rref := List.filter (in_records g) (selected g).

Definition getSelectedRow (g : grid) : option rref := head (getSelectedRows g).

Definition getSelectedRowObjs (g : grid) : res (list (option string)) :=
foldr (fun r acc => x ← getRowObj (PRow r) g; l ← acc; Ok (x :: l)) (Ok []) (getSelectedRows g).

Definition getSelectedRowObj (g : grid) : res (option string) :=
match getSelectedRow g with
| None => Ok None
| Some r => getRowObj (PRow r) g
end.

(** The check box of the header: every record is selected, or unselected. *)
Fixpoint check_rows (l : list (string * rref)) (uncheck : bool) (g : grid) : res grid :=
match l with
| [] => Ok g
| (_, r) :: l' =>
    g ← (if uncheck then unselect (PRow r) g else select (PRow r) g);
    check_rows l' uncheck g
end.

Definition check_all (vetoed uncheck : bool) (g : grid) : res grid :=
if vetoed then Ok g
else
  let g := log (set_selected g []) (EvButton "l-checked" (negb uncheck)) in
  g ← check_rows (records (idx g)) uncheck g;
  Ok (log g (EvTrigger "checkAllRow" None)).
End selection.

(** ** Rows of a page, rows of a search *)

(** The row object and its position. *)
Fixpoint search_from (clause : row -> Z -> bool) (i : Z) (l : list rref) (h : store)
    : res (list rref) :=
  match l with
  | [] => Ok []
  | r :: l' =>
      o ← row_at h r;
      rest ← search_from clause (i + 1) l' h;
      Ok (if clause o i then r :: rest else rest)
  end.

Definition _searchData (clause : row -> Z -> bool) (l : list rref) (h : store)
    : res (list rref) := search_from clause 0 l h.

(** [for (i = (newPage - 1) * pageSize; i < length && i < newPage * pageSize; i++)];
    a round for every element is enough.  Page numbers are at least one. *)
Fixpoint page_loop (n : nat) (i stop : Z) (l : list rref) : list rref :=
  match n with
  | O => []
  | S n' =>
      if (i <? Z.of_nat (length l)) && (i <? stop) then
        option_list (l !! Z.to_nat i) ++ page_loop n' (i + 1) stop l
      else []
  end%list.

Definition page_rows (newPage pageSize : Z) (l : list rref) : list rref :=
  page_loop (length l) ((newPage - 1) * pageSize) (newPage * pageSize) l.

Definition set_newPage (n : Z) (g : grid) : grid :=
  set_pg g (Pager (page (pg g)) n (total (pg g)) (pageCount (pg g))).

Definition src_rows (d : option dref) (h : store) : list rref :=
  match d with
  | Some d => match srch h !! d with
              | Some s => match s_rows s with
                          | Some a => default [] (arrh h !! a) | None => [] end
              | None => [] end
  | None => []
  end.

Definition new_source (l : list rref) (g : grid) : dref * grid :=
  let '(a, h) := new_arr l (heap g) in
  let '(d, h) := new_src (Source (Some a) (Some (Z.of_nat (length l)))) h in
  (d, set_heap g h).

Section data.
Context (p : options).

(** The record count of a page is the length of what it is cut from. *)
Definition _getCurrentPageData (source : option dref) (g : grid) : dref * grid :=
match src_rows source (heap g) with
| [] => new_source [] g
| l =>
    let g := if newPage (pg g) =? 0 then set_newPage 1 g else g in
    let '(a, h) := new_arr (page_rows (newPage (pg g)) (o_pageSize p) l) (heap g) in
    let '(d, h) := new_src (Source (Some a) (Some (Z.of_nat (length l)))) h in
    (d, set_heap g h)
end.

(** ** The pager *)

(** [Math.ceil(total / pageSize)], a page count of zero becoming one. *)
Definition page_count (tot size : Z) : Z :=
let n := - (- tot / size) in if n =? 0 then 1 else n.

Definition pager_from (page size tot : Z) : Z :=
if tot =? 0 then 0 else Z.max ((page - 1) * size + 1) 0.
Definition pager_to (page size tot : Z) : Z :=
let r2 := (page - 1) * size + 1 + size - 1 in
let r2 := if tot <? r2 then tot else r2 in
if tot =? 0 then 0 else Z.max r2 0.

Definition pager_buttons (page pageCount tot : Z) : list event :=
(if tot =? 0 then [EvButton "first" false; EvButton "prev" false;
                   EvButton "next" false; EvButton "last" false] else []) ++
(if page =? 1 then [EvButton "first" false; EvButton "prev" false]
 else if (pageCount <? page) && (0 <? pageCount)
 then [EvButton "first" true; EvButton "prev" true] else []) ++
(if page =? pageCount then [EvButton "last" false; EvButton "next" false]
 else if (page <? pageCount) && (0 <? pageCount)
 then [EvButton "last" true; EvButton "next" true] else []).

Definition _buildPager (pageStatMessage : string) (g : grid) : grid :=
let pc := if pageCount (pg g) =? 0 then 1 else pageCount (pg g) in
let g := set_pg g (Pager (page (pg g)) (newPage (pg g)) (total (pg g)) pc) in
let stat := page_stat pageStatMessage
              (pager_from (page (pg g)) (o_pageSize p) (total (pg g)))
              (pager_to (page (pg g)) (o_pageSize p) (total (pg g)))
              (total (pg g)) (o_pageSize p) in
log_all (EvPager (page (pg g)) pc stat :: pager_buttons (page (pg g)) pc (total (pg g)))%list g.

(** The count [_showData] takes: the server's, or the length of the filtered
  rows, of the data, of what is on show. *)
Definition has_rows (d : option dref) (h : store) : bool :=
match d with
| Some d => match srch h !! d with Some s => bool_decide (is_Some (s_rows s)) | None => false end
| None => false
end.
Definition src_record (d : option dref) (h : store) : Z :=
match d with
| Some d => match srch h !! d with Some s => default 0 (s_record s) | None => 0 end
| None => 0
end.

Definition show_total (g : grid) : Z :=
let h := heap g in let s := srcs g in
if negb (o_localAction p) && negb (src_record (data s) h =? 0) then src_record (data s) h
else if has_rows (filteredData s) h then Z.of_nat (length (src_rows (filteredData s) h))
else if has_rows (data s) h then Z.of_nat (length (src_rows (data s) h))
else if has_rows (currentData s) h then Z.of_nat (length (src_rows (currentData s) h))
else total (pg g).

Definition show_pager (g : grid) : grid :=
let tot := show_total g in
let pag := if newPage (pg g) =? 0 then 1 else newPage (pg g) in
set_pg g (Pager pag (newPage (pg g)) tot (page_count tot (o_pageSize p))).

Definition set_current (d : option dref) (g : grid) : grid :=
set_srcs g (Sources d (filteredData (srcs g)) (sortedData (srcs g)) (data (srcs g))).
Definition set_filtered (d : option dref) (g : grid) : grid :=
set_srcs g (Sources (currentData (srcs g)) d (sortedData (srcs g)) (data (srcs g))).
Definition set_sorted (d : option dref) (g : grid) : grid :=
set_srcs g (Sources (currentData (srcs g)) (filteredData (srcs g)) d (data (srcs g))).
Definition set_data (d : option dref) (g : grid) : grid :=
set_srcs g (Sources (currentData (srcs g)) (filteredData (srcs g)) (sortedData (srcs g)) d).

Section page.
Context (fuel : nat) (pageStatMessage : string) (frozenOn vetoShow : bool).

(** [_showData]; [vetoShow] is a [beforeShowData] handler returning false. *)
Definition _showData (g : grid) : res grid :=
  _ ← current_rows g;
  let g := if o_usePager p then _buildPager pageStatMessage (show_pager g) else g in
  if vetoShow then Ok g
  else
let g := set_changed (_clearGrid g) false in
g ← _updateGridData p fuel g;
let shown := omap id (rows (idx g)) in
let g := if frozenOn then log g (EvRender true shown) else g in
let g := log (log g (EvRender false shown)) (EvTrigger "SysGridHeightChanged" None) in
Ok (log g (EvTrigger "afterShowData" None)).

(** ** Loading *)

(** The argument of [loadData]: a filter, whether to ask the server, data of its
own, or nothing. *)
Inductive loadParm :=
| LClause (clause : row -> Z -> bool)
| LServer (b : bool)
| LData (d : dref)
| LNone.

Definition clause_of (q : loadParm) : option (row -> Z -> bool) :=
  match q with LClause c => Some c | _ => None end.

(** [g.filteredData[p.root] = g._searchData(g.filteredData[p.root], clause)]: the
property of the filtered source, which is the data itself. *)
Definition filter_source (clause : option (row -> Z -> bool)) (d : option dref) (g : grid)
: res grid :=
  match clause with
  | None => Ok g
  | Some c =>
  d ← of_option d;
  s ← src_at (heap g) d;
  a ← of_option (s_rows s);
  l ← arr_at (heap g) a;
  l' ← _searchData c l (heap g);
  let '(a', h) := new_arr l' (heap g) in
  Ok (set_heap g (set_src d (Source (Some a') (s_record s)) h))
  end.

(** [currentData] is the current page, or the source itself. *)
Definition show_source (paged : bool) (d : option dref) (g : grid) : res grid :=
  let g := if paged then let '(c, g) := _getCurrentPageData d g in set_current (Some c) g
       else set_current d g in
  _showData g.

(** The parameters of a request. *)
Definition request_params (parms : list (string * string)) (g : grid) : list (string * string) :=
  (parms ++
   (if o_localAction p then []
else (if o_usePager p then [("page", show_Z (newPage (pg g)));
                            ("pagesize", show_Z (o_pageSize p))] else []) ++
     (match sortName g with
      | Some n => if String.eqb n "" then []
                  else [("sortname", n); ("sortorder", default "" (sortOrder g))]
      | None => [] end)))%list.

Definition loadData_local (q : loadParm) (pdata : option dref) (g : grid) : res grid :=
  let g := set_filtered pdata (set_data pdata g) in
  g ← filter_source (clause_of q) (filteredData (srcs g)) g;
  show_source (o_usePager p) (filteredData (srcs g)) g.

(** Data passed in makes the grid's [dataType] local and becomes [p.data]: the
options and the [p.data] the grid goes on with. *)
Definition load_options (q : loadParm) : options :=
  match q with
  | LData _ => Options (o_tree p) (o_statusName p) (o_checkbox p) (o_usePager p)
                 (o_localAction p) true (o_pageSize p)
  | _ => p
  end.
Definition load_pdata (q : loadParm) (pdata : option dref) : option dref :=
  match q with LData d => Some d | _ => pdata end.

(** [loadData]; [pdata] is [p.data]. *)
Definition loadData (parms : list (string * string)) (q : loadParm) (pdata : option dref)
(g : grid) : res grid :=
  let g := set_loading g true in
  let local := o_localData (load_options q) in
  let pdata := load_pdata q pdata in
  let loadServer := match q with LServer b => b | LNone => true | _ => false end in
  let g := if newPage (pg g) =? 0 then set_newPage 1 g else g in
  let g := if o_localAction p then g
       else match sortOrder g with
            | Some s => if String.eqb s "" then set_sort g (sortName g) (Some "asc") else g
            | None => set_sort g (sortName g) (Some "asc") end in
  let g := log g (EvButton "load" false) in
  g ← (if local then loadData_local q pdata g
   else if o_localAction p && negb loadServer then
     if has_rows (data (srcs g)) (heap g) then
       let g := set_filtered (data (srcs g)) g in
       g ← filter_source (clause_of q) (filteredData (srcs g)) g;
       show_source true (filteredData (srcs g)) g
     else Ok g
   else Ok (log g (EvRequest (request_params parms g))));
  Ok (set_loading g false).

(** The server's answer: an empty one shows nothing at once, another one is
shown by a deferred [_showData]. *)
Definition empty_source (g : grid) : grid :=
  let '(d, g) := new_source [] g in set_current (Some d) (set_data (Some d) g).

Definition load_success (clause : option (row -> Z -> bool)) (answer : option dref) (g : grid)
: res grid :=
  let g := log g (EvTrigger "success" None) in
  match src_rows answer (heap g) with
  | [] => _showData (empty_source g)
  | _ =>
  let g := set_data answer g in
  if negb (o_localAction p) then Ok (set_current (data (srcs g)) g)
  else
    let g := set_filtered (data (srcs g)) g in
    g ← filter_source clause (filteredData (srcs g)) g;
    Ok (if o_usePager p
        then let '(c, g) := _getCurrentPageData (filteredData (srcs g)) g in
             set_current (Some c) g
        else set_current (filteredData (srcs g)) g)
  end.

Definition load_error (g : grid) : grid :=
  log (log (log (empty_source g) (EvLoading false)) (EvButton "load" true))
  (EvTrigger "error" None).

Definition load_complete (boundLoaded : bool) (g : grid) : grid :=
  let g := log g (EvTrigger "complete" None) in
  if boundLoaded then log g (EvTrigger "loaded" None) else log g (EvLoading false).

(** ** Changing the page *)

Inductive ctype := First | Prev | Next | Last | Input (nv : option Z).

(** The page asked for; [None] when the call returns at once. *)
Definition target_page (c : ctype) (q : pager) : option Z :=
  match c with
  | First => if page q =? 1 then None else Some 1
  | Prev => if page q =? 1 then None
        else if 1 <? page q then Some (page q - 1) else Some (newPage q)
  | Next => if pageCount q <=? page q then None else Some (page q + 1)
  | Last => if pageCount q <=? page q then None else Some (pageCount q)
  | Input nv =>
  let n := default 1 nv in
  Some (if n <? 1 then 1 else if pageCount q <? n then pageCount q else n)
  end.

Definition page_buttons (newPage pageCount : Z) : list event :=
  (if newPage =? 1 then [EvButton "first" false; EvButton "prev" false]
   else [EvButton "first" true; EvButton "prev" true]) ++
  (if newPage =? pageCount then [EvButton "last" false; EvButton "next" false]
   else [EvButton "last" true; EvButton "next" true]).

(** [confirmed] is the user's answer; [where_] is [p.where].  The page count the
toolbar shows is the one [_buildPager] wrote. *)
Definition changePage (parms : list (string * string)) (where_ : loadParm) (pdata : option dref)
(confirmed : bool) (c : ctype) (g : grid) : res grid :=
  if loading g then Ok g
  else if negb (o_localAction p) && isDataChanged g && negb confirmed then Ok g
  else
match target_page c (pg g) with
| None => Ok g
| Some n =>
    let g := set_newPage n g in
    if n =? page (pg g) then Ok g
    else
      let g := log_all (page_buttons n (pageCount (pg g))) g in
      let g := log g (EvTrigger "changePage" None) in
      if negb (o_localAction p) then loadData parms where_ pdata g
      else show_source true (filteredData (srcs g)) g
end.

End page.
End data.

(** The number of rows per page was changed: the options keep it, and the first
    page is loaded. *)
Definition with_pageSize (size : Z) (p : options) : options :=
  Options (o_tree p) (o_statusName p) (o_checkbox p) (o_usePager p) (o_localAction p)
    (o_localData p) size.

Definition changePageSize (p : options) (fuel : nat) (msg : string) (frozenOn vetoShow : bool)
    (parms : list (string * string)) (where_ : loadParm) (pdata : option dref)
    (confirmed : bool) (size : Z) (g : grid) : res (options * grid) :=
  if isDataChanged g && negb confirmed then Ok (p, g)
  else
    let p := with_pageSize size p in
    g ← loadData p fuel msg frozenOn vetoShow parms where_ pdata (set_newPage 1 g);
    Ok (p, g).

(** ** Pages *)

Lemma page_loop_take n i stop l :
  0 <= i -> (length l <= n + Z.to_nat i)%nat ->
  page_loop n i stop l = take (Z.to_nat (stop - i)) (drop (Z.to_nat i) l).
Proof.
  revert i. induction n as [|n IH]; intros i Hi Hn; cbn [page_loop].
  - rewrite drop_ge by lia. by rewrite take_nil.
  - destruct (i <? Z.of_nat (length l)) eqn:E1; cbn [andb]; zbool; cycle 1.
    { rewrite drop_ge by lia. by rewrite take_nil. }
    destruct (i <? stop) eqn:E2; zbool; cycle 1.
    { by replace (Z.to_nat (stop - i)) with O by lia. }
    destruct (lookup_lt_is_Some_2 l (Z.to_nat i)) as [r Hr]; [lia|].
    rewrite Hr, IH by lia. rewrite (drop_S l r (Z.to_nat i)) by done. cbn [option_list app].
    replace (Z.to_nat (stop - i)) with (S (Z.to_nat (stop - (i + 1)))) by lia.
    replace (Z.to_nat (i + 1)) with (S (Z.to_nat i)) by lia. done.
Qed.

Lemma page_rows_take k size l :
  1 <= k -> 0 <= size ->
  page_rows k size l = take (Z.to_nat size) (drop (Z.to_nat ((k - 1) * size)) l).
Proof.
  intros Hk Hs. unfold page_rows. rewrite page_loop_take by nia.
  do 2 f_equal. lia.
Qed.

Lemma page_count_spec tot size :
  0 < size -> 0 <= tot ->
  1 <= page_count tot size /\ tot <= page_count tot size * size /\
  (0 < tot -> (page_count tot size - 1) * size < tot).
Proof.
  intros Hs Ht. unfold page_count.
  pose proof (Z.div_mod (- tot) size ltac:(lia)). pose proof (Z.mod_pos_bound (- tot) size Hs).
  destruct (_ =? 0) eqn:E; zbool; nia.
Qed.

Lemma concat_pages (s : nat) (l : list rref) m :
  (0 < s)%nat ->
  concat (map (fun k => take s (drop (k * s) l)) (seq 0 m)) = take (m * s) l.
Proof.
  intros Hs. induction m as [|m IH]; [done|].
  rewrite seq_S, map_app, concat_app, IH. cbn [map concat Nat.add]. rewrite app_nil_r.
  replace (S m * s)%nat with (m * s + s)%nat by lia. apply take_take_drop.
Qed.

(** The pages [1 .. pageCount] that the pager offers, put one after the other,
    are exactly the rows of the source, in order. *)
Theorem pages_partition size l :
  0 < size ->
  concat (map (fun k => page_rows (Z.of_nat k + 1) size l)
              (seq 0 (Z.to_nat (page_count (Z.of_nat (length l)) size)))) = l.
Proof.
  intros Hs. destruct (page_count_spec (Z.of_nat (length l)) size Hs ltac:(lia)) as (H1 & H2 & _).
  set (m := Z.to_nat (page_count (Z.of_nat (length l)) size)) in *.
  transitivity (concat (map (fun k => take (Z.to_nat size) (drop (k * Z.to_nat size) l)) (seq 0 m))).
  - f_equal. apply map_ext. intros k. rewrite page_rows_take by lia. do 2 f_equal. lia.
  - rewrite concat_pages by lia. apply take_ge. subst m. rewrite <-Z2Nat.inj_mul by lia. lia.
Qed.

Lemma pages_partition_witness :
  concat (map (fun k => page_rows (Z.of_nat k + 1) 2 [1%positive; 2%positive; 3%positive])
              (seq 0 2)) = [1%positive; 2%positive; 3%positive].
Proof. exact (pages_partition 2 [1%positive; 2%positive; 3%positive] eq_refl). Defined.

(** On a page the pager offers, the text "from..to of total" counts exactly
    the rows on show, and stays within the total. *)
Theorem pager_text_counts page size l :
  0 < size -> 1 <= page <= page_count (Z.of_nat (length l)) size -> l <> [] ->
  let tot := Z.of_nat (length l) in
  1 <= pager_from page size tot <= pager_to page size tot /\
  pager_to page size tot <= tot /\
  pager_to page size tot - pager_from page size tot + 1
  = Z.of_nat (length (page_rows page size l)).
Proof.
  intros Hs Hp Hl tot.
  assert (0 < tot) by (subst tot; destruct l; [done|cbn; lia]).
  destruct (page_count_spec tot size Hs ltac:(lia)) as (_ & H2 & H3). specialize (H3 ltac:(lia)).
  rewrite page_rows_take, length_take, length_drop by lia.
  unfold pager_from, pager_to. destruct (tot =? 0) eqn:?; zbool; [lia|].
  assert ((page - 1) * size <= (page_count tot size - 1) * size)
    by (apply Z.mul_le_mono_nonneg_r; subst tot; lia).
  assert (0 <= (page - 1) * size) by nia.
  destruct (tot <? _) eqn:?; zbool; subst tot; rewrite ?Z.max_l by lia; lia.
Qed.

Lemma pager_text_counts_witness :
  pager_from 2 2 3 = 3 /\ pager_to 2 2 3 = 3 /\
  (1 <= pager_from 2 2 3 <= pager_to 2 2 3).
Proof.
  split; [done|]. split; [done|].
  exact (proj1 (pager_text_counts 2 2 [1%positive; 2%positive; 3%positive] eq_refl
    ltac:(vm_compute; split; discriminate) ltac:(discriminate))).
Defined.

(** ** What showing the data leaves alone *)

(** Everything but the rows themselves, the records and the selection. *)
Definition same_data (g g' : grid) : Prop :=
  srcs g' = srcs g /\ pg g' = pg g /\ arrh (heap g') = arrh (heap g) /\
  srch (heap g') = srch (heap g) /\ selected g' = selected g /\
  deletedRows g' = deletedRows g /\ isDataChanged g' = isDataChanged g /\
  loading g' = loading g /\ out g' = out g /\ sortName g' = sortName g.

Lemma same_refl g : same_data g g.
Proof. by repeat split. Qed.
Lemma same_trans g g' g'' : same_data g g' -> same_data g' g'' -> same_data g g''.
Proof. unfold same_data. intuition congruence. Qed.
Lemma same_upd g r f : same_data g (upd r f g).
Proof. by repeat split. Qed.
Lemma same_idx g v : same_data g (set_idx g v).
Proof. by repeat split. Qed.

#[local] Hint Resolve same_refl same_upd same_idx : hella.

Ltac same_step :=
  first [ apply same_refl | apply same_upd | apply same_idx
        | eapply same_trans; [|apply same_upd] | eapply same_trans; [|apply same_idx] ].

Section same.
Context (p : options).

Lemma same_link_prev o pv g g' : link_prev o pv g = Ok g' -> same_data g g'.
Proof.
  unfold link_prev. destruct pv as [pv|]; cbn -[upd set_idx].
  - intros (prev & ?%of_option_ok & H)%res_bind_ok.
    apply res_bind_ok in H as (prow & _ & H). apply res_bind_ok in H as (prow' & _ & [= <-]).
    cases; repeat same_step.
  - intros [= <-]. repeat same_step.
Qed.

Lemma same_addNewRecord o pv pid g g' : _addNewRecord p o pv pid g = Ok g' -> same_data g g'.
Proof.
  unfold _addNewRecord. intros (g1 & H1 & H)%res_bind_ok.
  apply res_bind_ok in H as (g2 & H2 & H). eapply same_trans; [by eapply same_link_prev|].
  assert (same_data g1 g2) as Hs.
  { unfold link_parent in H2. destruct (o_tree p); [|by injection H2 as <-; apply same_refl].
    destruct pid as [pp|].
    - apply res_bind_ok in H2 as (? & _ & H2). apply res_bind_ok in H2 as (? & _ & [= <-]).
      apply same_upd.
    - injection H2 as <-. apply same_upd. }
  eapply same_trans; [done|]. unfold file_record in H.
  apply res_bind_ok in H as (? & _ & H). apply res_bind_ok in H as (? & _ & [= <-]).
  repeat same_step.
Qed.

Lemma same_load_list (rec : option aref -> link -> link * grid -> res (link * grid)) pid l st st' :
  (forall a q s s', rec a q s = Ok s' -> same_data s.2 s'.2) ->
  load_list p rec pid l st = Ok st' -> same_data st.2 st'.2.
Proof.
  intros Hrec. revert st. induction l as [|o l IH]; intros st; cbn [load_list].
  - intros [= <-]. apply same_refl.
  - intros (orow & _ & H)%res_bind_ok. case_match.
    + apply IH in H. eapply same_trans; [|done]. apply same_upd.
    + apply res_bind_ok in H as (g1 & H1 & H). apply res_bind_ok in H as (orow2 & _ & H).
      apply res_bind_ok in H as (st2 & H2 & H). apply IH in H.
      eapply same_trans; [|exact H]. apply same_addNewRecord in H1.
      eapply same_trans; [eapply same_trans; [apply same_upd|exact H1]|].
      destruct (default false _); [|by injection H2 as <-; apply same_refl].
      destruct (o_tree p); [|done]. by apply Hrec in H2.
Qed.

Lemma same_load fuel a pid st st' : load p fuel a pid st = Ok st' -> same_data st.2 st'.2.
Proof.
  revert a pid st st'. induction fuel as [|fuel IH]; intros a pid st st'; cbn [load].
  - destruct a; [done|]. intros [= <-]. apply same_refl.
  - destruct a as [a|]; [|intros [= <-]; apply same_refl].
    intros (l & _ & H)%res_bind_ok. eapply same_load_list; [|done]. intros. by eapply IH.
Qed.

Lemma same_updateGridData fuel g g' : _updateGridData p fuel g = Ok g' -> same_data g g'.
Proof.
  unfold _updateGridData. intros (a & _ & H)%res_bind_ok.
  apply res_bind_ok in H as (st & H & [= <-]). apply same_load in H.
  eapply same_trans; [apply same_idx|exact H].
Qed.
End same.

Lemma log_all_same evs g :
  srcs (log_all evs g) = srcs g /\ pg (log_all evs g) = pg g /\ heap (log_all evs g) = heap g.
Proof.
  unfold log_all. revert g. induction evs as [|e evs IH]; intros g; [done|].
  cbn [fold_left]. destruct (IH (log g e)) as (-> & -> & ->). done.
Qed.

Lemma page_count_idem tot size :
  (if page_count tot size =? 0 then 1 else page_count tot size) = page_count tot size.
Proof. unfold page_count. destruct (- (- tot / size) =? 0) eqn:E; [done|]. by rewrite E. Qed.

Lemma _buildPager_state p msg g :
  srcs (_buildPager p msg g) = srcs g /\ heap (_buildPager p msg g) = heap g /\
  pg (_buildPager p msg g)
  = Pager (page (pg g)) (newPage (pg g)) (total (pg g))
      (if pageCount (pg g) =? 0 then 1 else pageCount (pg g)).
Proof.
  unfold _buildPager.
  match goal with |- context [log_all ?e ?x] => destruct (log_all_same e x) as (-> & -> & ->) end.
  done.
Qed.

Lemma show_page_state p msg g :
  let g0 := if o_usePager p then _buildPager p msg (show_pager p g) else g in
  srcs g0 = srcs g /\ heap g0 = heap g /\
  pg g0 = if o_usePager p then pg (show_pager p g) else pg g.
Proof.
  cbn zeta. destruct (o_usePager p); [|done].
  destruct (_buildPager_state p msg (show_pager p g)) as (-> & -> & ->). cbn.
  by rewrite page_count_idem.
Qed.

(** Showing the data moves the pager to the new page and keeps the sources. *)
Lemma _showData_state p fuel msg fr g g' :
  _showData p fuel msg fr false g = Ok g' ->
  srcs g' = srcs g /\ arrh (heap g') = arrh (heap g) /\ srch (heap g') = srch (heap g) /\
  selected g' = [] /\ isDataChanged g' = false /\
  pg g' = if o_usePager p then pg (show_pager p g) else pg g.
Proof.
  unfold _showData. intros (a & _ & H)%res_bind_ok. cbn zeta iota in H.
  apply res_bind_ok in H as (g2 & H2 & [= <-]). apply same_updateGridData in H2.
  destruct H2 as (Hs & Hp & Ha & Hr & Hsel & _ & Hc & _).
  destruct (show_page_state p msg g) as (E1 & E2 & E3). cbn zeta in E1, E2, E3.
  cbn in Hs, Hp, Ha, Hr, Hsel, Hc. rewrite <-E1, <-E2, <-E3.
  destruct fr; cbn; auto 10.
Qed.

(** ** Searching *)

Definition rows_in (h : store) (l : list rref) : Prop := Forall (fun r => is_Some (rowh h !! r)) l.

Lemma search_from_spec clause i l h :
  rows_in h l ->
  exists l', search_from clause i l h = Ok l' /\ l' `sublist_of` l /\
    (NoDup l -> forall k r o, l !! k = Some r -> rowh h !! r = Some o ->
       (r ∈ l' <-> clause o (i + Z.of_nat k) = true)).
Proof.
  revert i. induction l as [|r l IH]; intros i Hl; cbn [search_from].
  { exists []. by split_and!. }
  apply Forall_cons in Hl as [[o Ho] Hl].
  destruct (IH (i + 1) Hl) as (l' & E & Hsub & Hspec).
  unfold row_at. rewrite Ho, E. cbn [of_option mbind res_bind].
  exists (if clause o i then r :: l' else l'). split; [by destruct (clause o i)|].
  split; [destruct (clause o i); by constructor|].
  intros [Hr Hnd]%NoDup_cons [|k] r' o' Hk Ho'; cbn in Hk.
  - simplify_eq. rewrite Z.add_0_r. destruct (clause _ i); [split; [done|by left]|].
    split; [|done]. intros Hin. destruct Hr. by eapply sublist_subseteq.
  - assert (r' <> r) as Hne by (intros ->; destruct Hr; by eapply list_elem_of_lookup_2).
    replace (i + Z.of_nat (S k)) with (i + 1 + Z.of_nat k) by lia.
    rewrite <-(Hspec Hnd k r' o' Hk Ho'). destruct (clause o i); [|done].
    rewrite elem_of_cons. naive_solver.
Qed.

(** Searching keeps, in order, exactly the rows for which the filter holds at
    their position. *)
Theorem _searchData_filter clause l h :
  rows_in h l -> NoDup l ->
  exists l', _searchData clause l h = Ok l' /\ l' `sublist_of` l /\
    forall k r o, l !! k = Some r -> rowh h !! r = Some o ->
      (r ∈ l' <-> clause o (Z.of_nat k) = true).
Proof.
  intros Hl Hnd. destruct (search_from_spec clause 0 l h Hl) as (l' & E & Hs & Hspec).
  exists l'. split_and!; try done. by apply Hspec.
Qed.

(** The arrays and sources that were there are still there. *)
Definition grows (h h' : store) : Prop := arrh h ⊆ arrh h' /\ srch h ⊆ srch h'.

Lemma grows_new_arr l h : grows h (new_arr l h).2.
Proof.
  split; [|done]. cbn. apply insert_subseteq, not_elem_of_dom, is_fresh.
Qed.
Lemma grows_new_src s h : grows h (new_src s h).2.
Proof.
  split; [done|]. cbn. apply insert_subseteq, not_elem_of_dom, is_fresh.
Qed.
Lemma grows_trans h h' h'' : grows h h' -> grows h' h'' -> grows h h''.
Proof. intros [] []. split; by etrans. Qed.

Lemma grows_currentPage p d g : grows (heap g) (heap (_getCurrentPageData p d g).2).
Proof.
  unfold _getCurrentPageData. destruct (src_rows d (heap g)) as [|r l].
  - unfold new_source. pose proof (grows_new_arr [] (heap g)) as G1.
    destruct (new_arr [] (heap g)) as [a h].
    pose proof (grows_new_src (Source (Some a) (Some (Z.of_nat (length (@nil rref))))) h) as G2.
    destruct (new_src _ h) as [d' h']. cbn in *. by eapply grows_trans.
  - set (g1 := if newPage (pg g) =? 0 then set_newPage 1 g else g).
    assert (heap g1 = heap g) as <- by (subst g1; by case_match).
    match goal with |- context [new_arr ?x ?y] =>
      pose proof (grows_new_arr x y) as G1; destruct (new_arr x y) as [a h] end.
    match goal with |- context [new_src ?x ?y] =>
      pose proof (grows_new_src x y) as G2; destruct (new_src x y) as [d' h'] end.
    cbn in *. by eapply grows_trans.
Qed.

Lemma grows_lookup h h' d s a l :
  grows h h' -> srch h !! d = Some s -> s_rows s = Some a -> arrh h !! a = Some l ->
  src_rows (Some d) h' = l.
Proof.
  intros [Ga Gs] Hd Ha Hl. unfold src_rows.
  rewrite (lookup_weaken _ _ _ _ Hd Gs), Ha, (lookup_weaken _ _ _ _ Hl Ga). done.
Qed.

Lemma show_source_grows p fuel msg fr paged d g g' :
  show_source p fuel msg fr false paged d g = Ok g' -> grows (heap g) (heap g').
Proof.
  unfold show_source. intros H. eapply (grows_trans _ (heap (if paged
    then let '(c, g) := _getCurrentPageData p d g in set_current (Some c) g
    else set_current d g))).
  - destruct paged; [|by split]. pose proof (grows_currentPage p d g) as G.
    destruct (_getCurrentPageData p d g). done.
  - apply _showData_state in H as (_ & Ha & Hs & _). unfold grows. by rewrite Ha, Hs.
Qed.

(** [loadData(clause)] on local data does not only show the filtered rows: the
    data source given by the user is left with them alone, so the other rows do
    not come back when it is loaded again without a filter. *)
Theorem loadData_filter_destroys p fuel msg fr parms clause d s a l l' g g' :
  o_localData p = true ->
  srch (heap g) !! d = Some s -> s_rows s = Some a -> arrh (heap g) !! a = Some l ->
  _searchData clause l (heap g) = Ok l' ->
  loadData p fuel msg fr false parms (LClause clause) (Some d) g = Ok g' ->
  src_rows (Some d) (heap g') = l'.
Proof.
  intros Hlocal Hd Ha Hl Hsearch. unfold loadData, load_options, load_pdata. rewrite Hlocal.
  intros (g2 & H & [= <-])%res_bind_ok. unfold loadData_local in H.
  match type of H with context [set_data (Some d) ?x] => set (g0 := x) in H end.
  assert (heap g0 = heap g) as Hh by (subst g0; repeat case_match; done).
  cbn [set_data set_filtered set_srcs filteredData srcs clause_of filter_source] in H.
  cbn [of_option mbind res_bind] in H. unfold src_at in H.
  change (heap (set_filtered (Some d) (set_data (Some d) g0))) with (heap g0) in H.
  rewrite Hh, Hd in H. cbn [of_option mbind res_bind] in H.
  rewrite Ha in H. cbn [of_option mbind res_bind] in H. unfold arr_at in H.
  rewrite Hl in H. cbn [of_option mbind res_bind] in H.
  rewrite Hsearch in H. cbn [mbind res_bind] in H.
  unfold new_arr in H. cbn [mbind res_bind] in H.
  apply show_source_grows in H. change (heap (set_loading g2 false)) with (heap g2).
  eapply grows_lookup; [exact H|cbn; by rewrite lookup_insert_eq|done|].
  cbn. by rewrite lookup_insert_eq.
Qed.

Lemma loadData_filter_destroys_witness :
  exists g', loadData demo_options 1 "" false false [] (LClause (fun _ i => i =? 1))
               (Some 1%positive) demo_grid = Ok g' /\
    src_rows (Some 1%positive) (heap g') = [2%positive].
Proof.
  eexists. split; [vm_compute; reflexivity|].
  eapply (loadData_filter_destroys demo_options 1 "" false [] (fun _ i => i =? 1) 1%positive
           (Source (Some 1%positive) (Some 3)) 1%positive [1%positive; 2%positive; 3%positive]
           [2%positive] demo_grid); vm_compute; reflexivity.
Defined.

Lemma _searchData_filter_witness :
  exists l', _searchData (fun _ i => i <? 2) [1%positive; 3%positive] demo_store = Ok l' /\
    l' `sublist_of` [1%positive; 3%positive].
Proof.
  destruct (_searchData_filter (fun _ i => i <? 2) [1%positive; 3%positive] demo_store)
    as (l' & E & Hs & _).
  - repeat constructor; eexists; vm_compute; reflexivity.
  - apply (bool_decide_unpack _). vm_compute. exact I.
  - exists l'. exact (conj E Hs).
Defined.
