(* ===== verification/GridPages.v ===== *)
(** * ligerGrid: moving between pages

    [changePage] on local data as a state machine: every button leads to a state
    that shows a page of the filtered rows again. *)

From S2P Require Import Prelude JsString JsNum GridHeap GridRows GridLoad GridShow.
Local Open Scope Z_scope.

(** ** What loading keeps of every row *)

Section kept.
Context (p : options).

(** The row's children and whether it is deleted. *)
Definition row_like (o o' : row) : Prop :=
  r_children o' = r_children o /\
  is_str "delete" (prop (o_statusName p) o') = is_str "delete" (prop (o_statusName p) o) /\
  (o_tree p = false -> r_hasChildren o' = r_hasChildren o).

Definition kept (h h' : store) : Prop :=
  forall r o, rowh h !! r = Some o -> exists o', rowh h' !! r = Some o' /\ row_like o o'.

Lemma row_like_refl o : row_like o o.
Proof. by repeat split. Qed.
Lemma row_like_trans o o' o'' : row_like o o' -> row_like o' o'' -> row_like o o''.
Proof. unfold row_like. intuition congruence. Qed.

Lemma kept_refl h : kept h h.
Proof. intros r o H. exists o. by split; [|apply row_like_refl]. Qed.
Lemma kept_trans h h' h'' : kept h h' -> kept h' h'' -> kept h h''.
Proof.
  intros H1 H2 r o Ho. destruct (H1 _ _ Ho) as (o' & Ho' & L1).
  destruct (H2 _ _ Ho') as (o'' & Ho'' & L2). exists o''. by split; [|eapply row_like_trans].
Qed.

Lemma kept_upd r f g :
  (forall o, rowh (heap g) !! r = Some o -> row_like o (f o)) -> kept (heap g) (heap (upd r f g)).
Proof.
  intros Hf r' o Ho. cbn. destruct (decide (r' = r)) as [->|Hne].
  - exists (f o). rewrite lookup_alter_eq, Ho. by split; [|apply Hf].
  - exists o. rewrite lookup_alter_ne by done. by split; [|apply row_like_refl].
Qed.

Lemma like_formatRecord o : row_like o (formatRecord p false o).
Proof. unfold formatRecord, row_like. destruct (o_tree p) eqn:E; cbn; by repeat split. Qed.

Lemma kept_link_prev o pv g g' : link_prev o pv g = Ok g' -> kept (heap g) (heap g').
Proof.
  unfold link_prev. destruct pv as [pv|]; cbn -[upd set_idx].
  - intros (prev & _ & H)%res_bind_ok.
    apply res_bind_ok in H as (prow & _ & H). apply res_bind_ok in H as (prow' & _ & [= <-]).
    repeat first
      [ eapply kept_trans; [|apply kept_upd; intros; by repeat split]
      | case_match
      | apply kept_refl ].
  - intros [= <-].
    repeat (eapply kept_trans; [|apply kept_upd; intros; by repeat split]). apply kept_refl.
Qed.

Lemma kept_link_parent o pid g g' : link_parent p o pid g = Ok g' -> kept (heap g) (heap g').
Proof.
  unfold link_parent. destruct (o_tree p) eqn:E; [|intros [= <-]; apply kept_refl].
  destruct pid as [pp|].
  - intros (? & _ & H)%res_bind_ok. apply res_bind_ok in H as (? & _ & [= <-]).
    apply kept_upd. intros. unfold row_like. rewrite E. by repeat split.
  - intros [= <-]. apply kept_upd. intros. unfold row_like. rewrite E. by repeat split.
Qed.

Definition alive (h : store) (r : rref) : Prop :=
  forall o, rowh h !! r = Some o -> is_str "delete" (prop (o_statusName p) o) = false.

Lemma alive_kept h h' r :
  is_Some (rowh h !! r) -> kept h h' -> alive h r -> alive h' r.
Proof.
  intros [o Ho] Hk Ha o' Ho'. destruct (Hk _ _ Ho) as (o2 & Ho2 & _ & Hs & _). simplify_eq.
  rewrite Hs. by apply Ha.
Qed.

Lemma kept_some h h' r : is_Some (rowh h !! r) -> kept h h' -> is_Some (rowh h' !! r).
Proof. intros [o Ho] Hk. destruct (Hk _ _ Ho) as (o' & Ho' & _). by exists o'. Qed.

Lemma kept_addNewRecord o pv pid g g' :
  is_Some (rowh (heap g) !! o) -> alive (heap g) o ->
  _addNewRecord p o pv pid g = Ok g' -> kept (heap g) (heap g').
Proof.
  intros Hs Ha. unfold _addNewRecord. intros (g1 & H1 & H)%res_bind_ok.
  apply res_bind_ok in H as (g2 & H2 & H).
  apply kept_link_prev in H1. apply kept_link_parent in H2.
  assert (kept (heap g) (heap g2)) as H12 by (by eapply kept_trans).
  eapply kept_trans; [exact H12|].
  unfold file_record in H. apply res_bind_ok in H as (? & _ & H).
  apply res_bind_ok in H as (? & _ & [= <-]). apply kept_upd. intros y Hy.
  pose proof (alive_kept _ _ _ Hs H12 Ha _ Hy) as Hd. unfold mark_nochanged.
  destruct (is_str "add" _); [apply row_like_refl|]. unfold row_like.
  rewrite Hd. unfold set_prop, prop, with_props. cbn. by rewrite oget_oset_eq.
Qed.

Lemma kept_load_list (rec : option aref -> link -> link * grid -> res (link * grid)) pid l st st' :
  (forall a q s s', rec a q s = Ok s' -> kept (heap s.2) (heap s'.2)) ->
  load_list p rec pid l st = Ok st' -> kept (heap st.2) (heap st'.2).
Proof.
  intros Hrec. revert st. induction l as [|o l IH]; intros st; cbn [load_list].
  - intros [= <-]. apply kept_refl.
  - intros (orow & Ho & H)%res_bind_ok. apply of_option_ok in Ho.
    assert (kept (heap st.2) (heap (upd o (formatRecord p false) st.2))) as Hf
      by (apply kept_upd; intros; apply like_formatRecord).
    destruct (is_str "delete" _) eqn:Ed.
    + apply IH in H. by eapply kept_trans.
    + apply res_bind_ok in H as (g1 & H1 & H). apply res_bind_ok in H as (orow2 & _ & H).
      apply res_bind_ok in H as (st2 & H2 & H). apply IH in H.
      eapply kept_trans; [|exact H].
      apply kept_addNewRecord in H1; [|by exists orow|intros y Hy; by simplify_eq].
      eapply kept_trans; [eapply kept_trans; [exact Hf|exact H1]|].
      destruct (default false _); [|injection H2 as <-; apply kept_refl].
      destruct (o_tree p); [|done]. by apply Hrec in H2.
Qed.

Lemma kept_load fuel a pid st st' :
  load p fuel a pid st = Ok st' -> kept (heap st.2) (heap st'.2).
Proof.
  revert a pid st st'. induction fuel as [|fuel IH]; intros a pid st st'; cbn [load].
  - destruct a; [done|]. intros [= <-]. apply kept_refl.
  - destruct a as [a|]; [|intros [= <-]; apply kept_refl].
    intros (l & _ & H)%res_bind_ok. eapply kept_load_list; [|done]. intros. by eapply IH.
Qed.

Lemma kept_updateGridData fuel g g' :
  _updateGridData p fuel g = Ok g' -> kept (heap g) (heap g').
Proof.
  unfold _updateGridData. intros (a & _ & H)%res_bind_ok.
  apply res_bind_ok in H as (st & H & [= <-]). by apply kept_load in H.
Qed.

(** A forest is still there after a load, and after new arrays. *)
Lemma rep_kept h h' t :
  arrh h ⊆ arrh h' -> kept h h' -> rep p h t -> rep p h' t.
Proof.
  intros Ha Hk. revert t. fix IH 1. intros [r del ch kids] [(o & Ho & Hd & Hc) Hch]. split.
  - destruct (Hk _ _ Ho) as (o' & Ho' & L1 & L2 & L3). exists o'. split; [done|].
    rewrite L2. split; [done|]. destruct (o_tree p).
    + by rewrite L1.
    + by rewrite L3.
  - destruct ch as [a|]; [|done]. destruct Hch as [Hl Hkids].
    split; [by eapply lookup_weaken|]. clear Hl Hc.
    induction kids as [|t kids IHk]; [done|]. destruct Hkids as [Ht Hks].
    split; [by apply IH|by apply IHk].
Qed.

Lemma reps_kept h h' ts : arrh h ⊆ arrh h' -> kept h h' -> reps p h ts -> reps p h' ts.
Proof.
  intros Ha Hk. induction ts as [|t ts IH]; [done|]. intros [Ht Hts].
  split; [by eapply rep_kept|by apply IH].
Qed.
End kept.

(** ** Pages of a forest *)

Definition page_of (k size : Z) (ts : list tree) : list tree :=
  take (Z.to_nat size) (drop (Z.to_nat ((k - 1) * size)) ts).

Lemma foldr_max_le (l l' : list nat) : l `sublist_of` l' -> (foldr Nat.max O l <= foldr Nat.max O l')%nat.
Proof. induction 1; cbn; lia. Qed.

Section pages.
Context (p : options) (fuel : nat) (msg : string) (fr : bool).
Context (d : dref) (a : aref) (rec : option Z) (ts : list tree).

(** The filtered source is the forest [ts], and the pager is on a page of it. *)
Record Paged (g : grid) : Prop := {
  pd_filtered : filteredData (srcs g) = Some d;
  pd_source : srch (heap g) !! d = Some (Source (Some a) rec);
  pd_rows : arrh (heap g) !! a = Some (map root ts);
  pd_reps : reps p (heap g) ts;
  pd_count : pageCount (pg g) = page_count (Z.of_nat (length ts)) (o_pageSize p);
  pd_page : 1 <= newPage (pg g) <= pageCount (pg g)
}.

Context (Huse : o_usePager p = true) (Hlocal : o_localAction p = true).
Context (Hsize : 0 < o_pageSize p) (Hne : ts <> []).
Context (Hnd : NoDup (flat_map allrows ts)).
Context (Hfuel : (foldr Nat.max O (map height ts) < fuel)%nat).

Lemma src_rows_paged g : Paged g -> src_rows (filteredData (srcs g)) (heap g) = map root ts.
Proof. intros []. unfold src_rows. rewrite pd_filtered0, pd_source0. cbn. by rewrite pd_rows0. Qed.

Lemma page_of_sublist n : page_of n (o_pageSize p) ts `sublist_of` ts.
Proof. unfold page_of. etrans; [apply sublist_take|apply sublist_drop]. Qed.

Lemma reps_sublist h us vs : us `sublist_of` vs -> reps p h vs -> reps p h us.
Proof.
  induction 1 as [|x l1 l2 _ IH|x l1 l2 _ IH]; [done|..]; intros [? ?].
  - split; [done|]. by apply IH.
  - by apply IH.
Qed.

Lemma NoDup_page n : NoDup (flat_map allrows (page_of n (o_pageSize p) ts)).
Proof.
  eapply sublist_NoDup; [exact Hnd|]. generalize (page_of_sublist n).
  generalize (page_of n (o_pageSize p) ts). clear. induction 1; cbn; [done|..].
  - by apply sublist_app.
  - by apply sublist_inserts_l.
Qed.

Lemma Paged_ext g g' :
  srcs g' = srcs g -> heap g' = heap g -> pg g' = pg g -> Paged g -> Paged g'.
Proof. intros E1 E2 E3 []. split; by rewrite ?E1, ?E2, ?E3. Qed.

Lemma Paged_currentPage g c g1 :
  Paged g -> _getCurrentPageData p (filteredData (srcs g)) g = (c, g1) ->
  srcs g1 = srcs g /\ pg g1 = pg g /\
  arrh (heap g) ⊆ arrh (heap g1) /\ rowh (heap g1) = rowh (heap g) /\
  srch (heap g1) !! d = Some (Source (Some a) rec) /\
  exists b r, srch (heap g1) !! c = Some (Source (Some b) r) /\
    arrh (heap g1) !! b = Some (map root (page_of (newPage (pg g)) (o_pageSize p) ts)).
Proof.
  intros HP. unfold _getCurrentPageData. rewrite src_rows_paged by done. destruct HP.
  destruct (map root ts) as [|r0 l0] eqn:El; [by destruct ts|]. rewrite <-El in *.
  replace (newPage (pg g) =? 0) with false by (symmetry; apply Z.eqb_neq; lia).
  unfold new_arr, new_src. set (b := fresh (dom (arrh (heap g)))).
  intros [= <- <-]. cbn -[page_rows].
  assert (arrh (heap g) !! b = None) as Hb by (apply not_elem_of_dom, is_fresh).
  split_and!; try done.
  - by apply insert_subseteq.
  - rewrite lookup_insert_ne; [done|]. intros <-.
    assert (srch (heap g) !! fresh (dom (srch (heap g))) = None)
      by (apply not_elem_of_dom, is_fresh). congruence.
  - exists b, (Some (Z.of_nat (length (map root ts)))).
    rewrite lookup_insert_eq, lookup_insert_eq. split; [done|]. f_equal.
    rewrite page_rows_take by lia. unfold page_of. by rewrite skipn_map, firstn_map.
Qed.

Lemma Paged_log g ev : Paged g -> Paged (log g ev).
Proof. by apply Paged_ext. Qed.

Lemma shows_log g v ev : shows p g v -> shows p (log g ev) v.
Proof. intros []. by split. Qed.

(** Showing a page of the filtered rows. *)
Lemma Paged_show g :
  Paged g ->
  exists g', show_source p fuel msg fr false true (filteredData (srcs g)) g = Ok g' /\
    Paged g' /\ pg g' = Pager (newPage (pg g)) (newPage (pg g)) (Z.of_nat (length ts)) (pageCount (pg g)) /\
    shows p g' (flat_map (entries None 1) (page_of (newPage (pg g)) (o_pageSize p) ts)).
Proof.
  intros HP. unfold show_source.
  destruct (_getCurrentPageData _ _ _) as [c g1] eqn:E.
  destruct (Paged_currentPage _ _ _ HP E) as (S1 & S2 & S3 & S4 & S5 & b & r & S6 & S7).
  unfold _showData. rewrite Huse.
  set (g2 := set_current (Some c) g1).
  destruct (_buildPager_state p msg (show_pager p g2)) as (B1 & B2 & B3).
  set (g3 := set_changed (_clearGrid (_buildPager p msg (show_pager p g2))) false).
  assert (current_rows g2 = Ok (Some b)) as ->.
  { unfold current_rows. cbn. unfold src_at. by rewrite S6. }
  cbn [mbind res_bind].
  assert (heap g3 = heap g1) as Hh by exact B2.
  assert (srcs g3 = srcs g2) as Hsr by exact B1.
  assert (kept p (heap g) (heap g1)) as Hk1.
  { intros x o Ho. exists o. rewrite S4. by split; [|apply row_like_refl]. }
  destruct (_updateGridData_forest p g3 fuel c (Source (Some b) r) b
              (page_of (newPage (pg g)) (o_pageSize p) ts)) as (g4 & E4 & Hsh & Harr).
  - by rewrite Hsr.
  - by rewrite Hh.
  - done.
  - by rewrite Hh.
  - rewrite Hh. eapply reps_sublist; [apply page_of_sublist|].
    eapply reps_kept; [exact S3|exact Hk1|]. by destruct HP.
  - apply NoDup_page.
  - eapply Nat.le_lt_trans; [|exact Hfuel]. apply foldr_max_le.
    apply fmap_sublist, page_of_sublist.
  - fold g3. rewrite E4. cbn [mbind res_bind]. eexists. split; [done|].
    pose proof (same_updateGridData _ _ _ _ E4) as (T1 & T2 & T3 & T4 & _).
    pose proof (kept_updateGridData _ _ _ _ E4) as Hk2.
    assert (pg g4 = Pager (newPage (pg g)) (newPage (pg g)) (Z.of_nat (length ts))
                      (pageCount (pg g))) as Hpg.
    { rewrite T2. change (pg g3) with (pg (_buildPager p msg (show_pager p g2))).
      rewrite B3. cbn -[show_total page_count].
      rewrite page_count_idem, S2.
      assert (show_total p g2 = Z.of_nat (length ts)) as ->.
      { unfold show_total. rewrite Hlocal. cbn [negb andb].
        unfold has_rows, src_rows. cbn. destruct HP. rewrite S1, pd_filtered0, S5. cbn.
        erewrite (lookup_weaken _ (arrh (heap g1))); [|done..]. cbn. by rewrite length_map. }
      destruct HP. rewrite pd_count0.
      replace (newPage (pg g) =? 0) with false by (symmetry; apply Z.eqb_neq; lia). done. }
    assert (Paged g4) as HP4.
    { destruct HP. split.
      - rewrite T1, Hsr. cbn. by rewrite S1.
      - rewrite T4, Hh. exact S5.
      - rewrite T3, Hh. by eapply lookup_weaken.
      - eapply reps_kept; [|eapply kept_trans; [exact Hk1|]|done].
        + by rewrite T3, Hh.
        + by rewrite <-Hh.
      - by rewrite Hpg.
      - by rewrite Hpg. }
    split; [|split].
    + destruct fr; repeat apply Paged_log; exact HP4.
    + destruct fr; exact Hpg.
    + destruct fr; repeat apply shows_log; exact Hsh.
Qed.

(** C2: With local data, from any state on a page of the filtered rows, a button of
    the pager (or a page typed in) that asks for another page succeeds and leads
    to a state on exactly that page, which is between one and the page count and
    shows the rows of the page; a button that asks for no other page succeeds too and
    leaves the page in sight, if that was shown. *)
Theorem changePage_local parms w pdata confirmed c g :
  Paged g -> newPage (pg g) = page (pg g) -> loading g = false ->
  exists g', changePage p fuel msg fr false parms w pdata confirmed c g = Ok g' /\
    Paged g' /\ newPage (pg g') = page (pg g') /\ 1 <= page (pg g') <= pageCount (pg g) /\
    page (pg g') = default (page (pg g)) (target_page c (pg g)) /\
    (page (pg g') <> page (pg g) \/
       shows p g (flat_map (entries None 1) (page_of (page (pg g)) (o_pageSize p) ts)) ->
     shows p g' (flat_map (entries None 1) (page_of (page (pg g')) (o_pageSize p) ts))).
Proof.
  intros HP Hnew Hload. pose proof (pd_page _ HP) as Hb. rewrite Hnew in Hb.
  unfold changePage. rewrite Hload, Hlocal. cbn [negb andb].
  destruct (target_page c (pg g)) as [n|] eqn:Et; cycle 1.
  { exists g. split_and!; try done; try lia. by intros [?|?]. }
  assert (1 <= n <= pageCount (pg g)) as Hn.
  { destruct c; cbn in Et; repeat case_match; simplify_eq/=; zbool; lia. }
  cbn zeta. change (page (pg (set_newPage n g))) with (page (pg g)).
  destruct (n =? page (pg g)) eqn:E; zbool.
  - exists (set_newPage n g). subst n. cbn.
    split; [done|]. split; [|split_and!; try done; try lia].
    2:{ intros [?|Hsh]; [lia|]. destruct Hsh. by split. }
    apply (Paged_ext g); try done. cbn. clear -Hnew. destruct (pg g). cbn in *. by subst.
  - match goal with |- context [show_source _ _ _ _ _ _ _ ?x] => set (g0 := x) end.
    assert (srcs g0 = srcs g /\ heap g0 = heap g /\ pg g0 = pg (set_newPage n g)) as (E1 & E2 & E3).
    { subst g0. cbn [log srcs heap pg].
      destruct (log_all_same (page_buttons n (pageCount (pg (set_newPage n g)))) (set_newPage n g))
        as (-> & -> & ->). done. }
    assert (Paged g0) as HP0.
    { destruct HP. split; rewrite ?E1, ?E2, ?E3; cbn; done. }
    destruct (Paged_show g0 HP0) as (g' & Hs & HP' & Hpg & Hsh).
    rewrite E3 in Hpg, Hsh. cbn in Hpg, Hsh.
    exists g'. split; [exact Hs|]. rewrite Hpg. cbn. split_and!; try done; lia.
Qed.
End pages.

(** ** Showing any source that holds a forest *)

Lemma reps_heap p g h us vs :
  us `sublist_of` vs -> reps p (heap g) vs -> arrh (heap g) ⊆ arrh h -> rowh h = rowh (heap g) -> reps p h us.
Proof.
  intros Hu Hr Ha Hrow. eapply reps_sublist; [exact Hu|]. eapply reps_kept; [exact Ha| |exact Hr].
  intros x o Ho. exists o. rewrite Hrow. by split; [|apply row_like_refl].
Qed.

(** The page that is cut out, in a store that has grown by it. *)
Lemma currentPage_forest p d s a ts g c g1 :
  srch (heap g) !! d = Some s -> s_rows s = Some a -> arrh (heap g) !! a = Some (map root ts) ->
  0 <= o_pageSize p -> 0 <= newPage (pg g) ->
  _getCurrentPageData p (Some d) g = (c, g1) ->
  arrh (heap g) ⊆ arrh (heap g1) /\ rowh (heap g1) = rowh (heap g) /\
  exists b r, srch (heap g1) !! c = Some (Source (Some b) r) /\
    arrh (heap g1) !! b = Some (map root (page_of (Z.max 1 (newPage (pg g))) (o_pageSize p) ts)).
Proof.
  intros Hd Ha Hl Hsize Hnew. unfold _getCurrentPageData.
  assert (src_rows (Some d) (heap g) = map root ts) as -> by (unfold src_rows; by rewrite Hd, Ha, Hl).
  assert (forall l rec (h : store), arrh h ⊆ arrh (new_arr l h).2 /\ rowh (new_src rec (new_arr l h).2).2 = rowh h) as Hgrow.
  { intros l rec h. unfold new_arr, new_src. cbn. split; [|done].
    apply insert_subseteq, not_elem_of_dom, is_fresh. }
  destruct ts as [|t ts]; cbn [map].
  - unfold new_source. intros [= <- <-]. destruct (Hgrow [] (Source None None) (heap g)) as [H1 H2].
    split_and!; [exact H1 | exact H2 |]. unfold page_of. rewrite drop_nil, take_nil.
    do 2 eexists. unfold new_src, new_arr. cbn. by rewrite !lookup_insert_eq.
  - set (l := root t :: map root ts).
    assert (forall g', newPage (pg g') = Z.max 1 (newPage (pg g)) ->
      page_rows (newPage (pg g')) (o_pageSize p) l = map root (page_of (Z.max 1 (newPage (pg g))) (o_pageSize p) (t :: ts))) as Hpage.
    { intros g' ->. rewrite page_rows_take by lia. unfold page_of. rewrite <-firstn_map, <-skipn_map. done. }
    destruct (newPage (pg g) =? 0) eqn:E; zbool; unfold new_arr, new_src; intros [= <- <-]; cbn -[page_rows];
      (split_and!; [apply insert_subseteq, not_elem_of_dom, is_fresh | done |]);
      do 2 eexists; rewrite !lookup_insert_eq; (split; [done|]); f_equal.
    + rewrite <-(Hpage (set_newPage 1 g)) by (cbn; lia). done.
    + rewrite <-(Hpage g) by lia. done.
Qed.

(** Showing a source, whole or by pages, shows its forest or the page of it. *)
Lemma show_forest p fuel msg fr d s a ts g :
  srch (heap g) !! d = Some s -> s_rows s = Some a -> arrh (heap g) !! a = Some (map root ts) ->
  reps p (heap g) ts -> NoDup (flat_map allrows ts) -> (foldr Nat.max O (map height ts) < fuel)%nat ->
  0 <= o_pageSize p -> 0 <= newPage (pg g) ->
  exists g', show_source p fuel msg fr false (o_usePager p) (Some d) g = Ok g' /\
    shows p g' (flat_map (entries None 1)
      (if o_usePager p then page_of (Z.max 1 (newPage (pg g))) (o_pageSize p) ts else ts)).
Proof.
  intros Hd Ha Hl Hr Hnd Hfuel Hsize Hnew.
  set (us := if o_usePager p then page_of (Z.max 1 (newPage (pg g))) (o_pageSize p) ts else ts).
  assert (us `sublist_of` ts) as Hus.
  { subst us. destruct (o_usePager p); [|done]. unfold page_of. etrans; [apply sublist_take|apply sublist_drop]. }
  assert (exists c g1, show_source p fuel msg fr false (o_usePager p) (Some d) g = _showData p fuel msg fr false g1 /\
    currentData (srcs g1) = Some c /\ arrh (heap g) ⊆ arrh (heap g1) /\ rowh (heap g1) = rowh (heap g) /\
    exists s1 b, srch (heap g1) !! c = Some s1 /\ s_rows s1 = Some b /\ arrh (heap g1) !! b = Some (map root us))
    as (c & g1 & -> & Hc & H1 & H2 & s1 & b & H3 & H4 & H5).
  { unfold show_source. subst us. destruct (o_usePager p).
    - destruct (_getCurrentPageData p (Some d) g) as [c g1] eqn:E.
      destruct (currentPage_forest p d s a ts g c g1) as (G1 & G2 & b & r & G3 & G4); try done.
      exists c, (set_current (Some c) g1). split_and!; try done. by exists (Source (Some b) r), b.
    - exists d, (set_current (Some d) g). split_and!; try done. by exists s, a. }
  unfold _showData. assert (current_rows g1 = Ok (Some b)) as ->.
  { unfold current_rows. rewrite Hc. cbn. unfold src_at. rewrite H3. cbn. by rewrite H4. }
  cbn [mbind res_bind].
  set (g2 := set_changed (_clearGrid (if o_usePager p then _buildPager p msg (show_pager p g1) else g1)) false).
  assert (srcs g2 = srcs g1 /\ heap g2 = heap g1) as [E1 E2].
  { subst g2. destruct (o_usePager p); [|done]. destruct (_buildPager_state p msg (show_pager p g1)) as (B1 & B2 & _). done. }
  destruct (_updateGridData_forest p g2 fuel c s1 b us) as (g3 & E3 & Hsh & _); rewrite ?E1, ?E2; try done.
  - by eapply reps_heap.
  - eapply sublist_NoDup; [exact Hnd|]. clear -Hus. induction Hus; cbn; [done|by apply sublist_app|by apply sublist_inserts_l].
  - eapply Nat.le_lt_trans; [|exact Hfuel]. by apply foldr_max_le, fmap_sublist.
  - rewrite E3. cbn [mbind res_bind]. eexists. split; [done|]. destruct fr; repeat apply shows_log; exact Hsh.
Qed.

(** ** The three rows as a forest *)

Definition demo_trees : list tree :=
  [Node 1%positive false None []; Node 2%positive false None []; Node 3%positive false None []].

Lemma demo_paged : Paged demo_options 1%positive 1%positive (Some 3) demo_trees demo_grid.
Proof.
  split; try (vm_compute; done).
  all: cbn; repeat split; try done; eexists; (split; [vm_compute; reflexivity|done]).
Qed.

Lemma changePage_local_witness :
  exists g', changePage demo_options 1 "" false false [] LNone None true Next demo_grid = Ok g' /\
    page (pg g') = 2.
Proof.
  destruct (changePage_local demo_options 1 "" false 1%positive 1%positive (Some 3) demo_trees
              eq_refl eq_refl eq_refl ltac:(discriminate)
              ltac:(apply (bool_decide_unpack _); vm_compute; exact I) ltac:(cbn; lia)
              [] LNone None true Next demo_grid demo_paged eq_refl eq_refl)
    as (g' & H & _ & _ & _ & Hp & _).
  exists g'. split; [exact H|exact Hp].
Defined.
