(* ===== verification/GridSort.v ===== *)
(** * ligerGrid: sorting

    The sorters, [_compareData], the column types and [changeSort]. *)

From S2P Require Import Prelude JsString JsNum GridHeap GridRows GridLoad GridShow GridPages.
Local Open Scope string_scope.
Local Open Scope Z_scope.

(** ** Comparing values *)

(** [ToNumber] and the [<] of two values: two strings by their characters,
    anything else as numbers. *)
Definition to_number (v : jval) : num :=
  match v with
  | VUndef => nan
  | VNull => 0%float
  | VBool b => if b then 1%float else 0%float
  | VNum x => x
  | VStr s => Number s
  end.

Definition js_lt (v w : jval) : bool :=
  match v, w with
  | VStr s, VStr t => String.ltb s t
  | _, _ => (to_number v < to_number w)%num
  end.

(** [==] of two values. *)
Definition loose_eq (v w : jval) : bool :=
  if is_nil v || is_nil w then is_nil v && is_nil w
  else match v, w with
       | VStr s, VStr t => String.eqb s t
       | _, _ => (to_number v === to_number w)%num
       end.

(** [parseInt(v)] and [parseFloat(v)] of a value. *)
Definition value_int (v : jval) : option Z := parseInt (jstr v).
Definition value_float (v : jval) : num :=
  match v with
  | VNum x => x
  | VStr s => parseFloat s
  | _ => nan
  end.

Definition cmp_by (lt gt : bool) : Z := if lt then -1 else if gt then 1 else 0.

Definition sorter_date (v w : jval) : Z := cmp_by (js_lt v w) (js_lt w v).
Definition opt_lt (a b : option Z) : bool :=
  match a, b with Some x, Some y => x <? y | _, _ => false end.
Definition sorter_int (v w : jval) : Z :=
  cmp_by (opt_lt (value_int v) (value_int w)) (opt_lt (value_int w) (value_int v)).
Definition sorter_float (v w : jval) : Z :=
  cmp_by (value_float v < value_float w)%num (value_float w < value_float v)%num.

Section sorting.
(** [String.prototype.localeCompare] is the browser's; [custom] holds the
sorters added to [p.sorters]. *)
Context (localeCompare : string -> string -> Z).
Context (custom : string -> option (jval -> jval -> res Z)).

Definition sorter_string (v w : jval) : res Z :=
match v, w with
| VStr s, VStr t => Ok (localeCompare s t)
| _, _ => Throw TypeError
end.

Definition sorters (ty : string) : option (jval -> jval -> res Z) :=
match custom ty with
| Some f => Some f
| None =>
  if String.eqb ty "date" then Some (fun v w => Ok (sorter_date v w))
  else if String.eqb ty "int" then Some (fun v w => Ok (sorter_int v w))
  else if String.eqb ty "float" then Some (fun v w => Ok (sorter_float v w))
  else if String.eqb ty "string" then Some sorter_string
  else None
end.

(** Missing values come last. *)
Definition _compareData (columnName : string) (columnType : option string) (o1 o2 : row)
: res Z :=
let val1 := prop columnName o1 in
let val2 := prop columnName o2 in
if is_nil val1 && negb (is_nil val2) then Ok 1
else if is_nil val1 && is_nil val2 then Ok 0
else if negb (is_nil val1) && is_nil val2 then Ok (-1)
else match columnType ≫= sorters with
   | Some f => f val1 val2
   | None => Ok (cmp_by (js_lt val1 val2) (js_lt val2 val1))
   end.

(** [Array.prototype.sort] with a comparator, the stable sort of the language:
a value goes after those it is not less than. *)
Fixpoint insert_by (cmp : rref -> rref -> res Z) (x : rref) (l : list rref) : res (list rref) :=
match l with
| [] => Ok [x]
| y :: l' =>
  c ← cmp x y;
  if c <? 0 then Ok (x :: l) else r ← insert_by cmp x l'; Ok (y :: r)
end.

Definition sort_by (cmp : rref -> rref -> res Z) (l : list rref) : res (list rref) :=
fold_left (fun acc x => s ← acc; insert_by cmp x s) l (Ok []).

Definition compare_rows (h : store) (columnName : string) (columnType : option string)
(r1 r2 : rref) : res Z :=
o1 ← row_at h r1; o2 ← row_at h r2; _compareData columnName columnType o1 o2.

(** Replacing the elements of the rows of a source, in place. *)
Definition update_rows (d : option dref) (f : list rref -> res (list rref)) (g : grid) : res grid :=
d ← of_option d;
s ← src_at (heap g) d;
a ← of_option (s_rows s);
l ← arr_at (heap g) a;
l' ← f l;
Ok (set_heap g (set_arr a l' (heap g))).

(** [changeSort]: sorting by the column it is sorted by reverses the rows. *)
Definition changeSort (p : options) (fuel : nat) (msg : string) (frozenOn vetoShow : bool)
(getColumnType : string -> option string)
(parms : list (string * string)) (where_ : loadParm) (pdata : option dref)
(columnName : string) (order : option string) (g : grid) : res grid :=
if loading g then Ok g
else
g ← (if o_localAction p then
       let columnType := getColumnType columnName in
       let g := match sortedData (srcs g) with
                | None => set_sorted (filteredData (srcs g)) g | Some _ => g end in
       g ← (if has_rows (data (srcs g)) (heap g) then
              update_rows (sortedData (srcs g))
                (fun l => if bool_decide (sortName g = Some columnName) then Ok (rev l)
                          else sort_by (compare_rows (heap g) columnName columnType) l) g
            else Ok g);
       show_source p fuel msg frozenOn vetoShow (o_usePager p) (sortedData (srcs g)) g
     else Ok g);
let g := set_sort g (Some columnName) order in
if negb (o_localAction p) then loadData p fuel msg frozenOn vetoShow parms where_ pdata g
else Ok g.
End sorting.

(** ** The sort *)

Section sort.
Context (cmp : rref -> rref -> res Z) (c : rref -> rref -> Z) (P : rref -> Prop).
Context (Hcmp : forall x y, P x -> P y -> cmp x y = Ok (c x y)).
Context (Hasym : forall x y, P x -> P y -> c x y < 0 -> ~ c y x < 0).
Context (Htrans : forall x y z, P x -> P y -> P z -> c x y < 0 -> c y z < 0 -> c x z < 0).

(** In order: no later element is less than an earlier one. *)
Definition in_order (x y : rref) : Prop := ~ c y x < 0.

Lemma insert_by_spec x l :
P x -> Forall P l -> StronglySorted in_order l ->
exists l', insert_by cmp x l = Ok l' /\ l' ≡ₚ x :: l /\ StronglySorted in_order l'.
Proof.
intros Hx Hl. induction l as [|y l IH]; cbn [insert_by].
{ intros _. exists [x]. split_and!; try done. repeat constructor. }
intros Hs. apply Forall_cons in Hl as [Hy Hl]. apply StronglySorted_inv in Hs as [Hs Hall].
rewrite Hcmp by done. cbn [mbind res_bind]. destruct (c x y <? 0) eqn:E; zbool.
- exists (x :: y :: l). split_and!; try done. constructor; [by constructor|].
  constructor; [unfold in_order; by apply Hasym|].
  rewrite Forall_forall in Hall, Hl. apply Forall_forall. intros z Hz Hzx.
  apply (Hall z Hz). by apply (Htrans z x y); auto.
- destruct (IH Hl Hs) as (l' & -> & Hp & Hs'). cbn [mbind res_bind].
  exists (y :: l'). split; [done|]. split.
  { rewrite Hp. apply Permutation_swap. }
  constructor; [done|]. rewrite Hp. constructor; [unfold in_order; lia|done].
Qed.

Lemma sort_by_spec l :
Forall P l ->
exists l', sort_by cmp l = Ok l' /\ l' ≡ₚ l /\ StronglySorted in_order l'.
Proof.
intros Hl. unfold sort_by.
assert (forall acc, Forall P acc -> StronglySorted in_order acc ->
  exists l', fold_left (fun acc x => s ← acc; insert_by cmp x s) l (Ok acc) = Ok l' /\
             l' ≡ₚ acc ++ l /\ StronglySorted in_order l') as H.
{ induction l as [|x l IH]; intros acc Hacc Hs; cbn [fold_left].
  - exists acc. by rewrite app_nil_r.
  - apply Forall_cons in Hl as [Hx Hl].
    destruct (insert_by_spec x acc Hx Hacc Hs) as (acc' & E & Hp & Hs').
    cbn [mbind res_bind] in E |- *. rewrite E.
    destruct (IH Hl acc') as (l' & E' & Hp' & Hs''); [rewrite Hp; by constructor|done|].
    exists l'. split_and!; try done. rewrite Hp', Hp. cbn. apply Permutation_middle. }
destruct (H [] ltac:(constructor) ltac:(constructor)) as (l' & ? & ? & ?). by exists l'.
Qed.
End sort.

(** ** The comparators *)

(** What a comparator owes to [sort], on the values it is used on: "less" is a
    strict order and "not less" is transitive. *)
Class Comparator (P : jval -> Prop) (c : jval -> jval -> Z) : Prop := {
  comparator_asym v w : P v -> P w -> c v w < 0 -> ~ c w v < 0;
  comparator_trans v w u : P v -> P w -> P u -> c v w < 0 -> c w u < 0 -> c v u < 0;
  comparator_ntrans v w u : P v -> P w -> P u -> ~ c v w < 0 -> ~ c w u < 0 -> ~ c v u < 0
}.

Lemma cmp_by_neg lt gt : cmp_by lt gt < 0 <-> lt = true.
Proof. unfold cmp_by. destruct lt, gt; cbn; split; (done || lia). Qed.

Definition is_int (v : jval) : Prop := is_Some (value_int v).
Definition is_float (v : jval) : Prop := isNaN (value_float v) = false.

#[export] Instance sorter_int_comparator : Comparator is_int sorter_int.
Proof.
  unfold is_int, sorter_int. split; intros *; rewrite ?cmp_by_neg;
    repeat (intros [? ->]); cbn [opt_lt]; rewrite ?not_true_iff_false, ?Z.ltb_lt, ?Z.ltb_ge; lia.
Qed.

Lemma ltb_asym x y : (x < y)%num = true -> ~ (y < x)%num = true.
Proof. intros H1 H2. pose proof (ltb_trans _ _ _ H1 H2) as H. by rewrite ltb_irrefl in H. Qed.

#[export] Instance sorter_float_comparator : Comparator is_float sorter_float.
Proof.
  unfold is_float, sorter_float. split; intros *; rewrite ?cmp_by_neg.
  - intros _ _. apply ltb_asym.
  - intros _ _ _. apply ltb_trans.
  - intros _ Hw _. rewrite !not_true_iff_false. intros H1 H2. by eapply not_ltb_trans.
Qed.

(** Dates written as numbers. *)
Definition is_number (v : jval) : Prop := exists x, v = VNum x /\ isNaN x = false.

#[export] Instance sorter_date_comparator : Comparator is_number sorter_date.
Proof.
  unfold is_number, sorter_date. split; intros *; rewrite ?cmp_by_neg.
  - intros (x & -> & _) (y & -> & _). apply ltb_asym.
  - intros (x & -> & _) (y & -> & _) (z & -> & _). apply ltb_trans.
  - intros (x & -> & _) (y & -> & Hy) (z & -> & _). cbn. rewrite !not_true_iff_false.
    intros H1 H2. by eapply not_ltb_trans.
Qed.

Section compare.
Context (localeCompare : string -> string -> Z).
Context (custom : string -> option (jval -> jval -> res Z)).
Context (P : jval -> Prop) (c : jval -> jval -> Z) `{!Comparator P c}.
Context (ty col : string).
Context (f : jval -> jval -> res Z) (Hty : sorters localeCompare custom ty = Some f).
Context (Hf : forall v w, P v -> P w -> f v w = Ok (c v w)).

(** The comparison of two values, missing ones last. *)
Definition compare_values (v w : jval) : Z :=
if is_nil v && negb (is_nil w) then 1
else if is_nil v && is_nil w then 0
else if negb (is_nil v) && is_nil w then -1
else c v w.

Definition comparable (v : jval) : Prop := is_nil v = true \/ P v.

Lemma compare_values_asym v w :
comparable v -> comparable w -> compare_values v w < 0 -> ~ compare_values w v < 0.
Proof.
unfold comparable, compare_values. intros [Hv|Hv] [Hw|Hw];
  destruct (is_nil v) eqn:?, (is_nil w) eqn:?; cbn; try lia; try done.
by apply comparator_asym.
Qed.

Lemma compare_values_trans v w u :
comparable v -> comparable w -> comparable u ->
compare_values v w < 0 -> compare_values w u < 0 -> compare_values v u < 0.
Proof.
unfold comparable, compare_values. intros [Hv|Hv] [Hw|Hw] [Hu|Hu];
  destruct (is_nil v) eqn:?, (is_nil w) eqn:?, (is_nil u) eqn:?; cbn; try lia; try done.
by apply comparator_trans.
Qed.

Lemma _compareData_values o1 o2 :
comparable (prop col o1) -> comparable (prop col o2) ->
_compareData localeCompare custom col (Some ty) o1 o2
= Ok (compare_values (prop col o1) (prop col o2)).
Proof.
unfold _compareData, compare_values. cbn [mbind option_bind]. rewrite Hty.
destruct (is_nil (prop col o1)) eqn:E1, (is_nil (prop col o2)) eqn:E2; try done.
intros [?|?] [?|?]; try congruence. cbn. by apply Hf.
Qed.

(** The value of a row of the store. *)
Definition value_of (h : store) (r : rref) : jval :=
match rowh h !! r with Some o => prop col o | None => VUndef end.

Lemma sort_rows_spec h l :
Forall (fun r => is_Some (rowh h !! r) /\ comparable (value_of h r)) l ->
exists l', sort_by (compare_rows localeCompare custom h col (Some ty)) l = Ok l' /\
  l' ≡ₚ l /\
  StronglySorted (fun r1 r2 => ~ compare_values (value_of h r2) (value_of h r1) < 0) l'.
Proof.
apply (sort_by_spec _ (fun r1 r2 => compare_values (value_of h r1) (value_of h r2))).
- intros x y [[ox Hx] Cx] [[oy Hy] Cy]. unfold compare_rows, row_at, value_of in *.
  rewrite Hx, Hy in *. cbn. by apply _compareData_values.
- intros x y [_ Hx] [_ Hy]. by apply compare_values_asym.
- intros x y z [_ Hx] [_ Hy] [_ Hz]. by apply compare_values_trans.
Qed.
End compare.

(** ** [changeSort] *)

Lemma show_source_srcs p fuel msg fr d g g' :
  show_source p fuel msg fr false false d g = Ok g' ->
  currentData (srcs g') = d /\ sortedData (srcs g') = sortedData (srcs g).
Proof. intros H. apply _showData_state in H as (-> & _). done. Qed.

Lemma has_rows_true d s a h :
  srch h !! d = Some s -> s_rows s = Some a -> has_rows (Some d) h = true.
Proof. intros E1 E2. unfold has_rows. rewrite E1, E2. done. Qed.

Lemma update_rows_ok d f g s a l l' :
  srch (heap g) !! d = Some s -> s_rows s = Some a -> arrh (heap g) !! a = Some l ->
  f l = Ok l' -> update_rows (Some d) f g = Ok (set_heap g (set_arr a l' (heap g))).
Proof.
  intros E1 E2 E3 E4. unfold update_rows, src_at, arr_at. cbn [of_option mbind res_bind].
  rewrite E1. cbn [of_option mbind res_bind]. rewrite E2. cbn [of_option mbind res_bind].
  rewrite E3. cbn [of_option mbind res_bind]. rewrite E4. done.
Qed.

(** The rows of a source in another order: the forest below them is still there. *)
Section reorder.
Context (p : options).

Lemma rep_other_array h a l l' x t :
  arrh h !! a = Some l -> x ∈ l -> match t with Node _ _ _ kids => x ∉ flat_map allrows kids end ->
  rep p h t -> rep p (set_arr a l' h) t.
Proof.
  intros Ha Hx. revert t. fix IH 1. intros [r del ch kids] Hk [(o & Ho & Hrest) Hch]. split; [by exists o|].
  destruct ch as [b|]; [|done]. destruct Hch as [Hb Hkids]. split.
  - clear IH. cbn. rewrite lookup_insert_ne; [done|]. intros <-. rewrite Ha in Hb. injection Hb as ->. apply Hk.
    apply list_elem_of_In, in_map_iff in Hx as (t & <- & Ht). apply list_elem_of_In, in_flat_map.
    exists t. split; [done|]. destruct t. by left.
  - clear Hb Hrest. induction kids as [|t kids IHk]; [done|]. destruct Hkids as [Ht Hks].
    assert (x ∉ allrows t /\ x ∉ flat_map allrows kids) as [Hk1 Hk2]
      by (clear -Hk; cbn in Hk; rewrite elem_of_app in Hk; tauto).
    split; [|by apply IHk]. apply IH; [|done]. clear -Hk1. destruct t. cbn in Hk1. intros H. apply Hk1. by right.
Qed.

Lemma reps_Forall h ts : reps p h ts <-> Forall (rep p h) ts.
Proof. induction ts as [|t ts IH]; cbn; [by split|]. by rewrite IH, Forall_cons. Qed.

Lemma reps_reorder h a ts l' :
  arrh h !! a = Some (map root ts) -> NoDup (flat_map allrows ts) -> reps p h ts -> reps p (set_arr a l' h) ts.
Proof.
  intros Ha Hnd. rewrite !reps_Forall, !Forall_forall. intros Hr t Ht. eapply (rep_other_array h a _ l' (root t));
    [exact Ha | apply list_elem_of_In, in_map, list_elem_of_In, Ht | | by apply Hr].
  apply list_elem_of_split in Ht as (t1 & t2 & ->). rewrite flat_map_app in Hnd. cbn in Hnd.
  apply NoDup_app in Hnd as (_ & _ & Hnd). apply NoDup_app in Hnd as (Hnd & _ & _).
  destruct t as [r del ch kids]. cbn in *. by apply NoDup_cons in Hnd as [? _].
Qed.

Lemma foldr_max_perm (l l' : list nat) : l ≡ₚ l' -> foldr Nat.max O l = foldr Nat.max O l'.
Proof. induction 1; cbn; lia. Qed.

(** A permutation of the rows is one of the forest. *)
Lemma forest_reorder h a ts ts' :
  arrh h !! a = Some (map root ts) -> NoDup (flat_map allrows ts) -> reps p h ts -> ts' ≡ₚ ts ->
  reps p (set_arr a (map root ts') h) ts' /\ NoDup (flat_map allrows ts') /\
  foldr Nat.max O (map height ts') = foldr Nat.max O (map height ts).
Proof.
  intros Ha Hnd Hr Hp. split_and!; [| by rewrite Hp | apply foldr_max_perm; by rewrite Hp].
  apply reps_Forall, Forall_forall. intros t Ht. rewrite Hp in Ht.
  pose proof (reps_reorder h a ts (map root ts') Ha Hnd Hr) as H. apply reps_Forall in H. by eapply Forall_forall in H.
Qed.
End reorder.

(** C3: On local data whose rows form a forest, a sort goes through; it leaves the rows of
    the source that is sorted - the one of the first sort, or at the first sort the
    filtered one - a permutation of what they were: reversed when the grid was sorted by
    that column, otherwise in the order of the column's sorter with the rows that have no
    value last, for any sorter that orders the column's values consistently; and the grid
    shows them, or the page it is on. *)
Theorem changeSort_sorts lc custom P c `{!Comparator P c} p fuel msg fr types parms w pdata
    col ty f ord d s a ts g :
  sorters lc custom ty = Some f -> (forall v w, P v -> P w -> f v w = Ok (c v w)) ->
  types col = Some ty -> o_localAction p = true -> loading g = false ->
  sortedData (srcs g) = Some d \/ sortedData (srcs g) = None /\ filteredData (srcs g) = Some d ->
  has_rows (data (srcs g)) (heap g) = true ->
  srch (heap g) !! d = Some s -> s_rows s = Some a -> arrh (heap g) !! a = Some (map root ts) ->
  reps p (heap g) ts -> NoDup (flat_map allrows ts) -> (foldr Nat.max O (map height ts) < fuel)%nat ->
  0 <= o_pageSize p -> 0 <= newPage (pg g) ->
  Forall (fun t => comparable P (value_of col (heap g) (root t))) ts ->
  exists g' ts', changeSort lc custom p fuel msg fr false types parms w pdata col ord g = Ok g' /\
    ts' ≡ₚ ts /\ src_rows (Some d) (heap g') = map root ts' /\
    (if bool_decide (sortName g = Some col) then ts' = rev ts
     else StronglySorted (fun r1 r2 =>
       ~ compare_values c (value_of col (heap g) r2) (value_of col (heap g) r1) < 0) (map root ts')) /\
    shows p g' (flat_map (entries None 1)
      (if o_usePager p then page_of (Z.max 1 (newPage (pg g))) (o_pageSize p) ts' else ts')).
Proof.
  intros Hty Hf Hcol Hlocal Hload Hsrc Hrows Hd Hs Ha Hr Hnd Hfuel Hsize Hnew Hl.
  unfold changeSort. rewrite Hload, Hlocal, Hcol. cbn [negb].
  set (g1 := match sortedData (srcs g) with None => _ | Some _ => g end).
  assert (sortedData (srcs g1) = Some d /\ data (srcs g1) = data (srcs g) /\ heap g1 = heap g /\ pg g1 = pg g /\ sortName g1 = sortName g)
    as (E1 & E2 & E3 & E4 & E5).
  { subst g1. destruct Hsrc as [H|[H1 H2]]; [by rewrite H | by rewrite H1, <-H2]. }
  rewrite E2, E3, Hrows, E1, E5.
  assert (exists ts', (if bool_decide (sortName g = Some col) then Ok (rev (map root ts))
      else sort_by (compare_rows lc custom (heap g) col (Some ty)) (map root ts)) = Ok (map root ts') /\ ts' ≡ₚ ts /\
    (if bool_decide (sortName g = Some col) then ts' = rev ts
     else StronglySorted (fun r1 r2 => ~ compare_values c (value_of col (heap g) r2) (value_of col (heap g) r1) < 0) (map root ts')))
    as (ts' & El & Hp & Hsorted).
  { case_bool_decide; [exists (rev ts); split_and!; [by rewrite map_rev | by rewrite <-Permutation_rev | done]|].
    destruct (sort_rows_spec lc custom P c ty col f Hty Hf (heap g) (map root ts)) as (l' & El & Hp & Hs').
    - apply Forall_forall. intros r Hin. apply list_elem_of_In, in_map_iff in Hin as (t & <- & Ht%list_elem_of_In).
      apply reps_Forall in Hr. rewrite Forall_forall in Hr, Hl. split; [|by apply Hl].
      specialize (Hr t Ht). destruct t. destruct Hr as [(o & Ho & _) _]. by exists o.
    - destruct (Permutation_map_inv _ _ Hp) as (ts' & -> & Hp'). by exists ts'. }
  erewrite (update_rows_ok d _ g1 s a (map root ts)); [|by rewrite E3|done|by rewrite E3|exact El].
  cbn [mbind res_bind]. rewrite E3. set (g2 := set_heap g1 (set_arr a (map root ts') (heap g))).
  change (sortedData (srcs g2)) with (sortedData (srcs g1)). rewrite E1.
  destruct (forest_reorder p (heap g) a ts ts' Ha Hnd Hr Hp) as (Hr' & Hnd' & Hh).
  destruct (show_forest p fuel msg fr d s a ts' g2) as (g3 & Hshow & Hsh); try done.
  { cbn. by rewrite lookup_insert_eq. }
  { by rewrite Hh. }
  { change (pg g2) with (pg g1). by rewrite E4. }
  change (pg g2) with (pg g1) in Hsh. rewrite E4 in Hsh.
  rewrite Hshow. cbn [mbind res_bind]. eexists _, ts'. split; [done|].
  split; [done|]. split; [|split; [done | by split; destruct Hsh]].
  apply show_source_grows in Hshow. change (heap (set_sort g3 (Some col) ord)) with (heap g3).
  eapply grows_lookup; [exact Hshow | exact Hd | done | cbn; by rewrite lookup_insert_eq].
Qed.

(** Once the rows have been sorted, [g.sortedData] stays what it was: after
    other data were loaded, sorting shows the rows of the old data again. *)
Theorem changeSort_stale lc custom p fuel msg fr types parms w pdata col ord old g g' :
  o_localAction p = true -> o_usePager p = false -> loading g = false ->
  sortedData (srcs g) = Some old ->
  changeSort lc custom p fuel msg fr false types parms w pdata col ord g = Ok g' ->
  currentData (srcs g') = Some old /\ sortedData (srcs g') = Some old.
Proof.
  intros Hlocal Hpager Hload Hsorted. unfold changeSort.
  rewrite Hload, Hlocal, Hsorted, Hpager. cbn [negb].
  intros (g2 & H2 & [= <-])%res_bind_ok. apply res_bind_ok in H2 as (g1 & H1 & H2).
  apply show_source_srcs in H2. cbn.
  assert (srcs g1 = srcs g) as Hs.
  { destruct (has_rows _ _); [|by injection H1 as <-]. unfold update_rows in H1.
    repeat (apply res_bind_ok in H1 as (? & _ & H1)). by injection H1 as <-. }
  rewrite Hs, Hsorted in H2. exact H2.
Qed.

Definition flat_options : options := Options false "__status" false false true true 2.
Definition lc_demo (s t : string) : Z := if String.ltb s t then -1 else if String.ltb t s then 1 else 0.

(** The column "n" of the three rows. *)
Definition numbered_store : store :=
  Store (<[1%positive := set_prop "n" (VNum 3%float) (blank_row "a")]>
          (<[2%positive := blank_row "b"]>
            (<[3%positive := set_prop "n" (VNum 1%float) (blank_row "c")]> ∅)))
        (arrh demo_store) (srch demo_store).

Definition demo_nodes : list tree :=
  [Node 1%positive false None []; Node 2%positive false None []; Node 3%positive false None []].

Lemma changeSort_sorts_witness :
  exists g' ts', changeSort lc_demo (fun _ => None) flat_options 1 "" false false
      (fun _ => Some "float") [] LNone None "n" (Some "asc")
      (set_heap demo_grid numbered_store) = Ok g' /\ ts' ≡ₚ demo_nodes /\
    src_rows (Some 1%positive) (heap g') = map root ts' /\
    StronglySorted (fun r1 r2 => ~ compare_values sorter_float (value_of "n" numbered_store r2) (value_of "n" numbered_store r1) < 0)
      (map root ts').
Proof.
  assert (reps flat_options (heap (set_heap demo_grid numbered_store)) demo_nodes) as Hr
    by (cbn; repeat split; eexists; (split; [vm_compute; reflexivity|done])).
  assert (NoDup (flat_map allrows demo_nodes)) as Hn by (apply (bool_decide_unpack _); vm_compute; exact I).
  assert (Forall (fun t => comparable is_float (value_of "n" numbered_store (root t))) demo_nodes) as Hc
    by (repeat (apply Forall_cons; split); [..|by apply Forall_nil]; first [by right; vm_compute | by left; vm_compute]).
  destruct (changeSort_sorts lc_demo (fun _ => None) is_float sorter_float flat_options 1 "" false
    (fun _ => Some "float") [] LNone None "n" "float" (fun v w => Ok (sorter_float v w))
    (Some "asc") 1%positive (Source (Some 1%positive) (Some 3)) 1%positive demo_nodes
    (set_heap demo_grid numbered_store) eq_refl (fun _ _ _ _ => eq_refl) eq_refl eq_refl eq_refl
    (or_intror (conj eq_refl eq_refl)) ltac:(vm_compute; reflexivity) ltac:(vm_compute; reflexivity) eq_refl
    ltac:(vm_compute; reflexivity) Hr Hn ltac:(cbn; lia) ltac:(cbn; lia) ltac:(cbn; lia) Hc)
    as (g' & ts' & H1 & H2 & H3 & H4 & _).
  exists g', ts'. split; [exact H1|]. split; [exact H2|]. split; [exact H3|exact H4].
Defined.

Lemma changeSort_stale_witness :
  exists g', changeSort lc_demo (fun _ => None) flat_options 1 "" false false
      (fun _ => Some "string") [] LNone None "name" (Some "asc")
      (set_sorted (Some 1%positive) demo_grid) = Ok g' /\
    currentData (srcs g') = Some 1%positive.
Proof.
  eexists. split; [vm_compute; reflexivity|].
  refine (proj1 (changeSort_stale lc_demo (fun _ => None) flat_options 1 "" false
    (fun _ => Some "string") [] LNone None "name" (Some "asc") 1%positive
    (set_sorted (Some 1%positive) demo_grid) _ eq_refl eq_refl eq_refl eq_refl _)).
  vm_compute. reflexivity.
Defined.
