(* ===== verification/GridEdit.v ===== *)
(** * ligerGrid: changing the rows

    Adding, removing, deleting, moving and updating rows, and the tree rows'
    [upgrade], [demotion] and [toggle]. *)

From S2P Require Import Prelude JsString JsNum GridHeap GridRows GridShow.
Local Open Scope string_scope.
Local Open Scope Z_scope.

Section edit.
Context (p : options) (ctrlKey : bool) (fuel : nat) (msg : string) (frozenOn vetoShow : bool).

(** ** The array a row is in *)

(** [_getParentChildren]: the children of the parent of a row on show, else the
  rows of the current data. *)
Definition _getParentChildren (q : rowParm) (g : grid) : res (option aref) :=
let parent :=
  if o_tree p then
    r ← getRow q g;
    if existRecord r g then o ← rowh (heap g) !! r; parent_of o g else None
  else None in
match parent with
| Some pr => o ← row_at (heap g) pr; Ok (r_children o)
| None => current_rows g
end.

Definition elements (a : option aref) (g : grid) : list rref :=
match a with Some a => default [] (arrh (heap g) !! a) | None => [] end.

(** [listdata.splice(...)] on an array that may be [undefined]. *)
Definition splice_array (a : option aref) (start : Z) (del : nat) (ins : list rref) (g : grid)
  : res grid :=
a ← of_option a;
l ← arr_at (heap g) a;
Ok (set_heap g (set_arr a (splice start del ins l) (heap g))).

(** [$.inArray(rowdata, listdata)]: a row object is compared with the elements. *)
Definition index_of (q : rowParm) (l : list rref) : Z :=
match q with PRow r => inArray r l | _ => -1 end.

Definition _removeData (q : rowParm) (g : grid) : res grid :=
a ← _getParentChildren q g;
let index := index_of q (elements a g) in
g ← (if index =? -1 then Ok g else splice_array a index 1 [] g);
_removeSelected p fuel q g.

(** The array [_addData] adds to. *)
Definition target_array (parent near : option rref) (g : grid) : res (option aref) :=
top ← current_rows g;
match near with
| Some nr =>
    if o_tree p then
      match parent with
      | Some pr => o ← row_at (heap g) pr; Ok (r_children o)
      | None =>
          no ← row_at (heap g) nr;
          match parent_of no g with
          | Some pr => o ← row_at (heap g) pr; Ok (r_children o)
          | None => Ok top
          end
      end
    else Ok top
| None =>
    match parent with
    | Some pr => if o_tree p then o ← row_at (heap g) pr; Ok (r_children o) else Ok top
    | None => Ok top
    end
end.

Definition _addData (r : rref) (parent near : option rref) (isBefore : bool) (g : grid)
  : res grid :=
a ← target_array parent near g;
match near with
| Some nr =>
    let index := inArray nr (elements a g) in
    splice_array a (if index =? -1 then -1 else index + (if isBefore then 0 else 1)) 0 [r] g
| None => splice_array a (Z.of_nat (length (elements a g))) 0 [r] g
end.

(** [_moveData]; both arrays must be there. *)
Definition _moveData (from to : rowParm) (isAfter : bool) (g : grid) : res grid :=
let fromRow := getRow from g in
let toRow := getRow to g in
let as_parm o := match o with Some r => PRow r | None => PNull end in
a ← _getParentChildren (as_parm fromRow) g;
g ← splice_array a (index_of (as_parm fromRow) (elements a g)) 1 [] g;
b ← _getParentChildren (as_parm toRow) g;
r ← of_option fromRow;
splice_array b (index_of (as_parm toRow) (elements b g) + (if isAfter then 1 else 0)) 0 [r] g.

(** [reRender()] without a row or a column shows the data again. *)
Definition reRender (g : grid) : res grid := _showData p fuel msg frozenOn vetoShow g.

Definition move (from to : rowParm) (isAfter : bool) (g : grid) : res grid :=
g ← _moveData from to isAfter g; reRender g.

Fixpoint move_all (rs : list rowParm) (to : rowParm) (isAfter : bool) (g : grid) : res grid :=
match rs with
| [] => Ok g
| r :: rs' => g ← _moveData r to isAfter g; move_all rs' to isAfter g
end.
Definition moveRange (rs : list rowParm) (to : rowParm) (isAfter : bool) (g : grid) : res grid :=
g ← move_all rs to isAfter g; reRender g.

(** [up] and [down]: the row changes places with its neighbour, then the row that
  was selected is selected again. *)
Definition select_again (sel : option rref) (g : grid) : res grid :=
select p ctrlKey (match sel with Some r => PRow r | None => PNull end) g.

Definition up (q : rowParm) (g : grid) : res grid :=
let row := getRow q g in
let rq := match row with Some r => PRow r | None => PNull end in
a ← _getParentChildren rq g;
let l := elements a g in
let index := index_of rq l in
if (index =? -1) || (index =? 0) then Ok g
else
  let sel := getSelectedRow g in
  to ← of_option (l !! Z.to_nat (index - 1));
  g ← move rq (PRow to) false g;
  select_again sel g.

Definition down (q : rowParm) (g : grid) : res grid :=
let row := getRow q g in
let rq := match row with Some r => PRow r | None => PNull end in
a ← _getParentChildren rq g;
let l := elements a g in
let index := index_of rq l in
if (index =? -1) || (index =? Z.of_nat (length l) - 1) then Ok g
else
  let sel := getSelectedRow g in
  to ← of_option (l !! Z.to_nat (index + 1));
  g ← move rq (PRow to) true g;
  select_again sel g.

(** ** Removing and deleting *)

Definition each_row (f : rref -> grid -> res grid) (rs : list rref) (g : grid) : res grid :=
fold_left (fun acc r => g ← acc; f r g) rs (Ok g).

Definition removeRange (rs : list rref) (g : grid) : res grid :=
g ← each_row (fun r => _removeData (PRow r)) rs g; reRender g.

(** [remove] hands the row on as it was given. *)
Definition remove (q : rowParm) (g : grid) : res grid := g ← _removeData q g; reRender g.

Definition set_status (v : string) (r : rref) (g : grid) : grid :=
upd r (set_prop (o_statusName p) (VStr v)) g.

(** The status of the rows below, at any depth. *)
Definition set_status_below (v : string) (r : rref) (g : grid) : res grid :=
if o_tree p then
  children ← getChildren p fuel (PRow r) true g;
  Ok (fold_left (fun g c => set_status v c g) (default [] children) g)
else Ok g.

Definition _deleteData (q : rowParm) (g : grid) : res grid :=
r ← of_option (getRow q g);
let g := set_status "delete" r g in
g ← set_status_below "delete" r g;
let g := set_deletedRows g (Some (default [] (deletedRows g) ++ [r]))%list in
_removeSelected p fuel (PRow r) g.

Definition deleteRange (rs : list rref) (g : grid) : res grid :=
g ← each_row (fun r => _deleteData (PRow r)) rs g; reRender g.

Definition deleteRow (q : rowParm) (g : grid) : res grid :=
match getRow q g with
| None => Ok g
| Some r =>
    g ← _deleteData (PRow r) g;
    g ← reRender g;
    Ok (set_changed g true)
end.

(** [deleteSelectedRow] schedules a [_deleteData] for every selected row on show
  and then a [reRender]; the timers fire in this order. *)
Definition deleteSelectedRow (g : grid) : res grid :=
g ← each_row (fun r => _deleteData (PRow r)) (getSelectedRows g) g; reRender g.

(** ** Adding *)

Definition addRow (r : rref) (near : option rref) (isBefore : bool) (parent : option rref)
  (g : grid) : res grid :=
g ← _addData r parent near isBefore g;
g ← reRender g;
let g := set_status "add" r g in
g ← set_status_below "add" r g;
let tot := if total (pg g) =? 0 then 1 else total (pg g) + 1 in
let g := set_pg (set_changed g true)
           (Pager (page (pg g)) (newPage (pg g)) tot (- (- tot / o_pageSize p))) in
let g := _buildPager p msg g in
Ok (log (log g (EvTrigger "SysGridHeightChanged" None)) (EvTrigger "afterAddRow" (Some r))).

Definition addRows (rs : list rref) (near : option rref) (isBefore : bool) (parent : option rref)
  (g : grid) : res grid :=
each_row (fun r => addRow r near isBefore parent) rs g.

(** [updateRow]: the new values are assigned; the row's cells are shown again by
  a deferred call. *)
Definition updateRow (q : rowParm) (newRowData : list (string * jval)) (g : grid) : res grid :=
r ← of_option (getRow q g);
let g := set_changed g true in
let g := upd r (fun o => with_props (extend_obj (r_props o) newRowData) o) g in
o ← row_at (heap g) r;
Ok (if is_str "add" (prop (o_statusName p) o) then g else set_status "update" r g).

(** ** Moving in the tree *)

Definition _appendData (r : rref) (parent near : option rref) (isBefore : bool) (g : grid)
  : res grid :=
let g := set_status "update" r g in
g ← _removeData (PRow r) g;
_addData r parent near isBefore g.

(** [upgrade]: the row can have children. *)
Definition upgrade (q : rowParm) (g : grid) : grid :=
match getRow q g with
| Some r =>
    if o_tree p then
      match rowh (heap g) !! r with
      | Some o =>
          let '(a, h) := match r_children o with
                         | Some a => (a, heap g) | None => new_arr [] (heap g) end in
          let g := set_heap g h in
          log (upd r (fun o => with_hasChildren (Some true) (with_children (Some a) o)) g)
              (EvToggle r false)
      | None => g
      end
    else g
| None => g
end.

Definition opt_parm (o : option rref) : rowParm := match o with Some r => PRow r | None => PNull end.

Definition has_id (r : rref) (g : grid) : bool :=
match rowh (heap g) !! r with
| Some o => bool_decide (is_Some (r_id o)) | None => false end.

Definition upgrade_parent (parent : option rref) (g : grid) : grid :=
if default false (isLeaf (opt_parm parent) g) then upgrade (opt_parm parent) g else g.

(** [appendRow] of one row: a row on show moves, another one is added. *)
Definition appendRow_one (r : rref) (parent near : option rref) (isBefore : bool) (g : grid)
  : res grid :=
if has_id r g && existRecord r g then
  g ← _appendData r parent near isBefore g; reRender g
else addRow r near isBefore parent (upgrade_parent parent g).

Fixpoint append_loop (rs : list rref) (parent near : option rref) (isBefore toRender : bool)
  (g : grid) : res (bool * grid) :=
match rs with
| [] => Ok (toRender, g)
| r :: rs' =>
    if has_id r g && existRecord r g then
      g ← _appendData r parent near isBefore (upgrade_parent parent g);
      append_loop rs' parent near isBefore true g
    else
      g ← appendRow_one r parent near isBefore g;
      append_loop rs' parent near isBefore toRender g
end.

Definition appendRange (rs : list rref) (parent near : option rref) (isBefore : bool) (g : grid)
  : res grid :=
st ← append_loop rs parent near isBefore false g;
if (st.1 : bool) then reRender st.2 else Ok st.2.

Definition appendRow (rowdata : rref + list rref) (parent near : option rref) (isBefore : bool)
  (g : grid) : res grid :=
match rowdata with
| inl r => appendRow_one r parent near isBefore g
| inr rs => appendRange rs parent near isBefore g
end.

(** [demotion]: every child is deleted, one call each, and the row has no
  children any more. *)
Definition demotion (q : rowParm) (g : grid) : res grid :=
match getRow q g with
| Some r =>
    if o_tree p then
      let g := log g (EvToggle r true) in
      g ← (if default false (hasChildren (PRow r) g) then
             children ← getChildren p fuel (PRow r) false g;
             each_row (fun c => deleteRow (PRow c)) (default [] children) g
           else Ok g);
      Ok (upd r (with_hasChildren (Some false)) g)
    else Ok g
| None => Ok g
end.

(** ** Collapsing and expanding *)

(** The links of the tree rows on the page: [true] is the class
  [l-grid-tree-link-close]; a row without an entry has no link. *)
Definition links := gmap rref bool.

Definition is_closed (r : rref) (ls : links) : bool := default false (ls !! r).
Definition set_link (r : rref) (closed : bool) (ls : links) : links := alter (fun _ => closed) r ls.

(** The rows above are shown open. *)
Fixpoint open_parents (n : nat) (r : rref) (st : links * grid) : links * grid :=
match n with
| O => st
| S n' =>
    match getParent p (PRow r) st.2 with
    | None => st
    | Some pr => open_parents n' pr (set_link pr false st.1, log st.2 (EvToggle pr true))
    end
end.

Definition toggle_child (opening loadAjax : bool) (st : links * grid) (c : rref) : links * grid :=
if opening then
  let ls := if negb loadAjax && default false (hasChildren (PRow c) st.2)
            then set_link c false st.1 else st.1 in
  (ls, log st.2 (EvShow c true))
else (set_link c true st.1, log st.2 (EvShow c false)).

Definition toggle (q : rowParm) (loadAjax : bool) (st : links * grid) : res (links * grid) :=
match q with
| PNull => Ok st
| _ =>
    let g := st.2 in
    r ← of_option (getRow q g);
    _ ← row_at (heap g) r;
    let collapsed := default [] (collapsedRows g) in
    let opening := is_closed r st.1 in
    let ls := set_link r (negb opening) st.1 in
    let g := set_collapsedRows g (Some
      (if opening then remove_first r collapsed
       else if inArray r collapsed =? -1 then collapsed ++ [r] else collapsed))%list in
    children ← getChildren p fuel (PRow r) true g;
    children ← of_option children;
    let st := fold_left (toggle_child opening loadAjax) children (ls, g) in
    Ok (open_parents fuel r st)
end.

(** [collapse] and [expand] do nothing when the link is there already. *)
Definition collapse (q : rowParm) (st : links * grid) : res (links * grid) :=
match getRow q st.2 with
| Some r => if bool_decide (st.1 !! r = Some true) then Ok st else toggle q false st
| None => toggle q false st
end.
Definition expand (q : rowParm) (loadAjax : bool) (st : links * grid) : res (links * grid) :=
match getRow q st.2 with
| Some r => if bool_decide (st.1 !! r = Some false) then Ok st else toggle q loadAjax st
| None => toggle q loadAjax st
end.
Definition keepIcon (q : rowParm) (st : links * grid) : links * grid :=
match q with
| PNull => st
| _ => match getRow q st.2 with Some r => open_parents fuel r st | None => st end
end.
End edit.

(** ** A list without the tree *)

Local Close Scope string_scope.

Section flat.
Context (p : options) (fuel : nat) (Hflat : o_tree p = false).

(** The rows of the current data are the array [a], holding [l]. *)
Definition current_list (g : grid) (a : aref) (l : list rref) : Prop :=
  current_rows g = Ok (Some a) /\ arrh (heap g) !! a = Some l.

Lemma current_list_set g a l l' :
  current_list g a l -> current_list (set_heap g (set_arr a l' (heap g))) a l'.
Proof. intros [Hc _]. split; [exact Hc|]. cbn. by rewrite lookup_insert_eq. Qed.

Lemma parent_children_flat q g a l :
  current_list g a l -> _getParentChildren p q g = Ok (Some a).
Proof. intros [Hc _]. unfold _getParentChildren. by rewrite Hflat. Qed.

Lemma elements_current g a l : current_list g a l -> elements (Some a) g = l.
Proof. intros [_ Hl]. unfold elements. by rewrite Hl. Qed.

Lemma splice_array_ok g a l start del ins :
  arrh (heap g) !! a = Some l ->
  splice_array (Some a) start del ins g
  = Ok (set_heap g (set_arr a (splice start del ins l) (heap g))).
Proof.
  intros Hl. unfold splice_array, arr_at. cbn [of_option mbind res_bind]. by rewrite Hl.
Qed.

Lemma removeSelected_flat q g :
  exists g', _removeSelected p fuel q g = Ok g' /\ heap g' = heap g /\ srcs g' = srcs g.
Proof.
  unfold _removeSelected, getChildren. rewrite Hflat. cbn. eexists. by split_and!.
Qed.

(** Where a row is in a list without duplicates. *)
Lemma split_at_index (x : rref) l :
  x ∈ l -> NoDup l ->
  exists pre post, l = pre ++ x :: post /\ inArray x l = Z.of_nat (length pre) /\
    x ∉ pre /\ x ∉ post.
Proof.
  intros Hin Hnd. apply list_elem_of_split in Hin as (pre & post & ->).
  apply NoDup_app in Hnd as (H1 & H2 & H3). apply NoDup_cons in H3 as [H3 H4].
  exists pre, post. assert (x ∉ pre) by (intros H; by apply (H2 x H); left).
  split_and!; try done. apply inArray_some. rewrite lookup_app_r by lia.
  rewrite Nat.sub_diag. split; [done|]. intros j y Hj Hlt ->.
  rewrite lookup_app_l in Hj by done. by apply H, (list_elem_of_lookup_2 _ _ _ Hj).
Qed.

Lemma splice_insert_at (pre post : list rref) x :
  splice (Z.of_nat (length pre)) 0 [x] (pre ++ post) = pre ++ x :: post.
Proof.
  rewrite splice_insert by (rewrite length_app; lia).
  by rewrite take_app_length, drop_app_length.
Qed.

Lemma splice_remove_at (pre post : list rref) x :
  splice (Z.of_nat (length pre)) 1 [] (pre ++ x :: post) = pre ++ post.
Proof.
  rewrite splice_remove by (rewrite length_app; cbn; lia).
  rewrite delete_take_drop, take_app_length, drop_app_ge by lia.
  replace (S (length pre) - length pre)%nat with 1%nat by lia. done.
Qed.

(** In a list, moving a row [x] before or after another row [y] takes it out of
    its place and puts it right beside [y]; the rest keeps its order. *)
Theorem _moveData_beside x y isAfter g a l :
  current_list g a l -> NoDup l -> x ∈ l -> y ∈ l -> x <> y ->
  exists g' pre post, _moveData p (PRow x) (PRow y) isAfter g = Ok g' /\
    List.filter (fun z => negb (bool_decide (z = x))) l = pre ++ y :: post /\
    current_list g' a (if isAfter then pre ++ y :: x :: post else pre ++ x :: y :: post).
Proof.
  intros Hc Hnd Hx Hy Hne. unfold _moveData. cbn [getRow].
  erewrite parent_children_flat by done. cbn [mbind res_bind].
  erewrite elements_current by done. cbn [index_of].
  destruct (split_at_index x l Hx Hnd) as (pre & post & -> & -> & Hp & Hq).
  erewrite splice_array_ok by apply Hc. cbn [mbind res_bind].
  rewrite splice_remove_at. pose proof (current_list_set _ _ _ (pre ++ post) Hc) as Hc2.
  set (g1 := set_heap g _) in *.
  erewrite parent_children_flat by done. cbn [mbind res_bind of_option].
  erewrite elements_current by done.
  assert (y ∈ pre ++ post) as Hy2 by set_solver.
  assert (NoDup (pre ++ post)) as Hnd2.
  { eapply sublist_NoDup; [exact Hnd|]. apply sublist_app; [done|by constructor]. }
  destruct (split_at_index y _ Hy2 Hnd2) as (pre2 & post2 & E & -> & _ & _).
  erewrite splice_array_ok by apply Hc2.
  assert (List.filter (fun z => negb (bool_decide (z = x))) (pre ++ x :: post) = pre2 ++ y :: post2)
    as Hf.
  { rewrite <-E. rewrite List.filter_app. cbn. rewrite bool_decide_true by done. cbn.
    assert (forall k, x ∉ k -> List.filter (fun z => negb (bool_decide (z = x))) k = k) as Hk.
    { induction k as [|z k IH]; [done|]. intros [? ?]%not_elem_of_cons. cbn.
      rewrite bool_decide_false by congruence. cbn. by rewrite IH. }
    by rewrite !Hk. }
  eexists _, pre2, post2. split; [done|]. split; [exact Hf|].
  pose proof (current_list_set _ _ _ (splice (Z.of_nat (length pre2) + (if isAfter then 1 else 0))
    0 [x] (pre ++ post)) Hc2) as Hc3.
  enough (splice (Z.of_nat (length pre2) + (if isAfter then 1 else 0)) 0 [x] (pre ++ post)
    = if isAfter then pre2 ++ y :: x :: post2 else pre2 ++ x :: y :: post2) as Hsp
    by (rewrite Hsp in Hc3 |- *; destruct isAfter; exact Hc3).
  rewrite E. destruct isAfter.
  - replace (Z.of_nat (length pre2) + 1) with (Z.of_nat (length (pre2 ++ [y])))
      by (rewrite length_app; cbn; lia).
    replace (pre2 ++ y :: post2) with ((pre2 ++ [y]) ++ post2) by (by rewrite <-app_assoc).
    rewrite splice_insert_at, <-app_assoc. done.
  - rewrite Z.add_0_r. apply splice_insert_at.
Qed.

(** A row added beside a row of the list stands right before or after it; beside
    a row that is not in the list it stands before the last one. *)
Theorem _addData_beside r y isBefore g a l :
  current_list g a l -> NoDup l ->
  exists g', _addData p r None (Some y) isBefore g = Ok g' /\
    (y ∈ l -> exists pre post, l = pre ++ y :: post /\
       current_list g' a (if isBefore then pre ++ r :: y :: post else pre ++ y :: r :: post)) /\
    (forall init z, y ∉ l -> l = init ++ [z] -> current_list g' a (init ++ [r; z])).
Proof.
  intros Hc Hnd. unfold _addData, target_array. destruct Hc as [Hcur Hl]. rewrite Hcur.
  cbn [mbind res_bind]. rewrite Hflat. cbn [mbind res_bind].
  erewrite elements_current by done. erewrite splice_array_ok by done.
  eexists. split; [done|]. split.
  - intros Hy. destruct (split_at_index y l Hy Hnd) as (pre & post & -> & E & _).
    exists pre, post. split; [done|]. rewrite E.
    destruct (Z.of_nat (length pre) =? -1) eqn:Eq; zbool; [lia|].
    match goal with |- current_list (set_heap _ (set_arr _ ?x _)) _ ?y => assert (x = y) as -> end;
      [|by apply (current_list_set _ _ (pre ++ y :: post))].
    destruct isBefore.
    + rewrite Z.add_0_r. apply splice_insert_at.
    + replace (Z.of_nat (length pre) + 1) with (Z.of_nat (length (pre ++ [y])))
        by (rewrite length_app; cbn; lia).
      replace (pre ++ y :: post) with ((pre ++ [y]) ++ post) by (by rewrite <-app_assoc).
      rewrite splice_insert_at, <-app_assoc. done.
  - intros init z Hy ->. apply inArray_none in Hy. rewrite Hy. change (-1 =? -1) with true. cbn iota.
    match goal with |- current_list (set_heap _ (set_arr _ ?x _)) _ ?y => assert (x = y) as -> end;
      [|by apply (current_list_set _ _ (init ++ [z]))].
    replace (splice (-1) 0 [r] (init ++ [z])) with (splice (Z.of_nat (length init)) 0 [r] (init ++ [z])).
    { apply splice_insert_at. }
    unfold splice. rewrite clamp_start_nat by (rewrite length_app; cbn; lia).
    unfold clamp_start. cbn [Z.ltb Z.compare]. rewrite length_app. cbn [length].
    replace (Z.to_nat (Z.max (Z.of_nat (length init + 1) + -1) 0)) with (length init) by lia. done.
Qed.

(** [remove] of a row object takes its first occurrence out of the list;
    [remove] of a row's id or position takes out nothing. *)
Theorem _removeData_row_only q g a l :
  current_list g a l ->
  exists g', _removeData p fuel q g = Ok g' /\
    current_list g' a (match q with PRow r => remove_first r l | _ => l end).
Proof.
  intros Hc. unfold _removeData. erewrite parent_children_flat by done. cbn [mbind res_bind].
  erewrite elements_current by done.
  assert (exists g1, (if index_of q l =? -1 then Ok g
                      else splice_array (Some a) (index_of q l) 1 [] g) = Ok g1 /\
    current_list g1 a (match q with PRow r => remove_first r l | _ => l end)) as (g1 & -> & H1).
  { destruct q; cbn [index_of]; try (exists g; by split). unfold remove_first.
    destruct (inArray r l =? -1) eqn:E; [exists g; by split|].
    erewrite splice_array_ok by apply Hc. eexists. split; [done|]. by eapply current_list_set. }
  cbn [mbind res_bind]. destruct (removeSelected_flat q g1) as (g' & -> & Hh & Hs).
  exists g'. split; [done|]. destruct H1 as [Hcur Hl]. unfold current_list, current_rows.
  rewrite Hh, Hs. by split.
Qed.
End flat.

(** Moving a row up when no row is selected moves it and then throws. *)
Theorem up_unselected_throws p ctrl fuel msg fr r a l to g g1 :
  _getParentChildren p (PRow r) g = Ok a -> elements a g = l ->
  0 < inArray r l -> l !! Z.to_nat (inArray r l - 1) = Some to ->
  getSelectedRow g = None ->
  move p fuel msg fr false (PRow r) (PRow to) false g = Ok g1 ->
  up p ctrl fuel msg fr false (PRow r) g = Throw TypeError.
Proof.
  intros Ha Hl Hi Hto Hsel Hm. unfold up. cbn [getRow]. rewrite Ha. cbn [mbind res_bind].
  rewrite Hl. cbn [index_of].
  destruct ((inArray r l =? -1) || (inArray r l =? 0)) eqn:E.
  { apply orb_true_iff in E as [E|E]; zbool; lia. }
  rewrite Hto. cbn [of_option mbind res_bind]. rewrite Hm, Hsel. done.
Qed.

(** *** The three rows of the demonstration grid *)

Lemma demo_current : current_list demo_grid 1%positive [1%positive; 2%positive; 3%positive].
Proof. done. Qed.
Lemma demo_nodup : NoDup [1%positive; 2%positive; 3%positive].
Proof. apply (bool_decide_unpack _). vm_compute. exact I. Qed.

Lemma _moveData_beside_witness :
  exists g' pre post, _moveData demo_options (PRow 1%positive) (PRow 3%positive) true demo_grid = Ok g' /\
    List.filter (fun z => negb (bool_decide (z = 1%positive))) [1%positive; 2%positive; 3%positive]
    = pre ++ 3%positive :: post /\
    current_list g' 1%positive (pre ++ 3%positive :: 1%positive :: post).
Proof.
  exact (_moveData_beside demo_options eq_refl 1%positive 3%positive true demo_grid 1%positive _
    demo_current demo_nodup ltac:(set_solver) ltac:(set_solver) ltac:(discriminate)).
Defined.

Lemma _addData_beside_witness :
  exists g', _addData demo_options 4%positive None (Some 2%positive) true demo_grid = Ok g' /\
    exists pre post, [1%positive; 2%positive; 3%positive] = pre ++ 2%positive :: post.
Proof.
  destruct (_addData_beside demo_options eq_refl 4%positive 2%positive true demo_grid 1%positive _
    demo_current demo_nodup) as (g' & H & Hin & _).
  exists g'. split; [exact H|]. destruct Hin as (pre & post & E & _); [set_solver|].
  exists pre, post. exact E.
Defined.

Lemma _removeData_row_only_witness :
  exists g', _removeData demo_options 1 (PStr "r1001"%string) demo_grid = Ok g' /\
    current_list g' 1%positive [1%positive; 2%positive; 3%positive].
Proof. exact (_removeData_row_only demo_options 1 eq_refl (PStr "r1001"%string) demo_grid _ _ demo_current). Defined.

Lemma up_unselected_throws_witness :
  up demo_options false 1 ""%string false false (PRow 2%positive) demo_grid = Throw TypeError.
Proof.
  eapply (up_unselected_throws demo_options false 1 ""%string false 2%positive (Some 1%positive)
    [1%positive; 2%positive; 3%positive] 1%positive demo_grid); vm_compute; reflexivity.
Defined.
