(* ===== verification/GridCols.v ===== *)
(** * ligerGrid: the columns

    Numbering the column tree ([_initColumns]), finding columns, their widths,
    hiding and showing them, and moving them. *)

From S2P Require Import Prelude JsString JsNum GridHeap GridRows GridShow GridSort.
Local Open Scope string_scope.
Local Open Scope Z_scope.

(** ** Columns *)

(** A configured width: none, a number, or a percentage. *)
Inductive cwidth := WNone | WNum (w : Z) | WPercent (n : Z).

(** What the user configures, and the system columns. *)
Inductive column_kind := CData | CRownumber | CDetail | CCheckbox.

Record colspec := ColSpec {
  cs_id : option string;
  cs_kind : column_kind;
  cs_name : option string;
  cs_type : option string;
  cs_width : cwidth;
  cs_minWidth : Z;                 (* 0: none *)
  cs_maxWidth : Z;
  cs_frozenOption : option bool;   (* None: undefined *)
  cs_hide : bool;
  cs_isSort : option bool;
  cs_align : option string;
  cs_totalSummary : option string; (* its type, empty when it only has a render *)
  cs_keptWidth : Z;                (* _width of an earlier run, 0: none *)
  cs_keptHide : bool;              (* _hide of an earlier run *)
  cs_keptLeafcount : Z             (* __leafcount of an earlier run, 0: none *)
}.

(** Where the code asks [if (column.frozen)]. *)
Definition cs_frozen (c : colspec) : bool := default false (cs_frozenOption c).
(** [column.frozen] after [_initColumns], which makes a boolean of it for the leaves
    only. *)
Definition frozen_value (leaf : bool) (c : colspec) : option bool :=
  if leaf then Some (cs_frozen c) else cs_frozenOption c.

Inductive coltree := Col (c : colspec) (kids : list coltree).
Definition cspec (t : coltree) : colspec := let 'Col c _ := t in c.
Definition ckids (t : coltree) : list coltree := let 'Col _ k := t in k.

(** A column of [g._columns]. *)
Record column := Column {
  c_spec : colspec;
  c_id : string;
  c_pid : option string;           (* None: -1 *)
  c_previd : option string;
  c_level : Z;
  c_leaf : bool;
  c_leafindex : option Z;
  c_leafcount : option Z;
  c_colSpan : option Z;
  c_rowSpan : option Z;
  c_index : Z;                     (* columnindex *)
  c_islast : bool;
  c_type : string;
  c_isSort : bool;
  c_width : Z;                     (* _width *)
  c_hide : bool                    (* _hide *)
}.

Definition cset_leafcount v c := Column (c_spec c) (c_id c) (c_pid c) (c_previd c) (c_level c)
  (c_leaf c) (c_leafindex c) v (c_colSpan c) (c_rowSpan c) (c_index c) (c_islast c) (c_type c)
  (c_isSort c) (c_width c) (c_hide c).
Definition cset_spans cs rs c := Column (c_spec c) (c_id c) (c_pid c) (c_previd c) (c_level c)
  (c_leaf c) (c_leafindex c) (c_leafcount c) cs rs (c_index c) (c_islast c) (c_type c)
  (c_isSort c) (c_width c) (c_hide c).
Definition cset_leaf i last ty sort w h c := Column (c_spec c) (c_id c) (c_pid c) (c_previd c)
  (c_level c) (c_leaf c) (c_leafindex c) (c_leafcount c) (c_colSpan c) (c_rowSpan c) i last ty
  sort w h.
Definition cset_hide h c := Column (c_spec c) (c_id c) (c_pid c) (c_previd c) (c_level c)
  (c_leaf c) (c_leafindex c) (c_leafcount c) (c_colSpan c) (c_rowSpan c) (c_index c) (c_islast c)
  (c_type c) (c_isSort c) (c_width c) h.
Definition cset_width w c := Column (c_spec c) (c_id c) (c_pid c) (c_previd c) (c_level c)
  (c_leaf c) (c_leafindex c) (c_leafcount c) (c_colSpan c) (c_rowSpan c) (c_index c) (c_islast c)
  (c_type c) (c_isSort c) w (c_hide c).

(** [column.name] where the code tests it for truth. *)
Definition col_name (c : column) : option string := truthy_str (cs_name (c_spec c)).

(** The columns of a grid: [g._columns] in insertion order, the counters. *)
Record columns_state := Columns {
  cols : list (string * column);
  columnCount : Z;
  columnLeafCount : Z;
  columnMaxLevel : Z
}.

(** ** [_initColumns] *)

Definition _createColumnId (c : colspec) (count : Z) : string :=
  match cs_id c with Some id => id | None => "c" ++ show_Z (100 + count) end.

Definition _isColumnId (str : string) (s : columns_state) : bool :=
  bool_decide (str ∈ okeys (cols s)).

(** The entry of a column as [setColumn] first writes it.  [removeProp] takes away
    what an earlier run left, but not [__leafcount]; [_hide] is set again for the
    leaves only. *)
Definition new_column (c : colspec) (id : string) (level : Z) (pid previd : option string)
    (leaf : bool) (leafindex : Z) : column :=
  Column c id pid previd level leaf (if leaf then Some leafindex else None)
    (if cs_keptLeafcount c =? 0 then None else Some (cs_keptLeafcount c)) None None
    0 false "" true 0 (cs_keptHide c).

(** The loop over sibling columns: the leaves so far, the id of the last one. *)
Definition each_column
    (f : coltree -> option string -> columns_state -> Z * string * columns_state) :=
  fix go (l : list coltree) (previd : option string) (n : Z) (s : columns_state)
    : Z * option string * columns_state :=
    match l with
    | [] => (n, previd, s)
    | k :: l' => let '(m, kid, s) := f k previd s in go l' (Some kid) (n + m) s
    end.

(** [setColumn]: returns the number of leaves, the column's id and the state.
    Columns with distinct ids are distinct entries. *)
Fixpoint setColumn (level : Z) (pid : option string) (t : coltree) (previd : option string)
    (s : columns_state) {struct t} : Z * string * columns_state :=
  match t with
  | Col c kids =>
      let maxl := if columnMaxLevel s <? level then level else columnMaxLevel s in
      let count := columnCount s + 1 in
      let id := _createColumnId c count in
      let leaf := match kids with [] => true | _ => false end in
      let s := Columns (oset id (new_column c id level pid previd leaf (columnLeafCount s)) (cols s))
                 count (if leaf then columnLeafCount s + 1 else columnLeafCount s) maxl in
      if leaf then (1, id, s)
      else
        let '(n, _, s) := each_column (setColumn (level + 1) (Some id)) kids None 0 s in
        let s := match oget id (cols s) with
                 | Some col => Columns (oset id (cset_leafcount (Some n) col) (cols s))
                                 (columnCount s) (columnLeafCount s) (columnMaxLevel s)
                 | None => s
                 end in
        (n, id, s)
  end.

Definition set_spans (maxl : Z) (c : column) : column :=
  cset_spans
    (match c_leafcount c with Some n => if 1 <? n then Some n else None | None => None end)
    (if c_leaf c && negb (c_level c =? maxl) then Some (maxl - c_level c + 1) else None) c.

(** [getColumns]: the columns of a level, or the leaves. *)
Definition getColumns (level : option Z) (s : columns_state) : list column :=
  List.filter (fun c => match level with Some n => c_level c =? n | None => c_leaf c end)
    (map snd (cols s)).

(** ** Options of the columns *)

Record column_options := ColOptions {
  p_rownumbers : bool; p_rownumbersColWidth : Z;
  p_detail : bool; p_detailColWidth : Z;
  p_checkbox : bool; p_checkboxColWidth : Z;
  p_frozen : bool; p_frozenRownumbers : bool; p_frozenDetail : bool; p_frozenCheckbox : bool;
  p_columnWidth : Z; p_minColumnWidth : Z; p_headerRowHeight : Z;
  p_group : bool
}.

(** [_getColumnWidth]; the percentage is computed in floating point and cut. *)
Definition _getColumnWidth (p : column_options) (gridWidth : Z) (ncolumns : Z) (c : colspec) : Z :=
  if negb (cs_keptWidth c =? 0) then cs_keptWidth c
  else
    let colwidth := match cs_width c with
                    | WNone | WNum 0 => if p_columnWidth p =? 0 then WNone else WNum (p_columnWidth p)
                    | w => w end in
    let colwidth :=
      match colwidth with
      | WNone | WNum 0 =>
          let lwidth := 4 + (if p_checkbox p then p_checkboxColWidth p else 0)
                          + (if p_detail p then p_detailColWidth p else 0) in
          Z.quot (gridWidth - lwidth) ncolumns
      | WNum w => w
      | WPercent n =>
          default 0 (parseInt (num_string
            (num_of_Z n * 0x1.47ae147ae147bp-7%float * num_of_Z (gridWidth - ncolumns))%num))
      end in
    let colwidth := if negb (cs_minWidth c =? 0) && (colwidth <? cs_minWidth c)
                    then cs_minWidth c else colwidth in
    if negb (cs_maxWidth c =? 0) && (cs_maxWidth c <? colwidth) then cs_maxWidth c else colwidth.

Definition system_column (kind : column_kind) (w : Z) (frozen : bool) : coltree :=
  Col (ColSpec None kind None None (WNum w) 0 0 (Some frozen) false None None None 0 false 0) [].

Definition system_columns (p : column_options) : list coltree :=
  let fr b := if p_group p then false else p_frozen p && b in
  (if p_rownumbers p
   then [system_column CRownumber (p_rownumbersColWidth p) (fr (p_frozenRownumbers p))] else []) ++
  (if p_detail p then [system_column CDetail (p_detailColWidth p) (fr (p_frozenDetail p))] else []) ++
  (if p_checkbox p
   then [system_column CCheckbox (p_detailColWidth p) (fr (p_frozenCheckbox p))] else []).

(** The leaves get their position, type and width. *)
Fixpoint set_leaves (p : column_options) (gridWidth n i : Z) (l : list (string * column))
    : list (string * column) :=
  match l with
  | [] => []
  | (id, c) :: l' =>
      if c_leaf c then
        (id, cset_leaf i (i =? n - 1) (default "string" (cs_type (c_spec c)))
               (negb (bool_decide (cs_isSort (c_spec c) = Some false)))
               (_getColumnWidth p gridWidth n (c_spec c)) (cs_hide (c_spec c)) c)
        :: set_leaves p gridWidth n (i + 1) l'
      else (id, c) :: set_leaves p gridWidth n i l'
  end.

Definition _initColumns (p : column_options) (gridWidth : Z) (columns : list coltree)
    : columns_state :=
  let '(_, _, s) := each_column (setColumn 1 None) (system_columns p ++ columns) None 0 (Columns [] 0 0 1) in
  let l := map (fun q => (q.1, set_spans (columnMaxLevel s) q.2)) (cols s) in
  let n := Z.of_nat (length (List.filter (fun q => c_leaf q.2) l)) in
  Columns (set_leaves p gridWidth n 0 l) (columnCount s) (columnLeafCount s) (columnMaxLevel s).

(** ** Looking columns up *)

(** What the callers pass: an id, a position, a name, a column. *)
Inductive colParm := CPStr (s : string) | CPNum (n : Z) | CPCol (id : string).

Definition column_number (n : option Z) (s : columns_state) : option column :=
  n ← n; if n <? 0 then None else getColumns None s !! Z.to_nat n.

Definition getColumn (q : colParm) (s : columns_state) : option column :=
  match q with
  | CPStr str => if _isColumnId str s then oget str (cols s) else column_number (parseInt str) s
  | CPNum n => column_number (Some n) s
  | CPCol id => oget id (cols s)
  end.

Definition named (name : string) (c : column) : bool := bool_decide (cs_name (c_spec c) = Some name).

Definition getColumnType (columnname : string) (s : columns_state) : option string :=
  match List.find (named columnname) (getColumns None s) with
  | Some c => Some (if String.eqb (c_type c) "" then "string" else c_type c)
  | None => None
  end.

Definition isTotalSummary (s : columns_state) : bool :=
  existsb (fun c => bool_decide (is_Some (cs_totalSummary (c_spec c)))) (getColumns None s).

(** [enabledFrozen], for columns that are set up. *)
Definition enabledFrozen (p : column_options) (s : columns_state) : bool :=
  if negb (p_frozen p) then false
  else (p_detail p && p_frozenDetail p) || (p_checkbox p && p_frozenCheckbox p)
       || (p_frozenRownumbers p && p_rownumbers p)
       || existsb (fun c => cs_frozen (c_spec c)) (getColumns None s).

(** The columns a parameter of [toggleCol], [setColumnWidth] and
    [changeHeaderText] stands for: a name may stand for several. *)
Definition columns_of (q : colParm) (s : columns_state) : list column :=
  match q with
  | CPNum n => option_list (column_number (Some n) s)
  | CPCol id => option_list (oget id (cols s))
  | CPStr str =>
      if _isColumnId str s then option_list (oget str (cols s))
      else List.filter (named str) (getColumns None s)
  end.

(** ** Hiding and showing *)

(** The children of a group, in order. *)
Definition members (pid : string) (s : columns_state) : list column :=
  List.filter (fun c => bool_decide (c_pid c = Some pid)) (map snd (cols s)).

Definition set_col (id : string) (f : column -> column) (s : columns_state) : columns_state :=
  match oget id (cols s) with
  | Some c => Columns (oset id (f c) (cols s)) (columnCount s) (columnLeafCount s) (columnMaxLevel s)
  | None => s
  end.

Definition hidden (s : columns_state) (id : string) : bool :=
  match oget id (cols s) with Some c => c_hide c | None => false end.

(** [_setColumnVisible]: showing a column shows a hidden group, and on up; hiding
    the last visible column of a group hides the group, and on up.  The fuel is
    the number of levels above. *)
Fixpoint _setColumnVisible (fuel : nat) (id : string) (hide : bool) (s : columns_state)
    : columns_state :=
  let s := set_col id (cset_hide hide) s in
  match fuel, oget id (cols s) with
  | S fuel', Some c =>
      match c_pid c with
      | None => s
      | Some pid =>
          if hide then
            if forallb c_hide (members pid s)
            then _setColumnVisible fuel' pid hide (set_col pid (cset_hide true) s) else s
          else if hidden s pid then _setColumnVisible fuel' pid hide s else s
      end
  | _, _ => s
  end.

(** The widths of the two tables. *)
Record table_widths := Widths { w_main : Z; w_frozen : Z }.

Definition add_width (c : column) (d : Z) (w : table_widths) : table_widths :=
  if cs_frozen (c_spec c) then Widths (w_main w) (w_frozen w + d)
  else Widths (w_main w + d) (w_frozen w).

Definition toggle_one (visible : bool) (st : columns_state * table_widths) (c : column)
    : columns_state * table_widths :=
  let fuel := Z.to_nat (columnMaxLevel st.1) in
  match oget (c_id c) (cols st.1) with
  | None => st
  | Some c =>
      if visible && c_hide c then
        (_setColumnVisible fuel (c_id c) false st.1, add_width c (c_width c + 1) st.2)
      else if negb visible && negb (c_hide c) then
        (_setColumnVisible fuel (c_id c) true st.1, add_width c (- (c_width c + 1)) st.2)
      else st
  end.

Definition toggleCol (q : colParm) (visible : bool) (st : columns_state * table_widths)
    : columns_state * table_widths :=
  fold_left (toggle_one visible) (columns_of q st.1) st.

(** [setColumnWidth]; [veto] is [beforeChangeColumnWidth].  A width of zero is
    no width. *)
Definition width_one (p : column_options) (veto : bool) (newwidth : Z)
    (st : columns_state * table_widths) (c : column) : columns_state * table_widths :=
  match oget (c_id c) (cols st.1) with
  | None => st
  | Some c =>
      let minw := if cs_minWidth (c_spec c) =? 0 then p_minColumnWidth p
                  else cs_minWidth (c_spec c) in
      let neww := if newwidth <? minw then minw else newwidth in
      let diff := neww - c_width c in
      if veto then st
      else (set_col (c_id c) (cset_width neww) st.1, add_width c diff st.2)
  end.

Definition setColumnWidth (p : column_options) (veto : bool) (q : colParm) (newwidth : Z)
    (st : columns_state * table_widths) : columns_state * table_widths :=
  if newwidth =? 0 then st
  else fold_left (width_one p veto newwidth) (columns_of q st.1) st.

(** The widths [_initBuildGridHeader] starts with: every leaf of every level. *)
Definition header_widths (s : columns_state) : table_widths :=
  fold_left (fun w c => if c_leaf c then add_width c (c_width c + 1) w else w)
    (flat_map (fun k => getColumns (Some (Z.of_nat k + 1)) s)
       (seq 0 (Z.to_nat (columnMaxLevel s)))) (Widths 0 0).

(** The height of the header. *)
Definition header_height (p : column_options) (s : columns_state) : option Z :=
  if 0 <? columnMaxLevel s then Some (p_headerRowHeight p * columnMaxLevel s) else None.


(** ** Moving a column *)

(** [changeCol] on the arrays of columns of the two parents: the column is put in
    first and taken out of its old place afterwards. *)
Definition move_in {A} (fromIndex toIndex : Z) (isAfter : bool) (x : A) (l : list A) : list A :=
  let l := splice (toIndex + (if isAfter then 1 else 0)) 0 [x] l in
  if isAfter then splice fromIndex 1 [] l else splice (fromIndex + 1) 1 [] l.

Definition changeCol_same {A} `{EqDecision A} (from to : A) (isAfter : bool) (l : list A) : list A :=
  move_in (inArray from l) (inArray to l) isAfter from l.

Definition changeCol_other {A} `{EqDecision A} (from to : A) (isAfter : bool) (fromL toL : list A)
    : list A * list A :=
  let fromIndex := inArray from fromL in
  let toIndex := inArray to toL in
  (splice fromIndex 1 [] fromL, splice (toIndex + (if isAfter then 1 else 0)) 0 [from] toL).

Local Close Scope string_scope.

Section change.
Context {A : Type} `{EqDecision A}.
Implicit Types l pre mid post : list A.

Lemma splice_in pre post (x : A) n :
  n = Z.of_nat (length pre) -> splice n 0 [x] (pre ++ post) = pre ++ x :: post.
Proof.
  intros ->. rewrite splice_insert by (rewrite length_app; lia).
  by rewrite take_app_length, drop_app_length.
Qed.

Lemma splice_out pre post (x : A) n :
  n = Z.of_nat (length pre) -> splice n 1 [] (pre ++ x :: post) = pre ++ post.
Proof.
  intros ->. rewrite splice_remove by (rewrite length_app; cbn; lia).
  rewrite delete_take_drop, take_app_length, drop_app_ge by lia.
  by replace (S (length pre) - length pre)%nat with 1%nat by lia.
Qed.

Lemma inArray_at pre post (x : A) :
  x ∉ pre -> inArray x (pre ++ x :: post) = Z.of_nat (length pre).
Proof.
  intros Hx. apply inArray_some. rewrite lookup_app_r, Nat.sub_diag by lia. split; [done|].
  intros j y Hj Hlt ->. rewrite lookup_app_l in Hj by done.
  by apply Hx, (list_elem_of_lookup_2 _ _ _ Hj).
Qed.

(** Moving by position. *)
Lemma move_in_moves pre mid post (x y : A) :
  let l := pre ++ x :: mid ++ y :: post in
  let i := Z.of_nat (length pre) in
  let j := Z.of_nat (length (pre ++ x :: mid)) in
  move_in i j true x l = pre ++ mid ++ y :: x :: post /\
  move_in j i false y l = pre ++ y :: x :: mid ++ post.
Proof.
  cbn zeta. unfold move_in. split.
  - replace (pre ++ x :: mid ++ y :: post) with ((pre ++ x :: mid ++ [y]) ++ post)
      by (by rewrite <-app_assoc; cbn; rewrite <-app_assoc).
    rewrite splice_in by (rewrite !length_app; cbn; rewrite !length_app; cbn; lia).
    rewrite <-app_assoc. cbn [app]. rewrite splice_out by done. by rewrite <-app_assoc.
  - rewrite splice_in by lia.
    replace (pre ++ y :: x :: mid ++ y :: post) with ((pre ++ y :: x :: mid) ++ y :: post)
      by (by rewrite <-app_assoc).
    rewrite splice_out by (rewrite !length_app; cbn; lia). by rewrite <-app_assoc.
Qed.

(** Dragging a column within its group towards the right puts it right after
    its target, towards the left right before it. *)
Theorem changeCol_moves pre mid post (x y : A) :
  NoDup (pre ++ x :: mid ++ y :: post) ->
  changeCol_same x y true (pre ++ x :: mid ++ y :: post) = pre ++ mid ++ y :: x :: post /\
  changeCol_same y x false (pre ++ x :: mid ++ y :: post) = pre ++ y :: x :: mid ++ post.
Proof.
  intros Hnd. apply NoDup_app in Hnd as (_ & H1 & H2). apply NoDup_cons in H2 as [H2 H3].
  apply NoDup_app in H3 as (_ & H4 & _).
  assert (x ∉ pre) as Hx by (intros H; apply (H1 x H); left).
  assert (y ∉ pre ++ x :: mid) as Hy.
  { rewrite elem_of_app, elem_of_cons. intros [H|[->|H]].
    - apply (H1 y H). right. apply elem_of_app. right. left.
    - apply H2, elem_of_app. right. left.
    - apply (H4 y H). left. }
  assert (inArray x (pre ++ x :: mid ++ y :: post) = Z.of_nat (length pre)) as Ix
    by (by apply inArray_at).
  assert (inArray y (pre ++ x :: mid ++ y :: post) = Z.of_nat (length (pre ++ x :: mid))) as Iy.
  { rewrite <-(inArray_at (pre ++ x :: mid) post y) by done. by rewrite <-app_assoc. }
  unfold changeCol_same. rewrite Ix, Iy. apply move_in_moves.
Qed.

(** Moving a column after one that stands before it loses the column on its
    left and leaves the moved one twice. *)
Theorem changeCol_loses pre mid post (x y z : A) :
  NoDup (pre ++ y :: mid ++ z :: x :: post) ->
  changeCol_same x y true (pre ++ y :: mid ++ z :: x :: post)
  = pre ++ y :: x :: mid ++ x :: post.
Proof.
  intros Hnd. apply NoDup_app in Hnd as (_ & H1 & H2). apply NoDup_cons in H2 as [H2 H3].
  apply NoDup_app in H3 as (_ & H4 & H5). apply NoDup_cons in H5 as [H5 _].
  assert (y ∉ pre) as Hy by (intros H; apply (H1 y H); left).
  assert (x ∉ pre ++ y :: mid ++ [z]) as Hx.
  { rewrite elem_of_app, elem_of_cons, elem_of_app, list_elem_of_singleton.
    intros [H|[->|[H|Hz]]]; [..|subst z].
    - apply (H1 x H). right. apply elem_of_app. right. right. left.
    - apply H2, elem_of_app. right. right. left.
    - apply (H4 x H). right. left.
    - apply H5. left. }
  unfold changeCol_same, move_in. rewrite inArray_at by done.
  assert (inArray x (pre ++ y :: mid ++ z :: x :: post)
          = Z.of_nat (length (pre ++ y :: mid ++ [z]))) as ->.
  { rewrite <-(inArray_at (pre ++ y :: mid ++ [z]) post x) by done.
    rewrite <-app_assoc. cbn. by rewrite <-app_assoc. }
  replace (pre ++ y :: mid ++ z :: x :: post) with ((pre ++ [y]) ++ mid ++ z :: x :: post)
    by (by rewrite <-app_assoc).
  rewrite splice_in by (rewrite length_app; cbn; lia).
  replace ((pre ++ [y]) ++ x :: mid ++ z :: x :: post)
    with ((pre ++ y :: x :: mid) ++ z :: x :: post)
    by (rewrite <-!app_assoc; done).
  rewrite splice_out; [by rewrite <-app_assoc|].
  rewrite !length_app. cbn. rewrite !length_app. cbn. lia.
Qed.
End change.

Lemma changeCol_moves_witness :
  changeCol_same 1 3 true [1; 2; 3; 4] = [2; 3; 1; 4] /\
  changeCol_same 3 1 false [1; 2; 3; 4] = [3; 1; 2; 4].
Proof.
  exact (changeCol_moves [] [2] [4] 1 3 ltac:(apply (bool_decide_unpack _); vm_compute; exact I)).
Defined.

Lemma changeCol_loses_witness : changeCol_same 3 1 true [1; 2; 3] = [1; 3; 3].
Proof.
  exact (changeCol_loses [] [] [] 3 1 2 ltac:(apply (bool_decide_unpack _); vm_compute; exact I)).
Defined.

(** ** The header *)

Fixpoint leaves (t : coltree) : Z :=
  match t with
  | Col _ kids => match kids with [] => 1 | _ => foldr (fun k n => leaves k + n) 0 kids end
  end.
Fixpoint col_height (t : coltree) : Z :=
  match t with Col _ kids => 1 + foldr (fun k n => Z.max (col_height k) n) 0 kids end.

Definition keeps_levels (maxl : Z) (s : columns_state) : Prop :=
  Forall (fun q => 1 <= c_level q.2 <= maxl) (cols s).

Lemma Forall_oset {V} (Q : string * V -> Prop) k v (o : list (string * V)) :
  Forall Q o -> Q (k, v) -> Forall Q (oset k v o).
Proof.
  intros Ho Hk. induction Ho as [|[k' v'] o Hq Ho IH]; cbn; [by constructor|].
  destruct (decide (k = k')) as [->|]; by constructor.
Qed.

Lemma Forall_oget {V} (Q : string * V -> Prop) k v (o : list (string * V)) :
  Forall Q o -> oget k o = Some v -> Q (k, v).
Proof. intros Ho Hk. rewrite Forall_forall in Ho. by apply Ho, oget_Some_in. Qed.

(** What numbering a column counts. *)
Definition counted (n level : Z) (h : Z) (s s' : columns_state) : Prop :=
  columnLeafCount s' = columnLeafCount s + n /\
  columnMaxLevel s' = Z.max (columnMaxLevel s) (level + h - 1) /\
  (keeps_levels (columnMaxLevel s) s -> 1 <= level -> keeps_levels (columnMaxLevel s') s').

Lemma keeps_levels_le m m' s : m <= m' -> keeps_levels m s -> keeps_levels m' s.
Proof. intros Hm H. eapply Forall_impl; [exact H|]. cbn. lia. Qed.

Lemma heights_nonneg l : 0 <= foldr (fun k n => Z.max (col_height k) n) 0 l.
Proof. induction l; cbn; lia. Qed.

Lemma setColumn_counted t : forall level pid previd s n id s',
  setColumn level pid t previd s = (n, id, s') ->
  n = leaves t /\ counted n level (col_height t) s s'.
Proof.
  revert t. fix IH 1. intros [c kids] level pid previd s n id s'. cbn [setColumn].
  set (maxl := if columnMaxLevel s <? level then level else columnMaxLevel s).
  assert (maxl = Z.max (columnMaxLevel s) level) as Hmax.
  { subst maxl. destruct (_ <? _) eqn:?; zbool; lia. }
  set (nid := _createColumnId c (columnCount s + 1)).
  set (lf := match kids with [] => true | _ => false end).
  set (s1 := Columns (oset nid _ (cols s)) _ _ _).
  assert (keeps_levels (columnMaxLevel s) s -> 1 <= level -> keeps_levels maxl s1) as Hk1.
  { intros Hk Hl. apply Forall_oset; [|cbn; lia].
    eapply Forall_impl; [exact Hk|]. cbn. lia. }
  destruct kids as [|k0 ks].
  { intros [= <- <- <-]. split; [done|]. unfold counted. cbn. split_and!; try done. lia. }
  assert (forall l prev m st n' prev' st',
    each_column (setColumn (level + 1) (Some nid)) l prev m st = (n', prev', st') ->
    n' = m + foldr (fun k n => leaves k + n) 0 l /\
    columnLeafCount st' = columnLeafCount st + foldr (fun k n => leaves k + n) 0 l /\
    (level <= columnMaxLevel st ->
     columnMaxLevel st' = Z.max (columnMaxLevel st)
       (level + foldr (fun k n => Z.max (col_height k) n) 0 l)) /\
    (keeps_levels (columnMaxLevel st) st -> 1 <= level -> keeps_levels (columnMaxLevel st') st'))
    as Hgo.
  { induction l as [|k l IHl]; intros prev m st n' prev' st'; cbn [each_column].
    - intros [= <- <- <-]. cbn. split_and!; try done; lia.
    - destruct (setColumn (level + 1) (Some nid) k prev st) as [[m1 kid] st1] eqn:E.
      apply IH in E as (-> & E1 & E2 & E3). intros H.
      apply IHl in H as (-> & H1 & H2 & H3). cbn. split_and!; try lia.
      intros Hk Hl. apply H3; [apply E3; [done|lia]|lia]. }
  cbn [lf]. subst lf.
  destruct (each_column _ (k0 :: ks) None 0 s1) as [[n1 pv] s2] eqn:E.
  apply Hgo in E as (-> & E1 & E2 & E3). cbn in E1. specialize (E2 ltac:(cbn; lia)).
  intros [= <- <- <-]. split; [done|].
  assert (counted (leaves (Col c (k0 :: ks))) level (col_height (Col c (k0 :: ks))) s s2) as Hc.
  { split_and!; [exact E1|pose proof (heights_nonneg ks); cbn in E2 |- *; clearbody maxl; lia|]. intros Hk Hl. by apply E3; [apply Hk1|]. }
  destruct (oget nid (cols s2)) as [col|] eqn:Eg; [|exact Hc].
  destruct Hc as (C1 & C2 & C3). split_and!; [exact C1|exact C2|].
  intros Hk Hl. specialize (C3 Hk Hl). apply Forall_oset; [exact C3|].
  pose proof (Forall_oget _ _ _ _ C3 Eg) as Hcol. exact Hcol.
Qed.

Lemma set_leaves_incl p w n i l q :
  q ∈ set_leaves p w n i l ->
  exists c, (q.1, c) ∈ l /\ c_level q.2 = c_level c /\ c_leaf q.2 = c_leaf c /\
            c_rowSpan q.2 = c_rowSpan c.
Proof.
  revert i. induction l as [|[id c] l IH]; intros i; cbn [set_leaves]; [by intros []%not_elem_of_nil|].
  destruct (c_leaf c) eqn:E; rewrite elem_of_cons; (intros [->|H];
    [exists c; split; [by left|by rewrite ?E]|]);
    destruct (IH _ H) as (c' & ? & ?); exists c'; (split; [by right|done]).
Qed.

Lemma each_column_counted l : forall level pid prev m s n prev' s',
  each_column (setColumn level pid) l prev m s = (n, prev', s') ->
  n = m + foldr (fun k n => leaves k + n) 0 l /\
  columnLeafCount s' = columnLeafCount s + foldr (fun k n => leaves k + n) 0 l /\
  columnMaxLevel s' = Z.max (columnMaxLevel s)
    (level - 1 + foldr (fun k n => Z.max (col_height k) n) (columnMaxLevel s - (level - 1)) l) /\
  (keeps_levels (columnMaxLevel s) s -> 1 <= level -> keeps_levels (columnMaxLevel s') s').
Proof.
  induction l as [|k l IH]; intros level pid prev m s n prev' s'; cbn [each_column].
  - intros [= <- <- <-]. cbn. split_and!; try done; lia.
  - destruct (setColumn level pid k prev s) as [[m1 kid] s1] eqn:E.
    apply setColumn_counted in E as (-> & E1 & E2 & E3). intros H.
    apply IH in H as (-> & H1 & H2 & H3). cbn. split_and!; try lia.
    + rewrite H2, E2.
      assert (forall a b, foldr (fun k n => Z.max (col_height k) n) (Z.max a b) l
        = Z.max a (foldr (fun k n => Z.max (col_height k) n) b l)) as Hf.
      { intros a b. clear. induction l; cbn; lia. }
      replace (columnMaxLevel s `max` (level + col_height k - 1) - (level - 1))
        with (Z.max (col_height k) (columnMaxLevel s - (level - 1))) by lia.
      rewrite Hf. lia.
    + intros Hk Hl. apply H3; [by apply E3|done].
Qed.

(** [_initColumns] counts the leaves of the column tree, the header has as many
    rows as the tree is deep, and every leaf's header cell reaches down to the
    last of them. *)
Theorem _initColumns_header p w columns :
  let s := _initColumns p w columns in
  let all := system_columns p ++ columns in
  columnLeafCount s = foldr (fun k n => leaves k + n) 0 all /\
  columnMaxLevel s = foldr (fun k n => Z.max (col_height k) n) 1 all /\
  forall id c, (id, c) ∈ cols s ->
    1 <= c_level c <= columnMaxLevel s /\
    (c_leaf c = true -> c_level c + default 1 (c_rowSpan c) - 1 = columnMaxLevel s).
Proof.
  cbn zeta. unfold _initColumns.
  destruct (each_column _ _ None 0 (Columns [] 0 0 1)) as [[n pv] s] eqn:E.
  apply each_column_counted in E as (_ & E1 & E2 & E3).
  cbn [columnLeafCount columnMaxLevel] in E1, E2. change (1 - (1 - 1)) with 1 in E2.
  assert (1 <= foldr (fun k n => Z.max (col_height k) n) 1 (system_columns p ++ columns)) as H1.
  { clear. generalize (system_columns p ++ columns). intros l.
    induction l as [|k l IH]; [done|]. cbn [foldr]. lia. }
  cbn [columnLeafCount columnMaxLevel cols]. split; [exact E1|]. split; [lia|].
  specialize (E3 ltac:(constructor) ltac:(lia)).
  intros id c Hc. destruct (set_leaves_incl _ _ _ _ _ _ Hc) as (c0 & Hin & Hl & Hf & Hr).
  cbn in Hl, Hf, Hr. apply list_elem_of_fmap in Hin as ([id1 c1] & [= -> ->] & Hin).
  unfold keeps_levels in E3. rewrite Forall_forall in E3. specialize (E3 _ Hin). cbn in *.
  rewrite Hl, Hr. split; [done|]. rewrite Hf. intros ->. cbn.
  destruct (_ =? _) eqn:Eq; zbool; cbn; lia.
Qed.
