(* ===== verification/GridHead.v ===== *)
(** * ligerGrid: the header, the column list and the sizes of the grid

    The cells of the header ([_createHeaderCell], [_initBuildGridHeader]), the list
    in which columns are shown and hidden ([_initBuildPopup]), and what is computed
    when the grid or the window changes its size ([_setHeight], [_onResize],
    [_updateFrozenWidth]). *)

From S2P Require Import Prelude JsString JsNum GridHeap GridRows GridShow GridSort GridCols.
From Stdlib Require Import QArith Qminmax Lqa.
From Stdlib Require Import ZArith.
Local Open Scope string_scope.
Local Open Scope Z_scope.

(** ** The cells *)

(** What the user says about the cell of a column; [t_headerRender] is what the
    function answers, if there is one. *)
Record head_text := HeadText {
  t_display : option string;
  t_headerRender : option string;
  t_heightAlign : option string;
  t_resizable : bool;            (* not [resizable: false] *)
  t_isAllowHide : bool           (* not [isAllowHide: false] *)
}.

Record hcell := HCell {
  h_id : string;
  h_classes : list string;
  h_textAlign : option string;
  h_colSpan : option Z;
  h_rowSpan : option Z;
  h_height : Z;
  h_width : option Z;
  h_columnindex : option Z;
  h_columnname : option string;
  h_shown : bool;
  h_text : option string;        (* what the text element holds, if there is one *)
  h_resizable : bool
}.

Definition issystem (c : column) : bool :=
  match cs_kind (c_spec c) with CData => false | _ => true end.

Definition headerText (t : head_text) : string :=
  match truthy_str (t_display t) with
  | Some s => s
  | None => default "&nbsp;" (t_headerRender t)
  end.

Section head.
Context (gid : string) (p : column_options) (text : string -> head_text).
(** Whether [ligerResizable] is loaded. *)
Context (hasResizable : bool).

Definition _createHeaderCell (ncolumns : Z) (c : column) : hcell :=
let t := text (c_id c) in
let kind := cs_kind (c_spec c) in
HCell (gid ++ "|hcell|" ++ c_id c)
  (["l-grid-hd-cell"]
   ++ (if c_leaf c then [] else ["l-grid-hd-cell-mul"])
   ++ (if c_leaf c && (c_index c =? ncolumns - 1) then ["l-grid-hd-cell-last"] else [])
   ++ match kind with
      | CRownumber => ["l-grid-hd-cell-rownumbers"] | CCheckbox => ["l-grid-hd-cell-checkbox"]
      | CDetail => ["l-grid-hd-cell-detail"] | CData => [] end)%list
  (truthy_str (t_heightAlign t))
  (c_colSpan c) (c_rowSpan c)
  (p_headerRowHeight p * default 1 (c_rowSpan c))
  (if c_leaf c then Some (c_width c) else None)
  (if c_leaf c then c_leafindex c else None)
  (col_name c)
  (negb (c_hide c))
  (match kind with CRownumber => None | _ => Some (headerText t) end)
  (negb (issystem c) && c_leaf c && t_resizable t && hasResizable).

(** The rows of the two header tables, one for each level: the moving one and the
  frozen one. *)
Definition header_row (s : columns_state) (level : Z) : list hcell * list hcell :=
let n := Z.of_nat (length (getColumns None s)) in
let columns := getColumns (Some level) s in
(map (_createHeaderCell n) (List.filter (fun c => negb (cs_frozen (c_spec c))) columns),
 map (_createHeaderCell n) (List.filter (fun c => cs_frozen (c_spec c)) columns)).

Definition header_levels (s : columns_state) : list Z :=
map (fun k => Z.of_nat k + 1) (seq 0 (Z.to_nat (columnMaxLevel s))).

Record header := Header {
  hd_rows : list (list hcell * list hcell);
  hd_height : option Z;                      (* of both tables *)
  hd_firstFrozen : option Z;                 (* of the first frozen cell *)
  hd_widths : table_widths
}.

Definition _initBuildGridHeader (s : columns_state) : header :=
Header (map (header_row s) (header_levels s)) (header_height p s)
  (if p_rownumbers p && p_frozenRownumbers p then header_height p s else None)
  (header_widths s).

(** ** The list of columns *)

(** A line of the list: the position of its column, and its check box. *)
Record pop := Pop { pop_index : Z; pop_checked : bool }.

Definition pop_shown (c : column) : bool := negb (issystem c) && t_isAllowHide (text (c_id c)).

Fixpoint pop_from (i : Z) (l : list column) : list pop :=
match l with
| [] => []
| c :: l' =>
    let rest := pop_from (i + 1) l' in
    if pop_shown c then Pop i (negb (c_hide c)) :: rest else rest
end.

Definition _initBuildPopup (s : columns_state) : list pop := pop_from 0 (getColumns None s).

Definition checked_count (l : list pop) : Z := Z.of_nat (length (List.filter pop_checked l)).

(** [toggleCol] from elsewhere sets the box; from the list it leaves it. *)
Definition set_box (i : Z) (b : bool) (l : list pop) : list pop :=
map (fun q => if pop_index q =? i then Pop i b else q) l.

(** A page of the list: its boxes, the columns and the widths of the tables. *)
Record pop_state := PopState { ps_boxes : list pop; ps_cols : columns_state * table_widths }.

(** The handler of the boxes, after the box was set. *)
Definition onPopupCheckboxChange (minColToggle i : Z) (b : bool) (st : pop_state) : bool * pop_state :=
if checked_count (ps_boxes st) + 1 <=? minColToggle then (false, st)
else (true, PopState (ps_boxes st) (toggleCol (CPNum i) b (ps_cols st))).

(** A click on a box: with [ligerCheckBox] the click can be refused before the box
  changes; without it the browser puts the box back when the handler says no. *)
Definition box_at (i : Z) (l : list pop) : bool :=
match List.find (fun q => pop_index q =? i) l with Some q => pop_checked q | None => false end.

Definition click_box (styled : bool) (minColToggle i : Z) (st : pop_state) : pop_state :=
let was := box_at i (ps_boxes st) in
let st' := PopState (set_box i (negb was) (ps_boxes st)) (ps_cols st) in
if styled then
  if was && (checked_count (ps_boxes st) <=? minColToggle) then st
  else (onPopupCheckboxChange minColToggle i (negb was) st').2
else
  let t := onPopupCheckboxChange minColToggle i (negb was) st' in
  if t.1 then t.2 else st.

(** [toggleCol] of the page: the boxes of the columns follow. *)
Definition api_toggle (q : colParm) (visible : bool) (st : pop_state) : pop_state :=
PopState
  (fold_left (fun l c => match c_leafindex c with Some i => set_box i visible l | None => l end)
     (columns_of q (ps_cols st).1) (ps_boxes st))
  (toggleCol q visible (ps_cols st)).
End head.

(** ** Sizes *)

(** The option [height], and what [_setHeight] is given. *)
Inductive hval := HAuto | HPercent (n : Q) | HNum (h : Q).

(** Options and measures of the page. *)
Record page_sizes := PageSizes {
  g_title : bool; g_usePager : bool; g_totalRender : bool;
  g_toolbar : option Q;             (* the height of the tool bar, if there is one *)
  g_InWindow : bool;                (* the option of the grid *)
  g_inWindow : bool;                (* the property [_setHeight] reads *)
  g_heightDiff : Q;
  g_windowHeight : Q; g_parentHeight : Q; g_parentIsBody : bool;
  g_paddingTop : Q; g_paddingBottom : Q; g_gridTop : Q;
  g_viewWidth : Q;                  (* of gridview *)
  g_view1Height : Q; g_view2Height : Q
}.

Record sizes := Sizes {
  z_body : option Q;                (* heights that were set; None: auto *)
  z_fbody : option Q;
  z_view : option Q;
  z_view1Width : option Q;
  z_view2Left : option Q;
  z_view2Width : option Q;
  z_follows : bool                  (* SysGridHeightChanged sets the height of gridview *)
}.

Section sizes.
Context (p : column_options) (w : page_sizes) (s : columns_state).

Definition zset_follows b z := Sizes (z_body z) (z_fbody z) (z_view z) (z_view1Width z)
  (z_view2Left z) (z_view2Width z) b.

Definition gridHeaderHeight : Z :=
p_headerRowHeight p * (columnMaxLevel s - 1) + p_headerRowHeight p - 1.

(** What the rows of the grid are left of its height. *)
Definition body_height (h : Q) : Q :=
(h - (if g_title w then 24 else 0) - (if g_usePager w then 32 else 0)
   - (if g_totalRender w then 25 else 0) - default 0 (g_toolbar w)
   - inject_Z gridHeaderHeight)%Q.

Definition _setHeight (v : hval) (z : sizes) : sizes :=
match v with
| HAuto => zset_follows true z
| _ =>
    let h := match v with
             | HPercent n => ((if g_inWindow w then g_windowHeight w else g_parentHeight w) * n / 100)%Q
             | HNum h => h
             | HAuto => 0%Q end in
    let h := body_height h in
    if Qle_bool h 0 then zset_follows false z
    else Sizes (Some h) (if Qle_bool h 18 then z_fbody z else Some (h - 18)%Q)
           (Some (h + inject_Z gridHeaderHeight)%Q) (z_view1Width z) (z_view2Left z)
           (z_view2Width z) false
end.

Definition _updateFrozenWidth (tw : table_widths) (z : sizes) : sizes :=
if enabledFrozen p s then
  let view2width := (g_viewWidth w - inject_Z (w_frozen tw))%Q in
  Sizes (z_body z) (z_fbody z) (z_view z) (Some (inject_Z (w_frozen tw)))
    (Some (inject_Z (w_frozen tw)))
    (if Qle_bool view2width 0 then z_view2Width z else Some view2width) (z_follows z)
else z.

Definition SysGridHeightChanged (z : sizes) : sizes :=
if z_follows z && enabledFrozen p s then
  Sizes (z_body z) (z_fbody z) (Some (Qmax (g_view1Height w) (g_view2Height w))) (z_view1Width z)
    (z_view2Left z) (z_view2Width z) (z_follows z)
else z.

(** The height asked for, in pixels. *)
Definition asked_height (v : hval) : option Q :=
match v with
| HAuto => None
| HNum h => if Qeq_bool h 0 then None else Some (h + g_heightDiff w)%Q
| HPercent n =>
    let parentHeight := if g_InWindow w
                        then (g_windowHeight w - g_paddingTop w - g_paddingBottom w)%Q
                        else g_parentHeight w in
    let h := (parentHeight * n / 100)%Q in
    Some ((if g_InWindow w || g_parentIsBody w then h - (g_gridTop w - g_paddingTop w) else h)
          + g_heightDiff w)%Q
end.

(** [_onResize]; [view1Width] is the width of gridview1. *)
Definition _onResize (height : hval) (view1Width : Q) (z : sizes) : sizes :=
let z := match asked_height height with Some h => _setHeight (HNum h) z | None => z end in
let z := if enabledFrozen p s
         then Sizes (z_body z) (z_fbody z) (z_view z) (z_view1Width z) (z_view2Left z)
                (Some (g_viewWidth w - view1Width)%Q) (z_follows z)
         else z in
SysGridHeightChanged z.

Definition _setWidth (height : hval) (view1Width : Q) (z : sizes) : sizes :=
if enabledFrozen p s then _onResize height view1Width z else z.

Definition _initHeight (height : hval) (view1Width : Q) (z : sizes) : sizes :=
let z := match height with
         | HAuto => Sizes None None (z_view z) (z_view1Width z) (z_view2Left z) (z_view2Width z)
                      (z_follows z)
         | _ => z end in
_onResize height view1Width z.

(** The parts of a grid that has a height fill it: title, pager, totals, tool bar,
  header and rows. *)
Lemma _onResize_fills height v1 z h :
  asked_height height = Some h -> (0 < body_height h)%Q ->
  let z' := _onResize height v1 z in
  z_body z' = Some (body_height h) /\ z_follows z' = false /\
  exists v, z_view z' = Some v /\
  ((if g_title w then 24 else 0) + (if g_usePager w then 32 else 0)
   + (if g_totalRender w then 25 else 0) + default 0 (g_toolbar w) + v == h)%Q.
Proof.
  intros Ha Hh. cbn zeta. unfold _onResize. rewrite Ha. cbn [_setHeight].
  destruct (Qle_bool (body_height h) 0) eqn:E; [apply Qle_bool_iff in E; lra|].
  unfold SysGridHeightChanged.
  destruct (enabledFrozen p s); cbn; (split; [done|]); (split; [done|]);
    eexists; (split; [reflexivity|]); unfold body_height;
    destruct (g_title w), (g_usePager w), (g_totalRender w); lra.
Qed.
End sizes.

(** ** The header is a table *)

(** No column that was a group once stands as a leaf now. *)
Fixpoint never_grouped (t : coltree) : bool :=
  match t with
  | Col c kids =>
      match kids with [] => cs_keptLeafcount c =? 0 | _ => true end && forallb never_grouped kids
  end.

(** The columns of the header's last row that a cell stands over, counted for the
    rows from its own on: a leaf's cell reaches down, a group's does not. *)
Definition weight (L : Z) (c : column) : Z :=
  if c_leaf c then if c_level c <=? L then 1 else 0
  else if c_level c =? L then default 0 (c_leafcount c) else 0.

(** The columns of one kind: those of a table, or all. *)
Section counting.
Context (sel : colspec -> bool).

(** A column's kind is that of all below it. *)
Fixpoint uniform (t : coltree) : bool :=
  match t with
  | Col c kids => forallb (fun k => Bool.eqb (sel (cspec k)) (sel c)) kids && forallb uniform kids
  end.

Definition sel_weight (L : Z) (c : column) : Z := if sel (c_spec c) then weight L c else 0.
Definition total_weight (L : Z) (l : list (string * column)) : Z :=
  foldr (fun q n => sel_weight L q.2 + n) 0 l.
Definition sel_leaves (t : coltree) : Z := if sel (cspec t) then leaves t else 0.
Definition all_leaves (l : list coltree) : Z := foldr (fun t n => sel_leaves t + n) 0 l.

(** How many ids were used again. *)
Definition reused (s : columns_state) : Z := columnCount s - Z.of_nat (length (cols s)).

(** A leaf has no count of leaves, a group counts one at least. *)
Definition counts_leaves (c : column) : Prop :=
  if c_leaf c then c_leafcount c = None else exists n, c_leafcount c = Some n /\ 1 <= n.

Definition laid (level n : Z) (s s' : columns_state) : Prop :=
  (NoDup (okeys (cols s)) -> NoDup (okeys (cols s'))) /\
  reused s <= reused s' /\
  (reused s' = reused s ->
   (forall k c, oget k (cols s) = Some c -> oget k (cols s') = Some c) /\
   (forall k c, oget k (cols s') = Some c -> oget k (cols s) = Some c \/ counts_leaves c) /\
   forall L, total_weight L (cols s') = total_weight L (cols s) + (if level <=? L then n else 0)).

Lemma laid_refl level s : laid level 0 s s.
Proof. split_and!; [done|lia|]. intros _. split_and!; [done|by left|]. intros L. destruct (_ <=? _); lia. Qed.

Lemma laid_trans level n m s1 s2 s3 :
  laid level n s1 s2 -> laid level m s2 s3 -> laid level (n + m) s1 s3.
Proof.
  intros (N1 & H1 & K1) (N2 & H2 & K2). split_and!; [by auto|lia|]. intros H.
  destruct (K1 ltac:(lia)) as (A1 & D1 & B1). destruct (K2 ltac:(lia)) as (A2 & D2 & B2).
  split_and!; [by eauto|intros k c [Hc|Hc]%D2; [by apply D1|by right]|].
  intros L. rewrite B2, B1. destruct (_ <=? _); lia.
Qed.

Lemma length_oset_some {V} k (v w : V) o : oget k o = Some w -> length (oset k v o) = length o.
Proof.
  induction o as [|[k' v'] o IH]; cbn; [done|]. destruct (decide _); [done|].
  intros H. cbn. by rewrite IH.
Qed.

Lemma total_weight_some L k c c' l :
  oget k l = Some c -> total_weight L (oset k c' l) = total_weight L l - sel_weight L c + sel_weight L c'.
Proof.
  unfold total_weight. induction l as [|[k' v'] l IH]; cbn; [done|]. destruct (decide _).
  - intros [= ->]. cbn. lia.
  - intros H. cbn. rewrite IH by done. lia.
Qed.

Lemma total_weight_none L k c l :
  oget k l = None -> total_weight L (oset k c l) = total_weight L l + sel_weight L c.
Proof.
  unfold total_weight. induction l as [|[k' v'] l IH]; cbn; [lia|]. destruct (decide _); [done|].
  intros H. cbn. rewrite IH by done. lia.
Qed.

Lemma each_column_laid f level l :
  Forall (fun t => forall prev s n id s', f t prev s = (n, id, s') ->
            n = leaves t /\ laid level (sel_leaves t) s s') l ->
  forall prev m s n prev' s', each_column f l prev m s = (n, prev', s') ->
  laid level (all_leaves l) s s' /\ n = m + foldr (fun k n => leaves k + n) 0 l.
Proof.
  induction 1 as [|t l Ht _ IH]; intros prev m s n prev' s'; cbn.
  - intros [= -> -> ->]. split; [apply laid_refl|lia].
  - destruct (f t prev s) as [[m1 kid] s1] eqn:E. apply Ht in E as [-> E]. intros H.
    apply IH in H as [H ->]. split; [|lia]. by eapply laid_trans.
Qed.

Lemma all_leaves_group c kids :
  uniform (Col c kids) = true ->
  all_leaves kids = if sel c then foldr (fun k n => leaves k + n) 0 kids else 0.
Proof.
  cbn [uniform]. intros [Hk _]%andb_true_iff. unfold all_leaves, sel_leaves.
  induction kids as [|k kids IH]; [by destruct (sel c)|]. cbn in *.
  apply andb_true_iff in Hk as [Hk Hks]. apply eqb_prop in Hk. rewrite (IH Hks), Hk. by destruct (sel c).
Qed.

Lemma leaves_pos t : 1 <= leaves t.
Proof.
  revert t. fix IH 1. intros [c [|k ks]]; [done|]. cbn.
  assert (0 <= foldr (fun k n => leaves k + n) 0 ks) as H.
  { induction ks as [|a l IHl]; [done|]. cbn. pose proof (IH a). lia. }
  pose proof (IH k). lia.
Qed.

Lemma leaves_group_pos k ks : 1 <= 0 + foldr (fun k n => leaves k + n) 0 (k :: ks).
Proof.
  cbn. assert (0 <= foldr (fun k n => leaves k + n) 0 ks) as H.
  { induction ks as [|a l IHl]; [done|]. cbn. pose proof (leaves_pos a). lia. }
  pose proof (leaves_pos k). lia.
Qed.

Lemma leaves_group c k ks : leaves (Col c (k :: ks)) = foldr (fun k n => leaves k + n) 0 (k :: ks).
Proof. done. Qed.

Lemma setColumn_laid t : never_grouped t = true -> uniform t = true ->
  forall level pid prev s n id s', setColumn level pid t prev s = (n, id, s') ->
  n = leaves t /\ laid level (sel_leaves t) s s'.
Proof.
  revert t. fix IH 1. intros [c kids] Hng Hun level pid prev s n id s'. cbn [setColumn].
  set (maxl := if columnMaxLevel s <? level then level else columnMaxLevel s).
  set (nid := _createColumnId c (columnCount s + 1)).
  destruct kids as [|k0 ks].
  - cbn in Hng. rewrite andb_true_r in Hng. intros [= <- <- <-]. split; [done|]. unfold laid, reused.
    cbn [cols columnCount].
    destruct (oget nid (cols s)) as [old|] eqn:Eo.
    + rewrite (length_oset_some _ _ _ _ Eo). split_and!; [auto with hella|lia|]. intros; lia.
    + split_and!; [auto with hella|rewrite (oset_fresh _ _ _ Eo), length_app; cbn; lia|].
      intros _. split_and!.
      * intros k c' Hk. rewrite oget_oset_ne; [done|]. intros ->. congruence.
      * intros k c'. destruct (decide (k = nid)) as [->|]; [|rewrite oget_oset_ne by done; by left].
        rewrite oget_oset_eq. intros [= <-]. right. unfold counts_leaves. cbn. by rewrite Hng.
      * intros L. rewrite total_weight_none by done. unfold sel_weight, sel_leaves. cbn.
        by destruct (sel c), (level <=? L).
  - unfold sel_leaves at 1. cbn [cspec]. rewrite leaves_group. set (kids := k0 :: ks) in *.
    assert (Forall (fun t => forall prev s n id s', setColumn (level + 1) (Some nid) t prev s
              = (n, id, s') -> n = leaves t /\ laid (level + 1) (sel_leaves t) s s') kids) as Hall.
    { assert (forallb never_grouped kids = true) as Hk by exact Hng.
      assert (forallb uniform kids = true) as Hu by (cbn [uniform] in Hun; by apply andb_true_iff in Hun as []).
      clearbody kids nid. clear -IH Hk Hu. induction kids as [|k l IHl]; [constructor|].
      cbn in Hk, Hu. apply andb_true_iff in Hk as [Hk1 Hk2], Hu as [Hu1 Hu2]. constructor; [|by apply IHl].
      intros. by eapply IH. }
    set (s1 := Columns (oset nid _ (cols s)) _ _ _).
    destruct (each_column _ kids None 0 s1) as [[n1 pv] s2] eqn:E.
    apply (each_column_laid _ _ _ Hall) in E as [(E0 & E1 & E2) ->].
    rewrite (all_leaves_group c kids Hun) in E2.
    intros [= <- <- <-]. split; [done|].
    assert (1 <= 0 + foldr (fun k n => leaves k + n) 0 kids) as Hpos by apply leaves_group_pos.
    set (n := 0 + _) in *.
    assert (NoDup (okeys (cols s)) -> NoDup (okeys (cols s2))) as E0'
      by (intros; by apply E0, NoDup_okeys_oset).
    assert (forall col, oget nid (cols s2) = Some col ->
      reused (Columns (oset nid (cset_leafcount (Some n) col) (cols s2)) (columnCount s2)
                (columnLeafCount s2) (columnMaxLevel s2)) = reused s2) as Hr2.
    { intros col Eg. unfold reused. cbn. by rewrite (length_oset_some _ _ _ _ Eg). }
    destruct (oget nid (cols s)) as [old|] eqn:Eo.
    + assert (reused s + 1 = reused s1) as Hr.
      { unfold reused. cbn. rewrite (length_oset_some _ _ _ _ Eo). lia. }
      destruct (oget nid (cols s2)) as [col|] eqn:Eg;
        (split_and!; rewrite ?(Hr2 _ eq_refl); [cbn [cols]; auto with hella|lia|intros; lia]).
    + assert (reused s = reused s1) as Hr.
      { unfold reused. cbn. rewrite (oset_fresh _ _ _ Eo), length_app. cbn. lia. }
      set (nc := new_column c nid level pid prev false (columnLeafCount s)) in *.
      assert (oget nid (cols s1) = Some nc) as Hn1 by (cbn; by rewrite oget_oset_eq).
      destruct (oget nid (cols s2)) as [col|] eqn:Eg.
      * split_and!; rewrite ?(Hr2 _ eq_refl); [cbn [cols]; auto with hella|lia|]. intros H.
        destruct (E2 ltac:(lia)) as (A & D & B).
        specialize (A _ _ Hn1) as Hc. rewrite Eg in Hc. injection Hc as ->. cbn [cols]. split_and!.
        -- intros k c' Hk. assert (k <> nid) by (intros ->; congruence).
           rewrite oget_oset_ne by done. apply A. cbn. by rewrite oget_oset_ne.
        -- intros k c'. destruct (decide (k = nid)) as [->|].
           ++ rewrite oget_oset_eq. intros [= <-]. right. by exists n.
           ++ rewrite oget_oset_ne by done. intros Hk%D. cbn in Hk.
              by rewrite oget_oset_ne in Hk.
        -- intros L. rewrite (total_weight_some _ _ _ _ _ Eg), B. cbn [cols s1].
           rewrite total_weight_none by done. unfold sel_weight, weight. cbn.
           unfold n. destruct (sel c), (level =? L) eqn:E3, (level <=? L) eqn:E4, (level + 1 <=? L) eqn:E5;
             zbool; unfold kids; cbn [foldr]; lia.
      * split_and!; [done|lia|]. intros H. destruct (E2 ltac:(lia)) as (A & _ & _).
        specialize (A _ _ Hn1). congruence.
Qed.

End counting.

Lemma uniform_all t : uniform (fun _ => true) t = true.
Proof.
  revert t. fix IH 1. intros [c kids]. cbn [uniform]. apply andb_true_iff. split.
  - clear IH. by induction kids.
  - induction kids as [|k kids IHk]; [done|]. cbn. apply andb_true_iff. split; [by apply IH|done].
Qed.
Lemma setColumn_all t : never_grouped t = true ->
  forall level pid prev s n id s', setColumn level pid t prev s = (n, id, s') ->
  n = leaves t /\ laid (fun _ => true) level (sel_leaves (fun _ => true) t) s s'.
Proof. intros Hng. apply setColumn_laid; [done|apply uniform_all]. Qed.

Lemma NoDup_oget {V} k (v : V) o : NoDup (okeys o) -> (k, v) ∈ o -> oget k o = Some v.
Proof.
  induction o as [|[k' v'] o IH]; [by intros _ []%not_elem_of_nil|].
  unfold okeys in *. cbn. intros [Hk Hnd]%NoDup_cons [[= <- <-]|Hin]%elem_of_cons.
  - by destruct (decide _).
  - destruct (decide (k = k')) as [->|]; [|by auto]. destruct Hk.
    apply list_elem_of_fmap. by exists (k', v).
Qed.

(** *** Cells over rows *)

(** The columns of the last row that a cell, drawn in row [k], takes of row [L]. *)
Definition span_over (L k : Z) (c : hcell) : Z :=
  if (k <=? L) && (L <=? k + default 1 (h_rowSpan c) - 1) then default 1 (h_colSpan c) else 0.

Definition sumZ {A} (f : A -> Z) (l : list A) : Z := foldr (fun x n => f x + n) 0 l.

Fixpoint over_rows (L k : Z) (rows : list (list hcell * list hcell)) : Z :=
  match rows with
  | [] => 0
  | (m, f) :: rows' => sumZ (span_over L k) m + sumZ (span_over L k) f + over_rows L (k + 1) rows'
  end.

(** The same of one of the two tables. *)
Fixpoint over_table (frozen : bool) (L k : Z) (rows : list (list hcell * list hcell)) : Z :=
  match rows with
  | [] => 0
  | (m, f) :: rows' =>
      sumZ (span_over L k) (if frozen then f else m) + over_table frozen L (k + 1) rows'
  end.
Lemma over_both L k rows : over_rows L k rows = over_table false L k rows + over_table true L k rows.
Proof. revert k. induction rows as [|[m f] rows IH]; intros k; cbn [over_rows over_table]; [done|]. rewrite IH. lia. Qed.

Lemma sumZ_ext {A} (f g : A -> Z) l : (forall x, x ∈ l -> f x = g x) -> sumZ f l = sumZ g l.
Proof.
  unfold sumZ. induction l as [|x l IH]; intros H; [done|]. cbn [foldr].
  rewrite (H x) by left. rewrite IH; [done|]. intros y Hy. apply H. by right.
Qed.

Lemma sumZ_map {A B} (f : B -> Z) (h : A -> B) l : sumZ f (map h l) = sumZ (fun x => f (h x)) l.
Proof. unfold sumZ. induction l as [|x l IH]; cbn; [done|]. by rewrite IH. Qed.

Lemma sumZ_split {A} (f : A -> Z) (b : A -> bool) l :
  sumZ f (List.filter (fun x => negb (b x)) l) + sumZ f (List.filter b l) = sumZ f l.
Proof. unfold sumZ. induction l as [|x l IH]; cbn; [done|]. destruct (b x); cbn in *; lia. Qed.

Lemma sumZ_filter {A} (f : A -> Z) (b : A -> bool) l :
  sumZ f (List.filter b l) = sumZ (fun x => if b x then f x else 0) l.
Proof. unfold sumZ. induction l as [|x l IH]; cbn; [done|]. destruct (b x); cbn in *; lia. Qed.

Section table.
Context (gid : string) (p : column_options) (text : string -> head_text) (hasResizable : bool).

(** What a column's own cell takes of row [L]. *)
Definition own_span (L : Z) (c : column) : Z :=
  if (c_level c <=? L) && (L <=? c_level c + default 1 (c_rowSpan c) - 1)
  then default 1 (c_colSpan c) else 0.

Lemma header_row_sum s frozen L k :
  over_table frozen L k [header_row gid p text hasResizable s k]
  = sumZ (fun c => if Bool.eqb (cs_frozen (c_spec c)) frozen
                   then if c_level c =? k then own_span L c else 0 else 0) (map snd (cols s)).
Proof.
  unfold header_row. cbn [over_table]. rewrite Z.add_0_r.
  assert (forall n l, sumZ (span_over L k) (map (_createHeaderCell gid p text hasResizable n)
            (List.filter (fun c => Bool.eqb (cs_frozen (c_spec c)) frozen)
               (List.filter (fun c => c_level c =? k) l))) =
          sumZ (fun c => if Bool.eqb (cs_frozen (c_spec c)) frozen
                         then if c_level c =? k then own_span L c else 0 else 0) l) as H.
  { intros n l. rewrite sumZ_map, !sumZ_filter. apply sumZ_ext. intros c _. unfold own_span, span_over.
    destruct (c_level c =? k) eqn:E; zbool; [|by destruct (Bool.eqb _ _)]. by subst k. }
  rewrite <-(H (Z.of_nat (length (getColumns None s)))). unfold getColumns.
  destruct frozen; do 2 f_equal; apply filter_ext; intros c; by destruct (cs_frozen (c_spec c)).
Qed.

Lemma over_table_sum s frozen L n a :
  over_table frozen L (Z.of_nat a + 1) (map (header_row gid p text hasResizable s)
    (map (fun k => Z.of_nat k + 1) (seq a n)))
  = sumZ (fun c => if Bool.eqb (cs_frozen (c_spec c)) frozen
                   then if (Z.of_nat a + 1 <=? c_level c) && (c_level c <=? Z.of_nat a + Z.of_nat n)
                        then own_span L c else 0 else 0) (map snd (cols s)).
Proof.
  revert a. induction n as [|n IH]; intros a; cbn [seq map over_table].
  - cbn. unfold sumZ. induction (map snd (cols s)) as [|c l IHl]; [done|]. cbn. rewrite <-IHl.
    destruct (Bool.eqb _ _); [|done].
    destruct (_ && _) eqn:E; [|done]. apply andb_true_iff in E as []. zbool. lia.
  - pose proof (header_row_sum s frozen L (Z.of_nat a + 1)) as Hr. cbn [over_table] in Hr.
    destruct (header_row _ _ _ _ s (Z.of_nat a + 1)) as [m f].
    replace (Z.of_nat a + 1 + 1) with (Z.of_nat (S a) + 1) by lia. rewrite IH.
    rewrite Z.add_0_r in Hr. rewrite Hr. clear. unfold sumZ.
    induction (map snd (cols s)) as [|c l IHl]; [done|]. cbn [foldr]. destruct (Bool.eqb _ _); [|lia].
    destruct (c_level c =? _) eqn:E1, (Z.of_nat (S a) + 1 <=? c_level c) eqn:E2,
      (c_level c <=? Z.of_nat (S a) + Z.of_nat n) eqn:E3, (Z.of_nat a + 1 <=? c_level c) eqn:E4,
      (c_level c <=? Z.of_nat a + Z.of_nat (S n)) eqn:E5; zbool; cbn [andb]; lia.
Qed.

Lemma set_leaves_sum (f : column -> Z) w n i l :
  (forall c i last ty so wd h, f (cset_leaf i last ty so wd h c) = f c) ->
  sumZ f (map snd (set_leaves p w n i l)) = sumZ f (map snd l).
Proof.
  intros Hf. unfold sumZ. revert i. induction l as [|[id c] l IH]; intros i; [done|].
  cbn [set_leaves]. destruct (c_leaf c); cbn; by rewrite IH, ?Hf.
Qed.

(** With its spans set the cell of a column takes what the column weighs. *)
Lemma own_span_weight L maxl c :
  counts_leaves c -> 1 <= c_level c <= maxl -> 1 <= L <= maxl ->
  own_span L (set_spans maxl c) = weight L c.
Proof.
  unfold counts_leaves, own_span, weight, set_spans. cbn.
  destruct (c_leaf c); cbn.
  - intros ->. intros. destruct (c_level c =? maxl) eqn:E, (c_level c <=? L) eqn:E2; zbool; cbn;
      try destruct (L <=? _) eqn:E3; zbool; cbn; lia.
  - intros (n & -> & Hn) ? ?. cbn. destruct (c_level c <=? L) eqn:E1, (L <=? c_level c + 1 - 1) eqn:E2,
      (c_level c =? L) eqn:E3, (1 <? n) eqn:E4; zbool; cbn; lia.
Qed.

Lemma sumZ_count (b : column -> bool) l :
  sumZ (fun c => if b c then 1 else 0) l = Z.of_nat (length (List.filter b l)).
Proof. unfold sumZ. induction l as [|c l IH]; [done|]. cbn. destruct (b c); cbn; lia. Qed.

(** The cells of the columns of a kind, when no group has columns of another: in every
    row they take as much as there are leaves of the kind. *)
Lemma kind_spans (sel : colspec -> bool) w columns :
  let s := _initColumns p w columns in
  forallb never_grouped columns = true -> forallb (uniform sel) columns = true ->
  Z.of_nat (length (cols s)) = columnCount s ->
  forall L, 1 <= L <= columnMaxLevel s ->
  sumZ (fun c => if sel (c_spec c)
                 then if (1 <=? c_level c) && (c_level c <=? columnMaxLevel s) then own_span L c else 0
                 else 0) (map snd (cols s))
  = Z.of_nat (length (List.filter (fun c => sel (c_spec c)) (getColumns None s))).
Proof.
  cbn zeta. intros Hng Hun. unfold _initColumns.
  assert (forallb never_grouped (system_columns p ++ columns) = true /\
          forallb (uniform sel) (system_columns p ++ columns) = true) as [Hall Hallu].
  { rewrite !forallb_app, Hng, Hun. unfold system_columns.
    by destruct (p_rownumbers p), (p_detail p), (p_checkbox p). }
  destruct (each_column _ _ None 0 (Columns [] 0 0 1)) as [[n pv] s] eqn:E.
  pose proof E as (_ & Hc & _ & Hlv)%each_column_counted.
  apply (each_column_laid sel _ 1) in E as [(Hnd & _ & HW) ->].
  2:{ rewrite forallb_forall in Hall, Hallu. apply Forall_forall. intros t Ht%list_elem_of_In.
      intros. eapply setColumn_laid; [by apply Hall|by apply Hallu|done]. }
  set (all := (system_columns p ++ columns)%list) in *. cbn in Hc.
  specialize (Hlv ltac:(constructor) ltac:(lia)). specialize (Hnd ltac:(constructor)).
  cbn [cols columnCount columnMaxLevel columnLeafCount]. intros Hlen L HL.
  assert (reused s = reused (Columns [] 0 0 1)) as Hr.
  { unfold reused. cbn. rewrite <-Hlen.
    enough (length (set_leaves p w (Z.of_nat (length (List.filter (fun q => c_leaf q.2)
      (map (fun q => (q.1, set_spans (columnMaxLevel s) q.2)) (cols s))))) 0
      (map (fun q => (q.1, set_spans (columnMaxLevel s) q.2)) (cols s))) = length (cols s)) by lia.
    generalize (Z.of_nat (length (List.filter (fun q => c_leaf q.2)
      (map (fun q => (q.1, set_spans (columnMaxLevel s) q.2)) (cols s))))) as m.
    generalize 0 as i. clear. induction (cols s) as [|[id c] l IH]; intros i m; [done|].
    cbn. destruct (c_leaf c); cbn; by rewrite IH. }
  destruct (HW Hr) as (_ & Hok & HL').
  rewrite set_leaves_sum by (intros; by unfold own_span). unfold getColumns. cbn [cols].
  rewrite <-sumZ_count, sumZ_filter, set_leaves_sum by done.
  rewrite map_map. cbn [snd]. rewrite !sumZ_map.
  unfold keeps_levels in Hlv. rewrite Forall_forall in Hlv.
  transitivity (total_weight sel L (cols s)).
  - apply sumZ_ext. intros [id c] Hin. cbn [snd]. specialize (Hlv _ Hin). cbn in Hlv.
    unfold sel_weight. cbn [c_spec set_spans cset_spans c_level]. destruct (sel (c_spec c)); [|done].
    rewrite (own_span_weight L (columnMaxLevel s) c); [|  |done|done].
    + destruct (_ && _) eqn:Eb; [done|]. apply andb_false_iff in Eb as []; zbool; lia.
    + destruct (Hok id c) as [Hb|]; [|by cbn in Hb|done]. by apply NoDup_oget.
  - (* in the row below the last one only the leaves count *)
    transitivity (total_weight sel (columnMaxLevel s + 1) (cols s)).
    + rewrite !HL'. cbn. destruct (1 <=? L) eqn:E, (1 <=? columnMaxLevel s + 1) eqn:E2; zbool; lia.
    + apply sumZ_ext. intros [id c] Hin. cbn [snd]. specialize (Hlv _ Hin). cbn in Hlv.
      unfold sel_weight, weight. cbn [c_spec set_spans cset_spans c_leaf].
      destruct (sel (c_spec c)), (c_leaf c); try done.
      * by replace (c_level c <=? columnMaxLevel s + 1) with true by (symmetry; apply Z.leb_le; lia).
      * by replace (c_level c =? columnMaxLevel s + 1) with false by (symmetry; apply Z.eqb_neq; lia).
Qed.

Lemma uniform_frozen frozen t : uniform cs_frozen t = true -> uniform (fun c => Bool.eqb (cs_frozen c) frozen) t = true.
Proof.
  revert t. fix IH 1. intros [c kids]. cbn [uniform]. intros [H1 H2]%andb_true_iff. apply andb_true_iff. split.
  - clear IH. rewrite forallb_forall in *. intros k Hk. specialize (H1 k Hk). apply eqb_prop in H1.
    rewrite H1. apply eqb_reflx.
  - clear H1. induction kids as [|k kids IHk]; [done|]. cbn in *. apply andb_true_iff in H2 as [H2 H3].
    apply andb_true_iff. split; [by apply IH|by apply IHk].
Qed.
(** C38: The header is a table without gaps: when the ids of the columns differ and no group
    lost its columns, every row of the two header tables together has, with the cells that
    reach into it from above, as many columns as there are leaves; and when no group has
    columns in the other table (frozen in one that is not, or the other way round), every
    row of each table has as many as the table has leaves. *)
Theorem header_is_table w columns :
  let s := _initColumns p w columns in
  let rows := hd_rows (_initBuildGridHeader gid p text hasResizable s) in
  forallb never_grouped columns = true ->
  Z.of_nat (length (cols s)) = columnCount s ->
  forall L, 1 <= L <= columnMaxLevel s ->
  over_rows L 1 rows = Z.of_nat (length (getColumns None s)) /\
  (forallb (uniform cs_frozen) columns = true -> forall frozen,
   over_table frozen L 1 rows
   = Z.of_nat (length (List.filter (fun c => Bool.eqb (cs_frozen (c_spec c)) frozen) (getColumns None s)))).
Proof.
  intros s rows Hng Hlen L HL.
  assert (forall frozen, over_table frozen L 1 rows =
    sumZ (fun c => if Bool.eqb (cs_frozen (c_spec c)) frozen
                   then if (1 <=? c_level c) && (c_level c <=? columnMaxLevel s) then own_span L c else 0
                   else 0) (map snd (cols s))) as Hrows.
  { intros frozen. unfold rows, _initBuildGridHeader, header_levels. cbn [hd_rows].
    change 1 with (Z.of_nat 0 + 1) at 1. rewrite over_table_sum. cbn [Z.of_nat Z.add].
    by rewrite Z2Nat.id by lia. }
  split.
  - rewrite over_both, !Hrows.
    assert (forallb (uniform (fun _ => true)) columns = true) as Hu
      by (apply forallb_forall; intros; apply uniform_all).
    pose proof (kind_spans (fun _ => true) w columns Hng Hu Hlen L HL) as H. fold s in H. cbn [cols] in H.
    replace (List.filter (fun _ => true) (getColumns None s)) with (getColumns None s) in H
      by (clear; induction (getColumns None s) as [|x l IH]; [done|]; cbn; f_equal; exact IH).
    rewrite <-H. unfold sumZ. clear. induction (map snd (cols s)) as [|c l IH]; [done|]. cbn [foldr].
    destruct (cs_frozen (c_spec c)); cbn [Bool.eqb]; lia.
  - intros Hu frozen. rewrite Hrows. apply (kind_spans (fun c => Bool.eqb (cs_frozen c) frozen)); try done.
    rewrite forallb_forall in *. intros t Ht. by apply uniform_frozen, Hu.
Qed.
End table.

(** ** The columns keep their ids and their groups *)

Definition parent_in (pid : option string) (s : columns_state) : Prop :=
  match pid with
  | None => True
  | Some k => exists pc, oget k (cols s) = Some pc /\ c_leaf pc = false
  end.

Record cols_ok (s : columns_state) : Prop := ColsOk {
  ok_nodup : NoDup (okeys (cols s));
  ok_keys : forall k c, oget k (cols s) = Some c -> c_id c = k;
  ok_pids : forall k c, oget k (cols s) = Some c -> parent_in (c_pid c) s
}.

(** Putting an entry in keeps this when the entry knows its id and its group, and a
    group stays a group. *)
Lemma cols_ok_oset k c (s : columns_state) n m l :
  cols_ok s -> c_id c = k -> parent_in (c_pid c) s ->
  (forall old, oget k (cols s) = Some old -> c_leaf old = false -> c_leaf c = false) ->
  let s' := Columns (oset k c (cols s)) n m l in
  cols_ok s' /\ forall pid, parent_in pid s -> parent_in pid s'.
Proof.
  intros [H1 H2 H3] Hid Hp Hl. cbn zeta.
  assert (forall pid, parent_in pid s -> parent_in pid (Columns (oset k c (cols s)) n m l)) as Hpar.
  { intros [pid|]; [|done]. intros (pc & Hpc & Hleaf). cbn.
    destruct (decide (pid = k)) as [->|].
    - exists c. rewrite oget_oset_eq. by eauto.
    - exists pc. by rewrite oget_oset_ne. }
  split; [|done]. split; cbn [cols]; [by apply NoDup_okeys_oset|..];
    intros k' c'; (destruct (decide (k' = k)) as [->|];
      [rewrite oget_oset_eq; intros [= <-]|rewrite oget_oset_ne by done; intros Hc']); auto.
  all: apply Hpar; eauto.
Qed.

Lemma each_column_keeps f l (I : columns_state -> Prop) :
  Forall (fun t => forall prev s n id s', f t prev s = (n, id, s') ->
            reused s <= reused s' /\ (reused s' = reused s -> I s -> I s')) l ->
  forall prev m s n prev' s', each_column f l prev m s = (n, prev', s') ->
  reused s <= reused s' /\ (reused s' = reused s -> I s -> I s').
Proof.
  induction 1 as [|t l Ht _ IH]; intros prev m s n prev' s'; cbn [each_column].
  - intros [= _ _ ->]. split; [lia|done].
  - destruct (f t prev s) as [[m1 kid] s1] eqn:E. apply Ht in E as [E1 E2]. intros H.
    apply IH in H as [H1 H2]. split; [lia|]. intros Hr Hi. apply H2; [lia|]. apply E2; [lia|done].
Qed.

(** A column that uses no id again has an id of its own. *)
Lemma setColumn_fresh t : never_grouped t = true ->
  forall level pid prev s n id s', setColumn level pid t prev s = (n, id, s') ->
  reused s' = reused s -> oget (_createColumnId (cspec t) (columnCount s + 1)) (cols s) = None.
Proof.
  destruct t as [c kids]. intros Hng level pid prev s n id s'. cbn [setColumn cspec].
  set (maxl := if columnMaxLevel s <? level then level else columnMaxLevel s).
  set (nid := _createColumnId c (columnCount s + 1)). intros H Heq.
  destruct (oget nid (cols s)) as [old|] eqn:Eo; [|done]. exfalso.
  assert (forall a d e, reused (Columns (oset nid a (cols s)) (columnCount s + 1) d e)
                        = reused s + 1) as Hr1.
  { intros. unfold reused. cbn. rewrite (length_oset_some _ _ _ _ Eo). lia. }
  destruct kids as [|k0 ks].
  - injection H as <- <- <-.
    specialize (Hr1 (new_column c nid level pid prev true (columnLeafCount s))
                  (columnLeafCount s + 1) maxl). lia.
  - set (s1 := Columns (oset nid _ (cols s)) _ _ _) in H.
    destruct (each_column _ (k0 :: ks) None 0 s1) as [[n1 pv] s2] eqn:E.
    assert (reused s1 <= reused s2) as H12.
    { eapply (each_column_keeps _ _ (fun _ => True)); [|exact E].
      assert (forallb never_grouped (k0 :: ks) = true) as Hk by exact Hng.
      rewrite forallb_forall in Hk. apply Forall_forall. intros t Ht%list_elem_of_In.
      intros. split; [|done]. eapply setColumn_all; [by apply Hk|done]. }
    specialize (Hr1 (new_column c nid level pid prev false (columnLeafCount s))
                  (columnLeafCount s) maxl). fold s1 in Hr1.
    injection H as <- <- <-. destruct (oget nid (cols s2)) as [col|] eqn:Eg; [|lia].
    unfold reused at 1 in Heq. cbn in Heq. rewrite (length_oset_some _ _ _ _ Eg) in Heq.
    unfold reused in *. lia.
Qed.

Definition keeps_ok (pid : option string) (s s' : columns_state) : Prop :=
  reused s <= reused s' /\
  (reused s' = reused s -> cols_ok s /\ parent_in pid s -> cols_ok s' /\ parent_in pid s').

(** Columns below a column keep what is around them. *)
Lemma below_keeps level nid pid l :
  forallb never_grouped l = true ->
  Forall (fun t => forall level pid prev s n id s', setColumn level pid t prev s = (n, id, s') ->
            keeps_ok pid s s') l ->
  forall prev m s n prev' s', each_column (setColumn level (Some nid)) l prev m s = (n, prev', s') ->
  reused s <= reused s' /\
  (reused s' = reused s -> cols_ok s /\ parent_in (Some nid) s /\ parent_in pid s ->
   cols_ok s' /\ parent_in (Some nid) s' /\ parent_in pid s').
Proof.
  intros Hng Hall. apply (each_column_keeps _ _ (fun s => cols_ok s /\ parent_in (Some nid) s /\
    parent_in pid s)).
  rewrite forallb_forall in Hng. rewrite Forall_forall in Hall. apply Forall_forall.
  intros t Ht prev s n id s' H. destruct (Hall _ Ht _ _ _ _ _ _ _ H) as [Hr Hi]. split; [done|].
  intros Heq (Ho & Hn & Hp). destruct (Hi Heq (conj Ho Hn)). split_and!; [done..|].
  destruct (setColumn_all t (Hng _ ltac:(by apply list_elem_of_In)) _ _ _ _ _ _ _ H)
    as (_ & _ & _ & HA).
  destruct (HA Heq) as (HA' & _). destruct pid as [k|]; [|done].
  destruct Hp as (pc & Hpc & Hl). exists pc. by auto.
Qed.

Lemma setColumn_keeps t : never_grouped t = true ->
  forall level pid prev s n id s', setColumn level pid t prev s = (n, id, s') -> keeps_ok pid s s'.
Proof.
  revert t. fix IH 1. intros [c kids] Hng level pid prev s n id s' H.
  pose proof (setColumn_all _ Hng _ _ _ _ _ _ _ H) as (_ & _ & Hr & _). split; [done|].
  intros Heq [Hok Hpid]. pose proof (setColumn_fresh _ Hng _ _ _ _ _ _ _ H Heq) as Hfresh.
  revert H Hfresh. cbn [setColumn cspec].
  set (maxl := if columnMaxLevel s <? level then level else columnMaxLevel s).
  set (nid := _createColumnId c (columnCount s + 1)). intros H Hfresh.
  assert (forall leaf m, let s1 := Columns (oset nid (new_column c nid level pid prev leaf
      (columnLeafCount s)) (cols s)) (columnCount s + 1) m maxl in
      cols_ok s1 /\ forall pid, parent_in pid s -> parent_in pid s1) as Hput.
  { intros leaf m. apply cols_ok_oset; [done..|]. by rewrite Hfresh. }
  destruct kids as [|k0 ks].
  { injection H as <- <- <-. destruct (Hput true (columnLeafCount s + 1)) as [? Hp]. by auto. }
  destruct (Hput false (columnLeafCount s)) as [Hok1 Hp].
  set (s1 := Columns (oset nid _ (cols s)) _ _ _) in *.
  assert (parent_in (Some nid) s1) as Hpn.
  { eexists. cbn. by rewrite oget_oset_eq. }
  assert (reused s1 = reused s) as Hr1.
  { unfold reused. cbn. rewrite (oset_fresh _ _ _ Hfresh), length_app. cbn. lia. }
  destruct (each_column _ (k0 :: ks) None 0 s1) as [[n1 pv] s2] eqn:E.
  apply (below_keeps _ nid pid) in E as [E1 E2]; [|exact Hng|].
  2:{ assert (forallb never_grouped (k0 :: ks) = true) as Hk by exact Hng.
      revert Hk. generalize (k0 :: ks) as l. clear -IH. intros l.
      induction l as [|t l IHl]; [constructor|]. cbn.
      intros [Hk1 Hk2]%andb_true_iff. constructor; [|by apply IHl]. by apply IH. }
  injection H as <- <- <-. destruct (oget nid (cols s2)) as [col|] eqn:Eg.
  - assert (reused s2 = reused s1) as Hr2.
    { unfold reused at 1 in Heq. cbn in Heq. rewrite (length_oset_some _ _ _ _ Eg) in Heq.
      unfold reused in *. lia. }
    destruct (E2 Hr2 (conj Hok1 (conj Hpn (Hp _ Hpid)))) as (Ho2 & Hn2 & Hp2).
    destruct (cols_ok_oset nid (cset_leafcount (Some n1) col) s2 (columnCount s2)
      (columnLeafCount s2) (columnMaxLevel s2)) as [? Hpar]; [done|..].
    + exact (ok_keys _ Ho2 nid col Eg).
    + exact (ok_pids _ Ho2 nid col Eg).
    + intros old. rewrite Eg. by intros [= <-].
    + split; [done|]. by apply Hpar.
  - destruct (E2 ltac:(lia) (conj Hok1 (conj Hpn (Hp _ Hpid)))) as (? & _ & ?). done.
Qed.

(** What numbering the leaves and setting spans leaves alone. *)
Definition same_place (c c' : column) : Prop :=
  c_id c' = c_id c /\ c_pid c' = c_pid c /\ c_leaf c' = c_leaf c.

Definition same_entry (q q' : string * column) : Prop := q'.1 = q.1 /\ same_place q.2 q'.2.

Lemma same_entries_oget k l l' : Forall2 same_entry l l' ->
  match oget k l, oget k l' with
  | Some c, Some c' => same_place c c'
  | None, None => True
  | _, _ => False
  end.
Proof.
  induction 1 as [|[k1 c1] [k2 c2] l l' [Hk Hc] _ IH]; cbn; [done|]. cbn in Hk. subst k2.
  by destruct (decide _).
Qed.

Lemma cols_ok_same s s' : Forall2 same_entry (cols s) (cols s') -> cols_ok s -> cols_ok s'.
Proof.
  intros H [H1 H2 H3].
  assert (okeys (cols s') = okeys (cols s)) as Hk.
  { unfold okeys. clear -H. induction H as [|q q' l l' [Hq _] _ IH]; cbn; [done|].
    by rewrite Hq, IH. }
  assert (forall pid, parent_in pid s -> parent_in pid s') as Hpar.
  { intros [pid|]; [|done]. intros (pc & Hpc & Hl). pose proof (same_entries_oget pid _ _ H) as Hs.
    rewrite Hpc in Hs. destruct (oget pid (cols s')) as [c'|] eqn:E; [|done].
    exists c'. split; [done|]. destruct Hs as (_ & _ & ->). done. }
  split; [by rewrite Hk|..]; intros k c' Hc'; pose proof (same_entries_oget k _ _ H) as Hs;
    rewrite Hc' in Hs; destruct (oget k (cols s)) as [c|] eqn:E; try done; destruct Hs as (E1 & E2 & _).
  - rewrite E1. eauto.
  - rewrite E2. eauto.
Qed.

Lemma set_leaves_same p w n i l : Forall2 same_entry l (set_leaves p w n i l).
Proof.
  revert i. induction l as [|[id c] l IH]; intros i; cbn; [constructor|].
  destruct (c_leaf c) eqn:E; constructor; try done; repeat split; cbn; by rewrite ?E.
Qed.

(** [_initColumns] gives every column its id and its group. *)
Lemma _initColumns_ok p w columns :
  let s := _initColumns p w columns in
  forallb never_grouped columns = true -> Z.of_nat (length (cols s)) = columnCount s -> cols_ok s.
Proof.
  cbn zeta. intros Hng. unfold _initColumns.
  assert (forallb never_grouped (system_columns p ++ columns) = true) as Hall.
  { rewrite forallb_app, Hng. unfold system_columns.
    by destruct (p_rownumbers p), (p_detail p), (p_checkbox p). }
  destruct (each_column _ _ None 0 (Columns [] 0 0 1)) as [[n pv] s] eqn:E.
  apply (each_column_keeps _ _ (fun s => cols_ok s /\ parent_in None s)) in E as [_ HI].
  2:{ rewrite forallb_forall in Hall. apply Forall_forall. intros t Ht%list_elem_of_In.
      intros. eapply setColumn_keeps; [by apply Hall|done]. }
  cbn [cols columnCount].
  set (l := map (fun q => (q.1, set_spans (columnMaxLevel s) q.2)) (cols s)).
  assert (Forall2 same_entry (cols s) l) as Hl.
  { unfold l. clear. induction (cols s); constructor; done. }
  pose proof (set_leaves_same p w (Z.of_nat (length (List.filter (fun q => c_leaf q.2) l))) 0 l) as Hs.
  intros Hlen. apply (cols_ok_same (Columns l 0 0 0)); [exact Hs|].
  apply (cols_ok_same s (Columns l 0 0 0) Hl). apply HI; [|split; [|done]].
  - unfold reused. cbn. rewrite <-Hlen, <-(Forall2_length _ _ _ Hs), <-(Forall2_length _ _ _ Hl). lia.
  - split; [constructor|done..].
Qed.

(** ** Showing and hiding in the list *)

Lemma map_oset id c c' l :
  NoDup (okeys l) -> (forall k c, oget k l = Some c -> c_id c = k) -> oget id l = Some c ->
  map snd (oset id c' l) = map (fun x => if decide (c_id x = id) then c' else x) (map snd l).
Proof.
  intros Hnd Hk. revert Hnd Hk. induction l as [|[k v] l IH]; [done|]. cbn [oget oset map snd].
  intros [Hn Hnd]%NoDup_cons Hk.
  assert (forall k' c, oget k' l = Some c -> c_id c = k') as Hk'.
  { intros k' d Hd. apply Hk. cbn. destruct (decide (k' = k)) as [->|]; [|done].
    exfalso. apply Hn. apply oget_Some_in in Hd. apply list_elem_of_fmap. by exists (k, d). }
  assert (c_id v = k) as Hv by (apply Hk; cbn; by destruct (decide (k = k))).
  destruct (decide (id = k)) as [->|Hne].
  - intros [= ->]. cbn [map snd]. rewrite Hv. destruct (decide _); [|done]. f_equal.
    rewrite <-(map_id (map snd l)) at 1. apply map_ext_in. intros x Hx%list_elem_of_In.
    destruct (decide (c_id x = k)) as [Hxk|]; [|done]. exfalso. apply Hn.
    apply list_elem_of_fmap in Hx as ([k2 x2] & -> & Hin). cbn in Hxk.
    apply NoDup_oget in Hin as Hg; [|done]. apply Hk' in Hg. apply list_elem_of_fmap.
    exists (k2, x2). cbn. split; [congruence|done].
  - intros Hc. cbn [map snd]. rewrite IH by done. destruct (decide (c_id v = id)); [congruence|done].
Qed.

Lemma set_col_leaves id c h s :
  cols_ok s -> oget id (cols s) = Some c ->
  getColumns None (set_col id (cset_hide h) s)
  = map (fun x => if decide (c_id x = id) then cset_hide h x else x) (getColumns None s).
Proof.
  intros Hok Hc. unfold getColumns, set_col. rewrite Hc. cbn [cols].
  rewrite (map_oset _ c) by (try done; apply Hok).
  assert (forall k c, (k, c) ∈ cols s -> oget k (cols s) = Some c) as Hin
    by (intros; by apply NoDup_oget; [apply Hok|]).
  assert (forall x, x ∈ map snd (cols s) -> c_id x = id -> x = c) as Hx.
  { intros x ([k x'] & -> & Hx)%list_elem_of_fmap Hid. cbn in *. apply Hin in Hx as Hg.
    pose proof (ok_keys _ Hok _ _ Hg) as Hk. rewrite Hid in Hk. subst k. congruence. }
  revert Hx. generalize (map snd (cols s)) as l. intros l Hx.
  induction l as [|x l IH]; [done|]. cbn [map List.filter].
  assert (forall y, y ∈ l -> c_id y = id -> y = c) as Hy by (intros; apply Hx; [by right|done]).
  destruct (decide (c_id x = id)) as [Hid|].
  - pose proof (Hx x ltac:(left) Hid). subst x. cbn [c_leaf cset_hide].
    destruct (c_leaf c) eqn:El; cbn [map]; [|by rewrite IH]. destruct (decide _); [|done].
    by rewrite IH.
  - destruct (c_leaf x) eqn:El; cbn [map]; rewrite IH by done; [|done]. by destruct (decide _).
Qed.

Lemma oget_set_col id h s k :
  oget k (cols (set_col id (cset_hide h) s))
  = (if decide (k = id) then cset_hide h <$> oget k (cols s) else oget k (cols s)).
Proof.
  unfold set_col. destruct (oget id (cols s)) as [c|] eqn:E; cbn; destruct (decide (k = id)) as [->|].
  - by rewrite oget_oset_eq, E.
  - by rewrite oget_oset_ne.
  - by rewrite E.
  - done.
Qed.

Lemma cols_ok_hide id h s : cols_ok s -> cols_ok (set_col id (cset_hide h) s).
Proof.
  intros Hok. unfold set_col. destruct (oget id (cols s)) as [c|] eqn:E; [|done].
  apply cols_ok_oset; [done|exact (ok_keys _ Hok _ _ E)|exact (ok_pids _ Hok _ _ E)|].
  intros old. rewrite E. by intros [= <-].
Qed.

Lemma set_col_group id c h s :
  cols_ok s -> oget id (cols s) = Some c -> c_leaf c = false ->
  getColumns None (set_col id (cset_hide h) s) = getColumns None s.
Proof.
  intros Hok Hc Hl. rewrite (set_col_leaves _ c) by done.
  rewrite <-(map_id (getColumns None s)) at 2. apply map_ext_in. intros x Hx.
  destruct (decide (c_id x = id)) as [Hid|]; [|done]. exfalso.
  apply filter_In in Hx as [Hx Hlx]. apply list_elem_of_In, list_elem_of_fmap in Hx as ([k y] & -> & Hin).
  cbn in *. apply NoDup_oget in Hin; [|apply Hok].
  pose proof (ok_keys _ Hok _ _ Hin). congruence.
Qed.

(** Hiding or showing a column does just that to the leaves; the groups above may
    follow. *)
Lemma _setColumnVisible_leaves fuel hide : forall id c s,
  cols_ok s -> oget id (cols s) = Some c ->
  let s' := _setColumnVisible fuel id hide s in
  cols_ok s' /\
  getColumns None s'
  = map (fun x => if decide (c_id x = id) then cset_hide hide x else x) (getColumns None s).
Proof.
  induction fuel as [|fuel IH]; intros id c s Hok Hc; cbn zeta;
    rewrite <-(set_col_leaves _ c hide) by done; cbn [_setColumnVisible];
    pose proof (cols_ok_hide id hide s Hok) as Hok1; [done|].
  destruct (oget id (cols (set_col id _ s))) as [c1|] eqn:E1; [|done].
  destruct (c_pid c1) as [pid|] eqn:Ep; [|done].
  pose proof (ok_pids _ Hok1 _ _ E1) as Hp. rewrite Ep in Hp. destruct Hp as (pc & Hpc & Hl).
  set (s1 := set_col id _ s) in *.
  assert (forall s2 pc2, cols_ok s2 -> oget pid (cols s2) = Some pc2 -> c_leaf pc2 = false ->
    cols_ok (_setColumnVisible fuel pid hide s2) /\
    getColumns None (_setColumnVisible fuel pid hide s2) = getColumns None s2) as Hup.
  { intros s2 pc2 H2 Hpc2 Hl2. destruct (IH pid pc2 s2 H2 Hpc2) as [? ->]. split; [done|].
    rewrite <-(set_col_leaves _ pc2) by done. by apply (set_col_group _ pc2). }
  destruct hide.
  - destruct (forallb _ _); [|done].
    destruct (Hup (set_col pid (cset_hide true) s1) (cset_hide true pc)) as [? ->].
    + by apply cols_ok_hide.
    + rewrite oget_set_col, Hpc. by destruct (decide _).
    + done.
    + split; [done|]. by apply (set_col_group _ pc).
  - destruct (hidden s1 pid); [|done]. by apply (Hup s1 pc).
Qed.

Section list.
Context (text : string -> head_text).
Implicit Types (l : list column) (c : column).

Lemma pop_from_ge a l q : q ∈ pop_from text a l -> a <= pop_index q.
Proof.
  revert a. induction l as [|c l IH]; intros a; cbn [pop_from]; [by intros []%not_elem_of_nil|].
  destruct (pop_shown text c); [intros [->|H]%elem_of_cons; [done|]|intros H];
    apply IH in H; lia.
Qed.

Lemma set_box_below i b a l : i < a -> set_box i b (pop_from text a l) = pop_from text a l.
Proof.
  intros Hi. unfold set_box. rewrite <-(map_id (pop_from text a l)) at 2.
  apply map_ext_in. intros q Hq%list_elem_of_In%pop_from_ge.
  destruct (pop_index q =? i) eqn:E; zbool; [lia|done].
Qed.

Lemma set_box_from b l : forall n a c, l !! n = Some c -> pop_shown text c = true ->
  set_box (a + Z.of_nat n) b (pop_from text a l)
  = pop_from text a (<[n := cset_hide (negb b) c]> l).
Proof.
  induction l as [|d l IH]; intros n a c Hn Hs; [done|]. destruct n as [|n]; cbn in Hn.
  - injection Hn as ->. rewrite Z.add_0_r. cbn [list_insert insert pop_from].
    change (pop_shown text (cset_hide (negb b) c)) with (pop_shown text c). rewrite Hs.
    cbn [set_box map pop_index]. rewrite Z.eqb_refl. cbn. rewrite negb_involutive. f_equal.
    apply set_box_below. lia.
  - cbn [list_insert insert pop_from].
    replace (a + Z.of_nat (S n)) with (a + 1 + Z.of_nat n) by lia.
    destruct (pop_shown text d); [|by apply IH].
    cbn [set_box map pop_index]. destruct (a =? _) eqn:E; zbool; [lia|]. f_equal. by apply IH.
Qed.

Lemma box_at_from l : forall i a, i ∈ map pop_index (pop_from text a l) ->
  exists n c, i = a + Z.of_nat n /\ l !! n = Some c /\ pop_shown text c = true /\
              box_at i (pop_from text a l) = negb (c_hide c).
Proof.
  induction l as [|c l IH]; intros i a; cbn [pop_from]; [by intros []%not_elem_of_nil|].
  assert (forall i, i ∈ map pop_index (pop_from text (a + 1) l) -> a < i) as Hlt.
  { intros j (q & -> & Hq)%list_elem_of_fmap. apply pop_from_ge in Hq. lia. }
  assert (forall j, j ∈ map pop_index (pop_from text (a + 1) l) -> exists n d,
    j = a + Z.of_nat n /\ (c :: l) !! n = Some d /\ pop_shown text d = true /\
    box_at j (pop_from text (a + 1) l) = negb (c_hide d)) as Hrest.
  { intros j Hj. destruct (IH j _ Hj) as (n & d & -> & Hn & Hd & Hb). exists (S n), d.
    split_and!; try done. lia. }
  destruct (pop_shown text c) eqn:Es; [|by apply Hrest]. cbn [map].
  intros [->|H]%elem_of_cons.
  - exists 0%nat, c. split_and!; [cbn; lia|done..|]. unfold box_at. cbn. by rewrite Z.eqb_refl.
  - pose proof (Hlt _ H). destruct (Hrest _ H) as (n & d & -> & Hn & Hd & Hb). exists n, d.
    split_and!; try done. rewrite <-Hb. unfold box_at. cbn [List.find pop_index].
    destruct (a =? _) eqn:E; zbool; [lia|done].
Qed.

Definition listed l : Z :=
  sumZ (fun c => if pop_shown text c && negb (c_hide c) then 1 else 0) l.

Lemma checked_count_from a l : checked_count (pop_from text a l) = listed l.
Proof.
  unfold listed, sumZ, checked_count. revert a. induction l as [|c l IH]; intros a; [done|].
  cbn [pop_from foldr]. specialize (IH (a + 1)).
  destruct (pop_shown text c); [|done]. cbn [List.filter pop_checked].
  destruct (negb (c_hide c)); cbn [andb length]; lia.
Qed.

Lemma listed_insert l n c h : l !! n = Some c -> pop_shown text c = true -> c_hide c = negb h ->
  listed (<[n := cset_hide h c]> l) = listed l + (if h then -1 else 1).
Proof.
  unfold listed, sumZ. revert n. induction l as [|d l IH]; intros n Hn Hs Hc; [done|].
  destruct n as [|n]; cbn in Hn.
  - injection Hn as ->. change (<[0%nat := cset_hide h c]> (c :: l)) with (cset_hide h c :: l).
    cbn [foldr]. change (pop_shown text (cset_hide h c)) with (pop_shown text c).
    rewrite Hs, Hc. destruct h; cbn; lia.
  - change (<[S n := cset_hide h c]> (d :: l)) with (d :: <[n := cset_hide h c]> l).
    cbn [foldr]. rewrite (IH n Hn Hs Hc). lia.
Qed.

Lemma leaves_nodup s : cols_ok s -> NoDup (map c_id (getColumns None s)).
Proof.
  intros Hok. assert (map c_id (map snd (cols s)) = okeys (cols s)) as Hk.
  { rewrite map_map. apply map_ext_in. intros [k c] Hin%list_elem_of_In. cbn.
    apply (ok_keys _ Hok). apply NoDup_oget; [apply Hok|done]. }
  unfold getColumns. pose proof (ok_nodup _ Hok) as Hnd. rewrite <-Hk in Hnd.
  eapply sublist_NoDup; [exact Hnd|].
  apply fmap_sublist. clear. induction (map snd (cols s)) as [|c l IH]; [constructor|].
  cbn. destruct (c_leaf c); [by apply sublist_skip|by apply sublist_cons].
Qed.

Lemma map_insert_id f l n c : NoDup (map c_id l) -> l !! n = Some c ->
  map (fun x => if decide (c_id x = c_id c) then f x else x) l = <[n := f c]> l.
Proof.
  revert n. induction l as [|d l IH]; intros n; [done|]. cbn [map].
  intros [Hd Hnd]%NoDup_cons Hn. destruct n as [|n]; cbn in Hn; cbn [insert list_insert].
  - injection Hn as ->. destruct (decide _); [|done]. f_equal.
    rewrite <-(map_id l) at 2. apply map_ext_in. intros x Hx%list_elem_of_In.
    destruct (decide _) as [E|]; [|done]. exfalso. apply Hd. rewrite <-E. by apply list_elem_of_fmap_2.
  - destruct (decide _) as [E|].
    + exfalso. apply Hd. rewrite E. by apply list_elem_of_fmap_2, (list_elem_of_lookup_2 _ n).
    + f_equal. by apply IH.
Qed.

Lemma leaf_oget s n c : cols_ok s -> getColumns None s !! n = Some c -> oget (c_id c) (cols s) = Some c.
Proof.
  intros Hok Hn%list_elem_of_lookup_2. apply list_elem_of_In, filter_In in Hn as [Hn _].
  apply list_elem_of_In, list_elem_of_fmap in Hn as ([k d] & -> & Hin). cbn.
  apply NoDup_oget in Hin; [|apply Hok]. by rewrite (ok_keys _ Hok _ _ Hin).
Qed.

(** Toggling the n-th column the other way changes just that column. *)
Lemma toggleCol_nth s tw n c :
  cols_ok s -> getColumns None s !! n = Some c ->
  let s' := (toggleCol (CPNum (Z.of_nat n)) (c_hide c) (s, tw)).1 in
  cols_ok s' /\ getColumns None s' = <[n := cset_hide (negb (c_hide c)) c]> (getColumns None s).
Proof.
  intros Hok Hn. cbn zeta. unfold toggleCol, columns_of, column_number. cbn [mbind option_bind fst].
  destruct (Z.of_nat n <? 0) eqn:E; zbool; [lia|]. rewrite Nat2Z.id, Hn. cbn [option_list option_rect fold_left].
  unfold toggle_one. cbn [fst snd]. pose proof (leaf_oget _ _ _ Hok Hn) as Hc. rewrite Hc.
  destruct (_setColumnVisible_leaves (Z.to_nat (columnMaxLevel s)) (negb (c_hide c)) _ _ _ Hok Hc)
    as [H1 H2]. cbn in H1, H2. rewrite (map_insert_id (cset_hide (negb (c_hide c))) _ n) in H2
    by (try done; by apply leaves_nodup).
  destruct (c_hide c); cbn in *; done.
Qed.

Definition in_step (st : pop_state) : Prop :=
  cols_ok (ps_cols st).1 /\ ps_boxes st = _initBuildPopup text (ps_cols st).1.

(** A click on a box keeps the list in step with the columns, and at least
    [minColToggle] columns on show, or as many as there were. *)
Lemma click_box_in_step styled minc i st :
  in_step st -> minc <= checked_count (ps_boxes st) + 1 ->
  i ∈ map pop_index (ps_boxes st) ->
  let st' := click_box styled minc i st in
  in_step st' /\ map pop_index (ps_boxes st') = map pop_index (ps_boxes st) /\
  Z.min minc (checked_count (ps_boxes st)) <= checked_count (ps_boxes st').
Proof.
  destruct st as [boxes [s tw]]. intros [Hok Hb] Hmin Hi. cbn in Hok, Hb, Hmin, Hi. subst boxes.
  cbn zeta. pose proof Hi as Hi0. unfold _initBuildPopup in *.
  apply box_at_from in Hi as (n & c & -> & Hn & Hs & Hbox). cbn [Z.add] in *.
  unfold click_box. cbn [ps_boxes ps_cols]. rewrite Hbox, negb_involutive.
  rewrite (set_box_from _ _ _ 0 c) by done. rewrite !Z.add_0_l.
  destruct (toggleCol_nth s tw n c Hok Hn) as [Hok' Hl'].
  set (boxes' := pop_from text 0 (<[n := _]> _)).
  assert (in_step (PopState boxes' (toggleCol (CPNum (Z.of_nat n)) (c_hide c) (s, tw)))) as Hstep.
  { split; [done|]. cbn [ps_boxes ps_cols]. unfold _initBuildPopup. by rewrite Hl'. }
  assert (map pop_index boxes' = map pop_index (pop_from text 0 (getColumns None s))) as Hidx.
  { unfold boxes'. rewrite <-(set_box_from _ _ n 0 c) by done. unfold set_box. rewrite map_map.
    apply map_ext. intros q. destruct (_ =? _) eqn:E; zbool; cbn; congruence. }
  assert (checked_count boxes' = checked_count (pop_from text 0 (getColumns None s))
            + (if c_hide c then 1 else -1)) as Hcount.
  { unfold boxes'. rewrite !checked_count_from.
    rewrite (listed_insert _ _ _ (negb (c_hide c))) by (try done; by destruct (c_hide c)).
    by destruct (c_hide c). }
  assert (in_step (PopState (pop_from text 0 (getColumns None s)) (s, tw))) as Hst by done.
  unfold onPopupCheckboxChange. cbn [ps_boxes ps_cols].
  clearbody boxes'. destruct (c_hide c), styled; cbn [negb andb];
    repeat match goal with
    | |- context [?a <=? ?b] => destruct (a <=? b) eqn:?
    end; zbool; cbn [fst snd ps_boxes]; (exfalso; lia) || (split; [done|split; [done|lia]]).
Qed.
End list.

(** C39: On columns with different ids whose groups have their columns: when the list of
    columns starts with at least [minColToggle] boxes checked, clicks on its boxes keep every
    box in step with its column and leave at least [minColToggle] boxes checked. *)
Theorem popup_in_step p text w columns tw styled minc clicks :
  let s := _initColumns p w columns in
  let st0 := PopState (_initBuildPopup text s) (s, tw) in
  forallb never_grouped columns = true -> Z.of_nat (length (cols s)) = columnCount s ->
  minc <= checked_count (ps_boxes st0) ->
  Forall (fun i => i ∈ map pop_index (ps_boxes st0)) clicks ->
  let st := fold_left (fun st i => click_box styled minc i st) clicks st0 in
  ps_boxes st = _initBuildPopup text (ps_cols st).1 /\ minc <= checked_count (ps_boxes st).
Proof.
  cbn zeta. intros Hng Hlen Hmin Hclicks.
  assert (in_step text (PopState (_initBuildPopup text (_initColumns p w columns))
                          (_initColumns p w columns, tw))) as Hst.
  { split; [by apply _initColumns_ok|done]. }
  revert Hst Hmin Hclicks. generalize (PopState (_initBuildPopup text (_initColumns p w columns))
    (_initColumns p w columns, tw)) as st.
  induction clicks as [|i clicks IH]; intros st Hst Hmin Hclicks; cbn [fold_left].
  - split; [apply Hst|done].
  - inversion Hclicks as [|? ? Hi Hrest]; subst.
    destruct (click_box_in_step text styled minc i st Hst ltac:(lia) Hi) as (H1 & H2 & H3).
    apply IH; [done|lia|]. by rewrite H2.
Qed.

(** ** Examples *)

Definition demo_col (name : string) (kids : list coltree) : coltree :=
  Col (ColSpec None CData (Some name) None (WNum 80) 0 0 None false None None None 0 false 0) kids.
Definition demo_columns : list coltree :=
  [demo_col "g" [demo_col "a" []; demo_col "b" []]; demo_col "c" []].
Definition demo_column_options : column_options :=
  ColOptions true 26 false 29 false 27 false false false false 0 80 23 false.
Definition demo_text (id : string) : head_text := HeadText (Some id) None None true true.
Definition demo_cols : columns_state := _initColumns demo_column_options 600 demo_columns.

Definition two_tables : list coltree :=
  [Col (ColSpec None CData (Some "g") None (WNum 80) 0 0 (Some true) false None None None 0 false 0)
     [Col (ColSpec None CData (Some "a") None (WNum 80) 0 0 (Some true) false None None None 0 false 0) []];
   demo_col "h" [demo_col "b" []; demo_col "c" []]].
Definition two_cols : columns_state := _initColumns demo_column_options 600 two_tables.

Lemma header_is_table_witness :
  let rows := hd_rows (_initBuildGridHeader "grid" demo_column_options demo_text true two_cols) in
  over_rows 2 1 rows = 4 /\ over_table true 2 1 rows = 1 /\ over_table false 1 1 rows = 3.
Proof.
  destruct (header_is_table "grid" demo_column_options demo_text true 600 two_tables eq_refl eq_refl 2
           ltac:(split; vm_compute; discriminate)) as [H1 H2].
  destruct (header_is_table "grid" demo_column_options demo_text true 600 two_tables eq_refl eq_refl 1
           ltac:(split; vm_compute; discriminate)) as [_ H3].
  split; [exact H1|split; [exact (H2 eq_refl true)|exact (H3 eq_refl false)]].
Defined.

(** A frozen column of a group that is not: its cell and the group's are in different
    tables, the rows of each are of different lengths. *)
Example mixed_group_gaps :
  let s := _initColumns demo_column_options 600
             [demo_col "g" [demo_col "a" [];
                Col (ColSpec None CData (Some "b") None (WNum 80) 0 0 (Some true) false None None None 0 false 0) []]] in
  let rows := hd_rows (_initBuildGridHeader "grid" demo_column_options demo_text true s) in
  (over_table false 1 1 rows, over_table false 2 1 rows) = (3, 2).
Proof. vm_compute. done. Qed.

Lemma popup_in_step_witness :
  let st := fold_left (fun st i => click_box true 1 i st) [1; 2; 3; 1]
              (PopState (_initBuildPopup demo_text demo_cols) (demo_cols, Widths 0 0)) in
  ps_boxes st = _initBuildPopup demo_text (ps_cols st).1 /\ 1 <= checked_count (ps_boxes st).
Proof.
  exact (popup_in_step demo_column_options demo_text 600 demo_columns (Widths 0 0) true 1 [1; 2; 3; 1]
           eq_refl eq_refl ltac:(vm_compute; discriminate)
           ltac:(apply (bool_decide_unpack _); vm_compute; exact I)).
Defined.

(** With fewer columns on show than [minColToggle] asks for, [ligerCheckBox] checks a
    box whose column stays hidden. *)
Example box_out_of_step :
  let st := api_toggle (CPStr "a") false
              (api_toggle (CPStr "b") false
                 (PopState (_initBuildPopup demo_text demo_cols) (demo_cols, Widths 0 0))) in
  let st' := click_box true 3 1 st in
  ps_boxes st' = [Pop 1 true; Pop 2 false; Pop 3 true] /\
  map c_hide (getColumns None (ps_cols st').1) = [false; true; true; false].
Proof. vm_compute. done. Qed.

(** A group that lost its columns keeps the number it had: its cell stands over
    columns that are not its own. *)
Example stale_leafcount :
  let s := _initColumns demo_column_options 600
             [Col (ColSpec None CData (Some "g") None (WNum 80) 0 0 None false None None None 0
                     false 2) []; demo_col "a" []; demo_col "b" []] in
  columnLeafCount s = 4 /\
  over_rows 1 1 (hd_rows (_initBuildGridHeader "grid" demo_column_options demo_text true s)) = 5.
Proof. vm_compute. done. Qed.

(** The header counts the widths of the columns that are hidden; showing one of them
    counts its width again. *)
Example hidden_width_twice :
  let hide t := let 'Col c k := t in Col (ColSpec (cs_id c) CData (cs_name c) None (WNum 80) 0 0
                  None true None None None 0 false 0) k in
  let s := _initColumns demo_column_options 600 [hide (demo_col "a" [])] in
  header_widths s = Widths 108 0 /\ (toggleCol (CPStr "a") true (s, header_widths s)).2 = Widths 189 0.
Proof. vm_compute. done. Qed.
