(* ===== verification/GridDrag.v ===== *)
(** * ligerGrid: resizing and moving columns with the mouse

    The handlers of the header cells' borders and of the header's drag
    ([_createHeaderCell], [_setEvent]), and [changeCol] on the tree of columns. *)

From S2P Require Import Prelude JsString JsNum GridHeap GridRows GridShow GridSort GridCols GridHead.
From Stdlib Require Import Permutation.
Local Open Scope string_scope.
Local Open Scope Z_scope.

(** ** The border of a header cell *)

(** Where the line that shows the new border is: its left and height, if shown. *)
Record border := Border { b_colresizing : bool; b_line : option (Z * Z) }.

Section border.
Context (p : column_options) (veto : bool).
(** Measures: the grid's left, the body's scroll and height. *)
Context (gridLeft scrollLeft bodyHeight : Z).

Definition line_left (pageX : Z) : Z := pageX - gridLeft + scrollLeft.

Definition onStartResize (pageX : Z) (b : border) : border :=
Border (b_colresizing b) (Some (line_left pageX, bodyHeight)).

Definition onResize (pageX : Z) (b : border) : border :=
Border true (match b_line b with Some (_, h) => Some (line_left pageX, h) | None => None end).

(** [diffX] is missing when the mouse did not move: the width is no number then, and
  [setColumnWidth] does nothing. *)
Definition onStopResize (id : string) (diffX : option Z) (st : columns_state * table_widths)
  (b : border) : border * (columns_state * table_widths) :=
(Border false None,
 match diffX, oget id (cols st.1) with
 | Some d, Some c => setColumnWidth p veto (CPCol id) (c_width c + d) st
 | _, _ => st
 end).

(** Letting go of a border makes its column wider by the way of the mouse, but not
  narrower than it may be; the table grows by as much. *)
Lemma onStopResize_widens id d st b c :
  oget id (cols st.1) = Some c -> veto = false -> c_width c + d <> 0 ->
  let w := Z.max (c_width c + d)
             (if cs_minWidth (c_spec c) =? 0 then p_minColumnWidth p else cs_minWidth (c_spec c)) in
  c_id c = id ->
  let r := onStopResize id (Some d) st b in
  oget id (cols r.2.1) = Some (cset_width w c) /\
  r.2.2 = add_width c (w - c_width c) st.2 /\ b_colresizing r.1 = false.
Proof.
  intros Hc Hv Hw w Hid. cbn zeta. unfold onStopResize. cbn [fst snd]. rewrite Hc.
  unfold setColumnWidth. destruct (c_width c + d =? 0) eqn:E; zbool; [done|].
  unfold columns_of. rewrite Hc. cbn [option_list option_rect fold_left].
  unfold width_one. rewrite Hid, Hc. cbn [fst snd].
  set (minw := if cs_minWidth (c_spec c) =? 0 then _ else _).
  assert ((if c_width c + d <? minw then minw else c_width c + d) = w) as ->.
  { unfold w, minw. destruct (_ <? _) eqn:E2; zbool; lia. }
  rewrite Hv, Hid. unfold set_col. rewrite Hc. cbn. by rewrite oget_oset_eq.
Qed.
End border.

(** ** Dragging a column *)

Record coldrag := ColDrag {
  d_column : option string;               (* this.draggingColumn *)
  d_coldragging : bool;                   (* g.coldragging *)
  d_dropIn : option (option string);      (* g.colDropIn: not set, -1, a column *)
  d_dropRight : bool;                     (* g.colDropDir is "right" *)
  d_tip : option (Z * Z * Z);             (* the tip: left, top, height *)
  d_yes : bool;                           (* the proxy's icon *)
  d_range : Z * Z * Z * Z                 (* validRange: top, bottom, left, right *)
}.

Definition dset_drop drop right tip yes d :=
  ColDrag (d_column d) (d_coldragging d) drop right tip yes (d_range d).

(** What the press is on: the id of the header cell's column, its text, a cell with a
    resize cursor. *)
Record press := Press {
  m_right : bool; m_column : option string; m_text : bool; m_resizeCursor : bool }.

Section coldrag.
Context (p : column_options) (s : columns_state).
Context (gridTop gridLeft gridWidth headerHeight : Z).
(** A header cell's top, left, width and height. *)
Context (cell_box : string -> Z * Z * Z * Z).

Definition onStartDrag (colresizing : bool) (e : press) (d : coldrag) : bool * coldrag :=
if m_right e || colresizing then (false, d)
else
  match m_column e ≫= (fun id => oget id (cols s)) with
  | None => (false, d)
  | Some c =>
      if issystem c || m_text e || m_resizeCursor e then (false, d)
      else (true, ColDrag (Some (c_id c)) true (d_dropIn d) (d_dropRight d) (d_tip d) (d_yes d)
              (gridTop, gridTop + headerHeight, gridLeft - 10, gridLeft + gridWidth + 10))
  end.

(** The side of [col] a column that was met before it, or not, would be put on.  The
    comparison is [!=], by which [undefined] is not [false]. *)
Definition isAfter_of (column col : column) (visit : bool) : bool :=
if bool_decide (frozen_value (c_leaf column) (c_spec column) <> frozen_value (c_leaf col) (c_spec col))
then negb (cs_frozen (c_spec col))
else (c_level col =? c_level column) && visit.

(** The cell's left or right border, ten pixels to both sides. *)
Definition over_border (id : string) (isAfter : bool) (x y : Z) : bool :=
let '(top, lft, width, height) := cell_box id in
let lft := lft - 10 + (if isAfter then width else 0) in
(lft <? x) && (x <? lft + 20) && (top <? y) && (y <? top + height).

Definition tip_of (id : string) (c : column) (isAfter : bool) : Z * Z * Z :=
let '(top, lft, width, height) := cell_box id in
(lft - 10 + (if isAfter then width else 0) + 5, top - 9,
 p_headerRowHeight p * default 1 (c_rowSpan c) + 9 * 2).

Definition dropping (d : coldrag) : option string := default None (d_dropIn d).

Fixpoint over_columns (column : column) (visit : bool) (l : list (string * GridCols.column)) (x y : Z)
  (d : coldrag) : coldrag :=
match l with
| [] => d
| (id, col) :: l' =>
    if String.eqb id (c_id column) then over_columns column true l' x y d
    else if issystem col then over_columns column visit l' x y d
    else
      let isAfter := isAfter_of column col visit in
      match dropping d with
      | Some k =>
          if negb (String.eqb k id) then over_columns column visit l' x y d
          else if over_border id isAfter x y
          then dset_drop (Some (Some id)) isAfter (Some (tip_of id col isAfter)) true d
          else over_columns column visit l' x y
                 (dset_drop (Some None) (d_dropRight d) None false d)
      | None =>
          if over_border id isAfter x y
          then dset_drop (Some (Some id)) isAfter (Some (tip_of id col isAfter)) true d
          else over_columns column visit l' x y d
      end
end.

Definition onDrag (colresizing : bool) (x y : Z) (d : coldrag) : bool * coldrag :=
match d_column d ≫= (fun id => oget id (cols s)) with
| None => (false, d)
| Some column =>
    if colresizing then (false, d)
    else
      let d := match d_dropIn d with
               | None => dset_drop (Some None) (d_dropRight d) (d_tip d) (d_yes d) d
               | Some _ => d end in
      let '(top, bottom, lft, rgt) := d_range d in
      if (x <? lft) || (rgt <? x) || (bottom <? y) || (y <? top)
      then (true, dset_drop (Some None) (d_dropRight d) None false d)
      else (true, over_columns column false (cols s) x y d)
end.

(** The end of the drag: the call of [changeCol] that is put off, if any. *)
Definition onStopDrag (d : coldrag) : option (string * string * bool) * coldrag :=
(match d_column d, dropping d with
 | Some x, Some y => Some (x, y, d_dropRight d)
 | _, _ => None end,
 ColDrag (d_column d) false
   (match dropping d with Some _ => Some None
    | None => match d_dropIn d with None => Some None | o => o end end)
   (d_dropRight d) None (d_yes d) (d_range d)).
End coldrag.

(** ** The tree of columns, with the ids they were given *)

Inductive ctree := CT (id : string) (c : colspec) (kids : list ctree).
Definition ct_id (t : ctree) : string := let 'CT id _ _ := t in id.
Definition ct_spec (t : ctree) : colspec := let 'CT _ c _ := t in c.
Definition ct_kids (t : ctree) : list ctree := let 'CT _ _ k := t in k.

Definition label_all (f : coltree -> Z -> ctree * Z) :=
  fix go (l : list coltree) (count : Z) : list ctree * Z :=
    match l with
    | [] => ([], count)
    | t :: l' =>
        let '(t, count) := f t count in
        let '(l', count) := go l' count in (t :: l', count)
    end.

(** The ids [setColumn] gives, in its order. *)
Fixpoint label (t : coltree) (count : Z) {struct t} : ctree * Z :=
  match t with
  | Col c kids =>
      let '(ks, n) := label_all label kids (count + 1) in
      (CT (_createColumnId c (count + 1)) c ks, n)
  end.

Definition forest_of (p : column_options) (columns : list coltree) : list ctree :=
  (label_all label columns (Z.of_nat (length (system_columns p)))).1.

(** The column objects keep what the grid wrote into them: [_width], [_hide] and
    [__leafcount]. *)
Definition settle_spec (s : columns_state) (id : string) (c : colspec) : colspec :=
  match oget id (cols s) with
  | Some col =>
      ColSpec (cs_id c) (cs_kind c) (cs_name c) (cs_type c) (cs_width c) (cs_minWidth c)
        (cs_maxWidth c) (cs_frozenOption c) (cs_hide c) (cs_isSort c) (cs_align c) (cs_totalSummary c)
        (if c_leaf col then c_width col else cs_keptWidth c) (c_hide col)
        (default 0 (c_leafcount col))
  | None => c
  end.

Fixpoint map_spec (g : string -> colspec -> colspec) (t : ctree) : ctree :=
  match t with CT id c kids => CT id (g id c) (map (map_spec g) kids) end.

(** [_initColumns] makes a boolean of [frozen] in every leaf. *)
Definition with_frozen (b : option bool) (c : colspec) : colspec :=
  ColSpec (cs_id c) (cs_kind c) (cs_name c) (cs_type c) (cs_width c) (cs_minWidth c)
    (cs_maxWidth c) b (cs_hide c) (cs_isSort c) (cs_align c) (cs_totalSummary c) (cs_keptWidth c)
    (cs_keptHide c) (cs_keptLeafcount c).

Fixpoint coerce (t : ctree) : ctree :=
  match t with
  | CT id c kids =>
      CT id (match kids with [] => with_frozen (Some (cs_frozen c)) c | _ => c end) (map coerce kids)
  end.

Definition settle (s : columns_state) (t : ctree) : ctree := map_spec (settle_spec s) (coerce t).

Fixpoint erase (t : ctree) : coltree :=
  match t with CT _ c kids => Col c (map erase kids) end.

(** All the columns of a tree, the group before its members. *)
Fixpoint nodes (t : ctree) : list ctree :=
  match t with CT _ _ kids => t :: flat_map nodes kids end.

Definition all_nodes (l : list ctree) : list ctree := flat_map nodes l.
Definition ids (l : list ctree) : list string := map ct_id (all_nodes l).

Definition find_node (k : string) (l : list ctree) : option ctree :=
  List.find (fun t => String.eqb k (ct_id t)) (all_nodes l).

(** ** [changeCol] *)

(** The array of the columns of a group, or of the grid. *)
Definition columns_at (pid : option string) (l : list ctree) : list ctree :=
  match pid with
  | None => l
  | Some k => match find_node k l with Some t => ct_kids t | None => [] end
  end.

Fixpoint edit_tree (k : string) (f : list ctree -> list ctree) (t : ctree) : ctree :=
  match t with
  | CT id c kids => if String.eqb k id then CT id c (f kids) else CT id c (map (edit_tree k f) kids)
  end.

Definition edit_at (pid : option string) (f : list ctree -> list ctree) (l : list ctree) : list ctree :=
  match pid with None => f l | Some k => map (edit_tree k f) l end.

Definition set_frozen (k : string) (b : option bool) : ctree -> ctree :=
  map_spec (fun id c => if String.eqb k id then with_frozen b c else c).

Definition position (k : string) (l : list ctree) : Z := inArray k (map ct_id l).

(** The two splices on the arrays of the two groups. *)
Definition move_node (node : ctree) (fromPid toPid : option string) (to : string) (isAfter : bool)
    (l : list ctree) : list ctree :=
  let fromIndex := position (ct_id node) (columns_at fromPid l) in
  let toIndex := position to (columns_at toPid l) in
  if bool_decide (fromPid = toPid)
  then edit_at toPid (move_in fromIndex toIndex isAfter node) l
  else edit_at fromPid (splice fromIndex 1 [])
         (edit_at toPid (splice (toIndex + (if isAfter then 1 else 0)) 0 [node]) l).

(** The columns of the grid and what it made of them; columns that are not among the
    user's have no place in the tree. *)
Record col_state := ColState { k_columns : list coltree; k_state : columns_state }.

Definition change_forest (s : columns_state) (from to : string) (isAfter : bool) (l : list ctree)
    : option (list ctree) :=
  fromCol ← oget from (cols s);
  toCol ← oget to (cols s);
  t ← find_node to l;
  let l := map (set_frozen from (cs_frozenOption (ct_spec t))) l in
  node ← find_node from l;
  Some (move_node node (c_pid fromCol) (c_pid toCol) to isAfter l).

Definition changeCol (p : column_options) (gridWidth : Z) (from to : string) (isAfter : bool)
    (st : col_state) : option col_state :=
  let l := map (settle (k_state st)) (forest_of p (k_columns st)) in
  l ← change_forest (k_state st) from to isAfter l;
  let columns := map erase l in
  Some (ColState columns (_initColumns p gridWidth columns)).

(** ** Trees of columns *)

Section tree.
Implicit Types (t : ctree) (l L M : list ctree) (k : string).

Lemma ctree_rec_strong (P : ctree -> Prop) :
  (forall id c kids, Forall P kids -> P (CT id c kids)) -> forall t, P t.
Proof.
  intros H. fix IH 1. intros [id c kids]. apply H.
  induction kids as [|t l IHl]; constructor; [apply IH|exact IHl].
Qed.

(** A column with its id, as it stands in the tree. *)
Definition tag t : string * colspec := (ct_id t, ct_spec t).
Definition tags l : list (string * colspec) := map tag (all_nodes l).

Lemma tags_app l M : tags (l ++ M) = (tags l ++ tags M)%list.
Proof. unfold tags, all_nodes. by rewrite flat_map_app, map_app. Qed.

Lemma tags_cons id c kids l : tags (CT id c kids :: l) = (id, c) :: (tags kids ++ tags l)%list.
Proof. unfold tags, all_nodes. cbn. by rewrite map_app. Qed.

Lemma ids_tags l : ids l = map fst (tags l).
Proof. unfold ids, tags. by rewrite map_map. Qed.

Lemma ids_app l M : ids (l ++ M) = (ids l ++ ids M)%list.
Proof. rewrite !ids_tags, tags_app. apply map_app. Qed.

Lemma ids_cons id c kids l : ids (CT id c kids :: l) = id :: (ids kids ++ ids l)%list.
Proof. rewrite !ids_tags, tags_cons. cbn. by rewrite map_app. Qed.

Lemma tags_first t l : tags (t :: l) = (tags [t] ++ tags l)%list.
Proof. by rewrite <-tags_app. Qed.

Lemma ids_first t l : ids (t :: l) = (ids [t] ++ ids l)%list.
Proof. by rewrite <-ids_app. Qed.

Lemma ids_member n l k : n ∈ l -> k ∈ ids [n] -> k ∈ ids l.
Proof.
  intros (l1 & l2 & ->)%list_elem_of_split Hk.
  rewrite ids_app, elem_of_app, ids_first, elem_of_app. by right; left.
Qed.

Lemma all_nodes_elem n l : n ∈ all_nodes l <-> exists z, z ∈ l /\ n ∈ nodes z.
Proof.
  unfold all_nodes. rewrite list_elem_of_In, in_flat_map.
  split; intros (z & H1 & H2); exists z; by rewrite ?list_elem_of_In in *.
Qed.

Lemma ids_node n l : n ∈ all_nodes l -> ct_id n ∈ ids l.
Proof. intros H. apply list_elem_of_fmap. by exists n. Qed.

Lemma all_nodes_in l n : n ∈ l -> n ∈ all_nodes l.
Proof.
  induction l as [|t l IH]; [by intros []%not_elem_of_nil|]. unfold all_nodes in *. cbn.
  rewrite elem_of_app. intros [->|H]%elem_of_cons; [left|right; auto].
  destruct t. cbn. left.
Qed.

Lemma ids_sub n l : n ∈ all_nodes l -> forall k, k ∈ ids (ct_kids n) -> k ∈ ids l.
Proof.
  intros Hn. assert (forall t, n ∈ nodes t -> forall k, k ∈ ids (ct_kids n) -> k ∈ ids [t]) as Ht.
  { induction t as [id c kids IH] using ctree_rec_strong. cbn [nodes].
    intros [->|H]%elem_of_cons k Hk; rewrite ids_cons; right; rewrite elem_of_app; left; [done|].
    apply all_nodes_elem in H as (z & Hz & H).
    rewrite Forall_forall in IH. by apply (ids_member z), (IH z Hz H k Hk). }
  apply all_nodes_elem in Hn as (z & Hz & H).
  intros k Hk. by apply (ids_member z), (Ht z H k Hk).
Qed.

(** Editing a group that is not there changes nothing. *)
Lemma edit_tree_id k f t : k ∉ ids [t] -> edit_tree k f t = t.
Proof.
  induction t as [id c kids IH] using ctree_rec_strong. rewrite ids_cons, not_elem_of_cons.
  intros [Hne Hk]. rewrite elem_of_app in Hk. cbn.
  destruct (String.eqb k id) eqn:E; [by apply String.eqb_eq in E|]. f_equal.
  rewrite <-(map_id kids) at 2. apply map_ext_in. intros z Hz%list_elem_of_In.
  rewrite Forall_forall in IH. apply IH; [done|]. intros Hin. apply Hk. left.
  by apply (ids_member z).
Qed.

Lemma edit_list_id k f l : k ∉ ids l -> map (edit_tree k f) l = l.
Proof.
  induction l as [|t l IH]; [done|]. rewrite ids_first, not_elem_of_app. intros [H1 H2]. cbn. by rewrite edit_tree_id, IH.
Qed.

(** ** A group that is there once *)

Definition cnt k (xs : list string) : nat := count_occ String.string_dec xs k.

Lemma cnt_app k xs ys : cnt k (xs ++ ys) = (cnt k xs + cnt k ys)%nat.
Proof. apply count_occ_app. Qed.

Lemma cnt_zero k xs : cnt k xs = 0%nat <-> k ∉ xs.
Proof. unfold cnt. rewrite list_elem_of_In. symmetry. apply count_occ_not_In. Qed.

Lemma cnt_nodup k xs : NoDup xs -> k ∈ xs -> cnt k xs = 1%nat.
Proof.
  intros Hnd Hk. unfold cnt. apply NoDup_ListNoDup in Hnd.
  apply (NoDup_count_occ' String.string_dec); [done|by apply list_elem_of_In].
Qed.

(** Everything else stays where it is when the columns of a group are edited. *)
Definition edit_splits k t : Prop :=
  cnt k (ids [t]) = 1%nat ->
  exists a b c L, CT k c L ∈ nodes t /\ tags [t] = (a ++ tags L ++ b)%list /\
    forall f, tags [edit_tree k f t] = (a ++ tags (f L) ++ b)%list.

Lemma edit_list_tags k l : Forall (edit_splits k) l -> cnt k (ids l) = 1%nat ->
  exists a b c L, CT k c L ∈ all_nodes l /\ tags l = (a ++ tags L ++ b)%list /\
    forall f, tags (map (edit_tree k f) l) = (a ++ tags (f L) ++ b)%list.
Proof.
  induction 1 as [|z l Hz Hl IHl]; [done|]. rewrite ids_first, cnt_app. intros Hc.
  destruct (decide (cnt k (ids [z]) = 1%nat)) as [H1|H1].
  - destruct (Hz H1) as (a & b & c0 & L & Hn & Ht & Hf).
    assert (k ∉ ids l) as Hk by (apply cnt_zero; lia).
    exists a, (b ++ tags l)%list, c0, L. split_and!.
    + unfold all_nodes. cbn. apply elem_of_app. by left.
    + by rewrite tags_first, Ht, <-!app_assoc.
    + intros f. cbn [map]. rewrite (edit_list_id k f l) by done.
      by rewrite tags_first, Hf, <-!app_assoc.
  - destruct IHl as (a & b & c0 & L & Hn & Ht & Hf); [lia|].
    assert (k ∉ ids [z]) as Hk by (apply cnt_zero; lia).
    exists (tags [z] ++ a)%list, b, c0, L. split_and!.
    + unfold all_nodes. cbn. apply elem_of_app. by right.
    + by rewrite tags_first, Ht, <-!app_assoc.
    + intros f. cbn [map]. rewrite (edit_tree_id k f z) by done.
      by rewrite tags_first, Hf, <-!app_assoc.
Qed.

Lemma edit_tree_tags k t : edit_splits k t.
Proof.
  induction t as [id c kids IH] using ctree_rec_strong. unfold edit_splits. rewrite ids_cons.
  cbn [nodes]. change (ids []) with (@nil string). rewrite app_nil_r.
  unfold cnt. cbn [count_occ]. fold (cnt k (ids kids)).
  destruct (String.string_dec id k) as [->|Hne].
  - intros [=]. exists [(k, c)], [], c, kids. split; [left|]. cbn [edit_tree].
    rewrite String.eqb_refl. split; [|intros f]; rewrite tags_cons; done.
  - intros Hc. destruct (edit_list_tags k kids IH Hc) as (a & b & c0 & L & Hn & Ht & Hf).
    exists ((id, c) :: a), b, c0, L. split_and!.
    + right. exact Hn.
    + rewrite tags_cons, Ht. cbn. by rewrite !app_nil_r.
    + intros f. cbn [edit_tree]. destruct (String.eqb k id) eqn:E; [by apply String.eqb_eq in E|].
      rewrite tags_cons, Hf. cbn. by rewrite !app_nil_r.
Qed.

Lemma nodes_split n t : n ∈ nodes t -> exists a b, tags [t] = (a ++ tags [n] ++ b)%list.
Proof.
  induction t as [id c kids IH] using ctree_rec_strong. cbn [nodes].
  intros [->|H]%elem_of_cons; [exists [], []; by rewrite app_nil_r|].
  apply all_nodes_elem in H as (z & Hz & H).
  rewrite Forall_forall in IH. destruct (IH z Hz H) as (a & b & Ht).
  apply list_elem_of_split in Hz as (l1 & l2 & ->).
  exists ((id, c) :: tags l1 ++ a)%list, (b ++ tags l2)%list.
  rewrite tags_cons, tags_app, tags_first, Ht. change (tags []) with (@nil (string * colspec)).
  rewrite app_nil_r. cbn [app]. by rewrite <-!app_assoc.
Qed.

Lemma all_nodes_split n l : n ∈ all_nodes l -> exists a b, tags l = (a ++ tags [n] ++ b)%list.
Proof.
  intros (z & Hz & H)%all_nodes_elem.
  destruct (nodes_split _ _ H) as (a & b & Ht). apply list_elem_of_split in Hz as (l1 & l2 & ->).
  exists (tags l1 ++ a)%list, (b ++ tags l2)%list. by rewrite tags_app, tags_first, Ht, <-!app_assoc.
Qed.

Lemma ids_below n l : n ∈ all_nodes l -> NoDup (ids l) -> NoDup (ids [n]).
Proof.
  intros (a & b & H)%all_nodes_split. rewrite !ids_tags, H, !map_app.
  intros (_ & _ & (H1 & _ & _)%NoDup_app)%NoDup_app. done.
Qed.

Lemma node_unique n m l : NoDup (ids l) -> n ∈ all_nodes l -> m ∈ all_nodes l ->
  ct_id n = ct_id m -> n = m.
Proof.
  unfold ids. intros Hnd (i & Hi)%list_elem_of_lookup (j & Hj)%list_elem_of_lookup He.
  assert (i = j) as ->; [|congruence].
  eapply NoDup_lookup; [exact Hnd|by rewrite list_lookup_fmap, Hi|].
  by rewrite list_lookup_fmap, Hj, He.
Qed.

Lemma find_node_once n l : cnt (ct_id n) (ids l) = 1%nat -> n ∈ all_nodes l ->
  find_node (ct_id n) l = Some n.
Proof.
  unfold find_node, ids. generalize (all_nodes l) as xs. clear l.
  induction xs as [|m xs IH]; [by intros _ []%not_elem_of_nil|]. cbn [map List.find].
  unfold cnt. cbn [count_occ]. fold (cnt (ct_id n) (map ct_id xs)).
  destruct (String.string_dec (ct_id m) (ct_id n)) as [He|Hne].
  - intros [= H0%cnt_zero] [->|Hin]%elem_of_cons; [by rewrite String.eqb_refl|].
    exfalso. by apply H0, list_elem_of_fmap_2.
  - intros H1 [->|Hin]%elem_of_cons; [done|].
    destruct (String.eqb _ _) eqn:E; [by apply String.eqb_eq in E|]. by apply IH.
Qed.

(** *** Groups *)

(** The columns of a group, of which there is one. *)
Definition present (pid : option string) l : Prop :=
  match pid with None => True | Some k => cnt k (ids l) = 1%nat end.

Definition group_in (pid : option string) L l : Prop :=
  match pid with None => L = l | Some k => exists c, CT k c L ∈ all_nodes l end.

Definition edit_in (pid : option string) (f : list ctree -> list ctree) t : ctree :=
  match pid with None => t | Some k => edit_tree k f t end.

Lemma columns_at_group pid L l : present pid l -> group_in pid L l -> columns_at pid l = L.
Proof.
  destruct pid as [k|]; cbn; [|done]. intros Hp [c Hc].
  pose proof (find_node_once (CT k c L) l Hp Hc) as H. cbn in H. by rewrite H.
Qed.

Lemma edit_at_tags pid L l : present pid l -> group_in pid L l ->
  exists a b, tags l = (a ++ tags L ++ b)%list /\
    forall f, tags (edit_at pid f l) = (a ++ tags (f L) ++ b)%list.
Proof.
  intros Hp Hg. destruct pid as [k|]; cbn in *.
  - destruct (edit_list_tags k l) as (a & b & c & L' & Hn & Ht & Hf).
    { apply Forall_forall. intros t _. apply edit_tree_tags. }
    { done. }
    assert (columns_at (Some k) l = L) as H1 by (by apply columns_at_group).
    assert (columns_at (Some k) l = L') as H2 by (apply columns_at_group; [done|by exists c]).
    exists a, b. by rewrite <-H1, H2.
  - subst L. exists [], []. split; [by rewrite app_nil_r|]. intros f. by rewrite app_nil_r.
Qed.

Lemma ct_id_edit pid f t : ct_id (edit_in pid f t) = ct_id t.
Proof. destruct pid as [k|]; [|done]. destruct t. cbn. by destruct (String.eqb _ _). Qed.

Lemma ids_in_node n t : n ∈ nodes t -> ct_id n ∈ ids [t].
Proof. intros H. apply ids_node, all_nodes_elem. exists t. split; [left|done]. Qed.

Lemma cnt_member k z l : cnt k (ids l) = 1%nat -> z ∈ l -> k ∈ ids [z] -> cnt k (ids [z]) = 1%nat.
Proof.
  intros Hc (l1 & l2 & ->)%list_elem_of_split Hk. rewrite ids_app, ids_first, !cnt_app in Hc.
  assert (cnt k (ids [z]) <> 0%nat); [by rewrite cnt_zero; intros H|lia].
Qed.

Lemma edit_makes_group pid f L l : present pid l -> group_in pid L l ->
  group_in pid (f L) (edit_at pid f l).
Proof.
  destruct pid as [k|]; cbn; [|by intros _ ->]. intros Hp [c Hc]. exists c.
  assert (forall t, cnt k (ids [t]) = 1%nat -> CT k c L ∈ nodes t ->
            CT k c (f L) ∈ nodes (edit_tree k f t)) as Ht.
  { induction t as [id c0 kids IH] using ctree_rec_strong. rewrite ids_cons.
    change (ids []) with (@nil string). rewrite app_nil_r.
    unfold cnt. cbn [count_occ nodes]. fold (cnt k (ids kids)). intros H1 H.
    apply elem_of_cons in H as [[= <- <- <-]|H].
    { cbn. rewrite String.eqb_refl. left. }
    assert (k ∈ ids kids) as Hk by exact (ids_node (CT k c L) kids H).
    destruct (String.string_dec id k) as [->|Hne].
    { exfalso. injection H1 as H0%cnt_zero. done. }
    cbn. destruct (String.eqb k id) eqn:E; [by apply String.eqb_eq in E|]. right.
    apply all_nodes_elem in H as (z & Hz & H). apply all_nodes_elem. exists (edit_tree k f z).
    split; [by apply list_elem_of_fmap_2|]. rewrite Forall_forall in IH.
    apply IH; [done| |done]. apply (cnt_member _ _ kids); [done..|].
    exact (ids_in_node (CT k c L) z H). }
  apply all_nodes_elem in Hc as (z & Hz & H). apply all_nodes_elem. exists (edit_tree k f z).
  split; [by apply list_elem_of_fmap_2|]. apply Ht; [|done].
  apply (cnt_member _ _ l); [done..|]. exact (ids_in_node (CT k c L) z H).
Qed.

(** Another group stays, unless the edit takes it away; columns below it may have
    been edited. *)
Lemma edit_keeps_node k f j c M t :
  (cnt k (ids [t]) <= 1)%nat -> j <> k ->
  (forall c0 L, CT k c0 L ∈ nodes t -> CT j c M ∈ all_nodes L -> CT j c M ∈ all_nodes (f L)) ->
  CT j c M ∈ nodes t -> CT j c (map (edit_tree k f) M) ∈ nodes (edit_tree k f t).
Proof.
  intros Hc Hjk Hf. revert Hc Hf. induction t as [id c0 kids IH] using ctree_rec_strong.
  rewrite ids_cons. change (ids []) with (@nil string). rewrite app_nil_r.
  unfold cnt. cbn [count_occ nodes edit_tree]. fold (cnt k (ids kids)). intros Hc Hf H.
  destruct (String.string_dec id k) as [->|Hne].
  - rewrite String.eqb_refl. apply elem_of_cons in H as [[= -> -> ->]|H]; [done|].
    assert (k ∉ ids kids) as Hk by (apply cnt_zero; lia). rewrite (edit_list_id k f M).
    + right. apply (Hf c0); [left|done].
    + intros Hin. apply Hk. exact (ids_sub (CT j c M) kids H k Hin).
  - destruct (String.eqb k id) eqn:E; [by apply String.eqb_eq in E|].
    apply elem_of_cons in H as [[= -> -> ->]|H]; [left|]. right.
    apply all_nodes_elem in H as (z & Hz & H). apply all_nodes_elem. exists (edit_tree k f z).
    split; [by apply list_elem_of_fmap_2|]. rewrite Forall_forall in IH. apply IH; [done| | |done].
    + apply list_elem_of_split in Hz as (l1 & l2 & ->). rewrite ids_app, ids_first, !cnt_app in Hc. lia.
    + intros c1 L Hn. apply (Hf c1). right. apply all_nodes_elem. by exists z.
Qed.

Lemma edit_keeps_group pid f L q M l :
  present pid l -> group_in pid L l -> q <> pid -> group_in q M l ->
  (forall j c, q = Some j -> CT j c M ∈ all_nodes L -> CT j c M ∈ all_nodes (f L)) ->
  group_in q (map (edit_in pid f) M) (edit_at pid f l).
Proof.
  intros Hp Hg Hne Hq Hf. destruct pid as [k|], q as [j|]; cbn in *; try done.
  - destruct Hq as [c Hc]. exists c. apply all_nodes_elem in Hc as (z & Hz & H).
    apply all_nodes_elem. exists (edit_tree k f z). split; [by apply list_elem_of_fmap_2|].
    apply edit_keeps_node; [|congruence| |done].
    + apply list_elem_of_split in Hz as (l1 & l2 & ->). rewrite ids_app, ids_first, !cnt_app in Hp. lia.
    + intros c0 L' Hn. assert (L' = L) as ->; [|by apply Hf].
      assert (columns_at (Some k) l = L) as <- by by apply columns_at_group.
      symmetry. apply columns_at_group; [done|]. exists c0. apply all_nodes_elem. by exists z.
  - by rewrite Hq.
  - destruct Hq as [c Hc]. exists c. subst l. rewrite map_id. by apply (Hf j).
Qed.

(** Adding a column to a list, and taking one away. *)
Lemma all_nodes_insert p1 p2 node n : n ∈ all_nodes (p1 ++ p2) -> n ∈ all_nodes (p1 ++ node :: p2).
Proof.
  rewrite !all_nodes_elem. intros (z & Hz & H). exists z. split; [|done].
  apply elem_of_app in Hz as [|]; apply elem_of_app; [by left|right; by right].
Qed.

Lemma all_nodes_remove p1 p2 node n :
  ct_id n ∉ ids [node] -> n ∈ all_nodes (p1 ++ node :: p2) -> n ∈ all_nodes (p1 ++ p2).
Proof.
  rewrite !all_nodes_elem. intros Hn (z & Hz & H). exists z. split; [|done].
  apply elem_of_app in Hz as [|[->|]%elem_of_cons]; apply elem_of_app; [by left| |by right].
  exfalso. by apply Hn, ids_in_node.
Qed.

Lemma tags_insert p1 p2 node : Permutation (tags (p1 ++ node :: p2)) (tags [node] ++ tags (p1 ++ p2)).
Proof.
  rewrite !tags_app, (tags_first node p2). rewrite !app_assoc. apply Permutation_app_tail.
  apply Permutation_app_comm.
Qed.

Lemma position_at p1 node p2 :
  NoDup (ids (p1 ++ node :: p2)) ->
  position (ct_id node) (p1 ++ node :: p2) = Z.of_nat (length p1).
Proof.
  intros Hnd. unfold position. rewrite map_app. cbn [map].
  rewrite inArray_at; [by rewrite length_map|].
  intros (z & Hz & Hin)%list_elem_of_fmap. rewrite ids_app in Hnd.
  apply NoDup_app in Hnd as (_ & Hd & _). apply (Hd (ct_id node)).
  - rewrite Hz. by apply ids_node, all_nodes_in.
  - apply ids_node, all_nodes_in. left.
Qed.

(** The group of a column is not below the column. *)
Lemma group_not_below k L node l :
  NoDup (ids l) -> group_in (Some k) L l -> node ∈ all_nodes l ->
  (exists z, z ∈ L /\ ct_id z ∉ ids [node]) \/ node ∈ L -> k ∉ ids [node].
Proof.
  intros Hnd [c Hc] Hnode Hor (m & Hk & Hm)%list_elem_of_fmap.
  assert (m ∈ nodes node) as Hm' by (unfold all_nodes in Hm; cbn in Hm; by rewrite app_nil_r in Hm).
  assert (forall t, t ∈ nodes node -> t ∈ all_nodes l) as Hsub.
  { intros t Ht. clear -Ht Hnode. apply all_nodes_elem in Hnode as (z & Hz & Hn).
    apply all_nodes_elem. exists z. split; [done|]. clear -Ht Hn.
    induction z as [id c kids IH] using ctree_rec_strong. cbn [nodes] in *.
    apply elem_of_cons in Hn as [->|Hn]; [done|]. right.
    apply all_nodes_elem in Hn as (y & Hy & Hn). apply all_nodes_elem. exists y.
    rewrite Forall_forall in IH. split; [done|]. by apply IH. }
  assert (m = CT k c L) as -> by (apply (node_unique _ _ l); [done|by apply Hsub|done|done]).
  destruct Hor as [(z & Hz & Hn)|Hn].
  - apply Hn. apply (ids_sub (CT k c L) [node] Hm). by apply ids_node, all_nodes_in.
  - pose proof (ids_below _ _ Hnode Hnd) as Hnd'. destruct node as [id c0 kids].
    apply elem_of_cons in Hm' as [[= <- <- <-]|Hm'].
    + pose proof Hnd' as Hnd2. rewrite ids_cons in Hnd2. change (ids []) with (@nil string) in Hnd2.
      rewrite app_nil_r in Hnd2. apply NoDup_cons in Hnd2 as [Hno _]. apply Hno.
      exact (ids_node (CT k c L) L ltac:(by apply all_nodes_in)).
    + rewrite ids_cons in Hnd'. apply NoDup_cons in Hnd' as [Hno _]. apply Hno.
      apply elem_of_app. left. apply (ids_sub (CT k c L) kids Hm').
      exact (ids_node (CT id c0 kids) L ltac:(by apply all_nodes_in)).
Qed.

(** ** Moving a column *)

(** The column stands beside the other one, on the side asked for. *)
Definition beside (isAfter : bool) (x y : string) L : Prop :=
  exists pre post, map ct_id L = (pre ++ (if isAfter then [y; x] else [x; y]) ++ post)%list.

Lemma tags_present pid l l' : Permutation (tags l') (tags l) -> present pid l -> present pid l'.
Proof.
  destruct pid as [k|]; [|done]. cbn. rewrite !ids_tags. intros H <-.
  unfold cnt. apply Permutation_count_occ. by apply Permutation_map.
Qed.

Lemma nodup_list L a b (xs : list (string * colspec)) :
  NoDup (map fst xs) -> xs = (a ++ tags L ++ b)%list -> NoDup (ids L).
Proof.
  intros Hnd ->. rewrite !map_app in Hnd. rewrite ids_tags.
  by apply NoDup_app in Hnd as (_ & _ & (H & _ & _)%NoDup_app).
Qed.

(** Within a group. *)
Lemma move_node_same l pid L node y (isAfter : bool) pre mid post :
  NoDup (ids l) -> present pid l -> group_in pid L l ->
  L = (if isAfter then pre ++ node :: mid ++ y :: post else pre ++ y :: mid ++ node :: post)%list ->
  let l' := move_node node pid pid (ct_id y) isAfter l in
  Permutation (tags l') (tags l) /\ beside isAfter (ct_id node) (ct_id y) (columns_at pid l').
Proof.
  intros Hnd Hp Hg HL. cbn zeta. unfold move_node.
  rewrite bool_decide_true by done. rewrite !(columns_at_group pid L l) by done.
  destruct (edit_at_tags pid L l Hp Hg) as (a & b & Ht & Hf).
  assert (NoDup (ids L)) as HndL.
  { eapply nodup_list; [rewrite <-ids_tags; exact Hnd|exact Ht]. }
  assert (exists L', move_in (position (ct_id node) L) (position (ct_id y) L) isAfter node L = L' /\
            Permutation (tags L') (tags L) /\ beside isAfter (ct_id node) (ct_id y) L')
    as (L' & <- & Hperm & Hb).
  { destruct isAfter; subst L.
    - rewrite position_at by done.
      replace (pre ++ node :: mid ++ y :: post)%list with ((pre ++ node :: mid) ++ y :: post)%list in HndL
        by (by rewrite <-app_assoc).
      pose proof (position_at _ _ _ HndL) as Hy. rewrite <-app_assoc in Hy. cbn [app] in Hy. rewrite Hy.
      destruct (move_in_moves pre mid post node y) as [-> _]. eexists. split; [reflexivity|]. split.
      + rewrite (tags_insert pre (mid ++ y :: post)).
        replace (pre ++ mid ++ y :: node :: post)%list with ((pre ++ mid ++ [y]) ++ node :: post)%list
          by (by rewrite <-!app_assoc). rewrite tags_insert. by rewrite <-!app_assoc.
      + exists (map ct_id (pre ++ mid)), (map ct_id post). rewrite !map_app. cbn.
        by rewrite <-app_assoc.
    - assert (position (ct_id y) (pre ++ y :: mid ++ node :: post) = Z.of_nat (length pre)) as Hy
        by (by apply position_at).
      replace (pre ++ y :: mid ++ node :: post)%list with ((pre ++ y :: mid) ++ node :: post)%list in HndL
        by (by rewrite <-app_assoc).
      pose proof (position_at _ _ _ HndL) as Hx. rewrite <-app_assoc in Hx. cbn [app] in Hx.
      rewrite Hx, Hy. destruct (move_in_moves pre mid post y node) as [_ ->].
      eexists. split; [reflexivity|]. split.
      + rewrite (tags_insert pre (y :: mid ++ post) node).
        replace (pre ++ y :: mid ++ node :: post)%list with ((pre ++ y :: mid) ++ node :: post)%list
          by (by rewrite <-!app_assoc).
        rewrite (tags_insert (pre ++ y :: mid) post node). by rewrite <-!app_assoc.
      + exists (map ct_id pre), (map ct_id (mid ++ post)). by rewrite map_app. }
  set (f := move_in _ _ _ _) in *.
  assert (Permutation (tags (edit_at pid f l)) (tags l)) as Hall by (by rewrite Hf, Ht, Hperm).
  split; [done|]. rewrite (columns_at_group pid (f L)); [done| |by apply edit_makes_group].
  by eapply tags_present.
Qed.

(** From one group to another: what the first splice makes of the tree. *)
Lemma put_in l pid L q M node y (isAfter : bool) p1 p2 q1 q2 :
  NoDup (ids l) -> present pid l -> group_in pid L l -> present q l -> group_in q M l -> q <> pid ->
  L = (p1 ++ y :: p2)%list -> M = (q1 ++ node :: q2)%list -> node ∈ all_nodes l ->
  ct_id y ∉ ids [node] ->
  let f := splice (position (ct_id y) L + (if isAfter then 1 else 0)) 0 [node] in
  let l1 := edit_at pid f l in
  f L = (if isAfter then p1 ++ y :: node :: p2 else p1 ++ node :: y :: p2)%list /\
  Permutation (tags l1) (tags [node] ++ tags l) /\
  group_in pid (f L) l1 /\
  group_in q (map (edit_in pid f) q1 ++ node :: map (edit_in pid f) q2)%list l1 /\
  present pid l1 /\ present q l1.
Proof.
  intros Hnd Hp Hg Hq HM Hne HL HMq Hnode Hy f l1.
  destruct (edit_at_tags pid L l Hp Hg) as (a & b & Ht & Hf).
  assert (NoDup (ids L)) as HndL.
  { eapply nodup_list; [rewrite <-ids_tags; exact Hnd|exact Ht]. }
  assert (f L = (if isAfter then p1 ++ y :: node :: p2 else p1 ++ node :: y :: p2)%list) as HfL.
  { unfold f. rewrite HL, position_at by (by rewrite <-HL). destruct isAfter.
    - replace (p1 ++ y :: p2)%list with ((p1 ++ [y]) ++ p2)%list by (by rewrite <-app_assoc).
      rewrite splice_in by (rewrite length_app; cbn; lia). by rewrite <-app_assoc.
    - apply splice_in. lia. }
  assert (exists r1 r2, L = (r1 ++ r2)%list /\ f L = (r1 ++ node :: r2)%list) as (r1 & r2 & HLr & HfLr).
  { rewrite HfL, HL. destruct isAfter; [exists (p1 ++ [y])%list, p2|exists p1, (y :: p2)];
      by rewrite <-?app_assoc. }
  assert (Permutation (tags l1) (tags [node] ++ tags l)) as Hperm.
  { unfold l1. rewrite Hf, HfLr, tags_insert, <-HLr, Ht. rewrite !app_assoc.
    do 2 apply Permutation_app_tail. apply Permutation_app_comm. }
  assert (forall k, cnt k (ids l) = 1%nat -> k ∉ ids [node] -> cnt k (ids l1) = 1%nat) as Hcnt.
  { intros k H1 H0%cnt_zero. unfold cnt in *. rewrite !ids_tags in *.
    assert (Permutation (map fst (tags l1)) (map fst (tags [node]) ++ map fst (tags l))) as Hp1
      by (rewrite <-map_app; by apply Permutation_map).
    rewrite (proj1 (Permutation_count_occ String.string_dec _ _) Hp1), count_occ_app. lia. }
  assert (forall k, pid = Some k -> k ∉ ids [node]) as Hk.
  { intros k ->. eapply group_not_below; [exact Hnd|exact Hg|exact Hnode|]. left. exists y.
    split; [|done]. rewrite HL. apply elem_of_app. right. left. }
  assert (forall k, q = Some k -> k ∉ ids [node]) as Hk2.
  { intros k ->. eapply group_not_below; [exact Hnd|exact HM|exact Hnode|]. right. rewrite HMq.
    apply elem_of_app. right. left. }
  split_and!; try done.
  - by apply edit_makes_group.
  - assert (edit_in pid f node = node) as He.
    { destruct pid as [k|]; [|done]. by apply edit_tree_id, Hk. }
    rewrite <-He at 1. change (edit_in pid f node :: map (edit_in pid f) q2)
      with (map (edit_in pid f) (node :: q2)). rewrite <-map_app, <-HMq.
    apply (edit_keeps_group _ _ L); [done..|]. intros j c _. rewrite HfLr, HLr. apply all_nodes_insert.
  - destruct pid as [k|]; [|done]. apply Hcnt; [done|by apply Hk].
  - destruct q as [k|]; [|done]. apply Hcnt; [done|by apply Hk2].
Qed.

(** ... and what the second leaves. *)
Lemma move_node_other l pid L q M node y (isAfter : bool) p1 p2 q1 q2 :
  NoDup (ids l) -> present pid l -> group_in pid L l -> present q l -> group_in q M l -> q <> pid ->
  L = (p1 ++ y :: p2)%list -> M = (q1 ++ node :: q2)%list -> node ∈ all_nodes l ->
  ct_id y ∉ ids [node] ->
  let l' := move_node node q pid (ct_id y) isAfter l in
  Permutation (tags l') (tags l) /\ beside isAfter (ct_id node) (ct_id y) (columns_at pid l').
Proof.
  intros Hnd Hp Hg Hq HM Hne HL HMq Hnode Hy. cbn zeta. unfold move_node.
  rewrite bool_decide_false by done.
  rewrite (columns_at_group pid L l), (columns_at_group q M l) by done.
  destruct (put_in l pid L q M node y isAfter p1 p2 q1 q2) as (HfL & Hperm & Hg1 & HM1 & Hp1 & Hq1);
    try done.
  set (f := splice _ 0 [node]) in *. set (l1 := edit_at pid f l) in *.
  assert (position (ct_id node) M = Z.of_nat (length q1)) as Hpos.
  { rewrite HMq. apply position_at. destruct (edit_at_tags q M l Hq HM) as (a & b & Ht & _).
    rewrite <-HMq. eapply nodup_list; [rewrite <-ids_tags; exact Hnd|exact Ht]. }
  rewrite Hpos. set (M1 := (map (edit_in pid f) q1 ++ node :: map (edit_in pid f) q2)%list) in *.
  set (g := splice (Z.of_nat (length q1)) 1 []).
  assert (g M1 = (map (edit_in pid f) q1 ++ map (edit_in pid f) q2)%list) as HgM.
  { unfold g, M1. apply splice_out. by rewrite length_map. }
  destruct (edit_at_tags q M1 l1 Hq1 HM1) as (a & b & Ht & Hg2).
  assert (Permutation (tags (edit_at q g l1)) (tags l)) as Hall.
  { apply (Permutation_app_inv_l (tags [node])). rewrite <-Hperm, Ht, Hg2, HgM. unfold M1.
    rewrite tags_insert. rewrite !app_assoc. do 2 apply Permutation_app_tail.
    apply Permutation_app_comm. }
  split; [done|].
  rewrite (columns_at_group pid (map (edit_in q g) (f L))).
  - rewrite HfL. exists (map ct_id p1), (map ct_id p2).
    rewrite map_map. rewrite (map_ext _ ct_id) by (intros; apply ct_id_edit).
    destruct isAfter; by rewrite map_app.
  - by eapply tags_present.
  - apply (edit_keeps_group _ _ M1); [done..|]. intros j c ->. rewrite HgM.
    apply (all_nodes_remove _ _ node). cbn.
    eapply group_not_below; [exact Hnd|exact Hg|exact Hnode|]. left. exists y.
    split; [|done]. rewrite HL. apply elem_of_app. right. left.
Qed.
End tree.

(** ** The tree and [g._columns] *)

(** A column with its level, its group, its kind and its property [frozen]. *)
Abbreviation place := (string * (Z * option string * (column_kind * option bool)))%type.

Definition no_kids (kids : list ctree) : bool := match kids with [] => true | _ => false end.
Definition node_frozen (t : ctree) : option bool := frozen_value (no_kids (ct_kids t)) (ct_spec t).

Fixpoint placed (level : Z) (pid : option string) (t : ctree) : list place :=
  match t with
  | CT id c kids =>
      (id, (level, pid, (cs_kind c, frozen_value (no_kids kids) c))) :: flat_map (placed (level + 1) (Some id)) kids
  end.

Definition entry (q : string * column) : place :=
  (q.1, (c_level q.2, c_pid q.2, (cs_kind (c_spec q.2), frozen_value (c_leaf q.2) (c_spec q.2)))).

Lemma map_entry_oset k c c' l : oget k l = Some c -> entry (k, c') = entry (k, c) ->
  map entry (oset k c' l) = map entry l.
Proof.
  intros Hk He. revert Hk. induction l as [|[k1 c1] l IH]; cbn [oget oset]; [done|].
  destruct (decide (k = k1)) as [->|].
  - intros [= ->]. cbn [map]. by rewrite He.
  - intros H. cbn [map]. by rewrite IH.
Qed.

Definition places_right (t : coltree) : Prop := forall level pid prev s n id s',
  setColumn level pid t prev s = (n, id, s') -> reused s' = reused s ->
  map entry (cols s') = (map entry (cols s) ++ placed level pid (label t (columnCount s)).1)%list /\
  columnCount s' = (label t (columnCount s)).2.

Lemma each_places l level pid :
  forallb never_grouped l = true -> Forall places_right l ->
  forall prev m s n prev' s', each_column (setColumn level pid) l prev m s = (n, prev', s') ->
  reused s' = reused s ->
  map entry (cols s')
  = (map entry (cols s) ++ flat_map (placed level pid) (label_all label l (columnCount s)).1)%list /\
  columnCount s' = (label_all label l (columnCount s)).2.
Proof.
  intros Hng Hall. revert Hng. induction Hall as [|t l Ht Hl IH]; intros Hng prev m s n prev' s';
    cbn [each_column label_all].
  - intros [= _ _ <-] _. cbn. by rewrite app_nil_r.
  - cbn in Hng. apply andb_true_iff in Hng as [Hng1 Hng2].
    destruct (setColumn level pid t prev s) as [[m1 kid] s1] eqn:E. intros H Hr.
    assert (reused s <= reused s1) as Hr1 by (by eapply setColumn_all in E as (_ & _ & ? & _)).
    assert (reused s1 <= reused s') as Hr2.
    { eapply (each_column_keeps _ _ (fun _ => True)); [|exact H].
      rewrite forallb_forall in Hng2. apply Forall_forall. intros z Hz%list_elem_of_In.
      intros. split; [|done]. eapply setColumn_all; [by apply Hng2|done]. }
    destruct (Ht _ _ _ _ _ _ _ E ltac:(lia)) as [E1 E2].
    apply IH in H as [H1 H2]; [|done|lia]. rewrite H1, H2, E1, E2.
    destruct (label t (columnCount s)) as [t' n1]. cbn [fst snd].
    destruct (label_all label l n1) as [l' n2]. cbn. by rewrite <-app_assoc.
Qed.

Lemma setColumn_places t : never_grouped t = true -> places_right t.
Proof.
  revert t. fix IH 1. intros [c kids] Hng level pid prev s n id s' H Hr.
  pose proof (setColumn_fresh _ Hng _ _ _ _ _ _ _ H Hr) as Hfresh.
  revert H Hfresh. cbn [setColumn cspec label].
  set (maxl := if columnMaxLevel s <? level then level else columnMaxLevel s).
  set (nid := _createColumnId c (columnCount s + 1)). intros H Hfresh.
  destruct kids as [|k0 ks].
  { injection H as <- <- <-. cbn [cols columnCount label_all fst snd placed flat_map].
    by rewrite (oset_fresh _ _ _ Hfresh), map_app. }
  set (s1 := Columns (oset nid _ (cols s)) _ _ _) in *.
  assert (reused s1 = reused s) as Hr1.
  { unfold reused. cbn. rewrite (oset_fresh _ _ _ Hfresh), length_app. cbn. lia. }
  destruct (each_column _ (k0 :: ks) None 0 s1) as [[n1 pv] s2] eqn:E.
  assert (Forall places_right (k0 :: ks)) as Hall.
  { assert (forallb never_grouped (k0 :: ks) = true) as Hk by exact Hng. revert Hk.
    generalize (k0 :: ks) as l. clear -IH. intros l. induction l as [|t l IHl].
    - intros _. constructor.
    - cbn. intros [Hk1 Hk2]%andb_true_iff. constructor; [by apply IH|by apply IHl]. }
  assert (reused s2 = reused s' /\ map entry (cols s') = map entry (cols s2) /\
          columnCount s' = columnCount s2) as (Hr2 & Hm & Hc).
  { injection H as <- <- <-. destruct (oget nid (cols s2)) as [col|] eqn:Eg; [|done].
    cbn [cols columnCount]. split_and!; [|by apply (map_entry_oset _ col)|done].
    unfold reused. cbn. by rewrite (length_oset_some _ _ _ _ Eg). }
  apply (each_places _ _ _ Hng Hall) in E as [E1 E2]; [|congruence].
  rewrite Hm, Hc, E1, E2. cbn [columnCount s1].
  destruct (label_all label (k0 :: ks) (columnCount s + 1)) as [ks' n'] eqn:El. cbn [fst snd placed].
  assert (no_kids ks' = false) as ->.
  { cbn [label_all] in El. destruct (label k0 _) as [t1 n2], (label_all label ks n2). by injection El as <- _. }
  split; [|done]. cbn [cols s1]. rewrite (oset_fresh _ _ _ Hfresh), map_app. cbn.
  by rewrite <-app_assoc.
Qed.

Lemma label_all_app l M n :
  (label_all label (l ++ M) n).1
  = ((label_all label l n).1 ++ (label_all label M (label_all label l n).2).1)%list.
Proof.
  revert n. induction l as [|t l IH]; intros n; [done|]. cbn [app label_all].
  destruct (label t n) as [t' n1]. specialize (IH n1).
  destruct (label_all label (l ++ M) n1) as [l1 n2]. destruct (label_all label l n1) as [l2 n3].
  cbn in *. by rewrite IH.
Qed.

(** The places of the columns are those of the tree, after the system columns. *)
Lemma _initColumns_places p w columns :
  let s := _initColumns p w columns in
  forallb never_grouped columns = true -> Z.of_nat (length (cols s)) = columnCount s ->
  exists sys, map entry (cols s) = (sys ++ flat_map (placed 1 None) (forest_of p columns))%list /\
              Forall (fun q => q.2.2.1 <> CData) sys.
Proof.
  cbn zeta. intros Hng. unfold _initColumns.
  assert (forallb never_grouped (system_columns p ++ columns) = true) as Hall.
  { rewrite forallb_app, Hng. unfold system_columns.
    by destruct (p_rownumbers p), (p_detail p), (p_checkbox p). }
  destruct (each_column _ _ None 0 (Columns [] 0 0 1)) as [[n pv] s] eqn:E.
  cbn [cols columnCount].
  set (l := map (fun q => (q.1, set_spans (columnMaxLevel s) q.2)) (cols s)).
  intros Hlen.
  assert (forall n i l, length (set_leaves p w n i l) = length l /\
            map entry (set_leaves p w n i l) = map entry l) as Hs.
  { clear. intros n i l. revert i. induction l as [|[id c] l IH]; intros i; [done|]. cbn.
    destruct (c_leaf c); cbn; by rewrite (proj1 (IH _)), (proj2 (IH _)). }
  destruct (Hs (Z.of_nat (length (List.filter (fun q => c_leaf q.2) l))) 0 l) as [Hs1 Hs2].
  rewrite Hs2. assert (map entry l = map entry (cols s)) as ->.
  { unfold l. rewrite map_map. by apply map_ext. }
  apply (each_places _ _ _ Hall) in E as [E _].
  - rewrite E. cbn [cols columnCount map app]. rewrite label_all_app, flat_map_app.
    exists (flat_map (placed 1 None) (label_all label (system_columns p) 0).1).
    unfold forest_of. unfold system_columns.
    destruct (p_rownumbers p), (p_detail p), (p_checkbox p); cbn; split; try done;
      repeat constructor; done.
  - rewrite forallb_forall in Hall. apply Forall_forall. intros t Ht%list_elem_of_In.
    by apply setColumn_places, Hall.
  - unfold reused. cbn. rewrite <-Hlen, Hs1. unfold l. rewrite length_map. lia.
Qed.

Section places.
Implicit Types (l L : list ctree).

Lemma placed_ids lv pid l : map fst (flat_map (placed lv pid) l) = ids l.
Proof.
  assert (forall t lv pid, map fst (placed lv pid t) = ids [t]) as Ht.
  { induction t as [id c kids IH] using ctree_rec_strong. intros lv' pid'. rewrite ids_cons.
    change (ids []) with (@nil string). rewrite app_nil_r. cbn [placed map fst]. f_equal.
    induction IH as [|z l' Hz _ IHl]; [done|]. cbn [flat_map]. by rewrite map_app, Hz, IHl, (ids_first z l'). }
  induction l as [|t l IH]; [done|]. cbn [flat_map]. by rewrite map_app, Ht, IH, (ids_first t l).
Qed.

Lemma placed_map_spec g lv pid l :
  (forall id c, cs_kind (g id c) = cs_kind c /\ cs_frozenOption (g id c) = cs_frozenOption c) ->
  flat_map (placed lv pid) (map (map_spec g) l) = flat_map (placed lv pid) l.
Proof.
  intros Hg. assert (forall t lv pid, placed lv pid (map_spec g t) = placed lv pid t) as Ht.
  { induction t as [id c kids IH] using ctree_rec_strong. intros lv' pid'. cbn.
    unfold frozen_value, cs_frozen. destruct (Hg id c) as [-> ->]. f_equal; [by destruct kids|].
    induction IH as [|z l' Hz _ IHl]; [done|]. cbn. by rewrite Hz, IHl. }
  induction l as [|t l IH]; [done|]. cbn. by rewrite Ht, IH.
Qed.

(** Where a place comes from. *)
Definition at_place lv0 pid0 l (q : place) : Prop :=
  exists n, ct_id n = q.1 /\ node_frozen n = q.2.2.2 /\ n ∈ all_nodes l /\
  ((q.2.1 = (lv0, pid0) /\ n ∈ l) \/
   exists k c L, q.2.1.2 = Some k /\ CT k c L ∈ all_nodes l /\ n ∈ L /\
     exists r, (k, (q.2.1.1 - 1, r.1, r.2)) ∈ flat_map (placed lv0 pid0) l).

Lemma at_place_sub lv pid l q z : z ∈ l -> at_place lv pid [z] q -> at_place lv pid l q.
Proof.
  assert (forall n, z ∈ l -> n ∈ all_nodes [z] -> n ∈ all_nodes l) as Hsub.
  { intros n Hz (y & ->%list_elem_of_singleton & Hn)%all_nodes_elem. apply all_nodes_elem. by exists z. }
  intros Hz (n & H1 & H2 & H3 & H4). exists n. split_and!; [done..|by apply Hsub|].
  destruct H4 as [[? ->%list_elem_of_singleton]|(k & c & L & H5 & H6 & H7 & r & H8)]; [by left|].
  right. exists k, c, L. split_and!; [done|by apply Hsub|done|]. exists r.
  cbn in H8. rewrite app_nil_r in H8. apply list_elem_of_In, in_flat_map. exists z.
  by rewrite <-!list_elem_of_In.
Qed.

Lemma placed_at lv pid l q : q ∈ flat_map (placed lv pid) l -> at_place lv pid l q.
Proof.
  assert (forall t lv pid q, q ∈ placed lv pid t -> at_place lv pid [t] q) as Ht.
  { induction t as [id c kids IH] using ctree_rec_strong. intros lv' pid' q'. cbn [placed].
    intros [->|Hq]%elem_of_cons.
    { exists (CT id c kids). cbn. split_and!; [done..|left|]. left. split; [done|left]. }
    assert (at_place (lv' + 1) (Some id) kids q') as (n & H1 & H2 & H3 & H4).
    { apply list_elem_of_In, in_flat_map in Hq as (z & Hz%list_elem_of_In & Hq%list_elem_of_In).
      rewrite Forall_forall in IH. by eapply at_place_sub; [|apply IH]. }
    assert (forall m, m ∈ all_nodes kids -> m ∈ all_nodes [CT id c kids]) as Hsub.
    { intros m Hm. unfold all_nodes at 1. cbn. rewrite app_nil_r. by right. }
    exists n. split_and!; [done..|by apply Hsub|]. right.
    destruct H4 as [[H4 H5]|(k & c0 & L & H5 & H6 & H7 & r & H8)].
    - exists id, c, kids. rewrite H4. split_and!; [done| |done|].
      + unfold all_nodes. cbn. left.
      + exists (pid', (cs_kind c, frozen_value (no_kids kids) c)). cbn. replace (lv' + 1 - 1) with lv' by lia. left.
    - exists k, c0, L. split_and!; [done|by apply Hsub|done|]. exists r. cbn. rewrite app_nil_r.
      by right. }
  intros (z & Hz%list_elem_of_In & Hq%list_elem_of_In)%list_elem_of_In%in_flat_map.
  by eapply at_place_sub; [|apply Ht].
Qed.

Lemma place_unique lv pid l (q q' : place) :
  NoDup (ids l) -> q ∈ flat_map (placed lv pid) l -> q' ∈ flat_map (placed lv pid) l ->
  q.1 = q'.1 -> q = q'.
Proof.
  rewrite <-(placed_ids lv pid). generalize (flat_map (placed lv pid) l) as xs.
  intros xs Hnd (i & Hi)%list_elem_of_lookup (j & Hj)%list_elem_of_lookup He.
  assert (i = j) as ->; [|congruence].
  eapply NoDup_lookup; [exact Hnd|by rewrite list_lookup_fmap, Hi|].
  by rewrite list_lookup_fmap, Hj, He.
Qed.

(** Columns of one group are on one level, and in its array. *)
Lemma same_group_level l (q q' : place) :
  NoDup (ids l) -> q ∈ flat_map (placed 1 None) l -> q' ∈ flat_map (placed 1 None) l ->
  q.2.1.2 = q'.2.1.2 -> q.2.1.1 = q'.2.1.1.
Proof.
  intros Hnd (n & _ & _ & _ & Hn)%placed_at (m & _ & _ & _ & Hm)%placed_at He.
  destruct Hn as [[Hn _]|(k & c & L & Hn & _ & _ & r & Hr)],
           Hm as [[Hm _]|(k' & c' & L' & Hm & _ & _ & r' & Hr')].
  - by rewrite Hn, Hm.
  - rewrite Hn, Hm in He. done.
  - rewrite Hn, Hm in He. done.
  - assert (k = k') as <- by congruence.
    pose proof (place_unique _ _ _ _ _ Hnd Hr Hr' eq_refl) as H. injection H as H _ _. lia.
Qed.

Lemma place_group l (q : place) :
  q ∈ flat_map (placed 1 None) l ->
  exists n L, ct_id n = q.1 /\ node_frozen n = q.2.2.2 /\ n ∈ all_nodes l /\
              group_in q.2.1.2 L l /\ n ∈ L.
Proof.
  intros (n & H1 & H2 & H3 & H4)%placed_at. exists n.
  destruct H4 as [[H4 H5]|(k & c & L & H5 & H6 & H7 & _)].
  - exists l. by rewrite H4.
  - exists L. rewrite H5. split_and!; [done..|by exists c|done].
Qed.
End places.

(** ** What a drag can drop on *)

Section drops.
Context (p : column_options) (s : columns_state).
Context (gridTop gridLeft gridWidth headerHeight : Z) (cell_box : string -> Z * Z * Z * Z).

(** The drop is on another column of the user's, on the side its position tells. *)
Definition good_drop (x : column) (d : coldrag) : Prop :=
  forall k, dropping d = Some k ->
  exists pre kc post, cols s = (pre ++ (k, kc) :: post)%list /\ issystem kc = false /\ k <> c_id x /\
    d_dropRight d = isAfter_of x kc (bool_decide (c_id x ∈ okeys pre)).

Lemma over_columns_good x mx my l : forall visit pre d,
  cols s = (pre ++ l)%list -> visit = bool_decide (c_id x ∈ okeys pre) -> good_drop x d ->
  good_drop x (over_columns p cell_box x visit l mx my d).
Proof.
  induction l as [|[id col] l IH]; intros visit pre d Hs Hv Hd; [done|]. cbn [over_columns].
  assert (cols s = ((pre ++ [(id, col)]) ++ l)%list) as Hs' by (by rewrite <-app_assoc).
  assert (okeys (pre ++ [(id, col)]) = (okeys pre ++ [id])%list) as Hk
    by (unfold okeys; by rewrite map_app).
  destruct (String.eqb id (c_id x)) eqn:E.
  { apply String.eqb_eq in E. eapply IH; [exact Hs'| |done]. symmetry. apply bool_decide_eq_true.
    rewrite Hk, elem_of_app. right. rewrite E. left. }
  assert (id <> c_id x) as Hne by (intros ->; by rewrite String.eqb_refl in E).
  assert (visit = bool_decide (c_id x ∈ okeys (pre ++ [(id, col)]))) as Hv'.
  { rewrite Hv. apply bool_decide_ext. rewrite Hk, elem_of_app, list_elem_of_singleton.
    split; [by left|intros [|]; congruence]. }
  destruct (issystem col) eqn:Esys; [by eapply IH|].
  assert (good_drop x (dset_drop (Some (Some id)) (isAfter_of x col visit)
            (Some (tip_of p cell_box id col (isAfter_of x col visit))) true d)) as Hdrop.
  { intros k [= <-]. exists pre, col, l. by rewrite <-Hv. }
  destruct (dropping d) as [k|] eqn:Ed.
  - destruct (negb _); [by eapply IH|]. destruct (over_border _ _ _ _ _); [done|].
    eapply IH; [done..|]. by intros k'.
  - destruct (over_border _ _ _ _ _); [done|]. by eapply IH.
Qed.

Lemma onDrag_good x b mx my d :
  d_column d = Some (c_id x) -> oget (c_id x) (cols s) = Some x -> good_drop x d ->
  let d' := (onDrag p s cell_box b mx my d).2 in
  d_column d' = Some (c_id x) /\ good_drop x d'.
Proof.
  intros Hx Hg Hd. cbn zeta. unfold onDrag. rewrite Hx. cbn [mbind option_bind]. rewrite Hg.
  destruct b; [done|].
  set (d1 := match d_dropIn d with None => _ | Some _ => d end).
  assert (d_column d1 = Some (c_id x) /\ good_drop x d1 /\ d_range d1 = d_range d) as (H1 & H2 & H3).
  { unfold d1. destruct (d_dropIn d); [done|]. split_and!; [done| |done]. by intros k. }
  rewrite H3. destruct (d_range d) as [[[top bottom] lft] rgt].
  destruct (_ || _ || _ || _); cbn [snd].
  - split; [done|]. by intros k.
  - split; [|by eapply over_columns_good with (pre := [])].
    assert (forall l visit d, d_column (over_columns p cell_box x visit l mx my d) = d_column d) as Hcol.
    { clear. induction l as [|[id col] l IH]; intros visit d; [done|]. cbn [over_columns].
      destruct (String.eqb _ _); [done|]. destruct (issystem col); [done|].
      destruct (dropping d); [destruct (negb _); [done|]|];
        (destruct (over_border _ _ _ _ _); [done|]); by rewrite IH. }
    by rewrite Hcol.
Qed.

Lemma drags_good x moves d :
  d_column d = Some (c_id x) -> oget (c_id x) (cols s) = Some x -> good_drop x d ->
  let d' := fold_left (fun d m => (onDrag p s cell_box m.1.1 m.1.2 m.2 d).2) moves d in
  d_column d' = Some (c_id x) /\ good_drop x d'.
Proof.
  revert d. induction moves as [|m moves IH]; intros d Hx Hg Hd; [done|]. cbn [fold_left].
  destruct (onDrag_good x m.1.1 m.1.2 m.2 d Hx Hg Hd). by apply IH.
Qed.
End drops.

Lemma settle_keeps s id c :
  cs_kind (settle_spec s id c) = cs_kind c /\ cs_frozenOption (settle_spec s id c) = cs_frozenOption c.
Proof. unfold settle_spec. by destruct (oget id (cols s)). Qed.

Lemma with_frozen_same c : with_frozen (cs_frozenOption c) c = c.
Proof. by destruct c. Qed.

Lemma placed_settle s lv pid l :
  flat_map (placed lv pid) (map (settle s) l) = flat_map (placed lv pid) l.
Proof.
  rewrite <-(map_map coerce (map_spec (settle_spec s))), placed_map_spec by apply settle_keeps.
  assert (forall t lv pid, placed lv pid (coerce t) = placed lv pid t) as Ht.
  { induction t as [id c kids IH] using ctree_rec_strong. intros lv' pid'. cbn. f_equal.
    - by destruct kids.
    - induction IH as [|z l' Hz _ IHl]; [done|]. cbn. by rewrite Hz, IHl. }
  induction l as [|t l IH]; [done|]. cbn. by rewrite Ht, IH.
Qed.

(** After it [frozen] is what the code reads. *)
Lemma settle_frozen s l n : n ∈ all_nodes (map (settle s) l) -> cs_frozenOption (ct_spec n) = node_frozen n.
Proof.
  assert (forall t n, n ∈ nodes (settle s t) -> cs_frozenOption (ct_spec n) = node_frozen n) as Ht.
  { induction t as [id c kids IH] using ctree_rec_strong. intros m. unfold settle. cbn [coerce map_spec nodes].
    intros [->|Hm]%elem_of_cons.
    - unfold node_frozen, frozen_value, cs_frozen. cbn [ct_spec ct_kids].
      destruct kids as [|k kids]; cbn [map no_kids]; [|done].
      by rewrite (proj2 (settle_keeps s id (with_frozen (Some (default false (cs_frozenOption c))) c))).
    - apply list_elem_of_In, in_flat_map in Hm as (z & Hz & Hm%list_elem_of_In).
      rewrite map_map, in_map_iff in Hz. destruct Hz as (k & <- & Hk%list_elem_of_In).
      rewrite Forall_forall in IH. by apply (IH k Hk). }
  intros (z & (t & -> & _)%list_elem_of_fmap & Hn)%all_nodes_elem. by apply (Ht t).
Qed.

Lemma map_spec_same g l :
  (forall n, n ∈ all_nodes l -> g (ct_id n) (ct_spec n) = ct_spec n) -> map (map_spec g) l = l.
Proof.
  assert (forall t, (forall n, n ∈ nodes t -> g (ct_id n) (ct_spec n) = ct_spec n) ->
            map_spec g t = t) as Ht.
  { induction t as [id c kids IH] using ctree_rec_strong. intros H. cbn.
    pose proof (H (CT id c kids) ltac:(left)) as H0. cbn in H0. rewrite H0. f_equal. rewrite <-(map_id kids) at 2.
    apply map_ext_in. intros z Hz%list_elem_of_In. rewrite Forall_forall in IH. apply IH; [done|].
    intros n Hn. apply H. right. apply all_nodes_elem. by exists z. }
  intros H. rewrite <-(map_id l) at 2. apply map_ext_in. intros z Hz%list_elem_of_In. apply Ht.
  intros n Hn. apply H, all_nodes_elem. by exists z.
Qed.

Lemma split_unique {A} (a b c d : list A) y :
  NoDup (a ++ y :: b) -> (a ++ y :: b = c ++ y :: d)%list -> a = c.
Proof.
  revert c. induction a as [|x a IH]; intros [|z c]; cbn; try done.
  - intros [Hn _]%NoDup_cons [= <- ->]. exfalso. apply Hn, elem_of_app. right. left.
  - intros [Hn _]%NoDup_cons [= <- _]. exfalso. apply Hn, elem_of_app. right. left.
  - intros [_ Hnd]%NoDup_cons [= <- H]. f_equal. by apply (IH c).
Qed.

(** A column dropped: the two columns and the side, as the tree has them. *)
Lemma change_forest_spec s l x y xc yc (isAfter : bool) :
  NoDup (ids l) -> (forall n, n ∈ all_nodes l -> cs_frozenOption (ct_spec n) = node_frozen n) ->
  entry (x, xc) ∈ flat_map (placed 1 None) l -> entry (y, yc) ∈ flat_map (placed 1 None) l ->
  oget x (cols s) = Some xc -> oget y (cols s) = Some yc -> x <> y ->
  frozen_value (c_leaf xc) (c_spec xc) = frozen_value (c_leaf yc) (c_spec yc) ->
  (forall n, find_node x l = Some n -> y ∉ ids [n]) ->
  (forall L n m p1 p2 p3, c_pid xc = c_pid yc -> ct_id n = x -> ct_id m = y ->
     (L = p1 ++ n :: p2 ++ m :: p3 -> group_in (c_pid yc) L l -> isAfter = true)%list /\
     (L = p1 ++ m :: p2 ++ n :: p3 -> group_in (c_pid yc) L l -> isAfter = false)%list) ->
  exists l', change_forest s x y isAfter l = Some l' /\ Permutation (tags l') (tags l) /\
             beside isAfter x y (columns_at (c_pid yc) l').
Proof.
  intros Hnd Hset Hx Hy Hgx Hgy Hne Hfr Hbelow Hside.
  destruct (place_group _ _ Hx) as (n & Lx & Hn1 & Hn2 & Hn3 & Hn4 & Hn5).
  destruct (place_group _ _ Hy) as (m & Ly & Hm1 & Hm2 & Hm3 & Hm4 & Hm5).
  cbn in Hn1, Hn2, Hn4, Hm1, Hm2, Hm4.
  assert (forall k t, t ∈ all_nodes l -> ct_id t = k -> find_node k l = Some t) as Hfind.
  { intros k t Ht <-. apply find_node_once; [|done]. apply cnt_nodup; [done|by apply ids_node]. }
  assert (forall pid L, group_in pid L l -> present pid l) as Hpres.
  { intros [k|] L; [|done]. intros [c Hc]. apply cnt_nodup; [done|].
    exact (ids_node (CT k c L) l Hc). }
  unfold change_forest. rewrite Hgx, Hgy. cbn [mbind option_bind]. rewrite (Hfind y m Hm3 Hm1).
  cbn [mbind option_bind].
  assert (map (set_frozen x (cs_frozenOption (ct_spec m))) l = l) as ->.
  { apply map_spec_same. intros t Ht. destruct (String.eqb x (ct_id t)) eqn:E; [|done].
    apply String.eqb_eq in E. assert (t = n) as -> by (apply (node_unique _ _ l); congruence || done).
    rewrite Hset by done. rewrite Hm2, <-Hfr, <-Hn2, <-Hset by done. apply with_frozen_same. }
  rewrite (Hfind x n Hn3 Hn1). cbn [mbind option_bind]. eexists. split; [reflexivity|].
  assert (ct_id m ∉ ids [n]) as Hmn by (rewrite Hm1; by apply Hbelow, Hfind).
  rewrite <-Hn1, <-Hm1. destruct (decide (c_pid xc = c_pid yc)) as [He|He].
  - rewrite He in *. assert (Lx = Ly) as -> by
      (rewrite <-(columns_at_group _ Lx l), <-(columns_at_group _ Ly l) by eauto; done).
    pose proof Hm5 as (i & Hi)%list_elem_of_lookup. pose proof Hn5 as (j & Hj)%list_elem_of_lookup.
    assert (n <> m) as Hnm by (intros ->; congruence).
    apply list_elem_of_split in Hn5 as (p1 & p2 & HL). rewrite HL in Hm5.
    apply elem_of_app in Hm5 as [Hin|[Hin|Hin]%elem_of_cons]; [|congruence|];
      apply list_elem_of_split in Hin as (r1 & r2 & ->).
    + rewrite <-app_assoc in HL. cbn in HL.
      destruct (Hside Ly n m r1 r2 p2 eq_refl Hn1 Hm1) as [_ Hs]. specialize (Hs HL Hm4). subst isAfter.
      by eapply (move_node_same l _ Ly n m false r1 r2 p2); eauto.
    + destruct (Hside Ly n m p1 r1 r2 eq_refl Hn1 Hm1) as [Hs _]. specialize (Hs HL Hm4). subst isAfter.
      by eapply (move_node_same l _ Ly n m true p1 r1 r2); eauto.
  - apply list_elem_of_split in Hn5 as (q1 & q2 & HLx). apply list_elem_of_split in Hm5 as (p1 & p2 & HLy).
    by eapply (move_node_other l _ Ly _ Lx n m isAfter p1 p2 q1 q2); eauto.
Qed.

Lemma onStartDrag_column s top lft width height b e d0 :
  cols_ok s -> let start := onStartDrag s top lft width height b e d0 in start.1 = true ->
  exists xc, oget (c_id xc) (cols s) = Some xc /\ issystem xc = false /\
             d_column start.2 = Some (c_id xc) /\ dropping start.2 = dropping d0.
Proof.
  intros Hok. cbn zeta. unfold onStartDrag. destruct (m_right e || b); [done|].
  destruct (m_column e) as [k|]; [|done]. cbn [mbind option_bind].
  destruct (oget k (cols s)) as [xc|] eqn:Ek; [|done]. pose proof (ok_keys _ Hok _ _ Ek) as <-.
  destruct (issystem xc) eqn:Es; [done|]. destruct (m_text e), (m_resizeCursor e); try done.
  intros _. by exists xc.
Qed.

Lemma sibling_order pid L l p1 p2 p3 n m :
  NoDup (ids l) -> group_in pid L l -> L = (p1 ++ n :: p2 ++ m :: p3)%list ->
  exists A B C, ids l = (A ++ ct_id n :: B ++ ct_id m :: C)%list.
Proof.
  intros Hnd Hg HL. assert (present pid l) as Hp.
  { destruct pid as [k|]; [|done]. destruct Hg as [c Hc]. apply cnt_nodup; [done|].
    exact (ids_node (CT k c L) l Hc). }
  destruct (edit_at_tags pid L l Hp Hg) as (a & b & Ht & _).
  destruct n as [x cx kx], m as [y cy ky].
  exists (map fst a ++ ids p1)%list, (ids kx ++ ids p2)%list, (ids ky ++ ids p3 ++ map fst b)%list.
  rewrite ids_tags, Ht, !map_app, <-ids_tags, HL, ids_app, ids_cons, ids_app, ids_cons.
  cbn [ct_id app]. repeat (rewrite <-app_assoc; cbn [app]). reflexivity.
Qed.

(** Among the columns of a group, the dragged one was met before exactly the ones on
    its right. *)
Lemma met_before (l : list ctree) (front : list string) pid L x y (pre post : list string) :
  NoDup (front ++ ids l) -> (front ++ ids l = pre ++ y :: post)%list ->
  group_in pid L l -> forall n m p1 p2 p3, ct_id n = x -> ct_id m = y ->
  ((L = p1 ++ n :: p2 ++ m :: p3)%list -> x ∈ pre) /\
  ((L = p1 ++ m :: p2 ++ n :: p3)%list -> x ∉ pre).
Proof.
  intros Hnd He Hg n m p1 p2 p3 <- <-.
  pose proof Hnd as (_ & _ & Hndl)%NoDup_app. split; intros HL;
    destruct (sibling_order _ _ _ _ _ _ _ _ Hndl Hg HL) as (A & B & C & Hids);
    rewrite Hids in Hnd, He.
  - assert ((front ++ A ++ ct_id n :: B) = pre)%list as <-.
    { eapply (split_unique _ C _ post (ct_id m)); rewrite <-?app_assoc; cbn; rewrite <-?app_assoc; done. }
    apply elem_of_app. right. apply elem_of_app. right. left.
  - assert ((front ++ A) = pre)%list as <-.
    { eapply (split_unique _ (B ++ ct_id n :: C) _ post (ct_id m)); rewrite <-app_assoc; done. }
    intros Hin. rewrite app_assoc in Hnd. apply NoDup_app in Hnd as (_ & Hd & _).
    apply (Hd _ Hin). right. apply elem_of_app. right. left.
Qed.


(** ** Examples *)

Definition demo_box (id : string) : Z * Z * Z * Z :=
  if String.eqb id "c102" then (0, 26, 160, 23)
  else if String.eqb id "c103" then (23, 26, 80, 23)
  else if String.eqb id "c104" then (23, 106, 80, 23)
  else (0, 186, 80, 46).

Definition demo_drag : coldrag := ColDrag None false None false None false (0, 0, 0, 0).

Definition demo_drop (s : columns_state) (id : string) (moves : list (bool * Z * Z)) : coldrag :=
  fold_left (fun d m => (onDrag demo_column_options s demo_box m.1.1 m.1.2 m.2 d).2) moves
    (onStartDrag s 0 0 600 46 false (Press false (Some id) false false) demo_drag).2.

Definition names_of (columns : list coltree) : list (option string) :=
  map (fun t => cs_name (ct_spec t)) (all_nodes (forest_of demo_column_options columns)).


(** Dropped on one of its own columns, a group is lost with all its columns. *)
Example group_dropped_inside :
  (onStopDrag (demo_drop demo_cols "c102" [(false, 100, 30)])).1 = Some ("c102", "c103", true) /\
  option_map (fun st => names_of (k_columns st))
    (changeCol demo_column_options 600 "c102" "c103" true (ColState demo_columns demo_cols))
  = Some [Some "c"].
Proof. vm_compute. done. Qed.

(** A frozen column dropped on one that is not frozen and stands before it: the column
    on its left is lost, and the dragged one is there twice. *)
Definition frozen_columns : list coltree :=
  [demo_col "a" []; demo_col "b" [];
   Col (ColSpec None CData (Some "f") None (WNum 80) 0 0 (Some true) false None None None 0 false 0) []].
Definition frozen_cols : columns_state := _initColumns demo_column_options 600 frozen_columns.

Example frozen_dropped_before :
  (onStopDrag (demo_drop frozen_cols "c104" [(false, 186, 10)])).1 = Some ("c104", "c102", true) /\
  option_map (fun st => names_of (k_columns st))
    (changeCol demo_column_options 600 "c104" "c102" true (ColState frozen_columns frozen_cols))
  = Some [Some "a"; Some "f"; Some "f"].
Proof. vm_compute. done. Qed.

(** A group without the option [frozen] is no equal of a column: a later column dropped on
    its border goes behind it, the one on the column's left is lost, and the dragged one
    is there twice. *)
Definition group_first : list coltree := [demo_col "g" [demo_col "x" []]; demo_col "a" []; demo_col "b" []].
Definition group_first_cols : columns_state := _initColumns demo_column_options 600 group_first.

Example dropped_on_group :
  (onStopDrag (demo_drop group_first_cols "c105" [(false, 186, 10)])).1 = Some ("c105", "c102", true) /\
  option_map (fun st => names_of (k_columns st))
    (changeCol demo_column_options 600 "c105" "c102" true (ColState group_first group_first_cols))
  = Some [Some "g"; Some "x"; Some "b"; Some "b"].
Proof. vm_compute. done. Qed.

(** Moving any column shows the columns again that were hidden. *)
Example moving_shows_hidden :
  let st := ColState demo_columns (toggleCol (CPStr "b") false (demo_cols, Widths 0 0)).1 in
  hidden (k_state st) "c104" = true /\
  option_map (fun st => (names_of (k_columns st), map c_hide (getColumns None (k_state st))))
    (changeCol demo_column_options 600 "c105" "c102" false st)
  = Some ([Some "c"; Some "g"; Some "a"; Some "b"], [false; false; false; false]).
Proof. vm_compute. done. Qed.
