(* ===== verification/GridHtml.v ===== *)
(** * ligerGrid: the rows as HTML

    The markup of rows, cells, tree cells, groups and totals, as the strings the
    grid puts into the page. *)

From S2P Require Import Prelude JsString JsNum GridHeap GridRows GridShow GridSort GridCols.
From Stdlib Require Import Ascii.
Local Open Scope string_scope.
Local Open Scope Z_scope.

Definition cat (l : list string) : string := join "" l.

(** A double quote. *)
Definition dq : string := String "034" "".

Record html_options := HtmlOptions {
  h_id : string;                       (* g.id *)
  h_alternatingRow : bool;
  h_fixedCellHeight : bool;
  h_rowHeight : Z;
  h_treeColumnName : option string;
  h_treeColumnId : option string;
  h_groupColumnName : string;
  h_groupColumnDisplay : string
}.

Section html.
Context (p : options) (o : html_options) (fuel : nat) (ctrlKey : bool).
(** What the user may supply: the check of a check box, attributes of a row, the
  renderers of columns, the formatters by type, and [p.tree.isParent]. *)
Context (isChecked : option (row -> bool)) (rowAttrRender : option (row -> string)).
Context (render : string -> option (row -> jval -> string)).
Context (groupRender : option (jval -> list rref -> string)).
Context (formatters : string -> option (jval -> string)).
Context (isParent : row -> bool).
Context (changedCells : string -> bool).

Definition id_text (id : option string) : string := default "undefined" id.

Definition _getRowDomId (r : row) (frozen : bool) : string :=
cat [h_id o; "|"; if frozen then "1" else "2"; "|"; id_text (r_id r)].

Definition _getCellDomId (r : row) (c : column) : string :=
cat [_getRowDomId r (cs_frozen (c_spec c)); "|"; c_id c].

Definition index_text (r : row) : string :=
match r_index r with Some i => show_Z (i + 1) | None => "NaN" end.

(** [_getTreeCellHtml]: a space for every level above, then the link; the link of
  a parent is drawn closed. *)
Definition _getTreeCellHtml (oldContent : string) (r : row) : string :=
let level := match r_level r with Some l => if l =? 0 then 1 else l | None => 1 end in
cat [str_repeat (Z.to_nat (level - 1)) "<div class='l-grid-tree-space'></div>";
     if isParent r
     then "<div class='l-grid-tree-space l-grid-tree-link l-grid-tree-link-close'></div>"
     else "<div class='l-grid-tree-space'></div>";
     "<span class='l-grid-tree-content'>"; oldContent; "</span>"].

Definition is_tree_column (c : column) : bool :=
o_tree p &&
((bool_decide (is_Some (h_treeColumnName o)) && bool_decide (h_treeColumnName o = cs_name (c_spec c)))
 || (bool_decide (is_Some (h_treeColumnId o)) && bool_decide (h_treeColumnId o = cs_id (c_spec c)))).

Definition _getCellContent (r : row) (c : column) : string :=
match cs_kind (c_spec c) with
| CRownumber => index_text r
| _ =>
    let value := match col_name c with Some n => prop n r | None => VNull end in
    let content :=
      match render (c_id c) with
      | Some f => f r value
      | None => match formatters (c_type c) with
                | Some f => f value
                | None => if is_nil value then "" else jstr value
                end
      end in
    if is_tree_column c then _getTreeCellHtml content r else content
end.

Definition _getCellHtml (r : row) (c : column) : string :=
match cs_kind (c_spec c) with
| CRownumber => cat ["<div class="; dq; "l-grid-row-cell-inner"; dq; ">"; index_text r; "</div>"]
| _ =>
    let h := show_Z (h_rowHeight o) in
    cat ["<div class="; dq; "l-grid-row-cell-inner"; dq;
         " style = "; dq; "width:"; show_Z (c_width c - 8); "px;";
         if h_fixedCellHeight o then cat ["height:"; h; "px;min-height:"; h; "px; "] else "";
         match truthy_str (cs_align (c_spec c)) with Some a => cat ["text-align:"; a; ";"] | None => "" end;
         dq; ">"; _getCellContent r c; "</div>"]
end.

(** The cell of a system column. *)
Definition system_cell (kind inner : string) (r : row) (c : column) : string :=
cat [" class="; dq; "l-grid-row-cell l-grid-row-cell-"; kind; dq; " style="; dq; "width:";
     match cs_width (c_spec c) with WNum w => show_Z w | _ => "undefined" end; "px"; dq;
     "><div class="; dq; "l-grid-row-cell-inner"; dq;
     if h_fixedCellHeight o
     then cat [" style = "; dq; "height:"; show_Z (h_rowHeight o); "px;"; dq; " "] else "";
     ">"; inner; "</div></td>"].

Definition cell_html (r : row) (frozen : bool) (c : column) : string :=
if negb (Bool.eqb frozen (cs_frozen (c_spec c))) then ""
else
  cat ["<td id="; dq; _getCellDomId r c; dq;
    match cs_kind (c_spec c) with
    | CRownumber => system_cell "rownumbers" (index_text r) r c
    | CCheckbox => system_cell "checkbox"
        (cat ["<span class="; dq; "l-grid-row-cell-btn-checkbox"; dq; "></span>"]) r c
    | CDetail => system_cell "detail"
        (cat ["<span class="; dq; "l-grid-row-cell-detailbtn"; dq; "></span>"]) r c
    | CData =>
        cat [" class="; dq; "l-grid-row-cell ";
             if changedCells (cat [id_text (r_id r); "_"; c_id c]) then "l-grid-row-cell-edited " else "";
             if c_islast c then "l-grid-row-cell-last " else ""; dq;
             " style = "; dq; "width:"; show_Z (c_width c); "px; ";
             if c_hide c then "display:none;" else ""; " "; dq; ">";
             _getCellHtml r c; "</td>"]
    end].

(** Whether a row above is collapsed. *)
Fixpoint isHide (n : nat) (r : rref) (g : grid) : bool :=
match n with
| O => false
| S n' =>
    match getParent p (PRow r) g with
    | None => false
    | Some pr => if inArray pr (default [] (collapsedRows g)) =? -1 then isHide n' pr g else true
    end
end.

Definition row_hidden (r : rref) (g : grid) : bool :=
o_tree p && negb (bool_decide (default [] (collapsedRows g) = [])) && isHide fuel r g.

(** One row; a checked row is selected on the way. *)
Definition row_html (cs : list column) (frozen : bool) (r : rref) (g : grid)
  : res (string * grid) :=
x ← row_at (heap g) r;
let checked := negb frozen && o_checkbox p && match isChecked with Some f => f x | None => false end in
g ← (if checked then select p ctrlKey (PRow r) g else Ok g);
let sel := checked || isSelected (PRow r) g in
Ok (cat ["<tr id="; dq; _getRowDomId x frozen; dq; " class="; dq; "l-grid-row";
         if sel then " l-selected" else "";
         if match r_index x with Some i => Z.rem i 2 =? 1 | None => false end && h_alternatingRow o
         then " l-grid-row-alt" else ""; dq; " ";
         match rowAttrRender with Some f => f x | None => "" end;
         if row_hidden r g then cat [" style="; dq; "display:none;"; dq; " "] else "";
         ">"; cat (map (cell_html x frozen) cs); "</tr>"], g).

Fixpoint _getHtmlFromData (cs : list column) (frozen : bool) (data : list rref) (g : grid)
  : res (string * grid) :=
match data with
| [] => Ok ("", g)
| r :: data' =>
    hd ← row_html cs frozen r g;
    tl ← _getHtmlFromData cs frozen data' hd.2;
    Ok (hd.1 ++ tl.1, tl.2)
end.

(** ** Totals *)

Record summary := Summary { sm_sum : num; sm_count : Z; sm_min : num; sm_max : num; sm_avg : num }.

(** The loop: zeros and text that is not a number count, and change nothing
  else. *)
Fixpoint total_loop (vs : list num) (s : summary) : summary :=
match vs with
| [] => s
| v :: vs' =>
    let s := Summary (sm_sum s) (sm_count s + 1) (sm_min s) (sm_max s) (sm_avg s) in
    total_loop vs'
      (if negb (num_truthy v) then s
       else Summary (sm_sum s + v)%num (sm_count s)
              (if (v < sm_min s)%num then v else sm_min s)
              (if (sm_max s < v)%num then v else sm_max s) (sm_avg s))
end.

(** No rows at all is a [TypeError]: the first row is read. *)
Definition total_of (vs : list num) : res summary :=
v0 ← of_option (head vs);
let s := total_loop vs (Summary 0%float 0 v0 v0 nan) in
Ok (Summary (sm_sum s) (sm_count s) (sm_min s) (sm_max s)
      (sm_sum s * 1%float / num_of_Z (Z.of_nat (length vs)))%num).

Definition wants (types : list string) (ty : string) : bool :=
existsb (fun t => String.eqb (lower t) ty) types.

Definition total_html (types : list string) (s : summary) : string :=
let line name v := if wants types (lower name) then cat ["<div>"; name; "="; v; "</div>"] else "" in
cat [line "Sum" (toFixed 2 (sm_sum s)); line "Count" (show_Z (sm_count s));
     line "Max" (toFixed 2 (sm_max s)); line "Min" (toFixed 2 (sm_min s));
     line "Avg" (toFixed 2 (sm_avg s))].

Definition column_values (c : column) (data : list rref) (h : store) : list num :=
map (fun r => match rowh h !! r with
              | Some x => value_float (prop (default "undefined" (cs_name (c_spec c))) x)
              | None => nan end) data.

(** The totals a column's own function draws. *)
Context (totalRender : string -> option (summary -> string)).

Definition _getTotalCellContent (c : column) (data : list rref) (h : store) : res string :=
match cs_totalSummary (c_spec c) with
| None => Ok ""
| Some types =>
    s ← total_of (column_values c data h);
    Ok (match totalRender (c_id c) with
        | Some f => f s
        | None => total_html (split_on "," types) s
        end)
end.

Definition total_cell (data : list rref) (h : store) (totalNumber : Z) (i : Z) (frozen : bool)
  (c : column) : res string :=
if negb (Bool.eqb (cs_frozen (c_spec c)) frozen) then Ok ""
else
  let system kind :=
    cat ["<td class="; dq; "l-grid-totalsummary-cell l-grid-totalsummary-cell-"; kind; dq;
         " style="; dq; "width:";
         match cs_width (c_spec c) with WNum w => show_Z w | _ => "undefined" end;
         "px"; dq; "><div>&nbsp;</div></td>"] in
  match cs_kind (c_spec c) with
  | CRownumber => Ok (system "rownumbers")
  | CCheckbox => Ok (system "checkbox")
  | CDetail => Ok (system "detail")
  | CData =>
      content ← _getTotalCellContent c data h;
      Ok (cat ["<td class="; dq; "l-grid-totalsummary-cell";
               if c_islast c then " l-grid-totalsummary-cell-last" else ""; dq; " ";
               "id="; dq; h_id o; "|total"; show_Z totalNumber; "|"; c_id c; dq; " ";
               "width="; dq; show_Z (c_width c); dq; " ";
               match col_name c with
               | Some n => cat ["columnname="; dq; n; dq; " "] | None => "" end;
               "columnindex="; dq; show_Z i; dq; " ";
               "><div class="; dq; "l-grid-totalsummary-cell-inner"; dq;
               match truthy_str (cs_align (c_spec c)) with
               | Some a => cat [" style="; dq; "text-Align:"; a; ";"; dq] | None => "" end;
               ">"; content; "</div></td>"])
  end.

Fixpoint total_cells (cs : list column) (data : list rref) (h : store) (totalNumber i : Z)
  (frozen : bool) : res string :=
match cs with
| [] => Ok ""
| c :: cs' =>
    a ← total_cell data h totalNumber i frozen c;
    b ← total_cells cs' data h totalNumber (i + 1) frozen;
    Ok (a ++ b)
end.

(** [_getTotalSummaryHtml], with the counter of the total rows. *)
Definition _getTotalSummaryHtml (cs : list column) (data : list rref) (h : store)
  (classCssName : string) (frozen : bool) (totalNumber : Z) : res (string * Z) :=
cells ← total_cells cs data h totalNumber 0 frozen;
Ok (cat ["<tr class="; dq; "l-grid-totalsummary";
         if String.eqb classCssName "" then "" else " " ++ classCssName; dq; ">"; cells; "</tr>"],
    if frozen then totalNumber else totalNumber + 1).

(** ** Groups *)

(** Cutting the rows into groups by the value of a column, in the order in which
  the values turn up. *)
Definition group_add (groups : list (jval * list rref)) (v : jval) (r : rref)
  (eqv : jval -> jval -> bool) : list (jval * list rref) :=
if existsb (fun q => eqv v q.1) groups then
  (fix go l := match l with
     | [] => []
     | (w, rs) :: l' => if eqv v w then (w, rs ++ [r])%list :: l' else (w, rs) :: go l'
     end) groups
else (groups ++ [(v, [r])])%list.

(** [===] on values. *)
Definition strict_eq (v w : jval) : bool :=
match v, w with
| VUndef, VUndef | VNull, VNull => true
| VBool a, VBool b => Bool.eqb a b
| VNum x, VNum y => (x === y)%num
| VStr s, VStr t => String.eqb s t
| _, _ => false
end.

Definition group_rows (data : list rref) (h : store) : list (jval * list rref) :=
fold_left (fun gs r => group_add gs (match rowh h !! r with
                                     | Some x => prop (h_groupColumnName o) x
                                     | None => VUndef end) r strict_eq) data [].

Definition group_head (i n : Z) : string :=
cat [if n =? 1 then cat ["<tr class="; dq; "l-grid-grouprow l-grid-grouprow-last l-grid-grouprow-first"; dq] else "";
     if i =? n - 1 then cat ["<tr class="; dq; "l-grid-grouprow l-grid-grouprow-last"; dq]
     else if i =? 0 then cat ["<tr class="; dq; "l-grid-grouprow l-grid-grouprow-first"; dq]
     else cat ["<tr class="; dq; "l-grid-grouprow"; dq];
     " groupindex"; dq; "="; show_Z i; dq; " >"].

Fixpoint groups_html (cs : list column) (frozen : bool) (totals : bool) (i n : Z)
  (gs : list (jval * list rref)) (totalNumber : Z) (g : grid) : res (string * Z * grid) :=
match gs with
| [] => Ok ("", totalNumber, g)
| (v, rs) :: gs' =>
    body ← _getHtmlFromData cs frozen rs g;
    tot ← (if totals
           then _getTotalSummaryHtml cs rs (heap body.2) "l-grid-totalsummary-group" frozen totalNumber
           else Ok ("", totalNumber));
    rest ← groups_html cs frozen totals (i + 1) n gs' tot.2 body.2;
    Ok (cat [group_head i n; "<td colSpan="; dq; show_Z (Z.of_nat (length cs)); dq;
             " class="; dq; "l-grid-grouprow-cell"; dq; ">";
             "<span class="; dq; "l-grid-group-togglebtn"; dq; ">&nbsp;&nbsp;&nbsp;&nbsp;</span>";
             match groupRender with
             | Some f => f v rs
             | None => cat [h_groupColumnDisplay o; ":"; jstr v]
             end; "</td></tr>"; body.1; tot.1; rest.1.1],
        rest.1.2, rest.2)
end.

(** [_bulidTotalSummary]: the total row of the current data, when there is one. *)
Definition _bulidTotalSummary (cs : list column) (totals frozen : bool) (totalNumber : Z) (g : grid)
  : res (option string * Z) :=
if negb totals then Ok (None, totalNumber)
else
  match src_rows (currentData (srcs g)) (heap g) with
  | [] => Ok (None, totalNumber)
  | data =>
      t ← _getTotalSummaryHtml cs data (heap g) "" frozen totalNumber;
      Ok (Some t.1, t.2)
  end.

Definition enabledGroup : bool := negb (String.eqb (h_groupColumnName o) "").

(** [_fillGridBody]: the body's markup, grouped or not; without groups the total
  row is put at the end of the table. *)
Definition _fillGridBody (s : columns_state) (frozen : bool) (data : list rref)
  (totalNumber : Z) (g : grid) : res (string * Z * grid) :=
let cs := getColumns None s in
let totals := isTotalSummary s in
let gs := group_rows data (heap g) in
body ← (if enabledGroup
        then groups_html cs frozen totals 0 (Z.of_nat (length gs)) gs totalNumber g
        else
          b ← _getHtmlFromData cs frozen data g;
          t ← _bulidTotalSummary cs totals frozen totalNumber b.2;
          Ok (b.1 ++ default "" t.1, t.2, b.2));
Ok (cat ["<div class="; dq; "l-grid-body-inner"; dq; "><table class="; dq; "l-grid-body-table"; dq;
         " cellpadding=0 cellspacing=0><tbody>"; body.1.1; "</tbody></table></div>"],
    body.1.2, body.2).
End html.

(** ** Groups and totals *)

Lemma group_add_perm gs v r eqv :
  concat (map snd (group_add gs v r eqv)) ≡ₚ r :: concat (map snd gs).
Proof.
  unfold group_add. destruct (existsb _ gs) eqn:E.
  - apply existsb_exists in E as (q & Hq & Eq). apply list_elem_of_In in Hq.
    induction gs as [|[w rs] gs IH]; [by apply not_elem_of_nil in Hq|].
    destruct (eqv v w) eqn:Ew; cbn.
    + rewrite <-app_assoc. symmetry. apply Permutation_middle.
    + apply elem_of_cons in Hq as [->|Hq]; [cbn in Eq; congruence|].
      rewrite IH by done. symmetry. apply Permutation_middle.
  - rewrite map_app, concat_app. cbn. by rewrite <-Permutation_cons_append.
Qed.

(** Grouping loses no row and repeats none: the groups together are a
    permutation of the rows. *)
Theorem group_rows_partition o data h :
  concat (map snd (group_rows o data h)) ≡ₚ data.
Proof.
  unfold group_rows. cut (forall gs, concat (map snd (fold_left (fun gs r =>
    group_add gs (match rowh h !! r with Some x => prop (h_groupColumnName o) x | None => VUndef end)
      r strict_eq) data gs)) ≡ₚ concat (map snd gs) ++ data)%list.
  { intros H. rewrite H. done. }
  induction data as [|r data IH]; intros gs; cbn [fold_left].
  - by rewrite app_nil_r.
  - rewrite IH, group_add_perm. cbn. apply Permutation_middle.
Qed.

(** Counting [k] more values. *)
Definition bump (k : Z) (s : summary) : summary :=
  Summary (sm_sum s) (sm_count s + k) (sm_min s) (sm_max s) (sm_avg s).

Lemma total_loop_bump vs k s : total_loop vs (bump k s) = bump k (total_loop vs s).
Proof.
  revert s. induction vs as [|v vs IH]; intros s; cbn [total_loop]; [done|].
  rewrite <-IH. f_equal. unfold bump. destruct (num_truthy v); cbn; f_equal; lia.
Qed.

(** Reading a total off the values that are not zero. *)
Lemma total_loop_zeros vs s :
  total_loop vs s
  = bump (Z.of_nat (length vs - length (List.filter num_truthy vs)))
      (total_loop (List.filter num_truthy vs) s).
Proof.
  revert s. induction vs as [|v vs IH]; intros s; cbn [total_loop List.filter].
  - unfold bump. destruct s. cbn. f_equal. lia.
  - destruct (num_truthy v) eqn:E; cbn [negb].
    + cbn [total_loop]. rewrite E. cbn [negb]. rewrite IH. reflexivity.
    + change (Summary (sm_sum s) (sm_count s + 1) (sm_min s) (sm_max s) (sm_avg s)) with (bump 1 s).
      rewrite total_loop_bump, IH. pose proof (List.filter_length_le num_truthy vs).
      unfold bump. cbn. f_equal. lia.
Qed.

Lemma total_loop_count vs s : sm_count (total_loop vs s) = sm_count s + Z.of_nat (length vs).
Proof.
  revert s. induction vs as [|v vs IH]; intros s; cbn [total_loop]; [cbn; lia|].
  rewrite IH. destruct (num_truthy v); cbn; lia.
Qed.

(** In a column's totals, only the first row can put a zero into the minimum or
    the maximum: a zero, or text that is no number, in a later row changes
    neither these nor the sum, but is counted. *)
Theorem total_of_zeros v0 vs :
  exists s s', total_of (v0 :: vs) = Ok s /\ total_of (v0 :: List.filter num_truthy vs) = Ok s' /\
    sm_sum s = sm_sum s' /\ sm_min s = sm_min s' /\ sm_max s = sm_max s' /\
    sm_count s = 1 + Z.of_nat (length vs).
Proof.
  unfold total_of. cbn [head of_option mbind res_bind].
  do 2 eexists. do 2 (split; [reflexivity|]).
  cbn [sm_sum sm_count sm_min sm_max total_loop].
  set (s := if negb (num_truthy v0) then _ else _).
  assert (sm_count s = 1) as Hc by (subst s; by destruct (num_truthy v0)).
  rewrite total_loop_count, Hc. rewrite (total_loop_zeros vs s). by cbn.
Qed.

(** The minimum of 5 and 0 is shown as 5. *)
Example total_zero_ex :
  (s ← total_of [5%float; 0%float]; Ok (toFixed 2 (sm_min s))) = Ok "5.00".
Proof. vm_compute. reflexivity. Qed.
