(* ===== verification/GridEvents.v ===== *)
(** * ligerGrid: clicks and editing

    What an element of the page stands for ([_getSrcElementByEvent]), the click
    handler ([_onClick]), the cells ([updateCell], [reRender]) and the editors of
    a row ([beginEdit], [cancelEdit], [submitEdit], [endEdit]). *)

From S2P Require Import Prelude JsString JsNum GridHeap GridRows GridShow GridSort GridCols GridEdit.
From Stdlib Require Import Ascii.
Local Open Scope string_scope.
Local Open Scope Z_scope.

(** ** The element an event comes from *)

(** An element with its classes and id; a path is the element and its ancestors,
    the outermost first, the order jQuery keeps them in. *)
Record element := Element { e_classes : list string; e_id : string; e_self : positive }.

Definition has_class (c : string) (e : element) : bool := bool_decide (c ∈ e_classes e).

Record src := Src {
  s_editing : bool;
  s_out : bool;
  s_indetail : bool;
  s_frozen : bool;
  s_popup : bool;
  s_checkboxall : bool;
  s_hcelltext : bool;
  s_column : option string;     (* the id of the header cell's column *)
  s_row : option rref;
  s_cell : option string;       (* the id of the cell *)
  s_checkbox : bool;
  s_groupbtn : bool;
  s_detailbtn : bool;
  s_treelink : bool;
  s_button : option string;     (* first, last, next, prev or load *)
  s_toolbar : bool
}.

Definition no_src : src :=
  Src false false false false false false false None None None false false false false None false.
Definition src_editing : src :=
  Src true false false false false false false None None None false false false false None false.
Definition src_out : src :=
  Src false true false false false false false None None None false false false false None false.

Section source.
Context (root view1 : positive) (detailrows : list positive).

Definition fn (c : string) (path : list element) : option element := List.find (has_class c) path.
Definition found (c : string) (path : list element) : bool :=
match fn c path with Some _ => true | None => false end.
Definition within (e : positive) (path : list element) : bool :=
existsb (fun x => bool_decide (e_self x = e)) path.

(** The part of a path of ids after the last bar, and the third part. *)
Definition toolbar_button (path : list element) : option string :=
if found "l-bar-btnfirst" path then Some "first"
else if found "l-bar-btnprev" path then Some "prev"
else if found "l-bar-btnnext" path then Some "next"
else if found "l-bar-btnlast" path then Some "last"
else if found "l-bar-btnload" path then Some "load"
else None.

Definition _getSrcElementByEvent (path : list element) (g : grid) : src :=
if found "l-grid-editor" path then src_editing
else if negb (within root path) then src_out
else
  let indetail := found "l-grid-detailpanel" path && existsb (fun e => within e path) detailrows in
  let gridheader := found "l-grid-header" path in
  let gridbody := found "l-grid-body" path in
  let hcell := if gridheader then fn "l-grid-hd-cell" path else None in
  let row := if gridbody then fn "l-grid-row" path else None in
  let cell := if gridbody then fn "l-grid-row-cell" path else None in
  Src (match cell with Some c => has_class "l-grid-row-cell-editing" c | None => false end)
      false indetail (within view1 path) (found "l-grid-popup" path)
      (gridheader && found "l-grid-hd-cell-checkbox" path)
      (gridheader && found "l-grid-hd-cell-text" path)
      (h ← hcell; split_on "|" (e_id h) !! 2%nat)
      (r ← row; _getRowByDomId (e_id r) g)
      (e_id <$> cell)
      (gridbody && found "l-grid-row-cell-btn-checkbox" path)
      (gridbody && found "l-grid-group-togglebtn" path)
      (gridbody && found "l-grid-row-cell-detailbtn" path)
      (gridbody && found "l-grid-tree-link" path)
      (if found "l-panel-bar" path then toolbar_button path else None)
      (found "l-panel-bar" path).
End source.

(** ** What a click does *)

(** [g.editor]: the cell being edited, its value before, and its key among the
    changed cells. *)
Record cell_editor := CellEditor {
  ce_row : rref; ce_column : column; ce_value : jval; ce_key : string }.

(** The state of the page a click reads and changes besides the grid's own. *)
Record view := View {
  v_headChecked : bool;                    (* the header row is l-checked *)
  v_sort : option (string * bool);         (* the sorted column, ascending? *)
  v_details : gmap rref bool;              (* the detail panels there are: open? *)
  v_closedGroups : gset Z;                 (* the group rows that are closed *)
  v_links : links;
  v_editor : option cell_editor;           (* the cell being edited *)
  v_changedCells : list string;            (* row and column ids, joined *)
  v_popup : bool
}.

Definition vset_checked b v := View b (v_sort v) (v_details v) (v_closedGroups v) (v_links v)
  (v_editor v) (v_changedCells v) (v_popup v).
Definition vset_sort b v := View (v_headChecked v) b (v_details v) (v_closedGroups v) (v_links v)
  (v_editor v) (v_changedCells v) (v_popup v).
Definition vset_details b v := View (v_headChecked v) (v_sort v) b (v_closedGroups v) (v_links v)
  (v_editor v) (v_changedCells v) (v_popup v).
Definition vset_groups b v := View (v_headChecked v) (v_sort v) (v_details v) b (v_links v)
  (v_editor v) (v_changedCells v) (v_popup v).
Definition vset_editor b v := View (v_headChecked v) (v_sort v) (v_details v) (v_closedGroups v)
  (v_links v) b (v_changedCells v) (v_popup v).
Definition vset_changedCells b v := View (v_headChecked v) (v_sort v) (v_details v)
  (v_closedGroups v) (v_links v) (v_editor v) b (v_popup v).
Definition vset_popup b v := View (v_headChecked v) (v_sort v) (v_details v) (v_closedGroups v)
  (v_links v) (v_editor v) (v_changedCells v) b.

Record click_options := ClickOptions {
  k_enabledSort : bool; k_url : bool; k_detail : bool; k_onShowDetail : bool;
  k_onCollapse : bool; k_onExtend : bool;
  k_selectRowButtonOnly : bool; k_enabledEdit : bool; k_clickToEdit : bool;
  k_autoCheckChildren : bool; k_allowUnSelectRow : bool; k_allowHideColumn : bool
}.

Section click.
Context (p : options) (k : click_options) (cs : columns_state) (ctrlKey masking confirmed : bool).
Context (fuel : nat) (msg : string) (frozenOn : bool).
Context (parms : list (string * string)) (where_ : loadParm) (pdata : option dref).
Context (localeCompare : string -> string -> Z) (custom : string -> option (jval -> jval -> res Z)).
(** The events whose handlers return [false]. *)
Context (veto : string -> bool).
(** Columns with an editor of a known type, with a function that draws them, with
  [onChange] and [onChanged]; the number of total rows drawn. *)
Context (hasEditor rendered onChange onChanged : column -> bool) (totalNumber : Z).
(** The value the user left in the editor of a cell. *)
Context (cellValue : cell_editor -> jval).

(** ** Cells *)

(** [reRender] of a row or a cell: deleted rows and system columns stay. *)
Definition system_cell_column (c : column) : bool :=
match cs_kind (c_spec c) with CDetail | CCheckbox => true | _ => false end.

Definition is_deleted (r : rref) (g : grid) : bool :=
match rowh (heap g) !! r with
| Some x => is_str "delete" (prop (o_statusName p) x) | None => false end.

Definition reRender_cell (r : rref) (c : column) (g : grid) : grid :=
if system_cell_column c || is_deleted r g then g else log g (EvCell r (c_id c)).

Definition reRender_row (r : rref) (g : grid) : grid :=
if is_deleted r g then g
else fold_left (fun g c => reRender_cell r c g) (getColumns None cs) g.

Definition reRender_column (c : column) (g : grid) : grid :=
if system_cell_column c then g
else
  let g := fold_left (fun g q => reRender_cell q.2 c g) (records (idx g)) g in
  fold_left (fun g i => log g (EvTotal i (c_id c))) (seqZ 0 totalNumber) g.

(** [updateCell] of one column: the value, the status, the cell. *)
Definition update_cell (c : column) (value : jval) (r : rref) (g : grid) : grid :=
let g :=
  match col_name c with
  | Some n =>
      if is_nil value then g
      else
        let g := upd r (set_prop n value) g in
        let g := match rowh (heap g) !! r with
                 | Some x => if is_str "add" (prop (o_statusName p) x) then g
                             else set_status p "update" r g
                 | None => g end in
        set_changed g true
  | None => g
  end in
reRender_cell r c g.

(** A column by its name (all that have it), its position or itself. *)
Definition updateCell (arg : colParm) (value : jval) (q : rowParm) (g : grid) : res grid :=
match arg with
| CPStr name =>
    fold_left (fun acc c => g ← acc; r ← of_option (getRow q g); Ok (update_cell c value r g))
      (List.filter (named name) (getColumns None cs)) (Ok g)
| _ =>
    r ← of_option (getRow q g);
    c ← of_option (getColumn arg cs);
    Ok (update_cell c value r g)
end.

(** [_checkEditAndUpdateCell]: the edited value is put into the row unless a
  handler objects; the whole column follows when it is rendered or summed. *)
Definition _checkEditAndUpdateCell (c : column) (value : jval) (r : rref)
  (g : grid) : bool * grid :=
if veto "beforeSubmitEdit" then (false, g)
else
  let g := update_cell c value r g in
  let g := if rendered c || isTotalSummary cs then reRender_column c g else g in
  (true, reRender_row r g).

(** ** The click handler *)

Definition st := (view * grid)%type.

(** [_applyEditor]: the editor of a cell is opened; the cell's id ends in the
  column's. *)
Definition _applyEditor (r : rref) (cell : string) (s : st) : res st :=
let (v, g) := s in
x ← row_at (heap g) r;
match last (split_on "|" cell) ≫= (fun id => oget id (cols cs)) with
| None => Ok s
| Some c =>
    if negb (hasEditor c) || veto "beforeEdit" then Ok s
    else Ok (vset_editor (Some (CellEditor r c
               (prop (default "undefined" (cs_name (c_spec c))) x)
               (default "undefined" (r_id x) ++ "_" ++ c_id c))) v, g)
end.

(** The handler of [sysEndEdit]: a value that differs is put into the row. *)
Definition sysEndEdit (e : cell_editor) (s : st) : st :=
let newValue := cellValue e in
if loose_eq newValue (ce_value e) then s
else
  let (v, g) := s in
  let c := ce_column e in
  let v := vset_changedCells (ce_key e :: v_changedCells v) v in
  let g := if onChange c then log g (EvTrigger "onChange" (Some (ce_row e))) else g in
  let t := _checkEditAndUpdateCell c newValue (ce_row e) g in
  (v, if t.1 && onChanged c then log t.2 (EvTrigger "onChanged" (Some (ce_row e))) else t.2).

(** [endEdit] while a cell is being edited. *)
Definition end_editor (s : st) : st :=
match v_editor s.1 with
| None => s
| Some e =>
    let s := sysEndEdit e s in
    let g := log s.2 (EvTrigger "endEdit" (Some (ce_row e))) in
    let g := reRender_cell (ce_row e) (ce_column e) g in
    (vset_editor None s.1, log g (EvTrigger "afterEdit" (Some (ce_row e))))
end.

(** The check box of the header. *)
Definition click_check_all (s : st) : res st :=
let uncheck := v_headChecked s.1 in
if veto "beforeCheckAllRow" then Ok s
else
  g ← check_all p ctrlKey fuel false uncheck s.2;
  Ok (vset_checked (negb uncheck) s.1, g).

(** A header cell: ascending first, then the other way round each time. *)
Definition click_header (id : string) (s : st) : res st :=
match oget id (cols cs) with
| None => Ok s
| Some c =>
    if negb (k_enabledSort k) || negb (c_isSort c) then Ok s
    else if k_url k && isDataChanged s.2 && negb confirmed then Ok s
    else match col_name c with
         | None => Ok s
         | Some columnName =>
             let asc := match v_sort s.1 with
                        | Some (id', a) => if String.eqb id id' then negb a else true
                        | None => true end in
             g ← changeSort localeCompare custom p fuel msg frozenOn (veto "beforeShowData")
                   (fun n => getColumnType n cs) parms where_ pdata columnName
                   (Some (if asc then "asc" else "desc")) s.2;
             Ok (vset_sort (Some (id, asc)) s.1, g)
         end
end.

(** The button of a row's detail panel; the panel is made the first time. *)
Definition click_detail (r : rref) (s : st) : res st :=
let v := s.1 in
match v_details v !! r with
| Some true =>
    Ok (vset_details (<[r := false]> (v_details v)) v,
        if k_onCollapse k then log s.2 (EvTrigger "onCollapse" (Some r)) else s.2)
| Some false =>
    Ok (vset_details (<[r := true]> (v_details v)) v,
        log (if k_onExtend k then log s.2 (EvTrigger "onExtend" (Some r)) else s.2)
            (EvTrigger "SysGridHeightChanged" None))
| None =>
    Ok (vset_details (<[r := true]> (v_details v)) v,
        log (if k_onShowDetail k then log s.2 (EvTrigger "onShowDetail" (Some r)) else s.2)
            (EvTrigger "SysGridHeightChanged" None))
end.

(** The rows below a group row are shown or hidden; a panel follows the button of
  its row. *)
Definition click_group (i : Z) (members : list rref) (s : st) : res st :=
let v := s.1 in
let opening := bool_decide (i ∈ v_closedGroups v) in
let v' := vset_groups (if opening then v_closedGroups v ∖ {[i]} else {[i]} ∪ v_closedGroups v) v in
Ok (v', log (log_all (map (fun r => EvShow r opening) members) s.2)
            (EvTrigger "SysGridHeightChanged" None)).

(** The link of a tree row only tells the page; its handler expands. *)
Definition click_tree (r : rref) (s : st) : res st :=
let g := set_collapsedRows s.2 (Some (default [] (collapsedRows s.2))) in
Ok (s.1, log g (EvTrigger (if is_closed r (v_links s.1) then "expandRow" else "collapseRow") (Some r))).

Fixpoint set_checks (uncheck : bool) (rs : list rref) (g : grid) : res grid :=
match rs with
| [] => Ok g
| r :: rs' =>
    g ← (if uncheck then unselect p fuel (PRow r) g else select p ctrlKey (PRow r) g);
    set_checks uncheck rs' g
end.

(** A row of a grid with check boxes: the row, and its children with it. *)
Definition click_check_row (r : rref) (onBox : bool) (cell : option string) (s : st) : res st :=
let only := k_selectRowButtonOnly k || k_enabledEdit k in
g ← (if onBox || negb only then
       let uncheck := isSelected (PRow r) s.2 in
       if veto "beforeCheckRow" then Ok None
       else
         g ← set_checks uncheck [r] s.2;
         children ← (if o_tree p && k_autoCheckChildren k
                     then c ← getChildren p fuel (PRow r) true g; of_option c
                     else Ok []);
         g ← set_checks uncheck children g;
         Ok (Some (log g (EvTrigger "checkRow" (Some r))))
     else Ok (Some s.2));
match g, cell with
| None, _ => Ok s
| Some g, Some c =>
    if negb onBox && k_enabledEdit k && k_clickToEdit k
    then _applyEditor r c (s.1, g) else Ok (s.1, g)
| Some g, None => Ok (s.1, g)
end.

(** A row of a grid without check boxes. *)
Definition click_row (r : rref) (cell : option string) (s : st) : res st :=
s ← match cell with
    | Some c => if k_enabledEdit k && k_clickToEdit k then _applyEditor r c s else Ok s
    | None => Ok s end;
if isSelected (PRow r) s.2 then
  if negb (k_allowUnSelectRow k) then Ok s
  else g ← unselect p fuel (PRow r) s.2; Ok (s.1, g)
else g ← select p ctrlKey (PRow r) s.2; Ok (s.1, g).

Definition click_page (c : ctype) (ev : string) (s : st) : res st :=
if veto ev then Ok s
else
  g ← changePage p fuel msg frozenOn (veto "beforeShowData") parms where_ pdata confirmed c s.2;
  Ok (s.1, g).

Definition click_toolbar (button : option string) (loadDisabled : bool) (s : st) : res st :=
match button with
| None => Ok s
| Some b =>
    if String.eqb b "first" then click_page First "toFirst" s
    else if String.eqb b "prev" then click_page Prev "toPrev" s
    else if String.eqb b "next" then click_page Next "toNext" s
    else if String.eqb b "last" then click_page Last "toLast" s
    else if loadDisabled then Ok s
    else if veto "reload" then Ok s
    else if k_url k && isDataChanged s.2 && negb confirmed then Ok s
    else
      g ← loadData p fuel msg frozenOn (veto "beforeShowData") parms where_ pdata s.2;
      Ok (s.1, g)
end.

(** [_onClick]; [group] is the group row clicked with the rows below it. *)
Definition _onClick (e : src) (group : Z * list rref) (loadDisabled : bool) (s : st) : res st :=
if s_out e then
  let s := if negb masking then end_editor s else s in
  Ok (if k_allowHideColumn k then (vset_popup false s.1, s.2) else s)
else if s_indetail e || s_editing e then Ok s
else
  let s := end_editor s in
  let s := if k_allowHideColumn k && negb (s_popup e) then (vset_popup false s.1, s.2) else s in
  if s_checkboxall e then click_check_all s
  else if s_hcelltext e then
    match s_column e with Some id => click_header id s | None => Ok s end
  else if s_detailbtn e && k_detail k then
    match s_row e with Some r => click_detail r s | None => Throw TypeError end
  else if s_groupbtn e then click_group group.1 group.2 s
  else if s_treelink e then
    match s_row e with Some r => click_tree r s | None => Throw TypeError end
  else match s_row e with
       | Some r => if o_checkbox p then click_check_row r (s_checkbox e) (s_cell e) s
                   else click_row r (s_cell e) s
       | None => if s_toolbar e then click_toolbar (s_button e) loadDisabled s else Ok s
       end.

(** ** Editing a row *)

(** [g.editors]: for every row being edited, by id, the columns with an editor. *)
Definition editors := list (string * list string).

(** The value in the editor of a cell. *)
Context (getValue : string -> string -> jval).

Definition est := (editors * grid)%type.

Definition editing (x : row) : bool := jtruthy (prop "_editing" x).

Definition beginEdit (q : rowParm) (s : est) : res est :=
if negb (k_enabledEdit k) || k_clickToEdit k then Ok s
else
  r ← of_option (getRow q s.2);
  x ← row_at (heap s.2) r;
  id ← of_option (r_id x);
  if editing x then Ok s
  else if veto "beginEdit" then Ok s
  else
    let g := upd r (set_prop "_editing" (VBool true)) s.2 in
    let g := reRender_row r g in
    let cols := List.filter (fun c => bool_decide (is_Some (col_name c)) && hasEditor c)
                  (getColumns None cs) in
    Ok (oset id (map c_id cols) s.1, log g (EvTrigger "afterBeginEdit" (Some r))).

Definition stop_editing (id : string) (r : rref) (s : est) : est :=
(odel id s.1, upd r (del_prop "_editing") s.2).

Definition cancelEdit_row (q : rowParm) (s : est) : res est :=
r ← of_option (getRow q s.2);
x ← row_at (heap s.2) r;
id ← of_option (r_id x);
match oget id s.1 with
| None => Ok s
| Some _ =>
    if veto "cancelEdit" then Ok s
    else let s := stop_editing id r s in Ok (s.1, reRender_row r s.2)
end.

(** Without a row: every row being edited. *)
Definition each_editor (f : rowParm -> est -> res est) (s : est) : res est :=
fold_left (fun acc id => s ← acc; f (PStr id) s) (okeys s.1) (Ok s).

Definition cancelEdit (q : option rowParm) (s : est) : res est :=
match q with Some q => cancelEdit_row q s | None => each_editor cancelEdit_row s end.

(** The values of the editors, by column name. *)
Definition new_data (id : string) (ids : list string) : list (string * jval) :=
fold_left (fun acc cid => match oget cid (cols cs) ≫= col_name with
                          | Some n => oset n (getValue id cid) acc
                          | None => acc end) ids [].

(** [submitEdit]: [false] when a handler objects. *)
Definition submitEdit_row (q : rowParm) (s : est) : res (bool * est) :=
r ← of_option (getRow q s.2);
x ← row_at (heap s.2) r;
id ← of_option (r_id x);
match oget id s.1 with
| None => Ok (true, s)
| Some ids =>
    if veto "beforeSubmitEdit" then Ok (false, s)
    else
      g ← updateRow p (PRow r) (new_data id ids) s.2;
      Ok (true, (s.1, log g (EvTrigger "afterSubmitEdit" (Some r))))
end.

Definition submitEdit (q : option rowParm) (s : est) : res est :=
match q with
| Some q => t ← submitEdit_row q s; Ok t.2
| None => each_editor (fun q s => t ← submitEdit_row q s; Ok t.2) s
end.

Definition endEdit_row (q : rowParm) (s : est) : res est :=
r ← of_option (getRow q s.2);
x ← row_at (heap s.2) r;
id ← of_option (r_id x);
match oget id s.1 with
| None => Ok s
| Some _ =>
    t ← submitEdit_row q s;
    if negb t.1 then Ok t.2
    else let s := stop_editing id r t.2 in Ok (s.1, log s.2 (EvTrigger "afterEdit" (Some r)))
end.

Definition endEdit (q : option rowParm) (s : est) : res est :=
match q with Some q => endEdit_row q s | None => each_editor endEdit_row s end.
End click.

(** ** What the handlers achieve *)

Lemma log_heap ev g : heap (log g ev) = heap g.
Proof. done. Qed.

Lemma reRender_cell_heap p r c g :
  heap (reRender_cell p r c g) = heap g /\ isDataChanged (reRender_cell p r c g) = isDataChanged g.
Proof. unfold reRender_cell. by case_match. Qed.

Lemma prop_set k v x : prop k (set_prop k v x) = v.
Proof. unfold prop, set_prop. cbn. by rewrite oget_oset_eq. Qed.
Lemma prop_set_ne k k' v x : k <> k' -> prop k (set_prop k' v x) = prop k x.
Proof. intros. unfold prop, set_prop. cbn. by rewrite oget_oset_ne. Qed.

(** Putting a value into a cell stores it in the row, marks the row as updated
    unless it was added, and marks the data as changed; no value ([null]) leaves
    the row as it was. *)
Theorem update_cell_spec p c value r g x n :
  rowh (heap g) !! r = Some x -> col_name c = Some n -> n <> o_statusName p ->
  let g' := update_cell p c value r g in
  exists x', rowh (heap g') !! r = Some x' /\
    if is_nil value then x' = x /\ isDataChanged g' = isDataChanged g
    else prop n x' = value /\ isDataChanged g' = true /\
         prop (o_statusName p) x'
         = if is_str "add" (prop (o_statusName p) x) then prop (o_statusName p) x else VStr "update".
Proof.
  intros Hx Hn Hne. cbn zeta. unfold update_cell. rewrite Hn.
  match goal with |- context [reRender_cell p r c ?y] =>
    destruct (reRender_cell_heap p r c y) as [-> ->] end.
  destruct (is_nil value) eqn:Ev; [by exists x|].
  set (g1 := upd r (set_prop n value) g).
  assert (rowh (heap g1) !! r = Some (set_prop n value x)) as H1.
  { cbn. by rewrite lookup_alter_eq, Hx. }
  rewrite H1. rewrite prop_set_ne by done.
  destruct (is_str "add" _) eqn:Ea.
  - exists (set_prop n value x). cbn [heap set_changed isDataChanged].
    rewrite prop_set, prop_set_ne by done. by split_and!.
  - exists (set_prop (o_statusName p) (VStr "update") (set_prop n value x)).
    cbn [heap set_changed isDataChanged]. unfold set_status. cbn [upd heap set_heap upd_row rowh].
    rewrite lookup_alter_eq, H1. split; [done|].
    rewrite (prop_set_ne n), !prop_set by done. by split_and!.
Qed.

Definition name_column : column :=
  new_column (ColSpec None CData (Some "name") None (WNum 80) 0 0 None false None None None 0 false 0)
    "c101" 1 None None true 0.

Lemma update_cell_spec_witness :
  let g' := update_cell demo_options name_column (VStr "z") 1%positive demo_grid in
  exists x', rowh (heap g') !! 1%positive = Some x' /\ prop "name" x' = VStr "z".
Proof.
  destruct (update_cell_spec demo_options name_column (VStr "z") 1%positive demo_grid
    (blank_row "a") "name") as (x' & Hx & Hv & _); [vm_compute; reflexivity|done|done|].
  exists x'. exact (conj Hx Hv).
Defined.

(** The row [x'] is [x] with a value in the cell [n], marked as updated unless it was
    added. *)
Definition written (p : options) (n : string) (value : jval) (x x' : row) : Prop :=
  with_props [] x' = with_props [] x /\ prop n x' = value /\
  prop (o_statusName p) x'
  = (if is_str "add" (prop (o_statusName p) x) then prop (o_statusName p) x else VStr "update") /\
  forall k, k <> n -> k <> o_statusName p -> prop k x' = prop k x.

(** Only that row is another afterwards; nothing is, without a value or a name. *)
Definition wrote (p : options) (c : column) (value : jval) (r : rref) (g g' : grid) : Prop :=
  match col_name c, is_nil value with
  | Some n, false =>
      exists x x', rowh (heap g) !! r = Some x /\
        heap g' = Store (<[r := x']> (rowh (heap g))) (arrh (heap g)) (srch (heap g)) /\
        isDataChanged g' = true /\ (n <> o_statusName p -> written p n value x x')
  | _, _ => heap g' = heap g /\ isDataChanged g' = isDataChanged g
  end.

Lemma update_cell_wrote p c value r g :
  is_Some (rowh (heap g) !! r) -> wrote p c value r g (update_cell p c value r g).
Proof.
  intros [x Hx]. unfold wrote, update_cell.
  match goal with |- context [reRender_cell p r c ?y] =>
    destruct (reRender_cell_heap p r c y) as [-> ->] end.
  destruct (col_name c) as [n|]; [|done]. destruct (is_nil value); [done|].
  cbn [upd heap set_heap upd_row rowh]. rewrite lookup_alter_eq, Hx. cbn [fmap option_fmap option_map].
  assert (forall f (h : gmap rref row) y, h !! r = Some y -> alter f r h = <[r := f y]> h) as Halter.
  { intros f h y Hh. apply map_eq. intros i. destruct (decide (i = r)) as [->|].
    - by rewrite lookup_alter_eq, lookup_insert_eq, Hh.
    - by rewrite lookup_alter_ne, lookup_insert_ne. }
  destruct (is_str "add" (prop (o_statusName p) (set_prop n value x))) eqn:Ea.
  - exists x, (set_prop n value x). cbn. split_and!; [done|unfold upd_row; by rewrite (Halter _ _ x)|done|].
    intros Hne. rewrite prop_set_ne in Ea by done. unfold written. rewrite Ea.
    split_and!; [done|apply prop_set|by apply prop_set_ne|]. intros. by apply prop_set_ne.
  - exists x, (set_prop (o_statusName p) (VStr "update") (set_prop n value x)). cbn.
    split_and!; [done| |done|].
    + unfold upd_row. cbn. f_equal. rewrite (Halter (set_prop n value) _ x) by done. apply map_eq. intros i.
      destruct (decide (i = r)) as [->|].
      * by rewrite lookup_alter_eq, !lookup_insert_eq.
      * by rewrite lookup_alter_ne, !lookup_insert_ne.
    + intros Hne. rewrite prop_set_ne in Ea by done. unfold written. rewrite Ea.
      split_and!; [done|rewrite prop_set_ne by done; apply prop_set|apply prop_set|].
      intros. by rewrite !prop_set_ne.
Qed.

Lemma fold_log_heap {A} (f : grid -> A -> grid) l g :
  (forall a g, heap (f g a) = heap g /\ isDataChanged (f g a) = isDataChanged g) ->
  heap (fold_left f l g) = heap g /\ isDataChanged (fold_left f l g) = isDataChanged g.
Proof.
  intros Hf. revert g. induction l as [|a l IH]; intros g; cbn [fold_left]; [done|].
  destruct (IH (f g a)) as [-> ->]. apply Hf.
Qed.

Lemma reRender_row_heap p cs r g :
  heap (reRender_row p cs r g) = heap g /\ isDataChanged (reRender_row p cs r g) = isDataChanged g.
Proof.
  unfold reRender_row. case_match; [done|]. apply fold_log_heap. intros. apply reRender_cell_heap.
Qed.

Lemma reRender_column_heap p n c g :
  heap (reRender_column p n c g) = heap g
  /\ isDataChanged (reRender_column p n c g) = isDataChanged g.
Proof.
  unfold reRender_column. case_match; [done|]. cbn zeta.
  match goal with |- context [fold_left ?f ?l ?y] =>
    destruct (fold_log_heap f l y (fun _ _ => conj eq_refl eq_refl)) as [-> ->] end.
  apply fold_log_heap. intros. apply reRender_cell_heap.
Qed.

(** Drawing the cells again leaves the rows as the new value left them. *)
Lemma checkEdit_heap p cs veto rendered n c value r g :
  veto "beforeSubmitEdit" = false ->
  let t := _checkEditAndUpdateCell p cs veto rendered n c value r g in
  t.1 = true /\ heap t.2 = heap (update_cell p c value r g)
  /\ isDataChanged t.2 = isDataChanged (update_cell p c value r g).
Proof.
  intros Hv. cbn zeta. unfold _checkEditAndUpdateCell. rewrite Hv. cbn [fst snd].
  split; [done|]. match goal with |- context [reRender_row p cs r ?y] =>
    destruct (reRender_row_heap p cs r y) as [-> ->] end.
  destruct (_ || _); [apply reRender_column_heap|done].
Qed.

Lemma update_cell_log p c value r g ev :
  heap (update_cell p c value r (log g ev)) = heap (update_cell p c value r g)
  /\ isDataChanged (update_cell p c value r (log g ev)) = isDataChanged (update_cell p c value r g).
Proof.
  unfold update_cell.
  repeat match goal with |- context [reRender_cell p r c ?y] =>
    destruct (reRender_cell_heap p r c y) as [-> ->] end.
  destruct (col_name c); [|done]. destruct (is_nil value); [done|].
  cbn. destruct (_ !! r) as [y|]; [|done]. by destruct (is_str _ _).
Qed.

Definition no_columns : columns_state := Columns [] 0 0 0.
Definition plain_view : view := View false None ∅ ∅ ∅ None [] false.
Definition name_columns : columns_state := Columns [("c101", name_column)] 1 1 1.

(** C33: Editing a cell to its end: the editor opened on a cell starts from the
    cell's value and is closed afterwards; leaving an equal value ([==]) or a
    handler's objection leaves the rows and the change mark alone; any other value is in
    the row afterwards, which is marked as updated unless it was added, all its other
    properties and all other rows as they were - but no value ([null]) and a value of a
    column without a name are not put anywhere ([wrote]). *)
Theorem cell_edit_complete p cs veto hasEditor rendered onChange onChanged n cellValue r cell s s1 e :
  _applyEditor cs veto hasEditor r cell s = Ok s1 -> v_editor s.1 = None -> v_editor s1.1 = Some e ->
  let s2 := end_editor p cs veto rendered onChange onChanged n cellValue s1 in
  let value := cellValue e in
  (exists x, rowh (heap s.2) !! r = Some x
     /\ ce_value e = prop (default "undefined" (cs_name (c_spec (ce_column e)))) x)
  /\ v_editor s2.1 = None
  /\ (if loose_eq value (ce_value e) || veto "beforeSubmitEdit"
      then heap s2.2 = heap s.2 /\ isDataChanged s2.2 = isDataChanged s.2
      else wrote p (ce_column e) value r s.2 s2.2).
Proof.
  destruct s as [v g]. cbn [fst snd]. unfold _applyEditor.
  intros (x & Hx & H)%res_bind_ok Hv He. cbn [fst snd] in *.
  destruct (last _ ≫= _) as [c|]; [|naive_solver].
  destruct (_ || _); [naive_solver|]. simplify_eq/=. set (old := prop _ x).
  split; [exists x; split; [by apply of_option_ok|done]|].
  unfold end_editor, sysEndEdit. cbn.
  destruct (loose_eq _ old); cbn.
  { match goal with |- context [reRender_cell p r c ?y] =>
      destruct (reRender_cell_heap p r c y) as [-> ->] end. done. }
  match goal with |- context [reRender_cell p r c ?y] =>
    destruct (reRender_cell_heap p r c y) as [-> ->] end.
  cbn [log heap isDataChanged]. set (e := CellEditor _ _ _ _). set (g1 := if onChange c then _ else g).
  split; [done|]. destruct (veto "beforeSubmitEdit") eqn:Ev.
  - unfold _checkEditAndUpdateCell. rewrite Ev. cbn. subst g1. by destruct (onChange c).
  - destruct (checkEdit_heap p cs veto rendered n c (cellValue e) r g1 Ev) as (Ht & Hh & Hd).
    pose proof (update_cell_wrote p c (cellValue e) r g ltac:(eexists; by apply of_option_ok)) as Hw.
    assert (heap (update_cell p c (cellValue e) r g1) = heap (update_cell p c (cellValue e) r g) /\
            isDataChanged (update_cell p c (cellValue e) r g1)
            = isDataChanged (update_cell p c (cellValue e) r g)) as [E1 E2].
    { subst g1. destruct (onChange c); [apply update_cell_log|done]. }
    rewrite Ht. cbn [andb]. match goal with |- wrote _ _ _ _ _ ?g2 =>
      assert (heap g2 = heap (update_cell p c (cellValue e) r g) /\
              isDataChanged g2 = isDataChanged (update_cell p c (cellValue e) r g)) as [F1 F2] end.
    { rewrite <-E1, <-E2. cbn [log heap isDataChanged].
      match goal with |- context [reRender_cell p r c ?y] =>
        destruct (reRender_cell_heap p r c y) as [-> ->] end. by destruct (onChanged c); cbn [log heap isDataChanged]; rewrite Hh, Hd. }
    unfold wrote in *. by rewrite F1, F2.
Qed.

Lemma cell_edit_complete_witness :
  exists s1, _applyEditor name_columns (fun _ => false) (fun _ => true) 1%positive
      "grid|2|r1000|c101" (plain_view, demo_grid) = Ok s1 /\
    wrote demo_options name_column (VStr "z") 1%positive demo_grid
      (end_editor demo_options name_columns (fun _ => false) (fun _ => false) (fun _ => false)
            (fun _ => false) 0 (fun _ => VStr "z") s1).2.
Proof.
  eexists. split; [vm_compute; reflexivity|].
  refine (proj2 (proj2 (cell_edit_complete demo_options name_columns (fun _ => false)
    (fun _ => true) (fun _ => false) (fun _ => false) (fun _ => false) 0 (fun _ => VStr "z")
    1%positive "grid|2|r1000|c101" (plain_view, demo_grid) _ (CellEditor 1%positive name_column
      (VStr "a") "undefined_c101") _ _ _))); vm_compute; reflexivity.
Defined.

(** Without check boxes and without the control key, clicking a row that is not
    selected makes it the only selected row. *)
Theorem click_row_selects p k cs ctrl ft veto hasEditor r s s' :
  o_checkbox p = false -> ctrl = false -> k_enabledEdit k = false ->
  isSelected (PRow r) s.2 = false ->
  click_row p k cs ctrl ft veto hasEditor r None s = Ok s' ->
  selected s'.2 = [r] /\ isSelected (PRow r) s'.2 = true.
Proof.
  intros Hp -> Hk Hs. unfold click_row. cbn [mbind res_bind]. rewrite Hs. intros (g & H & [= <-])%res_bind_ok.
  unfold select in H. rewrite Hp in H. cbn [getRow negb andb of_option mbind res_bind] in H.
  apply res_bind_ok in H as (x & _ & H). apply res_bind_ok in H as (y & _ & [= <-]).
  cbn. by rewrite bool_decide_true by left.
Qed.

Definition plain_clicks : click_options :=
  ClickOptions false false false false false false false false false false false false.

Lemma click_row_selects_witness :
  exists s', click_row demo_options plain_clicks no_columns false 1 (fun _ => false) (fun _ => false) 2%positive None
               (plain_view, demo_grid) = Ok s' /\ selected s'.2 = [2%positive].
Proof.
  eexists. split; [vm_compute; reflexivity|].
  refine (proj1 (click_row_selects demo_options plain_clicks no_columns false 1
    (fun _ => false) (fun _ => false) 2%positive
    (plain_view, demo_grid) _ eq_refl eq_refl eq_refl eq_refl _)).
  vm_compute. reflexivity.
Defined.
