(* ===== verification/GridRowDrag.v ===== *)
(** * ligerGrid: moving rows with the mouse, and the other mouse handlers

    The handlers of the drag of the rows ([_setEvent]), the double click, the context
    menu, the release of something dragged over the grid, scrolling and the control
    key, and [collapseDetail] and [extendDetail]. *)

From S2P Require Import Prelude JsString JsNum GridHeap GridRows GridShow GridSort GridCols.
From S2P Require Import GridEdit GridEvents GridHead GridDrag.
From Stdlib Require Import Ascii.
Local Open Scope string_scope.
Local Open Scope Z_scope.

(** ** Dragging rows *)

Inductive drop_icon := IconNo | IconYes | IconAdd.

Record rowdrag := RowDrag {
  w_row : option rref;                   (* this.draggingRow *)
  w_rows : option (list rref);           (* this.draggingRows *)
  w_dragging : bool;                     (* g.rowdragging *)
  w_dropIn : option (option string);     (* g.rowDropIn: not set, -1, the id of a row *)
  w_bottom : bool;                       (* g.rowDropDir is "bottom" *)
  w_inParent : bool;                     (* g.rowDropInParent *)
  w_icon : drop_icon;
  w_tip : option (Z * Z * Z);            (* the tip, when shown: left, top, width *)
  w_range : Z * Z * Z * Z                (* validRange: top, bottom, left, right *)
}.

Definition wset_rows rows d := RowDrag (w_row d) rows (w_dragging d) (w_dropIn d) (w_bottom d)
  (w_inParent d) (w_icon d) (w_tip d) (w_range d).
Definition wset_drop drop bottom inParent icon tip d := RowDrag (w_row d) (w_rows d) (w_dragging d)
  drop bottom inParent icon tip (w_range d).

Section rowdrag.
Context (p : options) (cs : columns_state).
Context (gridLeft gridWidth bodyTop bodyHeight : Z).
(** Top and height of a row. *)
Context (row_box : rref -> Z * Z).

(** The press: the right button or not, the row and the cell it is on, a check box. *)
Definition special_cell (c : element) : bool :=
has_class "l-grid-row-cell-rownumbers" c || has_class "l-grid-row-cell-detail" c
|| has_class "l-grid-row-cell-checkbox" c.

Definition first_column (c : element) : bool :=
match last (split_on "|"%char (e_id c)) ≫= (fun id => oget id (cols cs)), getColumns None cs with
| Some col, c0 :: _ => String.eqb (c_id col) (c_id c0)
| _, _ => false
end.

Definition row_onStartDrag (right colresizing : bool) (e : src) (cell : option element) (g : grid)
  (d : rowdrag) : bool * rowdrag :=
if right || colresizing then (false, d)
else match getColumns None cs with
     | [] => (false, d)
     | _ =>
         match cell, s_row e with
         | Some c, Some data =>
             if s_checkbox e then (false, d)
             else if special_cell c || first_column c then
               let start rows := (true, RowDrag (Some data) (Some rows) true (w_dropIn d) (w_bottom d)
                                    (w_inParent d) (w_icon d) (w_tip d)
                                    (bodyTop, bodyTop + bodyHeight, gridLeft - 10,
                                     gridLeft + gridWidth + 10)) in
               if o_checkbox p then
                 match getSelectedRows g with
                 | [] => (false, wset_rows (Some []) d)
                 | rows => start rows
                 end
               else start [data]
             else (false, d)
         | _, _ => (false, d)
         end
     end.

Definition row_dropping (d : rowdrag) : option string := default None (w_dropIn d).

Definition rowid_of (r : rref) (g : grid) : string :=
match rowh (heap g) !! r with Some o => default "undefined" (r_id o) | None => "undefined" end.

(** The row under the mouse, four pixels more to both sides. *)
Definition over_row (r : rref) (x y : Z) : bool :=
let '(top, height) := row_box r in
(gridLeft <? x) && (x <? gridLeft + gridWidth) && (top - 4 <? y) && (y <? top + height + 4).

(** In a tree the middle of a row takes the rows in as children. *)
Definition over_middle (r : rref) (y : Z) : bool :=
let '(top, height) := row_box r in o_tree p && (top + 1 <? y) && (y <? top + height - 1).

Definition drop_on (r : rref) (id : string) (isAfter : bool) (y : Z) (d : rowdrag) : rowdrag :=
let '(top, height) := row_box r in
let tip := (gridLeft, top + (if isAfter then height else 0), gridWidth) in
if over_middle r y then wset_drop (Some (Some id)) isAfter true IconAdd None d
else wset_drop (Some (Some id)) isAfter false IconYes (Some tip) d.

Fixpoint over_rows (g : grid) (row : rref) (rows : list rref) (visit : bool) (l : list (option rref))
  (x y : Z) (d : rowdrag) : rowdrag :=
match l with
| [] => d
| None :: l' => over_rows g row rows visit l' x y d
| Some rd :: l' =>
    let visit := visit || bool_decide (row = rd) in
    if bool_decide (rd ∈ rows) then over_rows g row rows visit l' x y d
    else
      let id := rowid_of rd g in
      match row_dropping d with
      | Some k =>
          if negb (String.eqb k id) then over_rows g row rows visit l' x y d
          else if over_row rd x y then drop_on rd id visit y d
          else over_rows g row rows visit l' x y
                 (wset_drop (Some None) (w_bottom d) false IconNo None d)
      | None =>
          if over_row rd x y then drop_on rd id visit y d
          else over_rows g row rows visit l' x y d
      end
end.

Definition row_onDrag (colresizing : bool) (g : grid) (x y : Z) (d : rowdrag) : bool * rowdrag :=
match w_row d with
| None => (false, d)
| Some row =>
    if colresizing then (false, d)
    else
      let rows := default [row] (w_rows d) in
      let d := match w_dropIn d with
               | None => wset_drop (Some None) (w_bottom d) (w_inParent d) (w_icon d) (w_tip d) d
               | Some _ => d end in
      let '(top, bottom, lft, rgt) := w_range d in
      if (x <? lft) || (rgt <? x) || (bottom <? y) || (y <? top)
      then (true, wset_drop (Some None) (w_bottom d) (w_inParent d) IconNo None d)
      else (true, over_rows g row rows false (GridHeap.rows (idx g)) x y d)
end.

(** Rows that are children of another dragged row are taken out.  The code reads the
  property [children], whatever the tree's children are called. *)
Context (childrenNamed : bool).

Definition children_of (r : rref) (g : grid) : option (list rref) :=
if childrenNamed then
  o ← rowh (heap g) !! r; a ← r_children o; arrh (heap g) !! a
else None.

Fixpoint without_children (fuel : nat) (i : nat) (rows : list rref) (g : grid) : list rref :=
match fuel with
| O => rows
| S fuel' =>
    match rows !! i with
    | None => rows
    | Some r =>
        without_children fuel' (S i)
          (match children_of r g with
           | Some cs => List.filter (fun n => bool_decide (n ∉ cs)) rows
           | None => rows end) g
    end
end.

Context (fuel : nat) (msg : string) (frozenOn vetoShow : bool).

(** The row dropped on; without a move of the mouse [g.rowDropIn] may not be set, and
  then the code takes it for a row. *)
Definition drop_parm (d : rowdrag) : option rowParm :=
match w_dropIn d with
| None => Some PNull
| Some (Some id) => Some (PStr id)
| Some None => None
end.

Definition drop_rows (d : rowdrag) (rows : list rref) (g : grid) : res grid :=
match drop_parm d with
| None => Ok g
| Some q =>
    if o_tree p then
      let near := if w_inParent d then None else getRow q g in
      let prow := if w_inParent d then getRow q g else getParent p (opt_parm near) g in
      g ← appendRange p fuel msg frozenOn vetoShow rows prow near (negb (w_bottom d)) g;
      Ok (log g (EvTrigger "rowDragDrop" prow))
    else
      g ← moveRange p fuel msg frozenOn vetoShow (map PRow rows) q (w_bottom d) g;
      Ok (log g (EvTrigger "rowDragDrop" None))
end.

Definition row_onStopDrag (d : rowdrag) (g : grid) : res (rowdrag * grid) :=
rows ← of_option (w_rows d);
let rows := without_children (length rows) 0 rows g in
g ← drop_rows d rows g;
Ok (RowDrag (w_row d) (w_rows d) false (Some None) (w_bottom d) (w_inParent d) (w_icon d) None
      (w_range d), g).
End rowdrag.

(** ** The other handlers *)

(** What the page keeps: whether the list of columns is shown and where, the scroll of
    the two tables, the control key. *)
Record mouse_view := MouseView {
  u_popup : bool; u_popupAt : Z * Z; u_headScroll : Z; u_frozenScroll : Z; u_ctrlKey : bool }.

Section mouse.
Context (p : options) (cs : columns_state) (ctrlKey dragging : bool).
Context (whenRClickToSelect allowHideColumn : bool) (hasBind : string -> bool).
(** The left of the body, its scroll, the height of the header. *)
Context (bodyLeft scrollLeft headerHeight : Z).

Definition _onDblClick (e : src) (g : grid) : grid :=
match s_row e with Some r => log g (EvTrigger "dblClickRow" (Some r)) | None => g end.

(** Something dragged over the grid is let go. *)
Definition _onMouseUp (e : src) (g : grid) : grid :=
if negb dragging then g
else match s_column e ≫= (fun id => oget id (cols cs)) with
     | Some _ => log g (EvTrigger "dragdrop" None)
     | None => match s_row e with
               | Some r => log g (EvTrigger "dragdrop" (Some r))
               | None => g end
     end.

(** The menu of a row, or the list of columns; [columnindex] is the position the header
  cell bears.  The answer says whether the browser's menu opens too, when the code
  says so itself. *)
Definition _onContextmenu (e : src) (hcell : bool) (columnindex : option Z) (pageX : Z)
  (v : mouse_view) (g : grid) : res (option bool * (mouse_view * grid)) :=
match s_row e with
| Some r =>
    g ← (if whenRClickToSelect then select p ctrlKey (PRow r) g else Ok g);
    Ok (None, (v, if hasBind "contextmenu" then log g (EvTrigger "contextmenu" (Some r)) else g))
| None =>
    if hcell then
      if negb allowHideColumn then Ok (Some true, (v, g))
      else match columnindex with
           | None => Ok (Some true, (v, g))
           | Some i =>
               let lft := pageX - bodyLeft + scrollLeft in
               let lft := if i =? Z.of_nat (length (getColumns None cs)) - 1 then lft - 50 else lft in
               Ok (Some false, (MouseView (negb (u_popup v)) (lft, headerHeight + 1) (u_headScroll v)
                                  (u_frozenScroll v) (u_ctrlKey v), g))
           end
    else Ok (None, (v, g))
end.

(** Scrolling the rows scrolls the header and the frozen rows, and ends the edit. *)
Definition onScroll (endEdit : GridEvents.st -> GridEvents.st) (left top : Z) (v : mouse_view)
  (s : GridEvents.st) : mouse_view * GridEvents.st :=
let s := endEdit s in
(MouseView (u_popup v) (u_popupAt v) left top (u_ctrlKey v),
 (s.1, log s.2 (EvTrigger "SysGridHeightChanged" None))).

Definition set_ctrl (b : bool) (v : mouse_view) : mouse_view :=
MouseView (u_popup v) (u_popupAt v) (u_headScroll v) (u_frozenScroll v) b.
Definition onKeydown (ctrl : bool) (v : mouse_view) : mouse_view := if ctrl then set_ctrl true v else v.
Definition onKeyup (v : mouse_view) : mouse_view := set_ctrl false v.
End mouse.

(** ** The panels of details *)

Section details.
Context (cs : columns_state).

Definition detail_column : option column :=
List.find (fun c => match cs_kind (c_spec c) with CDetail => true | _ => false end)
  (getColumns None cs).

Definition collapseDetail (q : rowParm) (s : GridEvents.st) : GridEvents.st :=
match getRow q s.2 with
| None => s
| Some r =>
    match detail_column with
    | None => s
    | Some _ =>
        (match v_details s.1 !! r with
         | Some _ => vset_details (<[r := false]> (v_details s.1)) s.1
         | None => s.1 end,
         log s.2 (EvTrigger "SysGridHeightChanged" None))
    end
end.

(** [i < l] where [l] is the array of columns itself: an array is compared as the
  number its text stands for; nothing, as the columns are objects, and no text of
  objects stands for a number.  An empty array stands for 0. *)
Definition less_than_array (i : Z) (columns : list column) : bool :=
match columns with [] => i <? 0 | _ => false end.

Definition extendDetail (q : rowParm) (s : GridEvents.st) : GridEvents.st :=
match getRow q s.2 with
| None => s
| Some r =>
    if less_than_array 0 (getColumns None cs) then
      match detail_column with
      | None => s
      | Some _ =>
          (match v_details s.1 !! r with
           | Some _ => vset_details (<[r := true]> (v_details s.1)) s.1
           | None => s.1 end,
           log s.2 (EvTrigger "SysGridHeightChanged" None))
      end
    else s
end.

(** [extendDetail] never opens a panel. *)
Lemma extendDetail_does_nothing q s : extendDetail q s = s.
Proof. unfold extendDetail. destruct (getRow q s.2); [|done]. by destruct (getColumns None cs). Qed.
End details.

(** ** Where dropped rows go *)

Local Close Scope string_scope.

Section order.
Context (p : options) (Hflat : o_tree p = false).

Definition others (rs l : list rref) : list rref := List.filter (fun z => bool_decide (z ∉ rs)) l.

Lemma others_app rs l l' : others rs (l ++ l') = others rs l ++ others rs l'.
Proof. apply List.filter_app. Qed.

Lemma others_cons_out rs x l : x ∉ rs -> others rs (x :: l) = x :: others rs l.
Proof. intros H. cbn. by rewrite bool_decide_true. Qed.

Lemma others_cons x rs l :
  others (x :: rs) l = others rs (List.filter (fun z => negb (bool_decide (z = x))) l).
Proof.
  induction l as [|z l IH]; [done|]. cbn. destruct (decide (z = x)) as [->|Hne].
  - rewrite (bool_decide_true (x = x)), bool_decide_false by (try done; intros H; apply H; left).
    exact IH.
  - rewrite (bool_decide_false (z = x)) by done. cbn [negb List.filter others].
    assert (bool_decide (z ∉ x :: rs) = bool_decide (z ∉ rs)) as ->.
    { apply bool_decide_ext. rewrite not_elem_of_cons. tauto. }
    cbn. destruct (bool_decide (z ∉ rs)); [f_equal|]; exact IH.
Qed.

Lemma splice_array_idx a start del ins g g' :
  splice_array a start del ins g = Ok g' -> idx g' = idx g.
Proof.
  unfold splice_array. destruct a as [a|]; [|done]. cbn [of_option mbind res_bind].
  destruct (arr_at (heap g) a); [|done]. cbn [mbind res_bind]. by intros [= <-].
Qed.

Lemma _moveData_idx from to isAfter g g' : _moveData p from to isAfter g = Ok g' -> idx g' = idx g.
Proof.
  unfold _moveData. destruct (_getParentChildren _ _ g) as [a|]; [|done]. cbn [mbind res_bind].
  destruct (splice_array a _ 1 [] g) as [g1|] eqn:E1; [|done]. cbn [mbind res_bind].
  destruct (_getParentChildren _ _ g1) as [b|]; [|done]. cbn [mbind res_bind].
  destruct (getRow from g) as [r|]; [|done]. cbn [of_option mbind res_bind].
  intros E2. by rewrite (splice_array_idx _ _ _ _ _ _ E2), (splice_array_idx _ _ _ _ _ _ E1).
Qed.

Lemma filter_self x k : x ∉ k -> List.filter (fun z : rref => negb (bool_decide (z = x))) k = k.
Proof.
  induction k as [|z k IHk]; [done|]. intros [? ?]%not_elem_of_cons. cbn.
  rewrite bool_decide_false by congruence. cbn. by rewrite IHk.
Qed.

Lemma others_nil l : others [] l = l.
Proof.
  unfold others. induction l as [|z l IH]; [done|]. cbn [List.filter].
  rewrite bool_decide_true by apply not_elem_of_nil. by rewrite IH.
Qed.

Lemma others_nodup rs l : NoDup l -> NoDup (others rs l).
Proof.
  intros Hnd. eapply sublist_NoDup; [exact Hnd|]. unfold others. clear.
  induction l as [|z k IHk]; [done|]. cbn.
  destruct (bool_decide _); [by apply sublist_skip|by apply sublist_cons].
Qed.

(** The list with one row beside another, and what the others make of it. *)
Definition put_beside (isAfter : bool) (x y : rref) (P Q : list rref) : list rref :=
  if isAfter then P ++ y :: x :: Q else P ++ x :: y :: Q.

Lemma put_beside_perm isAfter x y l P Q :
  x ∈ l -> NoDup l -> List.filter (fun z => negb (bool_decide (z = x))) l = P ++ y :: Q ->
  Permutation (put_beside isAfter x y P Q) l.
Proof.
  intros Hxl Hnd Hf. transitivity (x :: P ++ y :: Q).
  - unfold put_beside. destruct isAfter; [|symmetry; apply Permutation_middle].
    replace (P ++ y :: x :: Q) with ((P ++ [y]) ++ x :: Q) by (by rewrite <-app_assoc).
    rewrite <-Permutation_middle. by rewrite <-app_assoc.
  - rewrite <-Hf. apply list_elem_of_split in Hxl as (A & B & ->).
    apply NoDup_app in Hnd as (_ & HA & HB). apply NoDup_cons in HB as [HB _].
    rewrite List.filter_app. cbn. rewrite (bool_decide_true (x = x)) by done. cbn.
    rewrite !filter_self by (try done; intros H; apply (HA x H); left). apply Permutation_middle.
Qed.

(** Rows moved below a row one after the other stand in reverse order, rows moved above
    it in theirs. *)
Lemma move_all_order q y isAfter rs : forall g a l,
  (forall g', idx g' = idx g -> getRow q g' = Some y) ->
  current_list g a l -> NoDup l -> NoDup rs -> (forall x, x ∈ rs -> x ∈ l) -> y ∈ l -> y ∉ rs ->
  exists g' pre post, move_all p (map PRow rs) q isAfter g = Ok g' /\
    others rs l = pre ++ y :: post /\
    current_list g' a (if isAfter then pre ++ y :: rev rs ++ post else pre ++ rs ++ y :: post).
Proof.
  induction rs as [|x rs IH]; intros g a l Hq Hc Hnd Hndr Hin Hy Hyr.
  { apply list_elem_of_split in Hy as (pre & post & ->). exists g, pre, post.
    rewrite others_nil. split_and!; [done..|]. by destruct isAfter. }
  apply NoDup_cons in Hndr as [Hxr Hndr]. apply not_elem_of_cons in Hyr as [Hyx Hyr].
  assert (x ∈ l) as Hx by (apply Hin; left).
  destruct (_moveData_beside p Hflat x y isAfter g a l Hc Hnd Hx Hy ltac:(congruence))
    as (g1 & P & Q & Hm & Hf & Hc1).
  assert (_moveData p (PRow x) q isAfter g = Ok g1) as Hm'.
  { rewrite <-Hm. unfold _moveData. by rewrite (Hq g eq_refl). }
  pose proof (put_beside_perm isAfter x y l P Q Hx Hnd Hf) as Hperm.
  destruct (IH g1 a (put_beside isAfter x y P Q)) as (g' & pre & post & Hg' & Ho & Hc');
    rewrite ?Hperm; try done.
  { intros g2 Hg2. apply Hq. by rewrite Hg2, (_moveData_idx _ _ _ _ _ Hm). }
  { intros z Hz. rewrite Hperm. apply Hin. by right. }
  exists g'. cbn [map move_all]. rewrite Hm'. cbn [mbind res_bind].
  assert (others (x :: rs) l = others rs P ++ y :: others rs Q) as Hol.
  { by rewrite others_cons, Hf, others_app, others_cons_out. }
  assert (NoDup (others rs (put_beside isAfter x y P Q))) as Hndo by (apply others_nodup; by rewrite Hperm).
  exists (others rs P), (others rs Q). split; [done|]. split; [done|].
  unfold put_beside in Ho, Hndo.
  destruct isAfter; rewrite others_app, !others_cons_out in Ho, Hndo by done.
  - pose proof (split_unique _ _ _ _ _ Hndo Ho) as <-. apply app_inv_head in Ho.
    injection Ho as <-. cbn [rev]. by rewrite <-app_assoc.
  - replace (others rs P ++ x :: y :: others rs Q) with ((others rs P ++ [x]) ++ y :: others rs Q)
      in Ho, Hndo by (by rewrite <-app_assoc).
    pose proof (split_unique _ _ _ _ _ Hndo Ho) as <-. apply app_inv_head in Ho.
    injection Ho as <-. by rewrite <-app_assoc in Hc'.
Qed.
End order.

(** ** From the press to the drop *)

Section drop.
Context (p : options) (cs : columns_state) (g : grid).
Context (gridLeft gridWidth bodyTop bodyHeight : Z) (row_box : rref -> Z * Z).

(** Every row on show is filed under its id. *)
Definition filed : Prop := forall rd, Some rd ∈ rows (idx g) ->
  oget (rowid_of rd g) (records (idx g)) = Some rd.

(** The drop is on a row that is not dragged, below it if the pressed row was met. *)
Definition good_row_drop (row : rref) (rs : list rref) (d : rowdrag) : Prop :=
  forall id, row_dropping d = Some id ->
  exists pre rd post, rows (idx g) = pre ++ Some rd :: post /\ rd ∉ rs /\ id = rowid_of rd g /\
    w_bottom d = bool_decide (Some row ∈ pre ++ [Some rd]).

Lemma drop_on_good row rs rd pre post y d :
  rows (idx g) = pre ++ Some rd :: post -> rd ∉ rs ->
  good_row_drop row rs
    (drop_on p gridLeft gridWidth row_box rd (rowid_of rd g) (bool_decide (Some row ∈ pre ++ [Some rd])) y d).
Proof.
  intros H1 H2 id. unfold drop_on. destruct (row_box rd) as [top height].
  destruct (over_middle _ _ _ _); intros [= <-]; by exists pre, rd, post.
Qed.

Lemma over_rows_good row rs x y l : forall visit pre d,
  rows (idx g) = pre ++ l -> visit = bool_decide (Some row ∈ pre) -> good_row_drop row rs d ->
  good_row_drop row rs (over_rows p gridLeft gridWidth row_box g row rs visit l x y d).
Proof.
  induction l as [|[rd|] l IH]; intros visit pre d Hs Hv Hd; [done| |];
    assert (forall o, rows (idx g) = pre ++ o :: l -> rows (idx g) = (pre ++ [o]) ++ l) as Hs'
      by (intros o ->; by rewrite <-app_assoc); cbn [over_rows].
  2:{ eapply IH; [by apply Hs'| |done]. rewrite Hv. apply bool_decide_ext.
      rewrite elem_of_app, list_elem_of_singleton. split; [by left|intros [|]; done]. }
  assert (visit || bool_decide (row = rd) = bool_decide (Some row ∈ pre ++ [Some rd])) as Hv'.
  { rewrite Hv. destruct (decide (row = rd)) as [->|Hne].
    - rewrite (bool_decide_true (rd = rd)), orb_true_r by done. symmetry. apply bool_decide_eq_true.
      apply elem_of_app. right. left.
    - rewrite (bool_decide_false (row = rd)), orb_false_r by done. apply bool_decide_ext.
      rewrite elem_of_app, list_elem_of_singleton. split; [by left|intros [|]; [done|congruence]]. }
  rewrite Hv'. destruct (bool_decide (rd ∈ rs)) eqn:Erd; [by eapply IH; [apply Hs'| |]|].
  apply bool_decide_eq_false in Erd.
  destruct (row_dropping d) as [k|] eqn:Ek.
  - destruct (negb _); [by eapply IH; [apply Hs'| |]|].
    destruct (over_row _ _ _ _ _ _); [by eapply drop_on_good|].
    eapply IH; [by apply Hs'|done|]. by intros id.
  - destruct (over_row _ _ _ _ _ _); [by eapply drop_on_good|]. by eapply IH; [apply Hs'| |].
Qed.

Lemma over_rows_keeps row rs x y l : forall visit d,
  let d' := over_rows p gridLeft gridWidth row_box g row rs visit l x y d in
  w_row d' = w_row d /\ w_rows d' = w_rows d /\
  (w_dropIn d <> None -> w_dropIn d' <> None).
Proof.
  induction l as [|[rd|] l IH]; intros visit d; cbn [over_rows]; [done| |apply IH].
  assert (forall b, let d' := drop_on p gridLeft gridWidth row_box rd (rowid_of rd g) b y d in
            w_row d' = w_row d /\ w_rows d' = w_rows d /\ w_dropIn d' <> None) as Hon.
  { intros b. unfold drop_on. destruct (row_box rd). by destruct (over_middle _ _ _ _). }
  destruct (bool_decide _); [apply IH|]. destruct (row_dropping d).
  - destruct (negb _); [apply IH|]. destruct (over_row _ _ _ _ _ _).
    + destruct (Hon (visit || bool_decide (row = rd))) as (? & ? & ?). done.
    + destruct (IH (visit || bool_decide (row = rd)) (wset_drop (Some None) (w_bottom d) false IconNo None d))
        as (? & ? & ?). split_and!; [done..|]. auto.
  - destruct (over_row _ _ _ _ _ _); [|apply IH].
    destruct (Hon (visit || bool_decide (row = rd))) as (? & ? & ?). done.
Qed.

Lemma row_onDrag_good row rs b x y d :
  w_row d = Some row -> w_rows d = Some rs -> good_row_drop row rs d ->
  let d' := (row_onDrag p gridLeft gridWidth row_box b g x y d).2 in
  w_row d' = Some row /\ w_rows d' = Some rs /\ good_row_drop row rs d' /\
  (w_dropIn d <> None \/ b = false -> w_dropIn d' <> None).
Proof.
  intros Hr Hrs Hd. cbn zeta. unfold row_onDrag. rewrite Hr.
  destruct b; [split_and!; [done..|by intros [?|?]]|].
  rewrite Hrs. change (default [row] (Some rs)) with rs.
  set (d1 := match w_dropIn d with None => _ | Some _ => d end).
  assert (w_row d1 = Some row /\ w_rows d1 = Some rs /\ good_row_drop row rs d1 /\
          w_dropIn d1 <> None /\ w_range d1 = w_range d) as (H1 & H2 & H3 & H4 & H5).
  { unfold d1. destruct (w_dropIn d) eqn:E; [by rewrite E|]. by split_and!. }
  rewrite H5. destruct (w_range d) as [[[top bottom] lft] rgt].
  destruct (_ || _ || _ || _); cbn [snd].
  - split_and!; [done..| |done]. by intros id.
  - destruct (over_rows_keeps row rs x y (rows (idx g)) false d1) as (K1 & K2 & K3).
    split_and!; [by rewrite K1|by rewrite K2| |auto].
    by apply (over_rows_good row rs x y _ false []).
Qed.

Lemma row_drags_good row rs moves : forall d,
  w_row d = Some row -> w_rows d = Some rs -> good_row_drop row rs d ->
  let d' := fold_left (fun d m => (row_onDrag p gridLeft gridWidth row_box m.1.1 g m.1.2 m.2 d).2)
              moves d in
  w_row d' = Some row /\ w_rows d' = Some rs /\ good_row_drop row rs d' /\
  (w_dropIn d <> None \/ Exists (fun m => m.1.1 = false) moves -> w_dropIn d' <> None).
Proof.
  induction moves as [|m moves IH]; intros d Hr Hrs Hd.
  { cbn. split_and!; [done..|]. by intros [?|?%Exists_nil]. }
  cbn [fold_left].
  destruct (row_onDrag_good row rs m.1.1 m.1.2 m.2 d Hr Hrs Hd) as (H1 & H2 & H3 & H4).
  destruct (IH _ H1 H2 H3) as (K1 & K2 & K3 & K4). split_and!; [done..|].
  intros [H|[H|H]%Exists_cons]; apply K4; auto.
Qed.

(** The rows a press takes up. *)
Definition taken (e : src) : list rref :=
  if o_checkbox p then getSelectedRows g else option_list (s_row e).

Lemma row_onStartDrag_taken b1 b2 e cell d :
  let start := row_onStartDrag p cs gridLeft gridWidth bodyTop bodyHeight b1 b2 e cell g d in
  start.1 = true ->
  exists row, s_row e = Some row /\ w_row start.2 = Some row /\ w_rows start.2 = Some (taken e) /\
    w_dropIn start.2 = w_dropIn d.
Proof.
  cbn zeta. unfold row_onStartDrag, taken. destruct (b1 || b2); [done|].
  destruct (getColumns None cs); [done|]. destruct cell as [el|], (s_row e) as [row|]; try done.
  destruct (s_checkbox e); [done|]. destruct (_ || _); [|done].
  destruct (o_checkbox p); [destruct (getSelectedRows g)|]; try done; intros _; by exists row.
Qed.

Lemma without_children_flat fuel i rs : without_children false fuel i rs g = rs.
Proof.
  revert i. induction fuel as [|fuel IH]; intros i; [done|]. cbn.
  destruct (rs !! i); [apply IH|done].
Qed.
End drop.

(** C37: Dragging rows of a list and dropping them on a row: they leave their places and
    stand right above it in the order they were taken up, or right below it in the
    reverse order, below exactly when the pressed row is not further down; the other
    rows keep their order.  Let go elsewhere nothing moves.  The first drag of a grid is
    to be moved at least once, not by the resizing of a column: [click_moves_row] is what a
    first press without a move does. *)
Theorem row_drop_order p cs gl gw bt bh row_box b1 b2 e cell g a l d0 moves fuel msg fr vs :
  let start := row_onStartDrag p cs gl gw bt bh b1 b2 e cell g d0 in
  let d := fold_left (fun d m => (row_onDrag p gl gw row_box m.1.1 g m.1.2 m.2 d).2) moves start.2 in
  let rs := taken p g e in
  let d' := RowDrag (w_row d) (w_rows d) false (Some None) (w_bottom d) (w_inParent d) (w_icon d) None
              (w_range d) in
  o_tree p = false -> filed g ->
  current_list g a l -> NoDup l -> NoDup rs ->
  (forall rd, Some rd ∈ rows (idx g) -> rd ∈ l) -> (forall x, x ∈ rs -> x ∈ l) ->
  start.1 = true ->
  w_dropIn d0 = Some None \/ w_dropIn d0 = None /\ Exists (fun m => m.1.1 = false) moves ->
  (row_dropping d = None ->
   row_onStopDrag p false fuel msg fr vs d g = Ok (d', g)) /\
  forall id, row_dropping d = Some id ->
  exists y g1 pre post, getRow (PStr id) g = Some y /\ y ∉ rs /\
    (exists above below row, s_row e = Some row /\ rows (idx g) = above ++ Some y :: below /\
       w_bottom d = bool_decide (Some row ∈ above ++ [Some y])) /\
    others rs l = pre ++ y :: post /\
    current_list g1 a (if w_bottom d then pre ++ y :: rev rs ++ post else pre ++ rs ++ y :: post) /\
    row_onStopDrag p false fuel msg fr vs d g
    = (g2 ← reRender p fuel msg fr vs g1; Ok (d', log g2 (EvTrigger "rowDragDrop"%string None))).
Proof.
  intros start d rs d' Hflat Hfiled Hc Hnd Hndr Hshown Hrs Hst H0.
  destruct (row_onStartDrag_taken p cs g gl gw bt bh b1 b2 e cell d0 Hst) as (row & Hrow & H1 & H2 & H3).
  fold start rs in H1, H2, H3.
  destruct (row_drags_good p g gl gw row_box row rs moves start.2 H1 H2) as (K1 & K2 & Hgood & K4).
  { intros id. unfold row_dropping. rewrite H3. by destruct H0 as [-> |[-> _]]. }
  fold d in K1, K2, Hgood, K4.
  specialize (K4 ltac:(rewrite H3; destruct H0 as [-> |[_ ?]]; [by left|by right])).
  unfold row_onStopDrag. rewrite K2. cbn [of_option mbind res_bind].
  rewrite without_children_flat. unfold drop_rows, drop_parm, row_dropping in *.
  fold d'. rewrite <-K2. fold d'.
  destruct (w_dropIn d) as [[id|]|] eqn:Ed; [|split; [done|by intros]|done].
  split; [done|]. intros id' Hid'. cbn in Hid'. injection Hid' as <-. rewrite Hflat.
  destruct (Hgood id ltac:(unfold row_dropping; by rewrite Ed)) as (above & y & below & Hs & Hy & Hid & Hb).
  assert (Some y ∈ rows (idx g)) as Hyr by (rewrite Hs; apply elem_of_app; right; left).
  assert (forall g', idx g' = idx g -> getRow (PStr id) g' = Some y) as Hq.
  { intros g' Hg'. pose proof (Hfiled y Hyr) as Hf. rewrite <-Hid in Hf. cbn.
    unfold _isRowId. rewrite Hg', bool_decide_true; [done|]. apply in_okeys. by exists y. }
  destruct (move_all_order p Hflat (PStr id) y (w_bottom d) rs g a l Hq Hc Hnd Hndr Hrs
    (Hshown y Hyr) Hy) as (g1 & pre & post & Hm & Ho & Hc1).
  exists y, g1, pre, post. split_and!; [by apply Hq|done| |done|done|].
  - by exists above, below, row.
  - unfold moveRange. rewrite Hm. cbn [mbind res_bind].
    by destruct (reRender p fuel msg fr vs g1).
Qed.

(** ** Examples *)

Local Open Scope string_scope.

(** The three rows, on show, in a grid with check boxes; every row is twenty pixels high. *)
Definition check_options : options := Options false "__status" true false true true 2.
Definition shown_grid : grid :=
  match _updateGridData check_options 3 demo_grid with Ok g => g | Throw _ => demo_grid end.
Definition two_selected : grid := set_selected shown_grid [1%positive; 2%positive].
Definition demo_row_box (r : rref) : Z * Z := (20 * Z.pos r, 20).

Definition on_row (r : rref) : src :=
  Src false false false false false false false None (Some r) (Some "grid|r1001|c101") false false
    false false None false.
Definition number_cell : option element :=
  Some (Element ["l-grid-row-cell"; "l-grid-row-cell-rownumbers"] "grid|r1001|c101" 7%positive).
Definition no_rowdrag (drop : option (option string)) : rowdrag :=
  RowDrag None None false drop false false IconNo None (0, 0, 0, 0).

Definition row_run (p : options) (g : grid) (r : rref) (drop : option (option string))
    (moves : list (bool * Z * Z)) : rowdrag :=
  fold_left (fun d m => (row_onDrag p 0 600 demo_row_box m.1.1 g m.1.2 m.2 d).2) moves
    (row_onStartDrag p demo_cols 0 600 20 200 false false (on_row r) number_cell g (no_rowdrag drop)).2.

(** The order of the rows after a drag. *)
Definition order_after (p : options) (d : rowdrag) (g : grid) : option (list rref) :=
  match row_onStopDrag p true 5 "" false true d g with
  | Ok (_, g') => arrh (heap g') !! 1%positive
  | Throw _ => None
  end.

Lemma row_drop_order_witness :
  row_dropping (row_run check_options two_selected 1%positive None [(false, 50, 70)]) = Some "r1003" /\
  exists g1, current_list g1 1%positive [3%positive; 2%positive; 1%positive].
Proof.
  split; [vm_compute; reflexivity|].
  destruct (row_drop_order check_options demo_cols 0 600 20 200 demo_row_box false false
    (on_row 1%positive) number_cell two_selected 1%positive [1%positive; 2%positive; 3%positive]
    (no_rowdrag None) [(false, 50, 70)] 5 "" false true)
    as [_ H]; try reflexivity.
  - intros rd Hrd. vm_compute in Hrd.
    repeat (apply elem_of_cons in Hrd as [[= ->]|Hrd]; [reflexivity|]). by apply elem_of_nil in Hrd.
  - split; reflexivity.
  - exact demo_nodup.
  - apply (bool_decide_unpack _). vm_compute. exact I.
  - intros rd Hrd. vm_compute in Hrd.
    repeat (apply elem_of_cons in Hrd as [[= ->]|Hrd]; [set_solver|]). by apply elem_of_nil in Hrd.
  - intros x Hx. vm_compute in Hx. set_solver.
  - right. split; [reflexivity|]. by constructor.
  - destruct (H "r1003" ltac:(vm_compute; reflexivity)) as (y & g1 & pre & post & Hy & _ & _ & Ho & Hc & _).
    exists g1. vm_compute in Hy. injection Hy as <-. vm_compute in Ho.
    destruct pre as [|z [|z' pre]]; cbn in Ho; injection Ho as <-; try discriminate.
    + exact Hc.
Defined.

(** Two rows dropped below the third change places. *)
Example dropped_below_reversed :
  order_after check_options
    (row_run check_options two_selected 1%positive (Some None) [(false, 50, 70)]) two_selected
  = Some [3%positive; 2%positive; 1%positive].
Proof. vm_compute. done. Qed.

(** A first click that does not move the mouse moves the row. *)
Example click_moves_row :
  order_after demo_options (row_run demo_options shown_grid 1%positive None []) shown_grid
  = Some [2%positive; 1%positive; 3%positive].
Proof. vm_compute. done. Qed.

(** A tree: [1] holds [2], which holds [3]. *)
Definition tree_options : options := Options true "__status" true false true true 2.
Definition tree_grid : grid :=
  let h := Store (<[1%positive := with_children (Some 2%positive) (blank_row "a")]>
                  (<[2%positive := with_children (Some 3%positive) (blank_row "b")]>
                  (<[3%positive := blank_row "c"]> (<[4%positive := blank_row "d"]> ∅))))
             (<[1%positive := [1%positive; 4%positive]]> (<[2%positive := [2%positive]]>
               {[ 3%positive := [3%positive] ]}))
             {[ 1%positive := Source (Some 1%positive) (Some 2) ]} in
  match _updateGridData tree_options 5 (set_heap demo_grid h) with Ok g => g | Throw _ => demo_grid end.

(** Of a row, its child and its grandchild, all dragged, the grandchild is not found
    to be inside: the row above it is no longer in the list when its turn comes. *)
Example grandchild_taken_out :
  without_children true 3 0 [1%positive; 2%positive; 3%positive] tree_grid = [1%positive; 3%positive].
Proof. vm_compute. done. Qed.

(** A row dropped on the row inside it is lost with it. *)
Example row_dropped_inside :
  let g := set_selected tree_grid [1%positive] in
  order_after tree_options (row_run tree_options g 1%positive (Some None) [(false, 50, 50)]) g
  = Some [4%positive].
Proof. vm_compute. done. Qed.
