(* ===== verification/Json.v ===== *)
(** * JSON texts

    [json2.js]: [quote], [str], [stringify] and the [walk] of [parse], and
    [base.js]'s fallback [toJSON].  A string is the list of its UTF-16 code
    units. *)

From S2P Require Import Prelude JsString JsNum JsDate.
From Stdlib Require Import Ascii.
Local Open Scope string_scope.
Local Open Scope Z_scope.

Abbreviation text := (list Z).

(** The code units of an ASCII string. *)
Fixpoint units (s : string) : text :=
  match s with EmptyString => [] | String c s' => Z.of_nat (nat_of_ascii c) :: units s' end.

(** ** Quoting *)

Definition in_range (lo hi c : Z) : bool := (lo <=? c) && (c <=? hi).

(** The characters of the [escapable] pattern. *)
Definition escapable (c : Z) : bool :=
  (c =? 92) || (c =? 34) || in_range 0 31 c || in_range 127 159 c || (c =? 173)
  || in_range 1536 1540 c || (c =? 1807) || (c =? 6068) || (c =? 6069)
  || in_range 8204 8207 c || in_range 8232 8239 c || in_range 8288 8303 c
  || (c =? 65279) || in_range 65520 65535 c.

(** The table of short escapes: the letter after the backslash. *)
Definition meta (c : Z) : option Z :=
  if c =? 8 then Some 98 else if c =? 9 then Some 116 else if c =? 10 then Some 110
  else if c =? 12 then Some 102 else if c =? 13 then Some 114
  else if c =? 34 then Some 34 else if c =? 92 then Some 92 else None.

Definition hex_digit (d : Z) : Z := if d <? 10 then 48 + d else 87 + d.

(** [('0000' + c.toString(16)).slice(-4)] of a code unit. *)
Definition hex4 (c : Z) : text :=
  [hex_digit (c / 4096 mod 16); hex_digit (c / 256 mod 16); hex_digit (c / 16 mod 16);
   hex_digit (c mod 16)].

Definition escape (c : Z) : text :=
  match meta c with Some m => [92; m] | None => 92 :: 117 :: hex4 c end.

Definition quote_units (s : text) : text :=
  flat_map (fun c => if escapable c then escape c else [c]) s.

Definition quote (s : text) : text := 34 :: quote_units s ++ [34].

(** ** Values *)

(** What [stringify] can be given: a date is its time, [None] when invalid. *)
Inductive json :=
| JUndef | JFun | JNull
| JBool (b : bool)
| JNum (x : num)
| JStr (s : text)
| JDate (t : option Z)
| JArr (l : list json)
| JObj (l : list (text * json)).

Definition f (n : Z) : string := if n <? 10 then "0" ++ show_Z n else show_Z n.

(** [Date.prototype.toJSON]. *)
Definition date_toJSON (t : option Z) : json :=
  match t with
  | None => JNull
  | Some t =>
      JStr (units (show_Z (getUTCFullYear t) ++ "-" ++ f (getUTCMonth t + 1) ++ "-"
                   ++ f (getUTCDate t) ++ "T" ++ f (getUTCHours t) ++ ":"
                   ++ f (getUTCMinutes t) ++ ":" ++ f (getUTCSeconds t) ++ "Z"))
  end.

(** A replacer: a function of the key (in an array the index, here as a text; the
    holder is not passed), or the names of the members to keep, in order. *)
Inductive replacer :=
| RNone
| RFun (rep : text -> json -> json)
| RList (keys : list text).

Definition isFinite (x : num) : bool :=
  negb (isNaN x || (x === infinity)%num || (x === neg_infinity)%num).

(** Joining pieces with a separator. *)
Fixpoint join_text (sep : text) (l : list text) : text :=
  match l with
  | [] => []
  | [s] => s
  | s :: l' => s ++ sep ++ join_text sep l'
  end%list.

(** The brackets around the pieces, on one line or one piece per line. *)
Definition wrap (opening closing : Z) (gap mind : text) (partial : list text) : text :=
  match partial with
  | [] => [opening; closing]
  | _ =>
      match gap with
      | [] => opening :: join_text [44] partial ++ [closing]
      | _ => opening :: 10 :: gap ++ join_text (44 :: 10 :: gap) partial ++ 10 :: mind ++ [closing]
      end
  end%list.

Definition or_null (v : option text) : text :=
  match v with Some (c :: s) => c :: s | _ => units "null" end.

Definition out_of_fuel : string := "out of fuel".

Section str.
Context (call : list (text * json) -> text -> json).
Context (rep : replacer) (indent : text).

(** The member of an object, which has one of a name at most.  A name it does not
  have gives [undefined], or what it inherits, a function: neither is printed. *)
Fixpoint member (k : text) (l : list (text * json)) : json :=
match l with
| [] => JUndef
| (k', v) :: l' => if bool_decide (k = k') then v else member k l'
end.

(** The loop over an array, by the printer of an element. *)
Fixpoint elements (print : text -> json -> res (option text)) (i : Z) (l : list json)
    : res (list text) :=
  match l with
  | [] => Ok []
  | v :: l' =>
      s ← print (units (show_Z i)) v;
      rest ← elements print (i + 1) l';
      Ok (or_null s :: rest)
  end.

(** The loop over an object's members; one that prints to nothing is left out. *)
Fixpoint members (print : text -> json -> res (option text)) (colon : text)
    (l : list (text * json)) : res (list text) :=
  match l with
  | [] => Ok []
  | (k, v) :: l' =>
      s ← print k v;
      rest ← members print colon l';
      Ok (match s with
          | Some (c :: s) => (quote k ++ colon ++ c :: s) :: rest
          | _ => rest end)%list
  end.

(** The call [value.toJSON(key)] of a value that has the method: a date, or an object
    with a function as its member [toJSON], what that function answers being [call]. *)
Definition toJSON_called (key : text) (value : json) : json :=
  match value with
  | JDate t => date_toJSON t
  | JObj l => match member (units "toJSON") l with JFun => call l key | _ => value end
  | v => v
  end.

(** [str(key, holder)] with [value = holder[key]]; [None] is [undefined].  The fuel
    is the depth of the value. *)
Fixpoint str (fuel : nat) (gap key : text) (value : json) : res (option text) :=
  match fuel with
  | O => Throw out_of_fuel
  | S fuel' =>
      let value := toJSON_called key value in
      let value := match rep with RFun r => r key value | _ => value end in
      let gap' := (gap ++ indent)%list in
      match value with
      | JUndef | JFun => Ok None
      | JNull => Ok (Some (units "null"))
      | JBool b => Ok (Some (units (if b then "true" else "false")))
      | JNum x => Ok (Some (if isFinite x then units (num_string x) else units "null"))
      | JStr s => Ok (Some (quote s))
      | JArr l =>
          partial ← elements (str fuel' gap') 0 l;
          Ok (Some (wrap 91 93 gap' gap partial))
      | JObj l =>
          partial ← members (str fuel' gap') (match gap' with [] => [58] | _ => [58; 32] end)
                      (match rep with
                       | RList ks => map (fun k => (k, member k l)) ks
                       | _ => l end);
          Ok (Some (wrap 123 125 gap' gap partial))
      | JDate _ => Ok (Some (wrap 123 125 gap' gap []))
      end
  end.

End str.

(** [stringify(value, replacer, space)]. *)
Definition space_units (space : Z + text) : text :=
  match space with inl n => units (str_repeat (Z.to_nat n) " ") | inr s => s end.

Definition stringify (call : list (text * json) -> text -> json) (fuel : nat) (value : json) (rep : replacer) (space : Z + text)
    : res (option text) := str call rep (space_units space) fuel [] [] value.

Example stringify_ex :
  stringify (fun _ _ => JUndef) 9 (JArr [JNum 1%float; JUndef; JObj [(units "a", JBool true); (units "b", JFun)]])
    RNone (inl 0) = Ok (Some (units (String "[" "1,null,{") ++ quote (units "a")
                              ++ units ":true}]"))%list.
Proof. vm_compute. reflexivity. Qed.

(** An object that says itself what is printed of it. *)
Example toJSON_ex :
  stringify (fun l key => JStr (key ++ units "!")) 9
    (JObj [(units "a", JObj [(units "b", JNull); (units "toJSON", JFun)])]) RNone (inl 0) =
  Ok (Some (units "{" ++ quote (units "a") ++ units ":" ++ quote (units "a!") ++ units "}"))%list.
Proof. vm_compute. reflexivity. Qed.

(** ** [parse]: the walk of the reviver *)

Section walk.
Context (reviver : text -> json -> json).

(** The members first; one for which the reviver returns [undefined] is deleted, in
  an array leaving a hole, here [JUndef], that the walk does not visit. *)
Fixpoint walk (key : text) (value : json) : json :=
reviver key
  match value with
  | JArr l => JArr ((fix go (i : Z) l := match l with
                       | [] => []
                       | JUndef :: l' => JUndef :: go (i + 1) l'
                       | v :: l' => walk (units (show_Z i)) v :: go (i + 1) l'
                       end) 0 l)
  | JObj l => JObj ((fix go l := match l with
                       | [] => []
                       | (k, v) :: l' => match walk k v with
                                         | JUndef => go l'
                                         | w => (k, w) :: go l'
                                         end
                       end) l)
  | v => v
  end.
End walk.

(** The characters that [parse] escapes before reading. *)
Definition cx (c : Z) : bool :=
  (c =? 0) || (c =? 173) || in_range 1536 1540 c || (c =? 1807) || (c =? 6068) || (c =? 6069)
  || in_range 8204 8207 c || in_range 8232 8239 c || in_range 8288 8303 c
  || (c =? 65279) || in_range 65520 65535 c.

Definition escape_unsafe (s : text) : text :=
  flat_map (fun c => if cx c then 92 :: 117 :: hex4 c else [c]) s.

(** ** [base.js]: [toJSON] for browsers without [JSON]

    The table [meta] is not in its scope: a string with a character to escape is a
    [ReferenceError].  Dates are printed by their own [toJSON] when [json2.js] has
    given them one; else by [this], which is the library and not the date: not a
    finite number, so the result is [null]. *)
Definition ReferenceError : string := "ReferenceError".

Definition base_quote (s : text) : res text :=
  if existsb escapable s then Throw ReferenceError else Ok (34 :: s ++ [34])%list.

(** What the function returns: [undefined], [null] or a string. *)
Inductive printed := PUndef | PNull | PText (s : text).

(** The value in a concatenation. *)
Definition printed_text (r : printed) : text :=
  match r with PUndef => units "undefined" | PNull => units "null" | PText s => s end.

(** [r || 'null']. *)
Definition printed_or_null (r : printed) : text :=
  match r with PText (c :: s) => c :: s | _ => units "null" end.

Section toJSON.
Context (dates_have_toJSON : bool).

Definition toJSON_date (t : option Z) : res printed :=
  if dates_have_toJSON then
    match date_toJSON t with
    | JStr s => q ← base_quote s; Ok (PText q)
    | _ => Ok (PText (units "null"))
    end
  else Ok PNull.

Fixpoint toJSON (o : json) : res printed :=
  match o with
  | JNull => Ok (PText (units "null"))
  | JUndef | JFun => Ok PUndef
  | JStr s => q ← base_quote s; Ok (PText q)
  | JNum x => Ok (PText (units (num_string x)))
  | JBool b => Ok (PText (units (if b then "true" else "false")))
  | JDate t => toJSON_date t
  | JArr l =>
      pairs ← (fix go l := match l with
                 | [] => Ok []
                 | v :: l' => s ← toJSON v; rest ← go l'; Ok (printed_or_null s :: rest)
                 end) l;
      Ok (PText (91 :: join_text [44] pairs ++ [93]))
  | JObj l =>
      pairs ← (fix go l := match l with
                 | [] => Ok []
                 | (k, v) :: l' =>
                     name ← base_quote k;
                     match v with
                     | JUndef | JFun => go l'
                     | _ =>
                         s ← toJSON v;
                         rest ← go l';
                         Ok ((name ++ 58 :: printed_text s) :: rest)
                     end
                 end) l;
      Ok (PText (123 :: join_text [44] pairs ++ [125]))
  end%list.
End toJSON.

(** ** Reading a string back *)

Definition hex_value (c : Z) : option Z :=
  if in_range 48 57 c then Some (c - 48)
  else if in_range 97 102 c then Some (c - 87)
  else if in_range 65 70 c then Some (c - 55) else None.

(** What the letter after a backslash stands for. *)
Definition unmeta (c : Z) : option Z :=
  if c =? 98 then Some 8 else if c =? 116 then Some 9 else if c =? 110 then Some 10
  else if c =? 102 then Some 12 else if c =? 114 then Some 13
  else if c =? 34 then Some 34 else if c =? 92 then Some 92 else if c =? 47 then Some 47
  else None.

(** The rest of a string literal of the JSON grammar, after the opening quote: its
    value and the text after it. *)
Fixpoint read_units (s : text) : option (text * text) :=
  match s with
  | [] => None
  | q :: s' =>
      if q =? 34 then Some ([], s')
      else if q =? 92 then
        match s' with
        | [] => None
        | e :: s' =>
            if e =? 117 then
              match s' with
              | a :: b :: c :: d :: s' =>
                  w ← hex_value a; x ← hex_value b; y ← hex_value c; z ← hex_value d;
                  r ← read_units s';
                  Some (4096 * w + 256 * x + 16 * y + z :: r.1, r.2)
              | _ => None
              end
            else u ← unmeta e; r ← read_units s'; Some (u :: r.1, r.2)
        end
      else if q <? 32 then None
      else r ← read_units s'; Some (q :: r.1, r.2)
  end.

Definition read_string (s : text) : option (text * text) :=
  match s with q :: s' => if q =? 34 then read_units s' else None | [] => None end.

Definition is_unit (c : Z) : Prop := 0 <= c < 65536.
Local Close Scope string_scope.

Lemma hex_digit_value d : 0 <= d < 16 -> hex_value (hex_digit d) = Some d.
Proof.
  intros. unfold hex_digit, hex_value, in_range.
  destruct (d <? 10) eqn:E; zbool.
  - replace (48 <=? 48 + d) with true by (symmetry; apply Z.leb_le; lia).
    replace (48 + d <=? 57) with true by (symmetry; apply Z.leb_le; lia). cbn. f_equal. lia.
  - replace (87 + d <=? 57) with false by (symmetry; apply Z.leb_gt; lia).
    rewrite andb_false_r.
    replace (97 <=? 87 + d) with true by (symmetry; apply Z.leb_le; lia).
    replace (87 + d <=? 102) with true by (symmetry; apply Z.leb_le; lia). cbn. f_equal. lia.
Qed.

Lemma hex4_value c : is_unit c ->
  4096 * (c / 4096 mod 16) + 256 * (c / 256 mod 16) + 16 * (c / 16 mod 16) + c mod 16 = c.
Proof.
  unfold is_unit. intros.
  pose proof (Z.div_mod c 16 ltac:(lia)). pose proof (Z.div_mod (c / 16) 16 ltac:(lia)).
  pose proof (Z.div_mod (c / 256) 16 ltac:(lia)).
  assert (c / 16 / 16 = c / 256) by (rewrite Z.div_div by lia; done).
  assert (c / 256 / 16 = c / 4096) by (rewrite Z.div_div by lia; done).
  assert (c / 4096 mod 16 = c / 4096) by (apply Z.mod_small; split; [apply Z.div_pos; lia|];
    apply Z.div_lt_upper_bound; lia).
  lia.
Qed.

Lemma read_escape c s r :
  is_unit c -> read_units s = Some r ->
  read_units (escape c ++ s) = Some (c :: r.1, r.2).
Proof.
  intros Hc Hr. unfold escape, meta.
  repeat (match goal with |- context [if c =? ?k then _ else _] =>
            destruct (c =? k) eqn:?; zbool;
            [subst c; cbn; rewrite Hr; reflexivity|] end).
  unfold hex4. cbn [app read_units].
  change (92 =? 34) with false. change (92 =? 92) with true. change (117 =? 117) with true.
  cbn iota. rewrite !hex_digit_value by (apply Z.mod_pos_bound; lia). cbn [mbind option_bind].
  rewrite Hr. cbn [mbind option_bind]. by rewrite hex4_value.
Qed.

Lemma read_plain c s r :
  escapable c = false -> 0 <= c -> read_units s = Some r ->
  read_units (c :: s) = Some (c :: r.1, r.2).
Proof.
  intros He Hc Hr. unfold escapable in He.
  repeat (apply orb_false_iff in He as [He ?]). zbool.
  unfold in_range in *. cbn [read_units].
  destruct (c =? 34) eqn:?; zbool; [lia|]. destruct (c =? 92) eqn:?; zbool; [lia|].
  destruct (c <? 32) eqn:?; [|by rewrite Hr]. exfalso.
  match goal with H : (0 <=? c) && _ = false |- _ => apply andb_false_iff in H as [H|H] end;
    zbool; lia.
Qed.

(** A quoted string, whatever its characters, reads back as the string it was made
    from, by the string literals of the JSON grammar. *)
Lemma read_quoted s rest :
  Forall is_unit s -> read_string (quote s ++ rest) = Some (s, rest).
Proof.
  intros Hs. unfold quote, read_string. cbn [app]. change (34 =? 34) with true. cbn iota.
  rewrite <-app_assoc. cbn [app].
  induction Hs as [|c s Hc Hs IH]; [done|].
  cbn [quote_units flat_map]. rewrite <-app_assoc. fold (quote_units s).
  destruct (escapable c) eqn:E.
  - by rewrite (read_escape c _ (s, rest)).
  - cbn [app]. rewrite (read_plain c _ (s, rest)); [done|done| |done]. unfold is_unit in Hc. lia.
Qed.

(** The fallback of the component library throws on every string that has a
    character to escape, and agrees with [json2.js] on the others; and where dates
    have no [toJSON] it prints every date as [null]. *)
Theorem toJSON_string b s t :
  toJSON b (JStr s) = (if existsb escapable s then Throw ReferenceError else Ok (PText (quote s))) /\
  toJSON false (JDate t) = Ok PNull.
Proof.
  split; [|done]. cbn. unfold base_quote. destruct (existsb escapable s) eqn:E; [done|]. cbn.
  do 2 f_equal. unfold quote. do 2 f_equal.
  induction s as [|c s IH]; [done|]. cbn in E. apply orb_false_iff in E as [E1 E2].
  cbn. rewrite E1. cbn. f_equal. by apply IH.
Qed.
