(* ===== verification/JsonText.v ===== *)
(** * Reading JSON texts

    [parse] of [json2.js]: the three replacements that guard its [eval], and the
    reviver's walk after it.  [eval] is the language's and a parameter; a reader of
    the JSON grammar, [read_json], says what it gives on a JSON text.  Every text
    that [stringify] makes, with any white space for indent, passes the guard and
    reads back as the value without the members that JSON cannot hold. *)

From S2P Require Import Prelude JsString JsNum JsDate Json.
From Stdlib Require Import Ascii.
Local Open Scope string_scope.
Local Open Scope list_scope.
Local Open Scope Z_scope.

(** ** Tokens *)

(** The white space of JSON; [\s] has more, see [space]. *)
Definition json_ws (c : Z) : bool := (c =? 32) || (c =? 9) || (c =? 10) || (c =? 13).

(** The characters of [\s]. *)
Definition space (c : Z) : bool :=
  in_range 9 13 c || (c =? 32) || (c =? 160) || (c =? 5760) || in_range 8192 8202 c
  || (c =? 8232) || (c =? 8233) || (c =? 8239) || (c =? 8287) || (c =? 12288) || (c =? 65279).

Definition digit (c : Z) : bool := in_range 48 57 c.
Definition is_hex (c : Z) : bool := bool_decide (is_Some (hex_value c)).

(** The text after a word. *)
Fixpoint after (w s : text) : option text :=
  match w, s with
  | [], _ => Some s
  | c :: w', d :: s' => if c =? d then after w' s' else None
  | _ :: _, [] => None
  end.

(** The numbers of the guard, digits with a sign, a fraction and an exponent if they
    please, as an automaton: at the start, after the sign, in the digits, in the
    fraction, after the [e], after its sign, in the exponent. *)
Inductive place := PStart | PSign | PInt | PFrac | PExp | PExpSign | PExpInt.

Definition step (p : place) (c : Z) : option place :=
  match p with
  | PStart => if c =? 45 then Some PSign else if digit c then Some PInt else None
  | PSign => if digit c then Some PInt else None
  | PInt => if digit c then Some PInt else if c =? 46 then Some PFrac
            else if (c =? 101) || (c =? 69) then Some PExp else None
  | PFrac => if digit c then Some PFrac
             else if (c =? 101) || (c =? 69) then Some PExp else None
  | PExp => if (c =? 43) || (c =? 45) then Some PExpSign
            else if digit c then Some PExpInt else None
  | PExpSign | PExpInt => if digit c then Some PExpInt else None
  end.
Definition accepts (p : place) : bool :=
  match p with PInt | PFrac | PExpInt => true | _ => false end.

(** The length of the longest number at the start; [best] is the last one seen. *)
Fixpoint number_scan (p : place) (i : nat) (best : option nat) (s : text) : option nat :=
  match s with
  | [] => best
  | c :: s' =>
      match step p c with
      | None => best
      | Some p' => number_scan p' (S i) (if accepts p' then Some (S i) else best) s'
      end
  end.
Definition number_len (s : text) : option nat := number_scan PStart 0 None s.

(** The length of a string without backslash or line end, after the opening
    quote. *)
Fixpoint string_len (s : text) : option nat :=
  match s with
  | [] => None
  | c :: s' =>
      if c =? 34 then Some 1%nat
      else if (c =? 92) || (c =? 10) || (c =? 13) then None
      else n ← string_len s'; Some (S n)
  end.

(** ** The guard of [parse] *)

(** The first replacement, of the escapes of a string by at signs. *)
Fixpoint at_escapes (s : text) : text :=
  match s with
  | [] => []
  | c :: s' =>
      if c =? 92 then
        match s' with
        | e :: s1 =>
            if bool_decide (is_Some (unmeta e)) then 64 :: at_escapes s1
            else if e =? 117 then
              match s1 with
              | h1 :: h2 :: h3 :: h4 :: s2 =>
                  if is_hex h1 && is_hex h2 && is_hex h3 && is_hex h4 then 64 :: at_escapes s2
                  else c :: at_escapes s'
              | _ => c :: at_escapes s'
              end
            else c :: at_escapes s'
        | [] => c :: at_escapes s'
        end
      else c :: at_escapes s'
  end.

(** A string without escapes, a word or a number at the start: its length. *)
Definition token_len (s : text) : option nat :=
  match s with
  | [] => None
  | c :: s' =>
      if c =? 34 then n ← string_len s'; Some (S n)
      else match after (units "true") s, after (units "false") s, after (units "null") s with
           | Some _, _, _ => Some 4%nat
           | None, Some _, _ => Some 5%nat
           | None, None, Some _ => Some 4%nat
           | None, None, None => number_len s
           end
  end.

(** The second replacement, of tokens by closing brackets; [skip] characters belong
    to the last one. *)
Fixpoint bracket_tokens (skip : nat) (s : text) : text :=
  match s with
  | [] => []
  | c :: s' =>
      match skip with
      | S k => bracket_tokens k s'
      | O => match token_len s with
             | Some (S k) => 93 :: bracket_tokens k s'
             | _ => c :: bracket_tokens 0 s'
             end
      end
  end.

(** The length of the opening brackets, with white space before each, at the start, zero when it does not match; [n]
    characters have been read and [best] of them matched. *)
Fixpoint opens (n best : nat) (s : text) : nat :=
  match s with
  | [] => best
  | c :: s' => if space c then opens (S n) best s'
               else if c =? 91 then opens (S n) (S n) s' else best
  end.

(** The third replacement, which takes out the opening brackets at the start of the
    text, after a colon and after a comma. *)
Fixpoint strip_opens (first : bool) (skip : nat) (s : text) : text :=
  match s with
  | [] => []
  | c :: s' =>
      match skip with
      | S k => strip_opens false k s'
      | O =>
          match (if first then opens 0 0 s else O) with
          | S k => strip_opens false k s'
          | O => match (if (c =? 58) || (c =? 44) then opens 0 0 s' else O) with
                 | O => c :: strip_opens false 0 s'
                 | S k => strip_opens false (S k) s'
                 end
          end
      end
  end.

(** What may be left. *)
Definition plain_char (c : Z) : bool :=
  (c =? 93) || (c =? 44) || (c =? 58) || (c =? 123) || (c =? 125) || space c.

Definition looks_safe (s : text) : bool :=
  forallb plain_char (strip_opens true 0 (bracket_tokens 0 (at_escapes s))).

Example looks_safe_ex :
  looks_safe (units "[1, [-2.5e3, {}], true]") = true /\ looks_safe (units "alert()") = false /\
  looks_safe (91 :: quote [34; 92; 10] ++ [93]) = true /\
  looks_safe (units "[[,:}") = true /\ looks_safe (units "1[2]") = false.
Proof. vm_compute. done. Qed.

Definition SyntaxError : string := "SyntaxError".

(** [parse(text, reviver)]. *)
Definition parse (eval : text -> res json) (s : text) (reviver : option (text -> json -> json))
    : res json :=
  let s := escape_unsafe s in
  if looks_safe s then
    j ← eval (40 :: s ++ [41]);
    Ok (match reviver with Some r => walk r [] j | None => j end)
  else Throw SyntaxError.

(** ** Reading by the grammar *)

Fixpoint skip_ws (s : text) : text :=
  match s with [] => [] | c :: s' => if json_ws c then skip_ws s' else s end.

Definition expect (c : Z) (s : text) : option text :=
  match s with d :: s' => if d =? c then Some s' else None | [] => None end.

Fixpoint ascii_of_units (s : text) : string :=
  match s with
  | [] => EmptyString
  | c :: s' => String (ascii_of_nat (Z.to_nat c)) (ascii_of_units s')
  end.

(** A number of the grammar: no zero in front of a digit, a digit after the
    point. *)
Definition strict_number (s : text) : bool :=
  let u := match s with c :: s' => if c =? 45 then s' else s | [] => s end in
  match u with 48 :: d :: _ => negb (digit d) | _ => true end
  && (fix go (l : text) := match l with
        | 46 :: l' => match l' with d :: _ => digit d | [] => false end && go l'
        | _ :: l' => go l'
        | [] => true end) u.

Definition number_value (s : text) : num :=
  match s with
  | 45 :: u => (- Number (ascii_of_units u))%float
  | _ => Number (ascii_of_units s)
  end.

Definition read_number (s : text) : option (num * text) :=
  n ← number_len s;
  if strict_number (take n s) then Some (number_value (take n s), drop n s) else None.

Fixpoint read_value (fuel : nat) (s : text) : option (json * text) :=
  match fuel with
  | O => None
  | S n =>
      match skip_ws s with
      | [] => None
      | c :: s' =>
          if c =? 34 then '(x, r) ← read_units s'; Some (JStr x, r)
          else if c =? 91 then
            match expect 93 (skip_ws s') with
            | Some r => Some (JArr [], r)
            | None => '(l, r) ← read_elements n s'; Some (JArr l, r)
            end
          else if c =? 123 then
            match expect 125 (skip_ws s') with
            | Some r => Some (JObj [], r)
            | None => '(l, r) ← read_members n s'; Some (JObj l, r)
            end
          else
            match after (units "null") (c :: s'), after (units "true") (c :: s'),
                  after (units "false") (c :: s') with
            | Some r, _, _ => Some (JNull, r)
            | None, Some r, _ => Some (JBool true, r)
            | None, None, Some r => Some (JBool false, r)
            | None, None, None => '(x, r) ← read_number (c :: s'); Some (JNum x, r)
            end
      end
  end
with read_elements (fuel : nat) (s : text) : option (list json * text) :=
  match fuel with
  | O => None
  | S n =>
      '(v, r) ← read_value n s;
      match expect 44 (skip_ws r) with
      | Some r' => '(l, r2) ← read_elements n r'; Some (v :: l, r2)
      | None => r' ← expect 93 (skip_ws r); Some ([v], r')
      end
  end
with read_members (fuel : nat) (s : text) : option (list (text * json) * text) :=
  match fuel with
  | O => None
  | S n =>
      '(k, r) ← read_string (skip_ws s);
      r' ← expect 58 (skip_ws r);
      '(v, r2) ← read_value n r';
      match expect 44 (skip_ws r2) with
      | Some r3 => '(l, r4) ← read_members n r3; Some ((k, v) :: l, r4)
      | None => r3 ← expect 125 (skip_ws r2); Some ([(k, v)], r3)
      end
  end.

(** The value of a JSON text; the fuel is its length. *)
Definition read_json (s : text) : option json :=
  '(v, r) ← read_value (S (length s)) s;
  match skip_ws r with [] => Some v | _ => None end.

Example read_json_ex :
  read_json (units "[1, [-2.5e3, {}], true, null] ")
  = Some (JArr [JNum 1%float; JArr [JNum (-2500)%float; JObj []]; JBool true; JNull]) /\
  read_json (units "[1,]") = None /\ read_json (units "01") = None.
Proof. vm_compute. done. Qed.

(** ** What comes back

    The value that a text made of a value reads back as: the members JSON cannot
    hold are left out, or [null] in an array; dates are strings, infinities and
    [NaN] are [null]. *)
Fixpoint clean (v : json) : option json :=
  match v with
  | JUndef | JFun => None
  | JNull => Some JNull
  | JBool b => Some (JBool b)
  | JNum x => Some (if isFinite x then JNum x else JNull)
  | JStr s => Some (JStr s)
  | JDate t => Some (date_toJSON t)
  | JArr l => Some (JArr (map (fun v => default JNull (clean v)) l))
  | JObj l => Some (JObj ((fix go l := match l with
                | [] => []
                | (k, v) :: l' =>
                    match clean v with Some w => (k, w) :: go l' | None => go l' end
                end) l))
  end.

(** The value after all calls of [toJSON], with what they gave for objects and dates in
    their place; [None] when there are more values inside each other than the fuel. *)
Section resolve.
Context (call : list (text * json) -> text -> json).

Fixpoint resolve_elements (go : text -> json -> option json) (i : Z) (l : list json) : option (list json) :=
  match l with
  | [] => Some []
  | v :: l' => v' ← go (units (show_Z i)) v; r ← resolve_elements go (i + 1) l'; Some (v' :: r)
  end.
Fixpoint resolve_members (go : text -> json -> option json) (l : list (text * json))
    : option (list (text * json)) :=
  match l with
  | [] => Some []
  | (k, v) :: l' => v' ← go k v; r ← resolve_members go l'; Some ((k, v') :: r)
  end.
Fixpoint resolve (fuel : nat) (key : text) (v : json) : option json :=
  match fuel with
  | O => None
  | S fuel' =>
      match toJSON_called call key v with
      | JUndef | JFun => Some JUndef
      | JDate _ => Some (JObj [])
      | JArr l => JArr <$> resolve_elements (resolve fuel') 0 l
      | JObj l => JObj <$> resolve_members (resolve fuel') l
      | v => Some v
      end
  end.
End resolve.

(** No object in it has a [toJSON] to call. *)
Fixpoint uncalled (v : json) : bool :=
  match v with
  | JArr l => forallb uncalled l
  | JObj l => forallb (fun m => uncalled m.2) l
              && match member (units "toJSON") l with JFun => false | _ => true end
  | _ => true
  end.

Fixpoint depth (v : json) : nat :=
  match v with
  | JArr l => S (list_max (map depth l))
  | JObj l => S (list_max (map (fun m => depth m.2) l))
  | _ => 1
  end.

(** A number whose text is one token that reads back as the number: all but [-0],
    by the language's rules for number texts. *)
Definition number_text (x : num) (t : text) : Prop :=
  number_len t = Some (length t) /\ read_number t = Some (x, []).

(** Texts are of code units, and the numbers read back. *)
Fixpoint printable (v : json) : Prop :=
  match v with
  | JNum x => isFinite x = true -> number_text x (units (num_string x))
  | JStr s => Forall is_unit s
  | JArr l => foldr (fun v P => printable v /\ P) True l
  | JObj l => foldr (fun m P => Forall is_unit m.1 /\ printable m.2 /\ P) True l
  | _ => True
  end.

(** No member named [__proto__], no two of one name and none that begins with a
    digit (the language puts such members first). *)
Definition plain_key (k : text) : bool :=
  bool_decide (k <> units "__proto__") && match k with c :: _ => negb (digit c) | [] => true end.
Fixpoint plain_keys (v : json) : bool :=
  match v with
  | JArr l => forallb plain_keys l
  | JObj l => forallb (fun m => plain_key m.1 && plain_keys m.2) l
              && bool_decide (NoDup (map fst l))
  | _ => true
  end.
