(* ===== verification/JsonFacts.v ===== *)
(** * JSON texts: what is printed reads back

    The texts that [stringify] makes, as a grammar with the white space it puts in;
    that the reader of [JsonText] reads them, that each replacement of [parse]'s
    guard leaves a text of the same shape, and so that [parse] of a printed value
    gives the value back. *)

From S2P Require Import Prelude JsString JsNum JsDate Json JsonText.
Local Open Scope list_scope.
Local Open Scope Z_scope.

Definition ws (w : text) : Prop := forallb json_ws w = true.

(** ** The printed texts

    [q] prints the strings: as [quote] does, or as the first replacement leaves
    them. *)
Section texts.
Context (q : text -> text).

Inductive jtext : json -> text -> Prop :=
| jt_null : jtext JNull (units "null")
| jt_bool b : jtext (JBool b) (units (if b then "true" else "false"))
| jt_num x t : number_text x t -> jtext (JNum x) t
| jt_str s : Forall is_unit s -> jtext (JStr s) (q s)
| jt_arr0 : jtext (JArr []) [91; 93]
| jt_arr w w' l t : ws w -> ws w' -> jelements w l t ->
    jtext (JArr l) (91 :: w ++ t ++ w' ++ [93])
| jt_obj0 : jtext (JObj []) [123; 125]
| jt_obj w w' l t : ws w -> ws w' -> jmembers w l t ->
    jtext (JObj l) (123 :: w ++ t ++ w' ++ [125])
with jelements : text -> list json -> text -> Prop :=
| je_one w v t : jtext v t -> jelements w [v] t
| je_cons w v t l t' : ws w -> jtext v t -> jelements w l t' ->
    jelements w (v :: l) (t ++ 44 :: w ++ t')
with jmembers : text -> list (text * json) -> text -> Prop :=
| jm_one w k w2 v t : Forall is_unit k -> ws w2 -> jtext v t ->
    jmembers w [(k, v)] (q k ++ 58 :: w2 ++ t)
| jm_cons w k w2 v t l t' : ws w -> Forall is_unit k -> ws w2 -> jtext v t -> jmembers w l t' ->
    jmembers w ((k, v) :: l) (q k ++ 58 :: w2 ++ t ++ 44 :: w ++ t').
End texts.

Scheme jtext_mut := Induction for jtext Sort Prop
  with jelements_mut := Induction for jelements Sort Prop
  with jmembers_mut := Induction for jmembers Sort Prop.
Combined Scheme jtext_ind3 from jtext_mut, jelements_mut, jmembers_mut.

(** A text that a number does not go on in. *)
Definition stops (s : text) : Prop :=
  match s with [] => True | c :: _ => forall p, step p c = None end.

Lemma stops_cons c s : forallb (fun p => bool_decide (step p c = None))
    [PStart; PSign; PInt; PFrac; PExp; PExpSign; PExpInt] = true -> stops (c :: s).
Proof. cbn. rewrite !andb_true_iff, !bool_decide_eq_true. intros H. by destruct p; naive_solver. Qed.

Lemma stops_app w s : ws w -> stops s -> stops (w ++ s).
Proof.
  destruct w as [|c w]; [done|]. unfold ws. cbn [forallb app]. rewrite andb_true_iff. intros [Hc _] _.
  apply stops_cons. unfold json_ws in Hc. rewrite !orb_true_iff, !Z.eqb_eq in Hc.
  by destruct Hc as [[[->| ->]| ->]| ->].
Qed.

Ltac solve_stops := first [by apply stops_cons | apply stops_app; [done|by apply stops_cons] | done].

(** ** Numbers and tokens *)

Lemma number_scan_app s rest p i best :
  stops rest -> number_scan p i best (s ++ rest) = number_scan p i best s.
Proof.
  intros Hr. revert p i best. induction s as [|c s IH]; intros p i best; cbn [app number_scan].
  - destruct rest as [|c rest]; [done|]. cbn. by rewrite Hr.
  - destruct (step p c); [apply IH|done].
Qed.

Lemma number_len_app t rest : stops rest -> number_len (t ++ rest) = number_len t.
Proof. apply number_scan_app. Qed.

(** The characters of a number that is a whole text. *)
Lemma number_scan_chars s : forall p i best,
  number_scan p i best s = Some (i + length s)%nat ->
  (forall n, best = Some n -> (n <= i)%nat) ->
  Forall (fun c => exists p, is_Some (step p c)) s.
Proof.
  induction s as [|c s IH]; intros p i best Hs Hb; [constructor|]. cbn [number_scan length] in Hs.
  destruct (step p c) as [p'|] eqn:E.
  - constructor; [by exists p; rewrite E|].
    eapply (IH p' (S i)).
    + rewrite Hs. f_equal. lia.
    + intros n. destruct (accepts p'); [intros [= <-]; lia|]. intros H%Hb. lia.
  - apply Hb in Hs. lia.
Qed.

Lemma step_char p c : is_Some (step p c) ->
  digit c = true \/ c = 43 \/ c = 45 \/ c = 46 \/ c = 69 \/ c = 101.
Proof.
  intros [p' H]. destruct p; cbn in H;
    repeat match type of H with (if ?b then _ else _) = _ => destruct b eqn:? end; zbool; try done;
    repeat match goal with H : (_ || _)%bool = true |- _ => apply orb_true_iff in H end; zbool;
    try lia; try (by left); naive_solver lia.
Qed.

Definition number_char (c : Z) : Prop :=
  digit c = true \/ c = 43 \/ c = 45 \/ c = 46 \/ c = 69 \/ c = 101.

Lemma number_text_chars x t : number_text x t -> Forall number_char t.
Proof.
  intros [H _]. eapply Forall_impl.
  - by eapply (number_scan_chars t PStart 0 None).
  - intros c [p Hp]. by eapply step_char.
Qed.

(** Its first character. *)
Lemma number_text_head x t : number_text x t ->
  exists c t', t = c :: t' /\ (digit c = true \/ c = 45).
Proof.
  intros [H _]. destruct t as [|c t]; [done|]. exists c, t. split; [done|].
  unfold number_len in H. cbn in H. destruct (c =? 45) eqn:E; zbool; [by right|].
  destruct (digit c) eqn:E2; [by left|done].
Qed.

(** ** Reading *)

Lemma skip_ws_app w s : ws w -> skip_ws (w ++ s) = skip_ws s.
Proof.
  unfold ws. induction w as [|c w IH]; [done|]. cbn. rewrite andb_true_iff. intros [-> H]. by apply IH.
Qed.

Lemma skip_ws_stop c s : json_ws c = false -> skip_ws (c :: s) = c :: s.
Proof. cbn. by intros ->. Qed.

(** A value's first character. *)
Definition starts (t : text) : Prop :=
  exists c t', t = c :: t' /\ json_ws c = false /\ c <> 93 /\ c <> 125 /\ c <> 44.

Lemma starts_digit c t : digit c = true \/ c = 45 -> starts (c :: t).
Proof.
  intros H. exists c, t. split; [done|].
  assert (json_ws c = false) as ->.
  { unfold json_ws. destruct H as [H| ->]; [|done]. unfold digit, in_range in H. zbool.
    rewrite !orb_false_iff, !Z.eqb_neq. lia. }
  unfold digit, in_range in H. split; [done|]. destruct H as [H|H]; zbool; lia.
Qed.

Lemma jtext_starts q v t : (forall s, exists u, q s = 34 :: u) -> jtext q v t -> starts t.
Proof.
  intros Hq H.
  assert (forall c u, json_ws c = false -> c <> 93 -> c <> 125 -> c <> 44 -> starts (c :: u)) as Hs
    by (intros c u ????; by exists c, u).
  destruct H; try (by apply Hs).
  - by destruct b; apply Hs.
  - destruct (number_text_head _ _ H) as (c & t' & -> & Hc). by apply starts_digit.
  - destruct (Hq s) as [u ->]. by apply Hs.
Qed.

Lemma jelements_starts q w l t :
  (forall s, exists u, q s = 34 :: u) -> jelements q w l t -> starts t.
Proof.
  intros Hq H. destruct H as [w v t H|w v t l t' _ H _];
    destruct (jtext_starts q v t Hq H) as (c & u & -> & Hc); cbn [app]; eexists _, _; eauto.
Qed.

Lemma quote_starts s : exists u, quote s = 34 :: u.
Proof. by eexists. Qed.

Lemma read_number_app x t rest :
  number_text x t -> stops rest -> read_number (t ++ rest) = Some (x, rest).
Proof.
  intros [Hn Hr] Hs. unfold read_number in *. rewrite number_len_app by done.
  rewrite Hn in *. cbn [mbind option_bind] in *.
  rewrite firstn_all in Hr. rewrite take_app_length, drop_app_length.
  destruct (strict_number t); [|done]. by injection Hr as <- _.
Qed.

Lemma read_scalar_number n x t rest :
  number_text x t -> stops rest -> read_value (S n) (t ++ rest) = Some (JNum x, rest).
Proof.
  intros Ht Hs. pose proof (read_number_app x t rest Ht Hs) as Hr.
  destruct (number_text_head x t Ht) as (c & u & -> & Hc). cbn [app] in *.
  cbn [read_value]. assert (json_ws c = false /\ c <> 34 /\ c <> 91 /\ c <> 123 /\ c <> 110
    /\ c <> 116 /\ c <> 102) as (H1 & ?).
  { destruct (starts_digit c u Hc) as (? & ? & [= <- <-] & -> & _).
    unfold digit, in_range in Hc. split; [done|]. destruct Hc as [Hc|Hc]; zbool; lia. }
  rewrite skip_ws_stop by done.
  repeat match goal with |- context [c =? ?k] =>
    replace (c =? k) with false by (symmetry; apply Z.eqb_neq; lia) end.
  change (units "null") with (110 :: tail (units "null")).
  change (units "true") with (116 :: tail (units "true")).
  change (units "false") with (102 :: tail (units "false")). cbn [after].
  repeat match goal with |- context [?k =? c] =>
    replace (k =? c) with false by (symmetry; apply Z.eqb_neq; lia) end.
  by rewrite Hr.
Qed.

Lemma expect_ws c w s : ws w -> json_ws c = false -> expect c (skip_ws (w ++ c :: s)) = Some s.
Proof. intros Hw Hc. rewrite skip_ws_app, skip_ws_stop by done. cbn. by rewrite Z.eqb_refl. Qed.

Lemma expect_here c s : json_ws c = false -> expect c (skip_ws (c :: s)) = Some s.
Proof. by apply (expect_ws c []). Qed.

Lemma expect_no c w t s : ws w -> starts t -> c = 93 \/ c = 125 \/ c = 44 ->
  expect c (skip_ws (w ++ t ++ s)) = None.
Proof.
  intros Hw (d & u & -> & Hd & ?) Hc. rewrite skip_ws_app by done. cbn [app].
  rewrite skip_ws_stop by done. cbn. by replace (d =? c) with false by (symmetry; apply Z.eqb_neq; lia).
Qed.

Lemma expect_other c d w s : ws w -> json_ws d = false -> c <> d ->
  expect c (skip_ws (w ++ d :: s)) = None.
Proof.
  intros Hw Hd Hc. rewrite skip_ws_app, skip_ws_stop by done. cbn.
  by replace (d =? c) with false by (symmetry; apply Z.eqb_neq; lia).
Qed.

Lemma read_value_ws n w s : ws w -> read_value n (w ++ s) = read_value n s.
Proof. intros Hw. destruct n as [|n]; [done|]. cbn [read_value]. by rewrite skip_ws_app. Qed.

Lemma read_value_string n s rest :
  Forall is_unit s -> read_value (S n) (quote s ++ rest) = Some (JStr s, rest).
Proof.
  intros Hs. pose proof (read_quoted s rest Hs) as H. unfold quote in *. cbn [app] in *.
  cbn in H. cbn [read_value]. rewrite skip_ws_stop by done. by rewrite H.
Qed.

Ltac norm_app := repeat (rewrite <-app_assoc || rewrite <-app_comm_cons); cbn [app].

Lemma read_jtext :
  (forall v t, jtext quote v t -> forall n rest, stops rest -> (length t < n)%nat ->
     read_value n (t ++ rest) = Some (v, rest)) /\
  (forall w l t, jelements quote w l t -> forall n rest w0 w', ws w0 -> ws w' ->
     (S (length t) < n)%nat ->
     read_elements n (w0 ++ t ++ w' ++ 93 :: rest) = Some (l, rest)) /\
  (forall w l t, jmembers quote w l t -> forall n rest w0 w', ws w0 -> ws w' ->
     (S (length t) < n)%nat ->
     read_members n (w0 ++ t ++ w' ++ 125 :: rest) = Some (l, rest)).
Proof.
  apply jtext_ind3; intros;
    (lazymatch goal with |- _ ?m _ = Some _ => destruct m; [lia|] end).
  - done.
  - by destruct b.
  - by apply read_scalar_number.
  - by apply read_value_string.
  - done.
  - norm_app. cbn [read_value]. rewrite skip_ws_stop by done. cbn -[expect read_elements].
    rewrite expect_no by eauto using jelements_starts, quote_starts.
    cbn [length] in *. rewrite !length_app in *. cbn [length] in *.
    rewrite H by (done || lia). done.
  - done.
  - norm_app. cbn [read_value]. rewrite skip_ws_stop by done. cbn -[expect read_members].
    assert (starts t) by (destruct j; unfold quote; cbn; eexists _, _; eauto).
    rewrite expect_no by eauto.
    cbn [length] in *. rewrite !length_app in *. cbn [length] in *.
    rewrite H by (done || lia). done.
  - cbn [read_elements]. rewrite read_value_ws by done.
    rewrite H by (solve_stops || lia). cbn [mbind option_bind].
    rewrite expect_other, expect_ws by done. done.
  - norm_app. cbn [read_elements]. rewrite read_value_ws by done.
    cbn [length] in *. rewrite !length_app in *. cbn [length] in *. rewrite ?length_app in *.
    rewrite H by (solve_stops || lia). cbn [mbind option_bind].
    rewrite (expect_here 44) by done. rewrite H0 by (done || lia). done.
  - norm_app. cbn [read_members]. rewrite skip_ws_app by done.
    change (skip_ws (quote k ++ ?s)) with (quote k ++ s).
    cbn [length] in *. rewrite !length_app in *. cbn [length] in *. rewrite ?length_app in *.
    rewrite read_quoted by done. cbn [mbind option_bind].
    rewrite (expect_here 58) by done. cbn [mbind option_bind]. rewrite read_value_ws by done.
    rewrite H by (solve_stops || lia). cbn [mbind option_bind].
    rewrite expect_other, expect_ws by done. done.
  - norm_app. cbn [read_members]. rewrite skip_ws_app by done.
    change (skip_ws (quote k ++ ?s)) with (quote k ++ s).
    repeat (cbn [length] in *; rewrite ?length_app in *).
    rewrite read_quoted by done. cbn [mbind option_bind].
    rewrite (expect_here 58) by done. cbn [mbind option_bind]. rewrite read_value_ws by done.
    rewrite H by (solve_stops || lia). cbn [mbind option_bind].
    rewrite (expect_here 44) by done. rewrite H0 by (done || lia). done.
Qed.

(** ** The guard's first replacement *)

(** A string after it. *)
Definition masked (s : text) : text :=
  34 :: flat_map (fun c => if escapable c then [64] else [c]) s ++ [34].

Lemma masked_starts s : exists u, masked s = 34 :: u.
Proof. by eexists. Qed.

Lemma at_escapes_plain p rest :
  Forall (fun c => c <> 92) p -> at_escapes (p ++ rest) = p ++ at_escapes rest.
Proof.
  induction 1 as [|c p Hc _ IH]; [done|]. cbn [app at_escapes].
  replace (c =? 92) with false by (symmetry; by apply Z.eqb_neq). by rewrite IH.
Qed.

Lemma hex_digit_is_hex d : 0 <= d < 16 -> is_hex (hex_digit d) = true.
Proof. intros H. unfold is_hex. rewrite hex_digit_value by done. done. Qed.

Lemma at_escapes_escape c rest : at_escapes (escape c ++ rest) = 64 :: at_escapes rest.
Proof.
  unfold escape, meta.
  repeat (match goal with |- context [if c =? ?k then _ else _] => destruct (c =? k); [done|] end).
  unfold hex4. cbn [app at_escapes].
  change (92 =? 92) with true. change (bool_decide (is_Some (unmeta 117))) with false.
  change (117 =? 117) with true. cbn iota.
  by rewrite !hex_digit_is_hex by (apply Z.mod_pos_bound; lia).
Qed.

Lemma at_escapes_quote s rest : at_escapes (quote s ++ rest) = masked s ++ at_escapes rest.
Proof.
  unfold quote, masked. norm_app. cbn [at_escapes]. change (34 =? 92) with false. cbn iota. f_equal.
  induction s as [|c s IH]; [done|]. cbn [quote_units flat_map]. fold (quote_units s).
  destruct (escapable c) eqn:E; norm_app.
  - by rewrite at_escapes_escape, IH.
  - cbn [at_escapes]. assert (c =? 92 = false) as ->; [|by rewrite IH].
    unfold escapable in E. repeat (apply orb_false_iff in E as [E ?]). done.
Qed.

(** The characters outside strings: none is a backslash, and none is one that [parse]
    escapes before reading. *)
Definition outside (c : Z) : Prop := 0 < c < 128 /\ c <> 92.

Lemma ws_outside w : ws w -> Forall outside w.
Proof.
  unfold ws. rewrite forallb_forall, Forall_forall. intros H c Hc%list_elem_of_In.
  specialize (H c Hc). unfold json_ws in H. rewrite !orb_true_iff, !Z.eqb_eq in H.
  unfold outside. lia.
Qed.

Lemma number_outside x t : number_text x t -> Forall outside t.
Proof.
  intros H. eapply Forall_impl; [by eapply number_text_chars|]. intros c Hc.
  unfold number_char, digit, in_range in Hc. unfold outside.
  destruct Hc as [Hc|Hc]; zbool; lia.
Qed.

Lemma outside_no_escape p : Forall outside p -> Forall (fun c => c <> 92) p.
Proof. intros H. eapply Forall_impl; [done|]. by intros c [_ ?]. Qed.

Lemma at_escapes_outside p rest : Forall outside p -> at_escapes (p ++ rest) = p ++ at_escapes rest.
Proof. intros. by apply at_escapes_plain, outside_no_escape. Qed.

Lemma at_escapes_cons c rest : bool_decide (c <> 92) = true -> at_escapes (c :: rest) = c :: at_escapes rest.
Proof. intros H%bool_decide_eq_true. by apply (at_escapes_plain [c]); repeat constructor. Qed.

Ltac at_step :=
  first [match goal with H : forall rest, at_escapes (_ ++ rest) = _ |- _ => rewrite H end
        |rewrite at_escapes_quote
        |rewrite at_escapes_cons by done
        |rewrite at_escapes_outside by (eauto using ws_outside, number_outside)].

Lemma first_replacement :
  (forall v t, jtext quote v t ->
     exists t1, jtext masked v t1 /\ forall rest, at_escapes (t ++ rest) = t1 ++ at_escapes rest) /\
  (forall w l t, jelements quote w l t ->
     exists t1, jelements masked w l t1 /\ forall rest, at_escapes (t ++ rest) = t1 ++ at_escapes rest) /\
  (forall w l t, jmembers quote w l t ->
     exists t1, jmembers masked w l t1 /\ forall rest, at_escapes (t ++ rest) = t1 ++ at_escapes rest).
Proof.
  apply jtext_ind3; intros;
    repeat match goal with H : exists _, _ |- _ => destruct H as (? & ? & ?) end;
    (eexists; split;
      [solve [apply (jt_arr _ w w'); eauto | apply (jt_obj _ w w'); eauto | econstructor; eauto]|]);
    intros rest; norm_app; try (by repeat at_step).
  by destruct b.
Qed.

(** ** The second replacement *)

Lemma bracket_skip t rest : bracket_tokens (length t) (t ++ rest) = bracket_tokens 0 rest.
Proof. induction t as [|c t IH]; [by destruct rest|]. exact IH. Qed.

Lemma bracket_token t rest : t <> [] -> token_len (t ++ rest) = Some (length t) ->
  bracket_tokens 0 (t ++ rest) = 93 :: bracket_tokens 0 rest.
Proof.
  intros Ht H. destruct t as [|c t]; [done|].
  change (bracket_tokens 0 ((c :: t) ++ rest))
    with (match token_len ((c :: t) ++ rest) with
          | Some (S k) => 93 :: bracket_tokens k (t ++ rest)
          | _ => c :: bracket_tokens 0 (t ++ rest)
          end).
  rewrite H. cbn [length]. by rewrite bracket_skip.
Qed.

(** A character that begins no token. *)
Definition no_token (c : Z) : bool :=
  json_ws c || (c =? 91) || (c =? 93) || (c =? 123) || (c =? 125) || (c =? 44) || (c =? 58).

Lemma bracket_plain c rest : no_token c = true ->
  bracket_tokens 0 (c :: rest) = c :: bracket_tokens 0 rest.
Proof.
  intros H. assert (token_len (c :: rest) = None) as E.
  { unfold no_token, json_ws in H. rewrite !orb_true_iff, !Z.eqb_eq in H.
    unfold token_len, number_len.
    repeat (destruct H as [H|H]); subst c; reflexivity. }
  cbn [bracket_tokens]. by rewrite E.
Qed.

Lemma bracket_ws w rest : ws w -> bracket_tokens 0 (w ++ rest) = w ++ bracket_tokens 0 rest.
Proof.
  unfold ws. induction w as [|c w IH]; [done|]. cbn [forallb app]. rewrite andb_true_iff.
  intros [Hc Hw]. rewrite bracket_plain by (unfold no_token; by rewrite Hc). by rewrite IH.
Qed.

Lemma bracket_masked s rest :
  bracket_tokens 0 (masked s ++ rest) = 93 :: bracket_tokens 0 rest.
Proof.
  apply bracket_token; [done|]. unfold masked. cbn [app token_len length].
  change (34 =? 34) with true. cbn iota. norm_app.
  assert (string_len (flat_map (fun c => if escapable c then [64] else [c]) s ++ 34 :: rest)
          = Some (length (flat_map (fun c => if escapable c then [64] else [c]) s ++ [34]))) as ->; [|done].
  induction s as [|c s IH]; [done|]. cbn [flat_map]. norm_app.
  destruct (escapable c) eqn:E; cbn [app string_len length].
  - by rewrite IH.
  - unfold escapable in E. repeat (apply orb_false_iff in E as [E ?]).
    assert (c =? 10 = false) as -> by (apply Z.eqb_neq; intros ->; done).
    assert (c =? 13 = false) as -> by (apply Z.eqb_neq; intros ->; done).
    repeat match goal with H : _ = false |- _ => rewrite H end. by rewrite IH.
Qed.

Lemma bracket_number x t rest : number_text x t -> stops rest ->
  bracket_tokens 0 (t ++ rest) = 93 :: bracket_tokens 0 rest.
Proof.
  intros Ht Hr. pose proof (proj1 Ht) as Hn. destruct (number_text_head x t Ht) as (c & u & -> & Hc).
  apply bracket_token; [done|]. rewrite <-(number_len_app _ rest Hr) in Hn. cbn [app] in *.
  unfold token_len. assert (c <> 34 /\ c <> 110 /\ c <> 116 /\ c <> 102) as (?&?&?&?).
  { unfold digit, in_range in Hc. destruct Hc; zbool; lia. }
  change (units "null") with (110 :: tail (units "null")).
  change (units "true") with (116 :: tail (units "true")).
  change (units "false") with (102 :: tail (units "false")). cbn [after].
  rewrite !(proj2 (Z.eqb_neq _ _)) by lia. exact Hn.
Qed.

(** What the second replacement leaves: opening brackets only where the third takes
    them out.  [b] says that the text so far ends so. *)
Fixpoint good (b : bool) (s : text) : bool :=
  match s with
  | [] => true
  | c :: s' =>
      if space c then good b s'
      else if c =? 91 then b && good true s'
      else if (c =? 58) || (c =? 44) then good true s'
      else ((c =? 93) || (c =? 123) || (c =? 125)) && good false s'
  end.

Lemma good_ws b w s : ws w -> good b (w ++ s) = good b s.
Proof.
  unfold ws. induction w as [|c w IH]; [done|]. cbn [forallb app]. rewrite andb_true_iff.
  intros [Hc Hw]. cbn [good]. assert (space c = true) as ->; [|by apply IH].
  unfold json_ws in Hc. rewrite !orb_true_iff, !Z.eqb_eq in Hc. repeat (destruct Hc as [Hc|Hc]); by subst.
Qed.

Ltac bt_step :=
  first [match goal with H : forall rest, stops rest -> bracket_tokens 0 (_ ++ rest) = _ |- _ =>
           rewrite H by solve_stops end
        |match goal with H : forall rest w', ws w' -> bracket_tokens 0 (_ ++ w' ++ _ :: rest) = _ |- _ =>
           rewrite H by done end
        |rewrite bracket_masked
        |rewrite bracket_plain by done
        |rewrite bracket_ws by done].

Ltac good_step :=
  first [match goal with H : forall s, good _ (_ ++ s) = _ |- _ => rewrite H end
        |match goal with H : forall b s, good b (_ ++ s) = _ |- _ => rewrite H end
        |rewrite good_ws by done
        |progress cbn].

Lemma second_replacement :
  (forall v t, jtext masked v t ->
     exists t2, (forall rest, stops rest -> bracket_tokens 0 (t ++ rest) = t2 ++ bracket_tokens 0 rest) /\
       forall s, good true (t2 ++ s) = good false s) /\
  (forall w l t, jelements masked w l t ->
     exists t2, (forall rest, stops rest -> bracket_tokens 0 (t ++ rest) = t2 ++ bracket_tokens 0 rest) /\
       forall s, good true (t2 ++ s) = good false s) /\
  (forall w l t, jmembers masked w l t ->
     exists t2, (forall rest, stops rest -> bracket_tokens 0 (t ++ rest) = t2 ++ bracket_tokens 0 rest) /\
       forall b s, good b (t2 ++ s) = good false s).
Proof.
  apply jtext_ind3; intros;
    repeat match goal with H : exists _, _ |- _ => destruct H as (? & ? & ?) end.
  - exists [93]. split; [|done]. intros. by apply (bracket_token (units "null")).
  - exists [93]. split; [|done]. intros. destruct b.
    + by apply (bracket_token (units "true")).
    + by apply (bracket_token (units "false")).
  - exists [93]. split; [|done]. intros. by eapply bracket_number.
  - exists [93]. split; [|done]. intros. by apply bracket_masked.
  - exists [91; 93]. split; [|done]. intros. cbn [app]. by repeat bt_step.
  - exists (91 :: w ++ x ++ w' ++ [93]). split.
    + intros. norm_app. by repeat bt_step.
    + intros. norm_app. by repeat good_step.
  - exists [123; 125]. split; [|done]. intros. cbn [app]. by repeat bt_step.
  - exists (123 :: w ++ x ++ w' ++ [125]). split.
    + intros. norm_app. by repeat bt_step.
    + intros. norm_app. by repeat good_step.
  - eauto.
  - match goal with
    | Ht : forall r, stops r -> bracket_tokens 0 (t ++ r) = ?a ++ _,
      Ht' : forall r, stops r -> bracket_tokens 0 (t' ++ r) = ?b ++ _ |- _ => exists (a ++ 44 :: w ++ b) end.
    split.
    + intros. norm_app. by repeat bt_step.
    + intros. norm_app. by repeat good_step.
  - exists (93 :: 58 :: w2 ++ x). split.
    + intros. norm_app. by repeat bt_step.
    + intros. norm_app. by repeat good_step.
  - match goal with
    | Ht : forall r, stops r -> bracket_tokens 0 (t ++ r) = ?a ++ _,
      Ht' : forall r, stops r -> bracket_tokens 0 (t' ++ r) = ?b ++ _ |- _ => exists (93 :: 58 :: w2 ++ a ++ 44 :: w ++ b) end.
    split.
    + intros. norm_app. by repeat bt_step.
    + intros. norm_app. by repeat good_step.
Qed.

(** ** The third replacement *)

Lemma good_weaken s : good false s = true -> good true s = true.
Proof.
  induction s as [|c s IH]; [done|]. cbn. destruct (space c); [done|].
  destruct (c =? 91); [done|]. by destruct ((c =? 58) || (c =? 44)).
Qed.

(** After the brackets it takes out, the next character is none. *)
Lemma opens_good s : forall n best, good true s = true ->
  (opens n best s = best /\ good false s = true) \/
  (exists m, opens n best s = (n + m)%nat /\ (0 < m)%nat /\ good false (drop m s) = true).
Proof.
  induction s as [|c s IH]; intros n best H; [by left|]. cbn in H |- *.
  destruct (space c).
  - destruct (IH (S n) best H) as [?|(m & -> & Hm & Hd)]; [by left|right].
    exists (S m). split_and!; [lia|lia|done].
  - destruct (c =? 91).
    + right. cbn in H. destruct (IH (S n) (S n) H) as [[-> ?]|(m & -> & Hm & Hd)].
      * exists 1%nat. split_and!; [lia|lia|done].
      * exists (S m). split_and!; [lia|lia|done].
    + left. by destruct ((c =? 58) || (c =? 44)).
Qed.

Lemma strip_skip k s b : strip_opens b k s = strip_opens (match k with O => b | _ => false end) 0 (drop k s).
Proof.
  revert b s. induction k as [|k IH]; intros b s; [by destruct s|]. destruct s as [|c s]; [done|].
  cbn [strip_opens drop]. rewrite IH. by destruct k.
Qed.

Lemma good_head c s : good false (c :: s) = true ->
  plain_char c = true /\ good ((c =? 58) || (c =? 44)) s = true \/
  plain_char c = true /\ space c = true /\ good false s = true.
Proof.
  cbn. unfold plain_char. destruct (space c) eqn:E; [right; by rewrite orb_true_r|].
  destruct (c =? 91); [done|]. destruct (c =? 58) eqn:E1; [left; by rewrite !orb_true_r|].
  destruct (c =? 44) eqn:E2; [left; by rewrite !orb_true_r|]. cbn. rewrite andb_true_iff.
  intros [H ?]. left. split; [|done]. rewrite !orb_false_r.
  repeat (apply orb_true_iff in H as [H|H]); rewrite H, ?orb_true_r; done.
Qed.

Lemma strip_good s : good false s = true -> forallb plain_char (strip_opens false 0 s) = true.
Proof.
  remember (length s) as n eqn:En. assert (length s <= n)%nat as Hn by lia. clear En.
  revert s Hn. induction n as [|n IH]; intros [|c s] Hn H; try done; cbn [length] in Hn; [lia|].
  cbn [strip_opens]. destruct (good_head c s H) as [[Hc Hs]|(Hc & Hsp & Hs)].
  - destruct ((c =? 58) || (c =? 44)) eqn:E; cbn iota.
    + destruct (opens_good s 0 0 Hs) as [[-> Hf]|(m & -> & Hm & Hd)].
      * cbn. rewrite Hc. apply IH; [lia|done].
      * cbn [Nat.add]. destruct m as [|m]; [lia|]. rewrite strip_skip.
        apply IH; [rewrite length_drop; lia|done].
    + cbn. rewrite Hc. apply IH; [lia|done].
  - assert ((c =? 58) || (c =? 44) = false) as -> by
      (apply orb_false_iff; split; apply Z.eqb_neq; intros ->; done).
    cbn. rewrite Hc. apply IH; [lia|done].
Qed.

Lemma third_replacement s : good true s = true -> forallb plain_char (strip_opens true 0 s) = true.
Proof.
  intros H. destruct (opens_good s 0 0 H) as [[E Hf]|(m & E & Hm & Hd)].
  - pose proof (strip_good s Hf) as Hs. destruct s as [|c s]; [done|].
    cbn [strip_opens] in *. by rewrite E.
  - destruct m as [|m]; [lia|]. destruct s as [|c s]; [done|]. cbn [strip_opens].
    rewrite E. cbn [Nat.add]. rewrite strip_skip.
    apply strip_good in Hd. by destruct m.
Qed.

(** A printed text passes the guard. *)
Lemma jtext_safe v t : jtext quote v t -> looks_safe t = true.
Proof.
  intros (t1 & H1 & E1)%(proj1 first_replacement).
  destruct (proj1 second_replacement v t1 H1) as (t2 & E2 & G).
  unfold looks_safe. specialize (E1 []). specialize (E2 [] I).
  cbn in E1, E2. rewrite !app_nil_r in *. rewrite E1, E2.
  apply third_replacement. specialize (G []). by rewrite app_nil_r in G.
Qed.

(** ** The characters [parse] escapes before reading *)

Lemma quote_not_cx s : Forall (fun c => cx c = false) (quote s).
Proof.
  unfold quote. constructor; [done|]. apply Forall_app. split; [|by repeat constructor].
  induction s as [|c s IH]; [constructor|]. cbn [quote_units flat_map]. apply Forall_app. split; [|done].
  destruct (escapable c) eqn:E.
  - unfold escape, meta.
    repeat (match goal with |- context [if c =? ?k then _ else _] =>
      destruct (c =? k); [by repeat constructor|] end).
    assert (forall d, cx (hex_digit (d mod 16)) = false) as Hx.
    { intros d. pose proof (Z.mod_pos_bound d 16 ltac:(lia)). unfold hex_digit.
      destruct (d mod 16 <? 10) eqn:?; zbool; unfold cx, in_range;
        rewrite !orb_false_iff, !andb_false_iff, !Z.eqb_neq, !Z.leb_gt; lia. }
    unfold hex4. by repeat constructor.
  - constructor; [|constructor]. unfold escapable in E. unfold cx.
    repeat (apply orb_false_iff in E as [E ?]).
    repeat match goal with H : _ = false |- _ => rewrite H end.
    assert (c =? 0 = false) as ->; [|done]. apply Z.eqb_neq. intros ->. done.
Qed.

Lemma outside_not_cx p : Forall outside p -> Forall (fun c => cx c = false) p.
Proof.
  intros H. eapply Forall_impl; [done|]. intros c [Hc _]. unfold cx, in_range.
  rewrite !orb_false_iff, !andb_false_iff, !Z.eqb_neq, !Z.leb_gt. lia.
Qed.

Lemma jtext_not_cx :
  (forall v t, jtext quote v t -> Forall (fun c => cx c = false) t) /\
  (forall w l t, jelements quote w l t -> Forall (fun c => cx c = false) t) /\
  (forall w l t, jmembers quote w l t -> Forall (fun c => cx c = false) t).
Proof.
  apply jtext_ind3; intros;
    repeat first [done | by repeat constructor | apply quote_not_cx
      | by apply outside_not_cx, ws_outside | by eapply outside_not_cx, number_outside
      | apply Forall_app; split | constructor; [done|]].
  destruct b; by repeat constructor.
Qed.

Lemma escape_unsafe_id t : Forall (fun c => cx c = false) t -> escape_unsafe t = t.
Proof.
  induction 1 as [|c t Hc _ IH]; [done|]. cbn. rewrite Hc. cbn. f_equal. exact IH.
Qed.

(** ** Printing *)

Lemma units_is_unit s : Forall is_unit (units s).
Proof.
  induction s as [|c s IH]; cbn; [constructor|]. constructor; [|done].
  pose proof (Ascii.nat_ascii_bounded c). unfold is_unit. lia.
Qed.

Lemma jelements_join w l ts :
  ws w -> Forall2 (jtext quote) l ts -> ts <> [] -> jelements quote w l (join_text (44 :: w) ts).
Proof.
  intros Hw H Hne. induction H as [|v t l ts Hv Hl IH]; [done|].
  destruct Hl as [|v' t' l ts]; [by apply je_one|]. cbn [join_text app].
  apply je_cons; [done..|]. by apply IH.
Qed.

Definition piece (colon : text) (m : text * json) (p : text) : Prop :=
  Forall is_unit m.1 /\ exists t, jtext quote m.2 t /\ p = quote m.1 ++ colon ++ t.

Lemma jmembers_join w w2 l ps :
  ws w -> ws w2 -> Forall2 (piece (58 :: w2)) l ps -> ps <> [] ->
  jmembers quote w l (join_text (44 :: w) ps).
Proof.
  intros Hw Hw2 H Hne. induction H as [|[k v] p l ps [Hk (t & Ht & ->)] Hl IH]; [done|].
  destruct Hl as [|m p l ps]; [by apply jm_one|]. cbn [join_text app fst snd] in *.
  norm_app. apply jm_cons; [done..|]. by apply IH.
Qed.

(** The brackets and the white space around the pieces. *)
Lemma wrap_spaces o c gap mind ps : ws gap -> ws mind -> ps <> [] ->
  exists w w', ws w /\ ws w' /\ wrap o c gap mind ps = o :: w ++ join_text (44 :: w) ps ++ w' ++ [c].
Proof.
  intros Hg Hm Hne. destruct ps as [|p ps]; [done|]. destruct gap as [|g gap].
  - by exists [], [].
  - exists (10 :: g :: gap), (10 :: mind). split_and!; [done|done|]. unfold wrap. norm_app. done.
Qed.

Lemma wrap_array gap mind l ts : ws gap -> ws mind -> Forall2 (jtext quote) l ts ->
  jtext quote (JArr l) (wrap 91 93 gap mind ts).
Proof.
  intros Hg Hm H. destruct H as [|v t l ts Hv Hl]; [by apply jt_arr0|].
  destruct (wrap_spaces 91 93 gap mind (t :: ts) Hg Hm) as (w & w' & Hw & Hw' & ->); [done|].
  apply jt_arr; [done|done|]. apply jelements_join; [done| |done]. by constructor.
Qed.

Lemma wrap_object gap mind w2 l ps : ws gap -> ws mind -> ws w2 -> Forall2 (piece (58 :: w2)) l ps ->
  jtext quote (JObj l) (wrap 123 125 gap mind ps).
Proof.
  intros Hg Hm Hw2 H. destruct H as [|v t l ts Hv Hl]; [by apply jt_obj0|].
  destruct (wrap_spaces 123 125 gap mind (t :: ts) Hg Hm) as (w & w' & Hw & Hw' & ->); [done|].
  apply jt_obj; [done|done|]. apply (jmembers_join w w2); [done|done| |done]. by constructor.
Qed.

(** What a printer gives for a value. *)
Definition prints (v : json) (r : res (option text)) : Prop :=
  match clean v with
  | None => r = Ok None
  | Some w => exists t, r = Ok (Some t) /\ jtext quote w t
  end.

Lemma jtext_nonempty v t : jtext quote v t -> exists c s, t = c :: s.
Proof. intros H. destruct (jtext_starts quote v t quote_starts H) as (c & u & -> & _). eauto. Qed.

Lemma elements_prints print go l : forall i l',
  resolve_elements go i l = Some l' ->
  Forall printable l' ->
  (forall k v v', go k v = Some v' -> printable v' -> prints v' (print k v)) ->
  exists ts, elements print i l = Ok ts /\
    Forall2 (jtext quote) (map (fun v => default JNull (clean v)) l') ts.
Proof.
  induction l as [|v l IH]; intros i l' Hl' Hp Hgo; cbn [resolve_elements elements] in *.
  { injection Hl' as <-. by exists []. }
  apply bind_Some in Hl' as (v' & Hv & (r & Hr & [= <-])%bind_Some).
  apply Forall_cons in Hp as [Hpv Hp]. specialize (Hgo _ _ _ Hv Hpv) as Hprints.
  destruct (IH (i + 1) r Hr Hp Hgo) as (ts & E & Hts). cbn [map].
  unfold prints in Hprints. destruct (clean v') as [w|].
  - destruct Hprints as (t & -> & Ht). cbn. rewrite E. cbn. exists (t :: ts).
    destruct (jtext_nonempty w t Ht) as (c & s & ->). split; [done|]. by constructor.
  - rewrite Hprints. cbn. rewrite E. cbn. exists (units "null" :: ts). split; [done|].
    constructor; [apply jt_null|done].
Qed.

(** The members that are printed. *)
Definition kept (l : list (text * json)) : list (text * json) :=
  match clean (JObj l) with Some (JObj l') => l' | _ => [] end.

Lemma members_prints print go colon l : forall l',
  resolve_members go l = Some l' ->
  Forall (fun m => Forall is_unit m.1 /\ printable m.2) l' ->
  (forall k v v', go k v = Some v' -> printable v' -> prints v' (print k v)) ->
  exists ps, members print colon l = Ok ps /\ Forall2 (piece colon) (kept l') ps.
Proof.
  induction l as [|[k v] l IH]; intros l' Hl' Hp Hgo; cbn [resolve_members members] in *.
  { injection Hl' as <-. by exists []. }
  apply bind_Some in Hl' as (v' & Hv & (r & Hr & [= <-])%bind_Some).
  apply Forall_cons in Hp as [[Hk Hpv] Hp]. specialize (Hgo _ _ _ Hv Hpv) as Hprints.
  destruct (IH r Hr Hp Hgo) as (ps & E & Hps).
  unfold kept in *. cbn in *. unfold prints in Hprints. destruct (clean v') as [w|].
  - destruct Hprints as (t & -> & Ht). cbn. rewrite E. cbn.
    destruct (jtext_nonempty w t Ht) as (c & s & ->). eexists. split; [done|].
    constructor; [|done]. split; [done|]. by exists (c :: s).
  - rewrite Hprints. cbn. rewrite E. cbn. by exists ps.
Qed.

Lemma foldr_and {A} (P Q : A -> Prop) l :
  (forall x, P x -> Q x) -> foldr (fun x R => P x /\ R) True l -> Forall Q l.
Proof. intros H. induction l as [|x l IH]; [constructor|]. intros [??]. constructor; auto. Qed.

Lemma printable_elements l : printable (JArr l) -> Forall printable l.
Proof. by apply foldr_and. Qed.
Lemma printable_members l : printable (JObj l) -> Forall (fun m => Forall is_unit m.1 /\ printable m.2) l.
Proof. cbn. induction l as [|m l IHl]; [constructor|]. intros (?&?&?). constructor; auto. Qed.

(** The printer prints the value that the calls of [toJSON] leave. *)
Lemma str_prints call indent fuel : ws indent -> forall gap key v v',
  ws gap -> resolve call fuel key v = Some v' -> printable v' ->
  prints v' (str call RNone indent fuel gap key v).
Proof.
  intros Hi. induction fuel as [|fuel IH]; intros gap key v v' Hg Hv Hp; [done|].
  assert (ws (gap ++ indent)) as Hgi by (unfold ws; rewrite forallb_app, Hg, Hi; done).
  cbn [resolve str] in *. destruct (toJSON_called call key v) as [| | |b|x|s|d|l|l];
    try (injection Hv as <-; unfold prints; cbn [clean]).
  - done.
  - done.
  - eexists. split; [done|]. apply jt_null.
  - eexists. split; [done|]. apply jt_bool.
  - eexists. split; [done|]. cbn in Hp. destruct (isFinite x); [|apply jt_null].
    apply jt_num. by apply Hp.
  - eexists. split; [done|]. by apply jt_str.
  - eexists. split; [done|]. apply jt_obj0.
  - apply fmap_Some in Hv as (l' & Hl & ->). unfold prints. cbn [clean].
    destruct (elements_prints (str call RNone indent fuel (gap ++ indent)) (resolve call fuel) l 0 l' Hl)
      as (ts & -> & Hts); [by apply printable_elements| |].
    + intros k v0 v0' H0 Hp0. by apply IH.
    + eexists. split; [done|]. by apply wrap_array.
  - apply fmap_Some in Hv as (l' & Hl & ->). unfold prints. cbn [clean].
    destruct (members_prints (str call RNone indent fuel (gap ++ indent)) (resolve call fuel)
      (match gap ++ indent with [] => [58] | _ => [58; 32] end) l l' Hl) as (ps & -> & Hps);
      [by apply printable_members| |].
    + intros k v0 v0' H0 Hp0. by apply IH.
    + eexists. split; [done|]. destruct (gap ++ indent) as [|c g] eqn:E.
      * by apply (wrap_object [] gap []).
      * by apply (wrap_object (c :: g) gap [32]).
Qed.

(** Without a [toJSON] to call, the value reads back as it is. *)
Definition same_print (v v' : json) : Prop := clean v' = clean v /\ printable v'.

Lemma resolve_elements_plain go l :
  Forall (fun v => forall k, exists v', go k v = Some v' /\ same_print v v') l ->
  forall i, exists l', resolve_elements go i l = Some l' /\ same_print (JArr l) (JArr l').
Proof.
  induction 1 as [|v l Hv Hl IH]; intros i; [by exists []|]. cbn [resolve_elements].
  destruct (Hv (units (show_Z i))) as (v' & -> & Hc & Hp). destruct (IH (i + 1)) as (l' & -> & [= Hc'] & Hp').
  eexists. split; [done|]. split; [|done]. cbn. by rewrite Hc, Hc'.
Qed.
Lemma resolve_members_plain go l :
  Forall (fun m => Forall is_unit m.1 /\ forall k, exists v', go k m.2 = Some v' /\ same_print m.2 v') l ->
  exists l', resolve_members go l = Some l' /\ same_print (JObj l) (JObj l').
Proof.
  induction 1 as [|[k v] l [Hk Hv] Hl IH]; [by exists []|]. cbn [resolve_members].
  cbn [fst snd] in *. destruct (Hv k) as (v' & -> & Hc & Hp). destruct IH as (l' & -> & [= Hc'] & Hp').
  eexists. split; [done|]. split; [|done]. cbn. by rewrite Hc, Hc'.
Qed.

Lemma depth_member {A} (g : A -> nat) l x : x ∈ l -> (g x <= list_max (map g l))%nat.
Proof.
  intros Hx. pose proof (proj1 (list_max_le (map g l) _) (le_n _)) as H. rewrite Forall_forall in H.
  by apply H, list_elem_of_fmap_2.
Qed.

Lemma resolve_plain call fuel : forall key v,
  uncalled v = true -> (depth v <= fuel)%nat -> printable v ->
  exists v', resolve call fuel key v = Some v' /\ same_print v v'.
Proof.
  induction fuel as [|fuel IH]; intros key v Hu Hd Hp; [by destruct v; cbn in Hd; lia|].
  cbn [resolve]. destruct v as [| | |b|x|s|d|l|l]; cbn [toJSON_called];
    try (eexists; split; [done|]; by split).
  - destruct d as [d|]; eexists; (split; [done|]); split; cbn; done || apply units_is_unit.
  - cbn [uncalled depth] in *. rewrite forallb_forall in Hu. apply printable_elements in Hp.
    destruct (resolve_elements_plain (resolve call fuel) l) with (i := 0) as (l' & -> & Hl); [|by eexists].
    rewrite Forall_forall in *. intros v Hv k. apply IH; [by apply Hu, list_elem_of_In| |by apply Hp].
    pose proof (depth_member depth l v Hv). lia.
  - cbn [uncalled depth] in *. apply andb_true_iff in Hu as [Hu Hn]. rewrite forallb_forall in Hu.
    apply printable_members in Hp.
    assert ((match member (units "toJSON") l with JFun => call l key | _ => JObj l end) = JObj l) as ->
      by by destruct (member _ l).
    destruct (resolve_members_plain (resolve call fuel) l) as (l' & -> & Hl); [|by eexists].
    rewrite Forall_forall in *. intros m Hm. destruct (Hp m Hm) as [Hk Hpm]. split; [done|]. intros k.
    apply IH; [by apply (Hu m), list_elem_of_In| |done].
    pose proof (depth_member (fun m => depth m.2) l m Hm). cbn in *. lia.
Qed.

(** ** The round trip *)

(** What [parse] needs of [eval]: it reads the JSON texts without the characters that
    are escaped first, as the grammar says. *)
Definition evaluates_json (eval : text -> res json) : Prop :=
  forall s v, Forall (fun c => cx c = false) s -> read_json s = Some v -> plain_keys v = true ->
    eval (40 :: s ++ [41]) = Ok v.

(** C9: Let [v'] be what the calls of [toJSON] by objects leave of a value [v], dates and
    what else they give included, or [v] itself where no object has a [toJSON] and the
    fuel is its depth.  [stringify] prints [v], with any white space for indent; the text
    passes the guard of [parse], is read by the grammar of JSON and parsed into [v'],
    its undefined members and functions left out ([null] in arrays), dates as strings and
    infinities as [null]. *)
Theorem parse_stringify call eval fuel v v' w space :
  evaluates_json eval -> ws (space_units space) ->
  resolve call fuel [] v = Some v' \/ v' = v /\ uncalled v = true /\ (depth v <= fuel)%nat ->
  printable v' -> clean v' = Some w -> plain_keys w = true ->
  exists t, stringify call fuel v RNone space = Ok (Some t) /\ looks_safe t = true /\
    read_json t = Some w /\ parse eval t None = Ok w.
Proof.
  intros He Hs Hd Hp Hc Hk.
  assert (exists v1, resolve call fuel [] v = Some v1 /\ same_print v' v1) as (v1 & Hv & Hc1 & Hp1).
  { destruct Hd as [Hd|(-> & Hu & Hd)]; [by eexists|]. by apply resolve_plain. }
  pose proof (str_prints call (space_units space) fuel Hs [] [] v v1 eq_refl Hv Hp1) as H.
  unfold prints in H. rewrite Hc1, Hc in H. destruct H as (t & Ht & Hj).
  assert (Forall (fun c => cx c = false) t) as Hcx by (by eapply (proj1 jtext_not_cx)).
  assert (read_json t = Some w) as Hr.
  { unfold read_json.
    pose proof (proj1 read_jtext w t Hj (S (length t)) [] I (le_n _)) as R.
    rewrite app_nil_r in R. by rewrite R. }
  exists t. split_and!; [done|by eapply jtext_safe|done|].
  unfold parse. rewrite escape_unsafe_id by done. rewrite (jtext_safe w) by done.
  by rewrite (He t w).
Qed.

Definition grammar_eval (s : text) : res json :=
  match read_json (removelast (tail s)) with Some v => Ok v | None => Throw SyntaxError end.

Lemma grammar_eval_json : evaluates_json grammar_eval.
Proof. intros s v _ H _. unfold grammar_eval. cbn [tail]. by rewrite removelast_last, H. Qed.

Definition sample : json :=
  JArr [JNum (-12.5)%float; JUndef; JNum infinity; JDate (Some 1388577600000);
        JObj [(units "a b", JStr [34; 92; 10; 8232; 8364]); (units "f", JFun);
              (units "l", JArr [JBool true; JNull; JArr []; JObj []; JNum 1e21%float])]].

(** An object that is printed as its name. *)
Definition named_call (l : list (text * json)) (key : text) : json := member (units "name") l.
Definition called_sample : json :=
  JArr [sample; JObj [(units "name", JStr (units "x")); (units "toJSON", JFun)]].
Definition called : json := default JNull (resolve named_call 6 [] called_sample).

Lemma parse_stringify_witness :
  exists t, stringify named_call 6 called_sample RNone (inl 2) = Ok (Some t) /\ looks_safe t = true /\
    read_json t = Some (default JNull (clean called)) /\
    parse grammar_eval t None = Ok (default JNull (clean called)).
Proof.
  apply (parse_stringify named_call grammar_eval 6 called_sample called (default JNull (clean called)) (inl 2)).
  - exact grammar_eval_json.
  - reflexivity.
  - left. reflexivity.
  - unfold called, called_sample, sample. cbn -[num_string isFinite number_text units]. unfold number_text.
    repeat split; intros; repeat constructor; vm_compute; (reflexivity || discriminate).
  - reflexivity.
  - vm_compute. reflexivity.
Defined.
