(* ===== verification/Component.v ===== *)
(** * ligerUI core: components, their events, the manager pool, the window layer

    [base.js]: the pool of managers ([getId], [add], [remove], [get], [find],
    [run]), [Component] ([set], [get], [hasBind], [trigger], [bind], [unbind]) and
    [win] (the mask and the task bar). *)

From S2P Require Import Prelude JsString.
From Stdlib Require Import Ascii.
Local Open Scope string_scope.
Local Open Scope Z_scope.

Abbreviation cref := positive.      (* a component *)
Abbreviation href := positive.      (* a function used as a handler *)

(** ** Components *)

(** An option's value: a function, or a value without behaviour. *)
Inductive oval := OFun (h : href) | OVal (s : string) | OBool (b : bool).

Record binding := Binding { b_handler : href; b_context : cref }.

(** The arrays of bindings are objects: a [trigger] under way goes on with the
    array it started with, whatever becomes of the property. *)
Record component := Component {
  c_id : cref;
  events : list (string * positive);
  lists : gmap positive (list binding);
  options : list (string * oval);
  calls : list (href * cref * list string)    (* the handlers called *)
}.

Definition set_events e l c := Component (c_id c) e l (options c) (calls c).
Definition set_options o c := Component (c_id c) (events c) (lists c) o (calls c).
Definition log_call x c := Component (c_id c) (events c) (lists c) (options c) (calls c ++ [x])%list.

Definition event_list (name : string) (c : component) : list binding :=
  match oget name (events c) with
  | Some a => default [] (lists c !! a) | None => [] end.

Definition hasBind (arg : string) (c : component) : bool :=
  negb (bool_decide (event_list (lower arg) c = [])).

Definition bind_event (arg : string) (h : href) (context : option cref) (c : component) : component :=
  let name := lower arg in
  let b := Binding h (default (c_id c) context) in
  match oget name (events c) with
  | Some a => set_events (events c) (<[a := (default [] (lists c !! a) ++ [b])%list]> (lists c)) c
  | None =>
      let a := fresh (dom (lists c)) in
      set_events (oset name a (events c)) (<[a := [b]]> (lists c)) c
  end.

(** [bind] of an object binds every property that is a function. *)
Definition bind_all (hs : list (string * href)) (c : component) : component :=
  fold_left (fun c p => bind_event p.1 p.2 None c) hs c.

(** The first binding of the handler goes. *)
Fixpoint drop_handler (h : href) (l : list binding) : list binding :=
  match l with
  | [] => []
  | b :: l' => if bool_decide (b_handler b = h) then l' else b :: drop_handler h l'
  end.

Definition unbind (arg : option string) (handler : option href) (c : component) : component :=
  match truthy_str arg with
  | None => set_events [] (lists c) c
  | Some arg =>
      let name := lower arg in
      match oget name (events c) with
      | None => c
      | Some a =>
          if bool_decide (default [] (lists c !! a) = []) then c
          else match handler with
               | None => set_events (odel name (events c)) (lists c) c
               | Some h => set_events (events c)
                             (<[a := drop_handler h (default [] (lists c !! a))]> (lists c)) c
               end
      end
  end.

Section trigger.
(** What a handler does to the component, and whether it returns [false]. *)
Context (run_handler : href -> cref -> list string -> component -> bool * component).

(** The loop over the array, which handlers may make longer or shorter;
    [None] when the fuel runs out. *)
Fixpoint trigger_loop (fuel : nat) (a : positive) (i : nat) (data : list string) (c : component)
    : option (bool * component) :=
  match default [] (lists c !! a) !! i with
  | None => Some (true, c)
  | Some b =>
      match fuel with
      | O => None
      | S fuel' =>
          let '(stop, c) := run_handler (b_handler b) (b_context b) data
                              (log_call (b_handler b, b_context b, data) c) in
          if (stop : bool) then Some (false, c) else trigger_loop fuel' a (S i) data c
      end
  end.

(** [trigger]: [false] when a handler returned [false]; [true] stands for the
    [undefined] of the other case. *)
Definition trigger (fuel : nat) (arg : string) (data : list string) (c : component)
    : option (bool * component) :=
  match oget (lower arg) (events c) with
  | None => Some (true, c)
  | Some a => trigger_loop fuel a 0 data c
  end.

(** The [_setX] and [_getX] methods of the component. *)
Context (setter : string -> option (oval -> component -> component)).
Context (getter : string -> option (component -> oval)).

(** [name.substr(0, 1).toUpperCase() + name.substr(1)] *)
Definition upper_first (s : string) : string :=
  match s with
  | EmptyString => ""
  | String ch s' =>
      let n := nat_of_ascii ch in
      String (if (97 <=? n)%nat && (n <=? 122)%nat then ascii_of_nat (n - 32) else ch) s'
  end.

Definition is_on (name : string) : bool := String.prefix "on" name.

Definition set_property (fuel : nat) (name : string) (value : oval) (c : component)
    : option component :=
  if String.eqb name "" then Some c
  else if is_on name then
    match value with
    | OFun h => Some (bind_event (str_drop 2 name) h None c)
    | _ => Some c
    end
  else
    c ← snd <$> trigger fuel "propertychange" [name] c;
    let c := set_options (oset name value (options c)) c in
    let c := match setter ("_set" ++ upper_first name) with Some f => f value c | None => c end in
    snd <$> trigger fuel "propertychanged" [name] c.

Fixpoint set_each (fuel : nat) (on : bool) (ps : list (string * oval)) (c : component)
    : option component :=
  match ps with
  | [] => Some c
  | (n, v) :: ps' =>
      c ← (if Bool.eqb (is_on n) on then set_property fuel n v c else Some c);
      set_each fuel on ps' c
  end.

(** [set] of an object: the events first, then the properties; [which] chooses one
    of the two.  An object that is not the options themselves is copied into
    them. *)
Definition set_all (fuel : nat) (arg : list (string * oval)) (own : bool) (which : option bool)
    (c : component) : option component :=
  let c := if own then c else set_options (extend_obj (options c) arg) c in
  let tmp := if own then options c else arg in
  c ← (match which with None | Some true => set_each fuel true tmp c | _ => Some c end);
  match which with None | Some false => set_each fuel false tmp c | _ => Some c end.

Definition get_property (name : string) (c : component) : option oval :=
  match getter ("_get" ++ upper_first name) with
  | Some f => Some (f c)
  | None => oget name (options c)
  end.
End trigger.

(** ** The pool of managers *)

Record pool := Pool { managerCount : Z; managers : list (string * cref) }.

Definition getId (prev : string) (m : pool) : string * pool :=
  (((if String.eqb prev "" then "ligerui" else prev) ++ show_Z (1000 + managerCount m)),
   Pool (managerCount m + 1) (managers m)).

(** [add]: a component without an id gets one; an id that is there already is
    taken over. *)
Definition add (id : option string) (idPrev : string) (r : cref) (m : pool) : string * pool :=
  let '(id, m) := match truthy_str id with Some i => (i, m) | None => getId idPrev m end in
  (id, Pool (managerCount m) (oset id r (managers m))).

Definition remove_manager (id : string) (m : pool) : pool :=
  Pool (managerCount m) (odel id (managers m)).

(** [get] of an id, or of a list of elements: the first one's [ligeruiid]. *)
Inductive get_arg := GId (id : string) | GElements (ids : list (option string)).

Definition get_manager (a : get_arg) (m : pool) : option cref :=
  match a with
  | GId id => oget id (managers m)
  | GElements (Some id :: _) => oget id (managers m)
  | GElements _ => None
  end.

Definition find (types : list string) (type_of : cref -> string) (m : pool) : list cref :=
  List.filter (fun r => bool_decide (type_of r ∈ types)) (map snd (managers m)).

(** [UIComponent._init]: the id of a new component. *)
Definition init_id (option_id element_id : option string) (idPrev : string) (m : pool)
    : string * pool :=
  match truthy_str option_id, truthy_str element_id with
  | Some i, _ => (i, m)
  | None, Some i => (i, m)
  | None, None => getId idPrev m
  end.

(** *** [run] *)

(** The first argument of a plugin call. *)
Inductive run_arg := ANone | AObject (ps : list (string * oval)) | AString (s : string).

(** An element: whether a component is on it. *)
Record target := Target { t_liger : option string }.

Inductive action :=
| ASet (r : cref) (ps : list (string * oval))          (* manager.set *)
| ASetName (r : cref) (name : string)                  (* manager.set(name, undefined) *)
| ANew (plugin : string) (index : nat) (ps : list (string * oval))  (* new control *)
| AGet (r : cref) (name : string)
| ASetOption (r : cref) (name : string)
| ACall (r : cref) (method : string).

(** [plugin.replace(/^ligerGet/, '').replace(/^liger/, '')] *)
Definition strip_prefix (pre s : string) : string :=
  if String.prefix pre s then str_drop (String.length pre) s else s.
Definition plugin_name (plugin : string) : string :=
  strip_prefix "liger" (strip_prefix "ligerGet" plugin).

(** [/Manager$/.test(plugin)] *)
Definition ends_with (suf s : string) : bool :=
  let n := String.length s in let k := String.length suf in
  (k <=? n)%nat && String.eqb (str_drop (n - k) s) suf.

Definition run_each (plugin : string) (arg : run_arg) (defaults : list (string * oval)) (m : pool)
    (i : nat) (t : target) : list action :=
  match t_liger t with
  | Some id =>
      match oget id (managers m), arg with
      | Some r, AObject ps => [ASet r ps]
      | Some r, AString s => [ASetName r s]
      | _, _ => []
      end
  | None =>
      match arg with
      | AString _ => []
      | AObject ps => [ANew plugin i (extend_obj defaults ps)]
      | ANone => [ANew plugin i defaults]
      end
  end.

Fixpoint each_target (n : nat) (plugin : string) (arg : run_arg) (defaults : list (string * oval))
    (m : pool) (ts : list target) : list action :=
  match ts with
  | [] => []
  | t :: ts' => run_each plugin arg defaults m n t ++ each_target (S n) plugin arg defaults m ts'
  end%list.

(** The manager [run] returns: one of the pool, or the one it made for the first
    element. *)
Inductive manager_ref := Known (r : cref) | Created.

(** The [get] at the end of [run], after the components were made. *)
Definition get_after (acts : list action) (ts : list target) (m : pool) : option manager_ref :=
  match ts, acts with
  | Target None :: _, ANew _ O _ :: _ => Some Created
  | _, _ => Known <$> get_manager (GElements (map t_liger ts)) m
  end.

(** What [run] does for the elements [ts]; [nargs] is the number of arguments and
    [has_method] says which methods the manager has. *)
Definition run (plugin : string) (arg : run_arg) (nargs : Z) (second : string)
    (defaults : list (string * oval)) (has_method : cref -> string -> bool) (ts : list target)
    (m : pool) : list action * option manager_ref :=
  let plugin := plugin_name plugin in
  if ends_with "Manager" plugin then ([], Known <$> get_manager (GElements (map t_liger ts)) m)
  else
    let acts := each_target 0 plugin arg defaults m ts in
    match arg, ts with
    | AString s, _ :: _ =>
        match get_manager (GElements (map t_liger ts)) m with
        | None => (acts, None)
        | Some r =>
            if String.eqb s "option" then
              (acts ++ (if nargs =? 2 then [AGet r second]
                        else if 3 <=? nargs then [ASetOption r second] else []), None)%list
            else (acts ++ (if has_method r s then [ACall r s] else []), None)%list
        end
    | _, [] => (acts, None)
    | _, _ => (acts, get_after acts ts m)
    end.

(** ** The window layer *)

Record window := Window { w_id : string; w_modal : bool }.

Record win := Win {
  maskShown : option bool;           (* windowMask: shown? *)
  masking : bool;
  taskbar : bool;
  tasks : list (string * bool);      (* the tasks, by window: active? *)
  front : option string;
  closing : nat                      (* animations that will remove the task bar *)
}.

Definition mask (w : win) : win := Win (Some true) true (taskbar w) (tasks w) (front w) (closing w).

(** [unmask]: as long as another modal window is open the mask stays. *)
Definition unmask (own : option string) (visible : list window) (w : win) : win :=
  let others := List.filter (fun v => negb (bool_decide (own = Some (w_id v)))) visible in
  if existsb w_modal others then w
  else Win ((fun _ => false) <$> maskShown w) false (taskbar w) (tasks w) (front w) (closing w).

Definition createTaskbar (w : win) : win :=
  if taskbar w then w else Win (maskShown w) (masking w) true [] (front w) (closing w).

(** [removeTaskbar] starts an animation; [taskbar_closed] is its end, which removes
    the bar there is then. *)
Definition removeTaskbar (w : win) : win :=
  Win (maskShown w) (masking w) (taskbar w) (tasks w) (front w) (S (closing w)).

Definition taskbar_closed (w : win) : res win :=
  if taskbar w then Ok (Win (maskShown w) (masking w) false (tasks w) (front w) (pred (closing w)))
  else Throw TypeError.

Definition activeTask (id : string) (w : win) : win :=
  Win (maskShown w) (masking w) (taskbar w)
    (map (fun t => (t.1, String.eqb t.1 id)) (tasks w)) (front w) (closing w).

Definition getTask (id : string) (w : win) : option bool :=
  if taskbar w then oget id (tasks w) else None.

Definition addTask (id : string) (w : win) : win :=
  let w := if taskbar w then w else createTaskbar w in
  match oget id (tasks w) with
  | Some _ => w
  | None =>
      activeTask id (Win (maskShown w) (masking w) (taskbar w) (oset id false (tasks w)) (front w) (closing w))
  end.

Definition hasTask (w : win) : bool := negb (bool_decide (tasks w = [])).

(** [removeTask]: with its last task the task bar starts to go. *)
Definition removeTask (id : string) (w : win) : win :=
  if negb (taskbar w) then w
  else
    let w := Win (maskShown w) (masking w) (taskbar w) (odel id (tasks w)) (front w) (closing w) in
    if hasTask w then w else removeTaskbar w.

(** [setFront]: the window comes to the front if the pool has it. *)
Definition setFront (id : string) (wins : list string) (w : win) : win :=
  if bool_decide (id ∈ wins)
  then let w := activeTask id w in Win (maskShown w) (masking w) (taskbar w) (tasks w) (Some id) (closing w)
  else w.

(** ** Events *)

Local Close Scope string_scope.

(** The handlers that run: up to the first that returns [false]. *)
Fixpoint called (stops : href -> bool) (l : list binding) : list binding :=
  match l with
  | [] => []
  | b :: l' => if stops (b_handler b) then [b] else b :: called stops l'
  end.

Lemma trigger_loop_called stops data fuel a i c :
  let l := default [] (lists c !! a) in
  (i <= length l)%nat -> (length l - i <= fuel)%nat ->
  trigger_loop (fun h _ _ c => (stops h, c)) fuel a i data c
  = Some (negb (existsb (fun b => stops (b_handler b)) (drop i l)),
          Component (c_id c) (events c) (lists c) (options c)
            (calls c ++ map (fun b => (b_handler b, b_context b, data)) (called stops (drop i l)))).
Proof.
  cbn zeta. remember (default [] (lists c !! a)) as l eqn:El. revert i c El.
  induction fuel as [|fuel IH]; intros i c El Hi Hf; cbn [trigger_loop]; rewrite <-El.
  - rewrite lookup_ge_None_2 by lia. rewrite drop_ge by lia. cbn. rewrite app_nil_r. by destruct c.
  - destruct (l !! i) as [b|] eqn:Eb; cycle 1.
    { apply lookup_ge_None in Eb. rewrite drop_ge by lia. cbn. rewrite app_nil_r. by destruct c. }
    rewrite (drop_S l b i) by done. cbn [existsb called].
    destruct (stops (b_handler b)) eqn:Es; [done|].
    apply lookup_lt_Some in Eb. rewrite IH by (done || lia). cbn. by rewrite <-app_assoc.
Qed.

(** Triggering an event, in any case of its letters, calls the handlers bound to
    it in the order they were bound, each in its own context with the data given,
    up to and including the first that returns [false]; the trigger returns
    [false] exactly when one does. *)
Theorem trigger_calls stops data fuel arg c :
  (length (event_list (lower arg) c) <= fuel)%nat ->
  trigger (fun h _ _ c => (stops h, c)) fuel arg data c
  = Some (negb (existsb (fun b => stops (b_handler b)) (event_list (lower arg) c)),
          Component (c_id c) (events c) (lists c) (options c)
            (calls c ++ map (fun b => (b_handler b, b_context b, data))
                          (called stops (event_list (lower arg) c)))).
Proof.
  unfold trigger, event_list. destruct (oget (lower arg) (events c)) as [a|]; intros Hf.
  - rewrite trigger_loop_called; [done|lia|lia].
  - cbn. rewrite app_nil_r. by destruct c.
Qed.

Definition demo_component : component :=
  bind_event "beforeEdit" 2%positive None
    (bind_event "BeforeEdit" 1%positive (Some 7%positive) (Component 9%positive [] ∅ [] [])).

Lemma trigger_calls_witness :
  snd <$> trigger (fun h _ _ c => (bool_decide (h = 1%positive), c)) 2 "beforeedit" [] demo_component
  = Some (log_call (1%positive, 7%positive, []) demo_component).
Proof.
  rewrite (trigger_calls (fun h => bool_decide (h = 1%positive)) [] 2 "beforeedit" demo_component).
  - reflexivity.
  - vm_compute. lia.
Defined.

(** The arrays the events point to are there. *)
Definition wf_events (c : component) : Prop :=
  (forall n a, oget n (events c) = Some a -> is_Some (lists c !! a)) /\
  (forall n n' a, oget n (events c) = Some a -> oget n' (events c) = Some a -> n = n').

(** Binding keeps the arrays of different events apart, and puts the handler
    last among the handlers of its event only. *)
Theorem bind_event_lists arg h ctx c :
  wf_events c ->
  wf_events (bind_event arg h ctx c) /\
  forall n, event_list n (bind_event arg h ctx c)
    = if decide (n = lower arg)
      then event_list n c ++ [Binding h (default (c_id c) ctx)] else event_list n c.
Proof.
  intros [W1 W2]. unfold bind_event. destruct (oget (lower arg) (events c)) as [a|] eqn:E.
  - split.
    + split; [|exact W2]. intros n a' Hn. cbn. destruct (decide (a' = a)) as [->|].
      * rewrite lookup_insert_eq. by eexists.
      * rewrite lookup_insert_ne by done. by eapply W1.
    + intros n. unfold event_list. cbn. case_decide as Hd.
      * subst n. by rewrite E, lookup_insert_eq.
      * destruct (oget n (events c)) as [a'|] eqn:En; [|done].
        rewrite lookup_insert_ne; [done|]. intros <-. by apply Hd, (W2 _ _ a).
  - set (a := fresh (dom (lists c))).
    assert (lists c !! a = None) as Ha by (apply not_elem_of_dom, is_fresh).
    split.
    + split.
      * intros n a' Hn. cbn in *. destruct (decide (a' = a)) as [->|].
        { rewrite lookup_insert_eq. by eexists. }
        rewrite lookup_insert_ne by done. destruct (decide (n = lower arg)) as [->|].
        { rewrite oget_oset_eq in Hn. congruence. }
        rewrite oget_oset_ne in Hn by done. by eapply W1.
      * intros n n' a' Hn Hn'. cbn in *.
        destruct (decide (n = lower arg)) as [->|Hd], (decide (n' = lower arg)) as [->|Hd'].
        -- done.
        -- rewrite oget_oset_eq in Hn. rewrite oget_oset_ne in Hn' by done. simplify_eq.
           destruct (W1 _ _ Hn') as [? ?]. congruence.
        -- rewrite oget_oset_ne in Hn by done. rewrite oget_oset_eq in Hn'. simplify_eq.
           destruct (W1 _ _ Hn) as [? ?]. congruence.
        -- rewrite oget_oset_ne in Hn by done. rewrite oget_oset_ne in Hn' by done. by eapply W2.
    + intros n. unfold event_list. cbn. case_decide as Hd.
      * subst n. rewrite oget_oset_eq, lookup_insert_eq, E. done.
      * rewrite oget_oset_ne by done. destruct (oget n (events c)) as [a'|] eqn:En; [|done].
        rewrite lookup_insert_ne; [done|]. intros <-. destruct (W1 _ _ En). congruence.
Qed.

Lemma bind_event_lists_witness :
  event_list "beforeedit" (bind_event "beforeEdit" 3%positive None (Component 9%positive [] ∅ [] []))
  = [Binding 3%positive 9%positive].
Proof.
  destruct (bind_event_lists "beforeEdit" 3%positive None (Component 9%positive [] ∅ [] []))
    as [_ H]; [split; intros *; cbn; discriminate|].
  exact (H "beforeedit"%string).
Defined.

(** ** Ids and tasks *)

Fixpoint getIds (n : nat) (prev : string) (m : pool) : list string :=
  match n with
  | O => []
  | S n' => let '(id, m) := getId prev m in id :: getIds n' prev m
  end.

(** The ids the pool makes for one kind of component are all different. *)
Theorem getId_distinct n prev m : NoDup (getIds n prev m).
Proof.
  assert (forall n m id, id ∈ getIds n prev m -> exists k, managerCount m <= k /\
    id = ((if String.eqb prev "" then "ligerui" else prev) +:+ show_Z (1000 + k))%string) as Hin.
  { clear. induction n as [|n IH]; intros m id; cbn; [by intros []%not_elem_of_nil|].
    rewrite elem_of_cons. intros [->|H]; [by exists (managerCount m)|].
    destruct (IH _ _ H) as (k & Hk & ->). cbn in Hk. exists k. split; [lia|done]. }
  revert m. induction n as [|n IH]; intros m; cbn; [constructor|]. constructor; [|apply IH].
  intros H. apply Hin in H as (k & Hk & E). cbn in Hk. apply (inj _) in E.
  unfold show_Z in E. apply (inj pretty) in E. lia.
Qed.

(** A new window's task is the only active one. *)
Definition one_active (l : list (string * bool)) : Prop :=
  forall k k', (k, true) ∈ l -> (k', true) ∈ l -> k = k'.

Lemma one_active_map id (l : list (string * bool)) :
  one_active (map (fun t => (t.1, String.eqb t.1 id)) l).
Proof.
  intros k k' ([? ?] & [= -> E] & _)%list_elem_of_fmap ([? ?] & [= -> E'] & _)%list_elem_of_fmap.
  symmetry in E, E'. by apply String.eqb_eq in E as ->, E' as ->.
Qed.

Lemma one_active_sub (l l' : list (string * bool)) :
  l' ⊆ l -> one_active l -> one_active l'.
Proof. intros Hl H k k' H1 H2. by apply H; apply Hl. Qed.

(** What windows do to the task bar: each opens when no bar is going away, and
    closes once. *)
Inductive win_step : win -> win -> Prop :=
| ws_mask w : win_step w (mask w)
| ws_unmask own visible w : win_step w (unmask own visible w)
| ws_add id w : closing w = 0%nat -> win_step w (addTask id w)
| ws_active id w : win_step w (activeTask id w)
| ws_front id wins w : win_step w (setFront id wins w)
| ws_remove id w : id ∈ okeys (tasks w) -> win_step w (removeTask id w)
| ws_closed w w' : closing w <> 0%nat -> taskbar_closed w = Ok w' -> win_step w w'.

Definition empty_win : win := Win None false false [] None 0.

Record win_ok (w : win) : Prop := WinOk {
  wo_keys : NoDup (okeys (tasks w));
  wo_active : one_active (tasks w);
  wo_bar : match closing w with
           | O => taskbar w = hasTask w
           | S O => taskbar w = true /\ tasks w = []
           | _ => False
           end
}.

Lemma okeys_active id (l : list (string * bool)) :
  okeys (map (fun t => (t.1, String.eqb t.1 id)) l) = okeys l.
Proof. unfold okeys. by rewrite map_map. Qed.

Lemma win_ok_active id w : win_ok w -> win_ok (activeTask id w).
Proof.
  intros [Hk Ha Hb]. split; unfold activeTask; cbn [tasks closing taskbar].
  - rewrite (okeys_active id). done.
  - apply one_active_map.
  - unfold hasTask in *. cbn [tasks]. destruct (closing w) as [|[|]]; [|by destruct Hb as [-> ->]|done].
    rewrite Hb. by destruct (tasks w).
Qed.

Lemma win_ok_add id w : closing w = 0%nat -> win_ok w -> win_ok (addTask id w).
Proof.
  intros Hc [Hk Ha Hb]. rewrite Hc in Hb. unfold addTask.
  set (w0 := if taskbar w then w else createTaskbar w).
  assert (taskbar w0 = true /\ tasks w0 = tasks w /\ closing w0 = 0%nat) as (H1 & H2 & H3).
  { subst w0. unfold createTaskbar. destruct (taskbar w) eqn:E; [done|].
    rewrite ?E. unfold hasTask in Hb. cbn. by destruct (tasks w). }
  rewrite H2. destruct (oget id (tasks w)) eqn:Eo.
  { split; rewrite ?H2, ?H3; [done..|]. rewrite H1. unfold hasTask. rewrite H2.
    by destruct (tasks w). }
  rewrite oset_fresh by done. apply oget_None in Eo.
  split; unfold activeTask, hasTask; cbn [tasks closing taskbar]; rewrite ?H3.
  - rewrite (okeys_active id). unfold okeys in *. rewrite map_app. cbn. apply NoDup_app.
    repeat split; [done| |apply NoDup_singleton]. by intros x Hx ->%list_elem_of_singleton.
  - apply one_active_map.
  - rewrite H1. by destruct (tasks w).
Qed.

Lemma win_ok_remove id w : id ∈ okeys (tasks w) -> win_ok w -> win_ok (removeTask id w).
Proof.
  intros Hid [Hk Ha Hb].
  assert (closing w = 0%nat) as Hc.
  { destruct (closing w) as [|[|]]; [done| |done]. destruct Hb as [_ Hb].
    rewrite Hb in Hid. by apply not_elem_of_nil in Hid. }
  rewrite Hc in Hb. unfold removeTask.
  assert (taskbar w = true) as Ht.
  { rewrite Hb. unfold hasTask. by destruct (tasks w); [apply not_elem_of_nil in Hid|]. }
  rewrite Ht. cbn [negb]. unfold removeTaskbar, hasTask. cbn [tasks].
  assert (NoDup (okeys (odel id (tasks w)))) as Hn by (by apply NoDup_okeys_odel).
  assert (one_active (odel id (tasks w))) as Hn' by (eapply one_active_sub, Ha; apply odel_sub).
  destruct (bool_decide (odel id (tasks w) = [])) eqn:E; cbn [negb].
  - apply bool_decide_eq_true in E. split; cbn; rewrite ?Hc; [done..|]. by rewrite E.
  - split; cbn; rewrite ?Hc; [done..|]. unfold hasTask. cbn. by rewrite ?Ht, E.
Qed.

Lemma win_ok_step w w' : win_step w w' -> win_ok w -> win_ok w'.
Proof.
  intros Hs H. destruct Hs as [w|own vis w|id w Hc|id w|id wins w|id w Hid|w w' Hc E].
  - by destruct H.
  - unfold unmask. cbn zeta. destruct (existsb _ _); [done|by destruct H].
  - by apply win_ok_add.
  - by apply win_ok_active.
  - unfold setFront. case_match; [|done]. cbn zeta. by destruct (win_ok_active id w H).
  - by apply win_ok_remove.
  - unfold taskbar_closed in E. destruct H as [Hk Ha Hb].
    destruct (closing w) as [|[|]]; [done| |done]. destruct Hb as [Hb1 Hb2].
    rewrite Hb1 in E. injection E as <-. rewrite Hb2 in *. by split.
Qed.

(** C34: As long as windows open when the task bar is not going away and close once,
    every task is there once, at most one is active, the bar is there exactly
    while there are tasks or its closing animation runs, and the end of that
    animation takes it away. *)
Theorem taskbar_reachable w :
  rtc win_step empty_win w ->
  NoDup (okeys (tasks w)) /\ one_active (tasks w) /\
  taskbar w = hasTask w || negb (closing w =? 0)%nat /\
  (closing w <> 0%nat -> exists w', taskbar_closed w = Ok w' /\ taskbar w' = false /\ tasks w' = []).
Proof.
  intros Hr. assert (win_ok w) as [Hk Ha Hb].
  { revert Hr. apply (rtc_ind_r (fun w => win_ok w)).
    - split; [constructor|by intros ? ? ?%not_elem_of_nil|done].
    - intros y z _ Hs Hy. by eapply win_ok_step. }
  do 2 (split; [done|]). unfold taskbar_closed, hasTask in *.
  destruct (closing w) as [|[|]]; [| |done]; cbn.
  - rewrite Hb, orb_false_r. by split.
  - destruct Hb as [-> ->]. split; [done|]. intros _. by eexists.
Qed.

Lemma taskbar_reachable_witness :
  exists w', taskbar_closed (removeTask "d1" (addTask "d1" empty_win)) = Ok w' /\ tasks w' = [].
Proof.
  destruct (taskbar_reachable (removeTask "d1" (addTask "d1" empty_win))) as (_ & _ & _ & H).
  - eapply rtc_l; [by apply (ws_add "d1")|]. apply rtc_once.
    apply ws_remove. vm_compute. left.
  - destruct H as (w' & H1 & _ & H2); [done|]. by exists w'.
Defined.

(** A task added while the bar goes away goes with it, its window stays open. *)
Lemma addTask_while_closing :
  match taskbar_closed (addTask "d2" (removeTask "d1" (addTask "d1" empty_win))) with
  | Ok w => getTask "d2" w = None | Throw _ => False end.
Proof. reflexivity. Qed.

(** Two windows closed one after the other without a task left: the end of the
    second animation is a [TypeError]. *)
Lemma taskbar_closed_twice :
  (w ← taskbar_closed (removeTask "d2" (removeTask "d1" (addTask "d1" empty_win)));
   taskbar_closed w) = Throw TypeError.
Proof. reflexivity. Qed.
