(* ===== verification/PageText.v ===== *)
(** * Page helpers: texts

    [common.js] and the text functions of [LG.js]: trimming, checking names and
    addresses, cookies, dates in a pattern, full-width characters.  Texts whose
    character codes matter are lists of UTF-16 code units; cookies and dates are
    byte strings (UTF-8). *)

From S2P Require Import Prelude JsString JsNum JsDate Json.
From Stdlib Require Import Ascii.
Local Open Scope string_scope.
Local Open Scope Z_scope.

(** ** White space *)

(** The characters of [\s], and those [.] does not match. *)
Definition ws (c : Z) : bool :=
  in_range 9 13 c || (c =? 32) || (c =? 160) || (c =? 5760) || in_range 8192 8202 c
  || (c =? 8232) || (c =? 8233) || (c =? 8239) || (c =? 8287) || (c =? 12288) || (c =? 65279).
Definition line_end (c : Z) : bool := (c =? 10) || (c =? 13) || (c =? 8232) || (c =? 8233).

Fixpoint drop_ws (s : text) : text :=
  match s with
  | [] => []
  | c :: s' => if ws c then drop_ws s' else s
  end.

(** The global replacement of white space at the start and at the end. *)
Definition strip (s : text) : text := rev (drop_ws (rev (drop_ws s))).

(** [common.js]'s [trim] keeps the group of a pattern in which a dot stands for the
    text between the white space: the pattern does not match when that text has a
    line end, and then nothing is replaced. *)
Definition trim (s : text) : text :=
  let core := strip s in if existsb line_end core then s else core.

(** ** Full-width characters *)

Definition half_width (c : Z) : Z :=
  if (65248 <? c) && (c <? 65375) then c - 65248
  else if c =? 12288 then 32 else c.

(** [LG.ToCDB]: the second of the two replacements around the loop finds nothing
    that the first has left. *)
Definition ToCDB (s : text) : text :=
  match s with [] => [] | _ => strip (map half_width (strip s)) end.

(** ** Names and addresses *)

(** The pattern's letters are the range from [A] to [z], which has the six characters
    between the capital and the small letters in it. *)
Definition A_to_z (c : Z) : bool := in_range 65 122 c.
Definition is_digit (c : Z) : bool := in_range 48 57 c.
Definition isValidName (s : text) : bool :=
  match s with
  | [] => false
  | c :: s' => A_to_z c && forallb (fun c => A_to_z c || is_digit c) s'
  end.

Definition word (c : Z) : bool := in_range 65 90 c || in_range 97 122 c || is_digit c || (c =? 95).

(** Words with single separators between them.  [inword] says
    whether a word has begun. *)
Fixpoint words (sep : Z -> bool) (inword : bool) (s : text) : bool :=
  match s with
  | [] => inword
  | c :: s' => if word c then words sep true s'
               else sep c && inword && words sep false s'
  end.

Fixpoint split_at (c : Z) (s : text) : option (text * text) :=
  match s with
  | [] => None
  | d :: s' => if d =? c then Some ([], s') else p ← split_at c s'; Some (d :: p.1, p.2)
  end.

(** [isEmail]: words separated by [-], [+] or [.], an at sign, and words separated
    by [-] or [.], a [.] among them. *)
Definition isEmail (s : text) : bool :=
  match split_at 64 s with
  | None => false
  | Some (l, d) =>
      words (fun c => (c =? 45) || (c =? 43) || (c =? 46)) false l &&
      words (fun c => (c =? 45) || (c =? 46)) false d && existsb (Z.eqb 46) d
  end.

(** [startsWith] and [endsWith] of a text without pattern characters. *)
Definition startsWith (pre s : text) : bool := bool_decide (take (length pre) s = pre).
Definition endsWith (suf s : text) : bool :=
  bool_decide (drop (length s - length suf) s = suf).
Definition isJsonString (s : text) : bool := startsWith [123] s && endsWith [125] s.

(** The text without a [<pre ...>] in front and a [</pre>] behind, in any case. *)
Definition lower_unit (c : Z) : Z := if in_range 65 90 c then c + 32 else c.
Definition starts_ci (pre s : text) : bool :=
  bool_decide (map lower_unit (take (length pre) s) = pre).
Fixpoint drop_past (c : Z) (s : text) : option text :=
  match s with [] => None | d :: s' => if d =? c then Some s' else drop_past c s' end.
Definition drop_pre (s : text) : text :=
  if starts_ci (units "<pre") s then default s (drop_past 62 (drop 4 s)) else s.
Definition drop_close_pre (s : text) : text :=
  let n := (length s - 6)%nat in
  if starts_ci (units "</pre>") (drop n s) then take n s else s.
Definition braced (s : text) : bool :=
  (2 <=? length s)%nat && startsWith [123] s && endsWith [125] s && negb (existsb line_end s).

(** [isJsonObjectString], and the text [toJsonObject] evaluates. *)
Definition isJsonObjectString (s : text) : bool := braced (drop_close_pre (drop_pre s)).
Definition jsonObjectText (s : text) : text :=
  if isJsonObjectString s then drop_close_pre (drop_pre s) else s.

(** [Array.prototype.erase]: from the last element down. *)
Fixpoint erase_from {A} `{EqDecision A} (i : nat) (item : A) (l : list A) : list A :=
  match i with
  | O => l
  | S i' => erase_from i' item
              (if bool_decide (l !! i' = Some item) then splice (Z.of_nat i') 1 [] l else l)
  end.
Definition erase {A} `{EqDecision A} (item : A) (l : list A) : list A :=
  erase_from (length l) item l.

(** Keys: digits and the enter key; what [fncKeyStop] stops. *)
Definition IsDigit (keyCode : Z) : bool := in_range 48 57 keyCode || (keyCode =? 13).
Definition fncKeyStop (window_event ctrlKey : bool) (keyCode : Z) : bool :=
  negb window_event && ctrlKey && (lower_unit keyCode =? 118).

(** ** Cookies *)

Definition hexdig (n : nat) : ascii :=
  ascii_of_nat (if (n <? 10)%nat then 48 + n else 55 + n).
Definition hexval (c : ascii) : option nat :=
  let n := nat_of_ascii c in
  if (48 <=? n)%nat && (n <=? 57)%nat then Some (n - 48)%nat
  else if (65 <=? n)%nat && (n <=? 70)%nat then Some (n - 55)%nat
  else if (97 <=? n)%nat && (n <=? 102)%nat then Some (n - 87)%nat else None.

(** The characters [encodeURIComponent] leaves as they are. *)
Definition unreserved (c : ascii) : bool :=
  let n := nat_of_ascii c in
  ((48 <=? n) && (n <=? 57))%nat || ((65 <=? n) && (n <=? 90))%nat || ((97 <=? n) && (n <=? 122))%nat
  || existsb (Ascii.eqb c) ["-"; "_"; "."; "!"; "~"; "*"; "'"; "("; ")"]%char.

Fixpoint encodeURIComponent (s : string) : string :=
  match s with
  | EmptyString => ""
  | String c s' =>
      if unreserved c then String c (encodeURIComponent s')
      else String "%" (String (hexdig (nat_of_ascii c / 16))
             (String (hexdig (nat_of_ascii c mod 16)) (encodeURIComponent s')))
  end.

Definition URIError : string := "URIError".

(** The decoded bytes; whether they are well-formed UTF-8 is not checked. *)
Fixpoint decodeURIComponent (s : string) : res string :=
  match s with
  | EmptyString => Ok ""
  | String c s' =>
      if Ascii.eqb c "%" then
        match s' with
        | String a (String b s'') =>
            match hexval a, hexval b with
            | Some x, Some y =>
                r ← decodeURIComponent s''; Ok (String (ascii_of_nat (16 * x + y)) r)
            | _, _ => Throw URIError
            end
        | _ => Throw URIError
        end
      else r ← decodeURIComponent s'; Ok (String c r)
  end.

(** [document.cookie]: the pairs, in order, as the browser writes them. *)
Definition jar := list (string * string).
Definition cookie_text (j : jar) : string :=
  join "; " (map (fun p => p.1 ++ "=" ++ p.2)%string j).

(** The text up to a character. *)
Fixpoint until (c : ascii) (s : string) : string :=
  match s with
  | EmptyString => ""
  | String d s' => if Ascii.eqb d c then "" else String d (until c s')
  end.

(** [cookies.get]: the first place the name and an equals sign occur. *)
Definition cookies_get (name : string) (cookie : string) : res string :=
  let search := (name ++ "=")%string in
  match String.index 0 search cookie with
  | None => Ok ""
  | Some off => decodeURIComponent (until ";" (str_drop (off + String.length search) cookie))
  end.

Definition day_name (t : Z) : string :=
  nth (Z.to_nat (getUTCDay t)) ["Sun"; "Mon"; "Tue"; "Wed"; "Thu"; "Fri"; "Sat"] "".
Definition month_name (t : Z) : string :=
  nth (Z.to_nat (getUTCMonth t))
    ["Jan"; "Feb"; "Mar"; "Apr"; "May"; "Jun"; "Jul"; "Aug"; "Sep"; "Oct"; "Nov"; "Dec"] "".

(** [toGMTString] of a time of the years 1000 to 9999. *)
Definition toGMTString (t : Z) : string :=
  day_name t ++ ", " ++ f (getUTCDate t) ++ " " ++ month_name t ++ " " ++ show_Z (getUTCFullYear t)
  ++ " " ++ f (getUTCHours t) ++ ":" ++ f (getUTCMinutes t) ++ ":" ++ f (getUTCSeconds t) ++ " GMT".

(** What [cookies.set] and [cookies.remvoe] assign to [document.cookie] at the time
    [now]; [None] for [DayValue] is a missing argument or [null]. *)
Definition cookies_set (now : Z) (name value : string) (days : option Z) : string :=
  name ++ "=" ++ encodeURIComponent value ++ ";path=/; expires="
  ++ toGMTString (now + default 1 days * 86400000).
Definition cookies_remvoe (now : Z) (name : string) : string :=
  name ++ "=;path=/; expires=" ++ toGMTString (now - 1).

Example cookies_set_ex :
  cookies_set 1388577600000 "user" "a;b" None
  = "user=a%3Bb;path=/; expires=Thu, 02 Jan 2014 12:00:00 GMT" /\
  cookies_remvoe 1388577600000 "user" = "user=;path=/; expires=Wed, 01 Jan 2014 11:59:59 GMT".
Proof. vm_compute. done. Qed.

(** ** Dates in a pattern *)

(** The first run of a character: what is before it, its length, what is after. *)
Fixpoint count_run (c : ascii) (s : string) : nat * string :=
  match s with
  | String d s' => if Ascii.eqb d c then let '(n, r) := count_run c s' in (S n, r) else (O, s)
  | EmptyString => (O, s)
  end.
Fixpoint first_run (c : ascii) (s : string) : option (string * nat * string) :=
  match s with
  | EmptyString => None
  | String d s' =>
      if Ascii.eqb d c then let '(n, r) := count_run c s' in Some ("", S n, r)
      else '(pre, n, r) ← first_run c s'; Some (String d pre, n, r)
  end.

(** [format.replace(RegExp.$1, ...)] for the pattern [c+]. *)
Definition replace_run (c : ascii) (text_of : nat -> string) (format : string) : string :=
  match first_run c format with
  | Some (pre, n, post) => pre ++ text_of n ++ post
  | None => format
  end.

Definition year_text (year : Z) (n : nat) : string := substr_from (4 - Z.of_nat n) (show_Z year).
Definition field_text (v : Z) (n : nat) : string :=
  if (n =? 1)%nat then show_Z v
  else str_drop (String.length (show_Z v)) ("00" ++ show_Z v).

(** [LG.getFormatDate], and the grid's, which takes [h] for the hours.  The date is
    given by its local fields, as a time that has them in UTC.  [S] matches one
    letter. *)
Definition getFormatDate (hours : ascii) (date : Z) (format : string) : string :=
  let s := replace_run "y" (year_text (getUTCFullYear date)) format in
  let s := replace_run "M" (field_text (getUTCMonth date + 1)) s in
  let s := replace_run "d" (field_text (getUTCDate date)) s in
  let s := replace_run hours (field_text (getUTCHours date)) s in
  let s := replace_run "m" (field_text (getUTCMinutes date)) s in
  let s := replace_run "s" (field_text (getUTCSeconds date)) s in
  let s := replace_run "q" (field_text ((getUTCMonth date + 3) / 3)) s in
  js_replace "S" (show_Z (Z.modulo date 1000)) s.

Example getFormatDate_ex :
  getFormatDate "H" 1388577600000 "yyyy-MM-dd HH:mm:ss" = "2014-01-01 12:00:00" /\
  getFormatDate "H" 1388577600000 "yy/M/d q" = "14/1/1 1".
Proof. vm_compute. done. Qed.

(** ** Full-width characters: the theorem *)

Lemma half_width_idem c : half_width (half_width c) = half_width c.
Proof.
  unfold half_width.
  destruct ((65248 <? c) && (c <? 65375)) eqn:E1; [|destruct (c =? 12288) eqn:E2]; zbool.
  - replace (65248 <? c - 65248) with false by (symmetry; apply Z.ltb_ge; lia). cbn [andb].
    replace (c - 65248 =? 12288) with false by (symmetry; apply Z.eqb_neq; lia). done.
  - done.
  - rewrite E1. by apply Z.eqb_neq in E2 as ->.
Qed.

Lemma drop_ws_idem s : drop_ws (drop_ws s) = drop_ws s.
Proof. induction s as [|c s IH]; cbn; [done|]. destruct (ws c) eqn:E; [done|]. cbn. by rewrite E. Qed.

Lemma drop_ws_suffix s : exists p, s = (p ++ drop_ws s)%list /\ forallb ws p = true.
Proof.
  induction s as [|c s (p & E & H)]; [by exists []|]. cbn. destruct (ws c) eqn:Ec.
  - exists (c :: p). cbn. rewrite Ec, <-E. done.
  - by exists [].
Qed.

Lemma drop_ws_rev s : drop_ws s = s -> drop_ws (rev (drop_ws (rev s))) = rev (drop_ws (rev s)).
Proof.
  intros H. destruct (drop_ws_suffix (rev s)) as (p & E & Hp).
  destruct (drop_ws (rev s)) as [|d t] eqn:Ed; [done|].
  assert (s = rev (d :: t) ++ rev p)%list as Es.
  { rewrite <-rev_app_distr, <-E. by rewrite rev_involutive. }
  destruct (rev (d :: t)) as [|c r] eqn:Er.
  { apply (f_equal (@rev Z)) in Er. rewrite rev_involutive in Er. done. }
  rewrite Es in H. cbn in H |- *. destruct (ws c) eqn:Ec; [|done].
  exfalso. apply (f_equal length) in H. destruct (drop_ws_suffix (r ++ rev p)) as (q & Eq & _).
  apply (f_equal length) in Eq. rewrite (length_app q) in Eq. cbn [length] in H. lia.
Qed.

Lemma strip_idem s : strip (strip s) = strip s.
Proof.
  unfold strip. rewrite (drop_ws_rev (drop_ws s)) by apply drop_ws_idem.
  rewrite (rev_involutive (drop_ws (rev (drop_ws s)))). by rewrite drop_ws_idem.
Qed.

Lemma strip_incl s c : c ∈ strip s -> c ∈ s.
Proof.
  unfold strip. destruct (drop_ws_suffix s) as (p & E & _).
  destruct (drop_ws_suffix (rev (drop_ws s))) as (q & E' & _).
  rewrite list_elem_of_In, <-in_rev, <-list_elem_of_In. intros H.
  assert (c ∈ rev (drop_ws s)) as H2 by (rewrite E'; apply elem_of_app; by right).
  rewrite list_elem_of_In, <-in_rev, <-list_elem_of_In in H2.
  rewrite E. apply elem_of_app. by right.
Qed.

(** Converting a text to half-width characters leaves no full-width character in
    it and no white space around it, and converting it again changes nothing. *)
Theorem ToCDB_normal s :
  ToCDB (ToCDB s) = ToCDB s /\ strip (ToCDB s) = ToCDB s /\
  Forall (fun c => half_width c = c) (ToCDB s).
Proof.
  assert (strip (ToCDB s) = ToCDB s /\ Forall (fun c => half_width c = c) (ToCDB s)) as [H1 H2].
  { destruct s as [|c s]; [done|]. cbn [ToCDB]. split; [apply strip_idem|].
    apply Forall_forall. intros x Hx%strip_incl. apply list_elem_of_fmap in Hx as (y & -> & _).
    apply half_width_idem. }
  split_and!; try done. destruct (ToCDB s) as [|c t]; [done|]. cbn [ToCDB].
  rewrite H1. rewrite <-H1 at 2. f_equal. clear H1.
  induction H2 as [|x l Hx _ IH]; cbn; [done|]. by rewrite Hx, IH.
Qed.

(** The library's [trim] takes the white space off both ends of a text of one
    line, and leaves a text of several lines as it is, white space and all. *)
Theorem trim_lines s :
  (Forall (fun c => line_end c = false) s -> trim s = strip s) /\
  (existsb line_end (strip s) = true -> trim s = s).
Proof.
  unfold trim. split.
  - intros H. destruct (existsb line_end (strip s)) eqn:E; [|done]. exfalso.
    apply existsb_exists in E as (c & Hc & Hl). apply list_elem_of_In, strip_incl in Hc.
    rewrite Forall_forall in H. by rewrite (H c Hc) in Hl.
  - by intros ->.
Qed.

(** A name may begin with an underscore or a bracket. *)
Lemma isValidName_loose :
  isValidName (units "_job") = true /\ isValidName (units "[job") = true.
Proof. done. Qed.

(** ** Cookies: the theorems *)

Lemma hexval_hexdig n : (n < 16)%nat -> hexval (hexdig n) = Some n.
Proof. intros H. do 16 (destruct n as [|n]; [reflexivity|]). lia. Qed.

Lemma decode_encode s : decodeURIComponent (encodeURIComponent s) = Ok s.
Proof.
  induction s as [|c s IH]; [done|]. cbn [encodeURIComponent].
  destruct (unreserved c) eqn:E.
  - cbn [decodeURIComponent]. destruct (Ascii.eqb c "%") eqn:Ec.
    { apply Ascii.eqb_eq in Ec. subst. by vm_compute in E. }
    by rewrite IH.
  - cbn [decodeURIComponent]. change (Ascii.eqb "%" "%") with true. cbn iota.
    pose proof (nat_ascii_bounded c).
    rewrite !hexval_hexdig by (first [apply Nat.mod_upper_bound; lia | apply Nat.Div0.div_lt_upper_bound; lia]).
    rewrite IH. cbn [mbind res_bind].
    rewrite <-Nat.div_mod_eq. by rewrite ascii_nat_embedding.
Qed.

Lemma hexdig_not n : (n < 16)%nat -> Ascii.eqb ";" (hexdig n) = false.
Proof. intros H. do 16 (destruct n as [|n]; [reflexivity|]). lia. Qed.

Lemma lacks_encode s : lacks ";" (encodeURIComponent s) = true.
Proof.
  induction s as [|c s IH]; [done|]. cbn [encodeURIComponent]. pose proof (nat_ascii_bounded c).
  destruct (unreserved c) eqn:E; cbn [lacks].
  - destruct (Ascii.eqb ";" c) eqn:Ec; [|done]. apply Ascii.eqb_eq in Ec. subst. by vm_compute in E.
  - rewrite !hexdig_not by (first [apply Nat.mod_upper_bound; lia | apply Nat.Div0.div_lt_upper_bound; lia]).
    done.
Qed.

Lemma until_lacks c s t : lacks c s = true -> until c (s ++ String c t) = s /\ until c s = s.
Proof.
  induction s as [|d s IH]; cbn [lacks].
  - intros _. rewrite str_app_nil_l. cbn. by rewrite Ascii.eqb_refl.
  - rewrite andb_true_iff, negb_true_iff. intros [Hd Hs]. rewrite str_app_cons. cbn.
    rewrite Ascii.eqb_sym, Hd. destruct (IH Hs) as [-> ->]. done.
Qed.

Lemma index_skip c n pre t :
  lacks c pre = true -> String.index 0 (String c n) (pre ++ String c n ++ t) = Some (String.length pre).
Proof.
  induction pre as [|d pre IH]; cbn [lacks].
  - intros _. rewrite str_app_nil_l, str_app_cons. cbn [String.length].
    change (String.index 0 (String c n) (String c (n ++ t)))
      with (if String.prefix (String c n) (String c (n ++ t)) then Some 0%nat
            else match String.index 0 (String c n) (n ++ t) with Some k => Some (S k) | None => None end).
    rewrite <-str_app_cons, prefix_app. done.
  - rewrite andb_true_iff, negb_true_iff, str_app_cons. intros [Hd Hs].
    change (String.index 0 (String c n) (String d (pre ++ String c n ++ t)))
      with (if String.prefix (String c n) (String d (pre ++ String c n ++ t)) then Some 0%nat
            else match String.index 0 (String c n) (pre ++ String c n ++ t) with
                 | Some k => Some (S k) | None => None end).
    cbn [String.prefix]. destruct (ascii_dec c d) as [->|]; [by rewrite Ascii.eqb_refl in Hd|].
    by rewrite IH.
Qed.

(** The pair that [cookies.set] writes is read back, whatever the characters of the
    value; but the cookie read under a name is the first one whose name ends with
    it. *)
Theorem cookies_get_set c n pre v w :
  lacks c pre = true ->
  let name := String c n in
  (forall now days, cookies_get name (cookies_set now name v days) = Ok v) /\
  cookies_get name (cookie_text [(name, encodeURIComponent v)]) = Ok v /\
  cookies_get name (cookie_text [((pre ++ name)%string, encodeURIComponent w);
                                 (name, encodeURIComponent v)]) = Ok w.
Proof.
  intros Hpre. cbn zeta.
  assert (forall p rest w, lacks c p = true -> rest = "" \/ (exists t, rest = String ";" t) ->
    cookies_get (String c n) (p ++ (String c n ++ "=") ++ (encodeURIComponent w ++ rest)) = Ok w) as H.
  { intros p rest x Hp Hr. unfold cookies_get. rewrite str_app_cons.
    rewrite (index_skip c (n ++ "=") p) by done.
    rewrite <-(str_length_app p), <-str_app_assoc, str_drop_app.
    destruct Hr as [->|[t ->]].
    - rewrite str_app_nil_r. rewrite (proj2 (until_lacks ";" _ "" (lacks_encode x))). apply decode_encode.
    - rewrite (proj1 (until_lacks ";" _ t (lacks_encode x))). apply decode_encode. }
  split_and!.
  - intros now days. unfold cookies_set.
    pose proof (H "" (";path=/; expires=" ++ toGMTString (now + default 1 days * 86400000))
                  v eq_refl) as H1.
    rewrite str_app_nil_l, str_app_assoc in H1. apply H1. right. eexists. reflexivity.
  - pose proof (H "" "" v eq_refl (or_introl eq_refl)) as H1.
    rewrite str_app_nil_l, str_app_nil_r, str_app_assoc in H1. exact H1.
  - pose proof (H pre ("; " ++ String c n ++ "=" ++ encodeURIComponent v) w Hpre) as H2.
    rewrite !str_app_assoc in H2. unfold cookie_text. cbn [map join fst snd].
    rewrite !str_app_assoc. apply H2. right. eexists. reflexivity.
Qed.

Lemma cookies_get_set_witness :
  cookies_get "id" (cookie_text [("gid", encodeURIComponent "7"); ("id", encodeURIComponent "8")])
  = Ok "7".
Proof. exact (proj2 (proj2 (cookies_get_set "i" "d" "g" "8" "7" eq_refl))). Defined.

(** ** Erasing *)

Lemma erase_from_filter {A} `{EqDecision A} i (item : A) l :
  (i <= length l)%nat ->
  erase_from i item l = (List.filter (fun x => negb (bool_decide (x = item))) (take i l) ++ drop i l)%list.
Proof.
  revert l. induction i as [|i IH]; intros l Hi; cbn [erase_from]; [done|].
  destruct (lookup_lt_is_Some_2 l i) as [x Hx]; [lia|]. rewrite Hx.
  rewrite (take_S_r l i x) by done. rewrite List.filter_app. cbn [List.filter].
  case_bool_decide as E.
  - injection E as ->. rewrite bool_decide_true by done. cbn [negb]. rewrite app_nil_r.
    rewrite splice_remove by lia. rewrite IH by (rewrite length_delete by (by eexists); lia).
    rewrite delete_take_drop. rewrite take_app_le by (rewrite length_take; lia).
    rewrite take_take, Nat.min_id. f_equal.
    rewrite drop_app_ge by (rewrite length_take; lia). rewrite length_take.
    by replace (i - i `min` length l)%nat with 0%nat by lia.
  - rewrite bool_decide_false by congruence. cbn [negb]. rewrite IH by lia.
    rewrite <-app_assoc. cbn. by rewrite <-(drop_S l x i).
Qed.

(** [erase] takes every element equal to the item out of an array, and keeps
    the others in order. *)
Theorem erase_filter {A} `{EqDecision A} (item : A) l :
  erase item l = List.filter (fun x => negb (bool_decide (x = item))) l.
Proof.
  unfold erase. rewrite erase_from_filter by done.
  by rewrite take_ge, drop_ge, app_nil_r by done.
Qed.

(** ** Dates in a pattern: the theorem *)

Lemma replace_run_none c tx s : lacks c s = true -> replace_run c tx s = s.
Proof.
  intros H. unfold replace_run. assert (first_run c s = None) as ->; [|done].
  induction s as [|d s IH]; [done|]. cbn [lacks] in H.
  apply andb_true_iff in H as [Hd Hs]. apply negb_true_iff in Hd. cbn.
  rewrite Ascii.eqb_sym, Hd, IH by done. done.
Qed.

Lemma count_run_repeat c n post :
  lacks c (str_take 1 post) = true -> count_run c (str_repeat n (String c "") ++ post) = (n, post).
Proof.
  intros Hp. induction n as [|n IH]; cbn [str_repeat].
  - rewrite str_app_nil_l. destruct post as [|d post]; [done|]. cbn in Hp |- *.
    apply andb_true_iff in Hp as [Hd _]. apply negb_true_iff in Hd. by rewrite Ascii.eqb_sym, Hd.
  - rewrite !str_app_cons, str_app_nil_l. cbn. by rewrite Ascii.eqb_refl, IH.
Qed.

Lemma replace_run_at c tx pre n post :
  lacks c pre = true -> lacks c (str_take 1 post) = true ->
  replace_run c tx (pre ++ str_repeat (S n) (String c "") ++ post) = pre ++ tx (S n) ++ post.
Proof.
  intros Hpre Hpost. unfold replace_run.
  assert (first_run c (pre ++ str_repeat (S n) (String c "") ++ post) = Some (pre, S n, post)) as ->;
    [|done].
  induction pre as [|d pre IH].
  - rewrite str_app_nil_l. cbn [str_repeat]. rewrite !str_app_cons, str_app_nil_l.
    cbn [first_run]. rewrite Ascii.eqb_refl, count_run_repeat by done. done.
  - cbn [lacks] in Hpre. apply andb_true_iff in Hpre as [Hd Hs]. apply negb_true_iff in Hd.
    rewrite str_app_cons. cbn [first_run]. rewrite Ascii.eqb_sym, Hd, IH by done. done.
Qed.

Definition is_letter (c : ascii) : Prop :=
  (forall d, (d < 10)%N -> Ascii.eqb c (pretty_N_char d) = false) /\
  Ascii.eqb c "-" = false /\ Ascii.eqb c "0" = false.

Lemma digit_cases (d : N) : (d < 10)%N -> d ∈ [0;1;2;3;4;5;6;7;8;9]%N.
Proof.
  intros H. assert (d = 0 \/ d = 1 \/ d = 2 \/ d = 3 \/ d = 4 \/ d = 5 \/ d = 6 \/ d = 7
    \/ d = 8 \/ d = 9)%N by lia. rewrite !elem_of_cons. tauto.
Qed.

Ltac solve_letter :=
  split; [|split; reflexivity];
  let x := fresh in let H := fresh in intros x H; apply digit_cases in H;
  repeat (apply elem_of_cons in H as [->|H]; [reflexivity|]); by apply not_elem_of_nil in H.

Lemma lacks_drop c n s : lacks c s = true -> lacks c (str_drop n s) = true.
Proof.
  revert s. induction n as [|n IH]; intros [|d s]; cbn; try done.
  rewrite andb_true_iff. intros [_ H]. by apply IH.
Qed.

Lemma lacks_field c v n : is_letter c -> lacks c (field_text v n) = true.
Proof.
  intros (H1 & H2 & H3). unfold field_text. destruct (n =? 1)%nat; [by apply lacks_show_Z|].
  apply lacks_drop. rewrite lacks_app. cbn. rewrite H3. cbn. by apply lacks_show_Z.
Qed.

Lemma lacks_show c v : is_letter c -> lacks c (show_Z v) = true.
Proof. intros (H1 & H2 & _). by apply lacks_show_Z. Qed.

Lemma js_replace_none c repl s : lacks c s = true -> js_replace (String c "") repl s = s.
Proof.
  unfold js_replace. generalize "" at 1 as pre. induction s as [|d s IH]; intros pre H; [done|].
  cbn [lacks] in H. apply andb_true_iff in H as [Hd Hs]. apply negb_true_iff in Hd.
  cbn [replace_go String.prefix]. destruct (ascii_dec c d) as [->|]; [by rewrite Ascii.eqb_refl in Hd|].
  by rewrite IH.
Qed.

(** The pattern [yyyy-MM-dd] gives the year and the month and day in two digits,
    for any time the date object can hold. *)
Theorem getFormatDate_ymd hours date :
  is_letter hours ->
  getFormatDate hours date "yyyy-MM-dd"
  = show_Z (getUTCFullYear date) ++ "-" ++ field_text (getUTCMonth date + 1) 2 ++ "-"
    ++ field_text (getUTCDate date) 2.
Proof.
  intros Hh. unfold getFormatDate.
  set (y := show_Z (getUTCFullYear date)). set (m := field_text (getUTCMonth date + 1)).
  set (d := field_text (getUTCDate date)).
  change (replace_run "y" ?f "yyyy-MM-dd")
    with (replace_run "y" f ("" ++ str_repeat 4 "y" ++ "-MM-dd")).
  rewrite replace_run_at by done.
  assert (year_text (getUTCFullYear date) 4 = y) as -> by done.
  rewrite str_app_nil_l.
  assert (y ++ "-MM-dd" = (y ++ "-") ++ str_repeat 2 "M" ++ "-dd") as ->
    by (rewrite str_app_assoc; reflexivity).
  rewrite replace_run_at; [|rewrite lacks_app; unfold y; by rewrite lacks_show by solve_letter|done].
  assert ((y ++ "-") ++ m 2%nat ++ "-dd" = (y ++ "-" ++ m 2%nat ++ "-") ++ str_repeat 2 "d" ++ "") as ->
    by (rewrite !str_app_assoc; reflexivity).
  rewrite replace_run_at; [| |done]; cycle 1.
  { rewrite !lacks_app. unfold y, m. rewrite lacks_show, lacks_field by solve_letter. reflexivity. }
  rewrite str_app_nil_r, !str_app_assoc.
  assert (forall c, is_letter c -> lacks c (y ++ "-" ++ m 2%nat ++ "-" ++ d 2%nat) = true) as Hl.
  { intros c Hc. rewrite !lacks_app. unfold y, m, d. rewrite lacks_show, !lacks_field by done.
    cbn. destruct Hc as (_ & -> & _). reflexivity. }
  rewrite (replace_run_none hours) by (by apply Hl).
  rewrite (replace_run_none "m"), (replace_run_none "s"), (replace_run_none "q")
    by (apply Hl; solve_letter).
  apply js_replace_none, Hl. solve_letter.
Qed.

Lemma getFormatDate_ymd_witness :
  getFormatDate "H" 1388577600000 "yyyy-MM-dd" = "2014-01-01".
Proof. rewrite (getFormatDate_ymd "H" 1388577600000 ltac:(solve_letter)). reflexivity. Defined.
