(* ===== verification/Page.v ===== *)
(** * Page helpers: requests, messages and forms

    [LG.js]: messages, the loading layer, [ajax], the filter of a search form,
    filling and submitting forms, buttons, toolbars and tabs. *)

From S2P Require Import Prelude JsString JsNum Json Component PageText.
From Stdlib Require Import Ascii.
Local Open Scope string_scope.
Local Open Scope Z_scope.

(** ** Messages *)

(** What is shown to the user. *)
Inductive message :=
| MsgSuccess (text : string) | MsgError (text : string) | MsgErrorTab (text : string)
| MsgWarn (text : string) | MsgTip (text : string).

(** The argument of the [show...] functions: a text, a callback, or nothing. *)
Inductive msg_arg := WithText (s : string) (callback : option positive) | Callback (cb : positive) | NoArgs.

Definition message_of (default_text : string) (a : msg_arg) : string * option positive :=
  match a with
  | WithText s cb => (s, cb)
  | Callback cb => (default_text, Some cb)
  | NoArgs => (default_text, None)
  end.

(** The default texts are the program's own, in UTF-8. *)
Definition showSuccess (a : msg_arg) : message := MsgSuccess (message_of "操作成功!" a).1.
Definition showErrorContent (a : msg_arg) : message := MsgErrorTab (message_of "操作失败!" a).1.
Definition showError (a : msg_arg) : message := MsgError (message_of "操作失败!" a).1.
Definition showWarn (a : msg_arg) : message := MsgWarn (message_of "错误提示!" a).1.

Definition showAjaxError (status : Z) : message :=
  let tit := ("发生错误,错误编码:" ++ show_Z status)%string in
  let tit := if status =? 0 then "连接服务器失败!" else tit in
  let tit := if status =? 500 then "内部处理错误!" else tit in
  let tit := if status =? 404 then "404,您懂的!" else tit in
  showError (WithText tit None).

(** The loop that puts underscores between the parts. *)
Fixpoint join_parts (n : nat) (i : nat) (parts : list string) : string :=
  match parts with
  | [] => ""
  | s :: rest => (if (i =? n - 1)%nat then s else s ++ "_") ++ join_parts n (S i) rest
  end%string.

Record server_error := ServerError {
  errorDesc : option string; errordesc : option string; errorCode : option string }.

Definition showServerError (e : server_error) : res message :=
  issuser ← of_option (match truthy_str (errorDesc e) with
                       | Some s => Some s | None => errordesc e end);
  let parts := split_on "," issuser in
  let iss := join_parts (length parts) 0 parts in
  Ok (showErrorContent (WithText
    (match truthy_str (errorCode e) with
     | None => "错误原因:" ++ iss
     | Some c => "错误代码:" ++ c ++ "<br /><br />" ++ "错误原因:" ++ iss
     end)%string None)).

(** [LG.tip]: one window is kept and shown again. *)
Definition tip (wintip : option string) (msg : string) : option string * message := (Some msg, MsgTip msg).

(** ** Loading and requests *)

(** The page while requests run: [LG.loading], the loading elements, the mask, the
    visible windows. *)
Record page := Page {
  pg_loading : bool;
  pg_layers : list string;          (* the texts of the div.jloading *)
  pg_win : win;
  pg_windows : list window;
  pg_out : list message
}.

Definition showLoading (msg : option string) (p : page) : page :=
  Page (pg_loading p) (pg_layers p ++ [default "正在加载中..." (truthy_str msg)])%list
    (mask (pg_win p)) (pg_windows p) (pg_out p).

(** [hideLoading] removes every layer; the id it gives to [unmask] is no window's. *)
Definition hideLoading (p : page) : page :=
  Page (pg_loading p) [] (unmask None (pg_windows p) (pg_win p)) (pg_windows p) (pg_out p).

Definition set_loading_flag (b : bool) (p : page) : page :=
  Page b (pg_layers p) (pg_win p) (pg_windows p) (pg_out p).
Definition say (m : message) (p : page) : page :=
  Page (pg_loading p) (pg_layers p) (pg_win p) (pg_windows p) (pg_out p ++ [m])%list.

(** The options of a request that replace the default handlers. *)
Record request := Request {
  r_beforeSend : option (page -> page);
  r_complete : option (page -> page);
  r_success : option (string -> string -> page -> page);
  r_error : option (string -> page -> page);
  r_loading : option string
}.

(** The server's answer: none, an application result, or a failed request. *)
Inductive answer := ANothing | AResult (isError : bool) (data msg : string) | AFailed (status : Z).

Definition ajax_begin (r : request) (p : page) : page :=
  let p := set_loading_flag true p in
  match r_beforeSend r with Some f => f p | None => showLoading (r_loading r) p end.

Definition ajax_complete (r : request) (p : page) : page :=
  let p := set_loading_flag false p in
  match r_complete r with Some f => f p | None => hideLoading p end.

(** The answer's handler, then [complete]. *)
Definition ajax_end (r : request) (a : answer) (p : page) : page :=
  ajax_complete r
    match a with
    | ANothing => p
    | AResult false d m => match r_success r with Some f => f d m p | None => p end
    | AResult true _ m => match r_error r with Some f => f m p | None => p end
    | AFailed status => say (MsgTip ("发现系统错误 <BR>错误码：" ++ show_Z status)%string) p
    end.

(** ** The filter of a search form *)

(** A [dd] of the form: its [vt] attribute, the name and value of its first child,
    the value of the first [select] beside it. *)
Record field := Field { f_vt : option string; f_name : text; f_value : text; f_op : text }.
Record rule := Rule { ru_op : text; ru_field : text; ru_value : text; ru_type : string }.

Fixpoint bulidFilterGroup (form : list field) : list rule :=
  match form with
  | [] => []
  | d :: form' =>
      let value := ToCDB (f_value d) in
      if bool_decide (value = []) then bulidFilterGroup form'
      else Rule (f_op d) (f_name d) value
             (default "java.lang.String" (truthy_str (f_vt d))) :: bulidFilterGroup form'
  end.

Definition rule_json (r : rule) : json :=
  JObj [(units "op", JStr (ru_op r)); (units "field", JStr (ru_field r));
        (units "value", JStr (ru_value r)); (units "type", JStr (units (ru_type r)))].

(** [searchForm]: the parameter the grid sends, when there is a rule; no object in it
    has a [toJSON] to call. *)
Definition searchForm (form : list field) : res (list (string * text)) :=
  match bulidFilterGroup form with
  | [] => Ok []
  | rules =>
      s ← stringify (fun l _ => JObj l) 4 (JObj [(units "op", JStr (units "and"));
                             (units "rules", JArr (map rule_json rules))]) RNone (inl 0);
      Ok [("where", default [] s)]
  end.

(** ** Buttons *)

Record button := Button { b_text : string; b_onclick : option positive; b_width : option Z }.

Definition setFormDefaultBtn (cancel saved : option positive) : list button :=
  ((match cancel with Some c => [Button "取消" (Some c) None] | None => [] end) ++
   (match saved with Some c => [Button "保存" (Some c) None] | None => [] end))%list.

(** With the texts given beside the callbacks. *)
Definition setFormBtnArray (cancel saved : option (positive * option string)) : list button :=
  ((match cancel with
    | Some (c, t) => [Button (default "取消" (truthy_str t)) (Some c) None] | None => [] end) ++
   (match saved with
    | Some (c, t) => [Button (default "更新" (truthy_str t)) (Some c) None] | None => [] end))%list.

(** The buttons added to the form's bar, each with its text. *)
Definition addFormButtons (bar : list button) (buttons : list button) : list button :=
  (bar ++ map (fun b => Button (if String.eqb (b_text b) "" then "BUTTON" else b_text b)
                          (b_onclick b) (b_width b)) buttons)%list.

(** ** Forms *)

(** An element of a form; [e_check] for check boxes and radio buttons. *)
Record elem := Elem { e_name : string; e_check : bool; e_checked : bool; e_val : string }.

(** [ele[0].checked = b], the first element of the name. *)
Fixpoint check_first (name : string) (b : bool) (es : list elem) : list elem :=
  match es with
  | [] => []
  | e :: es' =>
      if String.eqb (e_name e) name then Elem (e_name e) (e_check e) b (e_val e) :: es'
      else e :: check_first name b es'
  end.

Definition set_value (name value : string) (e : elem) : elem :=
  if String.eqb (e_name e) name then Elem (e_name e) (e_check e) (e_checked e) value else e.

(** Filling the elements of a name: if one of them is a check box or a radio
    button, the first is checked by the truth of the data; else all take the
    value. *)
Definition fill_named (name value : string) (truthy : bool) (es : list elem) : list elem :=
  if existsb (fun e => String.eqb (e_name e) name && e_check e) es
  then check_first name truthy es else map (set_value name value) es.

(** [loadForm]'s success: every property of the answer, with the prefix. *)
Definition load_values (preID : string) (data : list (string * (string * bool))) (es : list elem)
    : list elem :=
  fold_left (fun es d => fill_named (preID ++ d.1)%string d.2.1 d.2.2 es) data es.

Record form_entry := Entry { fe_name : string; fe_check : bool; fe_value : string }.

Definition existInFormData (formData : list form_entry) (name : string) : bool :=
  existsb (fun o => String.eqb (fe_name o) name) formData.

(** [submitForm]'s [beforeSubmit]: check boxes and radio buttons that are not sent
    are added, and all of them get the text of the first one of their name. *)
Definition add_unchecked (formData : list form_entry) (es : list elem) : list form_entry :=
  fold_left (fun fd e =>
    if e_check e && negb (existInFormData fd (e_name e))
    then (fd ++ [Entry (e_name e) true (if e_checked e then "true" else "false")])%list else fd)
    es formData.

Definition first_checked (name : string) (es : list elem) : option bool :=
  e_checked <$> List.find (fun e => String.eqb (e_name e) name) es.

Definition beforeSubmit (formData : list form_entry) (es : list elem) : res (list form_entry) :=
  foldr (fun o acc =>
    rest ← acc;
    if fe_check o then
      b ← of_option (first_checked (fe_name o) es);
      Ok (Entry (fe_name o) true (if (b : bool) then "true" else "false") :: rest)
    else Ok (o :: rest)) (Ok []) (add_unchecked formData es).

(** [submitForm]: a valid form is sent, else the number of errors is shown. *)
Inductive submit := Send (formData : list form_entry) | Invalid (m : message).
Definition showInvalid (errors : Z) : message :=
  MsgError ("<div class=" ++ String "034" "invalid" ++ String "034" ">存在" ++ show_Z errors
            ++ "个字段验证不通过，请检查!</div>")%string.
Definition submitForm (errors : Z) (formData : list form_entry) (es : list elem) : res submit :=
  if errors =? 0 then fd ← beforeSubmit formData es; Ok (Send fd)
  else Ok (Invalid (showInvalid errors)).

(** ** Configuration, toolbars, tabs *)

(** The loop from the last field to the first. *)
Fixpoint forbid_from (i : nat) (forbid : list string) (l : list (string * positive))
    : list (string * positive) :=
  match i with
  | O => l
  | S i' =>
      forbid_from i' forbid
        (match l !! i' with
         | Some f => if inArray f.1 forbid =? -1 then l else splice (Z.of_nat i') 1 [] l
         | None => l end)
  end.

Record config := Config {
  c_form : option (list (string * positive));
  c_grid : option (list (string * positive));
  c_search : option (list (string * positive)) }.

Definition forbid (forbidFields : list string) (l : list (string * positive)) :=
  forbid_from (length l) forbidFields l.

Definition adujestConfig (c : config) (forbidFields : list string) : config :=
  Config (forbid forbidFields <$> c_form c) (forbid forbidFields <$> c_grid c)
    (forbid forbidFields <$> c_search c).

(** The items of a toolbar: a button, then a line. *)
Inductive titem := TButton (id text img : string) | TLine.

Definition toolbar_items (rootPath : string) (data : list (string * string * string)) : list titem :=
  flat_map (fun o => [TButton o.1.1 o.1.2 (rootPath ++ o.2)%string; TLine]) data.

(** [loadToolbar]'s success: an empty answer leaves the toolbar as it is. *)
Definition loadToolbar (has_toolbar : bool) (rootPath : string) (data : list (string * string * string))
    (old : list titem) : list titem :=
  match data with
  | [] => old
  | _ => if has_toolbar then toolbar_items rootPath data else old
  end.

Definition findToolbarItem (items : option (list titem)) (itemID : string) : option titem :=
  items ← items;
  List.find (fun i => match i with TButton id _ _ => String.eqb id itemID | TLine => false end) items.

(** A double click selects the row and runs the button, if the user has it. *)
Definition setGridDoubleClick (items : option (list titem)) (btnID : string) : option titem :=
  findToolbarItem items btnID.

(** The tabs: closing one, then showing and reloading its parent. *)
Inductive tab_action := TabRemove (id : string) | TabSelect (id : string) | TabReload (id : string) | FrameReload (id : string).

Definition closeCurrentTab (has_tab : bool) (tabid visible : string) : list tab_action :=
  if has_tab then [TabRemove (if String.eqb tabid "" then visible else tabid)] else [].

Definition closeAndReloadParent (has_tab frame_reloads : bool) (tabid parentTabid visible : string)
    : list tab_action :=
  (closeCurrentTab has_tab tabid visible ++
   (if has_tab then [TabSelect parentTabid] else []) ++
   (if frame_reloads then [FrameReload parentTabid]
    else if has_tab then [TabReload parentTabid] else []))%list.

(** ** Theorems *)

Local Close Scope string_scope.

Lemma forbid_from_filter i fs l :
  (i <= length l)%nat ->
  forbid_from i fs l = List.filter (fun f => bool_decide (f.1 ∉ fs)) (take i l) ++ drop i l.
Proof.
  revert l. induction i as [|i IH]; intros l Hi; cbn [forbid_from]; [done|].
  destruct (lookup_lt_is_Some_2 l i) as [x Hx]; [lia|]. rewrite Hx.
  rewrite (take_S_r l i x) by done. rewrite List.filter_app. cbn [List.filter].
  destruct (inArray_cases x.1 fs) as [[E Hn]|(k & E & Hk)]; rewrite E.
  - change (-1 =? -1) with true. rewrite bool_decide_true by done. rewrite IH by lia.
    rewrite <-app_assoc. cbn. by rewrite <-(drop_S l x i).
  - apply list_elem_of_lookup_2 in Hk. destruct (Z.of_nat k =? -1) eqn:?; zbool; [lia|].
    rewrite bool_decide_false by (intros H; done). rewrite app_nil_r.
    rewrite splice_remove by lia. rewrite IH by (rewrite length_delete by (by eexists); lia).
    rewrite delete_take_drop. rewrite take_app_le by (rewrite length_take; lia).
    rewrite take_take, Nat.min_id. f_equal.
    rewrite drop_app_ge by (rewrite length_take; lia). rewrite length_take.
    by replace (i - i `min` length l)%nat with 0%nat by lia.
Qed.

(** Adjusting a page's configuration takes the forbidden fields, and only
    these, out of the form, the grid and the search. *)
Theorem adujestConfig_filter c fs :
  let keep := List.filter (fun f : string * positive => bool_decide (f.1 ∉ fs)) in
  adujestConfig c fs = Config (keep <$> c_form c) (keep <$> c_grid c) (keep <$> c_search c).
Proof.
  assert (forall l, forbid fs l = List.filter (fun f => bool_decide (f.1 ∉ fs)) l) as H.
  { intros l. unfold forbid. rewrite forbid_from_filter by done.
    by rewrite take_ge, drop_ge, app_nil_r by done. }
  cbn zeta. unfold adujestConfig. destruct c as [[?|] [?|] [?|]]; cbn; by rewrite ?H.
Qed.

(** A request that ends takes the loading flag and every loading layer away,
    also while another request is still running. *)
Theorem ajax_overlap r1 r2 a p :
  r_beforeSend r1 = None -> r_beforeSend r2 = None -> r_complete r1 = None ->
  let p2 := ajax_begin r2 (ajax_begin r1 p) in
  pg_loading p2 = true /\ (length (pg_layers p2) = length (pg_layers p) + 2)%nat /\
  pg_loading (ajax_end r1 a p2) = false /\ pg_layers (ajax_end r1 a p2) = [].
Proof.
  intros H1 H2 H3. cbn zeta. unfold ajax_begin, ajax_end, ajax_complete. rewrite H1, H2, H3.
  cbn. rewrite !length_app. cbn. split_and!; try done. lia.
Qed.

(** The rules of a search form are the fields whose value is not blank, in
    order, with the value in half-width characters. *)
Theorem bulidFilterGroup_rules form :
  map (fun r => (ru_field r, ru_value r)) (bulidFilterGroup form)
  = List.filter (fun q => negb (bool_decide (q.2 = []))) (map (fun d => (f_name d, ToCDB (f_value d))) form).
Proof.
  induction form as [|d form IH]; [done|]. cbn [bulidFilterGroup map List.filter snd].
  case_bool_decide as E; cbn [negb]; [exact IH|]. cbn [map ru_field ru_value]. by rewrite IH.
Qed.

Definition plain_request : request := Request None None None None None.
Definition empty_page : page := Page false [] (Win None false false [] None 0) [] [].

Lemma ajax_overlap_witness :
  let p2 := ajax_begin plain_request (ajax_begin plain_request empty_page) in
  pg_layers (ajax_end plain_request ANothing p2) = [].
Proof.
  exact (proj2 (proj2 (proj2 (ajax_overlap plain_request plain_request ANothing empty_page
    eq_refl eq_refl eq_refl)))).
Defined.
