(* ===== verification/Drag.v ===== *)
(** * Dragging

    [ligerDrag.js]: the start of a drag, its moves, its end, going back
    ([_start], [_drag], [_stop], [_revert], [_applyDrag]), the proxy and the
    receiving areas; positions are whole pixels. *)

From S2P Require Import Prelude.
Local Open Scope string_scope.
Local Open Scope Z_scope.

(** ** State *)

(** The options; [proxy] a function of the user's is told apart. *)
Inductive proxy_option := NoProxy | OwnProxy (clone : bool) | ProxyFunction.

Record drag_options := DragOptions {
  disabled : bool;
  proxyOption : proxy_option;
  revert : bool;
  animate : bool;
  proxyX : option Z;
  proxyY : option Z
}.

(** The coordinates of a mouse event. *)
Record mouse := Mouse { pageX : Z; pageY : Z; screenX : Z; screenY : Z; clientY : Z }.

(** [a || b] of two numbers. *)
Definition num_or (a b : Z) : Z := if a =? 0 then b else a.

(** [g.current] *)
Record current := Current {
  left0 : Z; top0 : Z; startX : Z; startY : Z; diffX : option Z; diffY : option Z }.

(** The animations under way, each with what its end does. *)
Inductive animation :=
| AnimRevert (left top : option Z)      (* the proxy goes back *)
| AnimTarget (left top : option Z).     (* the target goes to its place *)

(** What is told to the handlers: the event, and the area it is about. *)
Inductive drag_event := DragEvent (name : string) (area : option nat).

Record drag := Drag {
  target : Z * Z;                (* its left and top *)
  proxy : option (Z * Z);
  cur : option current;
  reverting : bool;
  entered : list nat;            (* the indices where receiveEntered is true *)
  bound : nat;                   (* handlers of mousemove and mouseup on the document *)
  dragging : bool;               (* $.ligerui.draggable.dragging *)
  animations : list animation;
  stray : nat;                   (* proxies left in the page *)
  told : list drag_event
}.

Definition set_target v d := Drag v (proxy d) (cur d) (reverting d) (entered d) (bound d)
  (dragging d) (animations d) (stray d) (told d).
Definition set_proxy v d := Drag (target d) v (cur d) (reverting d) (entered d) (bound d)
  (dragging d) (animations d) (stray d) (told d).
Definition set_cur v d := Drag (target d) (proxy d) v (reverting d) (entered d) (bound d)
  (dragging d) (animations d) (stray d) (told d).
Definition set_reverting v d := Drag (target d) (proxy d) (cur d) v (entered d) (bound d)
  (dragging d) (animations d) (stray d) (told d).
Definition set_entered v d := Drag (target d) (proxy d) (cur d) (reverting d) v (bound d)
  (dragging d) (animations d) (stray d) (told d).
Definition set_bound v b d := Drag (target d) (proxy d) (cur d) (reverting d) (entered d) v
  b (animations d) (stray d) (told d).
Definition set_animations v d := Drag (target d) (proxy d) (cur d) (reverting d) (entered d)
  (bound d) (dragging d) v (stray d) (told d).
Definition set_stray v d := Drag (target d) (proxy d) (cur d) (reverting d) (entered d)
  (bound d) (dragging d) (animations d) v (told d).
Definition tell name area d := Drag (target d) (proxy d) (cur d) (reverting d) (entered d)
  (bound d) (dragging d) (animations d) (stray d) (told d ++ [DragEvent name area])%list.

(** A handler may stop with an error, and keeps what it did before. *)
Inductive outcome := Done (d : drag) | Failed (e : string) (d : drag).

Definition andThen (o : outcome) (f : drag -> outcome) : outcome :=
  match o with Done d => f d | Failed e d => Failed e d end.

(** [css({left: l, top: t})] on a position. *)
Definition css (l t : option Z) (p : Z * Z) : Z * Z := (default p.1 l, default p.2 t).

Section drag.
Context (p : drag_options).
(** The handlers bound; those that return [false]. *)
Context (hasBind veto : string -> bool).
(** Whether the user's proxy function returns an element. *)
Context (proxy_made : bool).
(** Where an element placed at the page's origin is: the offset of the target's
  container. *)
Context (origin : Z * Z).
(** The areas of [g.receive], when there are any: left, top, width, height. *)
Context (receive : option (list (Z * Z * Z * Z))).

Definition offset (d : drag) : Z * Z := ((target d).1 + origin.1, (target d).2 + origin.2).

(** ** The proxy *)

Definition _removeProxy (d : drag) : drag := set_proxy None d.

Definition proxy_place (c : current) : Z * Z :=
(match proxyX p with None => left0 c | Some x => startX c + x end,
 match proxyY p with None => top0 c | Some y => startY c + y end).

(** A proxy that is still there is forgotten, not removed; the user's function that
  returns nothing is an error at [g.proxy.css]. *)
Definition _createProxy (d : drag) : outcome :=
match proxyOption p, cur d with
| NoProxy, _ => Done d
| _, None => Failed TypeError d
| o, Some c =>
    let d := match proxy d with Some _ => set_stray (S (stray d)) d | None => d end in
    match o with
    | ProxyFunction => if proxy_made then Done (set_proxy (Some (proxy_place c)) d)
                       else Failed TypeError (set_proxy None d)
    | _ => Done (set_proxy (Some (proxy_place c)) d)
    end
end.

Definition has_proxy_option : bool := match proxyOption p with NoProxy => false | _ => true end.

(** ** Start *)

Definition start_current (e : mouse) (d : drag) : current :=
Current (offset d).1 (offset d).2 (num_or (pageX e) (screenX e)) (num_or (pageY e) (clientY e))
  None None.

Definition _start (e : mouse) (d : drag) : outcome :=
if reverting d then Done d
else if disabled p then Done d
else
  let d := tell "startDrag" None (set_cur (Some (start_current e d)) d) in
  if veto "startDrag" then Done d
  else
    andThen (_createProxy d) (fun d =>
      if has_proxy_option && negb (bool_decide (is_Some (proxy d))) then Done d
      else Done (set_bound (S (bound d)) true d)).

(** The [mousedown] of the handle; 2 is the right button. *)
Definition mousedown (button : Z) (e : mouse) (d : drag) : outcome :=
if disabled p then Done d else if button =? 2 then Done d else _start e d.

(** ** The place of the target or the proxy *)

(** The new left and top; [None] where there is no change. *)
Definition drag_place (noproxy : bool) (c : current) : option Z * option Z :=
(match diffX c with
 | Some dx => if dx =? 0 then None
              else Some (if noproxy then left0 c + dx
                         else match proxyX p with None => left0 c + dx
                                                | Some x => startX c + x + dx end)
 | None => None end,
 match diffY c with
 | Some dy => if dy =? 0 then None
              else Some (if noproxy then top0 c + dy
                         else match proxyY p with None => top0 c + dy
                                                | Some y => startY c + y + dy end)
 | None => None end).

(** [_applyDrag]: on the target when asked to or when there is no proxy.  An
  animation of nothing ends at once. *)
Definition _applyDrag (to_target : bool) (d : drag) : outcome :=
match cur d with
| None => Failed TypeError d
| Some c =>
    match proxy d with
    | Some q =>
        if to_target then
          let q := drag_place true c in
          if animate p then
            match q with
            | (None, None) => Done (set_reverting false d)
            | _ => Done (set_animations (animations d ++ [AnimTarget q.1 q.2])%list
                           (set_reverting true d))
            end
          else Done (set_target (css q.1 q.2 (target d)) d)
        else
          let q' := drag_place false c in Done (set_proxy (Some (css q'.1 q'.2 q)) d)
    | None =>
        let q := drag_place true c in Done (set_target (css q.1 q.2 (target d)) d)
    end
end.

(** ** Moves *)

Definition inside (x y : Z) (a : Z * Z * Z * Z) : bool :=
let '(l, t, w, h) := a in (l <? x) && (x <? l + w) && (t <? y) && (y <? t + h).

(** One receiving area. *)
Definition over_area (x y : Z) (i : nat) (a : Z * Z * Z * Z) (d : drag) : drag :=
if inside x y a then
  if bool_decide (i ∈ entered d) then tell "dragOver" (Some i) d
  else tell "dragEnter" (Some i) (set_entered (i :: entered d) d)
else if bool_decide (i ∈ entered d)
then tell "dragLeave" (Some i) (set_entered (List.filter (fun j => negb (i =? j)%nat) (entered d)) d)
else d.

Fixpoint over_areas (x y : Z) (i : nat) (l : list (Z * Z * Z * Z)) (d : drag) : drag :=
match l with [] => d | a :: l' => over_areas x y (S i) l' (over_area x y i a d) end.

Definition moved (e : mouse) (c : current) : current :=
Current (left0 c) (top0 c) (startX c) (startY c)
  (Some (num_or (pageX e) (screenX e) - startX c))
  (Some (num_or (pageY e) (screenY e) - startY c)).

Definition _drag (e : mouse) (d : drag) : outcome :=
match cur d with
| None => Done d
| Some c =>
    let d := set_cur (Some (moved e c)) d in
    let d := match receive with
             | Some l => over_areas (num_or (pageX e) (screenX e)) (num_or (pageY e) (screenY e)) 0 l d
             | None => d end in
    if hasBind "drag" then
      let d := tell "drag" None d in
      if veto "drag" then Done (_removeProxy d) else _applyDrag false d
    else _applyDrag false d
end.

(** ** End *)

Definition _revert (d : drag) : outcome :=
let d := set_reverting true d in
match cur d with
| None => Failed TypeError d
| Some c => Done (set_animations (animations d ++ [AnimRevert (Some (left0 c)) (Some (top0 c))])%list d)
end.

Fixpoint drop_areas (i : nat) (l : list (Z * Z * Z * Z)) (d : drag) : drag :=
match l with
| [] => d
| _ :: l' => drop_areas (S i) l'
               (if bool_decide (i ∈ entered d) then tell "drop" (Some i) d else d)
end.

Definition _stop (d : drag) : outcome :=
let d := set_bound 0 (dragging d) d in
let d := match receive with Some l => drop_areas 0 l d | None => d end in
andThen
  (match proxy d with
   | None => Done d
   | Some _ =>
       if revert p then
         if hasBind "revert" then
           let d := tell "revert" None d in
           if veto "revert" then Done (_removeProxy d) else _revert d
         else _revert d
       else andThen (_applyDrag true d) (fun d => Done (_removeProxy d))
   end)
  (fun d => Done (set_cur None (tell "stopDrag" None d))).

(** The [mouseup] of the document: every handler bound runs. *)
Fixpoint stops (n : nat) (d : drag) : outcome :=
match n with
| O => Done d
| S n' => andThen (_stop (set_bound (bound d) false d)) (stops n')
end.
Definition mouseup (d : drag) : outcome := stops (bound d) d.

(** The [mousemove] of the document, likewise. *)
Fixpoint drags (n : nat) (e : mouse) (d : drag) : outcome :=
match n with O => Done d | S n' => andThen (_drag e d) (drags n' e) end.
Definition mousemove (e : mouse) (d : drag) : outcome := drags (bound d) e d.

(** The end of the first animation under way. *)
Definition animation_end (d : drag) : drag :=
match animations d with
| [] => d
| AnimRevert l t :: rest =>
    set_cur None (tell "endRevert" None (_removeProxy
      (set_reverting false (set_animations rest d))))
| AnimTarget l t :: rest =>
    set_reverting false (set_target (css l t (target d)) (set_animations rest d))
end.
End drag.

(** ** Runs *)

Inductive input := Down (button : Z) (e : mouse) | Move (e : mouse) | Up | AnimEnd.

Section runs.
Context (p : drag_options) (hasBind veto : string -> bool) (proxy_made : bool) (origin : Z * Z).
Context (receive : option (list (Z * Z * Z * Z))).

Definition feed (i : input) (d : drag) : outcome :=
match i with
| Down b e => mousedown p veto proxy_made origin b e d
| Move e => mousemove p hasBind veto receive e d
| Up => mouseup p hasBind veto receive d
| AnimEnd => Done (animation_end d)
end.

Fixpoint run (ins : list input) (d : drag) : outcome :=
match ins with [] => Done d | i :: ins' => andThen (feed i d) (run ins') end.

(** What a handler leaves, also when it stops with an error. *)
Definition left_by (o : outcome) : drag := match o with Done d | Failed _ d => d end.

(** Anything the mouse and the animations do: presses while it is down and presses that
    fail are steps too. *)
Inductive drag_step (d : drag) : drag -> Prop :=
| DragStep i : drag_step d (left_by (feed i d)).

(** A mouse that is not pressed again before it is released. *)
Inductive single_step (d : drag) : drag -> Prop :=
| SingleStep i : (match i with Down _ _ => bound d = 0%nat | _ => True end) ->
    single_step d (left_by (feed i d)).

Definition resting (at_ : Z * Z) : drag := Drag at_ None None false [] 0 false [] 0 [].

Record drag_ok (d : drag) : Prop := DragOk {
  ok_bound : bound d <> 0%nat -> is_Some (cur d) /\ animations d = [];
  ok_animations : match animations d with
                  | [] => reverting d = false
                  | [AnimRevert _ _] => reverting d = true
                  | [AnimTarget _ _] => reverting d = true /\ proxy d = None
                  | _ => False
                  end;
  ok_proxy : bound d = 0%nat -> is_Some (proxy d) ->
             revert p = true /\ exists l t, animations d = [AnimRevert l t]
}.

(** Drags, and only they, leave these alone. *)
Lemma over_areas_frame x y i l d :
  exists en t, over_areas x y i l d = Drag (target d) (proxy d) (cur d) (reverting d) en (bound d)
                 (dragging d) (animations d) (stray d) t.
Proof.
  revert i d. induction l as [|a l IH]; intros i d; cbn [over_areas].
  - exists (entered d), (told d). by destruct d.
  - unfold over_area. destruct (inside x y a), (bool_decide (i ∈ entered d));
      match goal with |- context [over_areas x y (S i) l ?d'] =>
        destruct (IH (S i) d') as (en & t & ->) end; by exists en, t.
Qed.

Lemma drop_areas_frame i l d :
  exists t, drop_areas i l d = Drag (target d) (proxy d) (cur d) (reverting d) (entered d) (bound d)
              (dragging d) (animations d) (stray d) t.
Proof.
  revert i d. induction l as [|a l IH]; intros i d; cbn [drop_areas].
  - exists (told d). by destruct d.
  - case_bool_decide;
      match goal with |- context [drop_areas (S i) l ?d'] =>
        destruct (IH (S i) d') as (t & ->) end; by exists t.
Qed.

(** What the receiving areas leave of a move or of the end. *)
Lemma receive_frame e d :
  exists en t, match receive with
    | Some l => over_areas (num_or (pageX e) (screenX e)) (num_or (pageY e) (screenY e)) 0 l d
    | None => d end = Drag (target d) (proxy d) (cur d) (reverting d) en (bound d)
                        (dragging d) (animations d) (stray d) t.
Proof.
  destruct receive as [l|]; [apply over_areas_frame|]. exists (entered d), (told d). by destruct d.
Qed.

Lemma drop_frame d :
  exists t, match receive with Some l => drop_areas 0 l d | None => d end
    = Drag (target d) (proxy d) (cur d) (reverting d) (entered d) (bound d)
        (dragging d) (animations d) (stray d) t.
Proof.
  destruct receive as [l|]; [apply drop_areas_frame|]. exists (told d). by destruct d.
Qed.

(** What no handler but a press does: bind, or leave a proxy behind. *)
Definition quiet (d d' : drag) : Prop := (bound d' <= bound d)%nat /\ stray d' = stray d.

(** A press: nothing happens, the start is vetoed, or a drag begins, with a fresh proxy
    if the options want one; only the user's function can make it fail. *)
Lemma down_ok b e d :
  drag_ok d -> let r := feed (Down b e) d in
  drag_ok (left_by r) /\
  (bound d = 0%nat -> (bound (left_by r) <= 1)%nat /\ stray (left_by r) = stray d) /\
  (r = Done (left_by r) \/
   r = Failed TypeError (left_by r) /\ proxyOption p = ProxyFunction /\ proxy_made = false).
Proof.
  intros Hok. pose proof Hok as [Hb Ha Hp]. cbn zeta. cbn [feed]. unfold mousedown, _start.
  assert (forall d', Done d' = Done d -> drag_ok (left_by (Done d')) /\
    (bound d = 0%nat -> (bound (left_by (Done d')) <= 1)%nat /\ stray (left_by (Done d')) = stray d) /\
    (Done d' = Done (left_by (Done d')) \/ False)) as Hnone.
  { intros d' [= ->]. split_and!; [done| |by left]. cbn. intros ->. split; [lia|done]. }
  destruct (disabled p); [destruct (Hnone d eq_refl) as (?&?&[?|[]]); auto|].
  destruct (b =? 2); [destruct (Hnone d eq_refl) as (?&?&[?|[]]); auto|].
  destruct (reverting d) eqn:Er; [destruct (Hnone d eq_refl) as (?&?&[?|[]]); auto|]. clear Hnone.
  assert (animations d = []) as Han.
  { revert Ha. destruct (animations d) as [|[] [|]]; intros; destruct_and?; congruence || done. }
  assert (bound d = 0%nat -> proxy d = None) as Hpn.
  { intros H0. destruct (proxy d); [|done]. destruct (Hp H0 ltac:(eauto)) as (_ & l & u & H). congruence. }
  rewrite Han in Ha.
  assert (forall q n s en g tl c, (n = 0%nat -> q = None) ->
    drag_ok (Drag (target d) q (Some c) false en n g [] s tl)) as Hmk.
  { intros q n s en g tl c Hq. split; cbn; [intros _; by eauto|done|]. intros H0. rewrite (Hq H0). by intros []. }
  unfold _createProxy, has_proxy_option, tell, set_cur, set_stray, set_proxy, set_bound. cbn. rewrite Er, Han.
  destruct (veto "startDrag"); cbn; [split_and!; [by apply Hmk|intros ->; split; [lia|done]|by left]|].
  destruct (proxyOption p); cbn; [split_and!; [by apply Hmk|intros ->; split; [lia|done]|by left]| |].
  - destruct (proxy d) eqn:Eq; cbn; (split_and!; [by apply Hmk| |by left]);
      intros H0; first [by specialize (Hpn H0)|rewrite H0; split; [lia|done]].
  - destruct (proxy d) eqn:Eq, proxy_made; cbn;
      (split_and!; [by apply Hmk|intros H0; first [by specialize (Hpn H0)|rewrite ?H0; split; [lia|done]]|auto]).
Qed.

(** Moves: what is bound is told, and the target or the proxy follows. *)
Lemma drags_ok n e d :
  drag_ok d -> bound d <> 0%nat ->
  exists d', drags p hasBind veto receive n e d = Done d' /\ drag_ok d' /\
    bound d' = bound d /\ stray d' = stray d.
Proof.
  revert d. induction n as [|n IH]; intros d Hok H0; [by exists d|]. cbn [drags].
  pose proof Hok as [Hb Ha Hp]. destruct (Hb H0) as [[c Hc] Han]. rewrite Han in Ha.
  unfold _drag at 1. rewrite Hc.
  destruct (receive_frame e (set_cur (Some (moved e c)) d)) as (en & t & ->).
  assert (forall tg q en' g tl, drag_ok (Drag tg q (Some (moved e c)) (reverting d) en' (bound d) g
            (animations d) (stray d) tl)) as Hmk.
  { intros. split; cbn; [by eauto|by rewrite Han|done]. }
  unfold _applyDrag, _removeProxy, tell, set_proxy, set_target. cbn.
  destruct (hasBind "drag"), (veto "drag"), (proxy d); cbn;
    (match goal with |- exists d', drags _ _ _ _ n e ?x = _ /\ _ =>
       destruct (IH x (Hmk _ _ _ _ _) H0) as (d' & H) end); by exists d'.
Qed.

Lemma move_ok e d : drag_ok d -> exists d', feed (Move e) d = Done d' /\ drag_ok d' /\ quiet d d'.
Proof.
  intros Hok. cbn [feed]. unfold mousemove, quiet. destruct (bound d) eqn:E; [exists d; rewrite E; by split_and!|].
  destruct (drags_ok (S n) e d Hok ltac:(lia)) as (d' & H1 & H2 & H3 & H4).
  exists d'. split_and!; [done|done|lia|done].
Qed.

(** The state after the end of a drag: nothing bound, and the proxy there only to
    go back. *)
Definition stopped (d d' : drag) : Prop :=
  drag_ok d' /\ bound d' = 0%nat /\ cur d' = None /\ stray d' = stray d.

Lemma stop_first d :
  drag_ok d -> bound d <> 0%nat ->
  exists d', _stop p hasBind veto receive (set_bound (bound d) false d) = Done d' /\ stopped d d'.
Proof.
  intros [Hb Ha Hp] H0. destruct (Hb H0) as [[c Hc] Han]. rewrite Han in Ha. unfold _stop.
  match goal with |- context [match receive with Some l => drop_areas 0 l ?y | None => ?y end] =>
    destruct (drop_frame y) as (t & ->) end.
  unfold stopped, _revert, _applyDrag. cbn. rewrite Hc.
  destruct (proxy d) as [q|] eqn:Hq; cbn.
  2:{ eexists. split; [reflexivity|]. split_and!; [|done..]. split; cbn; rewrite ?Han; by auto. }
  destruct (revert p) eqn:Hr.
  - destruct (hasBind "revert"), (veto "revert"); cbn; eexists; (split; [reflexivity|]);
      (split_and!; [|done..]); split; cbn; rewrite ?Han; cbn; try done; intros _ H; first [by destruct H|by eauto].
  - destruct (animate p), (diffX c) as [x|] eqn:Ex, (diffY c) as [y|] eqn:Ey; cbn;
      rewrite ?Ex, ?Ey; try destruct (x =? 0); try destruct (y =? 0);
      eexists; (split; [cbn; reflexivity|]); (split_and!; [|done..]);
      split; cbn; rewrite ?Han; cbn; try done; intros _ [? H]; done.
Qed.

(** A second handler finds the drag over; when the proxy is on its way back it fails. *)
Lemma stop_again d0 d :
  stopped d0 d ->
  (exists d', _stop p hasBind veto receive (set_bound (bound d) false d) = Done d' /\ stopped d0 d') \/
  (exists d', _stop p hasBind veto receive (set_bound (bound d) false d) = Failed TypeError d' /\
     drag_ok d' /\ bound d' = 0%nat /\ stray d' = stray d0 /\ revert p = true).
Proof.
  intros ([Hb Ha Hp] & H0 & Hc & Hs). unfold _stop.
  match goal with |- context [match receive with Some l => drop_areas 0 l ?y | None => ?y end] =>
    destruct (drop_frame y) as (t & ->) end.
  unfold stopped, _revert, _applyDrag. cbn. rewrite Hc.
  destruct (proxy d) as [q|] eqn:Hq; cbn.
  2:{ left. eexists. split; [reflexivity|]. cbn. split_and!; try done. by split; cbn. }
  destruct (Hp H0 ltac:(by eauto)) as (Hr & l & u & Han). rewrite Hr.
  assert (forall q' g tl, drag_ok (Drag (target d) q' None true (entered d) 0 g (animations d) (stray d) tl)) as Hmk.
  { intros. split; cbn; rewrite ?Han; [done|done|by eauto]. }
  rewrite Han in Ha.
  destruct (hasBind "revert"), (veto "revert"); cbn; [left|right..]; eexists; (split; [reflexivity|]); cbn;
    split_and!; try done; unfold set_reverting, tell, _removeProxy, set_proxy, set_cur; cbn; rewrite ?Ha; apply Hmk.
Qed.

Lemma stops_again d0 n d :
  stopped d0 d -> let r := stops p hasBind veto receive n d in
  drag_ok (left_by r) /\ bound (left_by r) = 0%nat /\ stray (left_by r) = stray d0 /\
  (r = Done (left_by r) \/ r = Failed TypeError (left_by r) /\ n <> 0%nat /\ revert p = true).
Proof.
  revert d. induction n as [|n IH]; intros d Hd; cbn zeta; cbn [stops].
  { destruct Hd as (H1 & H2 & H3 & H4). cbn. split_and!; [done..|by left]. }
  destruct (stop_again d0 d Hd) as [(d' & -> & Hd')|(d' & -> & H1 & H2 & H3 & H4)]; cbn [andThen left_by].
  - destruct (IH d' Hd') as (K1 & K2 & K3 & K4). split_and!; [done..|].
    destruct K4 as [K4|(K4 & _ & K5)]; [by left|by right].
  - split_and!; [done..|by right].
Qed.

Lemma up_ok d : drag_ok d -> let r := feed Up d in
  drag_ok (left_by r) /\ bound (left_by r) = 0%nat /\ stray (left_by r) = stray d /\
  (r = Done (left_by r) \/ r = Failed TypeError (left_by r) /\ (2 <= bound d)%nat /\ revert p = true).
Proof.
  intros Hok. cbn zeta. cbn [feed]. unfold mouseup. destruct (bound d) as [|n] eqn:E.
  { cbn. split_and!; [done..|by left]. }
  cbn [stops]. destruct (stop_first d Hok ltac:(lia)) as (d' & -> & Hd'). cbn [andThen].
  destruct (stops_again d n d' Hd') as (H1 & H2 & H3 & H4). split_and!; [done..|].
  destruct H4 as [H4|(H4 & H5 & H6)]; [by left|right]. split_and!; [done|lia|done].
Qed.

(** The end of an animation, or nothing. *)
Lemma animation_end_ok d : drag_ok d -> drag_ok (animation_end d) /\ animations (animation_end d) = []
  /\ bound (animation_end d) = bound d /\ stray (animation_end d) = stray d.
Proof.
  intros Hok. pose proof Hok as [Hb Ha Hp]. unfold animation_end.
  destruct (animations d) as [|[l t|l t] [|]] eqn:Ea; try done;
    (split_and!; [|done..]); split; cbn; try done;
    first [by intros (_ & H)%Hb|by intros _ []|destruct Ha as [_ ->]; by intros _ []].
Qed.

Lemma feed_ok i d : drag_ok d -> drag_ok (left_by (feed i d)).
Proof.
  intros Hok. destruct i as [b e|e| |].
  - by apply down_ok.
  - destruct (move_ok e d Hok) as (d' & -> & ? & _). done.
  - by apply up_ok.
  - by apply animation_end_ok.
Qed.

Lemma resting_ok place : drag_ok (resting place).
Proof. split; cbn; [done|done|]. by intros _ []. Qed.

Lemma drag_ok_reachable place d : rtc drag_step (resting place) d -> drag_ok d.
Proof.
  apply (rtc_ind_r drag_ok); [apply resting_ok|]. intros y z _ [i] Hy. by apply feed_ok.
Qed.

(** Never pressed while down: one drag at most is bound, and no proxy is left behind. *)
Lemma single_reachable place d :
  rtc single_step (resting place) d -> drag_ok d /\ (bound d <= 1)%nat /\ stray d = 0%nat.
Proof.
  apply (rtc_ind_r (fun d => drag_ok d /\ (bound d <= 1)%nat /\ stray d = 0%nat));
    [split_and!; [apply resting_ok|cbn; lia|done]|].
  intros y z _ [i Hi] (Hy & H1 & H2). split; [by apply feed_ok|]. destruct i as [b e|e| |].
  - destruct (down_ok b e y Hy) as (_ & H & _). destruct (H Hi) as [H3 H4]. split; [done|congruence].
  - destruct (move_ok e y Hy) as (d' & -> & _ & H3 & H4). cbn. split; [lia|congruence].
  - destruct (up_ok y Hy) as (_ & H3 & H4 & _). split; [lia|congruence].
  - destruct (animation_end_ok y Hy) as (_ & _ & H3 & H4). cbn. split; [lia|congruence].
Qed.

(** A drag never ends in an error, with two exceptions: a proxy function which returns
    nothing makes the press fail, and when the mouse was pressed again while it was down
    the second end of a drag whose proxy goes back fails. *)
Theorem drag_errors place d i :
  rtc drag_step (resting place) d ->
  match feed i d with
  | Done _ => True
  | Failed e d' =>
      e = TypeError /\
      ((exists b m, i = Down b m) /\ proxyOption p = ProxyFunction /\ proxy_made = false
       \/ i = Up /\ (2 <= bound d)%nat /\ revert p = true)
  end.
Proof.
  intros H%drag_ok_reachable. destruct i as [b e|e| |].
  - destruct (down_ok b e d H) as (_ & _ & [->|(-> & H1 & H2)]); [done|]. split; [done|]. left. eauto.
  - by destruct (move_ok e d H) as (d' & -> & _).
  - destruct (up_ok d H) as (_ & _ & _ & [->|(-> & H1 & H2)]); [done|]. split; [done|]. by right.
  - done.
Qed.

(** C35: Whatever the mouse did, presses while it was down and presses that failed included:
    letting it go and waiting for the animation under way ends every drag: no handler is
    left on the document, the proxy is gone, nothing goes back any more, so the next drag
    can start.  Letting go fails only where the mouse was pressed again while it was down
    and the proxy is to go back.  Without such presses no more than one drag is bound and
    no proxy was left behind; letting go leaves none behind in any case. *)
Theorem drag_ends place d :
  rtc drag_step (resting place) d ->
  let d1 := left_by (feed Up d) in let d2 := animation_end d1 in
  bound d2 = 0%nat /\ proxy d2 = None /\ reverting d2 = false /\ animations d2 = [] /\ stray d2 = stray d /\
  (feed Up d = Done d1 \/ feed Up d = Failed TypeError d1 /\ (2 <= bound d)%nat /\ revert p = true) /\
  (rtc single_step (resting place) d -> feed Up d = Done d1 /\ stray d2 = 0%nat).
Proof.
  intros H%drag_ok_reachable d1 d2. destruct (up_ok d H) as (H1 & H2 & H3 & H4). fold d1 in H1, H2, H3, H4.
  destruct (animation_end_ok d1 H1) as (H5 & H6 & H7 & H8). fold d2 in H5, H6, H7, H8.
  assert (bound d2 = 0%nat) as H0 by congruence. pose proof H5 as [_ Ha Hp]. rewrite H6 in Ha.
  split_and!; [done| |done|done|congruence|done|].
  - destruct (proxy d2); [|done]. destruct (Hp H0 ltac:(by eauto)) as (_ & l & u & E). congruence.
  - intros (_ & Hb & Hs)%single_reachable. split; [|congruence].
    destruct H4 as [H4|(_ & ? & _)]; [done|lia].
Qed.

(** *** Where the target goes *)

(** A drag under way that began with [e0] over a target at [place]. *)
Record moving (place : Z * Z) (e0 : mouse) (dx dy : option Z) (d : drag) : Prop := Moving {
  mv_bound : bound d = 1%nat;
  mv_animations : animations d = [];
  mv_target : target d = place;
  mv_proxy : is_Some (proxy d);
  mv_cur : cur d = Some (Current (place.1 + origin.1) (place.2 + origin.2)
             (num_or (pageX e0) (screenX e0)) (num_or (pageY e0) (clientY e0)) dx dy)
}.

Definition dist_x (e0 e : mouse) : Z := num_or (pageX e) (screenX e) - num_or (pageX e0) (screenX e0).
Definition dist_y (e0 e : mouse) : Z := num_or (pageY e) (screenY e) - num_or (pageY e0) (clientY e0).

Lemma run_app i1 i2 d : run (i1 ++ i2) d = andThen (run i1 d) (run i2).
Proof.
  revert d. induction i1 as [|i i1 IH]; intros d; cbn; [done|].
  destruct (feed i d); cbn; [apply IH|done].
Qed.

Lemma moving_start c b e0 place :
  disabled p = false -> proxyOption p = OwnProxy c -> veto "startDrag" = false -> b <> 2 ->
  exists d, feed (Down b e0) (resting place) = Done d /\ moving place e0 None None d.
Proof.
  intros H1 H2 H3 H4%Z.eqb_neq. cbn [feed]. unfold mousedown, _start, _createProxy, has_proxy_option.
  rewrite H1, H2, H3, H4. cbn. eexists. split; [done|]. by split; cbn.
Qed.

Lemma moving_move e e0 place dx dy d :
  hasBind "drag" = false -> moving place e0 dx dy d ->
  exists d', feed (Move e) d = Done d' /\ moving place e0 (Some (dist_x e0 e)) (Some (dist_y e0 e)) d'.
Proof.
  intros Hn [Hb Ha Ht [q Hq] Hc]. cbn [feed]. unfold mousemove.
  rewrite Hb. cbn [drags]. unfold _drag, _applyDrag. rewrite Hc.
  match goal with |- context [set_cur (Some ?c') d] =>
    destruct (receive_frame e (set_cur (Some c') d)) as (en & t & ->) end.
  cbn. rewrite Hn, Hq. cbn. eexists. split; [done|]. by split; cbn.
Qed.

Lemma moving_moves es e0 place dx dy d :
  hasBind "drag" = false -> moving place e0 dx dy d ->
  exists dx' dy' d', run (map Move es) d = Done d' /\ moving place e0 dx' dy' d'.
Proof.
  intros Hn. revert dx dy d. induction es as [|e es IH]; intros dx dy d Hm; cbn; [eauto|].
  destruct (moving_move e e0 place dx dy d Hn Hm) as (d' & E & H). cbn in E. rewrite E. cbn. eauto.
Qed.

(** Where a place goes by a distance: an element that moved is placed by its offset
  in the page. *)
Definition shifted (a o dx : Z) : Z := if dx =? 0 then a else a + o + dx.

Lemma moving_up place e0 dx dy d :
  revert p = false -> moving place e0 (Some dx) (Some dy) d ->
  exists d1, feed Up d = Done d1 /\
    target (animation_end d1) = (shifted place.1 origin.1 dx, shifted place.2 origin.2 dy).
Proof.
  intros Hr [Hb Ha Ht [q Hq] Hc]. cbn [feed]. unfold mouseup.
  rewrite Hb. cbn [stops]. unfold _stop, _applyDrag.
  match goal with |- context [match receive with Some l => drop_areas 0 l ?y | None => ?y end] =>
    destruct (drop_frame y) as (t & ->) end.
  cbn. rewrite Hq, Hc, Hr. unfold shifted. cbn.
  destruct (animate p), (dx =? 0), (dy =? 0); eexists; (split; [cbn; reflexivity|]);
    unfold animation_end; cbn; rewrite ?Ha; cbn; rewrite ?Ha; cbn; rewrite Ht; by destruct place.
Qed.

(** A drag with a proxy of its own, that no handler stops, moves the target by
    the way the mouse went from the press to its last move, whatever the way
    between; an element inside a container that is not at the page's origin jumps
    by the container's offset besides. *)
Theorem drag_moves_target c b e0 es e place :
  disabled p = false -> proxyOption p = OwnProxy c -> veto "startDrag" = false -> b <> 2 ->
  hasBind "drag" = false -> revert p = false ->
  exists d, run (Down b e0 :: map Move es ++ [Move e; Up; AnimEnd]) (resting place) = Done d /\
    target d = (shifted place.1 origin.1 (dist_x e0 e), shifted place.2 origin.2 (dist_y e0 e)).
Proof.
  intros H1 H2 H3 H4 H5 H6.
  destruct (moving_start c b e0 place H1 H2 H3 H4) as (d1 & E1 & M1).
  destruct (moving_moves es e0 place _ _ d1 H5 M1) as (dx & dy & d2 & E2 & M2).
  destruct (moving_move e e0 place dx dy d2 H5 M2) as (d3 & E3 & M3).
  destruct (moving_up place e0 _ _ d3 H6 M3) as (d4 & E4 & T4).
  exists (animation_end d4). split; [|done].
  cbn [run]. rewrite E1. cbn [andThen]. rewrite run_app, E2. cbn [andThen run].
  rewrite E3. cbn [andThen]. rewrite E4. done.
Qed.
End runs.

(** *** Concrete drags *)

Definition at_mouse (x y : Z) : mouse := Mouse x y x y y.
Definition plain_drag : drag_options := DragOptions false (OwnProxy false) false true None None.

Lemma drag_moves_target_witness :
  match run plain_drag (fun _ => false) (fun _ => false) true (0, 0) None
          [Down 0 (at_mouse 10 10); Move (at_mouse 300 5); Move (at_mouse 17 12); Up; AnimEnd]
          (resting (100, 50)) with
  | Done d => target d = (107, 52) | Failed _ _ => False end.
Proof.
  destruct (drag_moves_target plain_drag (fun _ => false) (fun _ => false) true (0, 0) None false 0
    (at_mouse 10 10) [at_mouse 300 5] (at_mouse 17 12) (100, 50)) as (d & H1 & H2);
    [done..|].
  cbn [map app] in H1. rewrite H1. exact H2.
Defined.

Lemma drag_errors_witness :
  let p := DragOptions false ProxyFunction false true None None in
  match feed p (fun _ => false) (fun _ => false) false (0, 0) None (Down 0 (at_mouse 1 1))
          (resting (0, 0)) with
  | Done _ => False
  | Failed e d => e = TypeError
  end.
Proof.
  cbn zeta.
  pose proof (drag_errors (DragOptions false ProxyFunction false true None None) (fun _ => false)
    (fun _ => false) false (0, 0) None (0, 0) (resting (0, 0)) (Down 0 (at_mouse 1 1))
    ltac:(constructor)) as H.
  destruct (feed _ _ _ _ _ _ _ _) eqn:E; [vm_compute in E; discriminate|].
  exact (proj1 H).
Defined.

(** Pressed with two buttons: the first proxy is left behind, and the drag ends. *)
Definition plain_feed : input -> drag -> outcome :=
  feed plain_drag (fun _ => false) (fun _ => false) true (0, 0) None.
Definition once : drag := left_by (plain_feed (Down 0 (at_mouse 1 1)) (resting (3, 4))).
Definition twice : drag := left_by (plain_feed (Down 1 (at_mouse 2 2)) once).

Lemma twice_reachable : rtc (drag_step plain_drag (fun _ => false) (fun _ => false) true (0, 0) None) (resting (3, 4)) twice.
Proof.
  apply (rtc_l _ _ once); [exact (DragStep _ _ _ _ _ _ (resting (3, 4)) (Down 0 (at_mouse 1 1)))|].
  apply rtc_once. exact (DragStep _ _ _ _ _ _ once (Down 1 (at_mouse 2 2))).
Qed.

Lemma drag_ends_witness :
  bound twice = 2%nat /\
  let d1 := left_by (plain_feed Up twice) in
  proxy (animation_end d1) = None /\ stray (animation_end d1) = 1%nat.
Proof.
  split; [reflexivity|].
  destruct (drag_ends plain_drag (fun _ => false) (fun _ => false) true (0, 0) None (3, 4)
    twice twice_reachable) as (_ & H2 & _ & _ & H5 & _).
  split; [exact H2|exact H5].
Defined.

(** Without a proxy a target that comes back to where the drag began stays where the
    move before left it. *)
Example drag_back_ex :
  match run (DragOptions false NoProxy false true None None) (fun _ => false) (fun _ => false)
          true (0, 0) None
          [Down 0 (at_mouse 10 10); Move (at_mouse 19 10); Move (at_mouse 10 10); Up]
          (resting (0, 0)) with
  | Done d => target d = (9, 0) | Failed _ _ => False end.
Proof. reflexivity. Qed.

(** After a drop the area still counts as entered: the next drag over it is told as
    [dragOver], without [dragEnter]. *)
Example drop_keeps_entered :
  match run plain_drag (fun _ => false) (fun _ => false) true (0, 0) (Some [(20, 0, 10, 10)])
          [Down 0 (at_mouse 1 1); Move (at_mouse 25 5); Up; AnimEnd;
           Down 0 (at_mouse 1 1); Move (at_mouse 25 5)] (resting (0, 0)) with
  | Done d => told d = [DragEvent "startDrag" None; DragEvent "dragEnter" (Some 0%nat);
                        DragEvent "drop" (Some 0%nat); DragEvent "stopDrag" None;
                        DragEvent "startDrag" None; DragEvent "dragOver" (Some 0%nat)]
  | Failed _ _ => False end.
Proof. reflexivity. Qed.

(** With a proxy that goes back letting go fails then, at the second handler. *)
Example second_revert_fails :
  match run (DragOptions false (OwnProxy false) true true None None) (fun _ => false) (fun _ => false) true (0, 0) None
          [Down 0 (at_mouse 1 1); Down 1 (at_mouse 2 2); Up] (resting (0, 0)) with
  | Done _ => False | Failed e d => e = TypeError /\ bound d = 0%nat end.
Proof. vm_compute. done. Qed.

(** A press while the mouse is still down leaves the first proxy in the page. *)
Example stray_proxy_ex :
  match run plain_drag (fun _ => false) (fun _ => false) true (0, 0) None
          [Down 0 (at_mouse 1 1); Down 0 (at_mouse 2 2)] (resting (0, 0)) with
  | Done d => stray d = 1%nat | Failed _ _ => False end.
Proof. reflexivity. Qed.
