(* ===== verification/Resize.v ===== *)
(** * Resizing

    [ligerResizable.js]: the border the mouse is at ([_getDir], [_setHandles]),
    the resize and its end ([_start], [_drag], [_stop], [_applyResize]), and how
    it takes turns with the dragging of the same element. *)

From S2P Require Import Prelude JsString Drag.
From Stdlib Require Import Ascii.
Local Open Scope string_scope.
Local Open Scope Z_scope.

(** ** State *)

(** The place and size of an element. *)
Record box := Box { b_left : Z; b_top : Z; b_width : Z; b_height : Z }.

(** [g.current]; a difference is missing until the mouse moves. *)
Record resizing := Resizing {
  z_dir : string; z_box : box; z_startX : Z; z_startY : Z;
  z_diffX : option Z; z_diffY : option Z }.

Record resize_options := ResizeOptions {
  z_disabled : bool; z_all : bool (* handles == 'all' *); z_handles : list string;
  z_scope : Z; z_animate : bool }.

(** The target: its size, and its [left] and [top] in its style, where they are
    numbers. *)
Record resizable := Resizable {
  t_left : option Z; t_top : option Z; t_width : Z; t_height : Z;
  z_proxy : option box;
  z_cur : option resizing;
  g_dir : string;
  z_bound : nat;
  z_stray : nat;
  z_told : list string
}.

Definition zset_target l t w h z := Resizable l t w h (z_proxy z) (z_cur z) (g_dir z) (z_bound z)
  (z_stray z) (z_told z).
Definition zset_proxy v z := Resizable (t_left z) (t_top z) (t_width z) (t_height z) v (z_cur z)
  (g_dir z) (z_bound z) (z_stray z) (z_told z).
Definition zset_cur v z := Resizable (t_left z) (t_top z) (t_width z) (t_height z) (z_proxy z) v
  (g_dir z) (z_bound z) (z_stray z) (z_told z).
Definition zset_dir v z := Resizable (t_left z) (t_top z) (t_width z) (t_height z) (z_proxy z)
  (z_cur z) v (z_bound z) (z_stray z) (z_told z).
Definition zset_bound v z := Resizable (t_left z) (t_top z) (t_width z) (t_height z) (z_proxy z)
  (z_cur z) (g_dir z) v (z_stray z) (z_told z).
Definition zset_stray v z := Resizable (t_left z) (t_top z) (t_width z) (t_height z) (z_proxy z)
  (z_cur z) (g_dir z) (z_bound z) v (z_told z).
Definition ztell n z := Resizable (t_left z) (t_top z) (t_width z) (t_height z) (z_proxy z)
  (z_cur z) (g_dir z) (z_bound z) (z_stray z) (z_told z ++ [n])%list.

(** ** Directions *)

(** The handles without white space, cut at the commas. *)
Fixpoint no_space (s : string) : string :=
  match s with
  | "" => ""
  | String c s' => if is_space c then no_space s' else String c (no_space s')
  end.
Definition _setHandles (handles : string) : list string := split_on "," (no_space handles).

Section resize.
Context (p : resize_options).
Context (hasBind veto : string -> bool).
(** Where an element whose style says 0 is: the offset of the target's container. *)
Context (origin : Z * Z).

Definition target_box (z : resizable) : box :=
Box (default 0 (t_left z) + origin.1) (default 0 (t_top z) + origin.2) (t_width z) (t_height z).

(** The letters for the two directions. *)
Definition dir_y (y : Z) (b : box) : string :=
if (b_top b <=? y) && (y <? b_top b + z_scope p) then "n"
else if (y <=? b_top b + b_height b) && (b_top b + b_height b - z_scope p <? y) then "s" else "".
Definition dir_x (x : Z) (b : box) : string :=
if (b_left b <=? x) && (x <? b_left b + z_scope p) then "w"
else if (x <=? b_left b + b_width b) && (b_left b + b_width b - z_scope p <? x) then "e" else "".

Definition _getDir (e : mouse) (z : resizable) : string :=
let b := target_box z in
let dir := dir_y (num_or (pageY e) (screenY e)) b ++ dir_x (num_or (pageX e) (screenX e)) b in
if z_all p || String.eqb dir "" then dir
else if inArray dir (z_handles p) =? -1 then "" else dir.

(** The [mousemove] of the target: the direction, and what the dragging of the same
  element is told its [disabled] is. *)
Definition target_move (e : mouse) (z : resizable) : resizable * option bool :=
if z_disabled p then (z, None)
else let dir := _getDir e z in (zset_dir dir z, Some (negb (String.eqb dir ""))).

(** ** The resize *)

Definition _start (e : mouse) (z : resizable) : resizable :=
let z := match z_proxy z with Some _ => zset_stray (S (z_stray z)) z | None => z end in
let z := zset_proxy (Some (target_box z)) z in
let z := zset_cur (Some (Resizing (g_dir z) (target_box z) (num_or (pageX e) (screenX e))
                           (num_or (pageY e) (clientY e)) None None)) z in
ztell "startResize" (zset_bound (S (z_bound z)) z).

(** The [mousedown] of the target. *)
Definition target_down (e : mouse) (z : resizable) : resizable :=
if z_disabled p then z else if String.eqb (g_dir z) "" then z else _start e z.

Definition changes (letter dir : string) : bool :=
if String.eqb letter "t" then bool_decide (dir ∈ ["n"; "ne"; "nw"])
else if String.eqb letter "l" then bool_decide (dir ∈ ["w"; "sw"; "nw"])
else if String.eqb letter "w" then bool_decide (dir ∈ ["w"; "sw"; "nw"; "e"; "ne"; "se"])
else bool_decide (dir ∈ ["n"; "ne"; "nw"; "s"; "se"; "sw"]).

(** A number that may be NaN. *)
Definition plus (a : Z) (d : option Z) : option Z := d ← d; Some (a + d).

(** [css] of a place leaves it for NaN; of a size also when it is negative. *)
Definition css_place (old : option Z) (v : option (option Z)) : option Z :=
match v with Some (Some x) => Some x | _ => old end.
Definition css_size (old : Z) (v : option (option Z)) : Z :=
match v with Some (Some x) => if x <? 0 then old else x | _ => old end.
(** [animate] takes a negative size to 0. *)
Definition animate_size (old : Z) (v : option (option Z)) : Z :=
match v with Some (Some x) => Z.max 0 x | _ => old end.

(** The new left, top, width and height; [None] where [cur] has no such property. *)
Definition resize_goal (to_target : bool) (left top : Z) (c : resizing)
  : option (option Z) * option (option Z) * option (option Z) * option (option Z) :=
let dir := z_dir c in
let keep v := if to_target then None else Some (Some v) in
let sign (s : string) (d : option Z) : option Z :=
  if bool_decide (indexOf s dir = -1) then d else Z.opp <$> d in
(if changes "l" dir then Some (plus left (z_diffX c)) else keep left,
 if changes "t" dir then Some (plus top (z_diffY c)) else keep top,
 if changes "w" dir then Some (plus (b_width (z_box c)) (sign "w" (z_diffX c)))
 else keep (b_width (z_box c)),
 if changes "h" dir then Some (plus (b_height (z_box c)) (sign "n" (z_diffY c)))
 else keep (b_height (z_box c))).

(** [_applyResize(g.proxy)] and [_applyResize()]. *)
Definition apply_proxy (c : resizing) (z : resizable) : resizable :=
match z_proxy z with
| None => z
| Some q =>
    let '(l, t, w, h) := resize_goal false (b_left (z_box c)) (b_top (z_box c)) c in
    zset_proxy (Some (Box (default (b_left q) (css_place (Some (b_left q)) l))
                          (default (b_top q) (css_place (Some (b_top q)) t))
                          (css_size (b_width q) w) (css_size (b_height q) h))) z
end.

(** With animation this is the target at the animation's end. *)
Definition apply_target (c : resizing) (z : resizable) : resizable :=
let '(l, t, w, h) := resize_goal true (default 0 (t_left z)) (default 0 (t_top z)) c in
let size := if z_animate p then animate_size else css_size in
zset_target (css_place (t_left z) l) (css_place (t_top z) t) (size (t_width z) w)
  (size (t_height z) h) z.

Definition _drag (e : mouse) (z : resizable) : resizable :=
match z_cur z, z_proxy z with
| Some c, Some _ =>
    let c := Resizing (z_dir c) (z_box c) (z_startX c) (z_startY c)
               (Some (num_or (pageX e) (screenX e) - z_startX c))
               (Some (num_or (pageY e) (screenY e) - z_startY c)) in
    ztell "resize" (apply_proxy c (zset_cur (Some c) z))
| _, _ => z
end.

Definition _stop (z : resizable) : res resizable :=
c ← of_option (z_cur z);
let z := if hasBind "stopResize" then
           let z := ztell "stopResize" z in
           if veto "stopResize" then z else apply_target c z
         else apply_target c z in
let z := ztell "endResize" (zset_proxy None z) in
Ok (zset_bound 0 z).

(** The document's handlers, every one bound. *)
Definition mousemove (e : mouse) (z : resizable) : resizable := Nat.iter (z_bound z) (_drag e) z.
Fixpoint stops (n : nat) (z : resizable) : res resizable :=
match n with O => Ok z | S n' => z ← _stop z; stops n' z end.
Definition mouseup (z : resizable) : res resizable := stops (z_bound z) z.
End resize.

(** ** The border *)

Definition the_handles : list string := ["n"; "e"; "s"; "w"; "ne"; "se"; "sw"; "nw"].

Example default_handles : _setHandles "n, e, s, w, ne, se, sw, nw" = the_handles.
Proof. reflexivity. Qed.

(** A letter of a direction. *)
Definition has (ch dir : string) : bool := negb (bool_decide (indexOf ch dir = -1)).

Ltac split_dirs H :=
  repeat (apply elem_of_cons in H as [->|H]); [..|by apply not_elem_of_nil in H].

(** With the handles of the options the direction is none or one of the eight,
    and its letters name borders the mouse is within [scope] of. *)
Theorem getDir_border p origin e z :
  let b := target_box origin z in
  let x := num_or (pageX e) (screenX e) in let y := num_or (pageY e) (screenY e) in
  let dir := _getDir p origin e z in
  (dir = "" \/ dir ∈ the_handles) /\
  (has "w" dir = true -> b_left b <= x < b_left b + z_scope p) /\
  (has "e" dir = true -> b_left b + b_width b - z_scope p < x <= b_left b + b_width b) /\
  (has "n" dir = true -> b_top b <= y < b_top b + z_scope p) /\
  (has "s" dir = true -> b_top b + b_height b - z_scope p < y <= b_top b + b_height b) /\
  (z_all p = false -> dir = "" \/ dir ∈ z_handles p).
Proof.
  cbn zeta. unfold _getDir. set (b := target_box origin z).
  set (x := num_or (pageX e) _). set (y := num_or (pageY e) _).
  set (d := dir_y p y b ++ dir_x p x b).
  set (dir := if _ : bool then _ else _).
  assert (dir = d \/ dir = "") as Hd.
  { subst dir. destruct (z_all p || _); [by left|]. destruct (_ =? -1); auto. }
  assert (z_all p = false -> dir = "" \/ dir ∈ z_handles p) as Hh.
  { intros Ha. subst dir. rewrite Ha. cbn [orb]. destruct (String.eqb_spec d "") as [E|_]; [by left|].
    destruct (inArray_cases d (z_handles p)) as [[E _]|(k & E & Hk)]; rewrite E; [by left|right].
    destruct (Z.of_nat k =? -1) eqn:E'; zbool; [lia|]. by eapply list_elem_of_lookup_2. }
  clearbody dir. split; [|split_and!; try done]; destruct Hd as [->| ->]; try (by left); try discriminate.
  { unfold d, dir_y, dir_x. repeat case_match; cbn; unfold the_handles; set_solver. }
  all: unfold d, dir_y, dir_x; repeat case_match; intros Hx; vm_compute in Hx; try discriminate; zbool; lia.
Qed.

(** ** The whole resize *)

(** Evaluates the tests of directions that are given. *)
Ltac decide_closed :=
  repeat match goal with
  | |- context [changes ?a ?b] =>
      let v := eval vm_compute in (changes a b) in change (changes a b) with v
  | |- context [has ?a ?b] => let v := eval vm_compute in (has a b) in change (has a b) with v
  | |- context [@bool_decide ?P ?d] =>
      let v := eval vm_compute in (@bool_decide P d) in change (@bool_decide P d) with v
  end; cbv beta iota.

Lemma handle_not_empty dir : dir ∈ the_handles -> dir <> "".
Proof. intros H. split_dirs H; discriminate. Qed.

Section whole.
Context (p : resize_options) (hasBind veto : string -> bool) (origin : Z * Z).

(** A resize under way, of a target that is still as it was. *)
Record resize_on (e0 : mouse) (z0 z : resizable) (dx dy : option Z) : Prop := ResizeOn {
  on_bound : z_bound z = 1%nat;
  on_target : (t_left z, t_top z, t_width z, t_height z)
              = (t_left z0, t_top z0, t_width z0, t_height z0);
  on_proxy : is_Some (z_proxy z);
  on_cur : z_cur z = Some (Resizing (g_dir z0) (target_box origin z0)
             (num_or (pageX e0) (screenX e0)) (num_or (pageY e0) (clientY e0)) dx dy)
}.

Lemma resize_start e0 z :
  z_disabled p = false -> g_dir z <> "" -> z_bound z = 0%nat ->
  resize_on e0 z (target_down p origin e0 z) None None.
Proof.
  intros H1 H2%String.eqb_neq H3. unfold target_down, _start. rewrite H1, H2.
  destruct (z_proxy z); split; cbn; rewrite ?H3; done.
Qed.

Lemma resize_move e e0 z0 z dx dy :
  resize_on e0 z0 z dx dy ->
  resize_on e0 z0 (mousemove e z) (Some (dist_x e0 e)) (Some (dist_y e0 e)).
Proof.
  intros [H1 H2 [q H3] H4]. unfold mousemove. rewrite H1. cbn [Nat.iter nat_rect].
  unfold _drag, apply_proxy. rewrite H3, H4. cbn -[resize_goal]. rewrite H3.
  destruct (resize_goal _ _ _ _) as [[[l t] w] h]. by split; cbn.
Qed.

Lemma resize_moves es e0 z0 z dx dy :
  resize_on e0 z0 z dx dy ->
  exists dx' dy', resize_on e0 z0 (fold_left (fun z e => mousemove e z) es z) dx' dy'.
Proof.
  revert z dx dy. induction es as [|e es IH]; intros z dx dy H; cbn; [eauto|].
  eapply IH, resize_move, H.
Qed.

Definition on (ch dir : string) (d : Z) : Z := if has ch dir then d else 0.
(** The four borders of a target. *)
Definition borders (z : resizable) : Z * Z * Z * Z :=
(default 0 (t_left z), default 0 (t_left z) + t_width z,
 default 0 (t_top z), default 0 (t_top z) + t_height z).

Lemma size_kept b old x : 0 <= x -> (if b : bool then animate_size else css_size) old (Some (Some x)) = x.
Proof. intros. destruct b; cbn; [lia|]. case_match; zbool; lia. Qed.
Lemma size_unchanged b old : (if b : bool then animate_size else css_size) old None = old.
Proof. by destruct b. Qed.

(** The borders a direction names move. *)
Definition drag_borders (dir : string) (dx dy : Z) (b : Z * Z * Z * Z) : Z * Z * Z * Z :=
let '(l, r, t, b) := b in
(l + on "w" dir dx, r + on "e" dir dx, t + on "n" dir dy, b + on "s" dir dy).

Lemma apply_target_borders c dx dy z :
  z_dir c ∈ the_handles -> z_diffX c = Some dx -> z_diffY c = Some dy ->
  b_width (z_box c) = t_width z -> b_height (z_box c) = t_height z ->
  0 <= t_width z - on "w" (z_dir c) dx + on "e" (z_dir c) dx ->
  0 <= t_height z - on "n" (z_dir c) dy + on "s" (z_dir c) dy ->
  borders (apply_target p c z) = drag_borders (z_dir c) dx dy (borders z).
Proof.
  destruct c as [dir b x y d1 d2]. cbn [z_dir z_diffX z_diffY z_box].
  intros Hd -> -> Hw Hh. unfold apply_target, resize_goal, borders, drag_borders, on.
  cbn [z_dir z_diffX z_diffY z_box]. rewrite Hw, Hh.
  split_dirs Hd; decide_closed; cbn [plus mbind option_bind fmap option_fmap option_map
    t_left t_top t_width t_height css_place]; intros H1 H2;
    rewrite ?size_kept, ?size_unchanged by lia; cbn; repeat apply (f_equal2 pair); lia.
Qed.

(** C32: Resizing from a handle to the last place of the mouse moves the borders the
    handle names by the way the mouse went, and leaves the others, as long as the
    size does not get negative; no proxy and no handler stay. *)
Theorem resize_borders e0 es e z :
  z_disabled p = false -> z_bound z = 0%nat -> g_dir z ∈ the_handles ->
  hasBind "stopResize" && veto "stopResize" = false ->
  let dx := dist_x e0 e in let dy := dist_y e0 e in let dir := g_dir z in
  0 <= t_width z - on "w" dir dx + on "e" dir dx ->
  0 <= t_height z - on "n" dir dy + on "s" dir dy ->
  exists z', mouseup p hasBind veto
      (mousemove e (fold_left (fun z e => mousemove e z) es (target_down p origin e0 z))) = Ok z' /\
    borders z' = drag_borders dir dx dy (borders z) /\
    z_proxy z' = None /\ z_bound z' = 0%nat.
Proof.
  intros H1 H2 Hd Hv dx dy dir Hw Hh.
  assert (dir <> "") as Hne by (apply (handle_not_empty _ Hd)).
  destruct (resize_moves es e0 z _ _ _ (resize_start e0 z H1 Hne H2)) as (x & y & H).
  apply (resize_move e) in H. destruct H as [K1 K2 _ K4]. fold dx dy dir in K4.
  unfold mouseup. rewrite K1. cbn [stops]. unfold _stop. rewrite K4. cbn [of_option mbind res_bind].
  set (z1 := mousemove e _) in *. set (c := Resizing _ _ _ _ _ _) in *.
  eexists. split; [cbn; reflexivity|]. split; [|by split].
  assert (t_left z1 = t_left z /\ t_top z1 = t_top z /\ t_width z1 = t_width z
          /\ t_height z1 = t_height z) as (L & T & W & H) by (by injection K2).
  transitivity (borders (apply_target p c z1)).
  { destruct (hasBind "stopResize"), (veto "stopResize"); done. }
  rewrite (apply_target_borders c dx dy z1); subst c; cbn; rewrite ?W, ?H; auto.
  unfold borders. by rewrite L, T, ?W, ?H.
Qed.
End whole.

(** ** Dragging and resizing one element *)

Definition with_disabled (b : bool) (dp : drag_options) : drag_options :=
  DragOptions b (proxyOption dp) (revert dp) (animate dp) (proxyX dp) (proxyY dp).

(** The press of an element that can be dragged and resized, after the mouse moved
    over it: the two [mousedown] handlers. *)
Definition press_both (p : resize_options) (dp : drag_options) (veto : string -> bool)
    (proxy_made : bool) (origin : Z * Z) (e : mouse) (z : resizable) (d : drag)
    : resizable * outcome :=
  let '(z, told) := target_move p origin e z in
  let dp := with_disabled (default (disabled dp) told) dp in
  (target_down p origin e z, mousedown dp veto proxy_made origin 0 e d).

(** The press of an element that can be dragged and resized begins a resize at
    its borders and a drag elsewhere, never both, whatever the drag's own
    [disabled] was before. *)
Theorem press_one p dp veto pm origin e z d :
  z_disabled p = false -> proxyOption dp = OwnProxy false -> reverting d = false ->
  veto "startDrag" = false -> bound d = 0%nat -> z_bound z = 0%nat ->
  let '(z', o) := press_both p dp veto pm origin e z d in
  match o with
  | Failed _ _ => False
  | Done d' => if String.eqb (_getDir p origin e z) ""
               then z_bound z' = 0%nat /\ bound d' = 1%nat
               else z_bound z' = 1%nat /\ d' = d
  end.
Proof.
  intros H1 H2 H3 H4 H5 H6. unfold press_both, target_move. rewrite H1.
  set (dir := _getDir p origin e z).
  unfold target_down, _start, mousedown, Drag._start. rewrite H1. cbn [g_dir zset_dir].
  destruct (String.eqb_spec dir "") as [->|Hne]; cbn.
  - rewrite H3, H4. unfold _createProxy, has_proxy_option. cbn. rewrite H2. cbn.
    destruct (proxy d); cbn; by rewrite ?H5, ?H6.
  - destruct (z_proxy z); cbn; by rewrite H6.
Qed.

(** ** Concrete resizes *)

Definition plain_resize : resize_options := ResizeOptions false false the_handles 3 false.
Definition still (dir : string) : resizable :=
  Resizable (Some 10) (Some 20) 100 50 None None dir 0 0 [].

Lemma getDir_border_witness :
  _getDir plain_resize (0, 0) (at_mouse 11 69) (still "") = "sw" /\ 10 <= 11 < 10 + 3.
Proof.
  destruct (getDir_border plain_resize (0, 0) (at_mouse 11 69) (still "")) as (_ & H & _).
  split; [reflexivity|]. apply H. reflexivity.
Defined.

Lemma resize_borders_witness :
  exists z', mouseup plain_resize (fun _ => true) (fun _ => false)
      (mousemove (at_mouse 25 30) (target_down plain_resize (0, 0) (at_mouse 11 21) (still "nw"))) = Ok z'
    /\ borders z' = (24, 110, 29, 70).
Proof.
  destruct (resize_borders plain_resize (fun _ => true) (fun _ => false) (0, 0) (at_mouse 11 21) []
    (at_mouse 25 30) (still "nw")) as (z' & H1 & H2 & _); try done.
  - apply (bool_decide_unpack (g_dir (still "nw") ∈ the_handles)). vm_compute. exact I.
  - exists z'. split; [exact H1|]. rewrite H2. reflexivity.
Defined.

Lemma press_one_witness :
  let '(z', o) := press_both plain_resize (DragOptions true (OwnProxy false) false true None None)
      (fun _ => false) true (0, 0) (at_mouse 50 40) (still "") (resting (10, 20)) in
  match o with Failed _ _ => False | Done d' => z_bound z' = 0%nat /\ bound d' = 1%nat end.
Proof.
  exact (press_one plain_resize (DragOptions true (OwnProxy false) false true None None)
    (fun _ => false) true (0, 0) (at_mouse 50 40) (still "") (resting (10, 20))
    eq_refl eq_refl eq_refl eq_refl eq_refl eq_refl).
Defined.

(** The smallest and largest sizes of the options are nowhere used: a target can be
    made 0 wide, and past that its left border goes on without its right one. *)
Example resize_past_ex :
  match mouseup plain_resize (fun _ => false) (fun _ => false)
      (mousemove (at_mouse 131 40) (target_down plain_resize (0, 0) (at_mouse 11 40) (still "w"))) with
  | Ok z => borders z = (130, 230, 20, 70) | Throw _ => False end.
Proof. reflexivity. Qed.
