(* ===== verification/Dialog.v ===== *)
(** * Dialogs

    [ligerDialog.js]: the making of a dialog, showing and hiding it, its largest
    and smallest size, folding it, the keys, and the dialogs made from a message
    ([alert], [confirm], [warning], [prompt], [waitting], [tip]); with the mask
    and the task bar of [base.js]. *)

From S2P Require Import Prelude JsString Component Drag Resize.
From Stdlib Require Import Ascii.
Local Open Scope string_scope.
Local Open Scope Z_scope.

(** ** State *)

(** A button: its text, its [type]; what it does is told by [on_button]. *)
Record dbutton := DButton { db_text : string; db_type : string }.

Record dialog_options := DialogOptions {
  o_modal : bool; o_show : bool; o_slide : bool; o_isHidden : bool;
  o_width : option Z; o_height : option Z; o_left : option Z; o_top : option Z;
  o_type : option string; o_target : bool; o_url : bool;
  o_showMax : bool; o_showMin : bool; o_showToggle : bool;
  o_isDrag : bool; o_isResize : bool;
  o_closeWhenEnter : option bool;
  o_fixed : bool; o_showType : bool;
  o_waitting : bool;                     (* cls is l-dialog-waittingdialog *)
  o_title : string; o_content : string;
  o_buttons : list dbutton
}.

(** The fold button: whether it says extend, whether it is disabled. *)
Record fold := Fold { f_extend : bool; f_disabled : bool }.

(** Places are counted in half pixels: a dialog in the middle may stand at one. *)
Record dialog := Dlg {
  d_opts : dialog_options;
  d_type : option string;                (* p.type *)
  d_dom : bool;                          (* in the page *)
  d_visible : bool;
  d_left2 : Z; d_top2 : Z;
  d_width : Z;                           (* the body's *)
  d_content : Z;                         (* the content's height *)
  d_buttons : Z;                         (* the height of the bar of buttons *)
  d_saved : Z * Z * Z * Z;               (* _width, _height, _left, _top *)
  d_max : option bool;                   (* the maximize button: does it say recover? *)
  d_fold : option fold;
  d_min : bool;                          (* the minimize button is there *)
  d_drag : option bool;                  (* draggable: disabled? *)
  d_resize : option bool;                (* resizable: disabled? *)
  d_maximum : bool; d_minimize : bool; d_actived : bool
}.

Definition set_dom dom vis d := Dlg (d_opts d) (d_type d) dom vis (d_left2 d) (d_top2 d) (d_width d)
  (d_content d) (d_buttons d) (d_saved d) (d_max d) (d_fold d) (d_min d) (d_drag d) (d_resize d)
  (d_maximum d) (d_minimize d) (d_actived d).
Definition set_visible vis d := set_dom (d_dom d) vis d.
Definition set_geometry l t w c d := Dlg (d_opts d) (d_type d) (d_dom d) (d_visible d) l t w
  c (d_buttons d) (d_saved d) (d_max d) (d_fold d) (d_min d) (d_drag d) (d_resize d)
  (d_maximum d) (d_minimize d) (d_actived d).
Definition set_saved s d := Dlg (d_opts d) (d_type d) (d_dom d) (d_visible d) (d_left2 d) (d_top2 d)
  (d_width d) (d_content d) (d_buttons d) s (d_max d) (d_fold d) (d_min d) (d_drag d) (d_resize d)
  (d_maximum d) (d_minimize d) (d_actived d).
Definition set_tools mx f mn dr rs d := Dlg (d_opts d) (d_type d) (d_dom d) (d_visible d) (d_left2 d)
  (d_top2 d) (d_width d) (d_content d) (d_buttons d) (d_saved d) mx f mn dr rs
  (d_maximum d) (d_minimize d) (d_actived d).
Definition set_maximum b d := Dlg (d_opts d) (d_type d) (d_dom d) (d_visible d) (d_left2 d) (d_top2 d)
  (d_width d) (d_content d) (d_buttons d) (d_saved d) (d_max d) (d_fold d) (d_min d) (d_drag d)
  (d_resize d) b (d_minimize d) (d_actived d).
Definition set_minimize mn ac d := Dlg (d_opts d) (d_type d) (d_dom d) (d_visible d) (d_left2 d)
  (d_top2 d) (d_width d) (d_content d) (d_buttons d) (d_saved d) (d_max d) (d_fold d) (d_min d)
  (d_drag d) (d_resize d) (d_maximum d) mn ac.

Definition set_bar b d := Dlg (d_opts d) (d_type d) (d_dom d) (d_visible d) (d_left2 d) (d_top2 d)
  (d_width d) (d_content d) b (d_saved d) (d_max d) (d_fold d) (d_min d) (d_drag d) (d_resize d)
  (d_maximum d) (d_minimize d) (d_actived d).

(** What is under way: a dialog that hides or goes when its animation ends, a
    dialog that comes to the front in 100 ms, one that is destroyed in 5 ms. *)
Inductive later := LHide (id : string) | LRemove (id : string) | LFront (id : string)
| LDestroy (id : string).

(** The page: the dialogs of the pool, in order, the window layer, the handlers of
    [keydown.dialog] and [resize.dialogmax], what is under way. *)
Record desk := Desk {
  dialogs : list (string * dialog);
  the_win : win;
  keys : list string;
  maxers : list string;
  laters : list later
}.

Definition put (id : string) (d : dialog) (k : desk) : desk :=
  Desk (oset id d (dialogs k)) (the_win k) (keys k) (maxers k) (laters k).
Definition set_win w k := Desk (dialogs k) w (keys k) (maxers k) (laters k).
Definition set_keys v k := Desk (dialogs k) (the_win k) v (maxers k) (laters k).
Definition set_maxers v k := Desk (dialogs k) (the_win k) (keys k) v (laters k).
Definition set_laters v k := Desk (dialogs k) (the_win k) (keys k) (maxers k) v.
Definition add_later l k := set_laters (laters k ++ [l])%list k.

(** [body > .l-dialog:visible] *)
Definition visible_windows (k : desk) : list window :=
  map (fun q => Window q.1 (o_modal (d_opts q.2)))
    (List.filter (fun q => d_dom q.2 && d_visible q.2) (dialogs k)).

(** [g.mask], [g.unmask] *)
Definition mask_of (d : dialog) (k : desk) : desk :=
  if o_modal (d_opts d) then set_win (mask (the_win k)) k else k.
Definition unmask_of (id : string) (d : dialog) (k : desk) : desk :=
  if o_modal (d_opts d) then set_win (unmask (Some id) (visible_windows k) (the_win k)) k else k.

Definition borderX : Z := 12.
Definition borderY : Z := 32.

Section dialogs.
(** The window's size and scroll position, the task bar's height, and whether it
  is at the top. *)
Context (win_w win_h scrollTop bar_h : Z) (bar_top : bool).
(** The height of the body with its content and its buttons. *)
Context (body_height : Z -> Z -> Z).
(** The height of a dialog made with these options, before it has a place. *)
Context (natural_height natural_content natural_width buttons_height : dialog_options -> Z).
(** The height of the bar of buttons before there are any. *)
Context (empty_bar : Z).
(** The place of a task on the task bar. *)
Context (task_place : string -> Z * Z).

(** ** Sizes *)

(** A size that is negative is not taken. *)
Definition size_set (old v : Z) : Z := if v <? 0 then old else v.

Definition _setWidth (v : Z) (d : dialog) : dialog :=
if borderX <=? v
then set_geometry (d_left2 d) (d_top2 d) (size_set (d_width d) (v - borderX)) (d_content d) d else d.
Definition _setHeight (v : Z) (d : dialog) : dialog :=
if borderY <=? v
then set_geometry (d_left2 d) (d_top2 d) (d_width d)
       (size_set (d_content d) (v - borderY - d_buttons d)) d
else d.
Definition _setLeft (v : Z) (d : dialog) : dialog :=
set_geometry (2 * v) (d_top2 d) (d_width d) (d_content d) d.
Definition _setTop (v : Z) (d : dialog) : dialog :=
set_geometry (d_left2 d) (2 * v) (d_width d) (d_content d) d.

(** [g.set({ width, height, left, top })] *)
Definition set_place (w h l t : Z) (d : dialog) : dialog :=
_setTop t (_setLeft l (_setHeight h (_setWidth w d))).

(** The same by animation, at its end: a negative size ends at 0. *)
Definition animate_place (w h l t : Z) (d : dialog) : dialog :=
set_geometry (2 * l) (2 * t) (Z.max 0 (w - borderX)) (Z.max 0 (h - borderY - d_buttons d)) d.

(** [_saveStatus]; [parseInt] of a half pixel. *)
Definition _saveStatus (d : dialog) : dialog :=
set_saved (d_width d, body_height (d_content d) (d_buttons d),
           Z.quot (d_left2 d) 2, Z.quot (d_top2 d) 2) d.

(** The window without the task bar: width, height, top. *)
Definition full_place (w : win) : Z * Z * Z :=
if taskbar w then (win_w, win_h - bar_h, if bar_top then bar_h else 0) else (win_w, win_h, 0).

Definition doMax (slide : bool) (k : desk) (d : dialog) : dialog :=
let '(w, h, t) := full_place (the_win k) in
if slide then animate_place w h 0 t d else set_place w h 0 t d.

(** ** Resizing with the mouse *)

(** What [_applyResize] of the resizing left in [g.current]. *)
Definition diff_of (letter : string) (v : option Z) (c : resizing) : option Z :=
if changes letter (z_dir c) then v else None.
Definition new_size (letter ch : string) (old : Z) (v : option Z) (c : resizing) : option Z :=
if changes letter (z_dir c)
then plus old (if bool_decide (indexOf ch (z_dir c) = -1) then v else Z.opp <$> v) else None.

(** [if (v) f(v)]: zero and NaN count for nothing. *)
Definition when (v : option Z) (f : Z -> dialog -> dialog) (d : dialog) : dialog :=
match v with Some x => if x =? 0 then d else f x d | None => d end.

(** The [onStopResize] of a dialog, which sets the sizes itself and returns
  [false]. *)
Definition stop_resize (c : resizing) (d : dialog) : dialog :=
let left := Z.quot (d_left2 d) 2 in
let top := Z.quot (d_top2 d) 2 in
let d := when (diff_of "l" (z_diffX c) c) (fun x => _setLeft (left + x)) d in
let d := when (diff_of "t" (z_diffY c) c) (fun y => _setTop (top + y)) d in
let d := when (new_size "w" "w" (b_width (z_box c)) (z_diffX c) c) _setWidth d in
let d := when (new_size "h" "n" (b_height (z_box c)) (z_diffY c) c) _setHeight d in
_saveStatus d.

(** ** Largest and smallest *)

Definition with_dialog (id : string) (k : desk) (f : dialog -> desk) : desk :=
match oget id (dialogs k) with Some d => f d | None => k end.

Definition disable_fold (f : fold) : fold := Fold (f_extend f) true.
Definition enable_fold (f : fold) : fold := Fold (f_extend f) false.

Definition max (id : string) (k : desk) : desk :=
with_dialog id k (fun d =>
  match d_max d with
  | None => k
  | Some _ =>
      let d := set_tools (Some true) (d_fold d) (d_min d) (d_drag d) (d_resize d) d in
      let d := doMax (o_slide (d_opts d)) k d in
      let d := set_tools (d_max d) (disable_fold <$> d_fold d) (d_min d)
                 ((fun _ => true) <$> d_drag d) ((fun _ => true) <$> d_resize d) d in
      set_maxers (maxers k ++ [id])%list (put id (set_maximum true d) k)
  end).

(** [recover] also takes the [resize.dialogmax] handlers of every other dialog off
  the window. *)
Definition recover (id : string) (k : desk) : desk :=
with_dialog id k (fun d =>
  let '(w, h, l, t) := d_saved d in
  let '(d, ms) :=
    match d_max d with
    | None => (d, maxers k)
    | Some _ =>
        let d := set_tools (Some false) (d_fold d) (d_min d) (d_drag d) (d_resize d) d in
        let d := if o_slide (d_opts d) then animate_place w h l t d else set_place w h l t d in
        (set_tools (d_max d) (enable_fold <$> d_fold d) (d_min d) (d_drag d) (d_resize d) d, [])
    end in
  let d := set_tools (d_max d) (d_fold d) (d_min d) ((fun _ => false) <$> d_drag d)
             ((fun _ => false) <$> d_resize d) d in
  set_maxers ms (put id (set_maximum false d) k)).

(** The window was resized. *)
Definition window_resized (k : desk) : desk :=
fold_left (fun k id => with_dialog id k (fun d => put id (doMax false k d) k)) (maxers k) k.

(** [min]: without a task the place to go to is a property of nothing. *)
Definition min (id : string) (k : desk) : res desk :=
match oget id (dialogs k) with
| None => Ok k
| Some d =>
    k ← (if o_slide (d_opts d) then
           _ ← of_option (getTask id (the_win k));
           let '(x, y) := task_place id in
           Ok (add_later (LHide id) (put id (set_geometry (2 * x) (2 * y) 1 (d_content d) d) k))
         else Ok (put id (set_visible false d) k));
    let k := unmask_of id d k in
    Ok (with_dialog id k (fun d => put id (set_minimize true false d) k))
end.

(** [show] *)
Definition show (id : string) (k : desk) : desk :=
with_dialog id k (fun d =>
  add_later (LFront id) (put id (set_visible true d) (mask_of d k))).

Definition front_now (id : string) (k : desk) : desk :=
set_win (setFront id (map fst (dialogs k)) (the_win k)) k.

Definition active (id : string) (k : desk) : desk :=
with_dialog id k (fun d =>
  let d :=
    if d_minimize d then
      let '(w, h, l, t) := d_saved d in
      let '(w, h, l, t) :=
        if d_maximum d then let '(w, h, t) := full_place (the_win k) in (w, h, 0, t)
        else (w, h, l, t) in
      if o_slide (d_opts d)
      then set_geometry (2 * l) (2 * t) (Z.max 0 (w - borderX)) (d_content d) d
      else set_place w h l t d
    else d in
  show id (front_now id (put id (set_minimize false true d) k))).

(** ** Folding *)

Definition collapse (d : dialog) : dialog :=
match d_fold d with
| None => d
| Some f => set_tools (d_max d) (d_fold d) (d_min d) (d_drag d) ((fun _ => true) <$> d_resize d)
              (set_geometry (d_left2 d) (d_top2 d) (d_width d) 1 d)
end.

Definition extend (d : dialog) : dialog :=
match d_fold d with
| None => d
| Some f =>
    let h := (d_saved d).1.1.2 - borderY - d_buttons d in
    let h := if o_slide (d_opts d) then Z.max 0 h else size_set (d_content d) h in
    set_tools (d_max d) (d_fold d) (d_min d) (d_drag d) ((fun _ => false) <$> d_resize d)
      (set_geometry (d_left2 d) (d_top2 d) (d_width d) h d)
end.

(** [toggle], which leaves the button as it is. *)
Definition toggle (d : dialog) : dialog :=
match d_fold d with
| None => d
| Some f => if f_extend f then extend d else collapse d
end.

(** The click of the fold button; [veto] says which events are refused. *)
Definition click_fold (veto : string -> bool) (d : dialog) : dialog :=
match d_fold d with
| None => d
| Some f =>
    if f_disabled f then d
    else if f_extend f then
      if veto "extend" then d
      else extend (set_tools (d_max d) (Some (Fold false false)) (d_min d) (d_drag d) (d_resize d) d)
    else
      if veto "collapse" then d
      else collapse (set_tools (d_max d) (Some (Fold true false)) (d_min d) (d_drag d) (d_resize d) d)
end.

(** ** Closing *)

Definition slides_away (d : dialog) : bool := o_showType (d_opts d) && o_fixed (d_opts d).

Definition _removeDialog (id : string) (k : desk) : desk :=
with_dialog id k (fun d =>
  if slides_away d then add_later (LRemove id) k else put id (set_dom false false d) k).

(** [close] leaves the dialog in the pool, and takes the key handlers of every
  dialog away. *)
Definition close (id : string) (k : desk) : desk :=
with_dialog id k (fun d =>
  let k := set_win (removeTask id (the_win k)) k in
  let k := unmask_of id d k in
  set_keys [] (_removeDialog id k)).

Definition hidden (id : string) (k : desk) : desk :=
with_dialog id k (fun d =>
  let k := set_win (removeTask id (the_win k)) k in
  let k := put id (set_visible false d) k in
  unmask_of id d k).

(** The close button. *)
Definition click_close (id : string) (k : desk) : desk :=
with_dialog id k (fun d => if o_isHidden (d_opts d) then hidden id k else close id k).

Definition closes_on_enter (d : dialog) : bool :=
match o_closeWhenEnter (d_opts d) with
| Some b => b
| None => match d_type d with
          | Some t => bool_decide (t ∈ ["warn"; "error"; "success"; "question"])
          | None => false end
end.

Definition enter (id : string) (k : desk) : desk :=
with_dialog id k (fun d => if closes_on_enter d then close id k else k).

(** A key: every handler there was when it came is run. *)
Definition key (which : Z) (k : desk) : desk :=
if which =? 13 then fold_left (fun k id => enter id k) (keys k) k else k.

(** ** What comes later *)

Definition do_later (l : later) (k : desk) : desk :=
match l with
| LHide id => with_dialog id k (fun d => put id (set_visible false d) k)
| LRemove id => with_dialog id k (fun d => put id (set_dom false false d) k)
| LFront id => front_now id k
| LDestroy id => Desk (odel id (dialogs k)) (the_win k) (keys k) (maxers k) (laters k)
end.

(** ** Making a dialog *)

(** [_setShowMax], [_setShowToggle], [_setShowMin] *)
Definition _setShowMax (v : bool) (d : dialog) : dialog :=
set_tools (if v then match d_max d with Some b => Some b | None => Some false end else None)
  (d_fold d) (d_min d) (d_drag d) (d_resize d) d.
Definition _setShowToggle (v : bool) (d : dialog) : dialog :=
set_tools (d_max d)
  (if v then match d_fold d with Some f => Some f | None => Some (Fold false false) end else None)
  (d_min d) (d_drag d) (d_resize d) d.
Definition _setShowMin (id : string) (v : bool) (d : dialog) (w : win) : dialog * win :=
if v then
  (set_tools (d_max d) (d_fold d) true (d_drag d) (d_resize d) d,
   if d_min d then w else addTask id w)
else (set_tools (d_max d) (d_fold d) false (d_drag d) (d_resize d) d, w).

(** [p.type]: a dialog with a target, a page or no type has none. *)
Definition type_of (o : dialog_options) : option string :=
if o_target o || o_url o || bool_decide (o_type o = Some "none") then None else o_type o.

(** The middle of the window, in half pixels, but not before its start. *)
Definition first_place (o : dialog_options) (d : dialog) : dialog :=
if o_fixed o then d
else
  let w := match o_width o with Some w => if w =? 0 then d_width d + borderX else w
                               | None => d_width d + borderX end in
  let l := match o_left o with Some l => 2 * l | None => win_w - w end in
  let t := match o_top o with Some t => 2 * t
                             | None => win_h - natural_height o + 2 * (scrollTop - 10) end in
  set_geometry (Z.max 0 l) (Z.max 0 t) (d_width d) (d_content d) d.

(** The height is set while the bar of buttons is still empty. *)
Definition new_dialog (o : dialog_options) : dialog :=
let d := Dlg o (type_of o) true true 0 0 (natural_width o) (natural_content o) empty_bar (0, 0, 0, 0)
           None None false None None false false false in
let d := match o_width o with Some w => _setWidth w d | None => d end in
let d := match o_height o with Some h => _setHeight h d | None => d end in
set_bar (buttons_height o) d.

(** [_render] *)
Definition render (id : string) (o : dialog_options) (k : desk) : desk :=
let d := _setShowToggle (o_showToggle o) (_setShowMax (o_showMax o) (new_dialog o)) in
let '(d, w) := _setShowMin id (o_showMin o) d (the_win k) in
let d := set_tools (d_max d) (d_fold d) (d_min d)
           (if o_isDrag o then Some false else None) (if o_isResize o then Some false else None) d in
let k := mask_of d (set_win w k) in
let '(d, k) := if o_show o then (d, k) else (set_visible false d, unmask_of id d k) in
let k := put id (first_place o d) k in
let k := show id k in
let k := set_keys (keys k ++ [id])%list k in
with_dialog id k (fun d => put id (_saveStatus d) k).

(** ** The functions of [$.ligerDialog] *)

Definition open (id : string) (o : dialog_options) (k : desk) : desk := render id o k.

(** [$.ligerDialog.close]: the dialogs go in 5 ms; the mask is asked to go now. *)
Definition close_all (k : desk) : desk :=
let k := set_laters (laters k ++ map (fun q => LDestroy q.1) (dialogs k))%list k in
set_win (unmask None (visible_windows k) (the_win k)) k.

Definition hide_all (k : desk) : desk :=
fold_left (fun k id => hidden id k) (okeys (dialogs k)) k.

(** [$.ligerDialog.show]: the first dialog of the pool is shown. *)
Definition show_first (id : string) (o : dialog_options) (k : desk) : desk :=
match dialogs k with
| (first, _) :: _ => show first k
| [] => open id o k
end.

Definition closeWaitting (k : desk) : desk :=
fold_left (fun k q => if o_waitting (d_opts q.2) then close q.1 k else k) (dialogs k) k.
End dialogs.

(** ** Dialogs from a message *)

(** An argument: nothing, a text, a function, a truth value. *)
Inductive arg := AUndef | AStr (s : string) | AFun (f : positive) | ABool (b : bool).

Definition arg_fun (a : arg) : option positive := match a with AFun f => Some f | _ => None end.
Definition arg_text (a : arg) : option string :=
  match a with AStr s => truthy_str (Some s) | _ => None end.

(** [$.ligerDefaults.Dialog]; [slide] is off in Internet Explorer. *)
Definition defaults (slide : bool) : dialog_options :=
  DialogOptions true true slide true (Some 280) None None None (Some "none") false false
    false false false true false None false false false "提示" "" [].

(** The options with a title, a type and a size where they are given. *)
Definition with_message (title type_ : option string) (content : string) (size : option (Z * Z))
    (target : bool) (width : option Z) (buttons : list dbutton) (o : dialog_options)
    : dialog_options :=
  DialogOptions (o_modal o) (o_show o) (o_slide o) (o_isHidden o)
    (match size with Some (w, _) => Some w | None => match width with Some w => Some w | None => o_width o end end)
    (match size with Some (_, h) => Some h | None => o_height o end)
    (o_left o) (o_top o) (match type_ with Some t => Some t | None => o_type o end)
    target (o_url o) false false false (o_isDrag o) (o_isResize o) (o_closeWhenEnter o)
    (o_fixed o) (o_showType o) (o_waitting o) (default (o_title o) title) content buttons.

Definition ok : string := "确定".
Definition yes : string := "是".
Definition no : string := "否".
Definition cancel : string := "取消".

(** What a message dialog is: its options, and the callback its buttons call. *)
Record message_dialog := MessageDialog { md_options : dialog_options; md_callback : option positive }.

Definition alert (slide : bool) (content : option string) (title type_ callback : arg)
    (size : option (Z * Z)) : message_dialog :=
  let '(type_, cb) :=
    match title with
    | AFun f => (AUndef, Some f)
    | _ => (type_, match type_ with AFun f => Some f | _ => arg_fun callback end)
    end in
  let size := match size with
              | Some (w, h) => if (w =? 0) || (h =? 0) then None else Some (w, h)
              | None => None end in
  MessageDialog (with_message (arg_text title) (arg_text type_) (default "" content) size false None
                   [DButton ok ""] (defaults slide)) cb.

Definition confirm (slide : bool) (content : string) (title callback : arg) : message_dialog :=
  MessageDialog (with_message (arg_text title) (Some "question") content None false None
                   [DButton yes "ok"; DButton no "no"] (defaults slide))
    (match title with AFun f => Some f | _ => arg_fun callback end).

Definition warning (slide : bool) (content : string) (title callback : arg) : message_dialog :=
  MessageDialog (with_message (arg_text title) (Some "question") content None false None
                   [DButton yes "yes"; DButton no "no"; DButton cancel "cancel"] (defaults slide))
    (match title with AFun f => Some f | _ => arg_fun callback end).

(** [prompt]: the dialog, the text the field starts with, whether it has lines. *)
Definition prompt (slide : bool) (title : string) (value multi callback : arg)
    : message_dialog * string * bool :=
  let cb := match value with
            | AFun f => Some f
            | _ => match multi with AFun f => Some f | _ => arg_fun callback end end in
  let multi := match value with ABool b => ABool b | _ => multi end in
  (MessageDialog (with_message (Some title) None "" None true (Some 320)
                    [DButton ok "yes"; DButton cancel "cancel"] (defaults slide)) cb,
   match value with AStr v => v | _ => "" end,
   match multi with ABool b => b | _ => false end).

(** [success], [error], [errorTab], [warn], [question] *)
Definition success slide content title f := alert slide content title (AStr "success") f None.
Definition error slide content title f := alert slide content title (AStr "error") f None.
Definition errorTab slide content title f w h := alert slide content title (AStr "error") f (Some (w, h)).
Definition warn slide content title f := alert slide content title (AStr "warn") f None.
Definition question slide content title := alert slide content title (AStr "question") AUndef None.

(** [waitting]: without a title it reads a text where there is none. *)
Definition waitting (slide : bool) (title : option string) : dialog_options :=
  let o := with_message None (Some "none")
             ("<div style=" ++ String "034" "padding:4px" ++ String "034" ">"
              ++ default "undefined" (truthy_str title) ++ "</div>") None false None [] (defaults slide) in
  DialogOptions (o_modal o) (o_show o) (o_slide o) (o_isHidden o) (o_width o) (o_height o) (o_left o)
    (o_top o) (o_type o) (o_target o) (o_url o) (o_showMax o) (o_showMin o) (o_showToggle o)
    (o_isDrag o) (o_isResize o) (o_closeWhenEnter o) (o_fixed o) (o_showType o) true (o_title o)
    (o_content o) (o_buttons o).

(** [tip] of the user's content, title and size. *)
Definition tip (slide : bool) (content title : option string) (width height : option Z) (modal : bool)
    : dialog_options :=
  DialogOptions modal true slide true (Some (default 240 width)) (Some (default 100 height)) None None
    (Some "none") false false false false false false false None true true false
    (default "提示" title) (default "" content) [].

(** What a button of a message dialog tells the callback, after it closed the
    dialog. *)
Inductive told := ToldButton (index : nat) | ToldBool (b : bool) | ToldType (t : string)
| ToldValue (b : bool) (value : string).

Inductive message_kind := KAlert | KConfirm | KWarning | KPrompt.

Definition button_tells (k : message_kind) (i : nat) (b : dbutton) (value : string) : told :=
  match k with
  | KAlert => ToldButton i
  | KConfirm => ToldBool (String.eqb (db_type b) "ok")
  | KWarning => ToldType (db_type b)
  | KPrompt => ToldValue (String.eqb (db_type b) "yes") value
  end.

(** The click of button [i]: the dialog is closed, the callback is called. *)
Definition click_button (id : string) (kd : message_kind) (m : message_dialog) (i : nat)
    (value : string) (k : desk) : desk * option (positive * told) :=
  match o_buttons (md_options m) !! i with
  | None => (k, None)
  | Some b => (close id k, (fun f => (f, button_tells kd i b value)) <$> md_callback m)
  end.

(** ** The mask *)

Local Close Scope string_scope.

Section mask.
Context (win_w win_h scrollTop bar_h : Z) (bar_top : bool) (body_height : Z -> Z -> Z).
Context (natural_height natural_content natural_width buttons_height : dialog_options -> Z).
Context (empty_bar : Z) (task_place : string -> Z * Z).

Local Abbreviation do_render := (render win_w win_h scrollTop body_height natural_height natural_content
  natural_width buttons_height empty_bar).
Local Abbreviation do_max := (max win_w win_h bar_h bar_top).
Local Abbreviation do_active := (active win_w win_h bar_h bar_top).

(** What users, handlers and timers do to the dialogs. *)
Inductive desk_step (k : desk) : desk -> Prop :=
| ds_open id o : desk_step k (do_render id o k)
| ds_max id : desk_step k (do_max id k)
| ds_recover id : desk_step k (recover id k)
| ds_resized : desk_step k (window_resized win_w win_h bar_h bar_top k)
| ds_min id k' : min task_place id k = Ok k' -> desk_step k k'
| ds_active id : desk_step k (do_active id k)
| ds_show id : desk_step k (show id k)
| ds_hidden id : desk_step k (hidden id k)
| ds_close id : desk_step k (close id k)
| ds_fold id veto : desk_step k (with_dialog id k (fun d => put id (click_fold veto d) k))
| ds_key which : desk_step k (key which k)
| ds_hide_all : desk_step k (hide_all k)
| ds_close_all : desk_step k (close_all k)
| ds_closeWaitting : desk_step k (closeWaitting k)
| ds_unmask : desk_step k (set_win (unmask None (visible_windows k) (the_win k)) k)
| ds_later l1 l l2 : laters k = l1 ++ l :: l2 -> desk_step k (do_later l (set_laters (l1 ++ l2) k)).

Definition empty_desk : desk := Desk [] empty_win [] [] [].

(** A modal dialog that is seen. *)
Definition seen_modal (d : dialog) : bool := d_dom d && d_visible d && o_modal (d_opts d).

(** It is not about to go at the end of an animation. *)
Definition staying (id : string) (k : desk) : Prop :=
  LHide id ∉ laters k /\ LRemove id ∉ laters k.

(** Every dialog but those in [but] is masked if it is seen and stays. *)
Definition masked_but (but : string -> Prop) (k : desk) : Prop :=
  forall id d, oget id (dialogs k) = Some d -> seen_modal d = true -> staying id k -> ~ but id ->
  masking (the_win k) = true.
Local Abbreviation masked := (masked_but (fun _ => False)).

Lemma masked_weaken b k : masked k -> masked_but b k.
Proof. intros H id d H1 H2 H3 _. eapply H; eauto. Qed.

Lemma masked_put id d b k :
  masked_but (fun i => b i \/ i = id) k ->
  (seen_modal d = true -> staying id k -> masking (the_win k) = true) ->
  masked_but b (put id d k).
Proof.
  intros H Hd i d' Hi Hs Hst Hb. cbn in *. destruct (decide (i = id)) as [->|Hne].
  - rewrite oget_oset_eq in Hi. injection Hi as ->. by apply Hd.
  - rewrite oget_oset_ne in Hi by done. eapply (H i); eauto. tauto.
Qed.

(** Changing what does not show keeps the mask. *)
Lemma masked_same id d d' k :
  oget id (dialogs k) = Some d -> (seen_modal d' = true -> seen_modal d = true) ->
  masked k -> masked (put id d' k).
Proof.
  intros Hi Hs H. apply masked_put; [by apply masked_weaken|].
  intros H1 H2. eapply H; eauto.
Qed.

(** The window layer changed, but not the mask; or it is shown now. *)
Lemma masked_win b w k :
  (masking (the_win k) = true -> masking w = true) -> masked_but b k -> masked_but b (set_win w k).
Proof. intros Hw H id d H1 H2 H3 H4. apply Hw. eapply H; eauto. Qed.

(** [unmask] hides the mask only if no other modal dialog is seen. *)
Lemma masked_unmask own b k :
  (forall id, own = Some id -> b id) ->
  masked_but b k ->
  masked_but b (set_win (unmask own (visible_windows k) (the_win k)) k).
Proof.
  intros Ho H id d H1 H2 H3 H4. unfold unmask. cbn [set_win the_win].
  set (others := List.filter _ _). destruct (existsb w_modal others) eqn:E; [eapply H; eauto|].
  exfalso. cut (existsb w_modal others = true); [congruence|]. apply existsb_exists.
  unfold seen_modal in H2. apply andb_true_iff in H2 as [Hdv Hm].
  exists (Window id (o_modal (d_opts d))). split; [|done].
  apply filter_In. split; [|apply negb_true_iff, bool_decide_eq_false; intros E'; by apply H4, Ho].
  unfold visible_windows. apply in_map_iff. exists (id, d). split; [done|].
  apply filter_In. split; [|done]. apply list_elem_of_In. by apply oget_Some_in.
Qed.

Lemma masked_unmask_of id d b k :
  b id -> masked_but b k -> masked_but b (unmask_of id d k).
Proof.
  intros Hb H. unfold unmask_of. destruct (o_modal _); [|done].
  apply masked_unmask; [by intros ? [= ->]|done].
Qed.

Lemma masked_keys b ks k : masked_but b k -> masked_but b (set_keys ks k).
Proof. intros H. exact H. Qed.

(** The handlers do not matter; what is under way may only grow. *)
Lemma masked_frame b ks ms k : masked_but b k -> masked_but b (set_maxers ms (set_keys ks k)).
Proof. intros H. exact H. Qed.

Lemma masked_add_later b l k : masked_but b k -> masked_but b (add_later l k).
Proof.
  intros H id d H1 H2 [H3 H4] H5. cbn in *. eapply H; eauto.
  rewrite elem_of_app in H3, H4. split; tauto.
Qed.

Lemma masking_addTask id w : masking (addTask id w) = masking w.
Proof.
  unfold addTask. destruct (taskbar w) eqn:E; [|unfold createTaskbar; rewrite E]; case_match; done.
Qed.
Lemma masking_removeTask id w : masking (removeTask id w) = masking w.
Proof. unfold removeTask. destruct (negb (taskbar w)); [done|]. cbn zeta. by case_match. Qed.
Lemma masking_setFront id l w : masking (setFront id l w) = masking w.
Proof. unfold setFront. by case_match. Qed.

Lemma masked_with_dialog id k f :
  masked k -> (forall d, oget id (dialogs k) = Some d -> masked (f d)) -> masked (with_dialog id k f).
Proof. intros H Hf. unfold with_dialog. destruct (oget id (dialogs k)); [by apply Hf|done]. Qed.

Lemma masked_show id k : masked k -> masked (show id k).
Proof.
  intros H. apply masked_with_dialog; [done|]. intros d Hd. apply masked_add_later.
  unfold mask_of. destruct (o_modal (d_opts d)) eqn:Em.
  - intros i d' _ _ _ _. done.
  - apply masked_put; [by apply masked_weaken|]. unfold seen_modal. cbn. by rewrite Em, andb_false_r.
Qed.

Lemma masked_restore id k :
  masked_but (fun i => i = id) k ->
  (forall d, oget id (dialogs k) = Some d -> seen_modal d = true -> ~ staying id k) -> masked k.
Proof.
  intros H Hid i d H1 H2 H3 _. destruct (decide (i = id)) as [->|Hne]; [|by eapply (H i)].
  exfalso. by eapply Hid.
Qed.

Lemma dialogs_unmask_of id d k : dialogs (unmask_of id d k) = dialogs k.
Proof. unfold unmask_of. by case_match. Qed.
Lemma laters_unmask_of id d k : laters (unmask_of id d k) = laters k.
Proof. unfold unmask_of. by case_match. Qed.

Lemma unmask_of_later id d l k : unmask_of id d (add_later l k) = add_later l (unmask_of id d k).
Proof. unfold unmask_of. by case_match. Qed.

(** A dialog that is taken away or hidden takes the mask along. *)
Lemma masked_leave id d d' k :
  seen_modal d' = false -> masked k -> masked (unmask_of id d (put id d' k)).
Proof.
  intros Hs H. apply (masked_restore id).
  - apply masked_unmask_of; [done|]. apply masked_put; [by apply masked_weaken|]. by rewrite Hs.
  - rewrite dialogs_unmask_of. cbn. intros d0. rewrite oget_oset_eq. intros [= <-]. by rewrite Hs.
Qed.

Lemma masked_leave_later id d l k :
  l = LHide id \/ l = LRemove id -> masked k -> masked (add_later l (unmask_of id d k)).
Proof.
  intros Hl H. apply (masked_restore id).
  - apply masked_add_later, masked_unmask_of; [done|by apply masked_weaken].
  - intros d0 _ _ [H1 H2]. cbn in H1, H2. rewrite elem_of_app in H1, H2.
    destruct Hl as [->| ->]; [apply H1|apply H2]; right; left.
Qed.

Lemma seen_modal_hidden d : seen_modal (set_visible false d) = false.
Proof. unfold seen_modal. cbn. by rewrite andb_false_r. Qed.

Lemma masked_hidden id k : masked k -> masked (hidden id k).
Proof.
  intros H. apply masked_with_dialog; [done|]. intros d Hd. cbn zeta.
  apply masked_leave; [apply seen_modal_hidden|].
  apply masked_win; [|done]. by rewrite masking_removeTask.
Qed.

Lemma masked_close id k : masked k -> masked (close id k).
Proof.
  intros H. apply masked_with_dialog; [done|]. intros d Hd. cbn zeta.
  assert (masked (set_win (removeTask id (the_win k)) k)) as H1.
  { apply masked_win; [|done]. by rewrite masking_removeTask. }
  set (k1 := set_win _ k) in *.
  assert (oget id (dialogs k1) = Some d) as Hd1 by done. clearbody k1.
  apply masked_keys. unfold _removeDialog, with_dialog. rewrite dialogs_unmask_of, Hd1.
  destruct (slides_away d).
  - apply masked_leave_later; [by right|done].
  - apply (masked_restore id).
    + apply masked_put; [|done]. apply masked_unmask_of; [by left|by apply masked_weaken].
    + cbn. intros d0. rewrite oget_oset_eq. by intros [= <-].
Qed.

Lemma masked_fold {A} (f : desk -> A -> desk) l k :
  (forall k a, masked k -> masked (f k a)) -> masked k -> masked (fold_left f l k).
Proof. intros Hf. revert k. induction l as [|a l IH]; cbn; auto. Qed.

Lemma masked_key which k : masked k -> masked (key which k).
Proof.
  intros H. unfold key. case_match; [|done]. apply masked_fold; [|done].
  intros k' id H'. apply masked_with_dialog; [done|]. intros d _. case_match; [by apply masked_close|done].
Qed.

(** Sizes, places, tools and marks do not show. *)
Definition same_seen (d d' : dialog) : Prop :=
  d_dom d' = d_dom d /\ d_visible d' = d_visible d /\ d_opts d' = d_opts d.

Lemma same_seen_modal d d' : same_seen d d' -> seen_modal d' = seen_modal d.
Proof. intros (H1 & H2 & H3). unfold seen_modal. by rewrite H1, H2, H3. Qed.

Lemma same_seen_refl d : same_seen d d.
Proof. by split_and!. Qed.
Lemma same_seen_trans d1 d2 d3 : same_seen d1 d2 -> same_seen d2 d3 -> same_seen d1 d3.
Proof. unfold same_seen. naive_solver congruence. Qed.

Lemma set_place_seen w h l t d : same_seen d (set_place w h l t d).
Proof. unfold set_place, _setHeight, _setWidth. by repeat case_match. Qed.
Lemma doMax_seen sl k d : same_seen d (doMax win_w win_h bar_h bar_top sl k d).
Proof.
  unfold doMax. destruct (full_place _ _ _ _ _) as [[w h] t]. destruct sl; [done|apply set_place_seen].
Qed.
Lemma click_fold_seen veto d : same_seen d (click_fold veto d).
Proof. unfold click_fold, extend, collapse. repeat case_match; try done; by repeat case_match. Qed.

Lemma masked_same_seen id d d' k :
  oget id (dialogs k) = Some d -> same_seen d d' -> masked k -> masked (put id d' k).
Proof. intros Hi Hs. eapply masked_same; [done|]. by rewrite (same_seen_modal d d'). Qed.

Lemma masked_max id k : masked k -> masked (do_max id k).
Proof.
  intros H. apply masked_with_dialog; [done|]. intros d Hd. destruct (d_max d); [|done].
  cbn zeta. apply (masked_frame _ (keys k)). eapply masked_same_seen; [done| |done].
  eapply same_seen_trans; [|by split_and!]. apply (doMax_seen (o_slide (d_opts d)) k
    (set_tools (Some true) (d_fold d) (d_min d) (d_drag d) (d_resize d) d)).
Qed.

Lemma masked_recover id k : masked k -> masked (recover id k).
Proof.
  intros H. apply masked_with_dialog; [done|]. intros d Hd.
  destruct (d_saved d) as [[[w h] l] t]. destruct (d_max d); cbn zeta;
    apply (masked_frame _ (keys k)); (eapply masked_same_seen; [done| |done]); [|done].
  case_match; [done|]. eapply same_seen_trans; [|by split_and!].
  eapply same_seen_trans; [|apply set_place_seen]. done.
Qed.

Lemma masked_resized k : masked k -> masked (window_resized win_w win_h bar_h bar_top k).
Proof.
  intros H. apply masked_fold; [|done]. intros k' id H'. apply masked_with_dialog; [done|].
  intros d Hd. eapply masked_same_seen; [done|apply doMax_seen|done].
Qed.

Lemma masked_min id k k' : min task_place id k = Ok k' -> masked k -> masked k'.
Proof.
  unfold min. destruct (oget id (dialogs k)) as [d|] eqn:Hd; [|by intros [= <-]].
  intros (k1 & H1 & [= <-])%res_bind_ok H.
  assert (masked (unmask_of id d k1)) as H2.
  { destruct (o_slide (d_opts d)).
    - apply res_bind_ok in H1 as (tk & _ & H1). destruct (task_place id) as [x y].
      injection H1 as <-.
      rewrite unmask_of_later. apply masked_leave_later; [by left|].
      by eapply masked_same_seen.
    - injection H1 as <-. apply masked_leave; [apply seen_modal_hidden|done]. }
  apply masked_with_dialog; [done|]. intros d' Hd'. by eapply masked_same_seen.
Qed.

Lemma masked_active id k : masked k -> masked (do_active id k).
Proof.
  intros H. apply masked_with_dialog; [done|]. intros d Hd. apply masked_show.
  apply masked_win; [by rewrite masking_setFront|]. eapply masked_same_seen; [done| |done].
  destruct (d_minimize d); [|done].
  destruct (d_saved d) as [[[w h] l] t]. destruct (d_maximum d).
  - destruct (full_place _ _ _ _ _) as [[w' h'] t']. case_match; [done|].
    eapply same_seen_trans; [apply set_place_seen|done].
  - case_match; [done|]. eapply same_seen_trans; [apply set_place_seen|done].
Qed.

Lemma masked_later l1 l l2 k :
  laters k = l1 ++ l :: l2 -> masked k -> masked (do_later l (set_laters (l1 ++ l2) k)).
Proof.
  intros El H. assert (forall id, l <> LHide id -> l <> LRemove id ->
    staying id (set_laters (l1 ++ l2) k) -> staying id k) as Hst.
  { unfold staying. rewrite El. intros id N1 N2. cbn. rewrite !elem_of_app, !elem_of_cons. naive_solver. }
  assert (forall b, (forall id, l = LHide id \/ l = LRemove id -> b id) ->
    masked_but b (set_laters (l1 ++ l2) k)) as Hb.
  { intros b Hb id d H1 H2 H3 H4. eapply (H id); eauto. apply Hst; [..|done]; intros ->; eauto. }
  assert (forall id d', l = LHide id \/ l = LRemove id -> seen_modal d' = false ->
    masked (put id d' (set_laters (l1 ++ l2) k))) as Hp.
  { intros id d' Hl Hs. apply masked_put; [|by rewrite Hs]. apply Hb.
    intros i [->| ->]; destruct Hl as [[= ->]|[= ->]]; by right. }
  assert (forall id, (l = LHide id \/ l = LRemove id) -> oget id (dialogs k) = None ->
    masked (set_laters (l1 ++ l2) k)) as Hn.
  { intros id Hl Ho. apply (masked_restore id); [apply Hb; naive_solver|]. cbn. by rewrite Ho. }
  destruct l as [id|id|id|id]; cbn [do_later].
  - unfold with_dialog. cbn [dialogs set_laters]. destruct (oget id (dialogs k)) eqn:E; [|by eapply Hn; eauto].
    apply Hp; [by left|apply seen_modal_hidden].
  - unfold with_dialog. cbn [dialogs set_laters]. destruct (oget id (dialogs k)) eqn:E; [|by eapply Hn; eauto].
    apply Hp; [by right|done].
  - apply masked_win; [by rewrite masking_setFront|]. apply Hb. naive_solver.
  - intros i d H1 H2 H3 _. change (oget i (odel id (dialogs k)) = Some d) in H1.
    assert (i <> id) by (intros ->; by rewrite oget_odel_eq in H1). rewrite oget_odel_ne in H1 by done.
    exact (Hb (fun _ => False) ltac:(naive_solver) i d H1 H2 H3 (fun x => x)).
Qed.

(** What a new dialog looks like before it is shown. *)
Lemma first_place_seen o d : same_seen d (first_place win_w win_h scrollTop natural_height o d).
Proof. unfold first_place. by case_match. Qed.

Lemma masked_render id o k : masked k -> masked (do_render id o k).
Proof.
  intros H. unfold render. cbn zeta.
  set (d0 := _setShowToggle _ _). destruct (_setShowMin id (o_showMin o) d0 (the_win k)) as [d1 w] eqn:E1.
  assert (masking w = masking (the_win k)) as Hw.
  { unfold _setShowMin in E1. repeat case_match; simplify_eq; [done|apply masking_addTask|done]. }
  set (d2 := set_tools _ _ _ _ _ d1).
  assert (masked (mask_of d2 (set_win w k))) as Hm.
  { unfold mask_of. destruct (o_modal _); [by intros ? ? _ _ _ _|].
    apply masked_win; [by rewrite Hw|done]. }
  set (k1 := mask_of d2 _) in *.
  set (q := if o_show o then _ else _).
  assert (masked (put id (first_place win_w win_h scrollTop natural_height o q.1) q.2)) as Hp.
  { subst q. destruct (o_show o) eqn:Es; cbn [fst snd].
    - apply masked_put; [by apply masked_weaken|]. rewrite (same_seen_modal _ _ (first_place_seen o d2)).
      intros Hs _. subst k1. unfold mask_of. unfold seen_modal in Hs.
      apply andb_true_iff in Hs as [_ ->]. done.
    - apply masked_put; [apply masked_unmask_of; [by right|by apply masked_weaken]|].
      rewrite (same_seen_modal _ _ (first_place_seen o _)), seen_modal_hidden. discriminate. }
  destruct q as [d3 k2]. cbn [fst snd] in Hp.
  apply masked_with_dialog; [by apply masked_keys, masked_show|].
  intros d4 Hd4. eapply masked_same_seen; [done| |by apply masked_keys, masked_show]. done.
Qed.

Lemma masked_step k k' : desk_step k k' -> masked k -> masked k'.
Proof.
  intros Hs H. destruct Hs.
  - by apply masked_render.
  - by apply masked_max.
  - by apply masked_recover.
  - by apply masked_resized.
  - by eapply masked_min.
  - by apply masked_active.
  - by apply masked_show.
  - by apply masked_hidden.
  - by apply masked_close.
  - apply masked_with_dialog; [done|]. intros d Hd.
    eapply masked_same_seen; [done|apply click_fold_seen|done].
  - by apply masked_key.
  - apply masked_fold; [|done]. intros. by apply masked_hidden.
  - unfold close_all. cbn zeta. apply masked_unmask; [naive_solver|].
    intros i d H1 H2 [H3 H4] H5. cbn in *. eapply H; eauto.
    rewrite elem_of_app in H3, H4. split; tauto.
  - apply masked_fold; [|done]. intros k' q H'. case_match; [by apply masked_close|done].
  - by apply masked_unmask; [naive_solver|].
  - by eapply masked_later.
Qed.

(** C31: However dialogs are made, shown, hidden, closed, made large and small, with
    keys, timers and animations in any order, a modal dialog that is seen and not
    about to go has the page behind it masked. *)
Theorem modal_is_masked k id d :
  rtc desk_step empty_desk k -> oget id (dialogs k) = Some d -> seen_modal d = true ->
  staying id k -> masking (the_win k) = true.
Proof.
  intros Hr H1 H2 H3. assert (masked k) as H.
  { revert Hr. apply (rtc_ind_r (fun k => masked k)); [by intros ? ? ?|].
    intros y z _ Hs Hy. by eapply masked_step. }
  exact (H id d H1 H2 H3 (fun x => x)).
Qed.
End mask.

(** ** Sizes *)

Section sizes.
Context (win_w win_h bar_h : Z) (bar_top : bool) (body_height : Z -> Z -> Z).

(** The body is as high as its content and its buttons together. *)
Hypothesis layout : forall c b, body_height c b = c + b.

(** A dialog as a save of its state left it. *)
Definition saved_now (d : dialog) : Prop := d_saved d = d_saved (_saveStatus body_height d).

Lemma doMax_frame sl k d :
  exists l t w c, doMax win_w win_h bar_h bar_top sl k d = set_geometry l t w c d.
Proof.
  unfold doMax, set_place, _setHeight, _setWidth, animate_place.
  destruct (full_place _ _ _ _ _) as [[w h] t]. destruct sl; [by eauto|].
  repeat case_match; unfold _setTop, _setLeft; cbn; do 4 eexists; reflexivity.
Qed.

Lemma place_frame (sl : bool) w h l t d :
  borderX <= w -> borderY <= h -> 0 <= h - borderY - d_buttons d ->
  (if sl then animate_place w h l t d else set_place w h l t d)
  = set_geometry (2 * l) (2 * t) (w - borderX) (h - borderY - d_buttons d) d.
Proof.
  intros H1 H2 H3. unfold borderX, borderY in *. destruct sl.
  - unfold animate_place, borderX, borderY. by rewrite !Z.max_r by lia.
  - unfold set_place, _setHeight, _setWidth, borderX, borderY, size_set.
    repeat (case_match; zbool; cbn in *; try lia). reflexivity.
Qed.

(** Making a dialog large and taking it back leaves it where it was, to the whole
    pixel, but narrower by the border and lower by the head: its size is kept
    without them and set with them. *)
Theorem max_recover_shrinks id d k b :
  oget id (dialogs k) = Some d -> d_max d = Some b -> saved_now d ->
  borderX <= d_width d -> borderY <= d_content d -> 0 <= d_buttons d ->
  exists d', oget id (dialogs (recover id (max win_w win_h bar_h bar_top id k))) = Some d' /\
    d_width d' = d_width d - borderX /\ d_content d' = d_content d - borderY /\
    d_left2 d' = 2 * Z.quot (d_left2 d) 2 /\ d_top2 d' = 2 * Z.quot (d_top2 d) 2 /\
    d_maximum d' = false.
Proof.
  intros Hd Hm Hs Hw Hc Hb. unfold recover, max, with_dialog. rewrite Hd, Hm. cbn zeta.
  set (d1 := set_tools (Some true) _ _ _ _ d).
  destruct (doMax_frame (o_slide (d_opts d1)) k d1) as (l & t & w & c & ->). subst d1.
  cbn [dialogs set_maxers put]. rewrite oget_oset_eq. cbn [d_saved set_maximum set_tools set_geometry].
  rewrite Hs. cbn [d_saved _saveStatus set_saved d_max set_tools set_maximum].
  rewrite layout, place_frame; cbn; unfold borderX, borderY in *; [|lia..].
  rewrite oget_oset_eq. eexists. split; [reflexivity|]. cbn. split_and!; try done; lia.
Qed.
End sizes.

Definition made (id : string) (o : dialog_options) (k : desk) : desk :=
  render 1000 600 0 (fun c b => c + b) (fun _ => 150) (fun _ => 60) (fun _ => 200) (fun _ => 30) 0 id o k.
Definition plain : dialog_options := defaults false.

(** *** Resizing a dialog *)

Section resized.
Context (body_height : Z -> Z -> Z).

(** The borders of a dialog: left, right, top, bottom. *)
Definition dialog_borders (d : dialog) : Z * Z * Z * Z :=
let l := Z.quot (d_left2 d) 2 in let t := Z.quot (d_top2 d) 2 in
(l, l + (d_width d + borderX), t, t + (d_content d + d_buttons d + borderY)).

Lemma quot_2 x : Z.quot (2 * x) 2 = x.
Proof. rewrite Z.mul_comm. by apply Z.quot_mul. Qed.

(** When the resizing of a dialog ends, the dialog has moved the borders the
    handle names by the way of the mouse and no other, as long as its body and
    its content keep a size. *)
Theorem dialog_resize_borders c d l t dx dy :
  z_dir c ∈ the_handles -> z_diffX c = Some dx -> z_diffY c = Some dy ->
  d_left2 d = 2 * l -> d_top2 d = 2 * t ->
  b_width (z_box c) = d_width d + borderX ->
  b_height (z_box c) = d_content d + d_buttons d + borderY ->
  0 <= d_buttons d ->
  0 <= d_width d - on "w" (z_dir c) dx + on "e" (z_dir c) dx ->
  0 <= d_content d - on "n" (z_dir c) dy + on "s" (z_dir c) dy ->
  dialog_borders (stop_resize body_height c d) = drag_borders (z_dir c) dx dy (dialog_borders d).
Proof.
  destruct c as [dir b x y d1 d2]. cbn [z_dir z_diffX z_diffY z_box].
  intros Hd -> -> Hl Ht Hw Hh Hb. unfold stop_resize, diff_of, new_size, dialog_borders, drag_borders, on.
  cbn [z_dir z_diffX z_diffY z_box]. rewrite Hw, Hh, Hl, Ht, !quot_2.
  unfold _setWidth, _setHeight, _setLeft, _setTop, size_set, borderX, borderY in *.
  split_dirs Hd; decide_closed; cbn [plus mbind option_bind fmap option_fmap option_map when];
    intros H1 H2.
  all: repeat (case_match; zbool; cbn in *; try lia); rewrite ?Hl, ?Ht, ?quot_2;
    repeat apply (f_equal2 pair); lia.
Qed.
End resized.

Lemma dialog_resize_borders_witness :
  let d := Dlg plain None true true 80 60 200 100 30 (0, 0, 0, 0) None None false None (Some false)
             false false true in
  dialog_borders (stop_resize (fun c b => c + b)
    (Resizing "sw" (Box 40 30 212 162) 0 0 (Some 15) (Some 7)) d) = (55, 252, 30, 199).
Proof.
  cbn zeta. rewrite (dialog_resize_borders (fun c b => c + b) _ _ 40 30 15 7); [reflexivity| |done..].
  apply (bool_decide_unpack ("sw"%string ∈ the_handles)). vm_compute. exact I.
Defined.

(** ** Closing *)

(** Closing a dialog takes it out of the page and its mask away, unless another
    modal dialog is seen; but it stays in the pool, and no dialog hears the keys
    any more. *)
Theorem close_effect id d k :
  oget id (dialogs k) = Some d -> slides_away d = false -> o_modal (d_opts d) = true ->
  let k' := close id k in
  let others := List.filter (fun v => negb (bool_decide (w_id v = id))) (visible_windows k) in
  oget id (dialogs k') = Some (set_dom false false d) /\ keys k' = [] /\
  key 13 k' = k' /\
  masking (the_win k') = (if existsb w_modal others then masking (the_win k) else false) /\
  (forall id', id' <> id -> oget id' (dialogs k') = oget id' (dialogs k)).
Proof.
  intros Hd Hs Hm. cbn zeta. unfold close, with_dialog, _removeDialog, with_dialog. rewrite Hd.
  rewrite dialogs_unmask_of. cbn [set_win dialogs]. rewrite Hd, Hs.
  unfold unmask_of. rewrite Hm. unfold unmask. cbn [the_win set_win].
  change (visible_windows (set_win _ k)) with (visible_windows k).
  rewrite (List.filter_ext (fun v => negb (bool_decide (Some id = Some (w_id v))))
    (fun v => negb (bool_decide (w_id v = id)))); cycle 1.
  { intros v. f_equal. apply bool_decide_ext. split; [by intros [= ->]|by intros ->]. }
  split_and!; try done.
  - cbn. apply oget_oset_eq.
  - cbn. destruct (existsb _ _); [apply masking_removeTask|done].
  - intros id' Hne. cbn. by apply oget_oset_ne.
Qed.

(** The callback of a message may stand in the place of the title or the type. *)
Lemma alert_callback slide content title type_ cb f size :
  title = AFun f \/ (arg_fun title = None /\ type_ = AFun f)
  \/ (arg_fun title = None /\ arg_fun type_ = None /\ cb = AFun f) ->
  md_callback (alert slide content title type_ cb size) = Some f.
Proof. intros H. unfold alert. destruct title, type_; cbn; naive_solver. Qed.

(** ** Concrete dialogs *)

Lemma modal_is_masked_witness : masking (the_win (made "Dialog1000" plain empty_desk)) = true.
Proof.
  apply (modal_is_masked 1000 600 0 30 false (fun c b => c + b) (fun _ => 150) (fun _ => 60)
    (fun _ => 200) (fun _ => 30) 0 (fun _ => (0, 0)) (made "Dialog1000" plain empty_desk) "Dialog1000"
    (default (new_dialog (fun _ => 60) (fun _ => 200) (fun _ => 30) 0 plain)
       (oget "Dialog1000"%string (dialogs (made "Dialog1000" plain empty_desk))))).
  - apply rtc_once, ds_open.
  - vm_compute. reflexivity.
  - vm_compute. reflexivity.
  - split; vm_compute; intros H; inversion H; subst; inversion H2.
Defined.

Lemma max_recover_shrinks_witness :
  let o := with_message None None "" None false None [] plain in
  let k := put "d"%string (set_tools (Some false) None false None None
             (_saveStatus (fun c b => c + b)
               (Dlg o None true true 31 40 300 200 30 (0, 0, 0, 0) None None false None None
                  false false true))) empty_desk in
  exists d', oget "d"%string (dialogs (recover "d" (max 1000 600 30 false "d" k))) = Some d' /\
    d_width d' = 288 /\ d_content d' = 168 /\ d_left2 d' = 30.
Proof.
  cbn zeta.
  match goal with |- context [put _ ?d _] =>
    destruct (max_recover_shrinks 1000 600 30 false (fun c b => c + b) (fun _ _ => eq_refl) "d" d
      (put "d" d empty_desk) false) as (d' & H1 & H2 & H3 & H4 & _) end;
    [vm_compute; congruence..|].
  exists d'. rewrite H2, H3, H4. split; [exact H1|]. vm_compute. by split_and!.
Defined.

Lemma close_effect_witness :
  keys (close "Dialog1000" (made "Dialog1000" plain empty_desk)) = [] /\
  masking (the_win (close "Dialog1000" (made "Dialog1000" plain empty_desk))) = false.
Proof.
  destruct (close_effect "Dialog1000"
    (default (new_dialog (fun _ => 60) (fun _ => 200) (fun _ => 30) 0 plain)
       (oget "Dialog1000"%string (dialogs (made "Dialog1000" plain empty_desk))))
    (made "Dialog1000" plain empty_desk)) as (_ & H1 & _ & H2 & _);
    [vm_compute; reflexivity..|].
  split; [exact H1|]. rewrite H2. vm_compute. reflexivity.
Defined.

(** A dialog made with [show: false] is shown, and its mask with it. *)
Example show_false_shown :
  let o := DialogOptions true false false true (Some 280) None None None None false false
             false false false true false None false false false "" "" [] in
  let k := made "a" o empty_desk in
  map (fun q => d_visible q.2) (dialogs k) = [true] /\ masking (the_win k) = true.
Proof. split; vm_compute; reflexivity. Qed.

(** After the only dialog was closed, [$.ligerDialog.show] masks the page and shows
    nothing: the closed dialog is still the first of the pool. *)
Example show_first_ex :
  let k := close "a" (made "a" plain empty_desk) in
  let k := show_first 1000 600 0 (fun c b => c + b) (fun _ => 150) (fun _ => 60) (fun _ => 200)
             (fun _ => 30) 0 "b" plain k in
  visible_windows k = [] /\ masking (the_win k) = true.
Proof. split; vm_compute; reflexivity. Qed.

(** [$.ligerDialog.close] unmasks while the dialogs are still there, so the mask
    stays when they are gone. *)
Example close_all_masked :
  let k := do_later (LDestroy "a") (close_all (made "a" plain empty_desk)) in
  dialogs k = [] /\ masking (the_win k) = true.
Proof. split; vm_compute; reflexivity. Qed.

(** After one of two messages was closed by its button, the other does not close at
    the enter key. *)
Example enter_after_close :
  let alert_o := md_options (error false (Some "x"%string) AUndef AUndef) in
  let k := close "b" (made "b" alert_o (made "a" alert_o empty_desk)) in
  key 13 k = k /\ map (fun q => d_dom q.2) (dialogs k) = [true; false].
Proof. split; vm_compute; reflexivity. Qed.

(** A waiting dialog without a title says [undefined]. *)
Example waitting_undefined :
  o_content (waitting false None)
  = ("<div style=" ++ String "034" "padding:4px" ++ String "034" ">undefined</div>")%string.
Proof. vm_compute. reflexivity. Qed.

(** [toggle] does not turn the button, so calling it twice folds twice. *)
Example toggle_twice :
  let d := set_tools None (Some (Fold false false)) false None None
             (new_dialog (fun _ => 60) (fun _ => 200) (fun _ => 30) 0 plain) in
  d_content (toggle (toggle d)) = 1.
Proof. vm_compute. reflexivity. Qed.
