(* ===== verification/Widgets.v ===== *)
(** * Check boxes and tool bars

    [ligerCheckBox.js] and [ligerToolBar.js]: the value and the looks of a check
    box, the items of a tool bar and their switching on and off. *)

From S2P Require Import Prelude JsString.
Local Open Scope string_scope.
Local Open Scope Z_scope.

(** ** Check boxes *)

Record checkbox := CheckBox {
  k_checked : bool;          (* input.checked *)
  k_link : bool;             (* the link is l-checkbox-checked *)
  k_attr : bool;             (* the input's disabled *)
  k_option : bool;           (* p.disabled *)
  k_looks : bool;            (* the wrapper is l-disabled *)
  k_over : bool;             (* the wrapper is l-over *)
  k_changes : nat            (* change events of the input *)
}.

Definition _setValue (v : bool) (c : checkbox) : checkbox :=
  CheckBox v v (k_attr c) (k_option c) (k_looks c) (k_over c) (k_changes c).
Definition _getValue (c : checkbox) : bool := k_checked c.

(** [_setDisabled], after [set] stored the option. *)
Definition _setDisabled (v : bool) (c : checkbox) : checkbox :=
  CheckBox (k_checked c) (k_link c) v v v (k_over c) (k_changes c).

Definition updateStyle (c : checkbox) : checkbox :=
  let c := if k_attr c
           then CheckBox (k_checked c) (k_link c) true true true (k_over c) (k_changes c) else c in
  CheckBox (k_checked c) (k_checked c) (k_attr c) (k_option c) (k_looks c) (k_over c) (k_changes c).

(** The click of the link; [veto] is a [beforeClick] that returns [false]. *)
Definition click_link (veto : bool) (c : checkbox) : checkbox :=
  if k_attr c || k_option c || veto then c
  else
    let c := _setValue (negb (k_link c)) c in
    CheckBox (k_checked c) (k_link c) (k_attr c) (k_option c) (k_looks c) (k_over c) (S (k_changes c)).

Definition hover (enter : bool) (c : checkbox) : checkbox :=
  CheckBox (k_checked c) (k_link c) (k_attr c) (k_option c) (k_looks c)
    (if enter then negb (k_option c) || k_over c else false) (k_changes c).

(** [_render]: the value and the option are set in turn, then the looks. *)
Definition render (value : option bool) (disabled : bool) (checked attr : bool) : checkbox :=
  let c := CheckBox checked false attr disabled false false 0 in
  let c := _setDisabled disabled c in
  let c := match value with Some v => _setValue v c | None => c end in
  updateStyle c.

(** ** Tool bars *)

(** An item as it is configured. *)
Record item := Item {
  i_line : bool; i_id : option string; i_text : string; i_img : option string;
  i_icon : option string; i_disable : bool; i_click : option positive }.

(** A button in the page: the names after [l-icon-] of its icon, its handler. *)
Record tbutton := TButton {
  b_id : option string; b_text : string; b_img : option string;
  b_icons : option (list string); b_click : option positive; b_hover : bool }.

(** The buttons of every tool bar of the page, in its order, and the items last
    set on any of them ([myitems]). *)
Record bars := Bars { buttons : list tbutton; myitems : list item }.

Definition disabled_name (icon : string) : string := icon ++ "_disabled".

Definition addItem (i : item) (l : list tbutton) : list tbutton :=
  if i_line i then l
  else
    (l ++ [TButton (truthy_str (i_id i)) (i_text i) (truthy_str (i_img i))
             ((fun n => [if i_disable i then disabled_name n else n]) <$> truthy_str (i_icon i))
             (if i_disable i then None else i_click i) (negb (i_disable i))])%list.

(** [_setItems] of the last tool bar of the page: earlier buttons stay. *)
Definition _setItems (items : list item) (b : bars) : bars :=
  Bars (fold_left (fun l i => addItem i l) items (buttons b)) items.

(** [addClass] and [removeClass] of a name. *)
Definition add_class (n : string) (l : list string) : list string :=
  if bool_decide (n ∈ l) then l else (l ++ [n])%list.
Definition remove_class (n : string) (l : list string) : list string :=
  List.filter (fun m => negb (bool_decide (m = n))) l.

Definition icon_text (i : item) : string := default "undefined" (i_icon i).

Definition switch (on : bool) (i : item) (b : tbutton) : tbutton :=
  let n := icon_text i in
  TButton (b_id b) (b_text b) (b_img b)
    ((fun l => if on then add_class n (remove_class (disabled_name n) l)
               else remove_class n (add_class (disabled_name n) l)) <$> b_icons b)
    (if on then i_click i else None) on.

(** [updateItem]: the button at [j] is switched with the item at [2 * j]. *)
Fixpoint update_from (j : nat) (ops : list bool) (its : list item) (l : list tbutton)
    : res (list tbutton) :=
  match ops with
  | [] => Ok l
  | op :: ops' =>
      i ← of_option (its !! (2 * j)%nat);
      update_from (S j) ops' its (alter (switch op i) j l)
  end.
Definition updateItem (ops : list bool) (b : bars) : res bars :=
  l ← update_from 0 ops (myitems b) (buttons b); Ok (Bars l (myitems b)).

(** ** Check boxes are drawn as they are *)

Inductive checkbox_step (c : checkbox) : checkbox -> Prop :=
| cs_value v : checkbox_step c (_setValue v c)
| cs_disabled v : checkbox_step c (_setDisabled v c)
| cs_update : checkbox_step c (updateStyle c)
| cs_click veto : checkbox_step c (click_link veto c)
| cs_hover b : checkbox_step c (hover b c).

(** From its rendering on, whatever is set and clicked, a check box is drawn
    checked exactly when its input is, and a disabled one is drawn disabled and
    keeps its value at a click. *)
Theorem checkbox_drawn value disabled checked attr c :
  rtc checkbox_step (render value disabled checked attr) c ->
  k_link c = _getValue c /\ k_looks c = k_option c /\ k_attr c = k_option c /\
  (k_option c = true -> forall veto, click_link veto c = c) /\
  (k_option c = false -> _getValue (click_link false c) = negb (_getValue c)).
Proof.
  intros Hr. assert (k_link c = k_checked c /\ k_looks c = k_option c /\ k_attr c = k_option c) as H.
  { revert Hr. apply (rtc_ind_r (fun c => k_link c = k_checked c /\ k_looks c = k_option c
                                          /\ k_attr c = k_option c)).
    - unfold render, updateStyle. cbn. by destruct value, disabled.
    - intros y z _ Hs (H1 & H2 & H3).
      destruct Hs as [v|v| |veto|b]; try done.
      + unfold updateStyle. destruct (k_attr y) eqn:E; cbn; split_and!; congruence.
      + unfold click_link. by destruct (_ || _). }
  destruct H as (H1 & H2 & H3). split_and!; try done.
  - intros Ho veto. unfold click_link. by rewrite H3, Ho.
  - intros Ho. unfold click_link, _getValue. rewrite H3, Ho. cbn. by rewrite H1.
Qed.

(** ** Switching the buttons of a tool bar *)

(** A tool bar as [loadToolbar] makes them: every button followed by a line. *)
Definition with_lines (bs : list item) : list item :=
  flat_map (fun i => [i; Item true None "" None None false None]) bs.

Definition plain_item (i : item) : Prop := i_line i = false /\ truthy_str (i_icon i) = i_icon i /\ is_Some (i_icon i).

Lemma addItem_app i l : addItem i l = (l ++ addItem i [])%list.
Proof. unfold addItem. destruct (i_line i); [by rewrite app_nil_r|done]. Qed.

Lemma setItems_lines bs l :
  fold_left (fun l i => addItem i l) (with_lines bs) l = (l ++ concat (map (fun i => addItem i []) bs))%list.
Proof.
  revert l. induction bs as [|i bs IH]; intros l; [by rewrite app_nil_r|].
  change (with_lines (i :: bs)) with ([i; Item true None "" None None false None] ++ with_lines bs)%list.
  rewrite fold_left_app, IH. cbn [fold_left map concat].
  change (addItem (Item true None "" None None false None) (addItem i l)) with (addItem i l).
  by rewrite addItem_app, <-app_assoc.
Qed.

(** The button of an item. *)
Definition made (i : item) : tbutton :=
  TButton (truthy_str (i_id i)) (i_text i) (truthy_str (i_img i))
    ((fun n => [if i_disable i then disabled_name n else n]) <$> truthy_str (i_icon i))
    (if i_disable i then None else i_click i) (negb (i_disable i)).

Lemma concat_made bs :
  Forall plain_item bs -> concat (map (fun i => addItem i []) bs) = map made bs.
Proof.
  induction 1 as [|i bs (Hl & _) H IH]; cbn; [done|]. rewrite IH. unfold addItem. by rewrite Hl.
Qed.

Lemma with_lines_lookup bs j : with_lines bs !! (2 * j)%nat = bs !! j.
Proof.
  revert j. induction bs as [|i bs IH]; intros j; [done|]. destruct j as [|j]; [done|].
  replace (2 * S j)%nat with (S (S (2 * j))) by lia. cbn. apply IH.
Qed.

Lemma update_from_lookup bs ops j l :
  length l = length bs -> (j + length ops <= length bs)%nat ->
  exists l', update_from j ops (with_lines bs) l = Ok l' /\ length l' = length bs /\
    forall k, l' !! k = match ops !! (k - j)%nat with
                        | Some op => if decide (j <= k)%nat then i ← bs !! k; switch op i <$> l !! k
                                     else l !! k
                        | None => l !! k end.
Proof.
  revert j l. induction ops as [|op ops IH]; intros j l Hl Hj; cbn [update_from].
  - exists l. split_and!; try done.
  - cbn in Hj. rewrite with_lines_lookup.
    destruct (lookup_lt_is_Some_2 bs j) as [i Hi]; [lia|]. rewrite Hi. cbn [of_option mbind res_bind].
    destruct (IH (S j) (alter (switch op i) j l)) as (l' & H1 & H2 & H3); [by rewrite length_alter|lia|].
    exists l'. split_and!; [done|done|]. intros k. rewrite H3.
    destruct (decide (j <= k)%nat) as [Hk|Hk].
    + destruct (decide (k = j)) as [->|Hne].
      * rewrite Nat.sub_diag. cbn. rewrite list_lookup_alter_eq, Hi. cbn.
        destruct (ops !! _); [rewrite decide_False by lia|]; done.
      * replace (k - j)%nat with (S (k - S j)) by lia. cbn [lookup list_lookup].
        rewrite list_lookup_alter_ne by done. destruct (ops !! _); [|done].
        by rewrite !decide_True by lia.
    + replace (k - j)%nat with 0%nat by lia. cbn. rewrite list_lookup_alter_ne by lia.
      replace (k - S j)%nat with 0%nat by lia. destruct (ops !! 0%nat); [|done].
      by rewrite decide_False by lia.
Qed.

Lemma disabled_name_ne n : disabled_name n <> n.
Proof.
  intros E. apply (f_equal String.length) in E. unfold disabled_name in E.
  rewrite str_length_app in E. cbn in E. lia.
Qed.

(** The icon's classes, whatever they were. *)
Lemma switch_icons (op off : bool) n :
  let l := [if off then disabled_name n else n] in
  (if op then add_class n (remove_class (disabled_name n) l)
   else remove_class n (add_class (disabled_name n) l))
  = [if op then n else disabled_name n].
Proof.
  pose proof (disabled_name_ne n) as H. cbn zeta. unfold add_class, remove_class.
  destruct op, off; cbn; repeat (case_bool_decide; cbn; try set_solver); naive_solver.
Qed.

(** On a page with one tool bar whose buttons have icons and are each followed by
    a line, switching the buttons on and off gives exactly those on their handler
    and the plain icon, and the others no handler and the disabled icon. *)
Theorem updateItem_switches bs ops :
  Forall plain_item bs -> length ops = length bs ->
  exists b, updateItem ops (_setItems (with_lines bs) (Bars [] [])) = Ok b /\
    forall j i op, bs !! j = Some i -> ops !! j = Some op ->
    exists t, buttons b !! j = Some t /\ b_hover t = op /\
      b_click t = (if op : bool then i_click i else None) /\
      b_icons t = Some [if op then icon_text i else disabled_name (icon_text i)].
Proof.
  intros Hp Hl. unfold updateItem, _setItems. cbn [myitems buttons].
  rewrite setItems_lines, concat_made by done. cbn [app].
  destruct (update_from_lookup bs ops 0 (map made bs)) as (l' & -> & H2 & H3);
    [by rewrite length_map|lia|].
  eexists. split; [reflexivity|]. intros j i op Hi Ho. cbn [buttons]. rewrite H3.
  rewrite Nat.sub_0_r, Ho, decide_True by lia. rewrite Hi. cbn [mbind option_bind].
  change (map made bs) with (made <$> bs). rewrite list_lookup_fmap, Hi. eexists. split; [reflexivity|].
  assert (plain_item i) as (Hline & Hic & n & Hn).
  { eapply Forall_forall; [exact Hp|]. by eapply list_elem_of_lookup_2. }
  cbn. split_and!; try done. rewrite Hic, Hn. unfold icon_text. rewrite Hn. cbn. f_equal.
  apply switch_icons.
Qed.

Definition save_item : item := Item false (Some "save") "Save" None (Some "save") true (Some 1%positive).
Definition new_item : item := Item false (Some "new") "New" None (Some "new") false (Some 2%positive).

Lemma updateItem_switches_witness :
  exists b, updateItem [true; false] (_setItems (with_lines [save_item; new_item]) (Bars [] [])) = Ok b /\
    exists t, buttons b !! 1%nat = Some t /\ b_click t = None.
Proof.
  destruct (updateItem_switches [save_item; new_item] [true; false]) as (b & H1 & H2).
  - repeat constructor; by eexists.
  - done.
  - exists b. split; [exact H1|]. destruct (H2 1%nat new_item false eq_refl eq_refl) as (t & Ht & _ & Hc & _).
    by exists t.
Defined.

Lemma checkbox_drawn_witness :
  let c := click_link false (render None false false false) in k_link c = true /\ _getValue c = true.
Proof.
  destruct (checkbox_drawn None false false false (click_link false (render None false false false)))
    as (H & _); [apply rtc_once; constructor|].
  split; [reflexivity|]. rewrite <-H. reflexivity.
Defined.

(** With two tool bars the items of the last are put on the buttons of the first. *)
Example two_bars :
  match updateItem [true] (_setItems (with_lines [new_item])
          (_setItems (with_lines [save_item]) (Bars [] []))) with
  | Ok b => map b_click (buttons b) = [Some 2%positive; Some 2%positive]
  | Throw _ => False end.
Proof. reflexivity. Qed.

(** Without lines between the buttons the second one takes the third item, and the
    last reads past the end. *)
Example no_lines :
  updateItem [true; true] (_setItems [new_item; save_item] (Bars [] [])) = Throw TypeError.
Proof. reflexivity. Qed.
