(* ===== verification/RegExp.v ===== *)
(** * Regular expressions of the language

    The rules of the form validation are regular expressions, and this file gives
    them their meaning: [parse] reads the source of a pattern, [spans] is the
    declarative semantics (what text a pattern matches, and whether that text
    starts and ends the input), and [test] is [RegExp.prototype.test], computed by
    derivatives.  [test_spec] shows that the two agree.  Patterns with
    back references, look-ahead or lazy quantifiers do not parse. *)

From S2P Require Import Prelude JsString Json PageText.
From Stdlib Require Import Ascii.
Local Open Scope string_scope.
Local Open Scope Z_scope.

(** ** Patterns *)

(** A class has the flag [i], whether it is negated, and its ranges. *)
Inductive re : Type :=
| Void
| Eps
| Bol
| Eol
| Cls (i neg : bool) (rs : list (Z * Z))
| Seq (a b : re)
| Alt (a b : re)
| Star (a : re).

#[export] Instance re_eq_dec : EqDecision re.
Proof. solve_decision. Defined.

Definition in_ranges (rs : list (Z * Z)) (c : Z) : bool :=
  existsb (fun r => in_range r.1 r.2 c) rs.

(** The other case of an ASCII letter; no other letter has its upper case there. *)
Definition swap_case (c : Z) : Z :=
  if in_range 65 90 c then c + 32 else if in_range 97 122 c then c - 32 else c.

Definition in_class (i neg : bool) (rs : list (Z * Z)) (c : Z) : bool :=
  xorb neg (in_ranges rs c || (i && in_ranges rs (swap_case c))).

Definition nil_b {A} (l : list A) : bool := match l with [] => true | _ => false end.

(** [spans r st x en]: [r] matches [x], where [st] says whether [x] begins at the
    start of the input and [en] whether it ends at its end. *)
Inductive spans : re -> bool -> text -> bool -> Prop :=
| spans_eps st en : spans Eps st [] en
| spans_bol en : spans Bol true [] en
| spans_eol st : spans Eol st [] true
| spans_cls i neg rs c st en : in_class i neg rs c = true -> spans (Cls i neg rs) st [c] en
| spans_seq a b st x y en :
    spans a st x (en && nil_b y) -> spans b (st && nil_b x) y en ->
    spans (Seq a b) st (x ++ y) en
| spans_alt_l a b st x en : spans a st x en -> spans (Alt a b) st x en
| spans_alt_r a b st x en : spans b st x en -> spans (Alt a b) st x en
| spans_star_nil a st en : spans (Star a) st [] en
| spans_star_app a st x y en :
    spans a st x (en && nil_b y) -> spans (Star a) (st && nil_b x) y en ->
    spans (Star a) st (x ++ y) en.

(** ** Matching *)

Fixpoint nullable (st en : bool) (r : re) : bool :=
  match r with
  | Void | Cls _ _ _ => false
  | Eps | Star _ => true
  | Bol => st
  | Eol => en
  | Seq a b => nullable st en a && nullable st en b
  | Alt a b => nullable st en a || nullable st en b
  end.

(** The constructors, with the simplifications that keep derivatives small. *)
Definition seq (a b : re) : re :=
  match a, b with Void, _ => Void | _, Void => Void | Eps, _ => b | _, _ => Seq a b end.
Definition alt (a b : re) : re :=
  match a, b with
  | Void, _ => b
  | _, Void => a
  | _, _ => if bool_decide (a = b) then a else Alt a b
  end.

Fixpoint deriv (st : bool) (c : Z) (r : re) : re :=
  match r with
  | Void | Eps | Bol | Eol => Void
  | Cls i neg rs => if in_class i neg rs c then Eps else Void
  | Seq a b => alt (seq (deriv st c a) b) (if nullable st false a then deriv st c b else Void)
  | Alt a b => alt (deriv st c a) (deriv st c b)
  | Star a => seq (deriv st c a) (Star a)
  end.

Fixpoint matches (st : bool) (s : text) (r : re) : bool :=
  match s with
  | [] => nullable st true r
  | c :: s' => matches false s' (deriv st c r)
  end.

Definition anything : re := Star (Cls false true []).

(** [r.test(s)]: a match anywhere in the text. *)
Definition test (r : re) (s : text) : bool := matches true s (Seq anything (Seq r anything)).

(** ** The matcher is the semantics *)

Ltac spans_inv :=
  repeat match goal with
  | H : spans Void _ _ _ |- _ => inversion H
  | H : spans Eps _ _ _ |- _ => inversion H; clear H; subst
  | H : spans Bol _ _ _ |- _ => inversion H; clear H; subst
  | H : spans Eol _ _ _ |- _ => inversion H; clear H; subst
  | H : spans (Cls _ _ _) _ _ _ |- _ => inversion H; clear H; subst
  | H : spans (Seq _ _) _ _ _ |- _ => inversion H; clear H; subst
  | H : spans (Alt _ _) _ _ _ |- _ => inversion H; clear H; subst
  end.
#[export] Hint Constructors spans : hella.

Lemma nullable_spec r st en : nullable st en r = true <-> spans r st [] en.
Proof.
  revert st en. induction r; intros st en; cbn.
  - split; [done|]. by inversion 1.
  - split; [constructor|done].
  - split; [intros ->; constructor|by inversion 1].
  - split; [intros ->; constructor|by inversion 1].
  - split; [done|]. by inversion 1.
  - rewrite andb_true_iff, IHr1, IHr2. split.
    + intros [H1 H2]. apply (spans_seq _ _ _ [] []); cbn; by rewrite ?andb_true_r.
    + inversion 1; subst. destruct x; [|done]. cbn in *. subst. cbn in *. by rewrite !andb_true_r in *.
  - rewrite orb_true_iff, IHr1, IHr2. split; [intros [?|?]; auto with hella|inversion 1; auto].
  - split; [constructor|done].
Qed.

Lemma spans_seq_nil_l b st x en : spans (Seq Eps b) st x en <-> spans b st x en.
Proof.
  split.
  - inversion 1; subst. spans_inv. cbn in *. by rewrite andb_true_r in *.
  - intros H. apply (spans_seq _ _ _ [] x); [constructor|]. cbn. by rewrite andb_true_r.
Qed.

Lemma seq_spec a b st x en : spans (seq a b) st x en <-> spans (Seq a b) st x en.
Proof.
  destruct a, b; cbn; try done; rewrite ?spans_seq_nil_l; try done;
    split; intros H; spans_inv.
Qed.

Lemma alt_spec a b st x en : spans (alt a b) st x en <-> spans a st x en \/ spans b st x en.
Proof.
  assert (forall a b, spans (if bool_decide (a = b) then a else Alt a b) st x en <->
            spans a st x en \/ spans b st x en) as Hd.
  { intros a' b'. case_bool_decide as E; [subst; tauto|].
    split; [inversion 1; auto|intros [?|?]; auto with hella]. }
  assert (~ spans Void st x en) by (inversion 1).
  destruct a; [cbn; tauto|..]; (destruct b; [cbn; tauto|..]); apply Hd.
Qed.

Lemma spans_star_cons a st c x en :
  spans (Star a) st (c :: x) en <->
  exists y z, x = (y ++ z)%list /\ spans a st (c :: y) (en && nil_b z) /\ spans (Star a) false z en.
Proof.
  split.
  - remember (Star a) as r eqn:Er. remember (c :: x) as s eqn:Es. intros H. revert x Es.
    induction H; intros x' Es; simplify_eq.
    destruct x as [|d x]; cbn in *; simplify_eq.
    + rewrite andb_true_r in *. by apply IHspans2.
    + rewrite andb_false_r in *. by exists x, y.
  - intros (y & z & -> & H1 & H2). apply (spans_star_app a st (c :: y) z); [done|].
    cbn. by rewrite andb_false_r.
Qed.

Lemma deriv_spec c r st x en : spans (deriv st c r) false x en <-> spans r st (c :: x) en.
Proof.
  revert st x en. induction r; intros st x en; cbn [deriv];
    try (split; [by inversion 1|by inversion 1]).
  - destruct (in_class i neg rs c) eqn:E.
    + split; [inversion 1; by constructor|inversion 1; constructor].
    + split; [by inversion 1|inversion 1; congruence].
  - rewrite alt_spec, seq_spec. split.
    + intros [H|H].
      * inversion H as [| | | |? ? ? y z ? H1 H2| | | |]; subst. apply IHr1 in H1.
        apply (spans_seq _ _ _ (c :: y) z); [done|]. cbn in *. by rewrite andb_false_r.
      * destruct (nullable st false r1) eqn:E; [|by inversion H].
        apply nullable_spec in E. apply IHr2 in H. apply (spans_seq _ _ _ [] (c :: x)); cbn.
        -- by rewrite andb_false_r.
        -- by rewrite andb_true_r.
    + inversion 1 as [| | | |? ? ? y z ? H1 H2| | | |]; subst. destruct y as [|d y]; cbn in *; simplify_eq.
      * rewrite andb_true_r in H2. rewrite andb_false_r in H1. apply nullable_spec in H1. rewrite H1.
        right. by apply IHr2.
      * left. rewrite andb_false_r in H2. apply (spans_seq _ _ _ y z); [by apply IHr1|done].
  - rewrite alt_spec, IHr1, IHr2. split; [intros [?|?]; auto with hella|inversion 1; auto].
  - rewrite seq_spec, spans_star_cons. split.
    + inversion 1 as [| | | |? ? ? y z ? H1 H2| | | |]; subst. apply IHr in H1. by exists y, z.
    + intros (y & z & -> & H1 & H2). apply (spans_seq _ _ _ y z); [by apply IHr|done].
Qed.

Lemma matches_spec s r st : matches st s r = true <-> spans r st s true.
Proof.
  revert r st. induction s as [|c s IH]; intros r st; cbn [matches].
  - apply nullable_spec.
  - by rewrite IH, deriv_spec.
Qed.

Lemma spans_anything st x en : spans anything st x en.
Proof.
  revert st. induction x as [|c x IH]; intros st; [constructor|].
  apply (spans_star_app _ _ [c] x); [by constructor|apply IH].
Qed.

(** [test] finds a match exactly when some part of the text is matched at its
    place by the declarative reading of the pattern. *)
Theorem test_spec r s :
  test r s = true <->
  exists pre x post, s = (pre ++ x ++ post)%list /\ spans r (nil_b pre) x (nil_b post).
Proof.
  unfold test. rewrite matches_spec. split.
  - inversion 1 as [| | | |? ? ? pre s' ? _ H1| | | |]; subst.
    inversion H1 as [| | | |? ? ? x post ? H2 _| | | |]; subst. by exists pre, x, post.
  - intros (pre & x & post & -> & H). apply spans_seq; [apply spans_anything|].
    apply spans_seq; [|apply spans_anything]. by rewrite andb_true_l.
Qed.

Lemma test_alt a b s : test (Alt a b) s = test a s || test b s.
Proof.
  apply eq_true_iff_eq. rewrite orb_true_iff, !test_spec. split.
  - intros (pre & x & post & -> & H). inversion H; [left|right]; eauto.
  - intros [(pre & x & post & -> & H)|(pre & x & post & -> & H)]; eauto 10 with hella.
Qed.

(** ** Anchored patterns

    Almost every rule is [^...$]: it matches a text as a whole. *)
Fixpoint plain (r : re) : bool :=
  match r with
  | Bol | Eol => false
  | Void | Eps | Cls _ _ _ => true
  | Seq a b | Alt a b => plain a && plain b
  | Star a => plain a
  end.

(** The body of an anchored pattern. *)
Definition cat (a b : re) : re := match b with Eps => a | _ => Seq a b end.
Fixpoint strip_eol (r : re) : option re :=
  match r with
  | Eol => Some Eps
  | Seq a b => b' ← strip_eol b; if plain a then Some (cat a b') else None
  | _ => None
  end.
Definition anchored (r : re) : option re :=
  match r with Seq Bol b => strip_eol b | _ => None end.

(** The texts of a pattern without anchors. *)
Definition lang (r : re) (s : text) : Prop := spans r true s true.

Lemma plain_spans r st en st' en' s : plain r = true -> spans r st s en -> spans r st' s en'.
Proof.
  intros Hp H. revert st' en' Hp. induction H; intros st' en' Hp; cbn in Hp;
    try discriminate Hp; rewrite ?andb_true_iff in Hp; try destruct Hp as [? ?];
    solve [constructor; by auto | by apply spans_alt_r; auto].
Qed.

Lemma cat_spec a b st x en : spans (cat a b) st x en <-> spans (Seq a b) st x en.
Proof.
  destruct b; try done. cbn. split.
  - intros H. rewrite <-(app_nil_r x). apply spans_seq; [|constructor]. by rewrite andb_true_r.
  - inversion 1 as [| | | |? ? ? y z ? H1 H2| | | |]; subst. spans_inv. rewrite app_nil_r.
    cbn in *. by rewrite andb_true_r in *.
Qed.

Lemma strip_eol_spec r b st s en :
  strip_eol r = Some b -> spans r st s en <-> en = true /\ spans b st s true.
Proof.
  revert b st s. induction r; intros b st s E; cbn in E; try done; simplify_eq.
  - split; [inversion 1; auto with hella|]. intros [-> H]. inversion H; constructor.
  - destruct (strip_eol r2) as [b2|] eqn:E2; cbn in E; [|done].
    destruct (plain r1) eqn:Hp; [|done]. simplify_eq. setoid_rewrite cat_spec. split.
    + inversion 1 as [| | | |? ? ? x y ? H1 H2| | | |]; subst.
      apply (IHr2 _ _ _ eq_refl) in H2 as [-> H2]. split; [done|]. by constructor.
    + intros [-> H]. inversion H as [| | | |? ? ? x y ? H1 H2| | | |]; subst.
      constructor; [done|]. by apply (IHr2 _ _ _ eq_refl).
Qed.

Lemma anchored_test r b s : anchored r = Some b -> test r s = true <-> lang b s.
Proof.
  intros E. rewrite test_spec. destruct r; try done. destruct r1; try done. cbn in E.
  split.
  - intros (pre & x & post & -> & H).
    inversion H as [| | | |? ? ? e y ? H1 H2| | | |]; subst. inversion H1; subst.
    destruct pre; [|done]. apply (strip_eol_spec _ _ _ _ _ E) in H2 as [En H2].
    destruct post; [|done]. by rewrite !app_nil_r.
  - intros H. exists [], s, []. rewrite app_nil_r. split; [done|].
    apply (spans_seq _ _ _ [] s); [constructor|]. by apply (strip_eol_spec _ _ _ _ _ E).
Qed.

Lemma lang_seq a b s :
  plain a = true -> plain b = true ->
  lang (Seq a b) s <-> exists x y, s = (x ++ y)%list /\ lang a x /\ lang b y.
Proof.
  intros Ha Hb. split.
  - inversion 1 as [| | | |? ? ? x y ? H1 H2| | | |]; subst. exists x, y.
    split_and!; [done|by eapply plain_spans..].
  - intros (x & y & -> & H1 & H2). constructor; by eapply plain_spans.
Qed.

Lemma lang_app a b x y :
  plain a = true -> plain b = true -> lang a x -> lang b y -> lang (Seq a b) (x ++ y).
Proof. intros Ha Hb Hx Hy. apply lang_seq; eauto. Qed.

Lemma lang_alt a b s : lang (Alt a b) s <-> lang a s \/ lang b s.
Proof. split; [inversion 1; auto|intros [?|?]; constructor; auto]; by constructor. Qed.

Lemma lang_eps s : lang Eps s <-> s = [].
Proof. split; [by inversion 1|intros ->; constructor]. Qed.

Lemma lang_cls i neg rs s : lang (Cls i neg rs) s <-> exists c, s = [c] /\ in_class i neg rs c = true.
Proof. split; [inversion 1; eauto|intros (c & -> & H); by constructor]. Qed.

Lemma lang_star_cls i neg rs s : lang (Star (Cls i neg rs)) s <-> forallb (in_class i neg rs) s = true.
Proof.
  unfold lang. generalize true at 1. induction s as [|c s IH]; intros st.
  - split; [done|constructor].
  - cbn [forallb]. rewrite spans_star_cons, andb_true_iff. split.
    + intros (y & z & -> & H1 & H2). inversion H1; subst. by apply IH in H2.
    + intros [Hc Hs]. exists [], s. split_and!; [done|by constructor|by apply IH].
Qed.

Lemma lang_matches r s : lang r s <-> matches true s r = true.
Proof. symmetry. apply matches_spec. Qed.

Lemma lang_opt a s : lang (Alt a Eps) s <-> lang a s \/ s = [].
Proof. by rewrite lang_alt, lang_eps. Qed.

Lemma lang_plus_cls i neg rs s :
  lang (Seq (Cls i neg rs) (Star (Cls i neg rs))) s <->
  s <> [] /\ forallb (in_class i neg rs) s = true.
Proof.
  rewrite lang_seq by done. setoid_rewrite lang_cls. setoid_rewrite lang_star_cls. split.
  - intros (x & y & -> & (c & -> & Hc) & Hy). cbn. by rewrite Hc, Hy.
  - intros [Hn H]. destruct s as [|c s]; [done|]. cbn in H. apply andb_true_iff in H as [Hc Hs].
    exists [c], s. eauto.
Qed.

Fixpoint power (n : nat) (a : re) : re :=
  match n with O => Eps | S n' => cat a (power n' a) end.

Lemma plain_power n i neg rs : plain (power n (Cls i neg rs)) = true.
Proof. induction n as [|n IH]; [done|]. cbn. destruct (power n _); cbn in *; done. Qed.

Lemma lang_power_cls n i neg rs s :
  lang (power n (Cls i neg rs)) s <-> length s = n /\ forallb (in_class i neg rs) s = true.
Proof.
  revert s. induction n as [|n IH]; intros s; cbn [power].
  - rewrite lang_eps. destruct s; cbn; split; try done. by intros [??].
  - unfold lang. rewrite cat_spec. fold (lang (Seq (Cls i neg rs) (power n (Cls i neg rs))) s).
    rewrite lang_seq by (done || by apply plain_power). setoid_rewrite lang_cls. setoid_rewrite IH.
    split.
    + intros (x & y & -> & (c & -> & Hc) & <- & Hy). cbn. by rewrite Hc, Hy.
    + intros [Hl H]. destruct s as [|c s]; [done|]. cbn in *. apply andb_true_iff in H as [Hc Hs].
      exists [c], s. split_and!; [done|by exists c|congruence|done].
Qed.

(** ** Patterns of a few digits

    A pattern without anchors whose classes are digits and that has no star: its
    language is finite, and what it is can be computed. *)
Definition all_digits (s : text) : bool := forallb is_digit s.

Fixpoint longest (r : re) : option nat :=
  match r with
  | Void | Eps => Some O
  | Cls false false rs =>
      if forallb (fun p => (48 <=? p.1) && (p.2 <=? 57)) rs then Some 1%nat else None
  | Seq a b => x ← longest a; y ← longest b; Some (x + y)%nat
  | Alt a b => x ← longest a; y ← longest b; Some (Nat.max x y)
  | _ => None
  end.

Fixpoint digit_texts (n : nat) : list text :=
  match n with
  | O => [[]]
  | S n' => [] :: flat_map (fun d => map (cons d) (digit_texts n')) (seqZ 48 10)
  end.

Lemma in_digit_texts n s : all_digits s = true -> (length s <= n)%nat -> In s (digit_texts n).
Proof.
  revert s. induction n as [|n IH]; intros s Hd Hl; destruct s as [|c s]; cbn in Hl; try lia;
    [by left|by left|]. cbn [digit_texts]. right. cbn in Hd. apply andb_true_iff in Hd as [Hc Hs].
  apply in_flat_map. exists c. split.
  - apply list_elem_of_In, elem_of_seqZ. unfold is_digit, in_range in Hc. zbool. lia.
  - apply in_map, IH; [done|lia].
Qed.

Lemma longest_spec r n st s en :
  longest r = Some n -> spans r st s en -> all_digits s = true /\ (length s <= n)%nat.
Proof.
  intros E H. revert n E. induction H; intros n E; cbn in E; try done.
  - simplify_eq. cbn. split; [done|lia].
  - destruct i, neg; try done. case_match eqn:Hf; simplify_eq. cbn. split; [|lia].
    unfold in_class in H. cbn in H. rewrite orb_false_r in H. apply existsb_exists in H as (p & Hin & Hp).
    rewrite forallb_forall in Hf. specialize (Hf _ Hin). unfold is_digit, in_range in *.
    rewrite andb_true_r. zbool. apply andb_true_iff. split; apply Z.leb_le; lia.
  - destruct (longest a) as [x'|] eqn:Ea; [|done]. destruct (longest b) as [y'|] eqn:Eb; [|done].
    cbn in E. simplify_eq. destruct (IHspans1 _ eq_refl), (IHspans2 _ eq_refl).
    unfold all_digits in *. rewrite forallb_app, length_app. split; [by apply andb_true_iff|lia].
  - destruct (longest a) as [x'|] eqn:Ea; [|done]. destruct (longest b) as [y'|] eqn:Eb; [|done].
    cbn in E. simplify_eq. destruct (IHspans _ eq_refl). split; [done|lia].
  - destruct (longest a) as [x'|] eqn:Ea; [|done]. destruct (longest b) as [y'|] eqn:Eb; [|done].
    cbn in E. simplify_eq. destruct (IHspans _ eq_refl). split; [done|lia].
Qed.

(** When the pattern agrees with a test on every text of at most [n] digits, the
    test describes its language. *)
Definition agrees (r : re) (n : nat) (P : text -> bool) : bool :=
  bool_decide (longest r = Some n) &&
  forallb (fun s => Bool.eqb (matches true s r) (P s)) (digit_texts n).

Lemma agrees_lang r n P s :
  agrees r n P = true ->
  lang r s <-> all_digits s = true /\ (length s <= n)%nat /\ P s = true.
Proof.
  unfold agrees. rewrite andb_true_iff, bool_decide_eq_true, forallb_forall. intros [Hl Hf]. split.
  - intros H. destruct (longest_spec _ _ _ _ _ Hl H) as [Hd Hn]. split_and!; [done..|].
    specialize (Hf _ (in_digit_texts _ _ Hd Hn)). apply Bool.eqb_prop in Hf.
    rewrite <-Hf. by apply lang_matches.
  - intros (Hd & Hn & HP). apply lang_matches.
    specialize (Hf _ (in_digit_texts _ _ Hd Hn)). apply Bool.eqb_prop in Hf. by rewrite Hf.
Qed.

(** The number a text of digits writes. *)
Definition value (s : text) : Z := fold_left (fun v c => 10 * v + (c - 48)) s 0.

(** ** Reading a pattern

    Alternatives, sequences, groups, classes with ranges and escapes, and greedy
    quantifiers; a pattern that is none of these is not read. *)
Definition any_but_line_end : re := Cls false true [(10, 10); (13, 13); (8232, 8233)].
Definition space_ranges : list (Z * Z) :=
  [(9, 13); (32, 32); (160, 160); (5760, 5760); (8192, 8202); (8232, 8233); (8239, 8239);
   (8287, 8287); (12288, 12288); (65279, 65279)].
Definition digit_ranges : list (Z * Z) := [(48, 57)].
Definition word_ranges : list (Z * Z) := [(65, 90); (97, 122); (48, 57); (95, 95)].

Definition code (c : ascii) : Z := Z.of_nat (nat_of_ascii c).

Fixpoint hex (n : nat) (acc : Z) (s : string) : option (Z * string) :=
  match n, s with
  | O, _ => Some (acc, s)
  | S n', String c s' => d ← hexval c; hex n' (16 * acc + Z.of_nat d) s'
  | S _, EmptyString => None
  end.

(** What an escape stands for, after the backslash. *)
Definition p_escape (s : string) : option (list (Z * Z) * string) :=
  match s with
  | String "d" r => Some (digit_ranges, r)
  | String "w" r => Some (word_ranges, r)
  | String "s" r => Some (space_ranges, r)
  | String "t" r => Some ([(9, 9)], r)
  | String "n" r => Some ([(10, 10)], r)
  | String "v" r => Some ([(11, 11)], r)
  | String "f" r => Some ([(12, 12)], r)
  | String "r" r => Some ([(13, 13)], r)
  | String "x" r => p ← hex 2 0 r; Some ([(p.1, p.1)], p.2)
  | String "u" r => p ← hex 4 0 r; Some ([(p.1, p.1)], p.2)
  | String c r => if word (code c) then None else Some ([(code c, code c)], r)
  | EmptyString => None
  end.

(** One member of a class. *)
Definition p_member (s : string) : option (list (Z * Z) * string) :=
  match s with
  | EmptyString => None
  | String "\" r => p_escape r
  | String c r => Some ([(code c, code c)], r)
  end.

Fixpoint p_class (n : nat) (s : string) : option (list (Z * Z) * string) :=
  match n with
  | O => None
  | S n' =>
      match s with
      | String "]" r => Some ([], r)
      | _ =>
          '(m, r) ← p_member s;
          match m, r with
          | [(lo, lo')], String "-" (String d r') =>
              if negb (lo =? lo') || Ascii.eqb d "]" then '(ms, r'') ← p_class n' r; Some (m ++ ms, r'')%list
              else '(m2, r'') ← p_member (String d r');
                   match m2 with
                   | [(hi, hi')] =>
                       if (hi =? hi') && (lo <=? hi)
                       then '(ms, r3) ← p_class n' r''; Some ((lo, hi) :: ms, r3) else None
                   | _ => None
                   end
          | _, _ => '(ms, r'') ← p_class n' r; Some (m ++ ms, r'')%list
          end
      end
  end.

Fixpoint up_to (n : nat) (a : re) : re :=
  match n with O => Eps | S n' => Alt (cat a (up_to n' a)) Eps end.
Definition opt (a : re) : re := Alt a Eps.
Definition plus (a : re) : re := Seq a (Star a).

Definition p_nat (s : string) : option (nat * string) :=
  let '(d, r) := take_digits s in
  if String.eqb d "" then None else Some (Z.to_nat (digits_value d), r).

(** A quantifier, if one follows. *)
Definition p_quant (a : re) (s : string) : option (re * string) :=
  match s with
  | String "*" r => Some (Star a, r)
  | String "+" r => Some (plus a, r)
  | String "?" r => Some (opt a, r)
  | String "{" r =>
      '(n, r) ← p_nat r;
      match r with
      | String "}" r => Some (power n a, r)
      | String "," (String "}" r) => Some (cat (power n a) (Star a), r)
      | String "," r =>
          '(m, r) ← p_nat r;
          match r with
          | String "}" r => if (n <=? m)%nat then Some (cat (power n a) (up_to (m - n) a), r) else None
          | _ => None
          end
      | _ => None
      end
  | _ => Some (a, s)
  end.

Fixpoint p_alt (i : bool) (n : nat) (s : string) {struct n} : option (re * string) :=
  match n with
  | O => None
  | S n =>
      '(a, r) ← p_seq i n s;
      match r with
      | String "|" r' => '(b, r'') ← p_alt i n r'; Some (Alt a b, r'')
      | _ => Some (a, r)
      end
  end
with p_seq (i : bool) (n : nat) (s : string) {struct n} : option (re * string) :=
  match n with
  | O => None
  | S n =>
      match s with
      | EmptyString | String ")" _ | String "|" _ => Some (Eps, s)
      | _ => '(a, r) ← p_term i n s; '(a, r) ← p_quant a r; '(b, r) ← p_seq i n r; Some (cat a b, r)
      end
  end
with p_term (i : bool) (n : nat) (s : string) {struct n} : option (re * string) :=
  match n with
  | O => None
  | S n =>
      match s with
      | EmptyString => None
      | String "(" r =>
          '(a, r) ← p_alt i n (match r with String "?" (String ":" r') => r' | _ => r end);
          match r with String ")" r => Some (a, r) | _ => None end
      | String "^" r => Some (Bol, r)
      | String "$" r => Some (Eol, r)
      | String "." r => Some (any_but_line_end, r)
      | String "[" r =>
          let '(neg, r) := match r with String "^" r' => (true, r') | _ => (false, r) end in
          '(rs, r) ← p_class n r; Some (Cls i neg rs, r)
      | String "\" r => '(rs, r) ← p_escape r; Some (Cls i false rs, r)
      | String c r =>
          if existsb (Ascii.eqb c) ["*"; "+"; "?"; "{"]%char then None
          else Some (Cls i false [(code c, code c)], r)
      end
  end.

(** The source and the flag [i]. *)
Record pattern := Pattern { source : string; ignoreCase : bool }.

Definition parse (p : pattern) : option re :=
  '(r, rest) ← p_alt (ignoreCase p) (3 * String.length (source p) + 3) (source p);
  if String.eqb rest "" then Some r else None.

Definition SyntaxError : string := "SyntaxError".

(** [new RegExp(ex)], then [test]. *)
Definition RegExp_test (p : pattern) (s : text) : res bool :=
  match parse p with Some r => Ok (test r s) | None => Throw SyntaxError end.

Example parse_ex :
  parse (Pattern "^a|[^0-9\s]{1,2}$" false) =
    Some (Alt (Seq Bol (Cls false false [(97, 97)]))
              (Seq (Seq (Cls false true ((48, 57) :: space_ranges))
                        (Alt (Cls false true ((48, 57) :: space_ranges)) Eps)) Eol)) /\
  parse (Pattern "(a" false) = None /\
  RegExp_test (Pattern "none" false) (units "canonical") = Ok false /\
  RegExp_test (Pattern "NON" true) (units "canonical") = Ok true.
Proof. vm_compute. done. Qed.
