(* ===== verification/Rules.v ===== *)
(** * The rules of the form validation

    The tables of [validation/jquery.validationEngine-cn.js] and
    [-cycas.js] with their patterns, as the files write them, and the two patterns for
    dates of [jquery.validationEngine.js].  Messages are UTF-8.  The theorems say in
    words of numbers what the patterns accept. *)

From S2P Require Import Prelude JsString Json PageText RegExp.
From Stdlib Require Import Ascii.
Local Open Scope string_scope.
Local Open Scope Z_scope.

(** ** Patterns *)

Definition phone_regex : pattern := Pattern
  ("^([\+][0-9]{1,3}[ \.\-])?([\(]{1}[0-9]{2,6}[\)])?([0-9 \.\-\/]{3,20})((x|" ++
   "ext|extension)[ ]?[0-9]{1,4})?$") false.
Definition email_regex : pattern := Pattern
  ("^((([a-z]|\d|[!#\$%&'\*\+\-\/=\?\^_`{\|}~]|[\u00A0-\uD7FF\uF900-\uFDCF\uFDF0-\uFFEF])+(\.([a" ++
   "-z]|\d|[!#\$%&'\*\+\-\/=\?\^_`{\|}~]|[\u00A0-\uD7FF\uF900-\uFDCF\uFDF0-\uFFEF])+)*)|((\x22)(" ++
   "(((\x20|\x09)*(\x0d\x0a))?(\x20|\x09)+)?(([\x01-\x08\x0b\x0c\x0e-\x1f\x7f]|" ++
   "\x21|[\x23-\x5b]|[\x5d-\x7e]|[\u00A0-\uD7FF\uF900-\uFDCF\uFDF0-\uFFEF])" ++
   "|(\\([\x01-\x09\x0b\x0c\x0d-\x7f]|[\u00A0-\uD7FF\uF900-\uFDCF\uFDF0-\uFFEF])" ++
   ")))*(((\x20|\x09)*(\x0d\x0a))?(\x20|\x09)+)?(\x22)))@((([a-z]|\d|[\u00A0-\uD7FF\uF900-\uFDCF\uFDF0-" ++
   "\uFFEF])|(([a-z]|\d|[\u00A0-\uD7FF\uF900-\uFDCF\uFDF0-\uFFEF])([a-z]|\d|-|\.|_|~|[\u00A0-\uD7FF\uF900-" ++
   "\uFDCF\uFDF0-\uFFEF])*([a-z]|\d|[\u00A0-\uD7FF\uF900-\uFDCF\uFDF0-\uFFEF])))\.)+(([a-z]|[\u00A0-" ++
   "\uD7FF\uF900-\uFDCF\uFDF0-\uFFEF])|(([a-z]|[\u00A0-\uD7FF\uF900-\uFDCF\uFDF0-\uFFEF])([a-z]|" ++
   "\d|-|\.|_|~|[\u00A0-\uD7FF\uF900-\uFDCF\uFDF0-\uFFEF])*([a-z]|[\u00A0-\uD7FF\uF900-\uFDCF\uFDF0-" ++
   "\uFFEF])))\.?$") true.
Definition integer_regex : pattern := Pattern "^[\-\+]?\d+$" false.
Definition number_regex : pattern := Pattern "^[\-\+]?(([0-9]+)([\.,]([0-9]+))?|([\.,]([0-9]+))?)$" false.
Definition date_regex : pattern :=
  Pattern "^\d{4}[\/\-](0?[1-9]|1[012])[\/\-](0?[1-9]|[12][0-9]|3[01])$" false.
Definition postCode_regex : pattern := Pattern "^\d{6}$" false.
Definition ipv4_regex : pattern := Pattern
  ("^((([01]?[0-9]{1,2})|(2[0-4][0-9])|(25[0-5]))[.]){3}(([0-1]?[0-9]{1,2})" ++
   "|(2[0-4][0-9])|(25[0-5]))$") false.
Definition url_regex : pattern := Pattern
  ("^(https?|ftp):\/\/(((([a-z]|\d|-|\.|_|~|[\u00A0-\uD7FF\uF900-\uFDCF\uFDF0-\uFFEF])" ++
   "|(%[\da-f]{2})|[!\$&'\(\)\*\+,;=]|:)*@)?(((\d|[1-9]\d|1\d\d|2[0-4]\d|25[0-5])" ++
   "\.(\d|[1-9]\d|1\d\d|2[0-4]\d|25[0-5])\.(\d|[1-9]\d|1\d\d|2[0-4]\d|25[0-5])" ++
   "\.(\d|[1-9]\d|1\d\d|2[0-4]\d|25[0-5]))|((([a-z]|\d|[\u00A0-\uD7FF\uF900-\uFDCF\uFDF0-\uFFEF]" ++
   ")|(([a-z]|\d|[\u00A0-\uD7FF\uF900-\uFDCF\uFDF0-\uFFEF])([a-z]|\d|-|\.|" ++
   "_|~|[\u00A0-\uD7FF\uF900-\uFDCF\uFDF0-\uFFEF])*([a-z]|\d|[\u00A0-\uD7FF\uF900-\uFDCF\uFDF0-\uFFEF]" ++
   ")))\.)+(([a-z]|[\u00A0-\uD7FF\uF900-\uFDCF\uFDF0-\uFFEF])|(([a-z]|[\u00A0-\uD7FF\uF900-\uFDCF\uFDF0-" ++
   "\uFFEF])([a-z]|\d|-|\.|_|~|[\u00A0-\uD7FF\uF900-\uFDCF\uFDF0-\uFFEF])*([a-z]|[\u00A0-\uD7FF\uF900-" ++
   "\uFDCF\uFDF0-\uFFEF])))\.?)(:\d*)?)(\/((([a-z]|\d|-|\.|_|~|[\u00A0-\uD7FF\uF900-\uFDCF\uFDF0-" ++
   "\uFFEF])|(%[\da-f]{2})|[!\$&'\(\)\*\+,;=]|:|@)+(\/(([a-z]|\d|-|\.|_|~|[\u00A0-\uD7FF\uF900-\uFDCF\uFDF0-" ++
   "\uFFEF])|(%[\da-f]{2})|[!\$&'\(\)\*\+,;=]|:|@)*)*)?)?(\?((([a-z]|\d|-|\.|_|~|[\u00A0-\uD7FF\uF900-" ++
   "\uFDCF\uFDF0-\uFFEF])|(%[\da-f]{2})|[!\$&'\(\)\*\+,;=]|:|@)|[\uE000-\uF8FF]|\/|\?)*)?(\#((([" ++
   "a-z]|\d|-|\.|_|~|[\u00A0-\uD7FF\uF900-\uFDCF\uFDF0-\uFFEF])|(%[\da-f]{2})|[!\$&'\(\)\*\+,;=]" ++
   "|:|@)|\/|\?)*)?$") true.
Definition onlyNumberSp_regex : pattern := Pattern "^[0-9\ ]+$" false.
Definition letterNum_regex : pattern := Pattern "^([a-zA-Z0-9]|[_]|[.]|[\s]|[\u4e00-\u9fa5])+$" false.
Definition letterHanzi_regex : pattern := Pattern "^([a-zA-Z]|[.]|[\s]|[\u4e00-\u9fa5])+$" false.
Definition onlyLetterSp_regex : pattern := Pattern "^[a-zA-Z\ \']+$" false.
Definition p10base64_regex : pattern := Pattern "^([0-9a-zA-Z]|[-]|[=]|[\/\]|[\s])+$" false.
Definition onlyLetterNumber_regex : pattern := Pattern "^[0-9a-zA-Z]+$" false.

Definition dateRegEx : pattern := Pattern
  ("^\d{4}[\/\-](0?[1-9]|1[012])[\/\-](0?[1-9]|[12][0-9]|3[01])$|^(?:(?:(?:0?[13578]|" ++
   "1[02])(\/|-)31)|(?:(?:0?[1,3-9]|1[0-2])(\/|-)(?:29|30)))(\/|-)(?:[1-9]\d\d\d|" ++
   "\d[1-9]\d\d|\d\d[1-9]\d|\d\d\d[1-9])$|^(?:(?:0?[1-9]|1[0-2])(\/|-)(?:0?[1-9]|" ++
   "1\d|2[0-8]))(\/|-)(?:[1-9]\d\d\d|\d[1-9]\d\d|\d\d[1-9]\d|\d\d\d[1-9])$|" ++
   "^(0?2(\/|-)29)(\/|-)(?:(?:0[48]00|[13579][26]00|[2468][048]00)|(?:\d\d)?(?:0[48]|" ++
   "[2468][048]|[13579][26]))$") false.
Definition dateTimeRegEx : pattern := Pattern
  ("^\d{4}[\/\-](0?[1-9]|1[012])[\/\-](0?[1-9]|[12][0-9]|3[01])\s+(1[012]|" ++
   "0?[1-9]){1}:(0?[1-5]|[0-6][0-9]){1}:(0?[0-6]|[0-6][0-9]){1}\s+(am|pm|AM|" ++
   "PM){1}$|^(?:(?:(?:0?[13578]|1[02])(\/|-)31)|(?:(?:0?[1,3-9]|1[0-2])(\/|" ++
   "-)(?:29|30)))(\/|-)(?:[1-9]\d\d\d|\d[1-9]\d\d|\d\d[1-9]\d|\d\d\d[1-9])" ++
   "$|^((1[012]|0?[1-9]){1}\/(0?[1-9]|[12][0-9]|3[01]){1}\/\d{2,4}\s+(1[012]|" ++
   "0?[1-9]){1}:(0?[1-5]|[0-6][0-9]){1}:(0?[0-6]|[0-6][0-9]){1}\s+(am|pm|AM|" ++
   "PM){1})$") false.

(** The string literal of [uri] has lost the backslashes before its dots. *)
Definition mobile_regex : pattern := Pattern "^1[3|4|5|8][0-9]\d{8}$" false.
Definition extphonenum_regex : pattern := Pattern "^\d{3,}$" false.
Definition uri_regex : pattern := Pattern
  ("^((https|http|ftp|rtsp|mms)?://)?(([0-9a-z_!~*'().&=+$%-]+: )?[0-9a-z_!~*'().&=+$%-]+@)?(([0" ++
   "-9]{1,3}.){3}[0-9]{1,3}|([0-9a-z_!~*'()-]+.)*([0-9a-z][0-9a-z-]{0,61})?[0-9a-z].[a-z]{2,6})(" ++
   ":[0-9]{1,4})?((/?)|(/[0-9a-z_!~*'().;?:@&=+$,%#-]+)+/?)$") false.
Definition guid_regex : pattern :=
  Pattern "^([0-9a-fA-F]{8}-[0-9a-fA-F]{4}-[0-9a-fA-F]{4}-[0-9a-fA-F]{4}-[0-9a-fA-F]{12})$" false.
Definition idCard_regex : pattern := Pattern
  ("(^[1-9]\d{7}((0\d)|(1[0-2]))(([0|1|2]\d)|3[0-1])\d{3}$)|(^[1-9]\d{5}[1-9]\d{3}((0\d)" ++
   "|(1[0-2]))(([0|1|2]\d)|3[0-1])((\d{4})|\d{3}[A-Z])$)") false.
Definition floatnum_regex : pattern := Pattern "^[0-9]+([.]\d{1,2})?$" false.

(** ** Tables

    The entries of a rule other than its pattern are kept by name; an entry that is
    missing is [undefined]. *)
Record rule := Rule { regex : option pattern; entries : list (string * string) }.
Definition entry (name : string) (r : rule) : option string := oget name (entries r).

(** Rules that are not patterns have the text [none] where others have one. *)
Definition none : pattern := Pattern "none" false.

Definition allRules : list (string * rule) :=
  [("required", Rule (Some none)
      [("alertText", "* 该项为必输项");
       ("alertTextCheckboxMultiple", "* 请选择");
       ("alertTextSelect", "* 请选择一个选项");
       ("alertTextCheckboxe", "* 该选择框为必选项")]);
   ("minSize", Rule (Some none)
      [("alertText", "* 最小值 ");
       ("alertText2", " 字符是允许的")]);
   ("maxSize", Rule (Some none)
      [("alertText", "* 最大值 ");
       ("alertText2", " 字符是允许的")]);
   ("min", Rule (Some none) [("alertText", "* 最小值是 ")]);
   ("max", Rule (Some none) [("alertText", "* 最大值是 ")]);
   ("past", Rule (Some none) [("alertText", "* 日期早于 ")]);
   ("future", Rule (Some none) [("alertText", "* 日期晚于 ")]);
   ("maxCheckbox", Rule (Some none)
      [("alertText", "* 最大值 ");
       ("alertText2", " 选项允许")]);
   ("minCheckbox", Rule (Some none)
      [("alertText", "* 请选择 ");
       ("alertText2", " 选项")]);
   ("equals", Rule (Some none) [("alertText", "* 字段不匹配")]);
   ("phone", Rule (Some phone_regex) [("alertText", "* 无效的电话号码")]);
   ("email", Rule (Some email_regex) [("alertText", "* 无效的Email地址")]);
   ("integer", Rule (Some integer_regex) [("alertText", "* 无效的整数")]);
   ("number", Rule (Some number_regex) [("alertText", "* 无效的浮动十进制数字")]);
   ("date", Rule (Some date_regex) [("alertText", "* 无效的日期, 必须是YYYY-MM-DD格式")]);
   ("postCode", Rule (Some postCode_regex) [("alertText", "* 无效的邮编格式")]);
   ("ipv4", Rule (Some ipv4_regex) [("alertText", "* 无效的IP地址")]);
   ("url", Rule (Some url_regex) [("alertText", "* 无效的URL")]);
   ("onlyNumberSp", Rule (Some onlyNumberSp_regex) [("alertText", "* 仅仅是数字")]);
   ("letterNum", Rule (Some letterNum_regex) [("alertText", "* 请输入字母、汉字、点号、数字或下划线")]);
   ("letterHanzi", Rule (Some letterHanzi_regex) [("alertText", "* 请输入字母、汉字、点号")]);
   ("onlyLetterSp", Rule (Some onlyLetterSp_regex) [("alertText", "* 仅仅是字母")]);
   ("p10base64", Rule (Some p10base64_regex) [("alertText", "* 请输入Base64编码的字符")]);
   ("onlyLetterNumber", Rule (Some onlyLetterNumber_regex) [("alertText", "* 仅仅是字母和数字")]);
   ("ajaxUserCall", Rule None
      [("url", "ajaxValidateFieldUser");
       ("extraData", "name=eric");
       ("alertText", "* This user is already taken");
       ("alertTextLoad", "* Validating, please wait")]);
   ("ajaxUserCallPhp", Rule None
      [("url", "phpajax/ajaxValidateFieldUser.php");
       ("extraData", "name=eric");
       ("alertTextOk", "* This username is available");
       ("alertText", "* This user is already taken");
       ("alertTextLoad", "* Validating, please wait")]);
   ("ajaxNameCall", Rule None
      [("url", "ajaxValidateFieldName");
       ("alertText", "* This name is already taken");
       ("alertTextOk", "* This name is available");
       ("alertTextLoad", "* Validating, please wait")]);
   ("ajaxTemplateNameCall", Rule None
      [("url", "ctml_checkNameAjax.action");
       ("alertText", "* This name is already taken");
       ("alertTextOk", "* This name is available");
       ("alertTextLoad", "* Validating, please wait")]);
   ("ajaxNameCallPhp", Rule None
      [("url", "phpajax/ajaxValidateFieldName.php");
       ("alertText", "* This name is already taken");
       ("alertTextLoad", "* Validating, please wait")]);
   ("validate2fields", Rule None [("alertText", "* Please input HELLO")])].

Definition cycas_allRules : list (string * rule) :=
  [("mobile", Rule (Some mobile_regex) [("alertText", "* 手机号码格式不正确")]);
   ("extphonenum", Rule (Some extphonenum_regex) [("alertText", "* 分机号码格式不正确")]);
   ("uri", Rule (Some uri_regex) [("alertText", "* URI格式不正确")]);
   ("guid", Rule (Some guid_regex) [("alertText", "* GUID格式不正确")]);
   ("idCard", Rule (Some idCard_regex) [("alertText", "* 身份证格式不正确")]);
   ("floatnum", Rule (Some floatnum_regex) [("alertText", "* 数字格式不正确")])].

(** [_saveOptions]: the rules a form gets. *)
Definition form_rules : list (string * rule) := extend_obj allRules cycas_allRules.

(** Does a text pass the rule [custom[name]]? *)
Definition passes (p : pattern) (s : text) : bool :=
  match RegExp_test p s with Ok b => b | Throw _ => false end.

(** Every pattern of the tables is one that [parse] reads. *)
Example rules_parse :
  forallb (fun '(_, r) => match regex r with Some p => bool_decide (is_Some (parse p)) | None => true end)
    form_rules = true.
Proof. vm_compute. done. Qed.
Example rules_ex :
  passes email_regex (units "A.b@x.co") = true /\ passes email_regex (units "a@b") = false /\
  passes url_regex (units "http://10.0.0.1:80/a?b#c") = true /\
  passes number_regex (units "+") = true /\ passes number_regex (units "1,5") = true /\
  passes mobile_regex (units "1|012345678") = true /\
  passes p10base64_regex (units "aB+/") = false /\ passes p10base64_regex (units "[|]") = true /\
  passes uri_regex (units "1a2b3c4") = true /\
  passes dateRegEx (units "2013-02-31") = true /\ passes dateRegEx (units ",/30/2013") = true /\
  passes dateTimeRegEx (units "01/31/2013") = true.
Proof. vm_compute. done. Qed.

(** ** What the patterns accept *)

(** A rule whose pattern is anchored accepts the texts of the body. *)
Lemma passes_anchored p r b s :
  parse p = Some r -> anchored r = Some b -> passes p s = true <-> lang b s.
Proof. intros E Eb. unfold passes, RegExp_test. rewrite E. cbn. by apply anchored_test. Qed.

Lemma digit_class c : in_class false false [(48, 57)] c = is_digit c.
Proof. unfold in_class. cbn. by rewrite !orb_false_r. Qed.

Lemma digits_class s : forallb (in_class false false [(48, 57)]) s = all_digits s.
Proof. induction s as [|c s IH]; [done|]. cbn [forallb all_digits]. by rewrite IH, digit_class. Qed.

Lemma class_member l c :
  in_class false false (map (fun d => (d, d)) l) c = true <-> In c l.
Proof.
  unfold in_class, in_ranges. cbn. rewrite orb_false_r, existsb_exists. split.
  - intros (p & Hp & H). apply in_map_iff in Hp as (d & <- & Hd). unfold in_range in H. cbn in H.
    zbool. by replace c with d by lia.
  - intros H. exists (c, c). split; [by apply (in_map (fun d => (d, d)))|].
    unfold in_range. cbn. by rewrite Z.leb_refl.
Qed.

(** What a text in the language of a sequence is made of. *)
Ltac lang_inv H :=
  match type of H with
  | lang (Seq _ _) _ =>
      let x := fresh "x" in let y := fresh "y" in let H1 := fresh "L" in let H2 := fresh "L" in
      apply lang_seq in H as (x & y & -> & H1 & H2); [|reflexivity|reflexivity];
      lang_inv H1; lang_inv H2
  | lang (Cls false false [(?c, ?c)]) _ =>
      let x := fresh "c" in
      apply lang_cls in H as (x & -> & H); apply (class_member [c]) in H as [<-|[]]
  | _ => idtac
  end.

(** The rule [integer] accepts an optional sign and one or more digits. *)
Theorem integer_spec s :
  passes integer_regex s = true <->
  exists sign ds, s = (sign ++ ds)%list /\ In sign [[]; [43]; [45]] /\ ds <> [] /\ all_digits ds = true.
Proof.
  rewrite passes_anchored by (vm_compute; reflexivity).
  rewrite lang_seq by done. setoid_rewrite lang_plus_cls. setoid_rewrite lang_opt.
  setoid_rewrite lang_cls. setoid_rewrite digits_class.
  setoid_rewrite (class_member [45; 43]). cbn [In].
  split; intros (x & y & -> & Hx & Hy); exists x, y; split_and!; try done; naive_solver.
Qed.

(** A decimal number of an IP address. *)
Definition octet (x : text) : bool := negb (nil_b x) && (value x <=? 255).
Definition octet_text (x : text) : Prop :=
  all_digits x = true /\ (length x <= 3)%nat /\ octet x = true.

(** C40: The rule [ipv4] accepts four numbers of one to three digits, none above 255,
    with dots between them. *)
Theorem ipv4_spec s :
  passes ipv4_regex s = true <->
  exists a b c d, s = (a ++ [46] ++ b ++ [46] ++ c ++ [46] ++ d)%list /\
    octet_text a /\ octet_text b /\ octet_text c /\ octet_text d.
Proof.
  rewrite passes_anchored by (vm_compute; reflexivity).
  assert (forall r, agrees r 3 octet = true -> forall x, lang r x <-> octet_text x) as Ho.
  { intros r Hr x. by apply agrees_lang. }
  split.
  - intros H. lang_inv H. rewrite Ho in * by (vm_compute; reflexivity).
    rewrite <-!app_assoc. eexists _, _, _, _. split; [reflexivity|]. repeat (split; [eassumption|]). done.
  - intros (a & b & c & d & -> & Ha & Hb & Hc & Hd).
    replace (a ++ [46] ++ b ++ [46] ++ c ++ [46] ++ d)%list
      with (((a ++ [46]) ++ (b ++ [46]) ++ (c ++ [46])) ++ d)%list by by rewrite <-!app_assoc.
    repeat (apply lang_app; [done|done|..]);
      solve [apply Ho; [vm_compute; reflexivity|done] | by apply lang_matches].
Qed.

(** The rule [mobile] asks for eleven characters: [1], one of [3], [4], [5], [8] or a
    bar, and nine digits. *)
Theorem mobile_spec s :
  passes mobile_regex s = true <->
  exists c ds, s = 49 :: c :: ds /\ In c [51; 52; 53; 56; 124] /\ length ds = 9%nat /\ all_digits ds = true.
Proof.
  rewrite passes_anchored by (vm_compute; reflexivity).
  match goal with |- _ <-> ?Q => change (lang (Seq (Cls false false (map (fun d => (d, d)) [49]))
    (Seq (Cls false false (map (fun d => (d, d)) [51; 124; 52; 124; 53; 124; 56]))
       (power 9 (Cls false false [(48, 57)])))) s <-> Q) end.
  rewrite !lang_seq by done. setoid_rewrite lang_seq; try done.
  setoid_rewrite lang_cls. setoid_rewrite class_member. setoid_rewrite lang_power_cls.
  setoid_rewrite digits_class. split.
  - intros (x & y & -> & (c & -> & Hc) & x' & y' & -> & (c' & -> & Hc') & Hl & Hd).
    exists c', y'. cbn in Hc, Hc' |- *. split_and!; try done; naive_solver.
  - intros (c & ds & -> & Hc & Hl & Hd). exists [49], (c :: ds). split_and!; [done|exists 49; naive_solver|].
    exists [c], ds. split_and!; try done. exists c. cbn in Hc |- *. naive_solver.
Qed.

(** The numbers of a month and of a day in a date. *)
Definition number_between (lo hi : Z) (x : text) : bool := (lo <=? value x) && (value x <=? hi).
Definition number_text (lo hi : Z) (x : text) : Prop :=
  all_digits x = true /\ (length x <= 2)%nat /\ number_between lo hi x = true.

(** The rule [date] accepts a year of four digits, a month from 1 to 12 and a day from
    1 to 31, of at most two digits each, with a slash or a dash between them. *)
Theorem date_rule_spec s :
  passes date_regex s = true <->
  exists y p m q d, s = (y ++ [p] ++ m ++ [q] ++ d)%list /\
    length y = 4%nat /\ all_digits y = true /\ In p [47; 45] /\ In q [47; 45] /\
    number_text 1 12 m /\ number_text 1 31 d.
Proof.
  rewrite passes_anchored by (vm_compute; reflexivity).
  assert (forall r lo hi, agrees r 2 (number_between lo hi) = true ->
    forall x, lang r x <-> number_text lo hi x) as Ho.
  { intros r lo hi Hr x. by apply agrees_lang. }
  pose proof (lang_power_cls 4 false false [(48, 57)]) as Hy.
  assert (forall x, lang (Cls false false [(47, 47); (45, 45)]) x <-> exists c, x = [c] /\ In c [47; 45]) as Hs.
  { intros x. rewrite lang_cls. by setoid_rewrite (class_member [47; 45]). }
  split.
  - intros H. apply lang_seq in H as (y & z & -> & H1 & H2); [|done..].
    apply Hy in H1 as [Hl Hd]. rewrite digits_class in Hd. lang_inv H2.
    repeat match goal with L : lang (Cls _ _ _) _ |- _ => apply Hs in L as (? & -> & ?) end.
    repeat match goal with L : lang (Alt _ _) _ |- _ => 
      first [apply (Ho _ 1 12) in L; [|vm_compute; reflexivity]
            |apply (Ho _ 1 31) in L; [|vm_compute; reflexivity]] end.
    eauto 12.
  - intros (y & p & m & q & d & -> & Hl & Hd & Hp & Hq & Hm & Hn).
    apply lang_app; [done|done|apply Hy; by rewrite digits_class|].
    repeat (apply lang_app; [done|done|..]);
      solve [apply Hs; eauto | apply (Ho _ 1 12); [vm_compute; reflexivity|done]
            | apply (Ho _ 1 31); [vm_compute; reflexivity|done]].
Qed.

(** [_isDate] accepts every text of the rule [date]: it does not look at the month to
    bound the day. *)
Lemma date_rule_isDate s : passes date_regex s = true -> passes dateRegEx s = true.
Proof.
  destruct (parse dateRegEx) as [r|] eqn:E; [|by vm_compute in E].
  destruct (parse date_regex) as [r1|] eqn:E1; [|by vm_compute in E1].
  assert (exists r2, r = Alt r1 r2) as [r2 ->].
  { vm_compute in E. vm_compute in E1. simplify_eq. by eexists. }
  unfold passes, RegExp_test. rewrite E, E1. cbn. rewrite test_alt. by intros ->.
Qed.
