(* ===== verification/ValidRules.v ===== *)
(** * Form validation: single rules

    The rule methods of [validation/jquery.validationEngine.js], each as a function of
    the value it looks at, the argument of the rule and the table of rules; a rule
    whose message is missing from the table throws when it would show it.  A message
    is [None] when the method returns [undefined].  Dates are UTC time values, and the
    host's time zone is a parameter. *)

From S2P Require Import Prelude JsString JsNum JsDate Json PageText RegExp Rules.
From Stdlib Require Import Ascii.
Local Open Scope string_scope.
Local Open Scope Z_scope.

(** ** Values *)

(** What [field.val()] returns: [null], a string, or the array of a multiple choice. *)
Inductive fval := VNull | VStr (s : text) | VArr (l : list text).

#[export] Instance fval_eq_dec : EqDecision fval.
Proof. solve_decision. Defined.

Fixpoint join_commas (l : list text) : text :=
  match l with
  | [] => []
  | [s] => s
  | s :: l' => s ++ 44 :: join_commas l'
  end.

(** The string a value is converted to, and whether it is [""] for the loose
    comparison, which does not convert [null]. *)
Definition val_text (v : fval) : text :=
  match v with VNull => units "null" | VStr s => s | VArr l => join_commas l end.
Definition val_empty (v : fval) : bool :=
  match v with VNull => false | VStr s => nil_b s | VArr l => nil_b (join_commas l) end.
Definition val_truthy (v : fval) : bool :=
  match v with VNull => false | VStr s => negb (nil_b s) | VArr _ => true end.
Definition val_length (v : fval) : res Z :=
  match v with
  | VNull => Throw TypeError
  | VStr s => Ok (Z.of_nat (length s))
  | VArr l => Ok (Z.of_nat (length l))
  end.

(** [methods._ToCDB]: only strings have [replace]. *)
Definition _ToCDB (v : fval) : res fval :=
  if val_empty v then Ok (VStr [])
  else match v with VStr s => Ok (VStr (ToCDB s)) | _ => Throw TypeError end.

(** [v != w], where [w] may be [undefined]; two arrays are never the same. *)
Definition val_differs (v : fval) (w : option fval) : bool :=
  match v, w with
  | VNull, None | VNull, Some VNull => false
  | VNull, _ | _, None | _, Some VNull => true
  | VArr _, Some (VArr _) => true
  | v, Some w => negb (bool_decide (val_text v = val_text w))
  end.

(** The characters of a text as far as numbers are concerned: white space, ASCII, and
    others. *)
Definition ascii_unit (c : Z) : ascii :=
  if ws c then " "%char
  else if in_range 0 127 c then ascii_of_nat (Z.to_nat c) else "?"%char.
Definition ascii_text (s : text) : string :=
  fold_right (fun c r => String (ascii_unit c) r) "" s.

(** ** Messages *)

Section Messages.
Context (allrules : list (string * rule)).

(** [options.allrules[name].entry]: the rule must exist, its entry need not. *)
Definition message (name key : string) : res (option string) :=
  r ← of_option (oget name allrules); Ok (entry key r).

(** An entry in a sum of strings. *)
Definition shown (o : option string) : string := default "undefined" o.

Definition with_alert (name middle : string) (second : bool) : res (option string) :=
  r ← of_option (oget name allrules);
  Ok (Some (shown (entry "alertText" r) ++ middle ++
            if second then shown (entry "alertText2" r) else "")).

(** With the second part of the message only if there is one. *)
Definition with_alert2 (name middle : string) : res (option string) :=
  r ← of_option (oget name allrules);
  with_alert name middle (if truthy_str (entry "alertText2" r) is Some _ then true else false).

(** ** Sizes and numbers

    The argument of a rule is the next item of the list of rules, [None] when there is
    none; in comparisons [undefined] is [NaN]. *)
Definition arg_number (a : option string) : num := default nan (Number <$> a).

Definition _maxSize (v : fval) (max : option string) : res (option string) :=
  len ← val_length v;
  if (arg_number max < num_of_Z len)%num then with_alert "maxSize" (shown max) true else Ok None.

Definition _minSize (v : fval) (min : option string) : res (option string) :=
  len ← val_length v;
  if (num_of_Z len < arg_number min)%num then with_alert "minSize" (shown min) true else Ok None.

Definition val_number (v : fval) : num := parseFloat (ascii_text (val_text v)).
Definition arg_float (a : option string) : num := default nan (parseFloat <$> a).

Definition _min (v : fval) (a : option string) : res (option string) :=
  let min := arg_float a in
  if (val_number v < min)%num then with_alert2 "min" (num_string min) else Ok None.

Definition _max (v : fval) (a : option string) : res (option string) :=
  let max := arg_float a in
  if (max < val_number v)%num then with_alert2 "max" (num_string max) else Ok None.

(** ** Equality with another field *)
Definition _equals (v : fval) (other : option fval) : res (option string) :=
  if val_differs v other then message "equals" "alertText" else Ok None.

(** ** Patterns

    [Alert] texts are the page's [alert]; the value is normalised before it is
    tested and stays so.  The result is the new value and the message. *)
Definition _customRegex (v : fval) (a : option string) : res (option fval * option string * option string) :=
  let customRule := shown a in
  match oget customRule allrules with
  | None => Ok (None, None, Some ("jqv:custom rule not found " ++ customRule))
  | Some rule =>
      match regex rule with
      | None => Ok (None, None, Some ("jqv:custom regex not found " ++ customRule))
      | Some ex =>
          match parse ex with
          | None => Throw SyntaxError
          | Some r =>
              v' ← _ToCDB v;
              Ok (Some v', if test r (val_text v') then None else entry "alertText" rule, None)
          end
      end
  end.

(** ** Numbers of checked boxes *)
Definition _maxCheckbox (groupSize : Z) (nbCheck : option string) : res (option string) :=
  if (arg_number nbCheck < num_of_Z groupSize)%num then
    r ← of_option (oget "maxCheckbox" allrules);
    if truthy_str (entry "alertText2" r) is Some _
    then with_alert "maxCheckbox" (" " ++ shown nbCheck ++ " ") true
    else Ok (entry "alertText" r)
  else Ok None.

Definition _minCheckbox (groupSize : Z) (nbCheck : option string) : res (option string) :=
  if (num_of_Z groupSize < arg_number nbCheck)%num
  then with_alert "minCheckbox" (" " ++ shown nbCheck ++ " ") true else Ok None.

(** ** Card numbers *)

(** [parseInt] of one character. *)
Definition digit_of (c : Z) : option Z := if is_digit c then Some (c - 48) else None.

(** The loop from the last character: the digits, every second one doubled, as one
    string. *)
Fixpoint luhn_text (pos : Z) (rest : text) : string :=
  match rest with
  | [] => ""
  | c :: rest' =>
      match digit_of c with
      | Some d => show_Z (if pos mod 2 =? 0 then d * 2 else d)
      | None => "NaN"
      end ++ luhn_text (pos + 1) rest'
  end.

(** The sum of the characters of that string; [None] is [NaN]. *)
Fixpoint text_sum (sum : option Z) (luhn : string) : option Z :=
  match luhn with
  | EmptyString => sum
  | String c luhn' => text_sum (s ← sum; d ← digit_value c; Some (s + d)) luhn'
  end.

Definition card_number (s : text) : text :=
  List.filter (fun c => negb (c =? 45)) (List.filter (fun c => negb (c =? 32)) s).

Definition card_valid (s : text) : bool :=
  let cardNumber := card_number s in
  let numDigits := Z.of_nat (length cardNumber) in
  if (14 <=? numDigits) && (numDigits <=? 16)
     && match parseInt (ascii_text cardNumber) with Some n => 0 <? n | None => false end
  then match text_sum (Some 0) (luhn_text 1 (rev cardNumber)) with
       | Some sum => sum mod 10 =? 0
       | None => false
       end
  else false.

Definition _creditCard (v : fval) : res (option string) :=
  match v with
  | VStr s => if card_valid s then Ok None else message "creditCard" "alertText"
  | _ => Throw TypeError
  end.

(** ** Dates *)

Section Dates.
Context (UTC LocalTime : Z -> Z) (Date_parse : text -> option Z).

(** The integer part of a number, [None] for [NaN] and the infinities. *)
Definition truncate (x : num) : option Z :=
  if isNaN x || (x === infinity)%num || (x === neg_infinity)%num then None
  else let '(p, q) := num_ratio x in Some (Z.quot p q).

Definition TimeClip (t : Z) : option Z := if Z.abs t <=? 8640000000000000 then Some t else None.

(** [new Date(y, m, d)] in local time; a year below 100 is one of the last century. *)
Definition new_Date (y m d : num) : option Z :=
  y ← truncate y; m ← truncate m; d ← truncate d;
  let y := if (0 <=? y) && (y <=? 99) then 1900 + y else y in
  TimeClip (UTC (MakeDate (MakeDay y m d) 0)).

Definition _parseDate (d : string) : option Z :=
  let parts := split_on "-" d in
  let dateParts := match parts with [_] => split_on "/" d | _ => parts end in
  let part i := default nan (Number <$> dateParts !! i) in
  new_Date (part 0%nat) (part 1%nat - 1)%num (part 2%nat).

(** [new Date()] is [now]; the getters of an invalid date are [NaN]. *)
Definition _dateToString (date : option Z) : string :=
  match date with
  | None => "NaN-NaN-NaN"
  | Some t =>
      let l := LocalTime t in
      show_Z (getUTCFullYear l) ++ "-" ++ show_Z (getUTCMonth l + 1) ++ "-" ++ show_Z (getUTCDate l)
  end.

Definition limit_date (now : Z) (a : option string) : res (option Z) :=
  p ← of_option a;
  Ok (if String.eqb (lower p) "now" then Some now else _parseDate p).

Definition before (a b : option Z) : bool :=
  match a, b with Some a, Some b => a <? b | _, _ => false end.

(** A value that is not a string has no [split]. *)
Definition val_date (v : fval) : res (option Z) :=
  match v with VStr s => Ok (_parseDate (ascii_text s)) | _ => Throw TypeError end.

Definition _past (now : Z) (v : fval) (a : option string) : res (option string) :=
  pdate ← limit_date now a;
  vdate ← val_date v;
  if before pdate vdate then with_alert2 "past" (_dateToString pdate) else Ok None.

Definition _future (now : Z) (v : fval) (a : option string) : res (option string) :=
  pdate ← limit_date now a;
  vdate ← val_date v;
  if before vdate pdate then with_alert2 "future" (_dateToString pdate) else Ok None.

Definition _isDate (s : text) : bool := passes dateRegEx s.
Definition _isDateTime (s : text) : bool := passes dateTimeRegEx s.
Definition _dateCompare (s e : text) : bool := before (Date_parse s) (Date_parse e).

(** [_dateRange] and [_dateTimeRange], which differ in the pattern. *)
Definition range_with (is_date : text -> bool) (name : string) (first second : text) : res (option string) :=
  if bool_decide (nil_b first <> nil_b second) || negb (is_date first) || negb (is_date second)
     || negb (_dateCompare first second)
  then with_alert name "" true else Ok None.
Definition _dateRange := range_with _isDate.
Definition _dateTimeRange := range_with _isDateTime.

End Dates.
End Messages.

(** ** Dates: the theorem *)

(** The integers of a range read back from their decimal text. *)
Definition reads_back (f : num -> num) (shift : Z) (z : Z) : bool :=
  bool_decide (truncate (f (Number (show_Z z))) = Some (z - shift) /\ lacks "-" (show_Z z) = true).

Lemma reads_back_range f shift lo n z :
  forallb (reads_back f shift) (seqZ lo n) = true -> lo <= z < lo + n ->
  truncate (f (Number (show_Z z))) = Some (z - shift) /\ lacks "-" (show_Z z) = true.
Proof.
  rewrite forallb_forall. intros H Hz. specialize (H z). unfold reads_back in H.
  rewrite bool_decide_eq_true in H. apply H, list_elem_of_In, elem_of_seqZ. lia.
Qed.

Lemma year_reads z : 1900 <= z < 2200 ->
  truncate (Number (show_Z z)) = Some z /\ lacks "-" (show_Z z) = true.
Proof.
  intros Hz. destruct (reads_back_range id 0 1900 300 z) as [H1 H2]; [by vm_compute|lia|].
  rewrite Z.sub_0_r in H1. done.
Qed.

Lemma day_reads z : 1 <= z <= 31 ->
  truncate (Number (show_Z z)) = Some z /\ lacks "-" (show_Z z) = true.
Proof.
  intros Hz. destruct (reads_back_range id 0 1 31 z) as [H1 H2]; [by vm_compute|lia|].
  rewrite Z.sub_0_r in H1. done.
Qed.

Lemma month_reads z : 0 <= z <= 11 ->
  truncate (Number (show_Z (z + 1)) - 1)%num = Some z /\ lacks "-" (show_Z (z + 1)) = true.
Proof.
  intros Hz. destruct (reads_back_range (fun x => x - 1)%num 1 1 12 (z + 1)) as [H1 H2]; [by vm_compute|lia|].
  by rewrite Z.add_simpl_r in H1.
Qed.

(** Printing a date and reading it again gives the start of its day, for the years from
    1900 to 2199, wherever the host's clock is set: [UTC] and [LocalTime] need
    only differ from the identity by less than a day. *)
Theorem date_prints_and_parses (UTC LocalTime : Z -> Z) t :
  (forall x, Z.abs (UTC x - x) < msPerDay) ->
  1900 <= getUTCFullYear (LocalTime t) < 2200 ->
  _parseDate UTC (_dateToString LocalTime (Some t)) =
  Some (UTC (Day (LocalTime t) * msPerDay)).
Proof.
  intros HU Hy. unfold _parseDate, _dateToString. set (l := LocalTime t) in *.
  unfold getUTCFullYear, getUTCMonth, getUTCDate in *. set (dl := Day l) in *.
  pose proof (MonthFromDay_bounds dl) as Hm. pose proof (DateFromDay_bounds dl) as Hd.
  destruct (year_reads (YearFromDay dl) ltac:(lia)) as [Y1 Y2].
  destruct (month_reads (MonthFromDay dl) ltac:(lia)) as [M1 M2].
  destruct (day_reads (DateFromDay dl) ltac:(lia)) as [D1 D2].
  assert (forall s, "-" ++ s = String "-" s) as Hdash by done. rewrite !Hdash.
  rewrite (split_on_plain _ _ _ Y2), (split_on_plain _ _ _ M2), (split_on_lacks _ _ D2).
  cbn. unfold new_Date. rewrite Y1, M1, D1. cbn [mbind option_bind].
  replace ((0 <=? YearFromDay dl) && (YearFromDay dl <=? 99)) with false
    by (symmetry; apply andb_false_iff; right; apply Z.leb_gt; lia).
  unfold MakeDate. rewrite MakeDay_id, Z.add_0_r. unfold TimeClip.
  replace (_ <=? _) with true; [done|]. symmetry. apply Z.leb_le.
  pose proof (YearFromDay_spec dl) as [H1 H2]. specialize (HU (dl * msPerDay)).
  pose proof (DayFromYear_mono 1900 (YearFromDay dl) ltac:(lia)) as H3.
  pose proof (DayFromYear_mono (YearFromDay dl + 1) 2200 ltac:(lia)) as H4.
  change (DayFromYear 1900) with (-25567) in H3. change (DayFromYear 2200) with 84006 in H4.
  unfold msPerDay in *. lia.
Qed.

Lemma date_prints_and_parses_witness :
  _parseDate (fun x => x - 28800000) (_dateToString (fun x => x + 28800000) (Some 1388577600000)) =
  Some (1388534400000 - 28800000).
Proof.
  apply (date_prints_and_parses (fun x => x - 28800000) (fun x => x + 28800000) 1388577600000).
  - intros x. unfold msPerDay. lia.
  - vm_compute. split; [discriminate|done].
Defined.

(** ** Card numbers: the checksum

    The weight of a digit: what its place in the string of the loop adds to the sum. *)
Definition weight (pos c : Z) : Z :=
  let d := c - 48 in
  if pos mod 2 =? 0 then (if 2 * d <? 10 then 2 * d else 2 * d - 9) else d.

Fixpoint luhn_sum (pos : Z) (l : text) : Z :=
  match l with [] => 0 | c :: l' => weight pos c + luhn_sum (pos + 1) l' end.

Lemma digit_range c : is_digit c = true -> 48 <= c <= 57.
Proof. unfold is_digit, in_range. intros H. zbool. lia. Qed.

Ltac digit c H :=
  let Hc := fresh in pose proof (digit_range c H) as Hc;
  assert (c = 48 \/ c = 49 \/ c = 50 \/ c = 51 \/ c = 52 \/ c = 53 \/ c = 54 \/ c = 55 \/ c = 56 \/ c = 57)
    as [->|[->|[->|[->|[->|[->|[->|[->|[->| ->]]]]]]]]] by lia; clear Hc.

Lemma text_sum_none s : text_sum None s = None.
Proof. by induction s. Qed.

Lemma text_sum_app sum s t : text_sum sum (s ++ t) = text_sum (text_sum sum s) t.
Proof. revert sum. induction s as [|c s IH]; intros sum; [done|]. rewrite str_app_cons. cbn. apply IH. Qed.

Lemma text_sum_shift a s : text_sum (Some a) s = Z.add a <$> text_sum (Some 0) s.
Proof.
  revert a. induction s as [|c s IH]; intros a; cbn; [by rewrite Z.add_0_r|].
  destruct (digit_value c) as [d|]; cbn; [|by rewrite text_sum_none].
  rewrite (IH (a + d)), (IH (0 + d)). destruct (text_sum (Some 0) s); cbn [fmap option_fmap option_map]; [|done]. f_equal. lia.
Qed.

(** One step of the loop adds the weight of its digit. *)
Lemma text_sum_digit pos c :
  is_digit c = true ->
  text_sum (Some 0) (show_Z (if pos mod 2 =? 0 then (c - 48) * 2 else c - 48)) = Some (weight pos c).
Proof. intros H. unfold weight. destruct (pos mod 2 =? 0); digit c H; reflexivity. Qed.

Lemma luhn_text_sum pos l :
  text_sum (Some 0) (luhn_text pos l) = if all_digits l then Some (luhn_sum pos l) else None.
Proof.
  revert pos. induction l as [|c l IH]; intros pos; [done|].
  cbn [luhn_text all_digits forallb luhn_sum]. rewrite text_sum_app. unfold digit_of.
  destruct (is_digit c) eqn:E; cbn [andb].
  - rewrite text_sum_digit, text_sum_shift, IH by done. fold (all_digits l). by destruct (all_digits l).
  - change (text_sum (Some 0) "NaN") with (@None Z). by rewrite text_sum_none.
Qed.

Lemma ascii_digit c : is_digit c = true -> digit_value (ascii_unit c) = Some (c - 48).
Proof. intros H. digit c H; reflexivity. Qed.

Lemma parse_digits_value a s :
  all_digits s = true ->
  parse_digits (Some a) (ascii_text s) = Some (fold_left (fun v c => 10 * v + (c - 48)) s a).
Proof.
  revert a. induction s as [|c s IH]; intros a; cbn; [done|].
  rewrite andb_true_iff. intros [Hc Hs]. rewrite ascii_digit by done. by apply IH.
Qed.

Lemma parseInt_digits s : s <> [] -> all_digits s = true -> parseInt (ascii_text s) = Some (value s).
Proof.
  destruct s as [|c s]; [done|]. intros _ H. cbn in H. apply andb_true_iff in H as [Hc Hs].
  pose proof (parse_digits_value (c - 48) s Hs) as Hp.
  unfold value. cbn [fold_left ascii_text fold_right]. fold (ascii_text s). unfold parseInt.
  replace (10 * 0 + (c - 48)) with (c - 48) by lia. rewrite <-Hp. digit c Hc; reflexivity.
Qed.

(** A card number passes exactly when, without spaces and dashes, it has 14 to 16
    characters, all of them digits and not all zero, and the sum of the digits, every
    second one from the right doubled and reduced by 9 from 10 on, is a multiple of
    ten. *)
Theorem card_valid_spec s :
  card_valid s = true <->
  (14 <= length (card_number s) <= 16)%nat /\ all_digits (card_number s) = true /\
  0 < value (card_number s) /\ luhn_sum 1 (rev (card_number s)) mod 10 = 0.
Proof.
  unfold card_valid. generalize (card_number s) as n. intros n.
  rewrite luhn_text_sum.
  assert (all_digits (rev n) = all_digits n) as ->.
  { unfold all_digits. apply eq_true_iff_eq. rewrite !forallb_forall. by setoid_rewrite <-in_rev. }
  destruct (all_digits n) eqn:Hd.
  - destruct (decide (n = [])) as [->|Hn]; [cbn; split; [done|lia]|].
    rewrite parseInt_digits by done. case_match eqn:E.
    + rewrite !andb_true_iff, !Z.leb_le, Z.ltb_lt in E. rewrite Z.eqb_eq. split; [|naive_solver].
      intros. split_and!; try done; lia.
    + split; [done|]. intros (? & _ & ? & _). rewrite <-not_true_iff_false, !andb_true_iff, !Z.leb_le, Z.ltb_lt in E.
      lia.
  - split; [|naive_solver]. intros H. by destruct (_ && _ && _).
Qed.

Lemma luhn_sum_app pos a b : luhn_sum pos (a ++ b) = luhn_sum pos a + luhn_sum (pos + Z.of_nat (length a)) b.
Proof.
  revert pos. induction a as [|c a IH]; intros pos; cbn [app luhn_sum length].
  - by rewrite Z.add_0_r.
  - rewrite IH. replace (pos + Z.of_nat (S (length a))) with (pos + 1 + Z.of_nat (length a)) by lia. lia.
Qed.

Lemma all_digits_app a b : all_digits (a ++ b) = all_digits a && all_digits b.
Proof. apply forallb_app. Qed.

(** Two valid numbers that agree but for a part in the middle: the parts weigh the
    same. *)
Lemma card_parts s s' a x x' b :
  card_number s = (a ++ x ++ b)%list -> card_number s' = (a ++ x' ++ b)%list -> length x = length x' ->
  card_valid s = true -> card_valid s' = true ->
  exists pos, (luhn_sum pos (rev x) - luhn_sum pos (rev x')) mod 10 = 0 /\
    all_digits x = true /\ all_digits x' = true.
Proof.
  intros E E' Hl. rewrite !card_valid_spec, E, E', !rev_app_distr, !luhn_sum_app, !length_rev, !length_app, Hl,
    !length_rev, !all_digits_app, !andb_true_iff.
  intros (_ & (_ & Hx & _) & _ & H) (_ & (_ & Hx' & _) & _ & H'). eexists. split; [|done].
  match type of H with (?P + ?X + ?Q) mod _ = _ => match type of H' with (_ + ?Y + _) mod _ = _ =>
    replace (X - Y) with ((P + X + Q) - (P + Y + Q)) by lia end end.
  rewrite Zminus_mod, H, Hl, H'. reflexivity.
Qed.

(** One wrong digit is always noticed: two numbers that differ in one place are not
    both valid. *)
Theorem card_wrong_digit s s' a c c' b :
  card_number s = (a ++ c :: b)%list -> card_number s' = (a ++ c' :: b)%list -> c <> c' ->
  card_valid s = true -> card_valid s' = false.
Proof.
  intros E E' Hne Hv. apply not_true_is_false. intros Hv'.
  destruct (card_parts s s' a [c] [c'] b E E' eq_refl Hv Hv') as (pos & H & Hc & Hc').
  cbn in H, Hc, Hc'. rewrite andb_true_r in Hc, Hc'. unfold weight in H.
  destruct (pos mod 2 =? 0); digit c Hc; digit c' Hc';
    first [by destruct Hne | vm_compute in H; discriminate].
Qed.

(** Two neighbouring digits that change places are noticed, but for [0] and [9]. *)
Theorem card_swapped_digits s s' a c d b :
  card_number s = (a ++ c :: d :: b)%list -> card_number s' = (a ++ d :: c :: b)%list -> c <> d ->
  card_valid s = true -> card_valid s' = true ->
  (c = 48 /\ d = 57) \/ (c = 57 /\ d = 48).
Proof.
  intros E E' Hne Hv Hv'.
  destruct (card_parts s s' a [c; d] [d; c] b E E' eq_refl Hv Hv') as (pos & H & Hc & _).
  cbn in Hc. apply andb_true_iff in Hc as [Hc Hd]. rewrite andb_true_r in Hd.
  assert ((pos + 1) mod 2 = 1 - pos mod 2) as Hp.
  { rewrite Zplus_mod. destruct (Z.mod_pos_bound pos 2 ltac:(lia)).
    assert (pos mod 2 = 0 \/ pos mod 2 = 1) as [-> | ->] by lia; reflexivity. }
  cbn [rev app luhn_sum] in H. unfold weight in H. rewrite Hp in H.
  assert (pos mod 2 = 0 \/ pos mod 2 = 1) as [Hq|Hq] by (pose proof (Z.mod_pos_bound pos 2); lia);
    rewrite Hq in H; digit c Hc; digit d Hd;
    first [by destruct Hne | by left | by right | vm_compute in H; discriminate].
Qed.

Lemma card_wrong_digit_witness :
  card_valid (units "4111 1111-1111 1111") = true /\ card_valid (units "4111111111111112") = false.
Proof.
  split; [vm_compute; reflexivity|].
  apply (card_wrong_digit (units "4111 1111-1111 1111") (units "4111111111111112")
           (units "411111111111111") 49 50 []); first [vm_compute; reflexivity | discriminate].
Defined.

Lemma card_swapped_digits_witness : (48 = 48 /\ 57 = 57) \/ (48 = 57 /\ 57 = 48).
Proof.
  apply (card_swapped_digits (units "40000000000309") (units "40000000000390")
           (units "400000000003") 48 57 []); first [vm_compute; reflexivity | discriminate].
Defined.
