(* ===== verification/Validator.v ===== *)
(** * Form validation: the engine

    [validation/jquery.validationEngine.js] over one form: [_validateField] with its
    loop over the rules of a field, the prompts, the list of invalid fields, the
    validation of a whole form, and the answers of the server.  A jQuery object is the
    list of the indices of its elements; everything the engine looks up is inside the
    form.  The engine of selectors is jQuery's: [Selectors] is what this code relies on of
    it.  Operations run in a state monad that keeps the state when they throw. *)

From S2P Require Import Prelude JsString JsNum Json PageText RegExp Rules ValidRules.
From Stdlib Require Import Ascii.
Local Open Scope string_scope.
Local Open Scope Z_scope.

(** ** The form *)

Record field := Field {
  f_id : option string; f_name : option string;
  f_attr : option string;      (* the attribute that holds the rules *)
  f_tag : string; f_type : string;
  f_val : fval; f_selected : option text; f_checked : bool;
  f_hidden : bool; f_disabled : bool
}.
Definition set_f_val (v : fval) (f : field) : field :=
  Field (f_id f) (f_name f) (f_attr f) (f_tag f) (f_type f) v (f_selected f) (f_checked f)
    (f_hidden f) (f_disabled f).

Inductive arrow := NoArrow | ArrowTop | ArrowBottom.

Record prompt := Prompt {
  p_el : nat; p_class : string; p_text : string;
  p_green : bool; p_black : bool; p_ajaxed : bool;
  p_arrow : arrow; p_fading : bool;
  p_top : Z; p_left : option Z; p_margin : Z      (* [None] is [NaN] pixels *)
}.

Inductive event :=
| Alert (s : string)
| FormValidating | FormResult (errorFound : bool)
| FieldResult (f : list nat) (isError : bool) (promptText : string)
| Ajax (f : list nat) (url : option string) (data : text)
| AjaxForm
| ScrollTo (f : nat) | Focus (f : nat)
| OnSuccess | OnFailure | OnValidationComplete (r : bool) | OnAjaxFormComplete (status : bool).

Record vstate := VState {
  fields : list field;
  isError : bool; showArrow : bool;
  InvalidFields : list (option nat);
  prompts : list prompt; next_el : nat;
  ajaxValidCache : list (string * bool);
  log : list event
}.

Definition set_fields (x : list field) (s : vstate) : vstate :=
  VState x (isError s) (showArrow s) (InvalidFields s) (prompts s) (next_el s) (ajaxValidCache s) (log s).
Definition set_isError (x : bool) (s : vstate) : vstate :=
  VState (fields s) x (showArrow s) (InvalidFields s) (prompts s) (next_el s) (ajaxValidCache s) (log s).
Definition set_showArrow (x : bool) (s : vstate) : vstate :=
  VState (fields s) (isError s) x (InvalidFields s) (prompts s) (next_el s) (ajaxValidCache s) (log s).
Definition set_invalid (x : list (option nat)) (s : vstate) : vstate :=
  VState (fields s) (isError s) (showArrow s) x (prompts s) (next_el s) (ajaxValidCache s) (log s).
Definition set_prompts (x : list prompt) (n : nat) (s : vstate) : vstate :=
  VState (fields s) (isError s) (showArrow s) (InvalidFields s) x n (ajaxValidCache s) (log s).
Definition set_cache (x : list (string * bool)) (s : vstate) : vstate :=
  VState (fields s) (isError s) (showArrow s) (InvalidFields s) (prompts s) (next_el s) x (log s).
Definition set_log (x : list event) (s : vstate) : vstate :=
  VState (fields s) (isError s) (showArrow s) (InvalidFields s) (prompts s) (next_el s) (ajaxValidCache s) x.

(** ** State and exceptions *)

Definition V (A : Type) : Type := vstate -> vstate * res A.
#[export] Instance V_ret : MRet V := fun A a s => (s, Ok a).
#[export] Instance V_bind : MBind V := fun A B f m s =>
  let '(s', r) := m s in match r with Ok a => f a s' | Throw e => (s', Throw e) end.
Definition gets {A} (f : vstate -> A) : V A := fun s => (s, Ok (f s)).
Definition modify (f : vstate -> vstate) : V unit := fun s => (f s, Ok tt).
Definition throw {A} (e : string) : V A := fun s => (s, Throw e).
Definition lift {A} (r : res A) : V A := fun s => (s, r).
Definition raise_event (e : event) : V unit := modify (fun s => set_log (log s ++ [e]) s).
Definition when (b : bool) (m : V unit) : V unit := if b then m else mret tt.

(** ** The options of a form *)
Record options := Options {
  allrules : list (string * rule);
  promptPosition : string; isOverflown : bool; overflownDIV : bool;
  doNotShowAllErrosOnSubmit : bool; scroll : bool; focusFirstField : bool;
  ajaxFormValidation : bool; onValidationComplete : bool;
  onSuccess : bool; onFailure : bool
}.

(** ** Looking things up *)

(** Does an attribute contain a text? *)
Fixpoint contains (v a : string) : bool :=
  String.prefix v a || match a with EmptyString => false | String _ a' => contains v a' end.
Definition attr_contains (v : string) (f : field) : bool :=
  match f_attr f with Some a => contains v a | None => false end.

(** The indices, in document order, of the elements that satisfy a condition. *)
Fixpoint select_from {A} (i : nat) (p : A -> bool) (l : list A) : list nat :=
  match l with
  | [] => []
  | f :: l' => if p f then i :: select_from (S i) p l' else select_from (S i) p l'
  end.
Definition select (p : field -> bool) (s : vstate) : list nat := select_from 0 p (fields s).

(** *** Classes, names and selectors *)

(** [_getClassName], and the class of the prompt of a field. *)
Fixpoint map_chars (f : ascii -> ascii) (s : string) : string :=
  match s with EmptyString => "" | String c s' => String (f c) (map_chars f s') end.
Definition _getClassName (className : option string) : option string :=
  map_chars (fun c => if Ascii.eqb c ":" || Ascii.eqb c "." then "_"%char else c) <$> truthy_str className.
Definition prompt_class (id : option string) : string := shown (_getClassName id) ++ "formError".

(** [_escapeExpression] *)
Definition special (c : ascii) : bool :=
  existsb (Ascii.eqb c)
    ["#"; ";"; "&"; ","; "."; "+"; "*"; "~"; "'"; ":"; ascii_of_nat 34; "!"; "^"; "$"; "["; "]"; "("; ")";
     "="; ">"; "|"]%char.
Fixpoint _escapeExpression (s : string) : string :=
  match s with
  | EmptyString => ""
  | String c s' => if special c then String "\" (String c (_escapeExpression s'))
                   else String c (_escapeExpression s')
  end.

Definition word_char (c : ascii) : bool := word (code c) || Ascii.eqb c "-".
Fixpoint all_chars (p : ascii -> bool) (s : string) : bool :=
  match s with EmptyString => true | String c s' => p c && all_chars p s' end.
Definition identifier (v : string) : bool := negb (String.eqb v "") && all_chars word_char v.

(** Characters that stand for themselves in a selector: in a class once the special ones
    are escaped, and between the quotes around a name. *)
Definition class_char (c : ascii) : bool := word_char c || special c.
Definition name_char (c : ascii) : bool := word_char c || Ascii.eqb c "." || Ascii.eqb c ":".

Definition named (name : option string) (f : field) : bool :=
  String.eqb (f_tag f) "input" && bool_decide (f_name f = Some (shown name)).

(** What the code relies on of [$] and [find], as jQuery documents them: a selector of a
    class whose special characters are escaped selects the elements of the class, one of a
    plain id the first field that has it, those of a plain name the inputs of the name,
    the checked ones, or the first that is not hidden; a selector that cannot be read
    throws.  Nothing is known of any other selector, such as the class of an id with a
    space or a backslash, or an id with a dot. *)
Class Selectors := {
  select_prompts : list prompt -> string -> res (list nat);
  select_fields : list field -> string -> res (list nat);
  select_prompts_error l sel e : select_prompts l sel = Throw e -> e = "Error";
  select_fields_error l sel e : select_fields l sel = Throw e -> e = "Error";
  select_class l c : all_chars class_char c = true ->
    select_prompts l ("." ++ _escapeExpression c) = Ok (select_from 0 (fun p => String.eqb (p_class p) c) l);
  select_id l i : identifier i = true ->
    select_fields l ("#" ++ i) = Ok (take 1 (select_from 0 (fun f => bool_decide (f_id f = Some i)) l));
  select_name l n : all_chars name_char (shown n) = true ->
    select_fields l ("input[name='" ++ shown n ++ "']") = Ok (select_from 0 (named n) l);
  select_checked l n : all_chars name_char (shown n) = true ->
    select_fields l ("input[name='" ++ shown n ++ "']:checked") =
      Ok (select_from 0 (fun f => named n f && f_checked f) l);
  select_first_shown l n : all_chars name_char (shown n) = true ->
    select_fields l ("input[name='" ++ shown n ++ "'][type!=hidden]:first") =
      Ok (take 1 (select_from 0 (fun f => named n f && negb (String.eqb (f_type f) "hidden")) l))
}.

Section Lookup.
Context {Sel : Selectors}.

Definition jq_find (sel : string) : V (list nat) := s ← gets fields; lift (select_fields s sel).

(** [form.find("[class*=v]")]; a value that is not an identifier is a syntax error. *)
Definition find_group (arg : option string) : V (list nat) :=
  let v := shown arg in
  if identifier v then gets (select (attr_contains v)) else throw "Error".

(** [form.find("input[name='...']")], a missing name being written [undefined]. *)
Definition by_name (name : option string) : V (list nat) := jq_find ("input[name='" ++ shown name ++ "']").

Definition first_of (s : vstate) (jq : list nat) : option field := i ← head jq; fields s !! i.
Definition attr {A} (get : field -> A) (jq : list nat) : V (option A) :=
  gets (fun s => get <$> first_of s jq).
Definition attr_id (jq : list nat) : V (option string) := o ← attr f_id jq; mret (mjoin o).
Definition attr_name (jq : list nat) : V (option string) := o ← attr f_name jq; mret (mjoin o).
Definition prop_type (jq : list nat) : V string := o ← attr f_type jq; mret (default "" o).

(** [field.val()], which is [undefined] for no element, and [field.val(v)]. *)
Definition val (jq : list nat) : V fval := o ← attr f_val jq; lift (of_option o).
Definition set_val (jq : list nat) (v : fval) : V unit :=
  modify (fun s => set_fields (imap (fun i f => if decide (i ∈ jq) then set_f_val v f else f) (fields s)) s).

(** The number of checked inputs of a name. *)
Definition groupSize (name : option string) : V Z :=
  l ← jq_find ("input[name='" ++ shown name ++ "']:checked"); mret (Z.of_nat (length l)).

(** [$($("#id")[0])], and [$("#id").val()], which is the first one's. *)
Definition by_id (id : string) : V (list nat) := l ← jq_find ("#" ++ id); mret (take 1 l).
End Lookup.

(** ** The rules of a field *)

(** The text up to the last closing bracket of the line. *)
Fixpoint to_last_bracket (s : string) : option string :=
  match s with
  | EmptyString => None
  | String c s' =>
      if Ascii.eqb c (ascii_of_nat 10) || Ascii.eqb c (ascii_of_nat 13) then None
      else match to_last_bracket s' with
           | Some t => Some (String c t)
           | None => if Ascii.eqb c "]" then Some "" else None
           end
  end.

(** The group of the pattern that finds the rules: from the first [validate[] that has a
    bracket after it on its line, up to the last such bracket. *)
Fixpoint getRules (s : string) : option string :=
  match (if String.prefix "validate[" s then to_last_bracket (str_drop 9 s) else None) with
  | Some t => Some t
  | None => match s with EmptyString => None | String _ s' => getRules s' end
  end.

(** [str.split(/\[|,|\]/)] *)
Fixpoint split_rules (s : string) : list string :=
  match s with
  | EmptyString => [""]
  | String c s' =>
      if Ascii.eqb c "[" || Ascii.eqb c "," || Ascii.eqb c "]" then "" :: split_rules s'
      else match split_rules s' with
           | [] => [String c ""]
           | w :: ws => String c w :: ws
           end
  end.

Example rules_of_ex :
  split_rules <$> getRules "text validate[required, custom[email],maxSize[40]] l-text" =
    Some ["required"; " custom"; "email"; ""; "maxSize"; "40"; ""].
Proof. reflexivity. Qed.

(** ** Where a prompt goes

    The measures of a field and of the prompt with a text; [g_outerWidth1] counts the
    margins. *)
Record geometry := Geometry {
  g_width : Z; g_height : Z; g_outerWidth : Z; g_outerHeight : Z; g_outerWidth1 : Z;
  g_top : Z; g_left : Z; g_promptHeight : Z; g_promptWidth : Z;
  g_rtl : bool; g_position : option string
}.

(** The position and the shifts of [bottomLeft:+20,-10]; only a second shift that is not
    a number becomes zero. *)
Definition position_type (g : geometry) (promptPosition : string) : string :=
  default promptPosition (truthy_str (g_position g)).
Definition before_colon (p : string) : string :=
  let i := indexOf ":" p in if i =? -1 then p else str_take (Z.to_nat i) p.
Definition shifts (p : string) : option Z * Z :=
  let i := indexOf ":" p in
  if i =? -1 then (Some 0, 0)
  else
    let shift1 := str_drop (Z.to_nat (i + 1)) p in
    let j := indexOf "," shift1 in
    if j =? -1 then (parseInt shift1, 0)
    else (parseInt (str_take (Z.to_nat j) shift1),
          default 0 (parseInt (str_drop (Z.to_nat (j + 1)) shift1))).

(** The position before the shifts: top, left and the top margin. *)
Definition place_ltr (p : string) (overflow : bool) (g : geometry) (top x margin : Z) : Z * Z * Z :=
  if String.eqb p "topLeft" then (top - g_promptHeight g - 10, x, margin)
  else if String.eqb p "centerRight" then
    if overflow then (g_outerHeight g, g_outerWidth1 g + 5, margin)
    else (top, x + g_outerWidth g + 5, margin)
  else if String.eqb p "centerLeft" then (top, x - (g_promptWidth g + 2), margin)
  else if String.eqb p "bottomLeft" then (top + g_height g + 15, x, margin)
  else if String.eqb p "bottomRight" then
    let top' := top + (g_height g + 45) in (top', x + g_width g - 30, - (top' + 5))
  else (if overflow then top else top - g_promptHeight g - 2, x + g_width g - 30, margin).

Definition place_rtl (p : string) (overflow : bool) (g : geometry) (top x margin : Z) : Z * Z * Z :=
  let above := if overflow then top else top - g_promptHeight g - 2 in
  if String.eqb p "topRight" then (above, x + g_width g - g_promptWidth g, margin)
  else if String.eqb p "centerRight" then
    if overflow then (g_outerHeight g, g_outerWidth1 g + 5, margin)
    else (top, x + g_outerWidth g + 5, margin)
  else if String.eqb p "centerLeft" then (top, x - (g_promptWidth g + 2), margin)
  else if String.eqb p "bottomLeft" then (top + g_height g + 15, x - g_promptWidth g + 30, margin)
  else if String.eqb p "bottomRight" then
    (top + g_height g + 15, x + g_width g - g_promptWidth g, margin)
  else (above, x - (g_promptWidth g - 30), margin).

Definition _calculatePosition (g : geometry) (promptPosition : string) (overflow : bool)
  : Z * option Z * Z :=
  let p := position_type g promptPosition in
  let '(top, x, margin) :=
    if overflow then (0, 0, - g_promptHeight g) else (g_top g, g_left g, 0) in
  let '(shiftX, shiftY) := shifts p in
  let '(top, x, margin) :=
    (if g_rtl g then place_rtl else place_ltr) (before_colon p) overflow g top x margin in
  (top + shiftY, Z.add x <$> shiftX, margin).

(** ** Prompts *)

(** [_getPrompt]: the first element of the class, if any. *)
Definition find_prompt `{Selectors} (id : option string) (l : list prompt) : res (option prompt) :=
  r ← select_prompts l ("." ++ _escapeExpression (prompt_class id));
  Ok (i ← head r; l !! i).
Definition _getPrompt `{Selectors} (jq : list nat) : V (option prompt) :=
  id ← attr_id jq; l ← gets prompts; lift (find_prompt id l).

(** A prompt is a mutable element: what happens to it happens to the one of its
    number. *)
Definition on_prompt (el : nat) (f : prompt -> prompt) : V unit :=
  modify (fun s => set_prompts (map (fun p => if (p_el p =? el)%nat then f p else p) (prompts s)) (next_el s) s).

Section Engine.
Context {Sel : Selectors} (o : options) (geo : nat -> string -> geometry).
Context (Date_parse : text -> option Z) (UTC LocalTime : Z -> Z) (now : Z).
Context (window : string -> option (list nat -> V (option string))).
Context (customFunctions : option (string -> option (list nat -> V (option string)))).

Definition arrow_of (show : bool) (positionType : string) : arrow :=
  if show then
    if existsb (String.eqb positionType) ["bottomLeft"; "bottomRight"] then ArrowBottom
    else if existsb (String.eqb positionType) ["topLeft"; "topRight"] then ArrowTop else NoArrow
  else NoArrow.

(** [_buildPrompt]; a field that is not there has no offset. *)
Definition _buildPrompt (jq : list nat) (promptText type : string) (ajaxed : bool) : V unit :=
  id ← attr_id jq;
  show ← gets showArrow;
  el ← gets next_el;
  match jq with
  | [] => throw TypeError
  | f :: _ =>
      let g := geo f promptText in
      let '(top, x, margin) := _calculatePosition g (promptPosition o) (isOverflown o) in
      let p := Prompt el (prompt_class id) promptText (String.eqb type "pass") (String.eqb type "load")
                 ajaxed (arrow_of show (before_colon (position_type g (promptPosition o)))) false
                 top x margin in
      modify (fun s => set_prompts (prompts s ++ [p]) (S el) s)
  end.

Definition _updatePrompt (jq : list nat) (el : nat) (promptText type : string) (ajaxed : bool) : V unit :=
  match jq with
  | [] => throw TypeError
  | f :: _ =>
      let '(top, x, margin) := _calculatePosition (geo f promptText) (promptPosition o) (isOverflown o) in
      on_prompt el (fun p => Prompt (p_el p) (p_class p) promptText (String.eqb type "pass")
        (String.eqb type "load") ajaxed (p_arrow p) (p_fading p) top x margin)
  end.

Definition _showPrompt (jq : list nat) (promptText type : string) (ajaxed ajaxform : bool) : V unit :=
  prompt ← _getPrompt jq;
  match (if ajaxform then None else prompt) with
  | Some p => _updatePrompt jq (p_el p) promptText type ajaxed
  | None => _buildPrompt jq promptText type ajaxed
  end.

(** [_closePrompt] starts to fade the prompt; [fade_done] is the end of the fading,
    which takes the prompt off the page. *)
Definition fade (p : prompt) : prompt :=
  Prompt (p_el p) (p_class p) (p_text p) (p_green p) (p_black p) (p_ajaxed p) (p_arrow p) true
    (p_top p) (p_left p) (p_margin p).
Definition _closePrompt (jq : list nat) : V unit :=
  prompt ← _getPrompt jq;
  match prompt with Some p => on_prompt (p_el p) fade | None => mret tt end.
Definition fade_done (el : nat) : V unit :=
  modify (fun s => set_prompts
    (List.filter (fun p => negb ((p_el p =? el)%nat && p_fading p)) (prompts s)) (next_el s) s).

(** [hidePrompt] and [hide] of a field, which do not escape, and [hideAll]: all prompts
    of the class fade, or all of them. *)
Definition fade_where (p : prompt -> bool) : V unit :=
  modify (fun s => set_prompts (map (fun x => if p x then fade x else x) (prompts s)) (next_el s) s).
Definition hidePrompt (id : option string) : V unit :=
  l ← gets prompts;
  r ← lift (select_prompts l ("." ++ prompt_class id));
  modify (fun s => set_prompts (imap (fun i x => if decide (i ∈ r) then fade x else x) (prompts s))
                     (next_el s) s).
Definition hideAll : V unit := fade_where (fun _ => true).

(** ** Rules that look at the form *)

Definition entry_of (name key : string) : V (option string) := lift (message (allrules o) name key).

Definition _required (name : string) (jq : list nat) : V (option string) :=
  type ← prop_type jq;
  if String.eqb type "radio" || String.eqb type "checkbox" then
    n ← attr_name jq;
    checked ← groupSize n;
    if checked =? 0 then
      l ← by_name n;
      entry_of name (if (length l =? 1)%nat then "alertTextCheckboxe" else "alertTextCheckboxMultiple")
    else mret None
  else if String.eqb type "select-one" then
    v ← val jq;
    if val_truthy v then mret None else entry_of name "alertTextSelect"
  else if String.eqb type "select-multiple" then
    sel ← attr f_selected jq;
    match mjoin sel with
    | Some (_ :: _) => mret None
    | _ => entry_of name "alertTextSelect"
    end
  else
    v ← val jq;
    v' ← lift (_ToCDB v);
    set_val jq v' ;;
    v'' ← val jq;
    if val_truthy v'' then mret None else entry_of name "alertText".

(** The fields of a group, up to the first that [_required] accepts. *)
Fixpoint any_filled (name : string) (l : list nat) : V bool :=
  match l with
  | [] => mret false
  | i :: l' => m ← _required name [i]; if truthy_str m is Some _ then any_filled name l' else mret true
  end.
Definition _groupRequired (name : string) (arg : option string) : V (option string) :=
  l ← find_group arg;
  isValid ← any_filled name l;
  if (isValid : bool) then mret None else entry_of name "alertText".

(** The value of a rule that does not throw when there is no field. *)
Definition val_or (d : fval) (jq : list nat) : V fval := v ← attr f_val jq; mret (default d v).

Definition custom_rule (jq : list nat) (arg : option string) : V (option string) :=
  v ← val_or VNull jq;
  p ← lift (_customRegex (allrules o) v arg);
  let '(v', msg, alert) := p in
  match alert with Some a => raise_event (Alert a) | None => mret tt end ;;
  match v' with Some v' => set_val jq v' | None => mret tt end ;;
  mret msg.

Definition equals_rule (jq : list nat) (arg : option string) : V (option string) :=
  v ← attr f_val jq;
  other ← by_id (shown arg);
  w ← attr f_val other;
  match v with
  | Some v => lift (_equals (allrules o) v w)
  | None => match w with
            | None | Some VNull => mret None
            | _ => entry_of "equals" "alertText"
            end
  end.

(** The first two fields of a group, by their DOM values. *)
Definition dom_value (jq : list nat) (i : nat) : V text :=
  s ← gets (fun s => j ← jq !! i; f ← fields s !! j;
                     Some (match f_val f with VStr t => t | VArr (t :: _) => t | _ => [] end));
  lift (of_option s).

Definition range_rule (range : string -> text -> text -> res (option string)) (name : string)
  (arg : option string) : V (option string) :=
  group ← find_group arg;
  first ← dom_value group 0;
  second ← dom_value group 1;
  if negb (nil_b first) || negb (nil_b second) then lift (range name first second) else mret None.

Definition max_checkbox_rule (jq : list nat) (arg : option string) : V (option string) :=
  n ← attr_name jq;
  size ← groupSize n;
  when (arg_number arg < num_of_Z size)%num (modify (set_showArrow false)) ;;
  lift (_maxCheckbox (allrules o) size arg).
Definition min_checkbox_rule (jq : list nat) (arg : option string) : V (option string) :=
  n ← attr_name jq;
  size ← groupSize n;
  when (num_of_Z size < arg_number arg)%num (modify (set_showArrow false)) ;;
  lift (_minCheckbox (allrules o) size arg).

(** ** The server's part: [_ajax] *)

(** [escape] of the language. *)
Definition escape_unit (c : Z) : string :=
  let n := Z.to_nat c in
  let two k := String (hexdig (k / 16 mod 16)) (String (hexdig (k mod 16)) "") in
  if (c <? 128) && (word c || existsb (Z.eqb c) [64; 42; 43; 45; 46; 47])
  then String (ascii_of_nat n) ""
  else if c <? 256 then "%" ++ two n
  else "%u" ++ two (n / 256)%nat ++ two (n mod 256)%nat.
Definition escape (s : text) : string := fold_right (fun c r => escape_unit c ++ r) "" s.

(** The values of the fields a rule names; [find] is the selector engine. *)
Context (find : list field -> string -> list nat).
Fixpoint dynamic_data (ids : list string) : V (list string) :=
  match ids with
  | [] => mret []
  | id :: ids' =>
      jq ← gets (fun s => find (fields s) id);
      inputValue ← val_or (VStr (units "undefined")) jq;
      rest ← dynamic_data ids';
      mret (match jq with
            | [] => rest
            | _ => (js_replace "#" "" id ++ "=" ++ escape (val_text inputValue)) :: rest
            end)
  end.

Definition _ajax (jq : list nat) (arg : option string) : V unit :=
  rule ← lift (of_option (oget (shown arg) (allrules o)));
  let extraData := default "" (truthy_str (entry "extraData" rule)) in
  dyn ← match truthy_str (entry "extraDataDynamic" rule) with
        | Some d => l ← dynamic_data (split_on "," d); mret (join "&" l)
        | None => mret ""
        end;
  err ← gets isError;
  if (err : bool) then mret tt
  else
    id ← attr_id jq;
    v ← val_or (VStr (units "undefined")) jq;
    match truthy_str (entry "alertTextLoad" rule) with
    | Some t => _showPrompt jq t "load" true false
    | None => mret tt
    end ;;
    raise_event (Ajax jq (entry "url" rule)
      (units ("fieldId=" ++ shown id ++ "&fieldValue=") ++ val_text v ++
       units ("&extraData=" ++ extraData ++ "&" ++ dyn))%list).

(** A message of the server that is the name of a rule stands for the rule's text. *)
Definition resolve (key msg : string) : string :=
  match oget msg (allrules o) with
  | Some r => default msg (truthy_str (entry key r))
  | None => msg
  end.

(** A prompt whose text is [undefined] leaves an old text and cannot be built. *)
Definition show_text (jq : list nat) (t : option string) (type : string) (ajaxed ajaxform : bool) : V unit :=
  match t with
  | Some t => _showPrompt jq t type ajaxed ajaxform
  | None =>
      p ← _getPrompt jq;
      match (if ajaxform then None else p) with
      | Some p => _updatePrompt jq (p_el p) (p_text p) type ajaxed
      | None => throw TypeError
      end
  end.

(** The answer to [_ajax]: a field, whether it is valid, and a message. *)
Definition ajax_success (rule : rule) (errorFieldId : string) (status : bool) (msg : option string) : V unit :=
  jq ← by_id errorFieldId;
  match jq with
  | [] => mret tt
  | _ =>
      if status then
        cache ← gets ajaxValidCache;
        when (if oget errorFieldId cache is Some _ then true else false)
             (modify (set_cache (oset errorFieldId true cache))) ;;
        match (match truthy_str msg with
               | Some m => Some (resolve "alertTextOk" m)
               | None => truthy_str (entry "alertTextOk" rule)
               end) with
        | Some t => _showPrompt jq t "pass" true false
        | None => _closePrompt jq
        end
      else
        modify (fun s => set_isError true (set_cache (oset errorFieldId false (ajaxValidCache s)) s)) ;;
        show_text jq (match truthy_str msg with
                      | Some m => Some (resolve "alertText" m)
                      | None => entry "alertText" rule
                      end) "" true false
  end.

(** [_ajaxError] alerts when the page has no server. *)
Definition _ajaxError (status : Z) (no_transport : bool) : V unit :=
  when ((status =? 0) && no_transport)
    (raise_event (Alert "The page is not served from a server! ajax call failed")).

(** ** Validating a field *)

(** What a rule leaves for the rest of the loop: the field, which the check box rules
    replace, whether a value is required, whether the server has been asked, and the
    message; [Again] is the loop's [continue]. *)
Inductive outcome :=
| Again
| Went (jq : list nat) (required isAjax : bool) (msg : option string).

(** What the host throws when the recursion is too deep. *)
Definition RangeError : string := "RangeError".

(** A function of the page, or one of the options, which may have none. *)
Definition function_of (name : string) : res (option (list nat -> V (option string))) :=
  match window name, customFunctions with
  | Some fn, _ => Ok (Some fn)
  | None, Some fns => Ok (fns name)
  | None, None => Throw TypeError
  end.

(** The case of [groupRequired]: the first field of the group is validated too, and is
    the one that looks at the others. *)
Definition group_rule (again : list nat -> bool -> V bool) (skipAjax : bool) (name : string)
  (arg : option string) (jq : list nat) (required isAjax : bool) : V outcome :=
  group ← find_group arg;
  let firstOfGroup := take 1 group in
  if bool_decide (head firstOfGroup = head jq) then
    r ← _groupRequired name arg;
    modify (set_showArrow false) ;;
    mret (Went jq (required || if truthy_str r is Some _ then true else false) isAjax r)
  else
    again firstOfGroup skipAjax ;;
    modify (set_showArrow true) ;;
    mret Again.

(** The [switch] on one rule.  [again] is the recursive call. *)
Definition run_rule (again : list nat -> bool -> V bool) (skipAjax : bool) (fieldName : option string)
  (name : string) (arg : option string) (jq : list nat) (required isAjax : bool) : V outcome :=
  let msg m := r ← m; mret (Went jq required isAjax r) in
  if String.eqb name "required" then r ← _required name jq; mret (Went jq true isAjax r)
  else if String.eqb name "custom" then msg (custom_rule jq arg)
  else if String.eqb name "groupRequired" then
    group_rule again skipAjax name arg jq required isAjax
  else if String.eqb name "ajax" then
    if skipAjax then mret (Went jq required isAjax None)
    else _ajax jq arg ;; mret (Went jq required true None)
  else if String.eqb name "minSize" then msg (v ← val jq; lift (_minSize (allrules o) v arg))
  else if String.eqb name "maxSize" then msg (v ← val jq; lift (_maxSize (allrules o) v arg))
  else if String.eqb name "min" then msg (v ← val_or VNull jq; lift (_min (allrules o) v arg))
  else if String.eqb name "max" then msg (v ← val_or VNull jq; lift (_max (allrules o) v arg))
  else if String.eqb name "past" then msg (v ← val_or VNull jq; lift (_past (allrules o) UTC LocalTime now v arg))
  else if String.eqb name "future" then msg (v ← val_or VNull jq; lift (_future (allrules o) UTC LocalTime now v arg))
  else if String.eqb name "dateRange" then
    r ← range_rule (_dateRange (allrules o) Date_parse) name arg;
    modify (set_showArrow false) ;;
    mret (Went jq (required || if truthy_str r is Some _ then true else false) isAjax r)
  else if String.eqb name "dateTimeRange" then
    r ← range_rule (_dateTimeRange (allrules o) Date_parse) name arg;
    modify (set_showArrow false) ;;
    mret (Went jq (required || if truthy_str r is Some _ then true else false) isAjax r)
  else if String.eqb name "maxCheckbox" then
    r ← max_checkbox_rule jq arg; l ← by_name fieldName; mret (Went l required isAjax r)
  else if String.eqb name "minCheckbox" then
    r ← min_checkbox_rule jq arg; l ← by_name fieldName; mret (Went l required isAjax r)
  else if String.eqb name "equals" then msg (equals_rule jq arg)
  else if String.eqb name "funcCall" then
    msg (fn ← lift (function_of (shown arg)); match fn with Some fn => fn jq | None => mret None end)
  else if String.eqb name "creditCard" then msg (v ← val jq; lift (_creditCard (allrules o) v))
  else mret (Went jq required isAjax None).

(** The loop over the rules.  A rule loses its first space when its turn comes; its
    argument is the next item as it is. *)
Fixpoint rules_loop (again : list nat -> bool -> V bool) (skipAjax : bool) (fieldName : option string)
  (rules : list string) (jq : list nat) (required isAjax : bool) (promptText : string)
  : V (list nat * bool * bool * string) :=
  match rules with
  | [] => mret (jq, required, isAjax, promptText)
  | rule :: rest =>
      out ← run_rule again skipAjax fieldName (js_replace " " "" rule) (head rest) jq required isAjax;
      match out with
      | Again => rules_loop again skipAjax fieldName rest jq required isAjax promptText
      | Went jq' required' isAjax' None =>
          rules_loop again skipAjax fieldName rest jq' required' isAjax' promptText
      | Went jq' required' isAjax' (Some m) =>
          modify (set_isError true) ;;
          rules_loop again skipAjax fieldName rest jq' required' isAjax' (promptText ++ m ++ "<br/>")
      end
  end.

(** Several inputs of the same name show the prompt at the first. *)
Definition first_named (fieldName : option string) (type : string) (jq : list nat) : V (list nat) :=
  if existsb (String.eqb type) ["radio"; "checkbox"; "text"] then
    l ← by_name fieldName;
    if (1 <? length l)%nat then
      l' ← jq_find ("input[name='" ++ shown fieldName ++ "'][type!=hidden]:first");
      modify (set_showArrow false) ;;
      mret l'
    else mret jq
  else mret jq.

(** The list of the invalid fields. *)
Definition record_error (f : option nat) (err : bool) (l : list (option nat)) : list (option nat) :=
  let errindex := inArray f l in
  if errindex =? -1 then if err then l ++ [f] else l
  else if err then l else splice errindex 1 [] l.

(** After the loop: an empty field is wrong only when it is required; the prompt; the
    event; the list of invalid fields. *)
Definition finish (fieldName : option string) (jq : list nat) (required isAjax : bool)
  (promptText : string) : V bool :=
  v ← attr f_val jq;
  when (negb required && match v with Some v => val_empty v | None => false end)
    (modify (set_isError false)) ;;
  type ← prop_type jq;
  jq' ← first_named fieldName type jq;
  err ← gets isError;
  (if (err : bool) then _showPrompt jq' promptText "" false false
   else if isAjax then mret tt else _closePrompt jq') ;;
  when (negb isAjax) (raise_event (FieldResult jq' err promptText)) ;;
  modify (fun s => set_invalid (record_error (head jq') err (InvalidFields s)) s) ;;
  mret err.

(** [_validateField] answers whether the field is wrong.  The recursion has a budget
    of calls. *)
Fixpoint _validateField (calls : nat) (jq : list nat) (skipAjax : bool) : V bool :=
  match calls with
  | O => throw RangeError
  | S calls' =>
      id ← attr_id jq;
      if truthy_str id is Some _ then
        a ← attr f_attr jq;
        match a ≫= fun a => a ≫= getRules with
        | None => mret false
        | Some str =>
            fieldName ← attr_name jq;
            modify (fun s => set_showArrow true (set_isError false s)) ;;
            r ← rules_loop (_validateField calls') skipAjax fieldName (split_rules str) jq false false "";
            let '(jq', required, isAjax, promptText) := r in
            finish fieldName jq' required isAjax promptText
        end
      else throw "Error"
  end.

(** ** Validating the form *)

(** The fields [_validateFields] looks at. *)
Definition validated (f : field) : bool :=
  attr_contains "validate" f && negb (f_hidden f) && negb (f_disabled f).

(** The loop: whether an error was found, and the first field that was wrong. *)
Fixpoint fields_loop (calls : nat) (skipAjax : bool) (l : list nat) (errorFound : bool)
  (first_err : option nat) : V (bool * option nat) :=
  match l with
  | [] => mret (errorFound, first_err)
  | f :: l' =>
      err ← _validateField calls [f] skipAjax;
      let errorFound := (errorFound || err)%bool in
      if doNotShowAllErrosOnSubmit o then mret (errorFound, first_err)
      else fields_loop calls skipAjax l' errorFound
             (match first_err with None => if errorFound then Some f else None | _ => first_err end)
  end.

(** Scrolling to the first error asks for the place of its prompt. *)
Definition scroll_to (first_err : option nat) : V unit :=
  f ← lift (of_option first_err);
  (if existsb (String.eqb (before_colon (promptPosition o))) ["bottomRight"; "bottomLeft"] then mret tt
   else p ← _getPrompt [f]; lift (of_option p) ;; mret tt) ;;
  if isOverflown o && negb (overflownDIV o) then mret tt
  else raise_event (ScrollTo f) ;; when (focusFirstField o) (raise_event (Focus f)).

Definition _validateFields (calls : nat) (skipAjax : bool) : V bool :=
  raise_event FormValidating ;;
  l ← gets (select validated);
  r ← fields_loop calls skipAjax l false None;
  let '(errorFound, first_err) := r in
  raise_event (FormResult errorFound) ;;
  if (errorFound : bool) then
    (if scroll o then scroll_to first_err
     else when (focusFirstField o) (f ← lift (of_option first_err); raise_event (Focus f))) ;;
    mret false
  else mret true.

(** [validate], [_checkInputEvent] and [_onSubmitEvent]. *)
Definition validate (calls : nat) : V bool := _validateFields calls false.
Definition _checkInputEvent (calls : nat) : V bool := _validateFields calls true.
Definition _onSubmitEvent (calls : nat) : V bool :=
  r ← _validateFields calls true;
  if (r && ajaxFormValidation o)%bool then raise_event AjaxForm ;; mret false
  else if onValidationComplete o then raise_event (OnValidationComplete r) ;; mret false
  else mret r.

(** [validateField] and what [_onFieldEvent] does when its time comes. *)
Definition after_field : V unit :=
  bad ← gets InvalidFields;
  if nil_b bad then when (onSuccess o) (raise_event OnSuccess)
  else when (onFailure o) (raise_event OnFailure).
Definition validateField (calls : nat) (jq : list nat) : V bool :=
  r ← _validateField calls jq false; after_field ;; mret r.
Definition _onFieldEvent (calls : nat) (jq : list nat) : V unit :=
  _validateField calls jq false ;; after_field.

(** The answer to [_validateFormWithAjax]: [true], or the fields with whether they are
    valid and a message. *)
Definition form_answer (a : string * bool * option string) : V bool :=
  let '(id, valid, msg) := a in
  jq ← by_id id;
  match jq with
  | [] => mret false
  | _ =>
      (if (valid : bool) then
         match truthy_str msg with
         | None => _closePrompt jq
         | Some m => _showPrompt jq (resolve "alertTextOk" m) "pass" false true
         end
       else show_text jq (resolve "alertText" <$> msg) "" false true) ;;
      mret (negb valid)
  end.
Fixpoint form_answers (l : list (string * bool * option string)) (errorInForm : bool) : V bool :=
  match l with
  | [] => mret errorInForm
  | a :: l' => e ← form_answer a; form_answers l' (errorInForm || e)
  end.
Definition form_success (json : option (list (string * bool * option string))) : V unit :=
  match json with
  | None => raise_event (OnAjaxFormComplete true)
  | Some l => errorInForm ← form_answers l false; raise_event (OnAjaxFormComplete (negb errorInForm))
  end.

(** [_checkAjaxStatus] *)
Definition _checkAjaxStatus (cache : list (string * bool)) : bool := forallb snd cache.

End Engine.

(** ** Concrete forms *)

Definition start (l : list field) : vstate := VState l false true [] [] 0 [] [].

Module Example_form.

(** An engine that reads just the selectors of this code, a backslash being an escape. *)
Fixpoint unescape (s : string) : string :=
  match s with
  | EmptyString => ""
  | String c s' =>
      if Ascii.eqb c "\" then
        match s' with EmptyString => "" | String d s'' => String d (unescape s'') end
      else String c (unescape s')
  end.
Fixpoint until_quote (s : string) : string * string :=
  match s with
  | EmptyString => ("", "")
  | String c s' => if Ascii.eqb c "'" then ("", s') else let '(n, r) := until_quote s' in (String c n, r)
  end.
Definition plain_prompts (l : list prompt) (sel : string) : res (list nat) :=
  if String.prefix "." sel then Ok (select_from 0 (fun p => String.eqb (p_class p) (unescape (str_drop 1 sel))) l)
  else Throw "Error".
Definition plain_fields (l : list field) (sel : string) : res (list nat) :=
  if String.prefix "#" sel then
    Ok (take 1 (select_from 0 (fun f => bool_decide (f_id f = Some (str_drop 1 sel))) l))
  else if String.prefix "input[name='" sel then
    let '(n, r) := until_quote (str_drop 12 sel) in
    if String.eqb r "]" then Ok (select_from 0 (named (Some n)) l)
    else if String.eqb r "]:checked" then Ok (select_from 0 (fun f => named (Some n) f && f_checked f) l)
    else if String.eqb r "][type!=hidden]:first" then
      Ok (take 1 (select_from 0 (fun f => named (Some n) f && negb (String.eqb (f_type f) "hidden")) l))
    else Throw "Error"
  else Throw "Error".

Lemma unescape_escape c : all_chars class_char c = true -> unescape (_escapeExpression c) = c.
Proof.
  induction c as [|c s IH]; [done|]. cbn [all_chars _escapeExpression].
  intros [Hc Hs]%andb_true_iff. destruct (special c) eqn:Hsp; cbn [unescape].
  - by rewrite IH.
  - destruct (Ascii.eqb_spec c "\") as [->|_]; [done|]. by rewrite IH.
Qed.
Lemma until_quote_app n r : all_chars name_char n = true -> until_quote (n ++ "'" ++ r) = (n, r).
Proof.
  induction n as [|c n IH]; [done|]. cbn [all_chars]. intros [Hc Hs]%andb_true_iff.
  rewrite str_app_cons. cbn [until_quote]. destruct (Ascii.eqb_spec c "'") as [->|_]; [done|]. by rewrite IH.
Qed.
Lemma plain_named l n r :
  all_chars name_char n = true ->
  plain_fields l ("input[name='" ++ n ++ "'" ++ r) =
    (if String.eqb r "]" then Ok (select_from 0 (named (Some n)) l)
     else if String.eqb r "]:checked" then Ok (select_from 0 (fun f => named (Some n) f && f_checked f) l)
     else if String.eqb r "][type!=hidden]:first" then
       Ok (take 1 (select_from 0 (fun f => named (Some n) f && negb (String.eqb (f_type f) "hidden")) l))
     else Throw "Error").
Proof.
  intros Hn. unfold plain_fields. set (sel := ("input[name='" ++ _)%string).
  replace (String.prefix "#" sel) with false by done.
  replace (String.prefix "input[name='" sel) with true.
  - replace (str_drop 12 sel) with (n ++ "'" ++ r)%string by done. by rewrite until_quote_app.
  - unfold sel. symmetry. apply prefix_app.
Qed.

#[export] Instance plain_selectors : Selectors.
Proof.
  refine {| select_prompts := plain_prompts; select_fields := plain_fields |}.
  - intros l sel e. unfold plain_prompts. by destruct (String.prefix _ _); intros [=].
  - intros l sel e. unfold plain_fields. repeat case_match; by intros [=].
  - intros l c Hc. pose proof (unescape_escape c Hc) as H. unfold plain_prompts.
    replace (String.prefix "." _) with true by (symmetry; apply (prefix_app ".")).
    replace (str_drop 1 _) with (_escapeExpression c) by done. by rewrite H.
  - intros l i Hi. unfold plain_fields.
    replace (String.prefix "#" _) with true by (symmetry; apply (prefix_app "#")). done.
  - intros l n Hn. exact (plain_named l (shown n) "]" Hn).
  - intros l n Hn. exact (plain_named l (shown n) "]:checked" Hn).
  - intros l n Hn. exact (plain_named l (shown n) "][type!=hidden]:first" Hn).
Defined.

Definition text_field (id rules value : string) : field :=
  Field (Some id) (Some id) (Some ("validate[" ++ rules ++ "]")) "input" "text" (VStr (units value)) None
    false false false.
Definition radio (id rules : string) (checked : bool) : field :=
  Field (Some id) (Some "r") (if String.eqb rules "" then None else Some ("validate[" ++ rules ++ "]"))
    "input" "radio" (VStr (units "on")) None checked false false.
Definition check_box (id rules : string) : field :=
  Field (Some id) (Some "c") (if String.eqb rules "" then None else Some ("validate[" ++ rules ++ "]"))
    "input" "checkbox" (VStr (units "on")) None false false false.
Definition geo (f : nat) (t : string) : geometry := Geometry 100 20 104 24 108 50 10 30 80 false None.
Definition defaults : options :=
  Options form_rules "topRight" false false false true true false false false false.
Definition all_at_once_off : options :=
  Options form_rules "topRight" false false true true true false false false false.

Section Run.
Context (o : options).
Definition run_field (calls : nat) (l : list field) (i : nat) : vstate * res bool :=
  _validateField o geo (fun _ => None) id id 0 (fun _ => None) None (fun _ _ => []) calls [i] false (start l).
Definition run_form (calls : nat) (l : list field) : vstate * res bool :=
  validate o geo (fun _ => None) id id 0 (fun _ => None) None (fun _ _ => []) calls (start l).
End Run.
End Example_form.
