(* ===== verification/ValidFacts.v ===== *)
(** * Form validation: what the engine guarantees

    [safe] is the reasoning about the engine's monad: an operation keeps a condition
    on the state, whether it returns or throws, and throws only certain exceptions.
    With it: the recursion over groups ends, the prompts and the list of invalid fields
    stay well formed in every reachable state.  Then the functional specification of
    forms of text fields. *)

From S2P Require Import Prelude JsString JsNum Json PageText RegExp Rules ValidRules Validator.
From Stdlib Require Import Ascii.
Local Open Scope string_scope.
Local Open Scope Z_scope.

(** ** Reasoning about operations *)

Definition tame {A} (E : string -> Prop) (r : res A) : Prop := forall e, r = Throw e -> E e.

Definition safe {A} (P : vstate -> Prop) (E : string -> Prop) (m : V A) : Prop :=
  forall s, P s -> P (m s).1 /\ tame E (m s).2.

Section Safe.
Context (P : vstate -> Prop) (E : string -> Prop).

Lemma tame_ok {A} (a : A) : tame E (Ok a).
Proof. by intros e. Qed.
Lemma tame_throw {A} e : E e -> tame E (@Throw A e).
Proof. by intros H e' [= <-]. Qed.
Lemma tame_bind {A B} (r : res A) (f : A -> res B) :
  tame E r -> (forall a, tame E (f a)) -> tame E (r ≫= f).
Proof. intros Hr Hf e. destruct r as [a|e']; cbn; [apply Hf|]. intros [= <-]. by apply Hr. Qed.
Lemma tame_if {A} (b : bool) (r r' : res A) : tame E r -> tame E r' -> tame E (if b then r else r').
Proof. by destruct b. Qed.

Lemma safe_ret {A} (a : A) : safe P E (mret a).
Proof. intros s H. split; [done|apply tame_ok]. Qed.
Lemma safe_gets {A} (f : vstate -> A) : safe P E (gets f).
Proof. intros s H. split; [done|apply tame_ok]. Qed.
Lemma safe_lift {A} (r : res A) : tame E r -> safe P E (lift r).
Proof. by intros Hr s H. Qed.
Lemma safe_throw {A} e : E e -> safe P E (@throw A e).
Proof. intros He s H. split; [done|by apply tame_throw]. Qed.
Lemma safe_modify f : (forall s, P s -> P (f s)) -> safe P E (modify f).
Proof. intros Hf s H. split; [by apply Hf|apply tame_ok]. Qed.
Lemma safe_bind {A B} (m : V A) (f : A -> V B) :
  safe P E m -> (forall a, safe P E (f a)) -> safe P E (m ≫= f).
Proof.
  intros Hm Hf s Hs. unfold mbind, V_bind. specialize (Hm s Hs). destruct (m s) as [s' r]. cbn in Hm.
  destruct Hm as [H1 H2]. destruct r as [a|e]; cbn; [by apply Hf|]. split; [done|].
  apply tame_throw, H2. done.
Qed.
Lemma safe_gets_bind {A B} (g : vstate -> A) (f : A -> V B) :
  (forall s, P s -> safe P E (f (g s))) -> safe P E (gets g ≫= f).
Proof. intros Hf s Hs. by apply Hf. Qed.
Lemma safe_if {A} (b : bool) (m m' : V A) : safe P E m -> safe P E m' -> safe P E (if b then m else m').
Proof. by destruct b. Qed.
Lemma safe_when b m : safe P E m -> safe P E (when b m).
Proof. destruct b; [done|]. intros _. apply safe_ret. Qed.
End Safe.

Create HintDb safe discriminated.

(** A condition on exceptions that allows the ones the engine itself raises. *)
Class Raised (E : string -> Prop) : Prop := {
  raised_type : E TypeError; raised_syntax : E SyntaxError; raised_error : E "Error"
}.

(** Takes an operation apart. *)
Ltac safe :=
  repeat first
    [ assumption
    | progress intros
    | match goal with
      | |- _ TypeError => apply raised_type
      | |- _ SyntaxError => apply raised_syntax
      | |- _ "Error" => apply raised_error
      | |- safe _ _ (mbind _ _) => apply safe_bind
      | |- safe _ _ (mret _) => apply safe_ret
      | |- safe _ _ (gets _) => apply safe_gets
      | |- safe _ _ (throw _) => apply safe_throw
      | |- safe _ _ (when _ _) => apply safe_when
      | |- safe _ _ (lift _) => apply safe_lift
      | |- safe _ _ (modify _) => first [solve [eauto] | apply safe_modify]
      | |- safe _ _ (if _ then _ else _) => apply safe_if
      | |- safe _ _ (match ?x with _ => _ end) => destruct x
      | |- tame _ (mbind _ _) => apply tame_bind
      | |- tame _ (mret _) => apply tame_ok
      | |- tame _ (Ok _) => apply tame_ok
      | |- tame _ (Throw _) => apply tame_throw
      | |- tame _ (of_option ?x) => destruct x; cbn [of_option]
      | |- tame _ (if _ then _ else _) => apply tame_if
      | |- tame _ (match ?x with _ => _ end) => destruct x
      end ].

(** ** The rules throw what the engine may throw *)

Section Rules.
Context (E : string -> Prop) `{!Raised E} (rules : list (string * rule)).

Ltac rule_tame := safe; auto with safe.

Lemma tame_ToCDB v : tame E (_ToCDB v).
Proof. unfold _ToCDB. rule_tame. Qed.
Lemma tame_message name key : tame E (message rules name key).
Proof. unfold message. rule_tame. Qed.
Lemma tame_with_alert name mid b : tame E (with_alert rules name mid b).
Proof. unfold with_alert. rule_tame. Qed.
Lemma tame_with_alert2 name mid : tame E (with_alert2 rules name mid).
Proof. unfold with_alert2, with_alert. rule_tame. Qed.
Lemma tame_length v : tame E (val_length v).
Proof. unfold val_length. rule_tame. Qed.
#[local] Hint Resolve tame_ToCDB tame_message tame_with_alert tame_with_alert2 tame_length : safe.

Lemma tame_maxSize v a : tame E (_maxSize rules v a).
Proof. unfold _maxSize. rule_tame. Qed.
Lemma tame_minSize v a : tame E (_minSize rules v a).
Proof. unfold _minSize. rule_tame. Qed.
Lemma tame_min v a : tame E (_min rules v a).
Proof. unfold _min. rule_tame. Qed.
Lemma tame_max v a : tame E (_max rules v a).
Proof. unfold _max. rule_tame. Qed.
Lemma tame_equals v w : tame E (_equals rules v w).
Proof. unfold _equals. rule_tame. Qed.
Lemma tame_custom v a : tame E (_customRegex rules v a).
Proof. unfold _customRegex. rule_tame. Qed.
Lemma tame_maxCheckbox n a : tame E (_maxCheckbox rules n a).
Proof. unfold _maxCheckbox. rule_tame. Qed.
Lemma tame_minCheckbox n a : tame E (_minCheckbox rules n a).
Proof. unfold _minCheckbox. rule_tame. Qed.
Lemma tame_creditCard v : tame E (_creditCard rules v).
Proof. unfold _creditCard. rule_tame. Qed.
Lemma tame_past U L n v a : tame E (_past rules U L n v a).
Proof. unfold _past, limit_date, val_date. rule_tame. Qed.
Lemma tame_future U L n v a : tame E (_future rules U L n v a).
Proof. unfold _future, limit_date, val_date. rule_tame. Qed.
Lemma tame_range D d name x y : tame E (range_with rules D d name x y).
Proof. unfold range_with. rule_tame. Qed.
End Rules.

#[export] Hint Resolve tame_ToCDB tame_message tame_with_alert
  tame_maxSize tame_minSize tame_min tame_max tame_equals tame_custom tame_maxCheckbox tame_minCheckbox
  tame_creditCard tame_past tame_future tame_range : safe.

(** ** The engine keeps what its primitives keep *)

Definition ensures {A} (P : vstate -> Prop) (E : string -> Prop) (Q : A -> Prop) (m : V A) : Prop :=
  forall s, P s -> P (m s).1 /\ match (m s).2 with Ok a => Q a | Throw e => E e end.

Lemma ensures_safe {A} P E (Q : A -> Prop) m : ensures P E Q m -> safe P E m.
Proof.
  intros H s Hs. destruct (H s Hs) as [H1 H2]. split; [done|]. intros e He. by rewrite He in H2.
Qed.
Lemma ensures_bind {A B} P E (Q : B -> Prop) (m : V A) (f : A -> V B) :
  safe P E m -> (forall a, ensures P E Q (f a)) -> ensures P E Q (m ≫= f).
Proof.
  intros Hm Hf s Hs. unfold mbind, V_bind. specialize (Hm s Hs). destruct (m s) as [s' r]. cbn in Hm.
  destruct Hm as [H1 H2]. destruct r as [a|e]; cbn; [by apply Hf|]. split; [done|by apply H2].
Qed.
Lemma ensures_ret {A} P E (Q : A -> Prop) a : Q a -> ensures P E Q (mret a).
Proof. by intros H s Hs. Qed.
Lemma ensures_bind_out {A B} P E (R : A -> Prop) (Q : B -> Prop) (m : V A) (f : A -> V B) :
  ensures P E R m -> (forall a, R a -> ensures P E Q (f a)) -> ensures P E Q (m ≫= f).
Proof.
  intros Hm Hf s Hs. unfold mbind, V_bind. specialize (Hm s Hs). destruct (m s) as [s' r]. cbn in Hm.
  destruct Hm as [H1 H2]. destruct r as [a|e]; cbn; [by apply Hf|]. done.
Qed.

(** A function of the page, when the page has one, keeps [P] and throws only [E]. *)
Definition safe_functions (P : vstate -> Prop) (E : string -> Prop)
  (fns : string -> option (list nat -> V (option string))) : Prop :=
  forall name fn, fns name = Some fn -> forall jq, safe P E (fn jq).

(** What the engine of selectors throws. *)
Lemma tame_prompts `{Selectors} E `{!Raised E} l sel : tame E (select_prompts l sel).
Proof. intros e He. apply select_prompts_error in He as ->. apply raised_error. Qed.
Lemma tame_fields `{Selectors} E `{!Raised E} l sel : tame E (select_fields l sel).
Proof. intros e He. apply select_fields_error in He as ->. apply raised_error. Qed.
Lemma tame_find_prompt `{Selectors} E `{!Raised E} id l : tame E (find_prompt id l).
Proof. unfold find_prompt. apply tame_bind; [by apply tame_prompts|]. intros r. apply tame_ok. Qed.
#[export] Hint Resolve tame_prompts tame_fields tame_find_prompt : safe.

Section Engine.
Context {Sel : Selectors} (o : options) (geo : nat -> string -> geometry) (Date_parse : text -> option Z)
  (UTC LocalTime : Z -> Z) (now : Z)
  (window : string -> option (list nat -> V (option string)))
  (customFunctions : option (string -> option (list nat -> V (option string))))
  (find : list field -> string -> list nat).
Context (P : vstate -> Prop) (E : string -> Prop) `{!Raised E}.
Context (P_val : forall jq v, safe P E (set_val jq v))
  (P_err : forall b, safe P E (modify (set_isError b)))
  (P_arrow : forall b, safe P E (modify (set_showArrow b)))
  (P_log : forall e, safe P E (raise_event e))
  (P_invalid : forall f err, safe P E (modify (fun s => set_invalid (record_error f err (InvalidFields s)) s)))
  (P_show : forall jq t type aj, safe P E (_showPrompt o geo jq t type aj false))
  (P_close : forall jq, safe P E (_closePrompt jq))
  (P_window : safe_functions P E window)
  (P_custom : forall fns, customFunctions = Some fns -> safe_functions P E fns).

Ltac engine := safe; eauto with safe.

Lemma safe_attr {A} (get : field -> A) jq : safe P E (attr get jq).
Proof. apply safe_gets. Qed.
#[local] Hint Resolve safe_attr : safe.
Lemma safe_attr_id jq : safe P E (attr_id jq).
Proof. unfold attr_id. engine. Qed.
Lemma safe_attr_name jq : safe P E (attr_name jq).
Proof. unfold attr_name. engine. Qed.
Lemma safe_prop_type jq : safe P E (prop_type jq).
Proof. unfold prop_type. engine. Qed.
Lemma safe_val jq : safe P E (val jq).
Proof. unfold val. engine. Qed.
Lemma safe_val_or d jq : safe P E (val_or d jq).
Proof. unfold val_or. engine. Qed.
Lemma safe_find_group arg : safe P E (find_group arg).
Proof. unfold find_group. safe. Qed.
Lemma safe_jq_find sel : safe P E (jq_find sel).
Proof. unfold jq_find. engine. Qed.
#[local] Hint Resolve safe_jq_find : safe.
Lemma safe_by_name n : safe P E (by_name n).
Proof. apply safe_jq_find. Qed.
Lemma safe_groupSize n : safe P E (groupSize n).
Proof. unfold groupSize. engine. Qed.
Lemma safe_by_id id : safe P E (by_id id).
Proof. unfold by_id. engine. Qed.
Lemma safe_entry_of name key : safe P E (entry_of o name key).
Proof. unfold entry_of. engine. Qed.
#[local] Hint Resolve safe_attr safe_attr_id safe_attr_name safe_prop_type safe_val safe_val_or
  safe_find_group safe_by_name safe_groupSize safe_by_id safe_entry_of : safe.

Lemma safe_required name jq : safe P E (_required o name jq).
Proof. unfold _required. engine. Qed.
#[local] Hint Resolve safe_required : safe.
Lemma safe_any_filled name l : safe P E (any_filled o name l).
Proof. induction l; cbn [any_filled]; engine. Qed.
#[local] Hint Resolve safe_any_filled : safe.
Lemma safe_groupRequired name arg : safe P E (_groupRequired o name arg).
Proof. unfold _groupRequired. engine. Qed.
Lemma safe_custom_rule jq arg : safe P E (custom_rule o jq arg).
Proof. unfold custom_rule. engine. Qed.
Lemma safe_equals_rule jq arg : safe P E (equals_rule o jq arg).
Proof. unfold equals_rule. engine. Qed.
Lemma safe_dom_value jq i : safe P E (dom_value jq i).
Proof. unfold dom_value. engine. Qed.
#[local] Hint Resolve safe_groupRequired safe_custom_rule safe_equals_rule safe_dom_value : safe.
Lemma safe_range_rule range name arg :
  (forall n x y, tame E (range n x y)) -> safe P E (range_rule range name arg).
Proof. intros H. unfold range_rule. engine. Qed.
Lemma safe_max_checkbox jq arg : safe P E (max_checkbox_rule o jq arg).
Proof. unfold max_checkbox_rule. engine. Qed.
Lemma safe_min_checkbox jq arg : safe P E (min_checkbox_rule o jq arg).
Proof. unfold min_checkbox_rule. engine. Qed.
Lemma safe_dynamic_data ids : safe P E (dynamic_data find ids).
Proof. induction ids; cbn [dynamic_data]; engine. Qed.
#[local] Hint Resolve safe_dynamic_data : safe.
Lemma safe_ajax jq arg : safe P E (_ajax o geo find jq arg).
Proof. unfold _ajax. engine. Qed.
Lemma safe_function_of name :
  ensures P E (fun fn => forall f, fn = Some f -> forall jq, safe P E (f jq))
    (lift (function_of window customFunctions name)).
Proof.
  intros s Hs. unfold lift, function_of. split; [done|]. cbn.
  destruct (window name) as [fn|] eqn:Ew; [intros f [= <-]; by eapply P_window|].
  destruct customFunctions as [fns|] eqn:Ec; [|apply raised_type].
  intros f Hf. by eapply P_custom.
Qed.
Lemma safe_func_rule name jq :
  safe P E (fn ← lift (function_of window customFunctions name);
            match fn with Some fn => fn jq | None => mret None end).
Proof.
  eapply ensures_safe, ensures_bind_out; [apply safe_function_of|]. intros [f|] Hf s Hs.
  - destruct (Hf f eq_refl jq s Hs) as [H1 H2]. split; [done|].
    instantiate (1 := fun _ => True). destruct (f jq s).2; [done|]. by apply H2.
  - done.
Qed.
#[local] Hint Resolve safe_func_rule safe_max_checkbox safe_min_checkbox safe_ajax : safe.

(** Only the check box rules replace the field. *)
Definition is_box (name : string) : bool :=
  String.eqb name "maxCheckbox" || String.eqb name "minCheckbox".
Definition stays (name : string) (jq : list nat) (out : outcome) : Prop :=
  match out with Again => True | Went jq' _ _ _ => is_box name = false -> jq' = jq end.

Lemma ensures_msg name jq req aj (m : V (option string)) :
  safe P E m -> ensures P E (stays name jq) (r ← m; mret (Went jq req aj r)).
Proof. intros Hm. apply ensures_bind; [done|]. intros a. by apply ensures_ret. Qed.

Lemma ensures_group again skip name arg jq req aj :
  (forall l, safe P E (again l skip)) -> ensures P E (stays name jq) (group_rule o again skip name arg jq req aj).
Proof.
  intros Ha. unfold group_rule. apply ensures_bind; [engine|]. intros group.
  destruct (bool_decide _).
  - apply ensures_bind; [engine|]. intros r. apply ensures_bind; [engine|]. intros _. by apply ensures_ret.
  - apply ensures_bind; [apply Ha|]. intros _. apply ensures_bind; [engine|]. intros _. by apply ensures_ret.
Qed.

Lemma ensures_run_rule again skip fieldName name arg jq req aj :
  (name = "groupRequired" -> ensures P E (stays name jq) (group_rule o again skip name arg jq req aj)) ->
  ensures P E (stays name jq)
    (run_rule o geo Date_parse UTC LocalTime now window customFunctions find again skip fieldName name arg jq req aj).
Proof.
  intros Hg. unfold run_rule.
  repeat match goal with
  | |- ensures _ _ _ (if String.eqb name "groupRequired" then _ else _) =>
      destruct (String.eqb_spec name "groupRequired"); [by apply Hg|]
  | |- ensures _ _ _ (if String.eqb name ?n then _ else _) =>
      destruct (String.eqb_spec name n)
  | |- ensures _ _ _ (if ?b then _ else _) => destruct b
  end; try (by apply ensures_ret);
    try (apply ensures_msg; engine; fail);
    try (apply ensures_bind; [first [engine; fail | apply safe_range_rule; intros; apply tame_range, _]|];
         intros; first [by apply ensures_ret | apply ensures_bind; [engine|]];
         intros; apply ensures_ret; subst; by try intros [=]).
  apply ensures_msg, safe_func_rule.
Qed.

(** The loop over the rules. *)
Lemma safe_rules_loop again skip fieldName rules jq req aj t :
  (forall l, safe P E (again l skip)) ->
  safe P E (rules_loop o geo Date_parse UTC LocalTime now window customFunctions find again skip fieldName
              rules jq req aj t).
Proof.
  intros Ha. revert jq req aj t. induction rules as [|r rest IH]; intros; cbn [rules_loop]; [engine|].
  eapply safe_bind.
  - eapply ensures_safe, ensures_run_rule. intros ->. by apply ensures_group.
  - intros [|jq' req' aj' [m|]]; [apply IH| |apply IH]. engine.
Qed.

Lemma safe_first_named fieldName type jq : safe P E (first_named fieldName type jq).
Proof. unfold first_named. engine. Qed.
#[local] Hint Resolve safe_first_named : safe.

Lemma safe_finish fieldName jq req aj t : safe P E (finish o geo fieldName jq req aj t).
Proof. unfold finish. engine. Qed.

Lemma safe_validateField calls jq skip :
  E RangeError ->
  safe P E (_validateField o geo Date_parse UTC LocalTime now window customFunctions find calls jq skip).
Proof.
  intros He. revert jq. induction calls as [|calls IH]; intros jq; cbn [_validateField]; [by apply safe_throw|].
  apply safe_bind; [engine|]. intros id. destruct (truthy_str id); [|engine].
  apply safe_bind; [engine|]. intros a. destruct (a ≫= _) as [str|]; [|engine].
  apply safe_bind; [engine|]. intros n. apply safe_bind.
  - apply safe_modify. intros st Hs. destruct (P_err false st Hs) as [H1 _]. cbn in H1.
    destruct (P_arrow true _ H1) as [H2 _]. exact H2.
  - intros _. apply safe_bind; [by apply safe_rules_loop|]. intros [[[jq' req] aj] t]. apply safe_finish.
Qed.

Lemma safe_fields_loop calls skip l err first :
  E RangeError ->
  safe P E (fields_loop o geo Date_parse UTC LocalTime now window customFunctions find calls skip l err first).
Proof.
  intros He. revert err first. induction l as [|f l IH]; intros err first; cbn [fields_loop]; [engine|].
  apply safe_bind; [by apply safe_validateField|]. intros e. apply safe_if; [engine|apply IH].
Qed.

Lemma safe_getPrompt jq : safe P E (_getPrompt jq).
Proof. unfold _getPrompt. engine. Qed.
#[local] Hint Resolve safe_getPrompt : safe.

Lemma safe_validateFields calls skip :
  E RangeError ->
  safe P E (_validateFields o geo Date_parse UTC LocalTime now window customFunctions find calls skip).
Proof.
  intros He. unfold _validateFields, scroll_to.
  apply safe_bind; [engine|]. intros _. apply safe_bind; [engine|]. intros l.
  apply safe_bind; [by apply safe_fields_loop|]. intros [e f]. engine.
Qed.

Lemma safe_onSubmit calls :
  E RangeError ->
  safe P E (_onSubmitEvent o geo Date_parse UTC LocalTime now window customFunctions find calls).
Proof.
  intros He. unfold _onSubmitEvent. apply safe_bind; [by apply safe_validateFields|]. intros r. engine.
Qed.

Lemma safe_onField calls jq :
  E RangeError ->
  safe P E (_onFieldEvent o geo Date_parse UTC LocalTime now window customFunctions find calls jq).
Proof.
  intros He. unfold _onFieldEvent, after_field. apply safe_bind; [by apply safe_validateField|].
  intros _. engine.
Qed.
End Engine.

(** ** The recursion over groups ends *)

(** What validating a form does not change of a field. *)
Definition static (f : field) : field := set_f_val VNull f.

(** No rule replaces the field, and every [groupRequired] has an argument. *)
Fixpoint rules_fit (rules : list string) : bool :=
  match rules with
  | [] => true
  | r :: rest =>
      let name := js_replace " " "" r in
      negb (is_box name) && negb (String.eqb name "groupRequired" && nil_b rest) && rules_fit rest
  end.
Definition field_fits (f : field) : bool :=
  match f_attr f ≫= getRules with Some str => rules_fit (split_rules str) | None => true end.

Lemma contains_app v p q : contains v (p ++ v ++ q) = true.
Proof.
  induction p as [|c p IH].
  - rewrite str_app_nil_l. destruct v as [|c v]; [by destruct q|].
    rewrite str_app_cons. cbn [contains]. rewrite <-str_app_cons, prefix_app. done.
  - rewrite str_app_cons. cbn [contains]. by rewrite IH, orb_true_r.
Qed.

(** What the engine looks for comes from the text it looks in. *)
Definition infix (v a : string) : Prop := exists p q, a = (p ++ v ++ q)%string.
Lemma infix_contains v a : infix v a -> contains v a = true.
Proof. intros (p & q & ->). apply contains_app. Qed.
Lemma infix_trans u v a : infix u v -> infix v a -> infix u a.
Proof.
  intros (p & q & ->) (p' & q' & ->). exists (p' ++ p)%string, (q ++ q')%string. by rewrite !str_app_assoc.
Qed.
Lemma infix_cons v c a : infix v a -> infix v (String c a).
Proof. intros (p & q & ->). by exists (String c p), q. Qed.

Lemma split_rules_infix s w : w ∈ split_rules s -> infix w s.
Proof.
  revert w. assert (split_rules s <> [] /\ (forall w ws, split_rules s = w :: ws -> exists q, s = (w ++ q)%string) /\
    forall w, w ∈ split_rules s -> infix w s) as (_ & _ & H); [|done].
  induction s as [|c s (Hn & Hp & IH)]; cbn [split_rules].
  - split_and!; [done|intros w ws [= <- <-]; by exists ""|].
    intros w ->%list_elem_of_singleton. by exists "", "".
  - destruct (_ || _ || _).
    + split_and!; [done|intros w ws [= <- <-]; by exists (String c s)|].
      intros w [->|Hw]%elem_of_cons; [by exists "", (String c s)|]. by apply infix_cons, IH.
    + destruct (split_rules s) as [|w0 ws0] eqn:Es; [done|]. destruct (Hp _ _ eq_refl) as [q Hq].
      split_and!; [done|intros w ws [= <- <-]; exists q; by rewrite str_app_cons, <-Hq|].
      intros w [->|Hw]%elem_of_cons.
      * exists "", q. by rewrite str_app_nil_l, str_app_cons, <-Hq.
      * apply infix_cons, IH, elem_of_cons. by right.
Qed.

Lemma to_last_bracket_prefix s t : to_last_bracket s = Some t -> exists q, s = (t ++ q)%string.
Proof.
  revert t. induction s as [|c s IH]; cbn [to_last_bracket]; [done|]. intros t H.
  destruct (_ || _); [done|]. destruct (to_last_bracket s) as [t'|].
  - simplify_eq. destruct (IH _ eq_refl) as [q ->]. by exists q.
  - destruct (Ascii.eqb c "]"); simplify_eq. by exists (String c s).
Qed.

Lemma str_drop_suffix n s : exists p, s = (p ++ str_drop n s)%string.
Proof.
  revert s. induction n as [|n IH]; intros s; [by exists ""|]. destruct s as [|c s]; [by exists ""|].
  destruct (IH s) as [p Hp]. exists (String c p). cbn [str_drop]. by rewrite str_app_cons, <-Hp.
Qed.

Lemma getRules_infix s t : getRules s = Some t -> infix t s.
Proof.
  revert t. induction s as [|c s IH]; intros t H.
  - done.
  - cbn [getRules] in H. case_match eqn:Hm.
    + simplify_eq. destruct (String.prefix _ _); [|done].
      destruct (to_last_bracket_prefix _ _ Hm) as [q Hq].
      destruct (str_drop_suffix 9 (String c s)) as [p Hp]. exists p, q. by rewrite <-Hq.
    + by apply infix_cons, IH.
Qed.

Lemma select_from_ge {A} k (p : A -> bool) l i : i ∈ select_from k p l -> (k <= i)%nat.
Proof.
  revert k. induction l as [|f l IH]; intros k; cbn [select_from]; [by intros ?%not_elem_of_nil|].
  destruct (p f); [intros [->|H]%elem_of_cons; [done|]|intros H]; apply IH in H; lia.
Qed.

(** The first field selected is not after one that satisfies the condition. *)
Lemma select_from_head {A} k (p : A -> bool) l i f :
  l !! i = Some f -> p f = true -> exists j, head (select_from k p l) = Some j /\ (j <= k + i)%nat.
Proof.
  revert k i. induction l as [|g l IH]; intros k i Hi Hp; [done|]. cbn [select_from].
  destruct (p g) eqn:Hg; [exists k; split; [done|lia]|]. destruct i as [|i]; cbn in Hi; [congruence|].
  destruct (IH (S k) i Hi Hp) as (j & Hj & Hle). exists j. split; [done|lia].
Qed.

Lemma select_static k v l : select_from k (attr_contains v) l = select_from k (attr_contains v) (map static l).
Proof. revert k. induction l as [|f l IH]; intros k; [done|]. cbn. by rewrite !IH. Qed.

Definition same_form (F : list field) (s : vstate) : Prop := map static (fields s) = map static F.
Definition not_deep (e : string) : Prop := e <> RangeError.
#[export] Instance not_deep_raised : Raised not_deep.
Proof. by split. Qed.

Lemma safe_throw_bind {A B} P E e (f : A -> V B) : E e -> safe P E (throw e ≫= f).
Proof. intros He s Hs. split; [done|by apply tame_throw]. Qed.

Lemma bind_eq {A B} (m : V A) (k : A -> V B) s s' a : m s = (s', Ok a) -> (m ≫= k) s = k a s'.
Proof. intros H. unfold mbind, V_bind. by rewrite H. Qed.
(** Plain names are looked up exactly. *)
Lemma by_name_plain `{Selectors} n s :
  all_chars name_char (shown n) = true -> by_name n s = (s, Ok (select (named n) s)).
Proof.
  intros Hn. unfold by_name, jq_find. rewrite (bind_eq (gets fields) _ s s (fields s)) by done.
  by rewrite select_name.
Qed.
Lemma groupSize_plain `{Selectors} n s :
  all_chars name_char (shown n) = true ->
  groupSize n s = (s, Ok (Z.of_nat (length (select (fun f => named n f && f_checked f) s)))).
Proof.
  intros Hn. unfold groupSize. erewrite bind_eq; [reflexivity|].
  unfold jq_find. rewrite (bind_eq (gets fields) _ s s (fields s)) by done. by rewrite select_checked.
Qed.

Lemma bind_throws {A B} (m : V A) (f : A -> V B) s e :
  (m s).2 = Throw e -> ((m ≫= f) s).2 = Throw e.
Proof. unfold mbind, V_bind. destruct (m s) as [s' r]. cbn. by intros ->. Qed.

Section Terminates.
Context {Sel : Selectors} (o : options) (geo : nat -> string -> geometry) (Date_parse : text -> option Z)
  (UTC LocalTime : Z -> Z) (now : Z)
  (window : string -> option (list nat -> V (option string)))
  (customFunctions : option (string -> option (list nat -> V (option string))))
  (find : list field -> string -> list nat) (F : list field).
Context (H_window : safe_functions (same_form F) not_deep window)
  (H_custom : forall fns, customFunctions = Some fns -> safe_functions (same_form F) not_deep fns)
  (H_fits : Forall (fun f => field_fits f = true) F).

Lemma form_set_val jq v : safe (same_form F) not_deep (set_val jq v).
Proof.
  apply safe_modify. intros s H. unfold same_form in *. cbn. rewrite <-H.
  apply list_eq. intros i. rewrite !list_lookup_fmap, list_lookup_imap.
  destruct (fields s !! i); cbn; [|done]. by destruct (decide _).
Qed.
Lemma form_modify f : (forall s, fields (f s) = fields s) -> safe (same_form F) not_deep (modify f).
Proof. intros Hf. apply safe_modify. intros s H. unfold same_form. by rewrite Hf. Qed.
Lemma form_show jq t type aj : safe (same_form F) not_deep (_showPrompt o geo jq t type aj false).
Proof.
  unfold _showPrompt, _buildPrompt, _updatePrompt, _getPrompt, attr_id, attr, on_prompt.
  safe; first [by apply form_modify | by apply tame_find_prompt, not_deep_raised].
Qed.
Lemma form_close jq : safe (same_form F) not_deep (_closePrompt jq).
Proof.
  unfold _closePrompt, _getPrompt, attr_id, attr, on_prompt. safe; first [by apply form_modify | by apply tame_find_prompt, not_deep_raised].
Qed.

(** What the engine asks of its primitives. *)
Ltac form_prim :=
  match goal with
  | |- Raised _ => apply not_deep_raised
  | |- safe_functions _ _ _ => assumption
  | |- forall fns, customFunctions = Some fns -> _ => assumption
  | |- _ => intros; lazymatch goal with
      | |- safe _ _ (set_val _ _) => apply form_set_val
      | |- safe _ _ (_showPrompt _ _ _ _ _ _ _) => apply form_show
      | |- safe _ _ (_closePrompt _) => apply form_close
      | |- safe _ _ (raise_event _) => unfold raise_event; apply form_modify; reflexivity
      | |- safe _ _ (modify _) => apply form_modify; reflexivity
      end
  end.

Lemma form_lookup s i f :
  same_form F s -> fields s !! i = Some f -> exists f', F !! i = Some f' /\ static f = static f'.
Proof.
  intros H Hi. apply (f_equal (fun l => l !! i)) in H. rewrite !list_lookup_fmap, Hi in H. cbn in H.
  destruct (F !! i) as [f'|]; cbn in H; [|done]. exists f'. split; congruence.
Qed.

(** The first field of a group that a rule of field [i] names. *)
Lemma form_group i f w again skip jq req aj :
  F !! i = Some f -> attr_contains w f = true -> head jq = Some i ->
  (forall j, (j < i)%nat -> safe (same_form F) not_deep (again [j] skip)) ->
  safe (same_form F) not_deep (group_rule o again skip "groupRequired" (Some w) jq req aj).
Proof.
  intros Hi Hw Hjq Ha. unfold group_rule, find_group. destruct (identifier _); [|by apply safe_throw_bind].
  apply safe_gets_bind. intros s Hs. unfold select.
  change (shown (Some w)) with w. rewrite select_static, Hs, <-select_static.
  destruct (select_from_head 0 (attr_contains w) F i f Hi Hw) as (j & Hj & Hle).
  destruct (select_from 0 (attr_contains w) F) as [|j' l]; [done|]. cbn in Hj. simplify_eq. cbn [take head].
  rewrite Hjq. case_bool_decide as Hd.
  - apply safe_bind; [|intros; apply safe_bind; [by apply form_modify|intros; apply safe_ret]].
    apply safe_groupRequired; [apply not_deep_raised|apply form_set_val].
  - apply safe_bind; [apply Ha; cbn in Hle; assert (j <> i) by congruence; lia|].
    intros _. apply safe_bind; [by apply form_modify|intros; apply safe_ret].
Qed.

Lemma safe_ensures {A} P E (Q : A -> Prop) m :
  safe P E m -> ensures (fun _ => True) (fun _ => True) Q m -> ensures P E Q m.
Proof.
  intros H1 H2 s Hs. destruct (H1 s Hs) as [H3 H4], (H2 s I) as [_ H5]. split; [done|].
  destruct (m s).2; [done|by apply H4].
Qed.
Lemma safe_anything {A} (m : V A) : safe (fun _ => True) (fun _ => True) m.
Proof. done. Qed.

Lemma form_rules_loop i f again skip fieldName rules req aj t :
  F !! i = Some f -> rules_fit rules = true -> Forall (fun w => attr_contains w f = true) rules ->
  (forall j, (j < i)%nat -> safe (same_form F) not_deep (again [j] skip)) ->
  ensures (same_form F) not_deep (fun r => r.1.1.1 = [i])
    (rules_loop o geo Date_parse UTC LocalTime now window customFunctions find again skip fieldName
       rules [i] req aj t).
Proof.
  intros Hi Hfit Hin Ha. revert req aj t. induction rules as [|r rest IH]; intros req aj t; cbn [rules_loop].
  { by apply ensures_ret. }
  cbn in Hfit. apply andb_true_iff in Hfit as [[Hb Hg]%andb_true_iff Hfit].
  apply Forall_cons in Hin as [_ Hin]. apply negb_true_iff in Hb.
  eapply ensures_bind_out.
  - apply (ensures_run_rule o geo Date_parse UTC LocalTime now window customFunctions find (same_form F) not_deep); try form_prim.
    intros Hr. rewrite Hr in *. apply safe_ensures.
    + destruct rest as [|w rest]; [done|]. apply (form_group i f); [done| |done|done].
      by apply Forall_cons in Hin as [Hw _].
    + by apply ensures_group.
  - intros [|jq' req' aj' [m|]] Hst; cbn in Hst; [by apply IH| |]; rewrite (Hst Hb).
    + apply ensures_bind; [by apply form_modify|]. intros _. by apply IH.
    + by apply IH.
Qed.

Lemma form_validateField calls i skip :
  (i < calls)%nat ->
  safe (same_form F) not_deep
    (_validateField o geo Date_parse UTC LocalTime now window customFunctions find calls [i] skip).
Proof.
  revert i. induction calls as [|calls IH]; intros i Hlt; [lia|]. cbn [_validateField].
  apply safe_bind; [unfold attr_id, attr; safe|]. intros id. destruct (truthy_str id); [|safe].
  apply safe_gets_bind. intros st Hs. change (first_of st [i]) with (fields st !! i).
  destruct (fields st !! i) as [fs|] eqn:Ei; cbn [fmap option_fmap option_map mbind option_bind]; [|apply safe_ret].
  destruct (form_lookup st i fs Hs Ei) as (f & Hf & Hst).
  assert (f_attr fs = f_attr f) as ->.
  { change (f_attr fs) with (f_attr (static fs)). by rewrite Hst. }
  pose proof (proj1 (Forall_forall _ _) H_fits f (list_elem_of_lookup_2 _ _ _ Hf)) as Hfit.
  unfold field_fits in Hfit. destruct (f_attr f ≫= getRules) as [str|] eqn:Er; [|apply safe_ret].
  apply safe_bind; [unfold attr_name, attr; safe|]. intros n. apply safe_bind; [by apply form_modify|].
  intros _. eapply ensures_safe, ensures_bind_out.
  - eapply form_rules_loop; [done..| |].
    + apply Forall_forall. intros w Hw. apply split_rules_infix in Hw. unfold attr_contains.
      destruct (f_attr f) as [a|]; [|done]. cbn in Er. apply getRules_infix in Er.
      by apply infix_contains, (infix_trans _ str).
    + intros j Hj. apply IH. lia.
  - intros [[[jq' req] aj] t] E. cbn in E. subst jq'. apply safe_ensures with (Q := fun _ => True).
    + apply safe_finish; form_prim.
    + intros s' _. split; [done|]. by destruct (finish _ _ _ _ _ _ _ s').2.
Qed.
End Terminates.

(** C29: Validating a field of a form whose rules do not count check boxes never runs into the
    limit of the recursion, when as many calls are allowed as there are fields up to it:
    a field of a group validates only a field before itself. *)
Theorem validateField_returns {Sel : Selectors} o geo Date_parse UTC LocalTime now window customFunctions find s i calls skip :
  safe_functions (same_form (fields s)) not_deep window ->
  (forall fns, customFunctions = Some fns -> safe_functions (same_form (fields s)) not_deep fns) ->
  Forall (fun f => field_fits f = true) (fields s) ->
  (i < calls)%nat ->
  (_validateField o geo Date_parse UTC LocalTime now window customFunctions find calls [i] skip s).2
    <> Throw RangeError.
Proof.
  intros Hw Hc Hf Hi He.
  destruct (form_validateField o geo Date_parse UTC LocalTime now window customFunctions find
    (fields s) Hw Hc Hf calls i skip Hi s eq_refl) as [_ H]. by apply (H RangeError).
Qed.

Section Forms.
Import Example_form.

Definition group_form : list field :=
  [text_field "a" "groupRequired[g1]" ""; text_field "b" "groupRequired[g1]" "x"].

Lemma validateField_returns_witness :
  (_validateField (defaults) geo (fun _ => None) id id 0 (fun _ => None) None (fun _ _ => []) 2 [1%nat] false
     (start group_form)).2 <> Throw RangeError.
Proof.
  apply validateField_returns; try (intros ? ? H; discriminate H); try (intros ? H; discriminate H).
  - repeat constructor.
  - repeat constructor.
Defined.

(** A form that the engine never gets out of: the rule on the number of boxes makes
    the first box of the name the field, which is not the first of the group, so the
    engine validates the same field again. *)
Definition endless_form : list field := [check_box "a" ""; check_box "b" "maxCheckbox[1],groupRequired[g1]"].

Section Endless.
Context {Sel : Selectors}.

Definition engine_loop (again : list nat -> bool -> V bool) (skip : bool) (rules : list string) (jq : list nat) :=
  rules_loop defaults geo (fun _ => None) id id 0 (fun _ => None) None (fun _ _ => []) again skip (Some "c")
    rules jq false false "".
Definition engine_rule (again : list nat -> bool -> V bool) (skip : bool) (name : string) (arg : option string)
  (jq : list nat) :=
  run_rule defaults geo (fun _ => None) id id 0 (fun _ => None) None (fun _ _ => []) again skip (Some "c")
    name arg jq false false.

Lemma loop_went again skip r rest jq jq' s :
  engine_rule again skip (js_replace " " "" r) (head rest) jq s = (s, Ok (Went jq' false false None)) ->
  engine_loop again skip (r :: rest) jq s = engine_loop again skip rest jq' s.
Proof.
  intros H. unfold engine_loop at 1. cbn [rules_loop]. unfold mbind, V_bind.
  unfold engine_rule in H. by rewrite H.
Qed.

Lemma loop_throws again skip r rest jq s e :
  (engine_rule again skip (js_replace " " "" r) (head rest) jq s).2 = Throw e ->
  (engine_loop again skip (r :: rest) jq s).2 = Throw e.
Proof.
  intros H. unfold engine_loop. cbn [rules_loop]. by apply bind_throws.
Qed.

Lemma box_rule again skip s :
  fields s = endless_form ->
  engine_rule again skip "maxCheckbox" (Some "1") [1%nat] s = (s, Ok (Went [0%nat; 1%nat] false false None)).
Proof.
  intros Hs.
  change (engine_rule again skip "maxCheckbox" (Some "1") [1%nat] s) with
    ((r ← max_checkbox_rule defaults [1%nat] (Some "1"); l ← by_name (Some "c"); mret (Went l false false r)) s).
  rewrite (bind_eq (max_checkbox_rule _ _ _) _ s s None).
  - rewrite (bind_eq (by_name _) _ s s [0%nat; 1%nat]); [done|].
    rewrite by_name_plain by done. unfold select. by rewrite Hs.
  - unfold max_checkbox_rule.
    rewrite (bind_eq (attr_name _) _ s s (Some "c")) by (unfold attr_name, attr, mbind, V_bind, gets, first_of; by rewrite Hs).
    rewrite (bind_eq (groupSize _) _ s s 0); [by vm_compute|].
    rewrite groupSize_plain by done. unfold select. by rewrite Hs.
Qed.

Lemma endless_loop again skip s :
  (forall s', fields s' = endless_form -> (again [1%nat] skip s').2 = Throw RangeError) ->
  fields s = endless_form ->
  (engine_loop again skip ["maxCheckbox"; "1"; ""; "groupRequired"; "g1"; ""] [1%nat] s).2 = Throw RangeError.
Proof.
  intros Ha Hs. rewrite (loop_went _ _ _ _ _ [0%nat; 1%nat]) by by apply box_rule.
  destruct s as [fs e a iv ps n c l]. cbn in Hs. subst fs.
  rewrite (loop_went _ _ _ _ _ [0%nat; 1%nat]) by (vm_compute; reflexivity).
  rewrite (loop_went _ _ _ _ _ [0%nat; 1%nat]) by (vm_compute; reflexivity).
  apply loop_throws. set (st := VState _ _ _ _ _ _ _ _).
  change (engine_rule again skip _ _ _ st)
    with (group_rule defaults again skip "groupRequired" (Some "g1") [0%nat; 1%nat] false false st).
  unfold group_rule, mbind, V_bind.
  change (find_group (Some "g1") st) with (st, Ok [1%nat]). cbn [take head].
  case_bool_decide; [done|]. unfold mbind, V_bind.
  specialize (Ha st eq_refl). destruct (again [1%nat] skip st) as [s' x]. cbn in Ha. by subst x.
Qed.

(** C30: The engine never gets out of that form: whatever number of calls is allowed, it
    needs more. *)
Theorem validateField_endless calls s skip :
  fields s = endless_form ->
  (_validateField defaults geo (fun _ => None) id id 0 (fun _ => None) None (fun _ _ => []) calls [1%nat] skip s).2
    = Throw RangeError.
Proof.
  revert s. induction calls as [|calls IH]; intros s Hs; [done|]. cbn [_validateField].
  set (again := _validateField _ _ _ _ _ _ _ _ _ _) in *.
  destruct s as [fs e a iv ps n c l]. cbn in Hs. subst fs.
  pose proof (endless_loop again skip (VState endless_form false true iv ps n c l) IH eq_refl) as H.
  match type of H with (?m ?st).2 = _ =>
    change (((m ≫= fun '(jq, required, isAjax, promptText) =>
                finish defaults geo (Some "c") jq required isAjax promptText) st).2 = Throw RangeError) end.
  by apply bind_throws.
Qed.

End Endless.

Lemma validateField_endless_witness :
  (_validateField defaults geo (fun _ => None) id id 0 (fun _ => None) None (fun _ _ => []) 1000 [1%nat] true
     (start endless_form)).2 = Throw RangeError.
Proof. by apply validateField_endless. Defined.
End Forms.

(** ** The list of invalid fields *)

Lemma record_error_false f l : record_error f false l = remove_first f l.
Proof. unfold record_error, remove_first. by destruct (inArray f l =? -1). Qed.
Lemma record_error_true f l : record_error f true l = if decide (f ∈ l) then l else (l ++ [f])%list.
Proof.
  unfold record_error. destruct (Z.eqb_spec (inArray f l) (-1)) as [H|H]; rewrite inArray_none in H;
    destruct (decide (f ∈ l)); done || by destruct H.
Qed.

Lemma NoDup_record_error f err l : NoDup l -> NoDup (record_error f err l).
Proof.
  intros H. destruct err; [rewrite record_error_true|rewrite record_error_false].
  - destruct (decide (f ∈ l)); [done|]. apply NoDup_app. split_and!; [done| |apply NoDup_singleton].
    intros x Hx ->%list_elem_of_singleton. done.
  - eapply sublist_NoDup; [exact H|apply remove_first_sublist].
Qed.

(** A field is on the list exactly when it was wrong the last time; no other field's
    place changes. *)
Lemma elem_of_record_error f g err l :
  NoDup l -> g ∈ record_error f err l <-> if decide (g = f) then err = true else g ∈ l.
Proof.
  intros Hn. destruct err; [rewrite record_error_true|rewrite record_error_false].
  - destruct (decide (f ∈ l)) as [Hf|Hf], (decide (g = f)) as [->|Hne]; try done;
      rewrite elem_of_app, list_elem_of_singleton; naive_solver.
  - destruct (decide (g = f)) as [->|Hne].
    + split; [|done]. intros Hin. destruct (decide (f ∈ l)) as [Hf|Hf].
      * rewrite (remove_first_perm f l Hf) in Hn. by apply NoDup_cons in Hn as [? _].
      * by rewrite remove_first_notin in Hin.
    + destruct (decide (f ∈ l)) as [Hf|Hf]; [|by rewrite remove_first_notin].
      rewrite (remove_first_perm f l Hf) at 2. rewrite elem_of_cons. naive_solver.
Qed.

(** ** Prompts

    The class of a prompt is found by its selector when the characters of the id of its
    field are plain or escaped by the engine: no space, backslash or slash, for example. *)
Definition clean (s : string) : bool := all_chars class_char s.

Lemma all_chars_app p s t : all_chars p (s ++ t) = all_chars p s && all_chars p t.
Proof. induction s as [|c s IH]; [done|]. rewrite str_app_cons. cbn. by rewrite IH, andb_assoc. Qed.
Lemma all_chars_map p f s :
  (forall c, p c = true -> p (f c) = true) -> all_chars p s = true -> all_chars p (map_chars f s) = true.
Proof.
  intros Hf. induction s as [|c s IH]; [done|]. cbn. rewrite !andb_true_iff. intros [Hc Hs].
  split; [by apply Hf|by apply IH].
Qed.

Lemma prompt_class_clean id :
  match id with Some i => clean i = true | None => True end -> clean (prompt_class id) = true.
Proof.
  intros H. unfold prompt_class, clean. rewrite all_chars_app. apply andb_true_iff. split; [|done].
  unfold _getClassName, truthy_str. destruct id as [i|]; [|done].
  destruct (String.eqb i ""); [done|]. cbn. apply all_chars_map; [|done].
  intros d Hd. by destruct (_ || _).
Qed.

(** The first element selected is the first that satisfies the condition. *)
Lemma select_find {A} k (p : A -> bool) l :
  (i ← head (select_from k p l); l !! (i - k)%nat) = List.find p l.
Proof.
  revert k. induction l as [|x l IH]; intros k; [done|]. cbn [select_from List.find].
  destruct (p x); [cbn; by rewrite Nat.sub_diag|]. rewrite <-(IH (S k)).
  destruct (select_from (S k) p l) as [|i r] eqn:E; [done|]. cbn.
  assert (S k <= i)%nat as Hi by (apply (select_from_ge (S k) p l); rewrite E; by left).
  by replace (i - k)%nat with (S (i - S k)) by lia.
Qed.

(** The prompt of a field whose id is clean. *)
Definition prompt_of (id : option string) (l : list prompt) : option prompt :=
  List.find (fun p => String.eqb (p_class p) (prompt_class id)) l.
Lemma find_prompt_clean `{Selectors} id l :
  clean (prompt_class id) = true -> find_prompt id l = Ok (prompt_of id l).
Proof.
  intros Hc. unfold find_prompt, prompt_of. rewrite select_class by done. cbn. f_equal.
  rewrite <-(select_find 0). by destruct (head _) as [i|]; cbn; [rewrite Nat.sub_0_r|].
Qed.

Definition clean_id (f : field) : Prop :=
  match f_id f with Some i => clean i = true | None => True end.

(** The state of the prompts and of the list of invalid fields. *)
Record well_formed (s : vstate) : Prop := {
  wf_invalid : NoDup (InvalidFields s);
  wf_class : NoDup (p_class <$> prompts s);
  wf_el : NoDup (p_el <$> prompts s);
  wf_next : Forall (fun p => p_el p < next_el s)%nat (prompts s);
  wf_ids : Forall clean_id (fields s)
}.

(** Changing prompts in place, where their classes and numbers stay. *)
Lemma wf_map_prompts E g :
  (forall p, p_class (g p) = p_class p /\ p_el (g p) = p_el p) ->
  safe well_formed E (modify (fun s => set_prompts (map g (prompts s)) (next_el s) s)).
Proof.
  intros Hg. apply safe_modify. intros s [H1 H2 H3 H4 H5]. split; cbn; try done.
  - rewrite <-list_fmap_compose. erewrite list_fmap_ext; [exact H2|]. intros i p _. apply Hg.
  - rewrite <-list_fmap_compose. erewrite list_fmap_ext; [exact H3|]. intros i p _. apply Hg.
  - apply Forall_fmap. eapply Forall_impl; [exact H4|]. intros p Hp. cbn. by destruct (Hg p) as [_ ->].
Qed.
Lemma wf_on_prompt E el f :
  (forall p, p_class (f p) = p_class p /\ p_el (f p) = p_el p) -> safe well_formed E (on_prompt el f).
Proof. intros Hf. apply wf_map_prompts. intros p. destruct (_ =? _)%nat; [apply Hf|done]. Qed.
Lemma wf_fade_where E p : safe well_formed E (fade_where p).
Proof. apply wf_map_prompts. intros x. by destruct (p x). Qed.

Lemma prompt_of_None id l : prompt_of id l = None -> prompt_class id ∉ p_class <$> l.
Proof.
  intros Hf (p & Hp & Hin)%list_elem_of_fmap. unfold prompt_of in Hf.
  apply list_elem_of_In in Hin. pose proof (List.find_none _ _ Hf p Hin) as H. cbn in H.
  apply String.eqb_neq in H. congruence.
Qed.

Section Reachable.
Context {Sel : Selectors} (o : options) (geo : nat -> string -> geometry) (Date_parse : text -> option Z)
  (UTC LocalTime : Z -> Z) (now : Z)
  (window : string -> option (list nat -> V (option string)))
  (customFunctions : option (string -> option (list nat -> V (option string))))
  (find : list field -> string -> list nat).
Context (E : string -> Prop) `{!Raised E} (E_deep : E RangeError).
Context (W_window : safe_functions well_formed E window)
  (W_custom : forall fns, customFunctions = Some fns -> safe_functions well_formed E fns).

Lemma wf_set_val jq v : safe well_formed E (set_val jq v).
Proof.
  apply safe_modify. intros s [H1 H2 H3 H4 H5]. split; cbn; try done.
  apply Forall_lookup. intros i f. rewrite list_lookup_imap.
  destruct (fields s !! i) as [g|] eqn:Hg; cbn; [|done]. intros [= <-].
  rewrite Forall_lookup in H5. specialize (H5 i g Hg). by destruct (decide _).
Qed.

Lemma wf_attr_id s jq :
  well_formed s -> match mjoin (f_id <$> first_of s jq) with Some i => clean i = true | None => True end.
Proof.
  intros [_ _ _ _ H]. destruct (first_of s jq) as [f|] eqn:Hf; [|done]. cbn.
  unfold first_of in Hf. destruct (head jq) as [i|]; [|done]. cbn in Hf.
  rewrite Forall_lookup in H. exact (H i f Hf).
Qed.

Lemma getPrompt_eq jq s :
  _getPrompt jq s = (s, find_prompt (mjoin (f_id <$> first_of s jq)) (prompts s)).
Proof. done. Qed.
Lemma getPrompt_clean jq s :
  well_formed s -> _getPrompt jq s = (s, Ok (prompt_of (mjoin (f_id <$> first_of s jq)) (prompts s))).
Proof. intros Hs. by rewrite getPrompt_eq, find_prompt_clean by by apply prompt_class_clean, wf_attr_id. Qed.

Lemma wf_build jq t type aj s :
  well_formed s -> prompt_class (mjoin (f_id <$> first_of s jq)) ∉ p_class <$> prompts s ->
  well_formed (_buildPrompt o geo jq t type aj s).1 /\ tame E (_buildPrompt o geo jq t type aj s).2.
Proof.
  intros Hs Hni. destruct Hs as [H1 H2 H3 H4 H5]. unfold _buildPrompt, mbind, V_bind.
  change (attr_id jq s) with (s, Ok (mjoin (f_id <$> first_of s jq))). cbn.
  destruct jq as [|f jq]; cbn; [split; [by split|apply tame_throw, raised_type]|].
  destruct (_calculatePosition _ _ _) as [[top x] margin]. cbn. split; [|apply tame_ok]. split; cbn; try done.
  - rewrite fmap_app. apply NoDup_app. split_and!; [done| |apply NoDup_singleton].
    intros c Hc ->%list_elem_of_singleton. done.
  - rewrite fmap_app. apply NoDup_app. split_and!; [done| |apply NoDup_singleton].
    intros c (p & -> & Hp)%list_elem_of_fmap Hn%list_elem_of_singleton. cbn in Hn.
    rewrite Forall_forall in H4. specialize (H4 p Hp). lia.
  - apply Forall_app. split; [|repeat constructor; cbn; lia].
    eapply Forall_impl; [exact H4|]. cbn. lia.
Qed.

Lemma wf_update jq el t type aj : safe well_formed E (_updatePrompt o geo jq el t type aj).
Proof.
  unfold _updatePrompt. destruct jq as [|f jq]; [apply safe_throw, raised_type|].
  destruct (_calculatePosition _ _ _) as [[top x] margin]. by apply wf_on_prompt.
Qed.

Lemma wf_show jq t type aj : safe well_formed E (_showPrompt o geo jq t type aj false).
Proof.
  intros s Hs. unfold _showPrompt, mbind, V_bind. rewrite getPrompt_clean by done.
  destruct (prompt_of _ _) as [p|] eqn:Hp; [by apply wf_update|]. apply wf_build; [done|by apply prompt_of_None].
Qed.

Lemma wf_close jq : safe well_formed E (_closePrompt jq).
Proof.
  intros s Hs. unfold _closePrompt, mbind, V_bind. rewrite getPrompt_clean by done.
  destruct (prompt_of _ _) as [p|]; [by apply wf_on_prompt|]. by apply safe_ret.
Qed.

Lemma wf_same f :
  (forall s, fields (f s) = fields s /\ InvalidFields (f s) = InvalidFields s /\ prompts (f s) = prompts s /\
             next_el (f s) = next_el s) ->
  safe well_formed E (modify f).
Proof.
  intros Hf. apply safe_modify. intros s [H1 H2 H3 H4 H5]. destruct (Hf s) as (E1 & E2 & E3 & E4).
  split; by rewrite ?E1, ?E2, ?E3, ?E4.
Qed.
Lemma wf_record f err :
  safe well_formed E (modify (fun s => set_invalid (record_error f err (InvalidFields s)) s)).
Proof. apply safe_modify. intros s [H1 H2 H3 H4 H5]. split; try done. by apply NoDup_record_error. Qed.

Ltac wf_prim :=
  match goal with
  | |- Raised _ => assumption
  | |- _ RangeError => assumption
  | |- safe_functions _ _ _ => assumption
  | |- forall fns, customFunctions = Some fns -> _ => assumption
  | |- _ => intros; lazymatch goal with
      | |- safe _ _ (set_val _ _) => apply wf_set_val
      | |- safe _ _ (_showPrompt _ _ _ _ _ _ _) => apply wf_show
      | |- safe _ _ (_closePrompt _) => apply wf_close
      | |- safe _ _ (raise_event _) => unfold raise_event; by apply wf_same
      | |- safe _ _ (modify (fun s => set_invalid _ s)) => apply wf_record
      | |- safe _ _ (modify _) => by apply wf_same
      end
  end.

Lemma wf_show_text jq t type aj : safe well_formed E (show_text o geo jq t type aj false).
Proof.
  unfold show_text. destruct t as [t|]; [apply wf_show|].
  apply safe_bind; [intros s Hs; rewrite getPrompt_clean by done; split; [done|apply tame_ok]|].
  intros [p|]; [apply wf_update|apply safe_throw, raised_type].
Qed.

Lemma wf_ajax_success rule id status msg : safe well_formed E (ajax_success o geo rule id status msg).
Proof.
  unfold ajax_success. apply safe_bind; [by apply safe_by_id|]. intros [|i jq]; [apply safe_ret|].
  destruct status.
  - apply safe_gets_bind. intros s _. apply safe_bind; [apply safe_when; wf_prim|]. intros _.
    match goal with |- safe _ _ (match ?x with _ => _ end) => destruct x end; [apply wf_show|apply wf_close].
  - apply safe_bind; [wf_prim|]. intros _. apply wf_show_text.
Qed.

Lemma fmap_imap_same {A B} (g : A -> B) (f : nat -> A -> A) l :
  (forall i x, g (f i x) = g x) -> g <$> imap f l = g <$> l.
Proof.
  intros Hf. apply list_eq. intros i. rewrite !list_lookup_fmap, list_lookup_imap.
  destruct (l !! i); cbn; [by rewrite Hf|done].
Qed.

Lemma wf_hide id : safe well_formed E (hidePrompt id).
Proof.
  unfold hidePrompt. apply safe_gets_bind. intros s0 _.
  apply safe_bind; [by apply safe_lift, tame_prompts|]. intros r.
  apply safe_modify. intros s [H1 H2 H3 H4 H5]. split; cbn; try done.
  - rewrite fmap_imap_same; [done|]. intros i x. by destruct (decide _).
  - rewrite fmap_imap_same; [done|]. intros i x. by destruct (decide _).
  - apply Forall_lookup. intros i x. rewrite list_lookup_imap.
    destruct (prompts s !! i) as [y|] eqn:Hy; cbn; [|done]. intros [= <-].
    rewrite Forall_lookup in H4. specialize (H4 i y Hy). by destruct (decide _).
Qed.

Lemma wf_fade_done el : safe well_formed E (fade_done el).
Proof.
  apply safe_modify. intros s [H1 H2 H3 H4 H5].
  assert (forall l, List.filter (fun p => negb ((p_el p =? el)%nat && p_fading p)) l `sublist_of` l) as Hsub.
  { induction l as [|p l IH]; cbn; [done|]. destruct (negb _); by constructor. }
  split; cbn; try done.
  - eapply sublist_NoDup; [exact H2|]. apply fmap_sublist, Hsub.
  - eapply sublist_NoDup; [exact H3|]. apply fmap_sublist, Hsub.
  - rewrite Forall_forall in *. intros p Hp. apply H4. eapply elem_of_sublist; [exact Hp|apply Hsub].
Qed.

(** *** The answers of the form's ajax

    They always build a new prompt, without a look for one that is there ("the engine see
    2 bubbles", says the source). *)

(** The class of the prompt that an answer builds, if it does. *)
Definition answered (F : list field) (a : string * bool * option string) : option string :=
  let '(id, valid, msg) := a in
  if valid && (if truthy_str msg is Some _ then false else true) then None
  else match select_fields F ("#" ++ id) with
       | Ok (i :: _) => Some (prompt_class (f ← F !! i; f_id f))
       | _ => None
       end.
(** No field that is answered with a prompt has one, nor is one answered twice. *)
Definition fresh_answers (s : vstate) (l : list (string * bool * option string)) : Prop :=
  NoDup (omap (answered (fields s)) l) /\
  forall c, c ∈ omap (answered (fields s)) l -> c ∉ p_class <$> prompts s.

(** A well-formed form of the fields [F], all of whose prompts have classes of [C]. *)
Definition framed (F : list field) (C : list string) (s : vstate) : Prop :=
  well_formed s /\ fields s = F /\ (p_class <$> prompts s) ⊆ C.

Lemma framed_close F C jq : safe (framed F C) E (_closePrompt jq).
Proof.
  intros s (Hs & HF & HC). destruct (wf_close jq s Hs) as [H1 H2]. split; [|done].
  split; [done|]. unfold _closePrompt, mbind, V_bind in *. rewrite getPrompt_clean in * by done.
  destruct (prompt_of _ _) as [p|]; cbn; [|done]. split; [done|].
  rewrite <-list_fmap_compose. intros c (x & -> & Hx)%list_elem_of_fmap. apply HC, list_elem_of_fmap.
  exists x. split; [|done]. cbn. by destruct (_ =? _)%nat.
Qed.

Lemma framed_show F C jq t type s :
  framed F C s -> prompt_class (mjoin (f_id <$> first_of s jq)) ∉ p_class <$> prompts s ->
  framed F (prompt_class (mjoin (f_id <$> first_of s jq)) :: C) (_showPrompt o geo jq t type false true s).1.
Proof.
  intros (Hs & HF & HC) Hni. unfold _showPrompt, mbind, V_bind. rewrite getPrompt_clean by done.
  destruct (wf_build jq t type false s Hs Hni) as [H1 _]. split; [done|].
  unfold _buildPrompt, mbind, V_bind.
  change (attr_id jq s) with (s, Ok (mjoin (f_id <$> first_of s jq))). cbn.
  destruct jq as [|f jq]; cbn; [split; [done|set_solver]|].
  destruct (_calculatePosition _ _ _) as [[top x] margin]. cbn. split; [done|].
  rewrite fmap_app. cbn. set_solver.
Qed.

Lemma framed_more F C C' s : framed F C s -> C ⊆ C' -> framed F C' s.
Proof. intros (H1 & H2 & H3) HC. split_and!; [done..|]. by etrans. Qed.

(** One answer adds at most its own class. *)
Lemma framed_answer F C a s :
  framed F C s -> (forall c, answered F a = Some c -> c ∉ p_class <$> prompts s) ->
  framed F (option_list (answered F a) ++ C) (form_answer o geo a s).1.
Proof.
  intros Hs Hfresh. pose proof Hs as (_ & HF & _). destruct a as [[id valid] msg].
  unfold form_answer, by_id, jq_find, mbind, V_bind, gets, lift. rewrite HF. unfold answered in *.
  destruct (select_fields F ("#" ++ id)) as [[|i l]|e]; unfold mret, V_ret; cbn [take]; cbv beta iota;
    try change (take 0 l) with (@nil nat).
  1, 3: eapply framed_more; [exact Hs|]; set_solver.
  assert (mjoin (f_id <$> first_of s [i]) = (f ← F !! i; f_id f)) as Hid.
  { unfold first_of. cbn. rewrite HF. by destruct (F !! i). }
  destruct valid; cbv beta iota; cbn [andb].
  - destruct (truthy_str msg) as [m|]; cbn [option_list app].
    + specialize (Hfresh _ eq_refl). rewrite <-Hid in *.
      pose proof (framed_show F C [i] (resolve o "alertTextOk" m) "pass" s Hs Hfresh) as H.
      destruct (_showPrompt _ _ _ _ _ _ _ s) as [s' []]; exact H.
    + pose proof (framed_close F C [i] s Hs) as [H _]. destruct (_closePrompt [i] s) as [s' []]; exact H.
  - specialize (Hfresh _ eq_refl). cbn [option_list app]. unfold show_text.
    destruct (resolve o "alertText" <$> msg) as [m|].
    + rewrite <-Hid in *. pose proof (framed_show F C [i] m "" s Hs Hfresh) as H.
      destruct (_showPrompt _ _ _ _ _ _ _ s) as [s' []]; exact H.
    + unfold mbind, V_bind. rewrite getPrompt_clean by apply Hs. cbn.
      eapply framed_more; [exact Hs|]. set_solver.
Qed.

Lemma wf_form_answers l : forall e s, well_formed s -> fresh_answers s l -> well_formed (form_answers o geo l e s).1.
Proof.
  induction l as [|a l IH]; intros e s Hs [Hn Hd]; [done|]. cbn [form_answers].
  assert (framed (fields s) (p_class <$> prompts s) s) as Hfr by done.
  apply (framed_answer _ _ a) in Hfr as (H1 & H2 & H3).
  2: { intros c Hc. apply Hd. cbn. rewrite Hc. by left. }
  unfold mbind, V_bind. destruct (form_answer o geo a s) as [s' [b|x]]; cbn in *; [|done].
  apply IH; [done|]. unfold fresh_answers. rewrite H2. destruct (answered (fields s) a) as [c|]; cbn in *.
  - apply NoDup_cons in Hn as [Hc Hn]. split; [done|]. intros d Hin Hold. apply H3 in Hold. set_solver.
  - split; [done|]. intros d Hin Hold. apply H3 in Hold. set_solver.
Qed.

Lemma wf_form_success json s :
  well_formed s -> (forall l, json = Some l -> fresh_answers s l) -> well_formed (form_success o geo json s).1.
Proof.
  intros Hs Hf. unfold form_success. destruct json as [l|].
  - pose proof (wf_form_answers l false s Hs (Hf l eq_refl)) as H. unfold mbind, V_bind.
    destruct (form_answers o geo l false s) as [s' [b|e]]; cbn in *; [|done].
    assert (safe well_formed E (raise_event (OnAjaxFormComplete (negb b)))) as Hr by wf_prim. by apply Hr.
  - assert (safe well_formed E (raise_event (OnAjaxFormComplete true))) as Hr by wf_prim. by apply Hr.
Qed.

(** What happens to a form: a field or the whole form is validated, the form is
    submitted, the server answers about a field or about the form, a prompt fades, by a
    click or by itself, and has faded, prompts are hidden, the user changes the fields. *)
Inductive vstep : vstate -> vstate -> Prop :=
| step_field calls jq s :
    vstep s (_onFieldEvent o geo Date_parse UTC LocalTime now window customFunctions find calls jq s).1
| step_form calls skip s :
    vstep s (_validateFields o geo Date_parse UTC LocalTime now window customFunctions find calls skip s).1
| step_submit calls s :
    vstep s (_onSubmitEvent o geo Date_parse UTC LocalTime now window customFunctions find calls s).1
| step_answer rule id status msg s : vstep s (ajax_success o geo rule id status msg s).1
| step_form_answer json s :
    (forall l, json = Some l -> fresh_answers s l) -> vstep s (form_success o geo json s).1
| step_fade el s : vstep s (on_prompt el fade s).1
| step_hide id s : vstep s (hidePrompt id s).1
| step_hide_all s : vstep s (hideAll s).1
| step_faded el s : vstep s (fade_done el s).1
| step_user l s : f_id <$> l = f_id <$> fields s -> vstep s (set_fields l s).

Lemma well_formed_step s s' : well_formed s -> vstep s s' -> well_formed s'.
Proof.
  intros Hs Hstep. destruct Hstep.
  - apply (safe_onField o geo Date_parse UTC LocalTime now window customFunctions find well_formed E); [wf_prim..|done].
  - apply (safe_validateFields o geo Date_parse UTC LocalTime now window customFunctions find well_formed E); [wf_prim..|done].
  - apply (safe_onSubmit o geo Date_parse UTC LocalTime now window customFunctions find well_formed E); [wf_prim..|done].
  - by apply wf_ajax_success.
  - by apply wf_form_success.
  - by apply (wf_on_prompt E).
  - by apply wf_hide.
  - by apply (wf_fade_where E).
  - by apply wf_fade_done.
  - destruct Hs as [H1 H2 H3 H4 H5]. split; try done. cbn. rewrite Forall_lookup in *. intros i f Hi.
    apply (f_equal (fun l => l !! i)) in H. rewrite !list_lookup_fmap, Hi in H. cbn in H.
    destruct (fields s !! i) as [f'|] eqn:Hf; cbn in H; [|done]. injection H as H. specialize (H5 i f' Hf). unfold clean_id in *. by rewrite H.
Qed.
End Reachable.

Lemma start_well_formed l :
  Forall clean_id l -> well_formed (start l).
Proof. intros H. split; cbn; try done; constructor. Qed.

Definition any_exception (e : string) : Prop := True.
#[export] Instance any_raised : Raised any_exception.
Proof. by split. Qed.

(** C8: In every state a form of fields with clean ids can get into, by the steps of
    [vstep], no field is on the list of invalid fields twice, and no two prompts have one
    class: whether an operation throws does not matter.  The answers of the form's ajax
    count as a step when no field they give a prompt has one already, nor gets two
    ([two_bubbles] is what happens otherwise); functions of the page are expected to
    leave the prompts and the list as they should be. *)
Theorem one_prompt_per_field {Sel : Selectors} o geo Date_parse UTC LocalTime now window customFunctions find l s :
  Forall clean_id l ->
  safe_functions well_formed any_exception window ->
  (forall fns, customFunctions = Some fns -> safe_functions well_formed any_exception fns) ->
  rtc (vstep o geo Date_parse UTC LocalTime now window customFunctions find) (start l) s ->
  NoDup (InvalidFields s) /\ NoDup (p_class <$> prompts s).
Proof.
  intros Hl Hw Hc Hsteps. enough (well_formed s) as [H1 H2 _ _ _] by done.
  apply start_well_formed in Hl. revert Hl. induction Hsteps as [|s1 s2 s3 H12 _ IH]; [done|].
  intros H1. apply IH. by eapply (well_formed_step _ _ _ _ _ _ _ _ _ any_exception).
Qed.

Section Forms2.
Import Example_form.
Lemma one_prompt_per_field_witness :
  let s := (_validateFields defaults geo (fun _ => None) id id 0 (fun _ => None) None (fun _ _ => []) 2 false
              (start [text_field "a" "required" ""])).1 in
  prompts s <> [] /\ NoDup (InvalidFields s) /\ NoDup (p_class <$> prompts s).
Proof.
  split; [vm_compute; discriminate|].
  apply (one_prompt_per_field defaults geo (fun _ => None) id id 0 (fun _ => None) None (fun _ _ => []) [text_field "a" "required" ""]).
  - repeat constructor.
  - intros ? ? H. discriminate H.
  - done.
  - eapply rtc_l; [apply step_form|apply rtc_refl].
Defined.

(** A name with a backslash, which this engine of selectors takes as an escape: the
    prompt is not found again, and each validation adds another. *)
Example backslash_prompts :
  let once s := (validateField defaults geo (fun _ => None) id id 0 (fun _ => None) None (fun _ _ => []) 2 [0%nat] s).1 in
  length (prompts (once (once (start [text_field "a\b" "required" ""])))) = 2%nat.
Proof. vm_compute. done. Qed.

(** Two bubbles: the server finds wrong what has a prompt already. *)
Example two_bubbles :
  let s := (_validateFields defaults geo (fun _ => None) id id 0 (fun _ => None) None (fun _ _ => []) 2 false
              (start [text_field "a" "required" ""])).1 in
  map p_class (prompts (form_success defaults geo (Some [("a", false, Some "no")]) s).1) = ["aformError"; "aformError"].
Proof. vm_compute. done. Qed.

(** A field that becomes wrong while its prompt fades loses the prompt. *)
Example prompt_lost :
  let v s := (validateField defaults geo (fun _ => None) id id 0 (fun _ => None) None (fun _ _ => []) 2 [0%nat] s).1 in
  let set t s := set_fields [text_field "a" "required" t] s in
  let s := (fade_done 0 (v (set "" (v (set "x" (v (start [text_field "a" "required" ""]))))))).1 in
  InvalidFields s = [Some 0%nat] /\ prompts s = [].
Proof. vm_compute. done. Qed.

(** Two names that differ in a colon share one prompt: the valid field takes the
    invalid one's away. *)
Example prompt_shared :
  let s := (run_form defaults 2 [text_field "a:1" "required" ""; text_field "a.1" "required" "x"]).1 in
  InvalidFields s = [Some 0%nat] /\ map p_fading (prompts s) = [true].
Proof. vm_compute. done. Qed.

(** A second radio button that alone has the rule: the prompt is at the first, and the
    engine looks for it at the second to scroll there. *)
Example radio_throws :
  (run_form defaults 2 [radio "a" "" false; radio "b" "required" false]).2 = Throw TypeError.
Proof. vm_compute. done. Qed.

(** [doNotShowAllErrosOnSubmit]: only the first field is looked at, and an error there
    is thrown over. *)
Example not_all_at_once :
  (run_form all_at_once_off 2 [text_field "a" "required" "x"; text_field "b" "required" ""]).2 = Ok true /\
  (run_form all_at_once_off 2 [text_field "a" "required" ""]).2 = Throw TypeError.
Proof. vm_compute. done. Qed.

(** The rules whose messages no table has. *)
Example rules_without_message :
  map (fun r => (run_form defaults 2 [text_field "a" r "1"; text_field "b" "g" "2"]).2)
    ["creditCard"; "dateRange[validate]"; "dateTimeRange[validate]"; "funcCall[f]"] =
  replicate 4 (Throw TypeError).
Proof. vm_compute. done. Qed.
End Forms2.
