(* ===== verification/ValidForm.v ===== *)
(** * Form validation: forms of text fields

    What the engine computes for a form whose fields are text inputs with rules about
    their own value, as a function of the values alone ([field_result]), and the proof
    that running the engine over the form gives just that: the answer, the list of
    invalid fields, and the values as the rules have normalised them. *)

From S2P Require Import Prelude JsString JsNum Json PageText RegExp Rules ValidRules Validator ValidFacts.
From Stdlib Require Import Ascii.
Local Open Scope string_scope.
Local Open Scope Z_scope.

(** ** The specification *)

Section Spec.
Context (rules : list (string * rule)).

(** A rule on a value: the value it leaves, whether it is the rule [required], and the
    message. *)
Definition local_rule (name : string) (arg : option string) (v : text) : res (text * bool * option string) :=
  if String.eqb name "required" then
    let v' := ToCDB v in
    if nil_b v' then m ← message rules "required" "alertText"; Ok (v', true, m) else Ok (v', true, None)
  else if String.eqb name "custom" then
    r ← _customRegex rules (VStr v) arg;
    Ok (match r.1.1 with Some (VStr v') => v' | _ => v end, false, r.1.2)
  else if String.eqb name "minSize" then m ← _minSize rules (VStr v) arg; Ok (v, false, m)
  else if String.eqb name "maxSize" then m ← _maxSize rules (VStr v) arg; Ok (v, false, m)
  else if String.eqb name "min" then m ← _min rules (VStr v) arg; Ok (v, false, m)
  else if String.eqb name "max" then m ← _max rules (VStr v) arg; Ok (v, false, m)
  else Ok (v, false, None).

(** The rules of the engine that look at more than the value. *)
Definition is_local (name : string) : bool :=
  negb (existsb (String.eqb name)
    ["groupRequired"; "ajax"; "past"; "future"; "dateRange"; "dateTimeRange"; "maxCheckbox"; "minCheckbox";
     "equals"; "funcCall"; "creditCard"]).

(** The rules of a field in order: the value, whether a value is required, whether
    there was a message. *)
Fixpoint local_rules (l : list string) (v : text) (required err : bool) : res (text * bool * bool) :=
  match l with
  | [] => Ok (v, required, err)
  | r :: rest =>
      x ← local_rule (js_replace " " "" r) (head rest) v;
      local_rules rest x.1.1 (required || x.1.2) (err || if x.2 is Some _ then true else false)
  end.

(** The value a field ends with and whether it is wrong: an empty value is wrong only
    when a value is required. *)
Definition field_result (str : string) (v : text) : res (text * bool) :=
  '(v', required, err) ← local_rules (split_rules str) v false false;
  Ok (v', err && (required || negb (nil_b v'))).
End Spec.

(** A text input of the form: its rules and its value; its id and its name are found by
    the selectors the engine makes of them. *)
Definition simple (f : field) (str : string) (v : text) : Prop :=
  f_tag f = "input" /\ f_type f = "text" /\ (exists i, f_id f = Some i /\ i <> "" /\ clean i = true) /\
  all_chars name_char (shown (f_name f)) = true /\
  (exists a, f_attr f = Some a /\ getRules a = Some str) /\ f_val f = VStr v /\
  Forall (fun r => is_local (js_replace " " "" r) = true) (split_rules str).

(** ** One field *)

Lemma imap_one (l : list field) i f v :
  l !! i = Some f ->
  imap (fun j g => if decide (j ∈ [i]) then set_f_val v g else g) l = <[i := set_f_val v f]> l.
Proof.
  intros Hi. apply list_eq. intros j. rewrite list_lookup_imap. destruct (decide (i = j)) as [<-|Hne].
  - rewrite list_lookup_insert_eq by (by eapply lookup_lt_Some). rewrite Hi. cbn.
    rewrite decide_True; [done|]. by apply list_elem_of_singleton.
  - rewrite list_lookup_insert_ne by done. destruct (l !! j); cbn; [|done].
    rewrite decide_False; [done|]. intros ->%list_elem_of_singleton. done.
Qed.

Lemma select_map_static k p (l : list field) :
  (forall f, p (static f) = p f) -> select_from k p l = select_from k p (map static l).
Proof.
  intros Hp. revert k. induction l as [|f l IH]; intros k; [done|]. cbn [select_from map]. by rewrite Hp, !IH.
Qed.
Lemma static_insert (l : list field) i f v :
  l !! i = Some f -> map static (<[i := set_f_val v f]> l) = map static l.
Proof.
  intros Hi. apply list_eq. intros j. rewrite !list_lookup_fmap. destruct (decide (i = j)) as [<-|Hne].
  - rewrite list_lookup_insert_eq by (by eapply lookup_lt_Some). by rewrite Hi.
  - by rewrite list_lookup_insert_ne.
Qed.

Lemma set_f_val_same f : set_f_val (f_val f) f = f.
Proof. by destruct f. Qed.
Lemma set_f_val_twice v w f : set_f_val v (set_f_val w f) = set_f_val v f.
Proof. done. Qed.

(** The state after some rules of field [i]: its value, perhaps the mark of an error,
    perhaps alerts. *)
Definition moved (i : nat) (f : field) (v : text) (err : bool) (s s' : vstate) : Prop :=
  exists lg, s' = set_log lg (set_isError err
                    (set_fields (<[i := set_f_val (VStr v) f]> (fields s)) s)).

Section Field.
Context {Sel : Selectors} (o : options) (geo : nat -> string -> geometry) (Date_parse : text -> option Z)
  (UTC LocalTime : Z -> Z) (now : Z)
  (window : string -> option (list nat -> V (option string)))
  (customFunctions : option (string -> option (list nat -> V (option string))))
  (find : list field -> string -> list nat).

Lemma val_eq s i f : fields s !! i = Some f -> val [i] s = (s, Ok (f_val f)).
Proof. intros H. unfold val, attr, mbind, V_bind, gets, first_of. cbn. by rewrite H. Qed.
Lemma val_or_eq d s i f : fields s !! i = Some f -> val_or d [i] s = (s, Ok (f_val f)).
Proof. intros H. unfold val_or, attr, mbind, V_bind, gets, first_of. cbn. by rewrite H. Qed.
Lemma prop_type_eq s i f : fields s !! i = Some f -> prop_type [i] s = (s, Ok (f_type f)).
Proof. intros H. unfold prop_type, attr, mbind, V_bind, gets, first_of. cbn. by rewrite H. Qed.
Lemma set_val_eq s i f v :
  fields s !! i = Some f -> set_val [i] v s = (set_fields (<[i := set_f_val v f]> (fields s)) s, Ok tt).
Proof. intros H. unfold set_val, modify. by rewrite (imap_one _ _ f). Qed.

Lemma moved_refl i f v s :
  fields s !! i = Some f -> f_val f = VStr v -> moved i f v (isError s) s s.
Proof.
  intros Hi Hv. exists (log s). rewrite <-Hv, set_f_val_same, list_insert_id by done.
  by destruct s.
Qed.

Lemma ToCDB_text v : _ToCDB (VStr v) = Ok (VStr (ToCDB v)).
Proof. unfold _ToCDB. cbn. by destruct v. Qed.

Lemma moved_set i f v s :
  fields s !! i = Some f -> moved i f v (isError s) s (set_fields (<[i := set_f_val (VStr v) f]> (fields s)) s).
Proof. intros Hi. exists (log s). by destruct s. Qed.

Lemma required_text i f v s :
  fields s !! i = Some f -> f_type f = "text" -> f_val f = VStr v ->
  _required o "required" [i] s =
    (set_fields (<[i := set_f_val (VStr (ToCDB v)) f]> (fields s)) s,
     if nil_b (ToCDB v) then message (allrules o) "required" "alertText" else Ok None).
Proof.
  intros Hi Ht Hv. unfold _required. rewrite (bind_eq _ _ _ _ _ (prop_type_eq _ _ _ Hi)), Ht. cbn [String.eqb Ascii.eqb Bool.eqb orb].
  rewrite (bind_eq _ _ _ _ _ (val_eq _ _ _ Hi)), Hv, ToCDB_text.
  change (lift (Ok (VStr (ToCDB v))) ≫= ?k) with (k (VStr (ToCDB v))). cbv beta.
  rewrite (bind_eq _ _ _ _ _ (set_val_eq _ _ _ _ Hi)).
  erewrite (bind_eq _ _ _ _ _ (val_eq _ i (set_f_val (VStr (ToCDB v)) f) _)). cbn [f_val set_f_val val_truthy].
  by destruct (nil_b (ToCDB v)).
  Unshelve. cbn. apply list_lookup_insert_eq. by eapply lookup_lt_Some.
Qed.

Lemma custom_text i f v s arg r :
  fields s !! i = Some f -> f_val f = VStr v -> _customRegex (allrules o) (VStr v) arg = Ok r ->
  exists s', custom_rule o [i] arg s = (s', Ok r.1.2) /\
    moved i f (match r.1.1 with Some (VStr v') => v' | _ => v end) (isError s) s s'.
Proof.
  intros Hi Hv Hr. unfold custom_rule. rewrite (bind_eq _ _ _ _ _ (val_or_eq _ _ _ _ Hi)), Hv, Hr.
  change (lift (Ok r) ≫= ?k) with (k r). cbv beta.
  assert (match r.1.1 with Some w => r.2 = None /\ exists t, w = VStr t | None => True end) as Hw.
  { unfold _customRegex in Hr. rewrite ToCDB_text in Hr. repeat case_match; simplify_eq/=; eauto. }
  destruct r as [[[w|] m] alert]; cbn [fst snd] in Hw |- *; [destruct Hw as [-> [t ->]]|destruct alert as [a|]].
  - rewrite (bind_eq (mret ()) _ s s tt) by done.
    rewrite (bind_eq _ _ _ _ _ (set_val_eq _ _ _ _ Hi)). eexists. split; [reflexivity|]. by apply moved_set.
  - eexists. split; [reflexivity|]. exists (log s ++ [Alert a])%list.
    rewrite <-Hv, set_f_val_same, list_insert_id by done. by destruct s.
  - eexists. split; [reflexivity|]. by apply moved_refl.
Qed.

Lemma pure_rule (get : V fval) (R : fval -> res (option string)) i v req aj m s :
  get s = (s, Ok (VStr v)) -> R (VStr v) = Ok m ->
  ((v0 ← get; lift (R v0)) ≫= (fun r => mret (Went [i] req aj r))) s = (s, Ok (Went [i] (req || false) aj m)).
Proof. intros Hg Hr. unfold mbind, V_bind. rewrite Hg. cbn. by rewrite Hr, orb_false_r. Qed.

(** A rule of the engine that only looks at the value. *)
Lemma run_local again skip fieldName name arg i f v req aj s v' q m :
  fields s !! i = Some f -> f_type f = "text" -> f_val f = VStr v -> is_local name = true ->
  local_rule (allrules o) name arg v = Ok (v', q, m) ->
  exists s', run_rule o geo Date_parse UTC LocalTime now window customFunctions find again skip fieldName
               name arg [i] req aj s = (s', Ok (Went [i] (req || q) aj m)) /\
             moved i f v' (isError s) s s'.
Proof.
  intros Hi Ht Hv Hl. unfold local_rule, run_rule.
  assert (forall mm : res (option string), (m0 ← mm; Ok (v, false, m0)) = Ok (v', q, m) ->
    mm = Ok m /\ v' = v /\ q = false) as Hm.
  { intros mm H. apply res_bind_ok in H as (x & -> & H). by simplify_eq. }
  destruct (String.eqb_spec name "required") as [->|]; [intros H|].
  { pose proof (required_text i f v s Hi Ht Hv) as Hreq. destruct (nil_b (ToCDB v)).
    - apply res_bind_ok in H as (x & Hx & H). rewrite Hx in Hreq. rewrite (bind_eq _ _ _ _ _ Hreq).
      simplify_eq. eexists. rewrite orb_true_r. split; [reflexivity|by apply moved_set].
    - rewrite (bind_eq _ _ _ _ _ Hreq). simplify_eq. eexists. rewrite orb_true_r.
      split; [reflexivity|by apply moved_set]. }
  destruct (String.eqb_spec name "custom") as [->|]; [intros (r & Hr & Heq)%res_bind_ok|].
  { destruct (custom_text i f v s arg r Hi Hv Hr) as (s' & Hs' & Hmv). exists s'.
    rewrite (bind_eq _ _ _ _ _ Hs'). simplify_eq. by rewrite orb_false_r. }
  unfold is_local in Hl. apply negb_true_iff in Hl. cbn [existsb] in Hl.
  repeat (apply orb_false_iff in Hl as [?Hname Hl]).
  repeat match goal with Hn : (name =? _)%string = false |- _ => rewrite Hn; clear Hn end.
  pose proof (val_eq s i f Hi) as Hg. pose proof (val_or_eq VNull s i f Hi) as Hg'. rewrite Hv in Hg, Hg'.
  repeat match goal with
  | |- (if String.eqb name ?n then _ else _) = _ -> _ =>
      destruct (String.eqb_spec name n) as [->|];
      [intros (Hr & -> & ->)%Hm; exists s; split; [|by apply moved_refl];
       first [by apply (pure_rule (val [i]) (fun w => _) i v) | by apply (pure_rule (val_or VNull [i]) (fun w => _) i v)]|]
  end.
  intros [= <- <- <-]. exists s. rewrite orb_false_r. split; [done|by apply moved_refl].
Qed.

Lemma moved_lookup i f v e s s' :
  fields s !! i = Some f -> moved i f v e s s' -> fields s' !! i = Some (set_f_val (VStr v) f).
Proof. intros Hi [lg ->]. cbn. apply list_lookup_insert_eq. by eapply lookup_lt_Some. Qed.

Lemma moved_trans i f v e v' e' s s' s'' :
  moved i f v e s s' -> moved i (set_f_val (VStr v) f) v' e' s' s'' -> moved i f v' e' s s''.
Proof. intros [lg ->] [lg' ->]. exists lg'. cbn. by rewrite set_f_val_twice, list_insert_insert_eq. Qed.

(** The loop over the rules of a field. *)
Lemma run_loop again skip fieldName rs i f v req aj err t s v' req' err' :
  fields s !! i = Some f -> f_type f = "text" -> f_val f = VStr v ->
  Forall (fun r => is_local (js_replace " " "" r) = true) rs ->
  isError s = err ->
  local_rules (allrules o) rs v req err = Ok (v', req', err') ->
  exists s' t', rules_loop o geo Date_parse UTC LocalTime now window customFunctions find again skip fieldName
               rs [i] req aj t s = (s', Ok ([i], req', aj, t')) /\
             isError s' = err' /\ moved i f v' err' s s'.
Proof.
  intros Hi Ht Hv Hl. revert s f v req err t Hi Ht Hv.
  induction Hl as [|r rest Hr Hl IH]; intros s f v req err t Hi Ht Hv He; cbn [local_rules rules_loop].
  - intros [= -> -> <-]. exists s, t. split_and!; [done..|]. rewrite <-He. by apply moved_refl.
  - intros ([[v1 q] m] & Hx & Hrest)%res_bind_ok. cbn [fst snd] in Hrest.
    destruct (run_local again skip fieldName _ (head rest) i f v req aj s v1 q m Hi Ht Hv Hr Hx) as (s1 & Hrun & Hm1).
    rewrite He in Hm1. rewrite (bind_eq _ _ _ _ _ Hrun).
    pose proof (moved_lookup _ _ _ _ _ _ Hi Hm1) as Hi1.
    assert (isError s1 = err) as He1 by by destruct Hm1 as [lg ->].
    destruct m as [m|].
    + rewrite (bind_eq _ _ s1 (set_isError true s1) tt) by done. rewrite orb_true_r in Hrest.
      destruct (IH (set_isError true s1) (set_f_val (VStr v1) f) v1 (req || q)%bool true (t ++ m ++ "<br/>")%string
                  Hi1 Ht eq_refl eq_refl Hrest) as (s2 & t2 & Hs2 & He2 & Hm2).
      exists s2, t2. split_and!; [done..|]. destruct Hm1 as [lg ->]. destruct Hm2 as [lg' ->]. exists lg'. cbn.
      by rewrite set_f_val_twice, list_insert_insert_eq.
    + rewrite orb_false_r in Hrest.
      destruct (IH s1 (set_f_val (VStr v1) f) v1 (req || q)%bool err t Hi1 Ht eq_refl He1 Hrest)
        as (s2 & t2 & Hs2 & He2 & Hm2).
      exists s2, t2. split_and!; [done..|]. by apply (moved_trans _ _ v1 err _ _ _ s1).
Qed.
(** ** The end of a field's validation *)

(** Prompts that are there stay findable. *)
Definition keeps (ps ps' : list prompt) : Prop :=
  forall id, is_Some (prompt_of id ps) -> is_Some (prompt_of id ps').

Lemma find_app {A} (p : A -> bool) l x :
  List.find p (l ++ [x]) = match List.find p l with Some y => Some y | None => if p x then Some x else None end.
Proof. induction l as [|y l IH]; cbn; [done|]. by destruct (p y). Qed.

Lemma keeps_on ps el f :
  (forall p, p_class (f p) = p_class p) ->
  keeps ps (map (fun p => if (p_el p =? el)%nat then f p else p) ps).
Proof.
  intros Hf id. unfold prompt_of. intros [p Hp]. induction ps as [|q ps IH]; [done|]. cbn in *.
  assert (p_class (if (p_el q =? el)%nat then f q else q) = p_class q) as -> by by destruct (_ =? _)%nat.
  destruct (String.eqb _ _); [by eexists|]. by apply IH.
Qed.

Lemma show_eq i f t s :
  fields s !! i = Some f -> clean (prompt_class (f_id f)) = true ->
  exists ps n, _showPrompt o geo [i] t "" false false s = (set_prompts ps n s, Ok tt) /\
    keeps (prompts s) ps /\ is_Some (prompt_of (f_id f) ps).
Proof.
  intros Hi Hc. unfold _showPrompt.
  assert (mjoin (f_id <$> first_of s [i]) = f_id f) as Hid by (unfold first_of; cbn; by rewrite Hi).
  rewrite (bind_eq (_getPrompt [i]) _ s s (prompt_of (f_id f) (prompts s)))
    by by rewrite getPrompt_eq, Hid, find_prompt_clean.
  destruct (prompt_of (f_id f) (prompts s)) as [p|] eqn:Hp.
  - unfold _updatePrompt. destruct (_calculatePosition _ _ _) as [[top x] margin]. eexists _, _.
    split; [reflexivity|]. split; [|apply keeps_on; [done|by eexists]]. by apply keeps_on.
  - unfold _buildPrompt.
    rewrite (bind_eq (attr_id [i]) _ s s (f_id f)) by (rewrite <-Hid; done).
    rewrite (bind_eq (gets showArrow) _ s s (showArrow s)) by done.
    rewrite (bind_eq (gets next_el) _ s s (next_el s)) by done.
    destruct (_calculatePosition _ _ _) as [[top x] margin]. eexists _, _. split; [reflexivity|].
    unfold keeps, prompt_of. split.
    + intros id [p Hid']. rewrite find_app, Hid'. by eexists.
    + rewrite find_app. unfold prompt_of in Hp. rewrite Hp. cbn. rewrite String.eqb_refl. by eexists.
Qed.

Lemma close_eq i f s :
  fields s !! i = Some f -> clean (prompt_class (f_id f)) = true ->
  exists ps, _closePrompt [i] s = (set_prompts ps (next_el s) s, Ok tt) /\ keeps (prompts s) ps.
Proof.
  intros Hi Hc. unfold _closePrompt.
  assert (mjoin (f_id <$> first_of s [i]) = f_id f) as Hid by (unfold first_of; cbn; by rewrite Hi).
  rewrite (bind_eq (_getPrompt [i]) _ s s (prompt_of (f_id f) (prompts s)))
    by by rewrite getPrompt_eq, Hid, find_prompt_clean.
  destruct (prompt_of _ _) as [p|].
  - eexists. split; [reflexivity|]. by apply keeps_on.
  - exists (prompts s). split; [by destruct s|]. by intros id.
Qed.

(** What validating field [i] leaves behind. *)
Record after (i : nat) (id : option string) (wrong : bool) (F : list field) (s s' : vstate) : Prop := {
  after_fields : fields s' = F;
  after_invalid : InvalidFields s' = record_error (Some i) wrong (InvalidFields s);
  after_keeps : keeps (prompts s) (prompts s');
  after_prompt : wrong = true -> is_Some (prompt_of id (prompts s'))
}.

Lemma finish_text fieldName i f v req t s :
  fields s !! i = Some f -> f_type f = "text" -> f_val f = VStr v ->
  clean (prompt_class (f_id f)) = true -> all_chars name_char (shown fieldName) = true ->
  (length (select (named fieldName) s) <= 1)%nat ->
  exists s', finish o geo fieldName [i] req false t s = (s', Ok (isError s && (req || negb (nil_b v)))) /\
    after i (f_id f) (isError s && (req || negb (nil_b v))) (fields s) s s'.
Proof.
  intros Hi Ht Hv Hc Hnm Hn. unfold finish. set (wrong := isError s && (req || negb (nil_b v))).
  rewrite (bind_eq (attr f_val [i]) _ s s (Some (f_val f))) by (unfold attr, gets, first_of; cbn; by rewrite Hi).
  rewrite Hv. cbn [val_empty].
  set (s1 := set_isError wrong s).
  rewrite (bind_eq _ _ s s1 tt).
  2: { unfold s1, wrong, when. destruct req, (nil_b v), s as [? [] ? ? ? ? ? ?]; cbn; done. }
  rewrite (bind_eq _ _ s1 s1 _ (prop_type_eq s1 i f Hi)), Ht.
  rewrite (bind_eq (first_named _ _ _) _ s1 s1 [i]).
  2: { unfold first_named. cbn [existsb orb String.eqb Ascii.eqb Bool.eqb].
       rewrite (bind_eq (by_name fieldName) _ s1 s1 (select (named fieldName) s1)) by by apply by_name_plain.
       change (select (named fieldName) s1) with (select (named fieldName) s).
       replace (1 <? length (select (named fieldName) s))%nat with false; [done|].
       symmetry. by apply Nat.ltb_ge. }
  rewrite (bind_eq (gets isError) _ s1 s1 wrong) by done.
  assert (exists ps n, (if wrong then _showPrompt o geo [i] t "" false false else _closePrompt [i]) s1 =
    (set_prompts ps n s1, Ok tt) /\ keeps (prompts s) ps /\
    (wrong = true -> is_Some (prompt_of (f_id f) ps))) as (ps & n & Hps & Hk & Hw).
  { destruct wrong.
    - destruct (show_eq i f t s1 Hi Hc) as (ps & n & H1 & H2 & H3). by exists ps, n.
    - destruct (close_eq i f s1 Hi Hc) as (ps & H1 & H2). exists ps, (next_el s1). by split_and!. }
  rewrite (bind_eq _ _ _ _ _ Hps). eexists. split; [reflexivity|]. by split.
Qed.

(** ** Validating one text field *)

Lemma validate_text calls skip i f str v v' wrong s :
  fields s !! i = Some f -> simple f str v ->
  (forall name, (length (select_from 0 (named name) (map static (fields s))) <= 1)%nat) ->
  field_result (allrules o) str v = Ok (v', wrong) ->
  exists s', _validateField o geo Date_parse UTC LocalTime now window customFunctions find (S calls) [i] skip s
               = (s', Ok wrong) /\
    after i (f_id f) wrong (<[i := set_f_val (VStr v') f]> (fields s)) s s'.
Proof.
  intros Hi (Htag & Ht & (id & Hid & Hne & Hcl) & Hnm & (a & Ha & Hr) & Hv & Hl) Hn Hres. cbn [_validateField].
  unfold field_result in Hres. apply res_bind_ok in Hres as ([[v1 req] err] & Hrules & Heq).
  injection Heq as -> <-.
  rewrite (bind_eq (attr_id [i]) _ s s (f_id f))
    by (unfold attr_id, attr, mbind, V_bind, gets, first_of; cbn; by rewrite Hi).
  rewrite Hid. cbn [truthy_str]. destruct (String.eqb_spec id ""); [done|].
  rewrite (bind_eq (attr f_attr [i]) _ s s (Some (f_attr f)))
    by (unfold attr, gets, first_of; cbn; by rewrite Hi).
  rewrite Ha. cbn [mbind option_bind]. rewrite Hr.
  rewrite (bind_eq (attr_name [i]) _ s s (f_name f))
    by (unfold attr_name, attr, mbind, V_bind, gets, first_of; cbn; by rewrite Hi).
  set (s0 := set_showArrow true (set_isError false s)).
  rewrite (bind_eq (modify _) _ s s0 tt) by done.
  destruct (run_loop (_validateField o geo Date_parse UTC LocalTime now window customFunctions find calls)
    skip (f_name f) (split_rules str) i f v false false false "" s0 v' req err Hi Ht Hv Hl eq_refl Hrules)
    as (s1 & t & Hrun & He & Hm).
  rewrite (bind_eq _ _ _ _ _ Hrun).
  pose proof (moved_lookup i f v' err s0 s1 Hi Hm) as Hi1.
  destruct (finish_text (f_name f) i (set_f_val (VStr v') f) v' req t s1 Hi1 Ht eq_refl) as (s2 & Hfin & [H1 H2 H3 H4]).
  { cbn [f_id set_f_val]. rewrite Hid. by apply prompt_class_clean. }
  { done. }
  { specialize (Hn (f_name f)). unfold select. destruct Hm as [lg ->]. cbn [fields set_log set_isError set_fields].
    rewrite (select_map_static _ _ (<[_ := _]> _)) by done.
    change (fields s0) with (fields s). by rewrite (static_insert _ _ f). }
  cbn [f_id set_f_val] in H4. rewrite He in *. rewrite Hid in H4. exists s2. rewrite Hfin. split; [done|].
  destruct Hm as [lg ->]. by split.
Qed.
End Field.

(** ** The whole form *)

(** The result of a field by its own rules, and the field as it is left. *)
Definition field_spec (rules : list (string * rule)) (f : field) : res (text * bool) :=
  match f_attr f ≫= getRules, f_val f with
  | Some str, VStr v => field_result rules str v
  | _, _ => Ok ([], false)
  end.
Definition wrong (rules : list (string * rule)) (f : field) : bool :=
  match field_spec rules f with Ok (_, w) => w | Throw _ => false end.
Definition final (rules : list (string * rule)) (f : field) : field :=
  if validated f then match field_spec rules f with Ok (v, _) => set_f_val (VStr v) f | Throw _ => f end else f.

(** The fields that are looked at are text inputs whose rules are about their own value
    and have their messages; no two fields have the same name. *)
Definition simple_form (rules : list (string * rule)) (F : list field) : Prop :=
  NoDup (f_name <$> F) /\
  Forall (fun f => validated f = true ->
            (exists str v, simple f str v) /\ exists r, field_spec rules f = Ok r) F.

Lemma select_named_le k name l :
  NoDup (f_name <$> l) -> (length (select_from k (named name) l) <= 1)%nat.
Proof.
  revert k. induction l as [|f l IH]; intros k; cbn [fmap list_fmap select_from]; [cbn; lia|].
  rewrite NoDup_cons. intros [Hf Hl]. destruct (named name f) eqn:Hn; [|by apply IH]. cbn.
  assert (select_from (S k) (named name) l = []) as ->; [|cbn; lia].
  clear IH Hl. apply andb_true_iff in Hn as [_ Hn]. apply bool_decide_eq_true in Hn.
  generalize (S k) as j. induction l as [|g l IH]; intros j; [done|].
  cbn [fmap list_fmap] in Hf. apply not_elem_of_cons in Hf as [Hg Hf]. cbn [select_from].
  unfold named at 1. rewrite (bool_decide_eq_false_2 (f_name g = _)) by congruence.
  rewrite andb_false_r. by apply IH.
Qed.

Lemma select_from_app {A} k (p : A -> bool) l l' :
  select_from k p (l ++ l') = (select_from k p l ++ select_from (k + length l) p l')%list.
Proof.
  revert k. induction l as [|f l IH]; intros k; cbn [app select_from length].
  - by rewrite Nat.add_0_r.
  - rewrite IH. replace (S k + length l)%nat with (k + S (length l))%nat by lia. by destruct (p f).
Qed.

Lemma select_from_lt {A} k (p : A -> bool) l i : i ∈ select_from k p l -> (i < k + length l)%nat.
Proof.
  revert k. induction l as [|f l IH]; intros k; cbn [select_from length]; [by intros ?%not_elem_of_nil|].
  destruct (p f); [intros [->|H]%elem_of_cons; [lia|]|intros H]; apply IH in H; lia.
Qed.

Lemma static_final rules f : static (final rules f) = static f.
Proof. unfold final. destruct (validated f), (field_spec rules f) as [[v w]|]; done. Qed.

Lemma record_new k w l : Some k ∉ map Some l -> record_error (Some k) w (map Some l) = (map Some l ++ map Some (if w then [k] else []))%list.
Proof.
  intros Hk. destruct w; [rewrite record_error_true, decide_False by done; done|].
  rewrite record_error_false, remove_first_notin by done. by rewrite app_nil_r.
Qed.

Section Form.
Context {Sel : Selectors} (o : options) (geo : nat -> string -> geometry) (Date_parse : text -> option Z)
  (UTC LocalTime : Z -> Z) (now : Z)
  (window : string -> option (list nat -> V (option string)))
  (customFunctions : option (string -> option (list nat -> V (option string))))
  (find : list field -> string -> list nat).
Context (o_all : doNotShowAllErrosOnSubmit o = false).

Let rules := allrules o.
Let bad (f : field) : bool := validated f && wrong rules f.

(** The invariant of the loop, after the fields [pre]. *)
Record looped (pre suf : list field) (errorFound : bool) (first : option nat) (s : vstate) : Prop := {
  looped_fields : fields s = (map (final rules) pre ++ suf)%list;
  looped_invalid : InvalidFields s = map Some (select_from 0 bad pre);
  looped_found : errorFound = existsb bad pre;
  looped_first : match first with
    | Some j => errorFound = true /\ exists f, fields s !! j = Some f /\
        clean (prompt_class (f_id f)) = true /\ is_Some (prompt_of (f_id f) (prompts s))
    | None => errorFound = false
    end
}.

Lemma fields_loop_spec calls skip suf : forall pre errorFound first s,
  simple_form rules (pre ++ suf) -> looped pre suf errorFound first s ->
  exists s' e' f', fields_loop o geo Date_parse UTC LocalTime now window customFunctions find (S calls) skip
      (select_from (length pre) validated suf) errorFound first s = (s', Ok (e', f')) /\
    looped (pre ++ suf) [] e' f' s'.
Proof.
  induction suf as [|f suf IH]; intros pre errorFound first s HF Hs.
  { exists s, errorFound, first. rewrite app_nil_r. by split. }
  assert ((pre ++ f :: suf) = ((pre ++ [f]) ++ suf))%list as Happ by by rewrite <-app_assoc.
  cbn [select_from]. destruct Hs as [H1 H2 H3 H4]. destruct (validated f) eqn:Hv.
  - destruct HF as [HN HF]. pose proof HF as HF'. rewrite Forall_app, Forall_cons in HF'. destruct HF' as (_ & Hf & _).
    destruct (Hf Hv) as [(str & v & Hsimple) [[v' w] Hspec]].
    assert (fields s !! length pre = Some f) as Hi.
    { rewrite H1, lookup_app_r; rewrite length_map; [|done]. by rewrite Nat.sub_diag. }
    assert (field_result rules str v = Ok (v', w)) as Hres.
    { destruct Hsimple as (_ & _ & _ & _ & (a & Ha & Hr) & Hval & _). unfold field_spec in Hspec.
      rewrite Ha, Hval in Hspec. cbn in Hspec. by rewrite Hr in Hspec. }
    assert (map static (fields s) = map static (pre ++ f :: suf)) as Hst.
    { rewrite H1, !map_app, map_map. f_equal. apply map_ext. intros g. apply static_final. }
    assert (clean (prompt_class (f_id f)) = true) as Hcl.
    { destruct Hsimple as (_ & _ & (id & Hid & _ & Hcl) & _). rewrite Hid. by apply prompt_class_clean. }
    destruct (validate_text o geo Date_parse UTC LocalTime now window customFunctions find calls skip (length pre)
      f str v v' w s Hi Hsimple) as (s1 & Hrun & [A1 A2 A3 A4]).
    { intros name. rewrite Hst, <-select_map_static by done. by apply select_named_le. }
    { done. }
    cbn [fields_loop]. rewrite (bind_eq _ _ _ _ _ Hrun), o_all.
    assert (bad f = w /\ final rules f = set_f_val (VStr v') f) as [Hb Hfin].
    { unfold bad, wrong, final. by rewrite Hspec, Hv. }
    rewrite Happ. replace (S (length pre)) with (length (pre ++ [f])) by (rewrite length_app; cbn; lia).
    apply IH; [by rewrite <-Happ|]. split.
    + rewrite A1, H1, insert_app_r_alt; rewrite length_map; [|done]. rewrite Nat.sub_diag.
      rewrite map_app, <-app_assoc. cbn [map app]. by rewrite Hfin.
    + rewrite A2, H2, select_from_app, map_app. cbn [select_from]. rewrite Hb, Nat.add_0_l.
      apply record_new. intros (j & Hj0 & Hj)%list_elem_of_fmap. injection Hj0 as <-. apply select_from_lt in Hj. cbn in Hj. lia.
    + rewrite existsb_app, H3. cbn [existsb]. by rewrite Hb, orb_false_r.
    + destruct first as [j|].
      * destruct H4 as [-> (g & Hg & Hgc & Hp)]. split; [done|].
        destruct (decide (j = length pre)) as [->|Hne].
        -- exists (set_f_val (VStr v') f). rewrite A1, list_lookup_insert_eq by (by eapply lookup_lt_Some).
           split; [done|]. rewrite Hi in Hg. injection Hg as <-. split; [done|]. by apply A3.
        -- exists g. rewrite A1, list_lookup_insert_ne by done. split_and!; [done..|]. by apply A3.
      * rewrite H4. cbn [orb]. destruct w; [|done]. split; [done|].
        exists (set_f_val (VStr v') f). rewrite A1, list_lookup_insert_eq by (by eapply lookup_lt_Some).
        split_and!; [done..|]. by apply A4.
  - assert (bad f = false) as Hb by (unfold bad; by rewrite Hv).
    rewrite Happ. replace (S (length pre)) with (length (pre ++ [f])) by (rewrite length_app; cbn; lia).
    apply IH; [by rewrite <-Happ|]. split.
    + rewrite map_app, <-app_assoc, H1. cbn [map app]. assert (final rules f = f) as -> by (unfold final; by rewrite Hv).
      done.
    + rewrite select_from_app, map_app, H2. cbn [select_from]. rewrite Hb. by rewrite app_nil_r.
    + rewrite existsb_app, H3. cbn [existsb]. by rewrite Hb, !orb_false_r.
    + done.
Qed.

(** Scrolling to the first wrong field finds its prompt. *)
Lemma scroll_to_returns j f s :
  fields s !! j = Some f -> clean (prompt_class (f_id f)) = true -> is_Some (prompt_of (f_id f) (prompts s)) ->
  exists lg, scroll_to o (Some j) s = (set_log lg s, Ok tt).
Proof.
  intros Hj Hc [p Hp]. unfold scroll_to.
  rewrite (bind_eq (lift _) _ s s j) by done.
  rewrite (bind_eq _ _ s s tt).
  - destruct (isOverflown o && negb (overflownDIV o)); [exists (log s); by destruct s|].
    rewrite (bind_eq _ _ s (set_log (log s ++ [ScrollTo j]) s) tt) by done. unfold when.
    destruct (focusFirstField o); eexists; reflexivity.
  - destruct (existsb _ _); [done|].
    rewrite (bind_eq (_getPrompt [j]) _ s s (Some p)); [done|].
    rewrite getPrompt_eq.
    replace (mjoin (f_id <$> first_of s [j])) with (f_id f) by (unfold first_of; cbn; by rewrite Hj).
    by rewrite find_prompt_clean, Hp.
Qed.

(** C4: On a form that shows no prompts yet, whose fields have distinct names and whose
    fields to be validated are text inputs with plain ids and names and rules about their
    own value only ([required], [custom], [minSize], [maxSize], [min], [max], all with their
    messages), with [doNotShowAllErrosOnSubmit] off: validating says [true] exactly when
    every field that is shown and enabled passes its rules, lists exactly the others, in
    order, and leaves every value as its rules have normalised it. *)
Theorem validateFields_spec calls skip F :
  simple_form (allrules o) F ->
  let r := _validateFields o geo Date_parse UTC LocalTime now window customFunctions find (S calls) skip (start F) in
  r.2 = Ok (forallb (fun f => negb (validated f && wrong (allrules o) f)) F) /\
  InvalidFields r.1 = map Some (select_from 0 (fun f => validated f && wrong (allrules o) f) F) /\
  fields r.1 = map (final (allrules o)) F.
Proof.
  intros HF. cbn zeta. unfold _validateFields.
  rewrite (bind_eq (raise_event _) _ _ (set_log [FormValidating] (start F)) tt) by done.
  set (s0 := set_log [FormValidating] (start F)).
  rewrite (bind_eq (gets _) _ s0 s0 (select_from 0 validated F)) by done.
  destruct (fields_loop_spec calls skip F [] false None s0 HF) as (s1 & e & first & Hrun & [H1 H2 H3 H4]); [by split|].
  cbn [length] in Hrun. rewrite (bind_eq _ _ _ _ _ Hrun).
  rewrite (bind_eq (raise_event _) _ _ (set_log (log s1 ++ [FormResult e]) s1) tt) by done.
  cbn [app] in *. rewrite app_nil_r in H1.
  assert (forallb (fun f => negb (validated f && wrong (allrules o) f)) F = negb e) as ->.
  { rewrite H3. unfold bad. clear. induction F as [|f F IH]; [done|]. cbn. by rewrite IH, negb_orb. }
  set (s2 := set_log _ s1).
  destruct e; [|by split_and!].
  destruct first as [j|]; [destruct H4 as [_ (f & Hf & Hc & Hp)]|done].
  match goal with |- context [(?m ≫= _) s2] => assert (exists lg, m s2 = (set_log lg s2, Ok tt)) as [lg Hlg] end.
  { destruct (scroll o); [by apply (scroll_to_returns j f)|]. unfold when.
    destruct (focusFirstField o); [|exists (log s2); done].
    rewrite (bind_eq (lift _) _ s2 s2 j) by done. eexists. reflexivity. }
  rewrite (bind_eq _ _ _ _ _ Hlg). by split_and!.
Qed.
End Form.

(** ** A form *)

(** The conditions, decided. *)
Definition simple_b (f : field) : bool :=
  match f_id f, f_attr f ≫= getRules, f_val f with
  | Some i, Some str, VStr _ =>
      String.eqb (f_tag f) "input" && String.eqb (f_type f) "text" && negb (String.eqb i "") && clean i
      && all_chars name_char (shown (f_name f))
      && forallb (fun r => is_local (js_replace " " "" r)) (split_rules str)
  | _, _, _ => false
  end.
Definition simple_form_b (rules : list (string * rule)) (F : list field) : bool :=
  bool_decide (NoDup (f_name <$> F)) &&
  forallb (fun f => negb (validated f) ||
             simple_b f && match field_spec rules f with Ok _ => true | Throw _ => false end) F.

Lemma simple_b_sound f : simple_b f = true -> exists str v, simple f str v.
Proof.
  unfold simple_b. destruct (f_id f) as [i|] eqn:Hi; [|done].
  destruct (f_attr f) as [a|] eqn:Ha; [|done]. cbn. destruct (getRules a) as [str|] eqn:Hr; [|done].
  destruct (f_val f) as [|v|] eqn:Hv; [done| |done].
  rewrite !andb_true_iff, negb_true_iff, !String.eqb_eq, String.eqb_neq, forallb_forall.
  intros (((((Ht & Hty) & Hne) & Hc) & Hnm) & Hl). exists str, v. split_and!; try done; eauto.
  apply Forall_forall. intros r Hin. by apply Hl, list_elem_of_In.
Qed.

Lemma simple_form_sound rules F : simple_form_b rules F = true -> simple_form rules F.
Proof.
  unfold simple_form_b. rewrite andb_true_iff, bool_decide_eq_true, forallb_forall. intros [Hn Hf].
  split; [done|]. apply Forall_forall. intros f Hin Hv. specialize (Hf f (proj1 (list_elem_of_In _ _) Hin)).
  rewrite Hv in Hf. cbn in Hf. apply andb_true_iff in Hf as [Hs Hr]. split; [by apply simple_b_sound|].
  destruct (field_spec rules f); [by eexists|done].
Qed.

Import Example_form.

Definition user_form : list field :=
  [text_field "name" "required,minSize[2],custom[letterNum]" "  li "; text_field "port" "custom[integer],max[65535]" "70000";
   text_field "note" "custom[ipv4]" ""].

Lemma validateFields_spec_witness :
  let r := _validateFields defaults geo (fun _ => None) id id 0 (fun _ => None) None (fun _ _ => []) 1 true (start user_form) in
  r.2 = Ok false /\ InvalidFields r.1 = [Some 1%nat] /\ map f_val (fields r.1) = map VStr [units "li"; units "70000"; []].
Proof.
  destruct (validateFields_spec defaults geo (fun _ => None) id id 0 (fun _ => None) None (fun _ _ => []) eq_refl 0 true
    user_form) as (H1 & H2 & H3).
  - apply simple_form_sound. vm_compute. reflexivity.
  - cbn zeta. rewrite H1, H2, H3. vm_compute. split; [reflexivity|split; reflexivity].
Defined.
